(* ===== verification/_CoqProject ===== *)
-Q . S2P
Prelude.v
GoStrings.v
GoTime.v
GoJson.v
Regex.v
Policy.v
Capability.v
CapabilityStore.v
Correlation.v
Http.v
Outbox.v
CapabilityRest.v
Proxy.v
Release.v
PushTripwire.v
Net.v
ReceivePack.v
GitTransport.v
ReadAccess.v
RepoApi.v
CIStatus.v
GitHubApi.v
Idempotency.v
PullCreate.v
Limits.v
SecurityScan.v
Mutations.v
MutationGate.v
CommentOnce.v
Sandbox.v
Parameters.v
Paths.v
SandboxConfig.v
ConfigSafety.v
LaunchIntents.v
Process.v
Url.v
GitHubClient.v
GitHubCalls.v
GitHubMaterial.v
GitHubOrder.v
GitHubPush.v
GitHubEvidence.v
GitHubSim.v
Reporter.v
ReporterReach.v
CodexRelay.v
AuditLog.v
BrokerConfig.v
PushMaterialApi.v
BrokerApi.v
ApiDocs.v
ReleaseArtifact.v
CodexHolder.v
Docker.v
Launch.v
LaunchInvariant.v
LaunchSafety.v
LaunchSim.v
LaunchHistory.v
LaunchProgress.v
Cleanup.v
Retention.v
Slim.v
TerminalResult.v
Redaction.v
Artifacts.v
DockerExec.v
CodexRun.v
CodexWorkflow.v
CodexOrder.v
CodexSafety.v
CodexSim.v
OperatorApi.v
ReleaseApi.v
OperatorGate.v
ReleaseGate.v
OperatorLaunch.v
