(* ===== verification/Prelude.v ===== *)
(** * gh-agent-broker: a model of the broker and its correctness

    ** The program

    gh-agent-broker stands between autonomous agents and GitHub (and the model
    API).  Agents hold no credentials of either: every operation is decided by
    a deny-by-default policy, executed with the broker's own credentials, and
    recorded durably.  Its parts, under src/internal/:

    - policy decides what an agent may do; server authenticates agents, asks
      policy, and reads from or writes to GitHub on their behalf, including the
      Git transport (clone and push over smart HTTP);
    - capability keeps the per-run capabilities: opaque handles with an expiry,
      a set of models and call and token budgets; its REST API serves server
      (verify) and proxy (verify and reserve);
    - proxy is the facade of the model API: it sends a request upstream only
      after the run's capability has paid for it;
    - correlation records which run created which pull request, with an outbox
      of events that one consumer drains through server/outbox.go;
    - idempotency and metadata make a retried mutation converge;
    - config is the broker's configuration, which server reloads;
    - release is the registry of agent images, from candidate to active;
    - pushtripwire records the responses to findings on pushed commits: it halts
      issuance and fences workers;
    - sandbox launches the agents' workers as containers: it selects the image
      (from release), issues the run's capability, and keeps a durable index of
      launches, so that a launch survives the death of the process; it answers
      the operators' REST API, reports how runs ended, and removes or slims old
      ones;
    - codexauth refreshes the shared Codex credential and issues it to runs;
    - codexrelay is the one way of these runs to the Codex API;
    - audit is the log of what all of these decide;
    - reporter lets agents without credentials of the broker report issues
      through it;
    - githubapp is the client of GitHub: it exchanges and keeps the tokens of
      the app's installations, and is what all of these reach GitHub through.

    ** The files and what they model

    The root (this file) holds what all share: Go's value-or-error pairs
    ([result]), machine integers ([int64], [wrap64]), transactions
    ([atomically]), faults, lists, tactics.  Then

    - GoStrings (package strings and unicode/utf8, as used), GoTime (instants
      and the text the stores keep them as), GoJson (json.Marshal of strings),
      Regex (the constant patterns of the source), Net (basic authentication,
      query strings, headers), Http (requests and responses of the JSON APIs):
      the parts of Go's standard library the code relies on;
    - Policy: policy/policy.go.  [Check] and its helpers;
    - Capability: capability/capability.go.  [NewClaims], [Validate], [Authorize];
    - CapabilityStore: capability/store.go.  [Issue], [Verify], [Reserve],
      [Revoke] and [ValidateStore] over the table of rows;
    - CapabilityRest: capability/rest.go, server/capability.go and
      proxy/capability.go, the API and its two clients, over a network that
      delivers, loses the request or loses the response;
    - Proxy: proxy/proxy.go, proxy/capability_enforce.go and proxy/audit.go,
      against the class [CapabilityAPI] with its laws [CapabilityAPILaws]; the
      client of CapabilityRest over CapabilityStore is the instance [store_api];
    - Correlation: correlation/correlation.go, and Outbox: server/outbox.go;
    - Idempotency: idempotency/idempotency.go and metadata/metadata.go, and
      PullCreate: the correlated creation of pull requests in
      server/server.go, over Idempotency and Correlation;
    - BrokerConfig: config/config.go, with the start and the reloads of
      server/server.go ([New], [Reload]);
    - Release: release/release.go; ReleaseArtifact: the image archives of
      sandbox/release_artifact.go; ReleaseApi: sandbox/release_rest.go and
      sandbox/promoter_auth.go over both, with their theorem in ReleaseGate;
    - PushTripwire: pushtripwire/pushtripwire.go, the handler of responses in
      server/server.go and its configuration; PushMaterialApi: the handler of
      material;
    - ReceivePack: the reader of a push's command prefix; GitTransport: handleGit
      of server/server.go with auth/auth.go and the lookups of config/config.go;
      ReadAccess: the gate of the read endpoints; CIStatus: requiredCI,
      aggregateCI and the answer built from them;
    - GitHubApi: the records of api/types.go and the calls of githubapp/client.go
      that change something; RepoApi: handleRepoAPI and the endpoints of
      server/server.go that read; Limits: limits/limits.go; SecurityScan:
      securityscan/securityscan.go; Mutations: the handlers of server/server.go
      that change GitHub, over all of these and PullCreate, with their
      theorems in MutationGate (any request) and CommentOnce (the attempts on
      an issue, as steps of a transition system [CommentOnce.step]);
    - GitHubClient: the tokens and the requests of githubapp/client.go over a
      network that answers anything (the class [GitHub]; Url has the parts of
      net/url it uses); GitHubCalls: its calls, those of GitHubApi and RepoApi
      included; GitHubMaterial: PushTripwireMaterial, the input of the detector of
      pushed secrets.  GitHubOrder, GitHubPush and GitHubEvidence have the theorems
      about tokens, about the material of a push and about pages of annotations,
      GitHubSim a small GitHub;
    - Reporter: reporter/reporter.go; ReporterReach: what the broker reads of its
      requests;
    - Sandbox: what sandbox/service.go and sandbox/capability_launch.go decide
      about a launch (template, branch, runtime, image, specification, claims);
      LaunchIntents: sandbox/launch_intents.go; Docker: the calls of
      sandbox/runtime.go to the engine (the class [DockerEngine], with its laws
      [DockerLaws]); Launch: the handlers of sandbox/service.go (LaunchProfile,
      Reconcile, GetAgentStatus, StopAgent, the watchers) over these three and
      CapabilityStore.  Process has their program logic; LaunchInvariant,
      LaunchSafety, LaunchHistory and LaunchProgress the proofs, LaunchSim an
      engine and a service that run them.

    - Parameters: the typed parameters of launch profiles; Paths: package
      path/filepath, as used; SandboxConfig: the declarations of
      sandbox/config.go, their defaults and [Validate], with what a valid
      configuration guarantees about launches in ConfigSafety.

    - Cleanup: the removal of a run (CleanupRun of sandbox/service.go); Retention:
      sandbox/retention.go; Slim: sandbox/slim.go; TerminalResult:
      sandbox/terminal_result.go; Redaction: sandbox/redaction.go, with what
      the redactor hides; Artifacts: sandbox/artifacts.go, with what it collects
      from a directory nobody changes meanwhile;
    - OperatorApi: the routes of sandbox/rest.go over an interface of the
      service; OperatorGate: what a request may make the service do; OperatorLaunch:
      the interface implemented by Launch and Cleanup, and the histories of
      requests;
    - BrokerApi: the dispatch of every request ([ServeHTTP]), whoami, reload and
      dry runs of server/server.go; ApiDocs: the documents the server describes
      its routes with, as they are served;
    - CodexHolder: codexauth/holder.go; CodexRelay: codexrelay/relay.go; AuditLog:
      audit/audit.go;
    - the runs of sandbox/codex_workflow.go: DockerExec, the commands in
      containers of sandbox/runtime.go (the class [DockerExec]); CodexRun, their
      metadata and the reports of their containers; CodexWorkflow, the handlers
      ([resumeCodexIssueWorkflow] and its phases, [watcher], [ResumeRun],
      [Reconcile], [StopAgent], [watchTimeout]) over the world of one run, with
      its row, files, engine, holder and memory, and a log of what was asked and
      saved ([x_log]).  CodexOrder says what such a log may hold, CodexSafety
      proves it, CodexSim runs the handlers on an engine.

    Definitions carry the names of the source (a trailing underscore where a
    record and a function share a name); the sections of a file follow the order
    of the source.

    ** How the model is built

    - A store is a value; an operation maps it to the new store and a result.
      The SQLite stores run an operation in one transaction, so a failed call
      leaves the old value ([atomically]).
    - What the outside answers is an argument: clock readings, random bytes,
      which database call fails ([fault]: the failing call, if any, by its order
      in the operation), GitHub's, the upstream's and the Docker
      adapter's answers.  A theorem that quantifies over them holds whatever
      they do.  SHA-256 and the operator's regular expressions are parameters;
      the theorems that need it assume that SHA-256 does not collide on the
      values at hand, and have a witness where it does not.
    - Histories are lists of calls, with their arguments, folded over a store:
      calls of concurrent clients in the order their transactions commit.  Code
      that takes two transactions (an image verification, a fence) contributes
      two calls, and others may come between.
    - The sandbox's handlers take many effects (statements, files, calls of the
      engine), and the process may die before each: they are programs of
      Process.v, [prog], which number their effects; clock readings, random
      bytes, faults and the death of the process are functions of that number
      ([Service]).  A history interleaves whole handlers; a handler that dies
      leaves the durable part of the world as it is and loses the memory.  For
      Codex runs, whose stops and deadlines take no lock, there is a second kind
      of history, in which other handlers of the run act before any effect of a
      handler ([CodexWorkflow.overlapped]).
    - Integers whose overflow matters are kept in their width ([wrap64]).
      A time is a count of nanoseconds, with the text form where SQL compares
      texts.
    - Recursion is structural, except in the readers of text that take a piece
      of varying length from its front: packets ([ReceivePack.readCommands],
      [ReceivePack.rejected_from]), UTF-8 sequences ([GoJson.map_runes],
      [GoJson.valid_runes]), white space ([GoStrings.strip_any],
      [Net.fields_from]), and in the search of SecurityScan, whose fuel of 257 is
      enough because every value is visited once and at most 256 are seen
      ([SecurityScan.scan_terminates]), in the loop over pages of annotations, whose
      fuel is the pages that fit the bound ([GitHubCalls.pages], enough by
      [GitHubEvidence.annotations_whole]), and in the delivery of a Codex run, which may
      recover and deliver again: one recovery is enough ([CodexWorkflow.recoveries];
      [CodexSafety.codex_order] shows that the bound is never reached).  The readers take fuel, and are called with the length of the
      text (or one more), which is enough because every piece has at least one
      byte.  For the reader of pushes running out of fuel is an error of its own
      and [ReceivePack.readReceivePackCommandPrefix_exact] rules it out.

    ** What the theorems show

    - Spending: budgets are never exceeded under any history and faults, from
      [Authorize] (Capability) through the reservations (CapabilityStore) to the
      requests sent upstream (Proxy); a revoked handle is dead for good; only
      verified and paid requests go upstream.
    - Authorization: [Check] is equivalent to an independent statement of the
      policy; handleGit forwards exactly the specified requests and no
      credentials of the agent; data leaves the read endpoints, and calls that
      change GitHub are made, only past the same gates; the titles, bodies,
      branches and messages written are clean of credential shapes within two
      layers of decoding, and pull requests and issues are counted in the run's
      budget; a refusal changes nothing.
    - Scanning and budgets: the scan ends within 256 values and is sound and
      complete for its patterns up to its size limits; budgets are never
      exceeded.
    - Comments: where records have a path, no two comments under one key, however
      attempts are interrupted.
    - Correlation: one event per operation, exclusive claims up to their TTL,
      redelivery after it, finality of acknowledgements, bounds of the text
      order of times; a pull request is created at most once after its
      correlation is recorded, and completed requests are replayed.
    - Configuration: over every history of reloads the configuration in force is
      a validated one, and names the stores that are open.
    - Registries: at most one active image per agent type, digest pinned and
      verified; reconciliation fails closed; the audit trail is append-only;
      halts are final and responses are applied once.  A request of the release
      routes changes the registry only in the ways its promoter may ask for, and
      a published release is the artifact sent, loaded and observed, whatever
      other requests do meanwhile.
    - Evidence: an answer of success to a CI question means that every required
      check was reported as passing at the very commit asked about.
    - Parsing: the command prefix of a push is read exactly, with nothing lost,
      and is the inverse of a Git client's encoding.
    - Launches: over every history of keyed launches, polls, stops, firing
      watchers, deaths and restarts no container is started twice, a key stands
      for one run and one request, the profiles' limits hold, and intents that
      ended stay ended; a launch that meets no failure starts its container; a
      launch is selected exactly when the operator's policy admits it.
    - Operators: a call of the service is made only for a principal that may make
      it on that run; where no profile has a Codex workflow and all require a key,
      the guarantees of launches hold over histories of requests.
    - Ended runs: the terminal result is the broker's where it must be, and where
      it is the worker's it is bounded, and redacted and checked as far as the
      theorem says; a prune or a slimming touches only the runs it decided on, in
      an order that survives a death at any effect, and the choice of these runs
      is given by a formula.
    - Codex runs: however their handlers overlap and die, nothing is started or
      accepted without what must come before it: the model runs only on an
      accepted preparation, only a verified execution is delivered, a lost lease
      is recovered once.  As long as handlers do not overlap, the phases also happen in
      their order and an ended run stays ended ([CodexSafety.codex_order]); where
      a stop overlaps with a watcher it does not ([CodexSim.stop_in_the_midst]).
    - Credentials: the master file is always one whole credential, a refresh that
      the provider answered is not lost by a restart, and issuances are bounded.
    - GitHub: a token of an installation goes only to the API, in requests for its
      very app and installation, while it is good; the material of a push is the
      whole difference or a reason; a page of evidence is never dropped.
    - The relay passes on the requests of its table to their one origin, and
      nothing else; a line of the audit log is clean of credential shapes or tells
      of a finding only.
    - Reports: what the reporter writes into a request is what the broker's
      router and parsers read from it, and it stays within its configuration.
    - Documents: a dry run is answered as policy answers the operation it stands
      for, where the assertions look at what a dry run has; the served documents
      describe the routes.
    - Sandbox configuration: a container of a valid configuration has what the
      configuration declares and nothing else.
    - Reachable stores pass the offline validators (Validate, ValidateStore).

    Several files end with examples that show where the code falls short of
    its comments, such as [PullCreate.lost_response_duplicates],
    [MutationGate.replay_crosses_agents], [Correlation.claim_stolen_early] and [PushTripwire.fences_without_the_action].

    ** What is not modelled

    Decoding YAML and JSON text into structures (a decoded value is the
    argument), SQLite itself with its schema migrations, the HTTP exchange with
    GitHub, Docker and the model API (their answers are arguments; for GitHub they
    come after the redirects of net/http), opening the
    audit files, and the commands that wire the packages together.  Of the sandbox:
    error texts and diagnostics, the completion status file, and,
    except for Codex runs, interleavings inside a handler.  The handlers of one
    run do not all exclude each other: StopAgent and watchTimeout take no lock of
    the run, a launch repeated under its key takes another lock than the watchers
    and resumptions of a Codex run, and the row of a launch is updated without a
    condition; what then overlaps is in the histories [CodexWorkflow.overlapped]
    for Codex runs, and left out for plain ones.  The shared provenance of a
    Codex run, which Go changes in memory before it is saved, changes here when it
    is saved.  Launches with a Codex workflow begin, in CodexWorkflow, when their
    intent has been created; LaunchHistory and OperatorLaunch have those without.
    The histories leave out launches without a key, which keep no intent. *)

From Stdlib Require Export ZArith Lia Bool.
From stdpp Require Export base tactics numbers list strings gmap sorting.

(** ** Results

    Go's [(value, error)] pairs: a call either returns a value or an error. *)

Inductive result (E A : Type) : Type :=
| Ok (a : A)
| Err (e : E).
Arguments Ok {E A} a.
Arguments Err {E A} e.

#[global] Instance result_ret E : MRet (result E) := λ A a, Ok a.
#[global] Instance result_bind E : MBind (result E) := λ A B k m,
  match m with Ok a => k a | Err e => Err e end.

Definition is_ok {E A} (r : result E A) : bool :=
  match r with Ok _ => true | Err _ => false end.

Declare Scope go_scope.
Delimit Scope go_scope with go.

(** [fail_if c with e ;; k] is Go's [if c { return e }; k]. *)
Notation "'fail_if' c 'with' e ;; k" :=
  (if c then Err e else k)
  (at level 10, c at level 99, e at level 99, k at level 200,
   format "'[v' 'fail_if'  c  'with'  e ;; '/' k ']'") : go_scope.
Open Scope go_scope.

Lemma bind_ok {E A B} (m : result E A) (k : A → result E B) b :
  m ≫= k = Ok b → ∃ a, m = Ok a ∧ k a = Ok b.
Proof. destruct m; simpl; [eauto | discriminate]. Qed.

Lemma bind_ok_iff {E A B} (m : result E A) (k : A → result E B) b :
  m ≫= k = Ok b ↔ ∃ a, m = Ok a ∧ k a = Ok b.
Proof. split; [apply bind_ok|]. by intros (a & -> & ?). Qed.

Lemma fail_if_ok {E A} (c : bool) (e : E) (k : result E A) a :
  (fail_if c with e ;; k) = Ok a ↔ c = false ∧ k = Ok a.
Proof. destruct c; naive_solver. Qed.

(** ** Transactions

    A database transaction (SQLite with one connection, BEGIN ... COMMIT and
    a deferred rollback) or a state file replaced by rename: the body either
    commits a new state together with a value, or returns an error and leaves
    the durable state as it was. *)

Definition atomically {S E A} (s : S) (body : result E (S * A)) : S * result E A :=
  match body with
  | Ok (s', a) => (s', Ok a)
  | Err e => (s, Err e)
  end.

Lemma atomically_ok {S E A} (s s' : S) (b : result E (S * A)) a :
  atomically s b = (s', Ok a) ↔ b = Ok (s', a).
Proof. destruct b as [[??]|?]; simpl; split; intros; simplify_eq; done. Qed.

Lemma atomically_err {S E A} (s s' : S) (b : result E (S * A)) e :
  atomically s b = (s', Err e) → s' = s ∧ b = Err e.
Proof. destruct b as [[??]|?]; simpl; intros; simplify_eq; done. Qed.

Lemma atomically_inv {S E A} (P : S → Prop) (s : S) (b : result E (S * A)) :
  P s → (∀ s' a, b = Ok (s', a) → P s') → P (atomically s b).1.
Proof. destruct b as [[??]|?]; simpl; eauto. Qed.

(** Split a concrete run into the state it leaves and the value it returns. *)
Lemma run_pair {S A} (p : S * A) a : p.2 = a → p = (p.1, a).
Proof. destruct p; cbn. congruence. Qed.

(** Which call of an operation to the database or the file system reports an
    error, if any; calls are counted from 0 in program order. *)
Definition fault := option nat.
Definition fails (fl : fault) (k : nat) : bool := bool_decide (fl = Some k).

Lemma fails_none k : fails None k = false.
Proof. reflexivity. Qed.

(** ** Machine integers: Go's [int] and [int64] are 64-bit two's complement. *)

Definition min_int64 : Z := -9223372036854775808.
Definition max_int64 : Z := 9223372036854775807.
Definition int64 (z : Z) : Prop := (min_int64 ≤ z ≤ max_int64)%Z.
Definition wrap64 (z : Z) : Z :=
  ((z + 9223372036854775808) mod 18446744073709551616 - 9223372036854775808)%Z.

Lemma wrap64_id z : int64 z → wrap64 z = z.
Proof.
  unfold int64, wrap64, min_int64, max_int64. intros ?.
  rewrite Z.mod_small; lia.
Qed.

Lemma wrap64_int64 z : int64 (wrap64 z).
Proof.
  unfold int64, wrap64, min_int64, max_int64.
  pose proof (Z.mod_pos_bound (z + 9223372036854775808) 18446744073709551616 ltac:(lia)).
  lia.
Qed.

(** ** Lists *)

(** Go's [len(l) == 0]. *)
Definition is_nil {A} (l : list A) : bool := match l with [] => true | _ => false end.

Lemma is_nil_true {A} (l : list A) : is_nil l = true ↔ l = [].
Proof. by destruct l. Qed.

Lemma is_nil_false {A} (l : list A) : is_nil l = false ↔ l ≠ [].
Proof. by destruct l. Qed.

Lemma elem_exists_cons {A} (P : A → Prop) y l :
  (∃ x, x ∈ y :: l ∧ P x) ↔ P y ∨ ∃ x, x ∈ l ∧ P x.
Proof.
  setoid_rewrite elem_of_cons. split; [intros (x & [->|?] & ?)|intros [?|(x & ? & ?)]]; eauto.
Qed.

Lemma elem_forall_cons {A} (P : A → Prop) y l :
  (∀ x, x ∈ y :: l → P x) ↔ P y ∧ ∀ x, x ∈ l → P x.
Proof.
  setoid_rewrite elem_of_cons. split; [by auto 6 | intros [??] x [->|?]; by eauto].
Qed.

Lemma elem_exists_nil {A} (P : A → Prop) : (∃ x, x ∈ @nil A ∧ P x) ↔ False.
Proof. split; [intros (x & Hx & _); by apply elem_of_nil in Hx | done]. Qed.

Lemma elem_forall_nil {A} (P : A → Prop) : (∀ x, x ∈ @nil A → P x) ↔ True.
Proof. split; [done | intros _ x Hx; by apply elem_of_nil in Hx]. Qed.

Lemma existsb_elem_of {A} (f : A → bool) l :
  existsb f l = true ↔ ∃ x, x ∈ l ∧ f x = true.
Proof. rewrite existsb_exists. by setoid_rewrite list_elem_of_In. Qed.

Lemma forallb_elem_of {A} (f : A → bool) l :
  forallb f l = true ↔ ∀ x, x ∈ l → f x = true.
Proof. rewrite forallb_forall. by setoid_rewrite list_elem_of_In. Qed.

Lemma if_bool_ext {A} (P Q : Prop) `{Decision P, Decision Q} (x y : A) :
  (P ↔ Q) → (if bool_decide P then x else y) = (if bool_decide Q then x else y).
Proof. intros E. by rewrite (bool_decide_ext _ _ E). Qed.

Lemma find_id {A} (key : A → Z) l x :
  NoDup (map key l) → x ∈ l → List.find (λ y, (key y =? key x)%Z) l = Some x.
Proof.
  induction l as [|y l IH]; cbn; [by intros _ ?%elem_of_nil|].
  intros [Hn Hd]%NoDup_cons [->|Hin]%elem_of_cons; [by rewrite Z.eqb_refl|].
  destruct (Z.eqb_spec (key y) (key x)) as [E|]; [|auto].
  destruct Hn. rewrite E. by apply list_elem_of_fmap_2.
Qed.

Lemma find_some_in {A} (f : A → bool) l x : List.find f l = Some x → x ∈ l ∧ f x = true.
Proof. intros [? ?]%find_some. by rewrite list_elem_of_In. Qed.

Lemma find_none_all {A} (f : A → bool) l x : List.find f l = None → x ∈ l → f x = false.
Proof. intros H ?%list_elem_of_In. by eapply find_none. Qed.

Lemma find_app_l {A} (f : A → bool) l l' x : List.find f l = Some x → List.find f (l ++ l') = Some x.
Proof. induction l as [|y l IH]; cbn; [done|]. by destruct (f y). Qed.

Lemma existsb_false {A} (f : A → bool) l : (∀ x, x ∈ l → f x = false) → existsb f l = false.
Proof.
  intros H. destruct (existsb f l) eqn:E; [|done]. apply existsb_elem_of in E as (x & Hx & E).
  by rewrite H in E.
Qed.

(** Elements of a table whose keys are distinct are determined by the key. *)
Lemma same_key {A} (key : A → Z) l x y :
  NoDup (map key l) → x ∈ l → y ∈ l → key x = key y → x = y.
Proof.
  intros Hn Hx Hy E. pose proof (find_id key _ _ Hn Hx) as F.
  rewrite E, (find_id key _ _ Hn Hy) in F. congruence.
Qed.

Lemma flat_map_nil {A B} (f : A → list B) l : flat_map f l = [] ↔ ∀ x, x ∈ l → f x = [].
Proof.
  induction l as [|x l IH]; cbn; [split; [by intros _ ? ?%elem_of_nil|done]|].
  rewrite app_nil, IH. split.
  - intros [H1 H2] y [->|Hy]%elem_of_cons; auto.
  - intros H. split; [apply H; by left|]. intros y Hy. apply H. by right.
Qed.

(** ** Automation *)

Create HintDb go.
#[export] Hint Resolve wrap64_int64 : go.

(** Turn boolean tests in the hypotheses into the propositions they decide. *)
Ltac bool_hyps :=
  repeat match goal with
  | H : (_ || _) = false |- _ => apply orb_false_iff in H; destruct H
  | H : (_ && _) = true |- _ => apply andb_true_iff in H; destruct H
  | H : negb _ = true |- _ => apply negb_true_iff in H
  | H : negb _ = false |- _ => apply negb_false_iff in H
  | H : String.eqb _ _ = true |- _ => apply String.eqb_eq in H
  | H : String.eqb _ _ = false |- _ => apply String.eqb_neq in H
  | H : bool_decide _ = true |- _ => apply bool_decide_eq_true in H
  | H : bool_decide _ = false |- _ => apply bool_decide_eq_false in H
  | H : is_nil _ = true |- _ => apply is_nil_true in H
  | H : is_nil _ = false |- _ => apply is_nil_false in H
  | H : Z.ltb _ _ = true |- _ => apply Z.ltb_lt in H
  | H : Z.ltb _ _ = false |- _ => apply Z.ltb_ge in H
  | H : Z.leb _ _ = true |- _ => apply Z.leb_le in H
  | H : Z.leb _ _ = false |- _ => apply Z.leb_gt in H
  | H : Z.eqb _ _ = true |- _ => apply Z.eqb_eq in H
  | H : Z.eqb _ _ = false |- _ => apply Z.eqb_neq in H
  end.

(** Case analysis on every early return of an unfolded handler. *)
Ltac guards H :=
  cbv beta zeta in H;
  repeat match type of H with
  | context [if ?c then _ else _] => destruct c eqn:?; try discriminate H
  end; try discriminate H.

(** The same for the returns before the next call ([bind_ok] takes that one). *)
Ltac peel H :=
  cbv beta zeta in H;
  repeat match type of H with
  | (if ?c then _ else _) = _ => destruct c eqn:?; try discriminate H
  end.
