(* ===== verification/GoStrings.v ===== *)
(** * Go's [strings] package, as far as the broker uses it

    A Go string is a byte sequence: here a [string], one [ascii] per byte. *)

From S2P Require Import Prelude.
From Stdlib Require Export Ascii.
From Stdlib Require String.
Open Scope string_scope.
Open Scope list_scope.

Definition chars (s : string) : list ascii := String.list_ascii_of_string s.
Definition code (c : ascii) : nat := nat_of_ascii c.
Definition in_range (lo hi : nat) (c : ascii) : bool :=
  (lo <=? code c)%nat && (code c <=? hi)%nat.
Definition is_digit := in_range 48 57.
Definition is_lower := in_range 97 122.
Definition is_upper := in_range 65 90.
Definition is_lower_hex (c : ascii) : bool := is_digit c || in_range 97 102 c.
Definition is_hex (c : ascii) : bool := is_lower_hex c || in_range 65 70 c.
Definition all_chars (p : ascii → bool) (s : string) : bool := forallb p (chars s).

Fixpoint sdrop (n : nat) (s : string) : string :=
  match n, s with
  | S n, String _ s => sdrop n s
  | O, _ => s
  | _, EmptyString => EmptyString
  end.

Fixpoint stake (n : nat) (s : string) : string :=
  match n, s with
  | S n, String c s => String c (stake n s)
  | _, _ => EmptyString
  end.

(** strings.HasPrefix, TrimPrefix, Index, Contains, Count of one byte *)
Fixpoint has_prefix (p s : string) : bool :=
  match p, s with
  | EmptyString, _ => true
  | String c p, String d s => Ascii.eqb c d && has_prefix p s
  | String _ _, EmptyString => false
  end.
Definition trim_prefix (p s : string) : string :=
  if has_prefix p s then sdrop (String.length p) s else s.
Fixpoint index_of (sub s : string) : option nat :=
  if has_prefix sub s then Some 0
  else match s with
       | EmptyString => None
       | String _ s => S <$> index_of sub s
       end.
Definition contains (s sub : string) : bool :=
  match index_of sub s with Some _ => true | None => false end.
Fixpoint count_char (c : ascii) (s : string) : nat :=
  match s with
  | EmptyString => 0
  | String d s => (if Ascii.eqb c d then 1 else 0) + count_char c s
  end.

(** strings.Join *)
Definition join (sep : string) (l : list string) : string := String.concat sep l.

Definition str (l : list nat) : string := String.string_of_list_ascii (map ascii_of_nat l).

(** The UTF-8 encodings of the runes for which unicode.IsSpace holds. *)
Definition space_encodings : list string :=
  map str ([[9]; [10]; [11]; [12]; [13]; [32]; [194; 133]; [194; 160];
            [225; 154; 128]; [226; 128; 168]; [226; 128; 169];
            [226; 128; 175]; [226; 129; 159]; [227; 128; 128]]
           ++ map (λ k, [226; 128; 128 + k]) (seq 0 11)).

Fixpoint strip_any (fuel : nat) (encs : list string) (s : string) : string :=
  match fuel with
  | O => s
  | S fuel =>
    match List.find (λ e, has_prefix e s) encs with
    | Some e => strip_any fuel encs (sdrop (String.length e) s)
    | None => s
    end
  end.

Definition trim_left_space (s : string) : string :=
  strip_any (String.length s) space_encodings s.
Definition trim_right_space (s : string) : string :=
  String.rev (strip_any (String.length s) (map String.rev space_encodings) (String.rev s)).
(** strings.TrimSpace *)
Definition trim_space (s : string) : string := trim_right_space (trim_left_space s).

(** strings.ToLower: ASCII letters, and the two other runes whose lower case
    is ASCII (U+212A KELVIN SIGN and U+0130).  The remaining runes map to
    non-ASCII runes; they are kept, which no comparison with an ASCII literal
    can observe. *)
Definition lower_char (c : ascii) : ascii :=
  if is_upper c then ascii_of_nat (code c + 32) else c.
Fixpoint to_lower (s : string) : string :=
  match s with
  | EmptyString => EmptyString
  | String c0 r1 =>
    match r1 with
    | String c1 r2 =>
      if (code c0 =? 196)%nat && (code c1 =? 176)%nat then String "i" (to_lower r2)
      else match r2 with
           | String c2 r3 =>
             if (code c0 =? 226)%nat && (code c1 =? 132)%nat && (code c2 =? 170)%nat
             then String "k" (to_lower r3)
             else String (lower_char c0) (to_lower r1)
           | EmptyString => String (lower_char c0) (to_lower r1)
           end
    | EmptyString => String (lower_char c0) EmptyString
    end
  end.

(** strings.EqualFold: ASCII letters up to case, and the two other runes that
    fold to an ASCII letter (U+212A to k, U+017F to s); any other rune is
    compared as it is. *)
Fixpoint fold_case (s : string) : string :=
  match s with
  | EmptyString => EmptyString
  | String c0 r1 =>
    match r1 with
    | String c1 r2 =>
      if (code c0 =? 197)%nat && (code c1 =? 191)%nat then String "s" (fold_case r2)
      else match r2 with
           | String c2 r3 =>
             if (code c0 =? 226)%nat && (code c1 =? 132)%nat && (code c2 =? 170)%nat
             then String "k" (fold_case r3)
             else String (lower_char c0) (fold_case r1)
           | EmptyString => String (lower_char c0) (fold_case r1)
           end
    | EmptyString => String (lower_char c0) EmptyString
    end
  end.
Definition equal_fold (a b : string) : bool := fold_case a =? fold_case b.

(** ** Facts *)

Lemma sapp_nil s : "" +:+ s = s.
Proof. reflexivity. Qed.
Lemma sapp_cons c a s : String c a +:+ s = String c (a +:+ s).
Proof. reflexivity. Qed.
Lemma sapp_nil_r s : s +:+ "" = s.
Proof. induction s as [|c s IH]; [done|]. by rewrite sapp_cons, IH. Qed.
Lemma sapp_assoc a b c : (a +:+ b) +:+ c = a +:+ (b +:+ c).
Proof. induction a as [|d a IH]; [done|]. by rewrite !sapp_cons, IH. Qed.
Lemma length_sapp a b : String.length (a +:+ b) = (String.length a + String.length b)%nat.
Proof. induction a as [|d a IH]; [done|]. by rewrite sapp_cons; cbn; rewrite IH. Qed.
#[export] Hint Rewrite sapp_nil sapp_cons sapp_nil_r sapp_assoc length_sapp : go.

Lemma length_sdrop n s : String.length (sdrop n s) = (String.length s - n)%nat.
Proof. revert s; induction n as [|n IH]; intros [|c s]; cbn; auto. Qed.

Lemma stake_sdrop n s : stake n s +:+ sdrop n s = s.
Proof.
  revert s; induction n as [|n IH]; intros [|c s]; try done.
  cbn [stake sdrop]. by rewrite sapp_cons, IH.
Qed.

Lemma has_prefix_drop p s : has_prefix p s = true ↔ s = p +:+ sdrop (String.length p) s.
Proof.
  revert s; induction p as [|c p IH]; intros s; cbn.
  { split; reflexivity. }
  destruct s as [|d s]; [done|].
  rewrite andb_true_iff, Ascii.eqb_eq, IH. split.
  - intros [-> Hs]. by rewrite Hs at 1.
  - intros H. by injection H as -> H.
Qed.

Lemma trim_prefix_app p s : trim_prefix p (p +:+ s) = s.
Proof.
  unfold trim_prefix.
  assert (sdrop (String.length p) (p +:+ s) = s) as Hd by (induction p as [|c p IH]; [reflexivity | exact IH]).
  assert (has_prefix p (p +:+ s) = true) as ->; [|done].
  apply has_prefix_drop. by rewrite Hd.
Qed.

Lemma equal_fold_refl s : equal_fold s s = true.
Proof. apply String.eqb_refl. Qed.

Example trim_space_ascii : trim_space " enforce	 " = "enforce".
Proof. reflexivity. Qed.
Example trim_space_nbsp : trim_space (str [194; 160; 97; 226; 128; 129]) = "a".
Proof. reflexivity. Qed.
Example equal_fold_repo : equal_fold "Owner/Repo" "owner/rEPO" = true.
Proof. reflexivity. Qed.
