(* ===== verification/GoTime.v ===== *)
(** * Go's [time.Time] and the text form the stores keep

    An instant is the number of nanoseconds since the Unix epoch.  The SQLite
    stores keep instants as text, [t.UTC().Format(time.RFC3339Nano)]:
    [formatTime].  SQL compares that text byte by byte, so the file relates
    the order of the texts to the order of the instants. *)

From Stdlib Require Import OrdersEx.
From S2P Require Import Prelude GoStrings.
From stdpp Require Import pretty.
Open Scope string_scope.
Open Scope Z_scope.

Definition time := Z.
Definition second : Z := 1000000000.
(** The zero [time.Time], 0001-01-01T00:00:00Z. *)
Definition zero_time : time := -62135596800 * second.
Definition is_zero (t : time) : bool := t =? zero_time.
Definition unix_sec (t : time) : Z := t / second.
Definition unix_nano (t : time) : Z := t mod second.

(** [t.Add(d)]; [t.Sub(u)] saturates at the int64 bounds of a Duration. *)
Definition time_add (t : time) (d : Z) : time := t + d.
Definition time_sub (t u : time) : Z := Z.max min_int64 (Z.min max_int64 (t - u)).

(** ** Civil dates *)

(** Year and day of the year for a number of days since 1970-01-01. *)
Definition civil_year (days : Z) : Z * Z :=
  let d := days + 719162 in
  let n400 := d / 146097 in
  let d := d mod 146097 in
  let n100 := Z.min 3 (d / 36524) in
  let d := d - 36524 * n100 in
  let n4 := d / 1461 in
  let d := d mod 1461 in
  let n1 := Z.min 3 (d / 365) in
  (1 + 400 * n400 + 100 * n100 + 4 * n4 + n1, d - 365 * n1).

Definition is_leap (y : Z) : bool :=
  (y mod 4 =? 0) && (negb (y mod 100 =? 0) || (y mod 400 =? 0)).

Definition month_lengths (leap : bool) : list Z :=
  [31; if leap then 29 else 28; 31; 30; 31; 30; 31; 31; 30; 31; 30; 31].

Fixpoint month_day (lengths : list Z) (month yday : Z) : Z * Z :=
  match lengths with
  | [] => (month, yday + 1)
  | l :: lengths =>
    if yday <? l then (month, yday + 1) else month_day lengths (month + 1) (yday - l)
  end.

(** ** Format *)

Definition digit (n : Z) : ascii := ascii_of_nat (48 + Z.to_nat n).

Fixpoint pad (w : nat) (n : Z) : string :=
  match w with
  | O => ""
  | S w => String (digit (n / 10 ^ Z.of_nat w mod 10)) (pad w n)
  end.

Definition format_year (y : Z) : string :=
  (if y <? 0 then "-" else "") +:+
  (if Z.abs y <? 10000 then pad 4 (Z.abs y) else pretty (Z.abs y)).

Definition format_date (days : Z) : string :=
  let '(year, yday) := civil_year days in
  let '(month, day) := month_day (month_lengths (is_leap year)) 1 yday in
  format_year year +:+ "-" +:+ pad 2 month +:+ "-" +:+ pad 2 day.

Definition format_clock (s : Z) : string :=
  pad 2 (s / 3600) +:+ ":" +:+ pad 2 (s / 60 mod 60) +:+ ":" +:+ pad 2 (s mod 60).

(** Date and time of day, to the second. *)
Definition stamp (sec : Z) : string :=
  format_date (sec / 86400) +:+ "T" +:+ format_clock (sec mod 86400).

Fixpoint strip_zeros (s : string) : string :=
  match s with
  | EmptyString => EmptyString
  | String c s =>
    match strip_zeros s with
    | EmptyString => if Ascii.eqb c "0" then EmptyString else String c EmptyString
    | s' => String c s'
    end
  end.

Definition fraction (nanos : Z) : string :=
  if nanos =? 0 then "" else "." +:+ strip_zeros (pad 9 nanos).

Definition formatTime (t : time) : string :=
  stamp (unix_sec t) +:+ fraction (unix_nano t) +:+ "Z".

Example formatTime_epoch : formatTime 0 = "1970-01-01T00:00:00Z".
Proof. vm_compute. reflexivity. Qed.
Example formatTime_leap :
  formatTime (1709251199 * second + 120000000) = "2024-02-29T23:59:59.12Z".
Proof. vm_compute. reflexivity. Qed.
Example formatTime_zero : formatTime zero_time = "0001-01-01T00:00:00Z".
Proof. vm_compute. reflexivity. Qed.
Example formatTime_year0 : formatTime (-62167219200 * second) = "0000-01-01T00:00:00Z".
Proof. vm_compute. reflexivity. Qed.
Example formatTime_2000 : formatTime (951782400 * second + 5) = "2000-02-29T00:00:00.000000005Z".
Proof. vm_compute. reflexivity. Qed.

(** The instants whose year has four digits: 0000-01-01 up to 9999-12-31. *)
Definition rfc3339_range (t : time) : Prop :=
  -62167219200 * second ≤ t < 253402300800 * second.

#[export] Instance rfc3339_range_dec t : Decision (rfc3339_range t).
Proof. unfold rfc3339_range. apply _. Defined.

(** SQLite's BINARY collation: [a <= b] on TEXT. *)
Definition text_le (a b : string) : bool := String.leb a b.
Definition text_order : relation string := λ a b, text_le a b = true.

#[export] Instance text_order_dec : RelDecision text_order.
Proof. intros a b. unfold text_order. apply _. Defined.

#[export] Instance text_order_total : Total text_order.
Proof. intros a b. apply String.leb_total. Qed.

#[export] Instance text_order_antisymm : AntiSymm (=) text_order.
Proof. intros a b. apply String.leb_antisym. Qed.

#[export] Instance text_order_trans : Transitive text_order.
Proof.
  assert (∀ a b, text_order a b ↔ a = b ∨ String_as_OT.lt a b) as H.
  { intros a b. unfold text_order, text_le, String.leb, String_as_OT.lt. change String_as_OT.compare with String.compare.
    destruct (String.compare a b) eqn:E; split; try done.
    - intros _. left. by apply String.compare_eq_iff.
    - intros _. by right.
    - intros [-> | ?]; [|done]. pose proof (String.compare_antisym b b) as E2. by rewrite E in E2. }
  intros a b c. rewrite !H. intros [-> | H1] [-> | H2]; auto. right. by transitivity b.
Qed.

(** ** The order of texts *)

Definition slt (a b : string) : Prop := String.compare a b = Lt.

Lemma compare_same a x y : String.compare (a +:+ x) (a +:+ y) = String.compare x y.
Proof.
  induction a as [|c a IH]; [done|]. rewrite !sapp_cons; cbn.
  assert (Ascii.compare c c = Eq) as ->; [|exact IH].
  unfold Ascii.compare. apply N.compare_refl.
Qed.

Lemma slt_app_same a x y : slt x y → slt (a +:+ x) (a +:+ y).
Proof. unfold slt. by rewrite compare_same. Qed.

Lemma slt_app_l a b x y :
  String.length a = String.length b → slt a b → slt (a +:+ x) (b +:+ y).
Proof.
  unfold slt. revert b; induction a as [|c a IH]; intros [|d b] Hl; try done.
  rewrite !sapp_cons; cbn. destruct (Ascii.compare c d); try done. apply IH. by injection Hl.
Qed.

Lemma slt_text_le a b : slt a b → text_le a b = true ∧ text_le b a = false.
Proof.
  unfold slt, text_le, String.leb. intros H. rewrite H.
  rewrite String.compare_antisym, H. done.
Qed.

Lemma length_pad w n : String.length (pad w n) = w.
Proof. induction w; cbn; congruence. Qed.

Lemma compare_digit a b : 0 ≤ a < 10 → 0 ≤ b < 10 →
  Ascii.compare (digit a) (digit b) = (a ?= b).
Proof.
  intros Ha Hb. unfold Ascii.compare, digit.
  assert (∀ c, 0 ≤ c < 10 → N_of_ascii (ascii_of_nat (48 + Z.to_nat c)) = Z.to_N (48 + c)) as H.
  { intros c Hc. rewrite <-(Z2Nat.id c) at 2 by lia.
    assert (Z.to_nat c < 10)%nat as Hn by lia. revert Hn.
    generalize (Z.to_nat c); intros n Hn.
    do 10 (destruct n as [|n]; [reflexivity|]). lia. }
  rewrite !H by done.
  destruct (Z.compare_spec a b); [subst; apply N.compare_refl | apply N.compare_lt_iff; lia
    | apply N.compare_gt_iff; lia].
Qed.

Lemma pad_mod w v n : (w ≤ v)%nat → pad w n = pad w (n mod 10 ^ Z.of_nat v).
Proof.
  revert v n; induction w as [|w IH]; intros v n Hv; [done|].
  cbn [pad]. f_equal; [|apply IH; lia]. f_equal.
  set (M := 10 ^ Z.of_nat (v - S w)). set (p := 10 ^ Z.of_nat w).
  assert (10 ^ Z.of_nat v = p * 10 * M) as Hp.
  { unfold p, M. replace (Z.of_nat v) with (Z.of_nat w + 1 + Z.of_nat (v - S w)) by lia.
    by rewrite !Z.pow_add_r by lia. }
  pose proof (Z.div_mod n (10 ^ Z.of_nat v) ltac:(lia)) as E.
  rewrite Hp in *. set (r := n mod _) in *. set (q := n / _) in *.
  rewrite E. replace (p * 10 * M * q + r) with (r + (q * M * 10) * p) by ring.
  rewrite Z.div_add by (unfold p; lia). by rewrite Z.mod_add by lia.
Qed.

Lemma pad_slt w a b : 0 ≤ a → a < b → b < 10 ^ Z.of_nat w → slt (pad w a) (pad w b).
Proof.
  revert a b; induction w as [|w IH]; intros a b Ha Hab Hb; [cbn in Hb; lia|].
  cbn [pad]. unfold slt; cbn [String.compare].
  rewrite Nat2Z.inj_succ, Z.pow_succ_r in Hb by lia.
  rewrite (pad_mod w w a), (pad_mod w w b) by lia.
  set (p := 10 ^ Z.of_nat w) in *. assert (0 < p) by (unfold p; lia).
  assert (a / p < 10 ∧ b / p < 10 ∧ 0 ≤ a / p ∧ a / p ≤ b / p) as (? & ? & ? & Hle).
  { repeat split; [apply Z.div_lt_upper_bound; lia.. | apply Z.div_pos; lia | apply Z.div_le_mono; lia]. }
  rewrite !(Z.mod_small (_ / p)), compare_digit by lia.
  destruct (Z.compare_spec (a / p) (b / p)) as [Heq|Hlt|]; [|done|lia].
  pose proof (Z.div_mod a p ltac:(lia)) as Ea. pose proof (Z.div_mod b p ltac:(lia)) as Eb.
  pose proof (Z.mod_pos_bound a p ltac:(lia)). pose proof (Z.mod_pos_bound b p ltac:(lia)).
  apply IH; unfold p in *; nia.
Qed.

(** ** The order of civil dates *)

(** Days before January 1st of the year after [Y]. *)
Definition days_before (Y : Z) : Z := 365 * Y + Y / 4 - Y / 100 + Y / 400.

Lemma cap3 a m : 0 ≤ a → 0 < m →
  0 ≤ Z.min 3 (a / m) ≤ 3 ∧ m * Z.min 3 (a / m) ≤ a ∧
  (Z.min 3 (a / m) = 3 ∨ a < m * (Z.min 3 (a / m) + 1)).
Proof.
  intros Ha Hm. pose proof (Z.mul_div_le a m Hm). pose proof (Z.mul_succ_div_gt a m Hm).
  pose proof (Z.div_pos a m Ha Hm). destruct (Z.min_spec 3 (a / m)) as [[? ->]|[? ->]]; nia.
Qed.

Lemma cycle_quotients n400 n100 n4 n1 :
  0 ≤ n100 ≤ 3 → 0 ≤ n4 ≤ 24 → 0 ≤ n1 ≤ 3 →
  let Y := 400 * n400 + 100 * n100 + 4 * n4 + n1 in
  Y / 4 = 100 * n400 + 25 * n100 + n4 ∧ Y / 100 = 4 * n400 + n100 ∧ Y / 400 = n400.
Proof.
  intros ??? Y. split_and!; symmetry.
  - apply (Z.div_unique _ 4 _ n1); lia.
  - apply (Z.div_unique _ 100 _ (4 * n4 + n1)); lia.
  - apply (Z.div_unique _ 400 _ (100 * n100 + 4 * n4 + n1)); lia.
Qed.

Lemma cycle_leap n400 n100 n4 n1 :
  0 ≤ n100 ≤ 3 → 0 ≤ n4 ≤ 24 → 0 ≤ n1 ≤ 3 →
  is_leap (1 + 400 * n400 + 100 * n100 + 4 * n4 + n1) =
    (n1 =? 3) && (negb (n4 =? 24) || (n100 =? 3)).
Proof.
  intros ???. unfold is_leap. set (y := 1 + _ + _ + _ + _).
  destruct (Z.eqb_spec n1 3) as [->|]; cbn [andb].
  2: { by rewrite <-(Z.mod_unique y 4 (100 * n400 + 25 * n100 + n4) (n1 + 1)), (proj2 (Z.eqb_neq _ _)) by lia. }
  rewrite <-(Z.mod_unique y 4 (100 * n400 + 25 * n100 + n4 + 1) 0) by lia.
  destruct (Z.eqb_spec n4 24) as [->|]; cbn [negb orb andb Z.eqb].
  2: { by rewrite <-(Z.mod_unique y 100 (4 * n400 + n100) (4 * n4 + 4)), (proj2 (Z.eqb_neq _ _)) by lia. }
  rewrite <-(Z.mod_unique y 100 (4 * n400 + n100 + 1) 0) by lia. cbn.
  destruct (Z.eqb_spec n100 3) as [->|].
  - by rewrite <-(Z.mod_unique y 400 (n400 + 1) 0) by lia.
  - by rewrite <-(Z.mod_unique y 400 n400 (100 * n100 + 100)), (proj2 (Z.eqb_neq _ _)) by lia.
Qed.

Lemma civil_year_spec days y k : civil_year days = (y, k) →
  days + 719162 = days_before (y - 1) + k ∧ 0 ≤ k ∧ k < 365 + (if is_leap y then 1 else 0).
Proof.
  unfold civil_year, days_before. generalize (days + 719162); intros d H.
  assert (Hy : y = 1 + 400 * (d / 146097) + 100 * Z.min 3 (d mod 146097 / 36524)
    + 4 * ((d mod 146097 - 36524 * Z.min 3 (d mod 146097 / 36524)) / 1461)
    + Z.min 3 ((d mod 146097 - 36524 * Z.min 3 (d mod 146097 / 36524)) mod 1461 / 365))
    by congruence.
  assert (Hk : k = (d mod 146097 - 36524 * Z.min 3 (d mod 146097 / 36524)) mod 1461
    - 365 * Z.min 3 ((d mod 146097 - 36524 * Z.min 3 (d mod 146097 / 36524)) mod 1461 / 365))
    by congruence.
  clear H.
  set (n400 := d / 146097) in *. pose proof (Z.div_mod d 146097 ltac:(lia)) as E1.
  pose proof (Z.mod_pos_bound d 146097 ltac:(lia)) as B1.
  set (d1 := d mod 146097) in *. fold n400 in E1.
  set (n100 := Z.min 3 (d1 / 36524)) in *.
  pose proof (cap3 d1 36524 ltac:(lia) ltac:(lia)) as B2. fold n100 in B2.
  set (d2 := d1 - 36524 * n100) in *.
  set (n4 := d2 / 1461) in *. pose proof (Z.div_mod d2 1461 ltac:(lia)) as E2.
  pose proof (Z.mod_pos_bound d2 1461 ltac:(lia)) as B3.
  set (d3 := d2 mod 1461) in *. fold n4 in E2.
  set (n1 := Z.min 3 (d3 / 365)) in *.
  pose proof (cap3 d3 365 ltac:(lia) ltac:(lia)) as B4. fold n1 in B4.
  assert (d2 < 36525 ∧ 0 ≤ d2) as B6 by (unfold d2; lia).
  assert (0 ≤ n4 ≤ 24) as B5 by lia.
  clearbody n400 n100 n4 n1 d1 d3. subst y k.
  replace (1 + 400 * n400 + 100 * n100 + 4 * n4 + n1 - 1)
    with (400 * n400 + 100 * n100 + 4 * n4 + n1) by lia.
  destruct (cycle_quotients n400 n100 n4 n1) as (-> & -> & ->); [lia..|].
  split; [unfold d2 in *; lia|]. split; [lia|].
  rewrite cycle_leap by lia.
  destruct (Z.eqb_spec n1 3), (Z.eqb_spec n4 24), (Z.eqb_spec n100 3); cbn; unfold d2 in *; lia.
Qed.

Lemma div_step y m : 0 < m → y / m = (y - 1) / m + (if y mod m =? 0 then 1 else 0).
Proof.
  intros Hm. pose proof (Z.div_mod y m ltac:(lia)). pose proof (Z.mod_pos_bound y m Hm).
  destruct (Z.eqb_spec (y mod m) 0).
  - rewrite <-(Z.div_unique (y - 1) m (y / m - 1) (m - 1)); lia.
  - rewrite <-(Z.div_unique (y - 1) m (y / m) (y mod m - 1)); lia.
Qed.

Lemma mod_zero_factor y m k : 0 < m → 0 < k → y mod (m * k) = 0 → y mod m = 0.
Proof.
  intros Hm Hk H. apply Z.mod_divide; [lia|]. apply Z.mod_divide in H; [|lia].
  destruct H as [q ->]. exists (q * k). ring.
Qed.

Lemma days_before_step y :
  days_before y = days_before (y - 1) + 365 + (if is_leap y then 1 else 0).
Proof.
  unfold days_before, is_leap.
  rewrite (div_step y 4), (div_step y 100), (div_step y 400) by lia.
  pose proof (mod_zero_factor y 4 25 ltac:(lia) ltac:(lia)) as H1.
  pose proof (mod_zero_factor y 100 4 ltac:(lia) ltac:(lia)) as H2. cbn in H1, H2.
  destruct (Z.eqb_spec (y mod 4) 0), (Z.eqb_spec (y mod 100) 0), (Z.eqb_spec (y mod 400) 0);
    cbn; try lia; exfalso; eauto.
Qed.

Lemma days_before_mono Y Y' : Y ≤ Y' → days_before Y ≤ days_before Y'.
Proof.
  unfold days_before. intros H. destruct (decide (Y = Y')) as [->|]; [lia|].
  pose proof (Z.div_le_mono Y Y' 4 ltac:(lia) H). pose proof (Z.div_le_mono Y Y' 400 ltac:(lia) H).
  pose proof (Z.mul_div_le Y' 100 ltac:(lia)). pose proof (Z.mul_succ_div_gt Y 100 ltac:(lia)).
  lia.
Qed.

Lemma civil_year_lt a b y1 k1 y2 k2 :
  a < b → civil_year a = (y1, k1) → civil_year b = (y2, k2) → y1 < y2 ∨ y1 = y2 ∧ k1 < k2.
Proof.
  intros Hab Ha%civil_year_spec Hb%civil_year_spec.
  destruct (Z.lt_trichotomy y1 y2) as [?|[->|Hgt]]; [by left|right; lia|].
  pose proof (days_before_mono y2 (y1 - 1) ltac:(lia)).
  pose proof (days_before_step y2). lia.
Qed.

Lemma month_day_lt ls m j k m1 d1 m2 d2 :
  Forall (λ l, 0 < l) ls → 0 ≤ j → j < k →
  month_day ls m j = (m1, d1) → month_day ls m k = (m2, d2) →
  m1 < m2 ∨ m1 = m2 ∧ d1 < d2.
Proof.
  intros Hls; revert m j k; induction Hls as [|l ls Hl Hls IH]; intros m j k Hj Hjk; cbn.
  { intros [= <- <-] [= <- <-]. lia. }
  destruct (Z.ltb_spec j l), (Z.ltb_spec k l); try lia.
  - intros [= <- <-] [= <- <-]. lia.
  - intros [= <- <-] Hk. left. enough (∀ ls m k m2 d2, month_day ls m k = (m2, d2) → m ≤ m2) as Hm.
    { apply Hm in Hk. lia. }
    clear. induction ls as [|l ls IH]; intros m k m2 d2; cbn; [intros [= <- _]; lia|].
    destruct (k <? l); [intros [= <- _]; lia|]. intros H%IH. lia.
  - apply IH; lia.
Qed.

Lemma month_day_bounds (leap : bool) k m d :
  0 ≤ k < 365 + (if leap then 1 else 0) → month_day (month_lengths leap) 1 k = (m, d) →
  1 ≤ m ≤ 12 ∧ 1 ≤ d ≤ 31.
Proof.
  intros Hk. unfold month_lengths. destruct leap; cbn;
    repeat match goal with |- context [?a <? ?b] => destruct (Z.ltb_spec a b) end;
    intros [= <- <-]; lia.
Qed.

Lemma civil_year_bounds days y k :
  -719528 ≤ days < 2932897 → civil_year days = (y, k) → 0 ≤ y ≤ 9999.
Proof.
  intros Hd H%civil_year_spec.
  pose proof (days_before_step y).
  destruct (decide (y ≤ -1)) as [Hy|].
  { apply days_before_mono in Hy. change (days_before (-1)) with (-366) in Hy. lia. }
  destruct (decide (9999 ≤ y - 1)) as [Hy|]; [|lia].
  apply days_before_mono in Hy. change (days_before 9999) with 3652059 in Hy. lia.
Qed.

(** ** The order of formatted instants *)

#[local] Ltac Zify.zify_post_hook ::= Z.to_euclidean_division_equations.

Lemma slt_pad_app w a b x y :
  0 ≤ a → a < b → b < 10 ^ Z.of_nat w → slt (pad w a +:+ x) (pad w b +:+ y).
Proof. intros. apply slt_app_l; [by rewrite !length_pad | by apply pad_slt]. Qed.

Lemma slt_pad2_app a b x y : 0 ≤ a → a < b → b < 100 → slt (pad 2 a +:+ x) (pad 2 b +:+ y).
Proof. apply (slt_pad_app 2). Qed.

Lemma slt_pad2 a b : 0 ≤ a → a < b → b < 100 → slt (pad 2 a) (pad 2 b).
Proof. apply (pad_slt 2). Qed.

Lemma format_year_pad y : 0 ≤ y ≤ 9999 → format_year y = pad 4 y.
Proof.
  intros. unfold format_year. rewrite (proj2 (Z.ltb_ge y 0)), Z.abs_eq by lia.
  by rewrite (proj2 (Z.ltb_lt y 10000)) by lia.
Qed.

Lemma format_date_slt a b :
  -719528 ≤ a → a < b → b < 2932897 → slt (format_date a) (format_date b).
Proof.
  intros Ha Hab Hb. unfold format_date.
  destruct (civil_year a) as [y1 k1] eqn:E1, (civil_year b) as [y2 k2] eqn:E2.
  pose proof (civil_year_bounds _ _ _ (conj Ha (Z.lt_trans _ _ _ Hab Hb)) E1).
  pose proof (civil_year_bounds b _ _ ltac:(lia) E2).
  pose proof (civil_year_lt _ _ _ _ _ _ Hab E1 E2) as Hy.
  apply civil_year_spec in E1 as (_ & K1), E2 as (_ & K2).
  destruct (month_day _ 1 k1) as [m1 d1] eqn:M1, (month_day _ 1 k2) as [m2 d2] eqn:M2.
  pose proof (month_day_bounds _ _ _ _ K1 M1).
  pose proof (month_day_bounds _ _ _ _ K2 M2).
  rewrite !format_year_pad by lia.
  destruct Hy as [|[-> Hk]]; [by apply slt_pad_app; cbn; lia|].
  apply slt_app_same, slt_app_same.
  pose proof (month_day_lt (month_lengths (is_leap y2)) 1 k1 k2 m1 d1 m2 d2) as Hm.
  destruct Hm as [|[-> ?]]; [by destruct (is_leap y2); repeat constructor|lia|lia|done|done|..].
  - apply slt_pad2_app; lia.
  - apply slt_app_same, slt_app_same, slt_pad2; lia.
Qed.

Lemma format_clock_slt a b : 0 ≤ a → a < b → b < 86400 → slt (format_clock a) (format_clock b).
Proof.
  intros. unfold format_clock.
  destruct (decide (a / 3600 = b / 3600)) as [Hh|]; [|apply slt_pad2_app; lia].
  rewrite Hh. apply slt_app_same, slt_app_same.
  destruct (decide (a / 60 mod 60 = b / 60 mod 60)) as [Hm|]; [|apply slt_pad2_app; lia].
  rewrite Hm. apply slt_app_same, slt_app_same. apply slt_pad2; lia.
Qed.

Lemma length_format_date a : -719528 ≤ a < 2932897 → String.length (format_date a) = 10%nat.
Proof.
  intros Ha. unfold format_date. destruct (civil_year a) as [y k] eqn:E.
  apply civil_year_bounds in E; [|done]. destruct (month_day _ 1 k).
  rewrite format_year_pad by done. by rewrite !length_sapp, !length_pad.
Qed.

Lemma length_stamp s :
  -719528 ≤ s / 86400 < 2932897 → String.length (stamp s) = 19%nat.
Proof.
  intros. unfold stamp, format_clock.
  by rewrite !length_sapp, length_format_date, !length_pad.
Qed.

Lemma stamp_slt a b :
  -719528 ≤ a / 86400 → a < b → b / 86400 < 2932897 → slt (stamp a) (stamp b).
Proof.
  intros. unfold stamp.
  destruct (decide (a / 86400 = b / 86400)) as [Heq|].
  - rewrite Heq. apply slt_app_same, slt_app_same, format_clock_slt; lia.
  - apply slt_app_l; [rewrite !length_format_date; lia|]. apply format_date_slt; lia.
Qed.

(** Instants in different seconds: the texts are ordered as the instants. *)
Lemma formatTime_slt t u :
  rfc3339_range t → rfc3339_range u → unix_sec t < unix_sec u → slt (formatTime t) (formatTime u).
Proof.
  unfold rfc3339_range, unix_sec, second. intros Ht Hu Hlt. unfold formatTime.
  apply slt_app_l.
  - rewrite !length_stamp; unfold unix_sec, second; lia.
  - apply stamp_slt; unfold unix_sec, second; lia.
Qed.

(** A full second between two instants is enough for the texts to agree with
    the instants on their order ... *)
Lemma formatTime_le_second t u :
  rfc3339_range t → rfc3339_range u → t + second ≤ u →
  text_le (formatTime t) (formatTime u) = true.
Proof.
  intros Ht Hu Hle. apply slt_text_le, formatTime_slt; [done..|].
  unfold unix_sec, second in *. lia.
Qed.

(** ... and texts in order are never more than a second out of order. *)
Lemma formatTime_le_inv t u :
  rfc3339_range t → rfc3339_range u → text_le (formatTime t) (formatTime u) = true →
  t < u + second.
Proof.
  intros Ht Hu Hle. destruct (decide (t < u + second)) as [|Hge]; [done|].
  assert (slt (formatTime u) (formatTime t)) as Hs%slt_text_le.
  { apply formatTime_slt; [done..|]. unfold unix_sec, second in *. lia. }
  destruct Hs as [_ Hs]. congruence.
Qed.

(** Within one second they disagree: RFC3339Nano drops trailing zeros, and
    "Z" sorts after the digits and the dot. *)
Lemma formatTime_not_monotone :
  ∃ t u, rfc3339_range t ∧ rfc3339_range u ∧ t < u ∧
         text_le (formatTime t) (formatTime u) = false.
Proof.
  exists 0, 500000000. split_and!; try by (unfold rfc3339_range, second; lia).
  vm_compute. reflexivity.
Qed.
