(* ===== verification/GoJson.v ===== *)
(** * Go's encoding/json, as far as the broker's durable records use it

    [json_string] is the exact text json.Marshal writes for a string (HTML
    characters escaped, invalid UTF-8 replaced), which the size bounds on
    stored payloads depend on.  [coerce] is what the text decodes back to: the
    string itself when it is valid UTF-8 ([valid_utf8]), otherwise the string
    with every invalid byte replaced by U+FFFD. *)

From S2P Require Import Prelude GoStrings GoTime.
From stdpp Require Import pretty.
Open Scope string_scope.
Open Scope list_scope.

(** The number of bytes of the UTF-8 encoding a string starts with. *)
Definition continuation := in_range 128 191.

Definition rune_size (s : string) : option nat :=
  match s with
  | EmptyString => None
  | String a r =>
    if in_range 0 127 a then Some 1%nat else
    match r with
    | EmptyString => None
    | String b r =>
      if in_range 194 223 a then (if continuation b then Some 2%nat else None) else
      match r with
      | EmptyString => None
      | String c r =>
        if in_range 224 239 a then
          (if in_range (if code a =? 224 then 160 else 128)%nat
                       (if code a =? 237 then 159 else 191)%nat b && continuation c
           then Some 3%nat else None)
        else
        match r with
        | EmptyString => None
        | String d _ =>
          if in_range 240 244 a
             && in_range (if code a =? 240 then 144 else 128)%nat
                         (if code a =? 244 then 143 else 191)%nat b
             && continuation c && continuation d
          then Some 4%nat else None
        end
      end
    end
  end.

(** U+FFFD *)
Definition replacement : string := str [239; 191; 189].

Fixpoint map_runes (fuel : nat) (rune : string → string) (invalid : string) (s : string) : string :=
  match fuel with
  | O => ""
  | S fuel =>
    match s with
    | EmptyString => ""
    | String _ r =>
      match rune_size s with
      | Some n => rune (stake n s) +:+ map_runes fuel rune invalid (sdrop n s)
      | None => invalid +:+ map_runes fuel rune invalid r
      end
    end
  end.

Definition coerce (s : string) : string := map_runes (String.length s) (λ r, r) replacement s.

Fixpoint valid_runes (fuel : nat) (s : string) : bool :=
  match fuel with
  | O => true
  | S fuel =>
    match s with
    | EmptyString => true
    | String _ _ =>
      match rune_size s with
      | Some n => valid_runes fuel (sdrop n s)
      | None => false
      end
    end
  end.
Definition valid_utf8 (s : string) : bool := valid_runes (String.length s) s.

Definition hex_digit (n : nat) : ascii :=
  ascii_of_nat (if n <? 10 then 48 + n else 87 + n)%nat.

Definition escape_u (n : nat) : string :=
  "\u00" +:+ String (hex_digit (n / 16)) (String (hex_digit (n mod 16)) EmptyString).

(** The text of one rune inside a JSON string. *)
Definition json_rune (r : string) : string :=
  match r with
  | String c EmptyString =>
    let n := code c in
    if (n =? 34)%nat then str [92; 34]
    else if (n =? 92)%nat then "\\"
    else if (n =? 8)%nat then "\b"
    else if (n =? 12)%nat then "\f"
    else if (n =? 10)%nat then "\n"
    else if (n =? 13)%nat then "\r"
    else if (n =? 9)%nat then "\t"
    else if (n <? 32)%nat || (n =? 38)%nat || (n =? 60)%nat || (n =? 62)%nat then escape_u n
    else r
  | _ =>
    if r =? str [226; 128; 168] then "\u2028"
    else if r =? str [226; 128; 169] then "\u2029"
    else r
  end.

Definition quote : string := str [34].
Definition json_string (s : string) : string :=
  quote +:+ map_runes (String.length s) json_rune "\ufffd" s +:+ quote.
Definition json_int (z : Z) : string := pretty z.

(** An object with the given keys, in order, and already encoded values. *)
Definition json_object (fields : list (string * string)) : string :=
  "{" +:+ GoStrings.join "," (map (λ '(k, v), json_string k +:+ ":" +:+ v) fields) +:+ "}".

(** []string and map[string]string, with the keys in order. *)
Definition json_strings (l : list string) : string := "[" +:+ GoStrings.join "," (map json_string l) +:+ "]".
Definition json_params (m : gmap string string) : string :=
  json_object (map (λ k, (k, default "" (m !! k))) (merge_sort text_order (elements (dom m)))).
(** A field with omitempty. *)
Definition when (c : bool) (k v : string) : list (string * string) := if c then [(k, v)] else [].

Example json_string_escapes :
  json_string (str [97; 34; 60; 9; 1; 255]) =
    quote +:+ "a\" +:+ quote +:+ "\u003c\t\u0001\ufffd" +:+ quote.
Proof. vm_compute. reflexivity. Qed.
Example json_object_ex :
  json_object [("n", json_int 12)] = "{" +:+ quote +:+ "n" +:+ quote +:+ ":12}".
Proof. vm_compute. reflexivity. Qed.
Example coerce_ex : coerce (str [195; 169; 237; 160; 128]) =
  str [195; 169] +:+ replacement +:+ replacement +:+ replacement.
Proof. vm_compute. reflexivity. Qed.

(** ** Facts *)

Lemma rune_size_bounds s n : rune_size s = Some n → (1 ≤ n ≤ 4)%nat ∧ (n ≤ String.length s)%nat.
Proof.
  unfold rune_size. intros H.
  repeat (case_match; simplify_eq; cbn [String.length]); lia.
Qed.

(** Valid text decodes to itself. *)
Lemma coerce_valid s : valid_utf8 s = true → coerce s = s.
Proof.
  unfold valid_utf8, coerce.
  assert (∀ fuel s, (String.length s ≤ fuel)%nat → valid_runes fuel s = true →
    map_runes fuel (λ r, r) replacement s = s) as H; [|by apply H].
  clear s. induction fuel as [|fuel IH]; intros s Hl Hv; [by destruct s; cbn in Hl; [|lia]|].
  destruct s as [|c s]; [done|]. cbn [map_runes valid_runes] in *.
  destruct (rune_size (String c s)) as [n|] eqn:E; [|done].
  apply rune_size_bounds in E as [? _].
  rewrite IH by (rewrite ?length_sdrop; cbn in *; auto; lia). apply stake_sdrop.
Qed.

Lemma coerce_nonempty s : s ≠ "" → coerce s ≠ "".
Proof.
  destruct s as [|c s]; [done|]; intros _. unfold coerce. cbn [String.length map_runes].
  destruct (rune_size (String c s)) as [n|] eqn:E; [|done].
  apply rune_size_bounds in E as [? _]. by destruct n; [lia|].
Qed.
