(* ===== verification/Regex.v ===== *)
(** * The fixed regular expressions of the code

    Patterns of package regexp that are constants of the source, as syntax with
    an executable matcher (derivatives, with the absorbing cases simplified).
    All classes are of ASCII characters, so bytes and runes agree; every
    pattern is anchored at both ends, so matching is membership in [lang]. *)

From S2P Require Import Prelude GoStrings.
Open Scope string_scope.
Open Scope list_scope.

Inductive re :=
| Nothing
| Eps
| Cls (p : ascii → bool)
| Seq (a b : re)
| Alt (a b : re)
| Star (a : re).

Inductive lang : re → list ascii → Prop :=
| l_eps : lang Eps []
| l_cls p c : p c = true → lang (Cls p) [c]
| l_seq a b x y : lang a x → lang b y → lang (Seq a b) (x ++ y)
| l_alt_l a b x : lang a x → lang (Alt a b) x
| l_alt_r a b x : lang b x → lang (Alt a b) x
| l_star_nil a : lang (Star a) []
| l_star_app a x y : lang a x → lang (Star a) y → lang (Star a) (x ++ y).

Fixpoint nullable (r : re) : bool :=
  match r with
  | Nothing | Cls _ => false
  | Eps | Star _ => true
  | Seq a b => nullable a && nullable b
  | Alt a b => nullable a || nullable b
  end.

Definition seq' (a b : re) : re :=
  match a, b with Nothing, _ => Nothing | _, Nothing => Nothing | Eps, _ => b | _, _ => Seq a b end.
Definition alt' (a b : re) : re :=
  match a, b with Nothing, _ => b | _, Nothing => a | _, _ => Alt a b end.

Fixpoint deriv (c : ascii) (r : re) : re :=
  match r with
  | Nothing | Eps => Nothing
  | Cls p => if p c then Eps else Nothing
  | Seq a b => if nullable a then alt' (seq' (deriv c a) b) (deriv c b) else seq' (deriv c a) b
  | Alt a b => alt' (deriv c a) (deriv c b)
  | Star a => seq' (deriv c a) (Star a)
  end.

Fixpoint matches_chars (r : re) (l : list ascii) : bool :=
  match l with [] => nullable r | c :: l => matches_chars (deriv c r) l end.

(** MatchString of an anchored pattern *)
Definition matches (r : re) (s : string) : bool := matches_chars r (chars s).

(** ** Notation for patterns *)

Definition lit_char (c : ascii) : re := Cls (Ascii.eqb c).
Fixpoint lit (s : string) : re :=
  match s with
  | EmptyString => Eps
  | String c EmptyString => lit_char c
  | String c s => Seq (lit_char c) (lit s)
  end.
Definition one_of (s : string) : ascii → bool := λ c, existsb (Ascii.eqb c) (chars s).
Definition plus (r : re) : re := Seq r (Star r).
Definition opt (r : re) : re := Alt Eps r.
Fixpoint repeat_re (n : nat) (r : re) : re :=
  match n with O => Eps | S O => r | S n => Seq r (repeat_re n r) end.
Definition lower_alnum (c : ascii) : bool := is_lower c || is_digit c.
Definition alnum (c : ascii) : bool := is_lower c || is_upper c || is_digit c.
Definition word (p : ascii → bool) (extra : string) (c : ascii) : bool := p c || one_of extra c.

(** ** The matcher decides the language *)

Lemma nullable_spec r : nullable r = true ↔ lang r [].
Proof.
  split.
  - induction r; cbn; intros H; try done; [constructor| | |constructor].
    + bool_hyps. change (@nil ascii) with (@nil ascii ++ []). constructor; auto.
    + apply orb_true_iff in H as [H|H]; [apply l_alt_l | apply l_alt_r]; auto.
  - intros H. remember [] as l eqn:E. induction H; cbn; try done.
    + apply app_eq_nil in E as [-> ->]. by rewrite IHlang1, IHlang2.
    + by rewrite IHlang.
    + by rewrite IHlang, orb_true_r.
Qed.

Lemma seq'_spec a b l : lang (seq' a b) l ↔ lang (Seq a b) l.
Proof.
  assert (∀ l, ¬ lang Nothing l) as Hn by (intros ? H; inversion H).
  assert (∀ b l, lang (Seq Eps b) l ↔ lang b l) as He.
  { intros b' l'. split; [intros H; inversion H as [| |? ? ? ? H1 H2| | | |]; by inversion H1; subst|].
    intros H. apply (l_seq Eps b' [] l'); [constructor | done]. }
  destruct a, b; cbn; try reflexivity; rewrite ?He; try reflexivity;
    (split; [by intros ?%Hn | intros H; inversion H; by exfalso; eapply Hn]).
Qed.

Lemma alt'_spec a b l : lang (alt' a b) l ↔ lang (Alt a b) l.
Proof.
  assert (∀ l, ¬ lang Nothing l) as Hn by (intros ? H; inversion H).
  assert (∀ b l, lang (Alt Nothing b) l ↔ lang b l) as H1.
  { split; [intros H; inversion H; [by exfalso; eapply Hn | done] | by constructor]. }
  assert (∀ b l, lang (Alt b Nothing) l ↔ lang b l) as H2.
  { split; [intros H; inversion H; [done | by exfalso; eapply Hn] | by constructor]. }
  destruct a, b; cbn; rewrite ?H1, ?H2; reflexivity.
Qed.

Lemma deriv_sound c r l : lang (deriv c r) l → lang r (c :: l).
Proof.
  revert l. induction r as [| |p|a IHa b IHb|a IHa b IHb|a IHa]; intros l; cbn; intros H; try by inversion H.
  - destruct (p c) eqn:E; inversion H; subst. by constructor.
  - assert (lang (Seq (deriv c a) b) l → lang (Seq a b) (c :: l)) as Hs.
    { intros H1. inversion H1; subst. rewrite app_comm_cons. constructor; auto. }
    destruct (nullable a) eqn:E; [|by apply Hs, seq'_spec].
    apply alt'_spec in H. inversion H; subst; [by apply Hs, seq'_spec|].
    apply (l_seq a b [] (c :: l)); [by apply nullable_spec | auto].
  - apply alt'_spec in H. inversion H; subst; [apply l_alt_l | apply l_alt_r]; auto.
  - apply seq'_spec in H. inversion H; subst. rewrite app_comm_cons. constructor; auto.
Qed.

Lemma deriv_complete c r l : lang r (c :: l) → lang (deriv c r) l.
Proof.
  intros H. remember (c :: l) as cl eqn:E. revert l E.
  induction H as [|p x Hp|a b x y Ha IHa Hb IHb|a b x H IH|a b x H IH| |a x y Ha IHa Hs IHs]; intros l E; cbn; try done.
  - injection E as -> <-. rewrite Hp. constructor.
  - destruct x as [|x' x]; cbn in E.
    + rewrite (proj2 (nullable_spec a) Ha). apply alt'_spec, l_alt_r. auto.
    + injection E as -> <-. assert (lang (seq' (deriv c a) b) (x ++ y)) as Hd.
      { apply seq'_spec. constructor; auto. }
      destruct (nullable a); [|done]. by apply alt'_spec, l_alt_l.
  - apply alt'_spec, l_alt_l. auto.
  - apply alt'_spec, l_alt_r. auto.
  - destruct x as [|x' x]; cbn in E; [auto|]. injection E as -> <-.
    apply seq'_spec. constructor; auto.
Qed.

Lemma matches_spec r s : matches r s = true ↔ lang r (chars s).
Proof.
  unfold matches. generalize (chars s) as l. intros l. revert r.
  induction l as [|c l IH]; intros r; cbn; [apply nullable_spec|].
  rewrite IH. split; [apply deriv_sound | apply deriv_complete].
Qed.
