(* ===== verification/Policy.v ===== *)
(** * internal/policy: agent authorization and metadata assertions

    [Check] is the deny-by-default decision every brokered operation passes.
    The agent record is the part of config.Agent that policy reads.  Regular
    expressions come from the operator's configuration; the engine is a
    parameter [re_compile] of the section, [None] standing for a pattern that
    does not compile. *)

From S2P Require Import Prelude GoStrings.
Open Scope string_scope.
Open Scope list_scope.

(** ** Data: api.FailedCheck, api.RequiredChange and the config types *)

(** A message built by fmt.Sprintf: literal text, values printed with %s and
    values printed with %q. *)
Inductive piece := Lit (s : string) | Verb (s : string) | Quoted (s : string).
Definition message := list piece.

Record FailedCheck := {
  fc_Dimension : string; fc_Field : string; fc_Location : string;
  fc_Expected : string; fc_Actual : string; fc_SafeToDisplay : bool;
  fc_Message : message }.

Record RequiredChange := {
  rc_Field : string; rc_Location : string; rc_Action : string }.

Record AssertionField := {
  f_Name : string; f_Required : bool; f_Pattern : string;
  f_Value : string; f_Locations : list string }.

Record AssertionPolicy := { ap_Mode : string; ap_Fields : list AssertionField }.

Record Agent := {
  ag_ID : string; ag_Enabled : bool; ag_Repositories : list string;
  ag_Operations : list string; ag_BranchPatterns : list string;
  ag_BaseBranches : list string; ag_Permissions : list string;
  ag_MetadataAssertions : gmap string AssertionPolicy }.

Record Request := {
  req_Agent : Agent; req_AgentID : string; req_Repo : string;
  req_Operation : string; req_Branch : string; req_BaseBranch : string;
  req_Permissions : list string; req_Metadata : gmap string string;
  req_Locations : gmap string (gmap string string) }.

Record Result := {
  Allowed : bool; Decision : string; FailedChecks : list FailedCheck;
  Warnings : list FailedCheck; RequiredChanges : list RequiredChange }.

Definition DecisionAllow := "allow".
Definition DecisionDeny := "deny".
Definition DecisionWarn := "warn".

Definition empty_result : Result :=
  {| Allowed := false; Decision := ""; FailedChecks := []; Warnings := []; RequiredChanges := [] |}.

Definition addFailure (r : Result) (dimension field location expected actual : string)
    (safe : bool) (msg : message) : Result :=
  {| Allowed := Allowed r; Decision := Decision r;
     FailedChecks := FailedChecks r ++
       [{| fc_Dimension := dimension; fc_Field := field; fc_Location := location;
           fc_Expected := expected; fc_Actual := actual; fc_SafeToDisplay := safe;
           fc_Message := msg |}];
     Warnings := Warnings r; RequiredChanges := RequiredChanges r |}.

Definition addChange (r : Result) (c : RequiredChange) : Result :=
  {| Allowed := Allowed r; Decision := Decision r; FailedChecks := FailedChecks r;
     Warnings := Warnings r; RequiredChanges := RequiredChanges r ++ [c] |}.

Fixpoint contains (items : list string) (want : string) : bool :=
  match items with
  | [] => false
  | item :: items => if item =? want then true else contains items want
  end.

Fixpoint containsFold (items : list string) (want : string) : bool :=
  match items with
  | [] => false
  | item :: items => if equal_fold item want then true else containsFold items want
  end.

Definition assertionPolicies (m : gmap string AssertionPolicy) (op : string)
    : list AssertionPolicy :=
  if bool_decide (m = ∅) then [] else
  let out := match m !! "*" with Some ap => [ap] | None => [] end in
  match m !! op with Some ap => out ++ [ap] | None => out end.

Definition valuesForLocation (loc : string) (req : Request) : gmap string string :=
  if (loc =? "request") || (loc =? "") then req_Metadata req
  else match req_Locations req !! loc with
       | Some values => values
       | None => ∅
       end.

Definition requiredChangeFor (f : AssertionField) (failed : FailedCheck) : RequiredChange :=
  let action :=
    if fc_Expected failed =? "present" then "add the required metadata field"
    else if negb (fc_Expected failed =? "")
    then "change the metadata field to satisfy: " +:+ fc_Expected failed
    else "supply valid metadata" in
  {| rc_Field := f_Name f; rc_Location := fc_Location failed; rc_Action := action |}.

(** The normalised assertion mode: trimmed, lower case, "enforce" by default. *)
Definition assertion_mode (ap : AssertionPolicy) : string :=
  let mode := to_lower (trim_space (ap_Mode ap)) in
  if mode =? "" then "enforce" else mode.

Section Check.
Variable re_compile : string → option (string → bool).

Fixpoint matchesAny (patterns : list string) (value : string) : bool :=
  match patterns with
  | [] => false
  | p :: patterns =>
    match re_compile p with
    | Some re => if re value then true else matchesAny patterns value
    | None => matchesAny patterns value
    end
  end.

Definition pattern_fails (pattern v : string) : bool :=
  match re_compile pattern with Some re => negb (re v) | None => true end.

(** The body of the loop over the locations of one field. *)
Definition checkFieldAt (f : AssertionField) (req : Request) (loc : string)
    : option FailedCheck :=
  let values := valuesForLocation loc req in
  let v := default "" (values !! f_Name f) in
  if v =? "" then
    if f_Required f then
      Some {| fc_Dimension := "metadata"; fc_Field := f_Name f; fc_Location := loc;
              fc_Expected := "present"; fc_Actual := ""; fc_SafeToDisplay := true;
              fc_Message := [Lit "required metadata field "; Quoted (f_Name f);
                             Lit " is missing from "; Verb loc] |}
    else None
  else if negb (f_Value f =? "") && negb (v =? f_Value f) then
    Some {| fc_Dimension := "metadata"; fc_Field := f_Name f; fc_Location := loc;
            fc_Expected := f_Value f; fc_Actual := v; fc_SafeToDisplay := true;
            fc_Message := [Lit "metadata field "; Quoted (f_Name f);
                           Lit " has an unexpected value"] |}
  else if negb (f_Pattern f =? "") && pattern_fails (f_Pattern f) v then
    Some {| fc_Dimension := "metadata"; fc_Field := f_Name f; fc_Location := loc;
            fc_Expected := "match " +:+ f_Pattern f; fc_Actual := v;
            fc_SafeToDisplay := true;
            fc_Message := [Lit "metadata field "; Quoted (f_Name f);
                           Lit " does not match the required pattern"] |}
  else None.

Fixpoint checkLocations (f : AssertionField) (req : Request) (locations : list string)
    : option FailedCheck :=
  match locations with
  | [] => None
  | loc :: locations =>
    match checkFieldAt f req loc with
    | Some failed => Some failed
    | None => checkLocations f req locations
    end
  end.

Definition checkField (f : AssertionField) (req : Request) : option FailedCheck :=
  if f_Name f =? "" then None
  else checkLocations f req
         (match f_Locations f with [] => ["request"] | l => l end).

(** The loop over the fields of one assertion policy in mode [mode]. *)
Fixpoint checkFields (mode : string) (req : Request) (fields : list AssertionField)
    (res : Result) : Result :=
  match fields with
  | [] => res
  | f :: fields =>
    let res' :=
      match checkField f req with
      | None => res
      | Some check =>
        if mode =? "warn" then
          {| Allowed := Allowed res; Decision := Decision res;
             FailedChecks := FailedChecks res; Warnings := Warnings res ++ [check];
             RequiredChanges := RequiredChanges res |}
        else
          {| Allowed := Allowed res; Decision := Decision res;
             FailedChecks := FailedChecks res ++ [check]; Warnings := Warnings res;
             RequiredChanges := RequiredChanges res ++ [requiredChangeFor f check] |}
      end in
    checkFields mode req fields res'
  end.

Fixpoint checkPolicies (req : Request) (policies : list AssertionPolicy) (res : Result)
    : Result :=
  match policies with
  | [] => res
  | ap :: policies =>
    let mode := assertion_mode ap in
    if mode =? "off" then checkPolicies req policies res
    else checkPolicies req policies (checkFields mode req (ap_Fields ap) res)
  end.

Definition checkAssertions (req : Request) : Result :=
  checkPolicies req
    (assertionPolicies (ag_MetadataAssertions (req_Agent req)) (req_Operation req))
    empty_result.

Fixpoint checkPermissions (agent : Agent) (permissions : list string) (res : Result)
    : Result :=
  match permissions with
  | [] => res
  | p :: permissions =>
    checkPermissions agent permissions
      (if negb (contains (ag_Permissions agent) p) then
         addFailure res "permission" "" "" "permission in agent allowlist" p true
           [Lit "requested permission is not allowed for this agent"]
       else res)
  end.

Definition Check (req : Request) : Result :=
  let agent := req_Agent req in
  let res := {| Allowed := true; Decision := DecisionAllow; FailedChecks := [];
                Warnings := []; RequiredChanges := [] |} in
  let res :=
    if (req_AgentID req =? "") || (ag_ID agent =? "")
       || negb (req_AgentID req =? ag_ID agent) || negb (ag_Enabled agent)
    then addFailure res "agent" "" "" "enabled authenticated agent" (req_AgentID req) true
           [Lit "agent is not enabled or does not match authenticated identity"]
    else res in
  let res :=
    if negb (containsFold (ag_Repositories agent) (req_Repo req))
    then addFailure res "repo" "" "" "allowed repository" (req_Repo req) true
           [Lit "repository is not allowed for this agent"]
    else res in
  let res :=
    if negb (contains (ag_Operations agent) (req_Operation req))
    then addFailure res "operation" "" "" "allowed operation" (req_Operation req) true
           [Lit "operation is not allowed for this agent"]
    else res in
  let res :=
    if negb (req_Branch req =? "") && negb (is_nil (ag_BranchPatterns agent))
       && negb (matchesAny (ag_BranchPatterns agent) (req_Branch req))
    then addChange
           (addFailure res "branch" "" "" (join " OR " (ag_BranchPatterns agent))
              (req_Branch req) true [Lit "branch does not match an allowed pattern"])
           {| rc_Field := ""; rc_Location := "branch";
              rc_Action := "use a branch matching one of the allowed branch patterns" |}
    else res in
  let res :=
    if negb (req_BaseBranch req =? "") && negb (is_nil (ag_BaseBranches agent))
       && negb (contains (ag_BaseBranches agent) (req_BaseBranch req))
    then addChange
           (addFailure res "base_branch" "" "" (join ", " (ag_BaseBranches agent))
              (req_BaseBranch req) true [Lit "base branch is not allowed for this agent"])
           {| rc_Field := ""; rc_Location := "base_branch";
              rc_Action := "use an allowed base branch" |}
    else res in
  let res := checkPermissions agent (req_Permissions req) res in
  let assertRes := checkAssertions req in
  let failed := FailedChecks res ++ FailedChecks assertRes in
  let warnings := Warnings res ++ Warnings assertRes in
  {| Allowed := if is_nil failed then Allowed res else false;
     Decision := if negb (is_nil failed) then DecisionDeny
                 else if negb (is_nil warnings) then DecisionWarn
                 else Decision res;
     FailedChecks := failed; Warnings := warnings;
     RequiredChanges := RequiredChanges res ++ RequiredChanges assertRes |}.

End Check.

(** ** Specification: what an allowed request satisfies *)

Section Spec.
Variable re_compile : string → option (string → bool).
Implicit Types (req : Request) (ap : AssertionPolicy) (f : AssertionField).

Definition re_matches (pattern v : string) : Prop :=
  ∃ re, re_compile pattern = Some re ∧ re v = true.

(** A metadata value (absent and empty are the same) satisfies a field. *)
Definition value_ok f (v : string) : Prop :=
  if v =? "" then f_Required f = false
  else (f_Value f = "" ∨ v = f_Value f) ∧ (f_Pattern f = "" ∨ re_matches (f_Pattern f) v).

Definition field_locations f : list string :=
  match f_Locations f with [] => ["request"] | l => l end.

Definition field_ok f req : Prop :=
  f_Name f = "" ∨
  ∀ loc, loc ∈ field_locations f →
    value_ok f (default "" (valuesForLocation loc req !! f_Name f)).

(** Every assertion policy that applies to the operation and is neither off
    nor advisory holds; an unknown mode counts as enforced. *)
Definition assertions_hold req : Prop :=
  ∀ ap, ap ∈ assertionPolicies (ag_MetadataAssertions (req_Agent req)) (req_Operation req) →
    assertion_mode ap = "off" ∨ assertion_mode ap = "warn" ∨
    ∀ f, f ∈ ap_Fields ap → field_ok f req.

Definition permitted req : Prop :=
  let agent := req_Agent req in
  (req_AgentID req ≠ "" ∧ req_AgentID req = ag_ID agent ∧ ag_Enabled agent = true) ∧
  (∃ repo, repo ∈ ag_Repositories agent ∧ equal_fold repo (req_Repo req) = true) ∧
  req_Operation req ∈ ag_Operations agent ∧
  (req_Branch req = "" ∨ ag_BranchPatterns agent = [] ∨
   ∃ p, p ∈ ag_BranchPatterns agent ∧ re_matches p (req_Branch req)) ∧
  (req_BaseBranch req = "" ∨ ag_BaseBranches agent = [] ∨
   req_BaseBranch req ∈ ag_BaseBranches agent) ∧
  (∀ p, p ∈ req_Permissions req → p ∈ ag_Permissions agent) ∧
  assertions_hold req.

(** ** Lemmas *)

Lemma contains_spec items want : contains items want = true ↔ want ∈ items.
Proof.
  induction items as [|item items IH]; cbn; [set_solver|].
  rewrite elem_of_cons. destruct (String.eqb_spec item want); naive_solver.
Qed.

Lemma containsFold_spec items want :
  containsFold items want = true ↔ ∃ x, x ∈ items ∧ equal_fold x want = true.
Proof.
  induction items as [|item items IH]; cbn; [by rewrite elem_exists_nil|].
  rewrite elem_exists_cons, <-IH. by destruct (equal_fold item want); intuition.
Qed.

Lemma pattern_fails_spec p v : pattern_fails re_compile p v = false ↔ re_matches p v.
Proof.
  unfold pattern_fails, re_matches. split.
  - intros H. destruct (re_compile p) as [re|]; [exists re|done].
    by apply negb_false_iff in H.
  - intros (re & -> & ->). done.
Qed.

Lemma matchesAny_spec patterns v :
  matchesAny re_compile patterns v = true ↔ ∃ p, p ∈ patterns ∧ re_matches p v.
Proof.
  induction patterns as [|p patterns IH]; cbn; [by rewrite elem_exists_nil|].
  rewrite elem_exists_cons, <-IH, <-pattern_fails_spec. unfold pattern_fails.
  destruct (re_compile p) as [re|]; [destruct (re v)|]; cbn; intuition congruence.
Qed.

Lemma checkFieldAt_None f req loc :
  checkFieldAt re_compile f req loc = None ↔
  value_ok f (default "" (valuesForLocation loc req !! f_Name f)).
Proof.
  unfold checkFieldAt, value_ok.
  generalize (default "" (valuesForLocation loc req !! f_Name f)); intros v.
  destruct (String.eqb_spec v ""); [by destruct (f_Required f)|].
  rewrite <-pattern_fails_spec.
  destruct (String.eqb_spec (f_Value f) ""), (String.eqb_spec v (f_Value f)),
    (String.eqb_spec (f_Pattern f) ""), (pattern_fails re_compile (f_Pattern f) v);
    cbn; intuition congruence.
Qed.

Lemma checkLocations_None f req locs :
  checkLocations re_compile f req locs = None ↔
  ∀ loc, loc ∈ locs → checkFieldAt re_compile f req loc = None.
Proof.
  induction locs as [|loc locs IH]; cbn; [by rewrite elem_forall_nil|].
  rewrite elem_forall_cons, <-IH. by destruct (checkFieldAt re_compile f req loc); intuition congruence.
Qed.

Lemma checkField_None f req : checkField re_compile f req = None ↔ field_ok f req.
Proof.
  unfold checkField, field_ok. destruct (String.eqb_spec (f_Name f) ""); [naive_solver|].
  rewrite checkLocations_None. setoid_rewrite checkFieldAt_None.
  unfold field_locations. naive_solver.
Qed.

Lemma checkFields_no_failure mode req fields res :
  FailedChecks (checkFields re_compile mode req fields res) = [] ↔
  FailedChecks res = [] ∧ (mode = "warn" ∨ ∀ f, f ∈ fields → field_ok f req).
Proof.
  revert res; induction fields as [|f fields IH]; intros res; cbn.
  { rewrite elem_forall_nil. tauto. }
  rewrite IH, elem_forall_cons, <-checkField_None.
  destruct (checkField re_compile f req); [destruct (String.eqb_spec mode "warn")|];
    cbn; rewrite ?app_nil; intuition congruence.
Qed.

Lemma checkPolicies_no_failure req policies res :
  FailedChecks (checkPolicies re_compile req policies res) = [] ↔
  FailedChecks res = [] ∧
  ∀ ap, ap ∈ policies → assertion_mode ap = "off" ∨ assertion_mode ap = "warn" ∨
    ∀ f, f ∈ ap_Fields ap → field_ok f req.
Proof.
  revert res; induction policies as [|ap policies IH]; intros res; cbn.
  { rewrite elem_forall_nil. tauto. }
  rewrite elem_forall_cons.
  destruct (String.eqb_spec (assertion_mode ap) "off"); rewrite IH.
  - tauto.
  - rewrite checkFields_no_failure. tauto.
Qed.

Lemma checkAssertions_no_failure req :
  FailedChecks (checkAssertions re_compile req) = [] ↔ assertions_hold req.
Proof. unfold checkAssertions. rewrite checkPolicies_no_failure. cbn. naive_solver. Qed.

Lemma checkPermissions_no_failure agent perms res :
  FailedChecks (checkPermissions agent perms res) = [] ↔
  FailedChecks res = [] ∧ ∀ p, p ∈ perms → p ∈ ag_Permissions agent.
Proof.
  revert res; induction perms as [|p perms IH]; intros res; cbn.
  { rewrite elem_forall_nil. tauto. }
  rewrite IH, elem_forall_cons, <-contains_spec.
  destruct (contains (ag_Permissions agent) p); cbn; rewrite ?app_nil; intuition congruence.
Qed.

(** One guard of [Check]: the failures stay empty iff the guard does not fire,
    and the other fields of the result are not touched. *)
Lemma guard_no_failure (c : bool) r d fl l e a s m :
  FailedChecks (if c then addFailure r d fl l e a s m else r) = [] ↔
  FailedChecks r = [] ∧ c = false.
Proof. destruct c; cbn; rewrite ?app_nil; intuition congruence. Qed.

Lemma guard_change_no_failure (c : bool) r d fl l e a s m ch :
  FailedChecks (if c then addChange (addFailure r d fl l e a s m) ch else r) = [] ↔
  FailedChecks r = [] ∧ c = false.
Proof. destruct c; cbn; rewrite ?app_nil; intuition congruence. Qed.

Definition frame (r : Result) := (Allowed r, Decision r, Warnings r).

Lemma guard_frame (c : bool) r r' : frame r' = frame r → frame (if c then r' else r) = frame r.
Proof. by destruct c. Qed.

Lemma checkPermissions_frame agent perms res :
  frame (checkPermissions agent perms res) = frame res.
Proof.
  revert res; induction perms as [|p perms IH]; intros res; cbn; [done|].
  by rewrite IH, guard_frame.
Qed.

Lemma Check_shape req :
  let r := Check re_compile req in
  let w := Warnings (checkAssertions re_compile req) in
  Allowed r = is_nil (FailedChecks r) ∧ Warnings r = w ∧
  Decision r = if negb (is_nil (FailedChecks r)) then DecisionDeny
               else if negb (is_nil w) then DecisionWarn else DecisionAllow.
Proof.
  unfold Check; cbn zeta.
  match goal with |- context [checkPermissions ?a ?p ?r] =>
    assert (frame (checkPermissions a p r) = (true, DecisionAllow, [])) as Hf end.
  { rewrite checkPermissions_frame. by repeat (rewrite guard_frame; [|done]). }
  revert Hf. generalize (checkPermissions (req_Agent req) (req_Permissions req)).
  intros P Hf. cbn. injection Hf as -> -> ->.
  by destruct (is_nil _).
Qed.

Lemma Check_no_failure req :
  FailedChecks (Check re_compile req) = [] ↔ permitted req.
Proof.
  unfold Check, permitted; cbn zeta; cbn [FailedChecks].
  rewrite app_nil, checkPermissions_no_failure, !guard_change_no_failure,
    !guard_no_failure, checkAssertions_no_failure.
  rewrite <-containsFold_spec, <-matchesAny_spec, <-!contains_spec.
  generalize (assertions_hold req); intros A.
  generalize (∀ p, p ∈ req_Permissions req → p ∈ ag_Permissions (req_Agent req)); intros B.
  cbn [FailedChecks].
  rewrite !orb_false_iff, !andb_false_iff, !negb_false_iff, !is_nil_true,
    !String.eqb_eq, !String.eqb_neq.
  intuition congruence.
Qed.

End Spec.

(** ** Properties *)

Section Properties.
Variable re_compile : string → option (string → bool).

(** C7: deny by default.  [Check] allows a request exactly when it is
    [permitted]: the authenticated identity is the enabled agent, repository,
    operation and every permission are on its allowlists, branch and base
    branch match their (non-empty) allowlists, and every enforced metadata
    assertion that applies to the operation holds; a pattern that does not
    compile and an unknown assertion mode never widen access. *)
Theorem Check_allowed_iff (req : Request) :
  Allowed (Check re_compile req) = true ↔ permitted re_compile req.
Proof.
  rewrite <-Check_no_failure, (proj1 (Check_shape re_compile req)). apply is_nil_true.
Qed.

End Properties.
