(* ===== verification/Capability.v ===== *)
(** * internal/capability/capability.go: per-run capability claims

    [NewClaims] builds immutable claims from validated input, [Validate]
    re-checks stored claims, [Authorize] decides one request.  Budgets are
    int64 values; the subtraction in [Authorize] is the machine one. *)

From S2P Require Import Prelude GoStrings GoTime.
Open Scope string_scope.
Open Scope list_scope.
Open Scope Z_scope.

(** ** Data *)

(** The sentinel errors; the wrapped detail text is kept where the code adds one. *)
Inductive cap_error :=
| ErrInvalidClaims (detail : string)
| ErrExpired
| ErrAgentTypeMismatch
| ErrModeMismatch
| ErrRunMismatch
| ErrWorkItemMismatch
| ErrModelDenied (detail : string)
| ErrCallBudget (detail : string)
| ErrTokenBudget (detail : string).

Record Claims := {
  agentType : string; mode : string; runID : string; workItemID : string;
  allowedModels : gset string; callBudget : Z; tokenBudget : Z; expiry : time }.

Record ClaimsInput := {
  in_AgentType : string; in_Mode : string; in_RunID : string; in_WorkItemID : string;
  in_AllowedModels : list string; in_CallBudget : Z; in_TokenBudget : Z; in_Expiry : time }.

Record Request := {
  r_AgentType : string; r_Mode : string; r_RunID : string; r_WorkItemID : string;
  r_Model : string; r_Calls : Z; r_Tokens : Z; r_ReservedCalls : Z; r_ReservedTokens : Z }.

(** ** Operations *)

Definition coherentModelAccess (modelEnabled : bool) (callBudget tokenBudget : Z) : bool :=
  if modelEnabled then (0 <? callBudget) && (0 <? tokenBudget)
  else (callBudget =? 0) && (tokenBudget =? 0).

(** The loop that collects the allowed models and rejects a blank entry. *)
Fixpoint collectModels (l : list string) (models : gset string)
    : result cap_error (gset string) :=
  match l with
  | [] => Ok models
  | m :: l =>
    fail_if (m =? "")%string with ErrInvalidClaims "allowed_models contains a blank entry" ;;
    collectModels l ({[m]} ∪ models)
  end.

(** [len(models) > 0] *)
Definition nonempty (models : gset string) : bool := negb (bool_decide (models = ∅)).

Definition NewClaims (i : ClaimsInput) : result cap_error Claims :=
  fail_if (in_AgentType i =? "")%string with ErrInvalidClaims "agent_type is required" ;;
  fail_if (in_Mode i =? "")%string with ErrInvalidClaims "mode is required" ;;
  fail_if (in_RunID i =? "")%string with ErrInvalidClaims "run_id is required" ;;
  fail_if (in_WorkItemID i =? "")%string with ErrInvalidClaims "work_item_id is required" ;;
  fail_if is_zero (in_Expiry i) with ErrInvalidClaims "expiry is required" ;;
  fail_if (in_CallBudget i <? 0) || (in_TokenBudget i <? 0)
    with ErrInvalidClaims "budgets must not be negative" ;;
  models ← collectModels (in_AllowedModels i) ∅;
  fail_if negb (coherentModelAccess (nonempty models) (in_CallBudget i) (in_TokenBudget i))
    with ErrInvalidClaims "model access is incoherent" ;;
  Ok {| agentType := in_AgentType i; mode := in_Mode i; runID := in_RunID i;
        workItemID := in_WorkItemID i; allowedModels := models;
        callBudget := in_CallBudget i; tokenBudget := in_TokenBudget i;
        expiry := in_Expiry i |}.

Definition ModelEnabled (c : Claims) : bool := nonempty (allowedModels c).

(** A sorted copy of the allowed models. *)
Definition AllowedModels (c : Claims) : list string :=
  merge_sort text_order (elements (allowedModels c)).

Definition AllowsModel (c : Claims) (model : string) : bool :=
  bool_decide (model ∈ allowedModels c).

Definition Validate (claims : Claims) (now : time) : result cap_error unit :=
  fail_if (agentType claims =? "")%string || (mode claims =? "")%string
          || (runID claims =? "")%string || (workItemID claims =? "")%string
          || is_zero (expiry claims) with ErrInvalidClaims "" ;;
  fail_if (callBudget claims <? 0) || (tokenBudget claims <? 0) with ErrInvalidClaims "" ;;
  fail_if negb (coherentModelAccess (nonempty (allowedModels claims))
                  (callBudget claims) (tokenBudget claims)) with ErrInvalidClaims "" ;;
  fail_if negb (now <? expiry claims) with ErrExpired ;;
  Ok ().

Definition Authorize (claims : Claims) (req : Request) (now : time) : result cap_error unit :=
  _ ← Validate claims now;
  fail_if negb (r_AgentType req =? agentType claims)%string with ErrAgentTypeMismatch ;;
  fail_if negb (r_Mode req =? mode claims)%string with ErrModeMismatch ;;
  fail_if negb (r_RunID req =? runID claims)%string with ErrRunMismatch ;;
  fail_if negb (r_WorkItemID req =? workItemID claims)%string with ErrWorkItemMismatch ;;
  fail_if (r_Calls req <? 0) || (r_Tokens req <? 0)
          || (r_ReservedCalls req <? 0) || (r_ReservedTokens req <? 0)
    with ErrInvalidClaims "negative reservation" ;;
  if negb (ModelEnabled claims) then
    fail_if negb (r_Model req =? "")%string with ErrModelDenied "capability is model-disabled" ;;
    fail_if (0 <? r_Calls req) || (0 <? r_ReservedCalls req)
      with ErrCallBudget "capability is model-disabled" ;;
    fail_if (0 <? r_Tokens req) || (0 <? r_ReservedTokens req)
      with ErrTokenBudget "capability is model-disabled" ;;
    Ok ()
  else
    fail_if negb (r_Model req =? "")%string && negb (AllowsModel claims (r_Model req))
      with ErrModelDenied (r_Model req) ;;
    fail_if (callBudget claims <? r_ReservedCalls req)
            || (wrap64 (callBudget claims - r_ReservedCalls req) <? r_Calls req)
      with ErrCallBudget "" ;;
    fail_if (tokenBudget claims <? r_ReservedTokens req)
            || (wrap64 (tokenBudget claims - r_ReservedTokens req) <? r_Tokens req)
      with ErrTokenBudget "" ;;
    Ok ().

(** ** Specification *)

(** The two coherent model-access states. *)
Inductive coherent (models : gset string) (calls tokens : Z) : Prop :=
| model_enabled : models ≠ ∅ → 0 < calls → 0 < tokens → coherent models calls tokens
| model_disabled : models = ∅ → calls = 0 → tokens = 0 → coherent models calls tokens.

(** Well-formed claims: what [NewClaims] establishes and [Validate] re-checks. *)
Record wf_claims (c : Claims) : Prop := {
  wf_agentType : agentType c ≠ "";
  wf_mode : mode c ≠ "";
  wf_runID : runID c ≠ "";
  wf_workItemID : workItemID c ≠ "";
  wf_expiry : expiry c ≠ zero_time;
  wf_budgets : coherent (allowedModels c) (callBudget c) (tokenBudget c) }.

(** The request is covered by the claims at [now], in unbounded arithmetic. *)
Record authorized (c : Claims) (r : Request) (now : time) : Prop := {
  au_wf : wf_claims c;
  au_live : now < expiry c;
  au_identity : r_AgentType r = agentType c ∧ r_Mode r = mode c ∧
                r_RunID r = runID c ∧ r_WorkItemID r = workItemID c;
  au_nonneg : 0 ≤ r_Calls r ∧ 0 ≤ r_Tokens r ∧ 0 ≤ r_ReservedCalls r ∧ 0 ≤ r_ReservedTokens r;
  au_model : r_Model r = "" ∨ r_Model r ∈ allowedModels c;
  au_calls : r_ReservedCalls r + r_Calls r ≤ callBudget c;
  au_tokens : r_ReservedTokens r + r_Tokens r ≤ tokenBudget c }.

(** ** Lemmas *)

Lemma is_zero_spec t : is_zero t = true ↔ t = zero_time.
Proof. apply Z.eqb_eq. Qed.

Lemma nonempty_true m : nonempty m = true ↔ m ≠ ∅.
Proof. unfold nonempty. by rewrite negb_true_iff, bool_decide_eq_false. Qed.

Lemma nonempty_false m : nonempty m = false ↔ m = ∅.
Proof. unfold nonempty. by rewrite negb_false_iff, bool_decide_eq_true. Qed.

Lemma coherent_spec m calls tokens :
  coherentModelAccess (nonempty m) calls tokens = true ↔ coherent m calls tokens.
Proof.
  unfold coherentModelAccess. destruct (nonempty m) eqn:E.
  - apply nonempty_true in E. rewrite andb_true_iff, !Z.ltb_lt.
    split; [intros []; by left | intros [| ]; done].
  - apply nonempty_false in E. rewrite andb_true_iff, !Z.eqb_eq.
    split; [intros []; by right | intros []; done].
Qed.

Lemma coherent_nonneg m calls tokens : coherent m calls tokens → 0 ≤ calls ∧ 0 ≤ tokens.
Proof. intros []; lia. Qed.

Lemma collectModels_spec l acc models :
  collectModels l acc = Ok models ↔ "" ∉ l ∧ models = list_to_set l ∪ acc.
Proof.
  revert acc; induction l as [|m l IH]; intros acc; cbn.
  - split; [intros [= ->] | intros [_ ->]]; [split; set_solver | f_equal; set_solver].
  - destruct (String.eqb_spec m "") as [->|Hm].
    + split; [done | intros [H _]; destruct H; set_solver].
    + rewrite IH, not_elem_of_cons.
      replace (list_to_set l ∪ ({[m]} ∪ acc)) with ({[m]} ∪ list_to_set l ∪ acc)
        by set_solver. naive_solver.
Qed.

Lemma Validate_ok_iff c now : Validate c now = Ok () ↔ wf_claims c ∧ now < expiry c.
Proof.
  unfold Validate. split.
  - intros H. guards H. bool_hyps. split; [|done].
    split; [done..| |]; [by intros ?%is_zero_spec; congruence | by apply coherent_spec].
  - intros [[? ? ? ? ? Hc] Hnow]. pose proof (coherent_nonneg _ _ _ Hc).
    apply coherent_spec in Hc. rewrite Hc.
    rewrite !(proj2 (String.eqb_neq _ _)) by done.
    rewrite !(proj2 (Z.ltb_ge _ _)), (proj2 (Z.ltb_lt now _)) by lia.
    destruct (is_zero (expiry c)) eqn:E; [by apply is_zero_spec in E | done].
Qed.

Lemma AllowedModels_set c : list_to_set (AllowedModels c) = allowedModels c.
Proof.
  unfold AllowedModels. rewrite (list_to_set_perm_L _ _ (merge_sort_Permutation text_order _)).
  apply list_to_set_elements_L.
Qed.

Lemma elem_of_AllowedModels c m : m ∈ AllowedModels c ↔ m ∈ allowedModels c.
Proof. by rewrite <-(AllowedModels_set c), elem_of_list_to_set. Qed.

Lemma ModelEnabled_true c : ModelEnabled c = true ↔ allowedModels c ≠ ∅.
Proof. apply nonempty_true. Qed.

Lemma wrap64_headroom b r : 0 ≤ r ≤ b → b ≤ max_int64 → wrap64 (b - r) = b - r.
Proof. unfold max_int64. intros. apply wrap64_id. unfold int64, min_int64, max_int64. lia. Qed.

(** [b < r || b - r < n] of the code, for a budget [b] that fits an int64. *)
Lemma headroom_spec b r n : 0 ≤ r → b ≤ max_int64 →
  (b <? r) || (wrap64 (b - r) <? n) = false ↔ r ≤ b ∧ r + n ≤ b.
Proof.
  intros Hr Hb. destruct (Z.ltb_spec b r); cbn; [split; [done|lia]|].
  rewrite wrap64_headroom, Z.ltb_ge by lia. lia.
Qed.

Lemma headroom_ok b r n : 0 ≤ r → b ≤ max_int64 → r + n ≤ b → 0 ≤ n →
  (b <? r) || (wrap64 (b - r) <? n) = false.
Proof. intros. apply headroom_spec; lia. Qed.

(** The two halves of [Authorize]'s specification. *)
Lemma Authorize_sound c r now :
  callBudget c ≤ max_int64 → tokenBudget c ≤ max_int64 →
  Authorize c r now = Ok () → authorized c r now.
Proof.
  intros Hcb Htb (u & HV & H)%bind_ok. destruct u. apply Validate_ok_iff in HV as [Hwf Hlive].
  cbv beta in H. guards H; bool_hyps.
  - unfold ModelEnabled in *. match goal with E : nonempty _ = false |- _ =>
      apply nonempty_false in E; rename E into Hm end.
    destruct (wf_budgets _ Hwf); [done|]. split; [done|done|by split_and!|lia|by left|lia|lia].
  - match goal with E : negb _ && negb _ = false |- _ => rename E into Hmodel end.
    rewrite wrap64_headroom in * by lia.
    split; [done|done|by split_and!|lia| |lia|lia].
    apply andb_false_iff in Hmodel as [Hm|Hm]; apply negb_false_iff in Hm.
    + left. by apply String.eqb_eq.
    + right. by apply bool_decide_eq_true in Hm.
Qed.

Lemma Authorize_complete c r now :
  callBudget c ≤ max_int64 → tokenBudget c ≤ max_int64 →
  authorized c r now → Authorize c r now = Ok ().
Proof.
  intros Hcb Htb [Hwf Hlive (Ea & Em & Er & Ew) Hn Hmodel Hc Ht]. unfold Authorize.
  rewrite (proj2 (Validate_ok_iff c now)) by done. cbn.
  rewrite Ea, Em, Er, Ew, !String.eqb_refl. cbn.
  rewrite !(proj2 (Z.ltb_ge _ 0)) by lia. cbn.
  unfold ModelEnabled, AllowsModel. destruct (nonempty (allowedModels c)) eqn:E; cbn.
  - rewrite !headroom_ok by lia.
    destruct Hmodel as [->|Hin]; [done|].
    rewrite (bool_decide_eq_true_2 _ Hin), andb_false_r. done.
  - apply nonempty_false in E. destruct (wf_budgets _ Hwf) as [|_ E1 E2]; [done|].
    rewrite E1 in Hc. rewrite E2 in Ht.
    destruct Hmodel as [->|Hin]; [cbn|by rewrite E in Hin; apply not_elem_of_empty in Hin].
    by rewrite !(proj2 (Z.ltb_ge 0 _)) by lia.
Qed.

Lemma NewClaims_spec (i : ClaimsInput) (c : Claims) :
  NewClaims i = Ok c ↔
  "" ∉ in_AllowedModels i ∧ wf_claims c ∧
  c = {| agentType := in_AgentType i; mode := in_Mode i; runID := in_RunID i;
         workItemID := in_WorkItemID i; allowedModels := list_to_set (in_AllowedModels i);
         callBudget := in_CallBudget i; tokenBudget := in_TokenBudget i;
         expiry := in_Expiry i |}.
Proof.
  unfold NewClaims. split.
  - intros H. guards H. apply bind_ok in H as (models & Hm & H). guards H.
    apply collectModels_spec in Hm as [Hblank ->]. rewrite (right_id_L ∅ (∪)) in *.
    bool_hyps. injection H as <-. split; [done|]. split; [|done].
    split; cbn; try done; [by intros ?%is_zero_spec; congruence | by apply coherent_spec].
  - intros (Hblank & [H1 H2 H3 H4 H5 Hc] & ->). cbn in *.
    pose proof (coherent_nonneg _ _ _ Hc). apply coherent_spec in Hc.
    rewrite !(proj2 (String.eqb_neq _ _)) by done.
    rewrite !(proj2 (Z.ltb_ge _ _)) by lia. cbn [orb].
    destruct (is_zero (in_Expiry i)) eqn:E; [by destruct H5; apply is_zero_spec|].
    rewrite (proj2 (collectModels_spec _ _ (list_to_set (in_AllowedModels i)))).
    2: { split; [done|]. by rewrite (right_id_L ∅ (∪)). }
    cbn. by rewrite Hc.
Qed.

(** ** Properties *)

(** [NewClaims] accepts exactly the inputs with all four identity fields, a
    non-zero expiry, no blank model and one of the two coherent model-access
    states, and then binds the input's fields unchanged. *)
Theorem NewClaims_ok_iff (i : ClaimsInput) (c : Claims) :
  NewClaims i = Ok c ↔
  "" ∉ in_AllowedModels i ∧ wf_claims c ∧
  c = {| agentType := in_AgentType i; mode := in_Mode i; runID := in_RunID i;
         workItemID := in_WorkItemID i; allowedModels := list_to_set (in_AllowedModels i);
         callBudget := in_CallBudget i; tokenBudget := in_TokenBudget i;
         expiry := in_Expiry i |}.
Proof. apply NewClaims_spec. Qed.

(** A request is authorized exactly when the claims are well formed and
    unexpired, all four identity fields match, the model is allowed and both
    increments fit what is left of the budgets, in unbounded integers: the
    machine subtraction in the code cannot be made to overflow by hostile
    int64 increments. *)
Theorem Authorize_ok_iff (c : Claims) (r : Request) (now : time)
    (Hcb : int64 (callBudget c)) (Htb : int64 (tokenBudget c)) :
  Authorize c r now = Ok () ↔ authorized c r now.
Proof.
  destruct Hcb, Htb. split; [by apply Authorize_sound | by apply Authorize_complete].
Qed.

Definition sample_claims : Claims :=
  {| agentType := "curator"; mode := "launch"; runID := "run-1"; workItemID := "wi-1";
     allowedModels := {[ "gpt" ]}; callBudget := 3; tokenBudget := max_int64;
     expiry := 2000 * second |}.
Definition sample_request : Request :=
  {| r_AgentType := "curator"; r_Mode := "launch"; r_RunID := "run-1"; r_WorkItemID := "wi-1";
     r_Model := "gpt"; r_Calls := 1; r_Tokens := max_int64; r_ReservedCalls := 2;
     r_ReservedTokens := 1 |}.

Lemma Authorize_ok_iff_witness :
  Authorize sample_claims sample_request 0 = Err (ErrTokenBudget "") ∧
  (Authorize sample_claims sample_request 0 = Ok () ↔ authorized sample_claims sample_request 0).
Proof.
  split; [vm_compute; reflexivity|].
  apply (Authorize_ok_iff sample_claims sample_request 0);
    unfold int64, min_int64, max_int64; cbn; unfold max_int64; split; lia.
Defined.
