(* ===== verification/CapabilityStore.v ===== *)
(** * internal/capability/store.go: the durable capability registry

    The [capabilities] table is a map from the SHA-256 of a handle (its primary
    key) to a row; an operation runs in one transaction and commits a new table
    or leaves the old one.  SHA-256 is a parameter.  Clock readings and random
    bytes are arguments; [fl] says which database call of the operation fails.
    A timestamp column keeps the instant its text denotes, [allowed_models] the
    list its JSON text denotes. *)

From S2P Require Import Prelude GoStrings GoTime GoJson Capability.
Open Scope string_scope.
Open Scope list_scope.
Open Scope Z_scope.
#[local] Arguments Validate : simpl never.

(** ** Data *)

Definition storeSchemaVersion : Z := 1.
Definition handleBytes : nat := 32.
Definition stateActive := "active".
Definition stateRevoked := "revoked".

Inductive store_error :=
| ErrClaims (e : cap_error)
| ErrReconstruct (e : cap_error)
| ErrHandleNotFound
| ErrRevoked
| ErrHandleMalformed
| ErrTimestamp
| ErrModels
| ErrStorage (context : string)
| ErrIntegrity (what : string).

Record Reservation := { Calls : Z; Tokens : Z }.

Record row := {
  w_agent_type : string; w_mode : string; w_run_id : string; w_work_item_id : string;
  w_allowed_models : option (list string);
  w_call_budget : Z; w_token_budget : Z; w_expiry : time; w_state : string;
  w_reserved_calls : Z; w_reserved_tokens : Z; w_created_at : time; w_updated_at : time }.

Notation table := (gmap string row).

Record capabilityRow := { cr_claims : Claims; cr_reservation : Reservation; cr_state : string }.

(** ** Helpers *)

(** hex.EncodeToString *)
Fixpoint hex_encode (s : string) : string :=
  match s with
  | EmptyString => EmptyString
  | String c s => String (hex_digit (code c / 16)) (String (hex_digit (code c mod 16)) (hex_encode s))
  end.

Definition parseStoreTime (t : time) : result store_error time :=
  if decide (rfc3339_range t) then Ok t else Err ErrTimestamp.

Definition decodeAllowedModels (m : option (list string)) : result store_error (list string) :=
  match m with Some l => Ok l | None => Err ErrModels end.

(** The first error of a Go call whose error is wrapped. *)
Definition lift_claims (r : result cap_error Claims) : result store_error Claims :=
  match r with Ok c => Ok c | Err e => Err (ErrReconstruct e) end.
Definition lift_eval (r : result cap_error unit) : result store_error unit :=
  match r with Ok _ => Ok () | Err e => Err (ErrClaims e) end.

Definition set_reserved (r : row) (calls tokens : Z) (now : time) : row :=
  {| w_agent_type := w_agent_type r; w_mode := w_mode r; w_run_id := w_run_id r;
     w_work_item_id := w_work_item_id r; w_allowed_models := w_allowed_models r;
     w_call_budget := w_call_budget r; w_token_budget := w_token_budget r;
     w_expiry := w_expiry r; w_state := w_state r; w_reserved_calls := calls;
     w_reserved_tokens := tokens; w_created_at := w_created_at r; w_updated_at := now |}.

Definition set_state (r : row) (state : string) (now : time) : row :=
  {| w_agent_type := w_agent_type r; w_mode := w_mode r; w_run_id := w_run_id r;
     w_work_item_id := w_work_item_id r; w_allowed_models := w_allowed_models r;
     w_call_budget := w_call_budget r; w_token_budget := w_token_budget r;
     w_expiry := w_expiry r; w_state := state; w_reserved_calls := w_reserved_calls r;
     w_reserved_tokens := w_reserved_tokens r; w_created_at := w_created_at r;
     w_updated_at := now |}.

Definition row_input (r : row) (models : list string) (expiry : time) : ClaimsInput :=
  {| in_AgentType := w_agent_type r; in_Mode := w_mode r; in_RunID := w_run_id r;
     in_WorkItemID := w_work_item_id r; in_AllowedModels := models;
     in_CallBudget := w_call_budget r; in_TokenBudget := w_token_budget r;
     in_Expiry := expiry |}.

(** The request with the durable totals filled in. *)
Definition with_reserved (req : Request) (r : Reservation) : Request :=
  {| r_AgentType := r_AgentType req; r_Mode := r_Mode req; r_RunID := r_RunID req;
     r_WorkItemID := r_WorkItemID req; r_Model := r_Model req; r_Calls := r_Calls req;
     r_Tokens := r_Tokens req; r_ReservedCalls := Calls r; r_ReservedTokens := Tokens r |}.

(** ** Operations *)

Section Store.
(** hex of the SHA-256 of a byte string *)
Variable sha256_hex : string → string.

Definition hashHandle (handle : string) : string := sha256_hex handle.

Definition digestOf (handle : string) : result store_error string :=
  fail_if negb (String.length handle =? handleBytes * 2)%nat with ErrHandleMalformed ;;
  fail_if negb (all_chars is_hex handle) with ErrHandleMalformed ;;
  Ok (hashHandle handle).

(** The query is database call [k]. *)
Definition scanCapabilityTx (fl : fault) (k : nat) (t : table) (digest : string)
    : result store_error capabilityRow :=
  fail_if fails fl k with ErrStorage "scan capability" ;;
  match t !! digest with
  | None => Err ErrHandleNotFound
  | Some r =>
    fail_if (w_state r =? stateRevoked)%string with ErrRevoked ;;
    expiry ← parseStoreTime (w_expiry r);
    allowedModels ← decodeAllowedModels (w_allowed_models r);
    claims ← lift_claims (NewClaims (row_input r allowedModels expiry));
    Ok {| cr_claims := claims;
          cr_reservation := {| Calls := w_reserved_calls r; Tokens := w_reserved_tokens r |};
          cr_state := w_state r |}
  end.

Definition lookup (fl : fault) (t : table) (handle : string) : result store_error capabilityRow :=
  digest ← digestOf handle;
  fail_if fails fl 0 with ErrStorage "begin capability lookup" ;;
  scanCapabilityTx fl 1 t digest.

(** [raw] is what rand.Read returned; [now] and [now'] are the two readings of
    the clock. *)
Definition Issue (fl : fault) (t : table) (claims : Claims) (raw : string) (now now' : time)
    : table * result store_error string :=
  atomically t (
    _ ← lift_eval (Validate claims now);
    fail_if fails fl 0 with ErrStorage "generate capability handle" ;;
    let handle := hex_encode raw in
    let digest := hashHandle handle in
    fail_if fails fl 1 with ErrStorage "persist capability" ;;
    match t !! digest with
    | Some _ => Err (ErrStorage "persist capability")
    | None =>
      let r := {| w_agent_type := agentType claims; w_mode := mode claims;
                  w_run_id := runID claims; w_work_item_id := workItemID claims;
                  w_allowed_models := Some (map coerce (AllowedModels claims));
                  w_call_budget := callBudget claims; w_token_budget := tokenBudget claims;
                  w_expiry := expiry claims; w_state := stateActive;
                  w_reserved_calls := 0; w_reserved_tokens := 0;
                  w_created_at := now'; w_updated_at := now' |} in
      Ok (<[digest := r]> t, handle)
    end).

Definition Verify (fl : fault) (t : table) (handle : string) (now : time)
    : result store_error (Claims * Reservation) :=
  row ← lookup fl t handle;
  _ ← lift_eval (Validate (cr_claims row) now);
  Ok (cr_claims row, cr_reservation row).

Definition Reserve (fl : fault) (t : table) (handle : string) (req : Request) (now now' : time)
    : table * result store_error Reservation :=
  atomically t (
    digest ← digestOf handle;
    fail_if fails fl 0 with ErrStorage "begin capability reserve" ;;
    row ← scanCapabilityTx fl 1 t digest;
    let req := with_reserved req (cr_reservation row) in
    _ ← lift_eval (Authorize (cr_claims row) req now);
    let newCalls := wrap64 (Calls (cr_reservation row) + r_Calls req) in
    let newTokens := wrap64 (Tokens (cr_reservation row) + r_Tokens req) in
    fail_if fails fl 2 with ErrStorage "record capability reservation" ;;
    let t' := alter (λ r, if (w_state r =? stateActive)%string
                          then set_reserved r newCalls newTokens now' else r) digest t in
    fail_if fails fl 3 with ErrStorage "commit capability reservation" ;;
    Ok (t', {| Calls := newCalls; Tokens := newTokens |})).

Definition Revoke (fl : fault) (t : table) (handle : string) (now : time)
    : table * result store_error unit :=
  match digestOf handle with
  | Err e => (t, Err e)
  | Ok digest =>
    if fails fl 0 then (t, Err (ErrStorage "revoke capability")) else
    let t' := alter (λ r, set_state r stateRevoked now) digest t in
    if fails fl 1 then (t', Err (ErrStorage "read revoke result")) else
    (t', if bool_decide (is_Some (t !! digest)) then Ok () else Err ErrHandleNotFound)
  end.

(** The checks of the offline validator on one row. *)
Definition ValidateRow (digest : string) (r : row) : result store_error unit :=
  fail_if negb (String.length digest =? 64)%nat with ErrIntegrity "malformed stored hash" ;;
  fail_if negb (w_state r =? stateActive)%string && negb (w_state r =? stateRevoked)%string
    with ErrIntegrity "unknown state" ;;
  expiry ← parseStoreTime (w_expiry r);
  allowedModels ← decodeAllowedModels (w_allowed_models r);
  _ ← lift_claims (NewClaims (row_input r allowedModels expiry));
  fail_if (w_reserved_calls r <? 0) || (w_reserved_tokens r <? 0)
          || (w_call_budget r <? w_reserved_calls r) || (w_token_budget r <? w_reserved_tokens r)
    with ErrIntegrity "reservation outside budget" ;;
  Ok ().

Fixpoint ValidateRows (rows : list (string * row)) : result store_error unit :=
  match rows with
  | [] => Ok ()
  | (digest, r) :: rows => _ ← ValidateRow digest r; ValidateRows rows
  end.

Definition ValidateStore (version : Z) (t : table) : result store_error unit :=
  fail_if negb (version =? storeSchemaVersion) with ErrIntegrity "unexpected schema version" ;;
  ValidateRows (map_to_list t).

(** ** Histories *)

(** One call of an operation, with its clock readings, randomness and fault. *)
Inductive call :=
| CIssue (fl : fault) (claims : Claims) (raw : string) (now now' : time)
| CReserve (fl : fault) (handle : string) (req : Request) (now now' : time)
| CRevoke (fl : fault) (handle : string) (now : time).

Definition run_call (t : table) (c : call) : table :=
  match c with
  | CIssue fl claims raw now now' => (Issue fl t claims raw now now').1
  | CReserve fl handle req now now' => (Reserve fl t handle req now now').1
  | CRevoke fl handle now => (Revoke fl t handle now).1
  end.

Definition run (t : table) (cs : list call) : table := fold_left run_call cs t.

(** What a history grants to the handle with digest [d]: the sum of the
    increments of the reservations that returned no error. *)
Definition granted (d : string) (t : table) (c : call) : Z * Z :=
  match c with
  | CReserve fl handle req now now' =>
    if is_ok (Reserve fl t handle req now now').2 && (hashHandle handle =? d)%string
    then (r_Calls req, r_Tokens req) else (0, 0)
  | _ => (0, 0)
  end.

Fixpoint total_granted (d : string) (t : table) (cs : list call) : Z * Z :=
  match cs with
  | [] => (0, 0)
  | c :: cs =>
    let '(a, b) := granted d t c in
    let '(a', b') := total_granted d (run_call t c) cs in (a + a', b + b')
  end.

(** ** Specification *)

(** Claims that a caller can hold come from [NewClaims]; their budgets are
    int64 values; an expiry after year 9999 has no text form. *)
Definition storable (c : Claims) : Prop :=
  (∃ i, NewClaims i = Ok c) ∧ int64 (callBudget c) ∧ int64 (tokenBudget c) ∧ rfc3339_range (expiry c).

Definition call_ok (c : call) : Prop :=
  match c with CIssue _ claims _ _ _ => storable claims | _ => True end.

Record wf_row (r : row) : Prop := {
  wr_state : w_state r = stateActive ∨ w_state r = stateRevoked;
  wr_range : rfc3339_range (w_expiry r);
  wr_claims : ∃ models c, w_allowed_models r = Some models ∧
                NewClaims (row_input r models (w_expiry r)) = Ok c;
  wr_calls : 0 ≤ w_reserved_calls r ≤ w_call_budget r;
  wr_tokens : 0 ≤ w_reserved_tokens r ≤ w_token_budget r }.

(** INTEGER columns hold int64 values. *)
Definition typed_table (t : table) : Prop :=
  map_Forall (λ _ r, int64 (w_call_budget r) ∧ int64 (w_token_budget r)) t.

(** What the offline validator checks. *)
Definition wf_table (t : table) : Prop :=
  map_Forall (λ d r, String.length d = 64%nat ∧ wf_row r) t.

(** ** Lemmas *)

Lemma scan_ok_iff fl k t d cr :
  scanCapabilityTx fl k t d = Ok cr ↔
  fails fl k = false ∧ ∃ r models, t !! d = Some r ∧ w_state r ≠ stateRevoked ∧
    rfc3339_range (w_expiry r) ∧ w_allowed_models r = Some models ∧
    NewClaims (row_input r models (w_expiry r)) = Ok (cr_claims cr) ∧
    cr_reservation cr = {| Calls := w_reserved_calls r; Tokens := w_reserved_tokens r |} ∧
    cr_state cr = w_state r.
Proof.
  unfold scanCapabilityTx, parseStoreTime, decodeAllowedModels. split.
  - destruct (fails fl k); [done|]. destruct (t !! d) as [r|]; [|done].
    destruct (String.eqb_spec (w_state r) stateRevoked); [done|].
    case_decide; [|done]. destruct (w_allowed_models r) as [models|] eqn:?; [|done]. cbn.
    destruct (NewClaims _) as [c|] eqn:HN; [|done]. cbn. intros [= <-].
    split; [done|]. exists r, models. by split_and!.
  - intros (-> & r & models & -> & Hs & Hr & -> & HN & Hres & Hst).
    rewrite (proj2 (String.eqb_neq _ _) Hs), decide_True by done. cbn. rewrite HN. cbn.
    destruct cr; cbn in *; congruence.
Qed.

Lemma digestOf_ok_iff h d :
  digestOf h = Ok d ↔ String.length h = 64%nat ∧ all_chars is_hex h = true ∧ d = hashHandle h.
Proof.
  unfold digestOf, handleBytes. change (32 * 2)%nat with 64%nat.
  destruct (Nat.eqb_spec (String.length h) 64); cbn [negb]; [|by split; [|intros []]].
  destruct (all_chars is_hex h); cbn [negb]; [|by split; [|intros (_ & ? & _)]].
  split; [by intros [= <-] | by intros (_ & _ & ->)].
Qed.

Lemma lift_eval_ok r : lift_eval r = Ok () ↔ r = Ok ().
Proof. destruct r as [[]|]; cbn; split; congruence. Qed.

(** Claims that pass [Validate] can be rebuilt from their stored form. *)
Lemma NewClaims_rebuild c models :
  wf_claims c → "" ∉ models → (models = [] ↔ allowedModels c = ∅) →
  ∃ c', NewClaims {| in_AgentType := agentType c; in_Mode := mode c; in_RunID := runID c;
    in_WorkItemID := workItemID c; in_AllowedModels := models; in_CallBudget := callBudget c;
    in_TokenBudget := tokenBudget c; in_Expiry := expiry c |} = Ok c'.
Proof.
  intros [H1 H2 H3 H4 H5 Hc] Hb Hm. eexists. apply NewClaims_spec. split; [done|].
  split; [|reflexivity]. split; cbn; try done.
  destruct Hc as [Hne ? ?|He ? ?]; [left|right]; try done.
  - intros E. apply Hne, Hm. destruct models; [done|]. cbn in E. set_solver.
  - apply Hm in He. by subst.
Qed.

Lemma coerce_models_nil c : map coerce (AllowedModels c) = [] ↔ allowedModels c = ∅.
Proof.
  rewrite <-(AllowedModels_set c). destruct (AllowedModels c); cbn; [done|].
  split; [done | set_solver].
Qed.

Lemma coerce_models_nonblank c i : NewClaims i = Ok c → "" ∉ map coerce (AllowedModels c).
Proof.
  intros (Hb & _ & ->)%NewClaims_spec (m & Hm & Hin)%list_elem_of_fmap.
  apply elem_of_AllowedModels in Hin. cbn in Hin. apply elem_of_list_to_set in Hin.
  apply (coerce_nonempty m); [by intros -> | done].
Qed.

(** What a successful [Issue] does. *)
Definition issued_row (c : Claims) (now' : time) : row :=
  {| w_agent_type := agentType c; w_mode := mode c; w_run_id := runID c;
     w_work_item_id := workItemID c; w_allowed_models := Some (map coerce (AllowedModels c));
     w_call_budget := callBudget c; w_token_budget := tokenBudget c; w_expiry := expiry c;
     w_state := stateActive; w_reserved_calls := 0; w_reserved_tokens := 0;
     w_created_at := now'; w_updated_at := now' |}.

Lemma Issue_ok fl t c raw now now' t' h :
  Issue fl t c raw now now' = (t', Ok h) ↔
  wf_claims c ∧ now < expiry c ∧ fails fl 0 = false ∧ fails fl 1 = false ∧
  h = hex_encode raw ∧ t !! hashHandle h = None ∧
  t' = <[hashHandle h := issued_row c now']> t.
Proof.
  unfold Issue. rewrite atomically_ok. split.
  - intros ([] & [Hv1 Hv2]%lift_eval_ok%Validate_ok_iff & H)%bind_ok. guards H.
    destruct (t !! _) eqn:?; [done|]. injection H as <- <-. by split_and!.
  - intros (? & ? & E0 & E1 & -> & Hn & ->).
    rewrite (proj2 (Validate_ok_iff c now)) by done. cbn. by rewrite E0, E1, Hn.
Qed.

Lemma issued_row_wf c now now' :
  storable c → Validate c now = Ok () → wf_row (issued_row c now').
Proof.
  intros ([i Hi] & _ & _ & Hr) [Hwf _]%Validate_ok_iff.
  pose proof (coherent_nonneg _ _ _ (wf_budgets _ Hwf)).
  split; cbn; [by left | done | | lia | lia].
  destruct (NewClaims_rebuild c (map coerce (AllowedModels c))) as [c' Hc'];
    eauto using coerce_models_nonblank, coerce_models_nil.
Qed.

(** What a successful [Reserve] does, on a table the store can have. *)
Lemma Reserve_ok fl t h req now now' t' res :
  wf_table t → typed_table t →
  Reserve fl t h req now now' = (t', Ok res) ↔
  String.length h = 64%nat ∧ all_chars is_hex h = true ∧ (∀ k, (k < 4)%nat → fails fl k = false) ∧
  ∃ r models c, t !! hashHandle h = Some r ∧ w_state r = stateActive ∧
    w_allowed_models r = Some models ∧ NewClaims (row_input r models (w_expiry r)) = Ok c ∧
    authorized c (with_reserved req {| Calls := w_reserved_calls r; Tokens := w_reserved_tokens r |}) now ∧
    res = {| Calls := w_reserved_calls r + r_Calls req; Tokens := w_reserved_tokens r + r_Tokens req |} ∧
    t' = <[hashHandle h := set_reserved r (Calls res) (Tokens res) now']> t.
Proof.
  intros Hwf Hty. unfold Reserve. rewrite atomically_ok.
  assert (∀ r models c req, t !! hashHandle h = Some r → NewClaims (row_input r models (w_expiry r)) = Ok c →
    authorized c (with_reserved req {| Calls := w_reserved_calls r; Tokens := w_reserved_tokens r |}) now →
    callBudget c ≤ max_int64 ∧ tokenBudget c ≤ max_int64 ∧
    wrap64 (w_reserved_calls r + r_Calls req) = w_reserved_calls r + r_Calls req ∧
    wrap64 (w_reserved_tokens r + r_Tokens req) = w_reserved_tokens r + r_Tokens req) as Hnum.
  { intros r models c rq Hr (_ & _ & ->)%NewClaims_spec Ha.
    destruct (Hty _ _ Hr) as [[] []]. destruct Ha as [_ _ _ Hn _ Hc Ht]; cbn in *.
    split_and!; try done; apply wrap64_id; unfold int64, min_int64 in *; lia. }
  split.
  - intros (d & (Hl&Hx&->)%digestOf_ok_iff & H)%bind_ok. peel H.
    apply bind_ok in H as (cr & (Hf1&r&models&Hr&Hs&_&Hm&HN&Hres&Hst)%scan_ok_iff & H).
    apply bind_ok in H as ([] & HA%lift_eval_ok & H). peel H.  injection H as <- <-.
    destruct (Hwf _ _ Hr) as [_ Hw].
    assert (w_state r = stateActive) as Ha by (destruct (wr_state _ Hw); done).
    destruct (Hty _ _ Hr) as [[] []]. apply Authorize_sound in HA.
    2,3: apply NewClaims_spec in HN as (_&_&->); done.
    rewrite Hres in *. destruct (Hnum _ _ _ _ Hr HN HA) as (_&_&E1&E2). cbn in *. rewrite E1, E2.
    split; [done|]. split; [done|]. split.
    { intros k Hk. destruct k as [|[|[|[|k]]]]; [done..|lia]. }
    exists r, models, (cr_claims cr). split_and!; try done.
    rewrite (alter_alt_Some _ _ _ _ Hr). by rewrite Ha, String.eqb_refl.
  - intros (?&?&Hf&r&models&c&Hr&Ha&Hm&HN&HA&->&->).
    destruct (Hnum _ _ _ _ Hr HN HA) as (Hc1&Hc2&E1&E2).
    rewrite (proj2 (digestOf_ok_iff h _)) by done. cbn. rewrite !Hf by lia.
    set (cr := {| cr_claims := c; cr_reservation := {| Calls := w_reserved_calls r; Tokens := w_reserved_tokens r |};
                  cr_state := w_state r |}).
    rewrite (proj2 (scan_ok_iff fl 1 t _ cr)); cbn.
    2: { split; [by apply Hf; lia|]. exists r, models. rewrite Ha. destruct (Hwf _ _ Hr) as [_ []]. split_and!; done. }
    rewrite Authorize_complete by done. cbn. rewrite E1, E2. do 2 f_equal.
    rewrite (alter_alt_Some _ _ _ _ Hr). by rewrite Ha, String.eqb_refl.
Qed.

Definition inv (t : table) : Prop := wf_table t ∧ typed_table t.

Lemma inv_insert t d r :
  inv t → String.length d = 64%nat → wf_row r → int64 (w_call_budget r) ∧ int64 (w_token_budget r) →
  inv (<[d := r]> t).
Proof. intros [? ?] ???. split; by apply map_Forall_insert_2. Qed.

Lemma set_state_wf r now : wf_row r → wf_row (set_state r stateRevoked now).
Proof. intros [? ? (m & c & ? & ?) ? ?]. split; cbn; eauto. Qed.

Lemma set_reserved_wf r calls tokens now :
  wf_row r → 0 ≤ calls ≤ w_call_budget r → 0 ≤ tokens ≤ w_token_budget r →
  wf_row (set_reserved r calls tokens now).
Proof. intros [? ? (m & c & ? & ?) ? ?] ??. split; cbn; eauto. Qed.

Lemma authorized_bounds r models c req now :
  NewClaims (row_input r models (w_expiry r)) = Ok c →
  authorized c (with_reserved req {| Calls := w_reserved_calls r; Tokens := w_reserved_tokens r |}) now →
  0 ≤ r_Calls req ∧ 0 ≤ r_Tokens req ∧ 0 ≤ w_reserved_calls r ∧ 0 ≤ w_reserved_tokens r ∧
  w_reserved_calls r + r_Calls req ≤ w_call_budget r ∧
  w_reserved_tokens r + r_Tokens req ≤ w_token_budget r.
Proof. intros (_ & _ & ->)%NewClaims_spec [_ _ _ ? _ ? ?]. cbn in *. lia. Qed.

Hypothesis sha256_length : ∀ s, String.length (sha256_hex s) = 64%nat.

Lemma Issue_inv fl t c raw now now' :
  inv t → storable c → inv (Issue fl t c raw now now').1.
Proof.
  intros Ht Hc. destruct (Issue fl t c raw now now') as [t' [h|e]] eqn:E.
  - apply Issue_ok in E as (Hwf & Hlive & _ & _ & _ & _ & ->).
    apply inv_insert; [done | apply sha256_length | | by destruct Hc as (_ & ? & ? & _)].
    apply (issued_row_wf c now); [done|]. by apply Validate_ok_iff.
  - by apply atomically_err in E as [-> _].
Qed.

Lemma Reserve_inv fl t h req now now' : inv t → inv (Reserve fl t h req now now').1.
Proof.
  intros Ht. destruct (Reserve fl t h req now now') as [t' [res|e]] eqn:E.
  - apply Reserve_ok in E as (_ & _ & _ & r & models & c & Hr & _ & _ & HN & HA & -> & ->);
      [|by destruct Ht..].
    pose proof (authorized_bounds _ _ _ _ _ HN HA). destruct Ht as [Hw Hty].
    destruct (Hw _ _ Hr) as [Hd Hwr]. apply inv_insert; [done | done | | exact (Hty _ _ Hr)].
    apply set_reserved_wf; cbn; [done | lia | lia].
  - by apply atomically_err in E as [-> _].
Qed.

Lemma alter_is_insert {A} (f : A → A) (d : string) (m : gmap string A) r : m !! d = Some r → alter f d m = <[d := f r]> m.
Proof.
  intros Hr. apply map_eq. intros k. destruct (decide (d = k)) as [<-|Hne].
  - by rewrite lookup_alter_eq, lookup_insert_eq, Hr.
  - by rewrite lookup_alter_ne, lookup_insert_ne.
Qed.

Lemma alter_id_none {A} (f : A → A) (d : string) (m : gmap string A) : m !! d = None → alter f d m = m.
Proof.
  intros Hr. apply map_eq. intros k. destruct (decide (d = k)) as [<-|Hne].
  - by rewrite lookup_alter_eq, Hr.
  - by rewrite lookup_alter_ne.
Qed.

Lemma Revoke_ok fl t h now t' :
  Revoke fl t h now = (t', Ok ()) ↔
  ∃ d r, digestOf h = Ok d ∧ fails fl 0 = false ∧ fails fl 1 = false ∧ t !! d = Some r ∧
    t' = <[d := set_state r stateRevoked now]> t.
Proof.
  assert (∀ d r, t !! d = Some r → alter (λ r, set_state r stateRevoked now) d t = <[d := set_state r stateRevoked now]> t) as Ha.
  { intros d r. apply (alter_is_insert (λ r, set_state r stateRevoked now)). }
  unfold Revoke. split.
  - destruct (digestOf h) as [d|]; [|done]. destruct (fails fl 0) eqn:Ef; [done|]. cbv zeta. destruct (fails fl 1) eqn:Ef1; [done|].
    case_bool_decide as Hb; [|done]. destruct Hb as [r Hr]. intros [= <-]. exists d, r. split_and!; auto.
  - intros (d & r & -> & -> & -> & Hr & ->). cbv zeta. rewrite Hr, bool_decide_eq_true_2 by done. f_equal. auto.
Qed.

(** What becomes of the table, whatever is answered. *)
Lemma Revoke_effect fl t h now :
  (Revoke fl t h now).1 = t ∨ ∃ d r, t !! d = Some r ∧ (Revoke fl t h now).1 = <[d := set_state r stateRevoked now]> t.
Proof.
  unfold Revoke. destruct (digestOf h) as [d|]; [|by left]. destruct (fails fl 0); [by left|]. cbv zeta.
  assert ((if fails fl 1 then (alter (λ r, set_state r stateRevoked now) d t, Err (ErrStorage "read revoke result"))
           else (alter (λ r, set_state r stateRevoked now) d t,
                 if bool_decide (is_Some (t !! d)) then Ok () else Err ErrHandleNotFound)).1
          = alter (λ r, set_state r stateRevoked now) d t) as -> by by destruct (fails fl 1).
  destruct (t !! d) as [r|] eqn:Hr.
  - right. exists d, r. split; [done|]. by apply (alter_is_insert (λ r, set_state r stateRevoked now)).
  - left. by apply alter_id_none.
Qed.

Lemma Revoke_inv fl t h now : inv t → inv (Revoke fl t h now).1.
Proof.
  intros Ht. destruct (Revoke_effect fl t h now) as [->|(d & r & Hr & ->)]; [done|].
  destruct Ht as [Hw Hty]. destruct (Hw _ _ Hr) as [Hd Hwr].
  apply inv_insert; [done | done | by apply set_state_wf | exact (Hty _ _ Hr)].
Qed.

Lemma run_call_inv t c : inv t → call_ok c → inv (run_call t c).
Proof. destruct c; cbn; intros; auto using Issue_inv, Reserve_inv, Revoke_inv. Qed.

Lemma run_inv t cs : inv t → Forall call_ok cs → inv (run t cs).
Proof.
  intros Ht Hcs. revert t Ht. induction Hcs as [|c cs Hc _ IH]; intros t Ht; [done|].
  apply IH, run_call_inv; done.
Qed.

(** One call changes a row only by a grant, or by revoking it. *)
Lemma run_call_row t c d r :
  inv t → t !! d = Some r →
  ∃ r', run_call t c !! d = Some r' ∧
    w_call_budget r' = w_call_budget r ∧ w_token_budget r' = w_token_budget r ∧
    w_reserved_calls r' = w_reserved_calls r + (granted d t c).1 ∧
    w_reserved_tokens r' = w_reserved_tokens r + (granted d t c).2 ∧
    (w_state r = stateRevoked → w_state r' = stateRevoked).
Proof.
  intros [Hw Hty] Hr. destruct c as [fl c raw now now'|fl h req now now'|fl h now]; cbn.
  - exists r. destruct (Issue fl t c raw now now') as [t' [h|e]] eqn:E; cbn.
    + apply Issue_ok in E as (_ & _ & _ & _ & _ & Hn & ->).
      rewrite lookup_insert_ne by congruence. split_and!; auto; lia.
    + apply atomically_err in E as [-> _]. split_and!; auto; lia.
  - destruct (Reserve fl t h req now now') as [t' [res|e]] eqn:E; cbn.
    + apply Reserve_ok in E as (_ & _ & _ & r0 & models & c & Hr0 & Ha & _ & HN & HA & -> & ->);
        [|done..]. destruct (String.eqb_spec (hashHandle h) d) as [<-|Hne]; cbn.
      * rewrite lookup_insert_eq. simplify_eq. eexists; split; [done|]. cbn. by split_and!.
      * exists r. rewrite lookup_insert_ne by done. split_and!; auto; lia.
    + apply atomically_err in E as [-> _]. exists r. split_and!; auto; lia.
  - destruct (Revoke_effect fl t h now) as [->|(d' & r0 & Hr0 & ->)]; [exists r; split_and!; auto; lia|].
    destruct (decide (d' = d)) as [->|Hne].
    + rewrite lookup_insert_eq. simplify_eq. eexists; split; [done|]. cbn. split_and!; auto; lia.
    + exists r. rewrite lookup_insert_ne by done. split_and!; auto; lia.
Qed.

Lemma run_row cs t d r :
  inv t → Forall call_ok cs → t !! d = Some r →
  ∃ r', run t cs !! d = Some r' ∧
    w_call_budget r' = w_call_budget r ∧ w_token_budget r' = w_token_budget r ∧
    w_reserved_calls r' = w_reserved_calls r + (total_granted d t cs).1 ∧
    w_reserved_tokens r' = w_reserved_tokens r + (total_granted d t cs).2 ∧
    (w_state r = stateRevoked → w_state r' = stateRevoked).
Proof.
  intros Ht Hcs. revert t r Ht. induction Hcs as [|c cs Hc _ IH]; intros t r Ht Hr.
  { exists r. cbn. split_and!; auto; lia. }
  destruct (run_call_row t c d r Ht Hr) as (r1 & Hr1 & ?&?&?&?&?).
  destruct (IH (run_call t c) r1) as (r2 & Hr2 & ?&?&?&?&?); [by apply run_call_inv|done|].
  exists r2. change (run t (c :: cs)) with (run (run_call t c) cs). cbn [total_granted].
  destruct (granted d t c), (total_granted d (run_call t c) cs); cbn in *.
  split_and!; auto; lia.
Qed.

Lemma hex_encode_shape s :
  String.length (hex_encode s) = (2 * String.length s)%nat ∧ all_chars is_hex (hex_encode s) = true.
Proof.
  induction s as [|c s [IHl IHh]]; [done|]. cbn [hex_encode String.length]. split; [lia|].
  unfold all_chars, chars in *. cbn [String.list_ascii_of_string forallb]. rewrite IHh, !andb_true_r.
  assert (∀ n, (n < 16)%nat → is_hex (hex_digit n) = true) as H.
  { intros n Hn. do 16 (destruct n as [|n]; [reflexivity|]). lia. }
  assert (code c < 256)%nat by (apply nat_ascii_bounded).
  rewrite !H; [done | apply Nat.mod_upper_bound; lia | apply Nat.Div0.div_lt_upper_bound; lia].
Qed.

Lemma ValidateRow_ok_iff d r :
  ValidateRow d r = Ok () ↔ String.length d = 64%nat ∧ wf_row r.
Proof.
  unfold ValidateRow. split.
  - intros H. peel H. apply bind_ok in H as (x & Hx & H). unfold parseStoreTime in Hx.
    case_decide; [|done]. injection Hx as <-.
    apply bind_ok in H as (models & Hm & H). unfold decodeAllowedModels in Hm.
    destruct (w_allowed_models r) as [l|] eqn:El; [|done]. injection Hm as ->.
    apply bind_ok in H as (c & Hc & H). destruct (NewClaims _) as [c'|] eqn:HN; [|done].
    peel H. bool_hyps.
    repeat match goal with Hn : negb _ = false |- _ => apply negb_false_iff in Hn end.
    split; [by apply Nat.eqb_eq|]. split; [|done|by eexists _, _|lia|lia].
    match goal with Hs : negb _ && negb _ = false |- _ =>
      apply andb_false_iff in Hs as [Hs|Hs]; apply negb_false_iff, String.eqb_eq in Hs; auto
    end.
  - intros (-> & [Hs Hr (models & c & Hm & HN) Hc Ht]). cbn.
    unfold parseStoreTime. rewrite decide_True, Hm by done. cbn. rewrite HN. cbn.
    rewrite !(proj2 (Z.ltb_ge _ _)) by lia. by destruct Hs as [-> | ->].
Qed.

Lemma ValidateRows_ok_iff rows :
  ValidateRows rows = Ok () ↔ ∀ d r, (d, r) ∈ rows → ValidateRow d r = Ok ().
Proof.
  induction rows as [|[d r] rows IH]; cbn.
  { split; [intros _ ?? H; by apply elem_of_nil in H | done]. }
  destruct (ValidateRow d r) as [[]|e] eqn:E; cbn.
  - rewrite IH. split; [intros H d' r' [[= -> ->]|?]%elem_of_cons; auto | intros H d' r' ?; apply H; by right].
  - split; [done|]. intros H. rewrite H in E; [done | by left].
Qed.

End Store.
(** A stand-in digest for the concrete instances below. *)
Definition sample_sha (s : string) : string := stake 64 (s +:+ pad 64 0).

Lemma sample_sha_length s : String.length (sample_sha s) = 64%nat.
Proof.
  assert (∀ n s, String.length (stake n s) = Nat.min n (String.length s)) as H.
  { clear. induction n as [|n IH]; intros [|c s]; cbn; auto. }
  unfold sample_sha. rewrite H, length_sapp, length_pad. lia.
Qed.

(** ** Properties *)

Section Properties.
Variable sha256_hex : string → string.
Hypothesis sha256_length : ∀ s, String.length (sha256_hex s) = 64%nat.
Implicit Types (t : table) (cs : list call).

(** C2: no history of Issue, Reserve and Revoke calls, with any faults, makes a
    run's recorded usage differ from the sum of the reservations it was
    granted, or lets that sum exceed the call and token budgets, which never
    change. *)
Theorem reservations_within_budget t cs d r
    (Ht : wf_table t) (Hty : typed_table t) (Hcs : Forall call_ok cs) (Hr : t !! d = Some r) :
  let '(calls, tokens) := total_granted sha256_hex d t cs in
  ∃ r', run sha256_hex t cs !! d = Some r' ∧
    w_call_budget r' = w_call_budget r ∧ w_token_budget r' = w_token_budget r ∧
    w_reserved_calls r' = w_reserved_calls r + calls ∧
    w_reserved_tokens r' = w_reserved_tokens r + tokens ∧
    w_reserved_calls r + calls ≤ w_call_budget r ∧
    w_reserved_tokens r + tokens ≤ w_token_budget r.
Proof.
  destruct (run_row _ sha256_length cs t d r) as (r' & Hr' & Hc & Htk & E1 & E2 & _); [by split|done..|].
  destruct (run_inv _ sha256_length t cs) as [Hw _]; [by split | done |].
  destruct (Hw _ _ Hr') as [_ Hwr]. destruct (wr_calls _ Hwr), (wr_tokens _ Hwr).
  destruct (total_granted _ _ _ _); cbn in *. exists r'. split_and!; try done; lia.
Qed.

(** [Reserve] returns a reservation exactly when the handle is well formed
    and names an active row whose rebuilt claims authorize the request on top
    of the durable totals; it then adds the increments, without wrap-around,
    to that row alone. *)
Theorem Reserve_ok_iff fl t h req now now' t' res (Hwf : wf_table t) (Hty : typed_table t) :
  Reserve sha256_hex fl t h req now now' = (t', Ok res) ↔
  String.length h = 64%nat ∧ all_chars is_hex h = true ∧ (∀ k, (k < 4)%nat → fails fl k = false) ∧
  ∃ r models c, t !! hashHandle sha256_hex h = Some r ∧ w_state r = stateActive ∧
    w_allowed_models r = Some models ∧ NewClaims (row_input r models (w_expiry r)) = Ok c ∧
    authorized c (with_reserved req
      {| Calls := w_reserved_calls r; Tokens := w_reserved_tokens r |}) now ∧
    res = {| Calls := w_reserved_calls r + r_Calls req;
             Tokens := w_reserved_tokens r + r_Tokens req |} ∧
    t' = <[hashHandle sha256_hex h := set_reserved r (Calls res) (Tokens res) now']> t.
Proof. by apply Reserve_ok. Qed.

(** Revocation is final.  Once [Revoke] has succeeded, whatever is called
    afterwards, the handle neither verifies nor reserves. *)
Theorem Revoke_final fl t h now t' cs fl' req now1 now2
    (Ht : wf_table t) (Hty : typed_table t) (Hcs : Forall call_ok cs)
    (Hrev : Revoke sha256_hex fl t h now = (t', Ok ())) :
  is_ok (Verify sha256_hex fl' (run sha256_hex t' cs) h now1) = false ∧
  is_ok (Reserve sha256_hex fl' (run sha256_hex t' cs) h req now1 now2).2 = false.
Proof.
  pose proof (Revoke_inv sha256_hex fl t h now (conj Ht Hty)) as Hinv. rewrite Hrev in Hinv.
  apply Revoke_ok in Hrev as (d & r & Hd & _ & _ & Hr & ->).
  destruct (run_row _ sha256_length cs (<[d := set_state r stateRevoked now]> t) d (set_state r stateRevoked now))
    as (r' & Hr' & _ & _ & _ & _ & Hs); [done | done | apply lookup_insert_eq |].
  specialize (Hs eq_refl).
  assert (∀ k, is_ok (scanCapabilityTx fl' k (run sha256_hex (<[d := set_state r stateRevoked now]> t) cs) d) = false) as Hscan.
  { intros k. unfold scanCapabilityTx. destruct (fails fl' k); [done|]. by rewrite Hr', Hs. }
  unfold Verify, lookup, Reserve. rewrite Hd. cbn. split.
  - destruct (fails fl' 0); [done|]. specialize (Hscan 1%nat). by destruct (scanCapabilityTx _ _ _ _).
  - destruct (fails fl' 0); [done|]. specialize (Hscan 1%nat). by destruct (scanCapabilityTx _ _ _ _).
Qed.

(** The handle [Issue] returns verifies until the claims expire, and gives
    back the very claims it was issued for with nothing reserved. *)
Theorem Issue_Verify fl t c raw now now' t' h later
    (Hc : storable c) (Hraw : String.length raw = handleBytes)
    (Hutf : ∀ m, m ∈ allowedModels c → valid_utf8 m = true)
    (Hissue : Issue sha256_hex fl t c raw now now' = (t', Ok h)) (Hlater : later < expiry c) :
  Verify sha256_hex None t' h later = Ok (c, {| Calls := 0; Tokens := 0 |}).
Proof.
  apply Issue_ok in Hissue as (Hwf & _ & _ & _ & -> & _ & ->).
  destruct (hex_encode_shape raw) as [Hl Hh]. rewrite Hraw in Hl.
  unfold Verify, lookup. rewrite (proj2 (digestOf_ok_iff sha256_hex _ _)) by done. cbn.
  rewrite (proj2 (scan_ok_iff None 1 _ _ {| cr_claims := c; cr_reservation := {| Calls := 0; Tokens := 0 |};
    cr_state := stateActive |})); rewrite ?fails_none; cbn.
  { by rewrite (proj2 (Validate_ok_iff c later)). }
  split; [done|]. exists (issued_row c now'), (map coerce (AllowedModels c)).
  rewrite lookup_insert_eq. destruct Hc as ([i Hi] & _ & _ & Hr). split_and!; try done.
  apply NewClaims_spec. pose proof (coerce_models_nonblank _ _ Hi) as Hb.
  assert (map coerce (AllowedModels c) = AllowedModels c) as E.
  { rewrite <-(map_id (AllowedModels c)) at 2. apply map_ext_in. intros m Hm%list_elem_of_In.
    apply coerce_valid, Hutf. by apply elem_of_AllowedModels. }
  split; [done|]. split; [done|]. unfold row_input. cbn. rewrite E, AllowedModels_set. by destruct c.
Qed.

(** Every store the API can produce, from an empty database, through any
    history and any faults, passes the offline integrity check. *)
Theorem ValidateStore_reachable cs (Hcs : Forall call_ok cs) :
  ValidateStore storeSchemaVersion (run sha256_hex ∅ cs) = Ok ().
Proof.
  unfold ValidateStore. rewrite Z.eqb_refl. cbn [negb]. apply ValidateRows_ok_iff.
  intros d r Hin%elem_of_map_to_list. apply ValidateRow_ok_iff.
  destruct (run_inv _ sha256_length ∅ cs) as [Hw _]; [split; apply map_Forall_empty | done |].
  exact (Hw _ _ Hin).
Qed.

End Properties.

(** ** Concrete instances *)

Definition stored_claims : Claims :=
  {| agentType := "curator"; mode := "launch"; runID := "run-1"; workItemID := "wi-1";
     allowedModels := {[ "gpt" ]}; callBudget := 3; tokenBudget := 100;
     expiry := 2000 * second |}.

Definition raw32 : string := pad 32 7.
Definition the_handle : string := hex_encode raw32.
Definition one_call : Request :=
  {| r_AgentType := "curator"; r_Mode := "launch"; r_RunID := "run-1"; r_WorkItemID := "wi-1";
     r_Model := "gpt"; r_Calls := 1; r_Tokens := 40; r_ReservedCalls := 0; r_ReservedTokens := 0 |}.

Definition issue_call : call := CIssue None stored_claims raw32 0 5.
Definition reserve_call : call := CReserve None the_handle one_call 10 10.
Definition issued : table := run sample_sha ∅ [issue_call].
Definition the_row : row := issued_row stored_claims 5.

Lemma stored_claims_ok : storable stored_claims.
Proof.
  split; [|unfold int64, min_int64, max_int64, rfc3339_range, second; cbn; unfold second; lia].
  exists {| in_AgentType := "curator"; in_Mode := "launch"; in_RunID := "run-1"; in_WorkItemID := "wi-1";
     in_AllowedModels := ["gpt"]; in_CallBudget := 3; in_TokenBudget := 100;
     in_Expiry := 2000 * second |}. vm_compute. reflexivity.
Qed.

Lemma issued_inv : inv issued.
Proof.
  apply run_inv; [apply sample_sha_length | split; apply map_Forall_empty |].
  constructor; [apply stored_claims_ok | constructor].
Qed.

Lemma issued_row_found : issued !! sample_sha the_handle = Some the_row.
Proof. vm_compute. reflexivity. Qed.

Lemma reservations_within_budget_witness :
  total_granted sample_sha (sample_sha the_handle) issued
    [reserve_call; reserve_call; reserve_call] = (2, 80) ∧
  let '(calls, tokens) := total_granted sample_sha (sample_sha the_handle) issued
                            [reserve_call; reserve_call; reserve_call] in
  ∃ r', run sample_sha issued [reserve_call; reserve_call; reserve_call] !! sample_sha the_handle = Some r' ∧
    w_call_budget r' = w_call_budget the_row ∧ w_token_budget r' = w_token_budget the_row ∧
    w_reserved_calls r' = w_reserved_calls the_row + calls ∧
    w_reserved_tokens r' = w_reserved_tokens the_row + tokens ∧
    w_reserved_calls the_row + calls ≤ w_call_budget the_row ∧
    w_reserved_tokens the_row + tokens ≤ w_token_budget the_row.
Proof.
  split; [vm_compute; reflexivity|].
  apply (reservations_within_budget sample_sha sample_sha_length issued
    [reserve_call; reserve_call; reserve_call] (sample_sha the_handle) the_row);
    [apply issued_inv | apply issued_inv | repeat constructor | apply issued_row_found].
Defined.

Lemma Reserve_ok_iff_witness :
  let t' := (Reserve sample_sha None issued the_handle one_call 10 20).1 in
  (Reserve sample_sha None issued the_handle one_call 10 20).2 = Ok {| Calls := 1; Tokens := 40 |} ∧
  ∃ r models c, issued !! hashHandle sample_sha the_handle = Some r ∧ w_state r = stateActive ∧
    w_allowed_models r = Some models ∧ NewClaims (row_input r models (w_expiry r)) = Ok c ∧
    authorized c (with_reserved one_call
      {| Calls := w_reserved_calls r; Tokens := w_reserved_tokens r |}) 10 ∧
    {| Calls := 1; Tokens := 40 |} =
      {| Calls := w_reserved_calls r + r_Calls one_call;
         Tokens := w_reserved_tokens r + r_Tokens one_call |} ∧
    t' = <[hashHandle sample_sha the_handle := set_reserved r 1 40 20]> issued.
Proof.
  split; [vm_compute; reflexivity|].
  pose proof (run_pair (Reserve sample_sha None issued the_handle one_call 10 20)
    (Ok {| Calls := 1; Tokens := 40 |}) ltac:(vm_compute; reflexivity)) as E.
  apply (Reserve_ok_iff sample_sha None issued the_handle one_call 10 20 _ _
           (proj1 issued_inv) (proj2 issued_inv)) in E.
  destruct E as (_ & _ & _ & E). exact E.
Defined.

Lemma Revoke_final_witness :
  let t' := (Revoke sample_sha None issued the_handle 30).1 in
  (Verify sample_sha None issued the_handle 40 =
     Ok (stored_claims, {| Calls := 0; Tokens := 0 |})) ∧
  is_ok (Verify sample_sha None (run sample_sha t' [reserve_call]) the_handle 40) = false ∧
  is_ok (Reserve sample_sha None (run sample_sha t' [reserve_call]) the_handle one_call 40 41).2 = false.
Proof.
  split; [vm_compute; reflexivity|].
  apply (Revoke_final sample_sha sample_sha_length None issued the_handle 30);
    [apply issued_inv | apply issued_inv | repeat constructor | apply run_pair; vm_compute; reflexivity].
Defined.

Lemma Issue_Verify_witness :
  Verify sample_sha None issued the_handle 40 = Ok (stored_claims, {| Calls := 0; Tokens := 0 |}).
Proof.
  apply (Issue_Verify sample_sha None ∅ stored_claims raw32 0 5 issued the_handle 40);
    [apply stored_claims_ok | reflexivity | | apply (run_pair (Issue sample_sha None ∅ stored_claims raw32 0 5)); vm_compute; reflexivity | reflexivity].
  cbn. intros m Hm%elem_of_singleton. subst m. reflexivity.
Defined.

Lemma ValidateStore_reachable_witness :
  ValidateStore storeSchemaVersion (run sample_sha ∅ [issue_call; reserve_call]) = Ok ().
Proof.
  apply (ValidateStore_reachable sample_sha sample_sha_length).
  constructor; [apply stored_claims_ok | repeat constructor].
Defined.

(** The comment on [digestOf] promises lower-case hex; upper case is accepted. *)
Lemma digestOf_accepts_uppercase :
  let h := hex_encode raw32 in
  let upper := "ABCDEF" +:+ sdrop 6 h in
  all_chars is_lower_hex upper = false ∧ digestOf sample_sha upper = Ok (sample_sha upper).
Proof. split; vm_compute; reflexivity. Qed.
