(* ===== verification/Correlation.v ===== *)
(** * internal/correlation: run-to-PR correlations and their outbox

    Two tables in one database: [pr_correlations] and [outbox_events], each a
    list in ascending id order, with the AUTOINCREMENT counters.  [Record_]
    (the code's Record) writes both rows in one transaction; a consumer claims,
    acknowledges or releases events.  A timestamp column keeps the instant its
    text denotes; where SQL compares the text, the model compares [formatTime].
    A payload keeps its length and what it decodes to. *)

From S2P Require Import Prelude GoStrings GoTime GoJson.
Open Scope string_scope.
Open Scope list_scope.
Open Scope Z_scope.

(** ** Data *)

Definition schemaVersion : Z := 1.
Definition OutboxEventVersion := "run-pr-correlation/v2".
Definition maxPayloadBytes : Z := 8 * 1024.
Definition statusPending := "pending".
Definition statusClaimed := "claimed".
Definition statusAcked := "acked".

Inductive corr_error :=
| ErrNotFound
| ErrClaimMismatch
| ErrPayloadBounds
| ErrRequired (what : string)
| ErrTimestamp
| ErrStorage (context : string)
| ErrIntegrity (what : string).

Record Identity := {
  AgentType : string; Mode : string; RunID : string; WorkItemID : string; OperationID : string }.

Definition valid (id : Identity) : bool :=
  negb (AgentType id =? "")%string && negb (Mode id =? "")%string
  && negb (RunID id =? "")%string && negb (WorkItemID id =? "")%string
  && negb (OperationID id =? "")%string.

Record Correlation := {
  c_ID : Z; c_AgentType : string; c_Mode : string; c_RunID : string; c_WorkItemID : string;
  c_OperationID : string; c_Repo : string; c_PRNumber : Z; c_CreatedAt : time }.

Record eventPayload := {
  p_Version : string; p_AgentType : string; p_Mode : string; p_RunID : string;
  p_WorkItemID : string; p_OperationID : string; p_Repo : string; p_PRNumber : Z;
  p_RecordedAt : string }.

(** The payload column: its length and what json.Unmarshal gives. *)
Record payload := { pl_len : Z; pl_decoded : option eventPayload }.

(** A row of outbox_events; OutboxEvent is the row without correlation_id. *)
Record event := {
  e_ID : Z; e_correlation_id : Z; e_Version : string; e_Status : string;
  e_Payload : payload; e_ClaimToken : string; e_ClaimedAt : option time;
  e_Attempts : Z; e_CreatedAt : time; e_UpdatedAt : time }.

Record store := {
  corrs : list Correlation; events : list event; corr_seq : Z; event_seq : Z }.

Definition empty_store : store :=
  {| corrs := []; events := []; corr_seq := 0; event_seq := 0 |}.

Definition set_events (s : store) (es : list event) : store :=
  {| corrs := corrs s; events := es; corr_seq := corr_seq s; event_seq := event_seq s |}.

(** [UPDATE outbox_events SET ... WHERE id = ?] *)
Definition update_event (id : Z) (f : event → event) (s : store) : store :=
  set_events s (map (λ e, if e_ID e =? id then f e else e) (events s)).

Definition set_claim (e : event) (status token : string) (at_ : option time)
    (attempts : Z) (now : time) : event :=
  {| e_ID := e_ID e; e_correlation_id := e_correlation_id e; e_Version := e_Version e;
     e_Status := status; e_Payload := e_Payload e; e_ClaimToken := token;
     e_ClaimedAt := at_; e_Attempts := attempts; e_CreatedAt := e_CreatedAt e;
     e_UpdatedAt := now |}.

(** ** Reading rows *)

Definition parseTime (t : time) : result corr_error time :=
  if decide (rfc3339_range t) then Ok t else Err ErrTimestamp.

Definition scanCorrelation (row : option Correlation) : result corr_error Correlation :=
  match row with
  | None => Err ErrNotFound
  | Some c => _ ← parseTime (c_CreatedAt c); Ok c
  end.

Definition correlationByOperation (fl : fault) (k : nat) (s : store) (operationID : string)
    : result corr_error Correlation :=
  fail_if fails fl k with ErrStorage "scan correlation" ;;
  scanCorrelation (List.find (λ c, c_OperationID c =? operationID)%string (corrs s)).

Definition GetByPR (fl : fault) (s : store) (repo : string) (prNumber : Z)
    : result corr_error Correlation :=
  fail_if fails fl 0 with ErrStorage "scan correlation" ;;
  scanCorrelation
    (List.find (λ c, (c_Repo c =? repo)%string && (c_PRNumber c =? prNumber)) (corrs s)).

Definition GetByOperation (fl : fault) (s : store) (operationID : string)
    : result corr_error Correlation := correlationByOperation fl 0 s operationID.

Definition outboxByID (fl : fault) (k : nat) (s : store) (id : Z) : result corr_error event :=
  fail_if fails fl k with ErrStorage "scan outbox event" ;;
  match List.find (λ e, e_ID e =? id) (events s) with
  | None => Err ErrNotFound
  | Some e =>
    _ ← match e_ClaimedAt e with Some t => parseTime t | None => Ok 0 end;
    _ ← parseTime (e_CreatedAt e);
    _ ← parseTime (e_UpdatedAt e);
    Ok e
  end.

(** ** Record *)

(** json.Marshal of an eventPayload *)
Definition marshal (p : eventPayload) : string :=
  json_object [("version", json_string (p_Version p)); ("agent_type", json_string (p_AgentType p));
    ("mode", json_string (p_Mode p)); ("run_id", json_string (p_RunID p));
    ("work_item_id", json_string (p_WorkItemID p));
    ("operation_id", json_string (p_OperationID p)); ("repo", json_string (p_Repo p));
    ("pr_number", json_int (p_PRNumber p)); ("recorded_at", json_string (p_RecordedAt p))].

(** What the text [marshal p] decodes to. *)
Definition unmarshalled (p : eventPayload) : eventPayload :=
  {| p_Version := coerce (p_Version p); p_AgentType := coerce (p_AgentType p);
     p_Mode := coerce (p_Mode p); p_RunID := coerce (p_RunID p);
     p_WorkItemID := coerce (p_WorkItemID p); p_OperationID := coerce (p_OperationID p);
     p_Repo := coerce (p_Repo p); p_PRNumber := p_PRNumber p;
     p_RecordedAt := coerce (p_RecordedAt p) |}.

Definition buildPayload (id : Identity) (repo : string) (prNumber : Z) (now : time)
    : result corr_error payload :=
  let p := {| p_Version := OutboxEventVersion; p_AgentType := AgentType id; p_Mode := Mode id;
              p_RunID := RunID id; p_WorkItemID := WorkItemID id;
              p_OperationID := OperationID id; p_Repo := repo; p_PRNumber := prNumber;
              p_RecordedAt := formatTime now |} in
  let len := Z.of_nat (String.length (marshal p)) in
  fail_if maxPayloadBytes <? len with ErrPayloadBounds ;;
  Ok {| pl_len := len; pl_decoded := Some (unmarshalled p) |}.

(** The UNIQUE constraints and the AUTOINCREMENT counter of an INSERT. *)
Definition insert_correlation (s : store) (c : Correlation) : result corr_error store :=
  fail_if existsb (λ c', ((c_Repo c' =? c_Repo c)%string && (c_PRNumber c' =? c_PRNumber c))
                         || (c_OperationID c' =? c_OperationID c)%string) (corrs s)
    with ErrStorage "insert correlation" ;;
  fail_if max_int64 <=? corr_seq s with ErrStorage "insert correlation" ;;
  Ok {| corrs := corrs s ++ [c]; events := events s; corr_seq := c_ID c;
        event_seq := event_seq s |}.

Definition insert_event (s : store) (e : event) : result corr_error store :=
  fail_if existsb (λ e', e_correlation_id e' =? e_correlation_id e) (events s)
    with ErrStorage "insert outbox event" ;;
  fail_if max_int64 <=? event_seq s with ErrStorage "insert outbox event" ;;
  Ok {| corrs := corrs s; events := events s ++ [e]; corr_seq := corr_seq s;
        event_seq := e_ID e |}.

Definition new_correlation (s : store) (id : Identity) (repo : string) (prNumber : Z) (now : time)
    : Correlation :=
  {| c_ID := corr_seq s + 1; c_AgentType := AgentType id; c_Mode := Mode id;
     c_RunID := RunID id; c_WorkItemID := WorkItemID id; c_OperationID := OperationID id;
     c_Repo := repo; c_PRNumber := prNumber; c_CreatedAt := now |}.

Definition new_event (s : store) (correlationID : Z) (p : payload) (now : time) : event :=
  {| e_ID := event_seq s + 1; e_correlation_id := correlationID; e_Version := OutboxEventVersion;
     e_Status := statusPending; e_Payload := p; e_ClaimToken := ""; e_ClaimedAt := None;
     e_Attempts := 0; e_CreatedAt := now; e_UpdatedAt := now |}.

Definition Record_ (fl : fault) (s : store) (id : Identity) (repo : string) (prNumber : Z)
    (now : time) : store * result corr_error Correlation :=
  atomically s (
    fail_if negb (valid id) with ErrRequired "broker-authenticated capability" ;;
    fail_if (repo =? "")%string || (prNumber <=? 0) with ErrRequired "repo and PR number" ;;
    fail_if fails fl 0 with ErrStorage "begin correlation record" ;;
    match correlationByOperation fl 1 s (OperationID id) with
    | Ok existing => Ok (s, existing)
    | Err ErrNotFound =>
      let c := new_correlation s id repo prNumber now in
      fail_if fails fl 2 with ErrStorage "insert correlation" ;;
      s1 ← insert_correlation s c;
      p ← buildPayload id repo prNumber now;
      fail_if fails fl 3 with ErrStorage "insert outbox event" ;;
      s2 ← insert_event s1 (new_event s1 (c_ID c) p now);
      fail_if fails fl 4 with ErrStorage "commit correlation record" ;;
      Ok (s2, c)
    | Err e => Err e
    end).

(** ** The consumer's operations *)

Definition claimable (expiry : time) (e : event) : bool :=
  (e_Status e =? statusPending)%string
  || ((e_Status e =? statusClaimed)%string
      && match e_ClaimedAt e with
         | None => true
         | Some t => text_le (formatTime t) (formatTime expiry)
         end).

Fixpoint claim_each (fl : fault) (k : nat) (s : store) (claimToken : string) (now : time)
    (ids : list Z) : result corr_error (store * list event) :=
  match ids with
  | [] => fail_if fails fl k with ErrStorage "commit outbox claim" ;; Ok (s, [])
  | id :: ids =>
    fail_if fails fl k with ErrStorage "claim outbox event" ;;
    let s := update_event id (λ e, set_claim e statusClaimed claimToken (Some now)
                                     (e_Attempts e + 1) now) s in
    ev ← outboxByID fl (S k) s id;
    rest ← claim_each fl (S (S k)) s claimToken now ids;
    Ok (rest.1, ev :: rest.2)
  end.

Definition ClaimPending (fl : fault) (s : store) (claimToken : string) (limit : Z) (claimTTL : Z)
    (now : time) : store * result corr_error (list event) :=
  atomically s (
    fail_if (claimToken =? "")%string with ErrRequired "claim token" ;;
    let limit := if limit <=? 0 then 1 else limit in
    let expiry := time_add now (wrap64 (- claimTTL)) in
    fail_if fails fl 0 with ErrStorage "begin outbox claim" ;;
    fail_if fails fl 1 with ErrStorage "select claimable outbox events" ;;
    let candidateIDs := take (Z.to_nat limit) (map e_ID (filter (claimable expiry) (events s))) in
    claim_each fl 2 s claimToken now candidateIDs).

Definition held (e : event) (claimToken : string) : bool :=
  (e_Status e =? statusClaimed)%string && (e_ClaimToken e =? claimToken)%string.

Definition ack_event (now : time) (e : event) : event :=
  set_claim e statusAcked (e_ClaimToken e) (e_ClaimedAt e) (e_Attempts e) now.
Definition release_event (now : time) (e : event) : event :=
  set_claim e statusPending "" None (e_Attempts e) now.

Definition Ack (fl : fault) (s : store) (eventID : Z) (claimToken : string) (now : time)
    : store * result corr_error unit :=
  atomically s (
    fail_if fails fl 0 with ErrStorage "begin outbox ack" ;;
    ev ← outboxByID fl 1 s eventID;
    fail_if negb (held ev claimToken) with ErrClaimMismatch ;;
    fail_if fails fl 2 with ErrStorage "ack outbox event" ;;
    fail_if fails fl 3 with ErrStorage "commit outbox ack" ;;
    Ok (update_event eventID (ack_event now) s, ())).

Definition Reclaim (fl : fault) (s : store) (eventID : Z) (claimToken : string) (now : time)
    : store * result corr_error unit :=
  atomically s (
    fail_if (claimToken =? "")%string with ErrRequired "claim token" ;;
    fail_if fails fl 0 with ErrStorage "begin outbox reclaim" ;;
    ev ← outboxByID fl 1 s eventID;
    fail_if negb (held ev claimToken) with ErrClaimMismatch ;;
    fail_if fails fl 2 with ErrStorage "reclaim outbox event" ;;
    fail_if fails fl 3 with ErrStorage "commit outbox reclaim" ;;
    Ok (update_event eventID (release_event now) s, ())).

Definition PendingCount (fl : fault) (s : store) : result corr_error Z :=
  fail_if fails fl 0 with ErrStorage "count pending outbox events" ;;
  Ok (Z.of_nat (length (filter (λ e, negb (e_Status e =? statusAcked)%string) (events s)))).

(** ** The offline validator *)

Definition payload_agrees (p : eventPayload) (c : Correlation) : bool :=
  (p_Repo p =? c_Repo c)%string && (p_PRNumber p =? c_PRNumber c)
  && (p_OperationID p =? c_OperationID c)%string && (p_AgentType p =? c_AgentType c)%string
  && (p_Mode p =? c_Mode c)%string && (p_RunID p =? c_RunID c)%string
  && (p_WorkItemID p =? c_WorkItemID c)%string.

Definition validate_pair (c : Correlation) (e : event) : result corr_error unit :=
  fail_if negb (e_Version e =? OutboxEventVersion)%string with ErrIntegrity "event version" ;;
  fail_if (c_AgentType c =? "")%string || (c_Mode c =? "")%string || (c_RunID c =? "")%string
          || (c_WorkItemID c =? "")%string || (c_OperationID c =? "")%string
    with ErrIntegrity "missing capability field" ;;
  fail_if maxPayloadBytes <? pl_len (e_Payload e) with ErrPayloadBounds ;;
  match pl_decoded (e_Payload e) with
  | None => Err (ErrIntegrity "decode payload")
  | Some p =>
    fail_if negb (payload_agrees p c) with ErrIntegrity "payload disagrees" ;;
    fail_if negb (p_Version p =? OutboxEventVersion)%string with ErrIntegrity "payload version" ;;
    Ok ()
  end.

Fixpoint validate_pairs (l : list (Correlation * event)) : result corr_error unit :=
  match l with
  | [] => Ok ()
  | (c, e) :: l => _ ← validate_pair c e; validate_pairs l
  end.

(** [outbox_events e JOIN pr_correlations c ON c.id = e.correlation_id] *)
Definition join_events (s : store) : list (Correlation * event) :=
  flat_map (λ e, map (λ c, (c, e)) (filter (λ c, c_ID c =? e_correlation_id e) (corrs s)))
    (events s).

Definition Validate (version : Z) (s : store) : result corr_error unit :=
  fail_if negb (version =? schemaVersion) with ErrIntegrity "schema version" ;;
  fail_if existsb (λ e, negb (existsb (λ c, c_ID c =? e_correlation_id e) (corrs s))) (events s)
    with ErrIntegrity "orphan events" ;;
  fail_if existsb (λ c, negb (existsb (λ e, e_correlation_id e =? c_ID c) (events s))) (corrs s)
    with ErrIntegrity "correlation without event" ;;
  validate_pairs (join_events s).

(** ** Histories *)

Inductive call :=
| KRecord (fl : fault) (id : Identity) (repo : string) (prNumber : Z) (now : time)
| KClaim (fl : fault) (claimToken : string) (limit claimTTL : Z) (now : time)
| KAck (fl : fault) (eventID : Z) (claimToken : string) (now : time)
| KReclaim (fl : fault) (eventID : Z) (claimToken : string) (now : time).

Definition run_call (s : store) (c : call) : store :=
  match c with
  | KRecord fl id repo prNumber now => (Record_ fl s id repo prNumber now).1
  | KClaim fl claimToken limit claimTTL now => (ClaimPending fl s claimToken limit claimTTL now).1
  | KAck fl eventID claimToken now => (Ack fl s eventID claimToken now).1
  | KReclaim fl eventID claimToken now => (Reclaim fl s eventID claimToken now).1
  end.

Definition run (s : store) (cs : list call) : store := fold_left run_call cs s.

(** ** Specification *)

Definition utf8_identity (id : Identity) : Prop :=
  valid_utf8 (AgentType id) = true ∧ valid_utf8 (Mode id) = true ∧ valid_utf8 (RunID id) = true ∧
  valid_utf8 (WorkItemID id) = true ∧ valid_utf8 (OperationID id) = true.

(** The clock is in the years a timestamp text can denote, and what was decoded
    from a request or a response is UTF-8 text. *)
Definition call_ok (c : call) : Prop :=
  match c with
  | KRecord _ id repo _ now => rfc3339_range now ∧ utf8_identity id ∧ valid_utf8 repo = true
  | KClaim _ _ _ _ now | KAck _ _ _ now | KReclaim _ _ _ now => rfc3339_range now
  end.

(** A correlation and its event. *)
Definition linked (c : Correlation) (e : event) : Prop :=
  e_correlation_id e = c_ID c ∧ validate_pair c e = Ok ().

Record wf_event (e : event) : Prop := {
  we_status : e_Status e = statusPending ∨ e_Status e = statusClaimed ∨ e_Status e = statusAcked;
  we_created : rfc3339_range (e_CreatedAt e);
  we_updated : rfc3339_range (e_UpdatedAt e);
  we_claimed : ∀ t, e_ClaimedAt e = Some t → rfc3339_range t;
  we_holder : e_Status e = statusClaimed → e_ClaimToken e ≠ "" ∧ is_Some (e_ClaimedAt e) }.

Record wf (s : store) : Prop := {
  wf_linked : Forall2 linked (corrs s) (events s);
  wf_corr_ids : NoDup (map c_ID (corrs s)) ∧ Forall (λ c, c_ID c ≤ corr_seq s) (corrs s);
  wf_event_ids : NoDup (map e_ID (events s)) ∧ Forall (λ e, e_ID e ≤ event_seq s) (events s);
  wf_operations : NoDup (map c_OperationID (corrs s));
  wf_events : Forall wf_event (events s);
  wf_corrs : Forall (λ c, rfc3339_range (c_CreatedAt c)) (corrs s) }.

(** ** Lemmas: lookups and updates *)

Definition stamp_claim (token : string) (now : time) (e : event) : event :=
  set_claim e statusClaimed token (Some now) (e_Attempts e + 1) now.

Lemma map_update_ids f id es :
  (∀ e, e_ID (f e) = e_ID e) → map e_ID (map (λ e, if e_ID e =? id then f e else e) es) = map e_ID es.
Proof.
  intros Hf. rewrite map_map. apply map_ext. intros e. by destruct (e_ID e =? id).
Qed.

Lemma outboxByID_ok fl k s id e :
  outboxByID fl k s id = Ok e → List.find (λ e, e_ID e =? id) (events s) = Some e.
Proof.
  unfold outboxByID. intros H. peel H. destruct (List.find _ _) as [e'|]; [|done].
  apply bind_ok in H as (? & _ & H). apply bind_ok in H as (? & _ & H).
  apply bind_ok in H as (? & _ & H). congruence.
Qed.

Lemma outboxByID_find fl k s id e :
  fails fl k = false → List.find (λ e, e_ID e =? id) (events s) = Some e → wf_event e →
  outboxByID fl k s id = Ok e.
Proof.
  intros Hf He [_ Hc Hu Ht _]. unfold outboxByID, parseTime. rewrite Hf, He.
  rewrite !decide_True by done.
  destruct (e_ClaimedAt e) as [t|] eqn:E; cbn; [|done]. by rewrite decide_True by auto.
Qed.

(** A fault-free claim of the events [l] stamps exactly those; a faulty one
    commits nothing. *)
Lemma claim_each_spec fl k s token now l :
  NoDup (map e_ID (events s)) → NoDup (map e_ID l) → (∀ e, e ∈ l → e ∈ events s) →
  ∀ s' evs, claim_each fl k s token now (map e_ID l) = Ok (s', evs) →
  evs = map (stamp_claim token now) l ∧
  s' = set_events s (map (λ e, if bool_decide (e_ID e ∈ map e_ID l) then stamp_claim token now e else e)
                       (events s)).
Proof.
  revert k s. induction l as [|e l IH]; intros k s Hn Hnl Hin s' evs; cbn [claim_each map].
  { intros H. peel H. injection H as <- <-. split; [done|]. destruct s; unfold set_events; cbn. f_equal.
    symmetry. rewrite <-(map_id events0) at 2. apply map_ext. intros e. by rewrite bool_decide_false by (by intros ?%elem_of_nil). }
  apply NoDup_cons in Hnl as [Hel Hnl].
  intros H. peel H. apply bind_ok in H as (ev & Hev%outboxByID_ok & H).
  apply bind_ok in H as ([s1 evs1] & Hrest & H). injection H as <- <-. cbn [fst snd].
  set (s0 := update_event _ _ _) in *.
  assert (stamp_claim token now e ∈ events s0) as He0.
  { apply list_elem_of_fmap. exists e. rewrite Z.eqb_refl. split; [done|]. apply Hin. by left. }
  assert (map e_ID (events s0) = map e_ID (events s)) as Hids by (by apply map_update_ids).
  change (e_ID e) with (e_ID (stamp_claim token now e)) in Hev.
  rewrite find_id in Hev; [|by rewrite Hids | done]. injection Hev as <-.
  apply IH in Hrest as [-> ->]; [|by rewrite Hids | done |].
  - split; [done|]. unfold s0, update_event, set_events; cbn. f_equal. rewrite map_map. apply map_ext.
    intros x. destruct (Z.eqb_spec (e_ID x) (e_ID e)) as [E|E]; cbn.
    + rewrite E, (bool_decide_false (e_ID e ∈ map e_ID l)) by done.
      by rewrite bool_decide_true by (by left).
    + apply if_bool_ext. rewrite elem_of_cons. tauto.
  - intros x Hx. apply list_elem_of_fmap. exists x. split; [|apply Hin; by right].
    destruct (Z.eqb_spec (e_ID x) (e_ID e)) as [E|E]; [|done].
    destruct Hel. rewrite <-E. by apply list_elem_of_fmap_2.
Qed.

(** ** Lemmas: what a successful operation does *)

Lemma claimed_ids_nodup s expiry n :
  NoDup (map e_ID (events s)) → NoDup (map e_ID (take n (filter (claimable expiry) (events s)))).
Proof.
  intros Hn. apply (sublist_NoDup _ _ Hn), (fmap_sublist e_ID).
  etrans; [apply sublist_take | apply sublist_filter].
Qed.

Definition claim_limit (limit : Z) : nat := Z.to_nat (if limit <=? 0 then 1 else limit).

Definition claimed_events (s : store) (limit claimTTL : Z) (now : time) : list event :=
  take (claim_limit limit) (filter (claimable (time_add now (wrap64 (- claimTTL)))) (events s)).

Lemma claimed_events_in s limit ttl now e :
  e ∈ claimed_events s limit ttl now → e ∈ events s ∧ claimable (time_add now (wrap64 (- ttl))) e = true.
Proof.
  unfold claimed_events. intros He%elem_of_take. destruct He as (i & He & _).
  apply list_elem_of_lookup_2, list_elem_of_filter in He as [Hc ?]. split; [done|]. by apply Is_true_true in Hc.
Qed.

Definition stamp_all (s : store) (l : list event) (token : string) (now : time) : store :=
  set_events s (map (λ e, if bool_decide (e_ID e ∈ map e_ID l) then stamp_claim token now e else e)
                  (events s)).

Lemma ClaimPending_ok fl s token limit ttl now s' evs :
  wf s → ClaimPending fl s token limit ttl now = (s', Ok evs) →
  let l := claimed_events s limit ttl now in
  token ≠ "" ∧ evs = map (stamp_claim token now) l ∧ s' = stamp_all s l token now.
Proof.
  intros Hwf H. unfold ClaimPending in H. apply atomically_ok in H. peel H. bool_hyps.
  split; [done|]. rewrite firstn_map in H. destruct (wf_event_ids _ Hwf) as [Hn _].
  eapply claim_each_spec; [done| | |exact H].
  - by apply claimed_ids_nodup.
  - intros e He. by apply claimed_events_in in He as [? _].
Qed.

Lemma held_spec e token : held e token = true ↔ e_Status e = statusClaimed ∧ e_ClaimToken e = token.
Proof. unfold held. by rewrite andb_true_iff, !String.eqb_eq. Qed.

Lemma Ack_ok fl s id token now s' :
  Ack fl s id token now = (s', Ok ()) →
  ∃ e, List.find (λ e, e_ID e =? id) (events s) = Some e ∧ held e token = true ∧
    s' = update_event id (ack_event now) s.
Proof.
  intros H. unfold Ack in H. apply atomically_ok in H. peel H.
  apply bind_ok in H as (e & He%outboxByID_ok & H). peel H. bool_hyps. injection H as <-. eauto.
Qed.

Lemma Reclaim_ok fl s id token now s' :
  Reclaim fl s id token now = (s', Ok ()) →
  ∃ e, List.find (λ e, e_ID e =? id) (events s) = Some e ∧ held e token = true ∧
    s' = update_event id (release_event now) s.
Proof.
  intros H. unfold Reclaim in H. apply atomically_ok in H. peel H.
  apply bind_ok in H as (e & He%outboxByID_ok & H). peel H. bool_hyps. injection H as <-. eauto.
Qed.

Definition recorded (s : store) (c : Correlation) (p : payload) (now : time) : store :=
  {| corrs := corrs s ++ [c]; events := events s ++ [new_event s (c_ID c) p now];
     corr_seq := c_ID c; event_seq := event_seq s + 1 |}.

Definition find_operation (s : store) (op : string) : option Correlation :=
  List.find (λ c, c_OperationID c =? op)%string (corrs s).

Lemma scanCorrelation_cases row :
  scanCorrelation row = match row with
    | None => Err ErrNotFound
    | Some c => if decide (rfc3339_range (c_CreatedAt c)) then Ok c else Err ErrTimestamp
    end.
Proof. destruct row as [c|]; [|done]. cbn. unfold parseTime. by case_decide. Qed.

Lemma Record_ok fl s id repo pr now s' c :
  Record_ fl s id repo pr now = (s', Ok c) →
  valid id = true ∧ repo ≠ "" ∧ 0 < pr ∧
  ((find_operation s (OperationID id) = Some c ∧ s' = s) ∨
   (find_operation s (OperationID id) = None ∧ c = new_correlation s id repo pr now ∧
    ∃ p, buildPayload id repo pr now = Ok p ∧ s' = recorded s c p now)).
Proof.
  intros H. unfold Record_ in H. apply atomically_ok in H. peel H. bool_hyps.
  unfold correlationByOperation in H. destruct (fails fl 1); [done|].
  rewrite scanCorrelation_cases in H. fold (find_operation s (OperationID id)) in H.
  split; [done|]. split; [done|]. split; [done|].
  destruct (find_operation s (OperationID id)) as [c'|] eqn:Ef.
  - case_decide; [|done]. injection H as <- <-. by left.
  - right. peel H. apply bind_ok in H as (s1 & Hi & H). unfold insert_correlation in Hi. peel Hi.
    injection Hi as <-. apply bind_ok in H as (p & Hp & H). peel H.
    apply bind_ok in H as (s2 & Hj & H). unfold insert_event in Hj. peel Hj. injection Hj as <-.
    peel H. injection H as <- <-. split; [done|]. split; [done|]. by exists p.
Qed.

(** ** Lemmas: the invariant *)

(** What no operation changes in an event; an acknowledged one is final. *)
Record kept (e e' : event) : Prop := {
  k_id : e_ID e' = e_ID e;
  k_corr : e_correlation_id e' = e_correlation_id e;
  k_version : e_Version e' = e_Version e;
  k_payload : e_Payload e' = e_Payload e;
  k_created : e_CreatedAt e' = e_CreatedAt e;
  k_attempts : e_Attempts e ≤ e_Attempts e';
  k_acked : e_Status e = statusAcked → e' = e }.

Lemma kept_refl e : kept e e.
Proof. by split. Qed.

Lemma linked_kept c e e' : linked c e → kept e e' → linked c e'.
Proof. intros [Hc Hv] [_ E1 E2 E3 _ _ _]. split; [congruence|]. unfold validate_pair in *. by rewrite E2, E3. Qed.

Lemma wf_update s g :
  wf s → (∀ e, e ∈ events s → kept e (g e) ∧ wf_event (g e)) → wf (set_events s (map g (events s))).
Proof.
  intros [H1 H2 [H3 H3'] H4 H5 H6] Hg.
  assert (map e_ID (map g (events s)) = map e_ID (events s)) as Hids.
  { rewrite map_map. apply map_ext_in. intros e He%list_elem_of_In. by destruct (Hg e He) as [[] _]. }
  split; cbn; try done.
  - clear -H1 Hg. induction H1 as [|c e cs es Hl _ IH]; cbn; [constructor|].
    constructor; [eapply linked_kept; [done|]; apply Hg; by left | apply IH; intros; apply Hg; by right].
  - rewrite Hids. split; [done|]. rewrite Forall_fmap in *. apply Forall_forall.
    intros e He. cbn. rewrite Forall_forall in H3'. destruct (Hg e He) as [[E _ _ _ _ _ _] _].
    rewrite E. by apply H3'.
  - apply Forall_forall. intros e' (e & -> & He)%list_elem_of_fmap. by apply Hg.
Qed.

Lemma stamp_claim_wf token now e :
  wf_event e → rfc3339_range now → token ≠ "" → wf_event (stamp_claim token now e).
Proof.
  intros [] ??. split; cbn; auto. by intros t [= <-].
Qed.

Lemma stamp_claim_kept token now e : e_Status e ≠ statusAcked → kept e (stamp_claim token now e).
Proof. intros. split; cbn; try done. lia. Qed.

Lemma claimable_not_acked expiry e : claimable expiry e = true → e_Status e ≠ statusAcked.
Proof. unfold claimable. intros H E. by rewrite E in H. Qed.

Lemma wf_events_in s e : wf s → e ∈ events s → wf_event e.
Proof. intros [_ _ _ _ H _]. rewrite Forall_forall in H. apply H. Qed.

Lemma same_id s e e' : wf s → e ∈ events s → e' ∈ events s → e_ID e = e_ID e' → e = e'.
Proof. intros Hwf. apply same_key, Hwf. Qed.

Lemma claimed_id s limit ttl now e :
  wf s → e ∈ events s → e_ID e ∈ map e_ID (claimed_events s limit ttl now) →
  e ∈ claimed_events s limit ttl now.
Proof.
  intros Hwf He (e' & E & He')%list_elem_of_fmap.
  destruct (claimed_events_in _ _ _ _ _ He') as [Hin _]. by rewrite (same_id s e e').
Qed.

Lemma claimed_update s limit ttl now token e :
  wf s → rfc3339_range now → token ≠ "" → e ∈ events s →
  let l := claimed_events s limit ttl now in
  let e' := if bool_decide (e_ID e ∈ map e_ID l) then stamp_claim token now e else e in
  kept e e' ∧ wf_event e'.
Proof.
  intros Hwf Hnow Htok He. cbn zeta. pose proof (wf_events_in _ _ Hwf He).
  case_bool_decide as Hin; [|by split; [apply kept_refl|]].
  apply claimed_id in Hin; [|done..]. apply claimed_events_in in Hin as [_ Hc%claimable_not_acked].
  split; [by apply stamp_claim_kept | by apply stamp_claim_wf].
Qed.

(** The update an Ack or a Reclaim makes to the event it names. *)
Definition released (e : event) (e' : event) (now : time) : Prop :=
  e' = ack_event now e ∨ e' = release_event now e.

Lemma released_update e e' now :
  wf_event e → rfc3339_range now → e_Status e = statusClaimed → released e e' now →
  kept e e' ∧ wf_event e'.
Proof.
  intros [Hs Hcr Hu Hc Hh] Hnow Hst [-> | ->]; (split; split; cbn; auto; try done; try lia).
  all: intros E; rewrite Hst in E; discriminate.
Qed.

Lemma update_event_step s id g now e token :
  wf s → rfc3339_range now → List.find (λ e, e_ID e =? id) (events s) = Some e →
  held e token = true → (∀ e, released e (g e) now) →
  ∀ x, x ∈ events s → let x' := if e_ID x =? id then g x else x in kept x x' ∧ wf_event x'.
Proof.
  intros Hwf Hnow [He Hid]%find_some_in [Hst _]%held_spec Hg x Hx. cbn zeta.
  pose proof (wf_events_in _ _ Hwf Hx). apply Z.eqb_eq in Hid.
  destruct (Z.eqb_spec (e_ID x) id) as [E|E]; [|by split; [apply kept_refl|]].
  rewrite (same_id s x e) by (done || congruence). apply (released_update _ _ now); [|done..].
  by eapply wf_events_in.
Qed.

Lemma coerce_fields id repo pr now p c s :
  valid id = true → utf8_identity id → valid_utf8 repo = true →
  c = new_correlation s id repo pr now → buildPayload id repo pr now = Ok p →
  linked c (new_event s (c_ID c) p now).
Proof.
  unfold valid, utf8_identity. intros Hv (U1&U2&U3&U4&U5) U6 -> Hp. split; [done|].
  unfold buildPayload in Hp. cbv zeta in Hp.
  revert Hp. generalize (Z.of_nat (String.length (marshal {| p_Version := OutboxEventVersion;
    p_AgentType := AgentType id; p_Mode := Mode id; p_RunID := RunID id; p_WorkItemID := WorkItemID id;
    p_OperationID := OperationID id; p_Repo := repo; p_PRNumber := pr;
    p_RecordedAt := formatTime now |}))). intros n Hp.
  destruct (maxPayloadBytes <? n) eqn:E; [discriminate|]. injection Hp as <-.
  unfold validate_pair, payload_agrees. bool_hyps.
  cbn [c_AgentType c_Mode c_RunID c_WorkItemID c_OperationID c_Repo c_PRNumber new_correlation
       e_Version e_Payload new_event pl_len pl_decoded].
  rewrite (String.eqb_refl OutboxEventVersion), (proj2 (Z.ltb_ge _ _) E).
  rewrite !(proj2 (String.eqb_neq _ "")) by assumption.
  cbn [negb orb unmarshalled p_Repo p_PRNumber p_OperationID p_AgentType p_Mode p_RunID p_WorkItemID p_Version].
  rewrite !coerce_valid by done. by rewrite !String.eqb_refl, Z.eqb_refl.
Qed.

Lemma recorded_wf s id repo pr now c p :
  wf s → rfc3339_range now → find_operation s (OperationID id) = None →
  c = new_correlation s id repo pr now → linked c (new_event s (c_ID c) p now) →
  wf (recorded s c p now).
Proof.
  intros [H1 [H2 H2'] [H3 H3'] H4 H5 H6] Hnow Hf Hc Hl.
  assert (c_ID c = corr_seq s + 1) as Hid by (by subst).
  split; cbn [corrs events corr_seq event_seq recorded].
  - apply Forall2_app; [done|]. by constructor.
  - rewrite map_app, Hid. split.
    + apply NoDup_app. split; [done|]. split; [|apply NoDup_singleton].
      intros i (c' & -> & Hin)%list_elem_of_fmap ?%list_elem_of_singleton.
      rewrite Forall_forall in H2'. specialize (H2' _ Hin). lia.
    + apply Forall_app. split; [|constructor; [lia|constructor]].
      eapply Forall_impl; [exact H2'|]. cbn. intros; lia.
  - rewrite map_app. split.
    + apply NoDup_app. split; [done|]. split; [|apply NoDup_singleton].
      intros i (e' & -> & Hin)%list_elem_of_fmap E%list_elem_of_singleton. cbn in E.
      rewrite Forall_forall in H3'. specialize (H3' _ Hin). lia.
    + apply Forall_app. split; [|constructor; [cbn; lia|constructor]].
      eapply Forall_impl; [exact H3'|]. cbn. intros; lia.
  - rewrite map_app. apply NoDup_app. split; [done|]. split; [|apply NoDup_singleton].
    intros op (c' & -> & Hin)%list_elem_of_fmap E%list_elem_of_singleton.
    apply (find_none_all _ _ _ Hf) in Hin. apply String.eqb_neq in Hin. subst c. by apply Hin.
  - apply Forall_app. split; [done|]. constructor; [|constructor].
    split; cbn; auto; [intros; done | by intros].
  - apply Forall_app. split; [done|]. constructor; [by subst | constructor].
Qed.

(** A call appends, and changes old events only as [kept] allows. *)
Definition extends (s s' : store) : Prop :=
  (∃ cs, corrs s' = corrs s ++ cs) ∧
  ∃ es extra, events s' = es ++ extra ∧ Forall2 kept (events s) es.

Lemma extends_refl s : extends s s.
Proof.
  split; [exists []; by rewrite app_nil_r|]. exists (events s), []. rewrite app_nil_r. split; [done|].
  apply Forall_Forall2_diag, Forall_forall. intros. apply kept_refl.
Qed.

Lemma extends_update s g :
  (∀ e, e ∈ events s → kept e (g e)) → extends s (set_events s (map g (events s))).
Proof.
  intros Hg. split; [exists []; by rewrite app_nil_r|]. exists (map g (events s)), [].
  rewrite app_nil_r. split; [done|]. apply Forall2_fmap_r, Forall_Forall2_diag, Forall_forall. auto.
Qed.

Lemma run_call_step s c : wf s → call_ok c → wf (run_call s c) ∧ extends s (run_call s c).
Proof.
  intros Hwf Hc. destruct c as [fl id repo pr now|fl token limit ttl now|fl id token now|fl id token now]; cbn.
  - destruct Hc as (Hnow & Hu & Hr). destruct (Record_ fl s id repo pr now) as [s' [c|e]] eqn:E; cbn.
    2: { apply atomically_err in E as [-> _]. split; [done | apply extends_refl]. }
    apply Record_ok in E as (Hv & _ & _ & [[_ ->]|(Hf & Hc & p & Hp & ->)]).
    { split; [done | apply extends_refl]. }
    split; [eapply recorded_wf; try done; by eapply coerce_fields|].
    split; [by eexists|]. eexists _, _. split; [reflexivity|].
    apply Forall_Forall2_diag, Forall_forall. intros. apply kept_refl.
  - destruct (ClaimPending fl s token limit ttl now) as [s' [evs|e]] eqn:E; cbn.
    2: { apply atomically_err in E as [-> _]. split; [done | apply extends_refl]. }
    apply ClaimPending_ok in E as (Htok & _ & ->); [|done]. split.
    + apply wf_update; [done|]. intros. by apply claimed_update.
    + apply extends_update. intros. by apply claimed_update.
  - destruct (Ack fl s id token now) as [s' [[]|e]] eqn:E; cbn.
    2: { apply atomically_err in E as [-> _]. split; [done | apply extends_refl]. }
    apply Ack_ok in E as (e & He & Hh & ->).
    split; [apply wf_update; [done|] | apply extends_update]; intros x Hx;
      by apply (update_event_step s id (ack_event now) now e token); [..|left|].
  - destruct (Reclaim fl s id token now) as [s' [[]|e]] eqn:E; cbn.
    2: { apply atomically_err in E as [-> _]. split; [done | apply extends_refl]. }
    apply Reclaim_ok in E as (e & He & Hh & ->).
    split; [apply wf_update; [done|] | apply extends_update]; intros x Hx;
      by apply (update_event_step s id (release_event now) now e token); [..|right|].
Qed.

Lemma empty_wf : wf empty_store.
Proof. split; cbn; repeat constructor. Qed.

Lemma run_wf s cs : wf s → Forall call_ok cs → wf (run s cs).
Proof.
  intros Hs Hcs. revert s Hs. induction Hcs as [|c cs Hc _ IH]; intros s Hs; [done|].
  apply IH. by apply run_call_step.
Qed.

(** ** Lemmas: histories *)

Lemma extends_acked s s' e : extends s s' → e ∈ events s → e_Status e = statusAcked → e ∈ events s'.
Proof.
  intros [_ (es & extra & -> & H)] He Ha. apply elem_of_app. left.
  apply list_elem_of_lookup in He as [i Hi]. destruct (Forall2_lookup_l _ _ _ _ _ H Hi) as (e' & Hi' & Hk).
  rewrite (k_acked _ _ Hk Ha) in Hi'. by eapply list_elem_of_lookup_2.
Qed.

Lemma run_acked s cs e :
  wf s → Forall call_ok cs → e ∈ events s → e_Status e = statusAcked → e ∈ events (run s cs).
Proof.
  intros Hs Hcs He Ha. revert s Hs He. induction Hcs as [|c cs Hc _ IH]; intros s Hs He; [done|].
  destruct (run_call_step s c Hs Hc) as [Hs' Hx]. apply IH; [done|]. by eapply extends_acked.
Qed.

Lemma run_find s cs op c :
  wf s → Forall call_ok cs → find_operation s op = Some c → find_operation (run s cs) op = Some c.
Proof.
  intros Hs Hcs Hf. revert s Hs Hf. induction Hcs as [|k cs Hc _ IH]; intros s Hs Hf; [done|].
  destruct (run_call_step s k Hs Hc) as [Hs' [[ext Hx] _]]. apply IH; [done|].
  unfold find_operation in *. rewrite Hx. by apply find_app_l.
Qed.

Lemma linked_corr s e : wf s → e ∈ events s → ∃ c, c ∈ corrs s ∧ linked c e.
Proof.
  intros [H _ _ _ _ _] He. apply list_elem_of_lookup in He as [i Hi].
  destruct (Forall2_lookup_r _ _ _ _ _ H Hi) as (c & Hi' & Hl). exists c.
  split; [by eapply list_elem_of_lookup_2 | done].
Qed.

Lemma linked_event s c : wf s → c ∈ corrs s → ∃ e, e ∈ events s ∧ linked c e.
Proof.
  intros [H _ _ _ _ _] He. apply list_elem_of_lookup in He as [i Hi].
  destruct (Forall2_lookup_l _ _ _ _ _ H Hi) as (e & Hi' & Hl). exists e.
  split; [by eapply list_elem_of_lookup_2 | done].
Qed.

Lemma same_corr s c c' : wf s → c ∈ corrs s → c' ∈ corrs s → c_ID c = c_ID c' → c = c'.
Proof. intros Hwf. apply same_key, Hwf. Qed.

Lemma corr_event_ids s : wf s → map e_correlation_id (events s) = map c_ID (corrs s).
Proof. intros [H _ _ _ _ _]. induction H as [|c e cs es [E _] _ IH]; cbn; congruence. Qed.

Lemma one_event s e e' :
  wf s → e ∈ events s → e' ∈ events s → e_correlation_id e = e_correlation_id e' → e = e'.
Proof.
  intros Hwf He He' E. destruct (wf_corr_ids _ Hwf) as [Hn _]. rewrite <-corr_event_ids in Hn by done.
  pose proof (find_id e_correlation_id _ _ Hn He) as F.
  rewrite E, (find_id e_correlation_id _ _ Hn He') in F. congruence.
Qed.

Lemma validate_pairs_ok l : (∀ c e, (c, e) ∈ l → validate_pair c e = Ok ()) → validate_pairs l = Ok ().
Proof.
  induction l as [|[c e] l IH]; cbn; intros H; [done|]. rewrite H by (by left). cbn.
  apply IH. intros. apply H. by right.
Qed.

Lemma wf_Validate s : wf s → Validate schemaVersion s = Ok ().
Proof.
  intros Hwf. unfold Validate. rewrite Z.eqb_refl. cbn [negb].
  rewrite existsb_false, existsb_false.
  - apply validate_pairs_ok. unfold join_events. intros c e Hin%list_elem_of_In.
    apply in_flat_map in Hin as (e' & He'%list_elem_of_In & Hin%list_elem_of_In).
    apply list_elem_of_fmap in Hin as (c' & [= <- <-] & Hc).
    apply list_elem_of_filter in Hc as [E%Is_true_true Hc]. apply Z.eqb_eq in E.
    destruct (linked_corr s e Hwf He') as (c' & Hc' & Hl & Hv). rewrite (same_corr s c c' Hwf Hc Hc'); [done|]. by rewrite E, Hl.
  - intros c Hc. apply negb_false_iff, existsb_elem_of.
    destruct (linked_event s c Hwf Hc) as (e & He & E & _). exists e. split; [done|]. by apply Z.eqb_eq.
  - intros e He. apply negb_false_iff, existsb_elem_of.
    destruct (linked_corr s e Hwf He) as (c & Hc & E & _). exists c. split; [done|]. by apply Z.eqb_eq.
Qed.

(** Without faults, and with a clock the texts can denote, a claim succeeds. *)
Lemma claim_each_complete s k token now l :
  wf s → rfc3339_range now → token ≠ "" → (∀ e, e ∈ l → e ∈ events s ∧ e_Status e ≠ statusAcked) →
  NoDup (map e_ID l) →
  ∃ p, claim_each None k s token now (map e_ID l) = Ok p.
Proof.
  revert k s. induction l as [|e l IH]; intros k s Hwf Hnow Htok Hl Hn; cbn [map claim_each]; [by eexists|].
  apply NoDup_cons in Hn as [He Hn]. destruct (Hl e) as [Hin Hst]; [by left|].
  rewrite fails_none.
  set (g := λ x, if e_ID x =? e_ID e then stamp_claim token now x else x).
  assert (wf (set_events s (map g (events s)))) as Hwf'.
  { apply wf_update; [done|]. intros x Hx. pose proof (wf_events_in _ _ Hwf Hx). unfold g.
    destruct (Z.eqb_spec (e_ID x) (e_ID e)) as [E|E]; [|by split; [apply kept_refl|]].
    assert (x = e) as -> by (by apply (same_id s)). split; [by apply stamp_claim_kept | by apply stamp_claim_wf]. }
  change (update_event _ _ s) with (set_events s (map g (events s))).
  assert (g e ∈ events (set_events s (map g (events s)))) as Hge by (by apply list_elem_of_fmap_2).
  rewrite (outboxByID_find _ _ _ _ (g e)); [| done | |by eapply wf_events_in].
  2: { replace (e_ID e) with (e_ID (g e)) by (unfold g; by rewrite Z.eqb_refl).
       apply find_id; [apply wf_event_ids, Hwf' | done]. }
  destruct (IH (S (S k)) (set_events s (map g (events s)))) as [p Hp]; try done.
  - intros x Hx. destruct (Hl x) as [Hxs Hxa]; [by right|]. split; [|done].
    apply list_elem_of_fmap. exists x. split; [|done]. unfold g.
    destruct (Z.eqb_spec (e_ID x) (e_ID e)) as [E|E]; [|done].
    destruct He. rewrite <-E. by apply list_elem_of_fmap_2.
  - change (∃ p', (rest ← claim_each None (S (S k)) (set_events s (map g (events s))) token now (map e_ID l);
      Ok (rest.1, g e :: rest.2)) = Ok p').
    rewrite Hp. by eexists.
Qed.

(** [e] is still the claim that [token] made at [at_]. *)
Definition leased (s : store) (id : Z) (token : string) (at_ : time) : Prop :=
  ∃ e, e ∈ events s ∧ e_ID e = id ∧ held e token = true ∧ e_ClaimedAt e = Some at_.

(** Calls that leave a lease made at [at_] alone: claims before it has run out
    by more than the one-second resolution of the text order, and anything but
    the holder's own release of it. *)
Definition undisturbed (id : Z) (token : string) (at_ : time) (c : call) : Prop :=
  match c with
  | KRecord _ _ _ _ _ => True
  | KClaim _ _ _ ttl now =>
    let expiry := time_add now (wrap64 (- ttl)) in
    rfc3339_range expiry ∧ expiry + second ≤ at_
  | KAck _ id' token' _ | KReclaim _ id' token' _ => id' ≠ id ∨ token' ≠ token
  end.

Lemma not_claimable expiry e token at_ :
  held e token = true → e_ClaimedAt e = Some at_ → rfc3339_range at_ → rfc3339_range expiry →
  expiry + second ≤ at_ → claimable expiry e = false.
Proof.
  intros [Hs _]%held_spec Ha Hr Hr' Hlt. unfold claimable. rewrite Hs, Ha. cbn.
  destruct (text_le _ _) eqn:E; [|done]. apply formatTime_le_inv in E; [lia|done..].
Qed.

Lemma update_other s id id' g e :
  e ∈ events s → e_ID e = id → id' ≠ id → e ∈ events (update_event id' g s).
Proof.
  intros He Hid Hne. apply list_elem_of_fmap. exists e. split; [|done].
  by rewrite (proj2 (Z.eqb_neq (e_ID e) id')) by congruence.
Qed.

Lemma leased_step s id token at_ c :
  wf s → rfc3339_range at_ → call_ok c → undisturbed id token at_ c → leased s id token at_ →
  leased (run_call s c) id token at_.
Proof.
  intros Hwf Hat Hc Hu (e & He & Hid & Hh & Ha).
  destruct c as [fl i repo pr now|fl tok limit ttl now|fl id' tok now|fl id' tok now]; cbn.
  - destruct (Record_ fl s i repo pr now) as [s' [c|x]] eqn:E; cbn.
    2: { apply atomically_err in E as [-> _]. by exists e. }
    apply Record_ok in E as (_ & _ & _ & [[_ ->]|(_ & _ & p & _ & ->)]); exists e; [done|].
    split_and!; try done. apply elem_of_app. by left.
  - destruct (ClaimPending fl s tok limit ttl now) as [s' [evs|x]] eqn:E; cbn.
    2: { apply atomically_err in E as [-> _]. by exists e. }
    apply ClaimPending_ok in E as (_ & _ & ->); [|done]. exists e. split_and!; try done.
    apply list_elem_of_fmap. exists e. split; [|done].
    rewrite bool_decide_false; [done|]. intros Hin%claimed_id; [|done..].
    apply claimed_events_in in Hin as [_ Hcl]. destruct Hu.
    by rewrite (not_claimable _ e token at_) in Hcl.
  - destruct (Ack fl s id' tok now) as [s' [[]|x]] eqn:E; cbn.
    2: { apply atomically_err in E as [-> _]. by exists e. }
    apply Ack_ok in E as (e' & Hf & Hh' & ->). apply find_some_in in Hf as [He' Hi%Z.eqb_eq].
    exists e. split_and!; try done. apply (update_other s id); [done..|]. intros ->. destruct Hu as [|Hu]; [done|].
    rewrite (same_id s e' e) in Hh' by (done || congruence).
    apply held_spec in Hh as [_ <-]. apply held_spec in Hh' as [_ <-]. done.
  - destruct (Reclaim fl s id' tok now) as [s' [[]|x]] eqn:E; cbn.
    2: { apply atomically_err in E as [-> _]. by exists e. }
    apply Reclaim_ok in E as (e' & Hf & Hh' & ->). apply find_some_in in Hf as [He' Hi%Z.eqb_eq].
    exists e. split_and!; try done. apply (update_other s id); [done..|]. intros ->. destruct Hu as [|Hu]; [done|].
    rewrite (same_id s e' e) in Hh' by (done || congruence).
    apply held_spec in Hh as [_ <-]. apply held_spec in Hh' as [_ <-]. done.
Qed.

Lemma leased_run s id token at_ cs :
  wf s → rfc3339_range at_ → Forall call_ok cs → Forall (undisturbed id token at_) cs →
  leased s id token at_ → leased (run s cs) id token at_.
Proof.
  intros Hs Hat Hcs. revert s Hs. induction Hcs as [|c cs Hc _ IH]; intros s Hs Hu Hl; [done|].
  apply Forall_cons in Hu as [Hu Hus]. apply IH; [by apply run_call_step | done | by apply leased_step].
Qed.

Lemma leased_Ack s id token at_ now :
  wf s → leased s id token at_ → (Ack None s id token now).2 = Ok ().
Proof.
  intros Hwf (e & He & Hid & Hh & _). unfold Ack. rewrite fails_none.
  rewrite (outboxByID_find _ _ _ _ e); [| done | |by eapply wf_events_in].
  2: { rewrite <-Hid. apply find_id; [apply wf_event_ids, Hwf | done]. }
  cbn. by rewrite Hh.
Qed.

(** ** Properties *)

(** C10: recording is idempotent on the broker operation id.  Once [Record]
    returned a correlation, any later call for that operation, with whatever
    repository and number, changes nothing and returns the same correlation,
    and exactly one outbox event belongs to it. *)
Theorem Record_idempotent fl s id repo pr now s1 c cs id' repo' pr' now'
    (Hs : wf s) (Hc : call_ok (KRecord fl id repo pr now)) (Hcs : Forall call_ok cs)
    (Hrec : Record_ fl s id repo pr now = (s1, Ok c))
    (Hid' : valid id' = true) (Hop : OperationID id' = OperationID id)
    (Hrepo' : repo' ≠ "") (Hpr' : 0 < pr') :
  Record_ None (run s1 cs) id' repo' pr' now' = (run s1 cs, Ok c) ∧
  ∃ e, e ∈ events (run s1 cs) ∧ e_correlation_id e = c_ID c ∧
    ∀ e', e' ∈ events (run s1 cs) → e_correlation_id e' = c_ID c → e' = e.
Proof.
  pose proof (run_call_step _ _ Hs Hc) as [Hs1 _]. cbn in Hs1. rewrite Hrec in Hs1. cbn in Hs1.
  pose proof (run_wf _ _ Hs1 Hcs) as Hwf.
  assert (find_operation s1 (OperationID id) = Some c) as Hf.
  { apply Record_ok in Hrec as (_ & _ & _ & [[Hf ->]|(Hf & -> & p & _ & ->)]); [done|].
    unfold find_operation in *. cbn [corrs recorded]. revert Hf. induction (corrs s) as [|x l IH]; cbn.
    - by rewrite String.eqb_refl.
    - destruct (_ =? _)%string; [done|]. apply IH. }
  apply (run_find _ cs) in Hf; [|done..]. assert (c ∈ corrs (run s1 cs)) as Hin by (exact (proj1 (find_some_in _ _ _ Hf))).
  destruct (linked_event _ _ Hwf Hin) as (e & He & E & _). split.
  - unfold Record_. rewrite Hid', Hop, (proj2 (String.eqb_neq repo' "")), (proj2 (Z.leb_gt _ _)) by done.
    rewrite !fails_none. cbn [negb orb]. unfold correlationByOperation. rewrite fails_none.
    fold (find_operation (run s1 cs) (OperationID id)).
    rewrite scanCorrelation_cases, Hf, decide_True; [done|].
    pose proof (wf_corrs _ Hwf) as Hr. rewrite Forall_forall in Hr. by apply Hr.
  - exists e. split_and!; try done. intros e' He' E'. by apply (one_event (run s1 cs)); [..|congruence].
Qed.

(** Every store the API can produce, through any history and any faults,
    passes the offline integrity check: no orphan event, no correlation without
    its event, every payload bounded and in agreement with its row. *)
Theorem Validate_reachable cs (Hcs : Forall call_ok cs) :
  Validate schemaVersion (run empty_store cs) = Ok ().
Proof. apply wf_Validate, run_wf; [apply empty_wf | done]. Qed.

(** C9: a claim is exclusive for its TTL, up to the one-second resolution of
    the stored timestamps: whatever other consumers do, as long as none of
    them claims with an expiry later than one second before the claim was
    made, the holder can acknowledge what it claimed. *)
Theorem claim_exclusive fl s token limit ttl now s1 evs ev cs later
    (Hs : wf s) (Hnow : rfc3339_range now)
    (Hclaim : ClaimPending fl s token limit ttl now = (s1, Ok evs)) (Hev : ev ∈ evs)
    (Hcs : Forall call_ok cs) (Hu : Forall (undisturbed (e_ID ev) token now) cs) :
  (Ack None (run s1 cs) (e_ID ev) token later).2 = Ok ().
Proof.
  pose proof (run_call_step s (KClaim fl token limit ttl now) Hs Hnow) as [Hs1 _].
  cbn in Hs1. rewrite Hclaim in Hs1. cbn in Hs1.
  apply (leased_Ack _ _ _ now); [by apply run_wf|]. apply leased_run; try done.
  apply ClaimPending_ok in Hclaim as (_ & -> & ->); [|done].
  apply list_elem_of_fmap in Hev as (e & -> & He). exists (stamp_claim token now e). split_and!; try done.
  - apply list_elem_of_fmap. exists e. rewrite bool_decide_true by (by apply list_elem_of_fmap_2).
    split; [done|]. by apply claimed_events_in in He as [? _].
  - by apply held_spec.
Qed.

(** No event is stranded: one that is not acknowledged is delivered by a
    fault-free claim with room for it, at the latest one second after the TTL
    of the claim that holds it. *)
Theorem unacked_claimable s e token limit ttl now
    (Hs : wf s) (He : e ∈ events s) (Hst : e_Status e ≠ statusAcked)
    (Htok : token ≠ "") (Hlim : Z.of_nat (length (events s)) ≤ limit)
    (Hnow : rfc3339_range now) (Hexp : rfc3339_range (time_add now (wrap64 (- ttl))))
    (Hold : ∀ t, e_ClaimedAt e = Some t → t + second ≤ time_add now (wrap64 (- ttl))) :
  ∃ s' evs, ClaimPending None s token limit ttl now = (s', Ok evs) ∧ stamp_claim token now e ∈ evs.
Proof.
  set (l := claimed_events s limit ttl now).
  assert (0 < length (events s))%nat as Hpos by (by destruct (events s); [apply elem_of_nil in He | cbn; lia]).
  assert (e ∈ l) as Hl.
  { unfold l, claimed_events. rewrite take_ge.
    2: { pose proof (length_filter (claimable (time_add now (wrap64 (- ttl)))) (events s)).
         unfold claim_limit. destruct (Z.leb_spec limit 0); lia. }
    apply list_elem_of_filter. split; [|done]. apply Is_true_true. unfold claimable.
    destruct (we_status _ (wf_events_in _ _ Hs He)) as [->|[Ec|]]; [done| |done].
    destruct (we_holder _ (wf_events_in _ _ Hs He) Ec) as [_ [t Ht]]. rewrite Ec, Ht. cbn.
    apply formatTime_le_second; [|done|by apply Hold]. by apply (we_claimed _ (wf_events_in _ _ Hs He)). }
  destruct (claim_each_complete s 2 token now l) as [[s' evs] Hp]; try done.
  { intros x Hx. apply claimed_events_in in Hx as [? Hc%claimable_not_acked]. done. }
  { apply claimed_ids_nodup, Hs. }
  assert (ClaimPending None s token limit ttl now = (s', Ok evs)) as Hclaim.
  { unfold ClaimPending. rewrite (proj2 (String.eqb_neq _ _)), !fails_none by done.
    rewrite firstn_map. unfold l, claimed_events, claim_limit in Hp. cbv zeta. by rewrite Hp. }
  exists s', evs. split; [done|]. apply ClaimPending_ok in Hclaim as (_ & -> & _); [|done].
  by apply list_elem_of_fmap_2.
Qed.

(** Acknowledgement is final: once [Ack] has succeeded, no later history
    changes the event and no claim returns it again. *)
Theorem Ack_final fl s id token now s1 cs fl' token' limit ttl now' s2 evs
    (Hs : wf s) (Hnow : rfc3339_range now) (Hack : Ack fl s id token now = (s1, Ok ()))
    (Hcs : Forall call_ok cs)
    (Hclaim : ClaimPending fl' (run s1 cs) token' limit ttl now' = (s2, Ok evs)) :
  id ∉ map e_ID evs ∧
  ∃ e, e ∈ events (run s1 cs) ∧ e_ID e = id ∧ e_Status e = statusAcked.
Proof.
  pose proof (run_call_step s (KAck fl id token now) Hs Hnow) as [Hs1 _].
  cbn in Hs1. rewrite Hack in Hs1. cbn in Hs1.
  apply Ack_ok in Hack as (e0 & Hf & _ & ->). apply find_some_in in Hf as [He0 Hid%Z.eqb_eq].
  assert (ack_event now e0 ∈ events (run (update_event id (ack_event now) s) cs)) as Ha.
  { apply run_acked; try done. apply list_elem_of_fmap. exists e0. by rewrite (proj2 (Z.eqb_eq _ _) Hid). }
  pose proof (run_wf _ _ Hs1 Hcs) as Hwf. split; [|by exists (ack_event now e0)].
  apply ClaimPending_ok in Hclaim as (_ & -> & _); [|done]. rewrite map_map. cbn.
  intros (e & E & He)%list_elem_of_fmap. apply claimed_events_in in He as [He Hc%claimable_not_acked].
  apply Hc. by rewrite (same_id _ e (ack_event now e0) Hwf He Ha) by (cbn; congruence).
Qed.

(** ** Concrete instances *)

Definition an_identity : Identity :=
  {| AgentType := "curator"; Mode := "launch"; RunID := "run-1"; WorkItemID := "wi-1";
     OperationID := "op-1" |}.
Definition record_call : call := KRecord None an_identity "owner/repo" 7 0.
Definition one_event_store : store := run empty_store [record_call].
Definition the_correlation : Correlation := new_correlation empty_store an_identity "owner/repo" 7 0.
Definition half_second : time := 500000000.
Definition ttl10 : Z := 10 * second.
Definition claim_A : call := KClaim None "A" 5 ttl10 half_second.
Definition claim_B (now : time) : call := KClaim None "B" 5 ttl10 now.
Definition claimed_store : store := run one_event_store [claim_A].
Definition pending_event : event :=
  new_event {| corrs := [the_correlation]; events := []; corr_seq := 1; event_seq := 0 |} 1
    {| pl_len := 206; pl_decoded := Some
        {| p_Version := OutboxEventVersion; p_AgentType := "curator"; p_Mode := "launch";
           p_RunID := "run-1"; p_WorkItemID := "wi-1"; p_OperationID := "op-1";
           p_Repo := "owner/repo"; p_PRNumber := 7; p_RecordedAt := "1970-01-01T00:00:00Z" |} |} 0.
Definition claimed_event : event := stamp_claim "A" half_second pending_event.

Example one_event_store_value : events one_event_store = [pending_event].
Proof. vm_compute. reflexivity. Qed.

Lemma in_range_now t : 0 ≤ t < 100 * second → rfc3339_range t.
Proof. unfold rfc3339_range, second. lia. Qed.

Lemma record_call_ok : call_ok record_call.
Proof. split; [by apply in_range_now|]. vm_compute. done. Qed.

Lemma one_event_wf : wf one_event_store.
Proof. apply run_wf; [apply empty_wf | constructor; [apply record_call_ok | constructor]]. Qed.

Lemma claimed_wf : wf claimed_store.
Proof. apply run_wf; [apply one_event_wf | constructor; [by apply in_range_now | constructor]]. Qed.

(** The expiry test compares RFC3339Nano texts, in which "00.5Z" sorts before
    "00Z": a claim made half a second past a full second can be taken over half
    a second before its TTL ends, and its holder's acknowledgement then fails. *)
Lemma claim_stolen_early :
  let now := 10 * second in
  now < half_second + ttl10 ∧
  (∃ s' ev, ClaimPending None claimed_store "B" 5 ttl10 now = (s', Ok [ev]) ∧
    e_ID ev = 1 ∧ e_ClaimToken ev = "B" ∧
    (Ack None s' 1 "A" now).2 = Err ErrClaimMismatch).
Proof.
  split; [reflexivity|]. do 2 eexists. split; [vm_compute; reflexivity|]. vm_compute. done.
Qed.

Lemma Record_idempotent_witness :
  Record_ None (run one_event_store [claim_A]) an_identity "other/repo" 9 second =
    (run one_event_store [claim_A], Ok the_correlation) ∧
  ∃ e, e ∈ events (run one_event_store [claim_A]) ∧ e_correlation_id e = c_ID the_correlation ∧
    ∀ e', e' ∈ events (run one_event_store [claim_A]) → e_correlation_id e' = c_ID the_correlation → e' = e.
Proof.
  apply (Record_idempotent None empty_store an_identity "owner/repo" 7 0 one_event_store
           the_correlation [claim_A] an_identity "other/repo" 9 second);
    [apply empty_wf | apply record_call_ok | constructor; [by apply in_range_now | constructor]
    | vm_compute; reflexivity | reflexivity | reflexivity | discriminate | lia].
Defined.

Lemma Validate_reachable_witness :
  Validate schemaVersion (run empty_store [record_call; claim_A]) = Ok ().
Proof.
  apply (Validate_reachable [record_call; claim_A]).
  constructor; [apply record_call_ok | constructor; [by apply in_range_now | constructor]].
Defined.

Lemma claim_exclusive_witness :
  (Ack None (run claimed_store [claim_B (9 * second)]) 1 "A" (9 * second)).2 = Ok ().
Proof.
  apply (claim_exclusive None one_event_store "A" 5 ttl10 half_second claimed_store
           [claimed_event] claimed_event [claim_B (9 * second)] (9 * second));
    [apply one_event_wf | by apply in_range_now | vm_compute; reflexivity | by left
    | constructor; [by apply in_range_now | constructor]
    | constructor; [|constructor]].
  unfold undisturbed, rfc3339_range. vm_compute. repeat split; discriminate.
Defined.

Lemma unacked_claimable_witness :
  ∃ s' evs, ClaimPending None claimed_store "B" 5 ttl10 (12 * second) = (s', Ok evs) ∧
    stamp_claim "B" (12 * second) claimed_event ∈ evs.
Proof.
  apply (unacked_claimable claimed_store claimed_event "B" 5 ttl10 (12 * second));
    [apply claimed_wf | | discriminate | discriminate | | by apply in_range_now | | ].
  - replace (events claimed_store) with [claimed_event] by (vm_compute; reflexivity). by left.
  - vm_compute. discriminate.
  - unfold rfc3339_range. vm_compute. split; [discriminate | reflexivity].
  - intros t [= <-]. vm_compute. discriminate.
Defined.

Lemma Ack_final_witness :
  let s1 := (Ack None claimed_store 1 "A" second).1 in
  let r := ClaimPending None (run s1 [claim_B (60 * second)]) "B" 5 ttl10 (90 * second) in
  r.2 = Ok [] ∧ 1 ∉ map e_ID ([] : list event) ∧
  ∃ e, e ∈ events (run s1 [claim_B (60 * second)]) ∧ e_ID e = 1 ∧ e_Status e = statusAcked.
Proof.
  cbv zeta. split; [vm_compute; reflexivity|].
  apply (Ack_final None claimed_store 1 "A" second _ [claim_B (60 * second)] None "B" 5 ttl10 (90 * second)
           (ClaimPending None (run (Ack None claimed_store 1 "A" second).1 [claim_B (60 * second)]) "B" 5 ttl10
              (90 * second)).1);
    [apply claimed_wf | by apply in_range_now | apply run_pair; vm_compute; reflexivity
    | constructor; [by apply in_range_now | constructor] | apply run_pair; vm_compute; reflexivity].
Defined.
