(* ===== verification/Http.v ===== *)
(** * net/http as the broker's handlers see it

    A request is its method, path, Authorization header and body; a body is
    known up to what reading it within the handler's limit and json.Unmarshal
    give.  A response is a status with a structured body. *)

From S2P Require Import Prelude GoStrings.
Open Scope string_scope.
Open Scope list_scope.

Inductive body (T : Type) :=
| Unreadable
| TooLarge
| NotJSON
| Json (v : T).
Arguments Unreadable {T}.
Arguments TooLarge {T}.
Arguments NotJSON {T}.
Arguments Json {T} v.

(** [r_Body] gives the body as each of the handler's request types sees it. *)
Record request (T : Type) := {
  r_Method : string; r_Path : string; r_Authorization : string; r_Body : T }.
Arguments r_Method {T} r.
Arguments r_Path {T} r.
Arguments r_Authorization {T} r.
Arguments r_Body {T} r.

Record response (R : Type) := { status : Z; reply : R }.
Arguments status {R} r.
Arguments reply {R} r.

Definition success {R} (r : response R) : bool := (200 <=? status r)%Z && (status r <? 300)%Z.

(** strings.Trim(s, "/") *)
Fixpoint trim_left_slash (s : string) : string :=
  match s with
  | String c s' => if Ascii.eqb c "/" then trim_left_slash s' else s
  | EmptyString => EmptyString
  end.
Definition trim_slashes (s : string) : string :=
  String.rev (trim_left_slash (String.rev (trim_left_slash s))).

(** The bearer check of the private APIs: the Authorization header is "Bearer "
    followed by the configured token (compared in constant time). *)
Definition bearer_is (authorization token : string) : bool :=
  if negb (has_prefix "Bearer " authorization) then false
  else trim_prefix "Bearer " authorization =? token.

Lemma bearer_is_spec authorization token :
  bearer_is authorization token = true ↔ authorization = "Bearer " +:+ token.
Proof.
  unfold bearer_is. destruct (has_prefix "Bearer " authorization) eqn:E; cbn [negb].
  - pose proof E as Hp. apply has_prefix_drop in Hp. unfold trim_prefix. rewrite E. rewrite String.eqb_eq. split.
    + intros <-. exact Hp.
    + intros ->. apply (trim_prefix_app "Bearer ").
  - split; [done|]. intros ->. assert (has_prefix "Bearer " ("Bearer " +:+ token) = true) as H; [|congruence].
    apply has_prefix_drop; reflexivity.
Qed.

Example trim_slashes_ex : trim_slashes "/claim//" = "claim".
Proof. reflexivity. Qed.
