(* ===== verification/Outbox.v ===== *)
(** * internal/server/outbox.go: the private outbox consumer API

    One consumer, authenticated by a deployment-owned bearer token, drains the
    outbox of Correlation.v: POST claim, ack or reclaim below
    /v1/correlation/outbox/.  A handler maps the store and a request to the new
    store and a response. *)

From S2P Require Import Prelude GoStrings GoTime Correlation Http.
Open Scope string_scope.
Open Scope list_scope.
Open Scope Z_scope.

(** ** Data *)

Definition outboxPathPrefix := "/v1/correlation/outbox/".

Record outboxAPI := { token : string; claimTTL : Z; maxBatch : Z }.

Definition newOutboxAPI (token : string) (claimTTL maxBatch : Z) : outboxAPI :=
  {| token := token; claimTTL := claimTTL; maxBatch := if maxBatch <=? 0 then 1 else maxBatch |}.

Record outboxClaimRequest := { cl_ClaimToken : string; cl_Limit : Z }.
Record outboxAckRequest := { ak_EventID : Z; ak_ClaimToken : string }.
Record outboxReclaimRequest := { rc_EventID : Z; rc_ClaimToken : string }.

(** The body as the three handlers would decode it. *)
Record bodies := {
  as_claim : body outboxClaimRequest; as_ack : body outboxAckRequest;
  as_reclaim : body outboxReclaimRequest }.

Record outboxEventDTO := {
  d_ID : Z; d_Version : string; d_Status : string; d_Attempts : Z; d_Payload : payload;
  d_ClaimToken : string; d_ClaimedAt : string; d_CreatedAt : string; d_UpdatedAt : string }.

Inductive outbox_reply :=
| Events (l : list outboxEventDTO)
| Code (code : string)
| PlainNotFound
| NoBody.

Definition resp := response outbox_reply.
Definition respond (status : Z) (r : outbox_reply) : resp := {| status := status; reply := r |}.
Definition writeOutboxError (status : Z) (code : string) : resp := respond status (Code code).

Definition toOutboxEventDTO (e : event) : outboxEventDTO :=
  {| d_ID := e_ID e; d_Version := e_Version e; d_Status := e_Status e;
     d_Attempts := e_Attempts e; d_Payload := e_Payload e; d_ClaimToken := e_ClaimToken e;
     d_ClaimedAt := match e_ClaimedAt e with Some t => formatTime t | None => "" end;
     d_CreatedAt := formatTime (e_CreatedAt e); d_UpdatedAt := formatTime (e_UpdatedAt e) |}.

Definition writeOutboxStoreError (e : corr_error) : resp :=
  match e with
  | ErrClaimMismatch => writeOutboxError 409 "claim_mismatch"
  | ErrNotFound => writeOutboxError 404 "not_found"
  | ErrPayloadBounds => writeOutboxError 422 "payload_bounds"
  | _ => writeOutboxError 400 "outbox_request_denied"
  end.

Definition decodeOutboxRequest {T} (b : body T) : result resp T :=
  match b with
  | Unreadable | TooLarge => Err (writeOutboxError 400 "request body invalid or too large")
  | NotJSON => Err (writeOutboxError 400 "invalid json")
  | Json v => Ok v
  end.

(** ** Handlers *)

(** What a handler sends: its response, or the early one it stopped with. *)
Definition answer {S} (s : S) (r : result resp (S * resp)) : S * resp :=
  match r with Ok p => p | Err e => (s, e) end.

Definition store_answer {A} (p : store * result corr_error A) (f : A → resp) : store * resp :=
  (p.1, match p.2 with Ok a => f a | Err e => writeOutboxStoreError e end).

Definition handleClaim (a : outboxAPI) (fl : fault) (s : store) (b : body outboxClaimRequest)
    (now : time) : store * resp :=
  answer s (
    req ← decodeOutboxRequest b;
    fail_if (trim_space (cl_ClaimToken req) =? "")%string
      with writeOutboxError 400 "claim_token_required" ;;
    let limit := cl_Limit req in
    let limit := if limit <=? 0 then 1 else limit in
    let limit := if maxBatch a <? limit then maxBatch a else limit in
    Ok (store_answer (ClaimPending fl s (cl_ClaimToken req) limit (claimTTL a) now)
          (λ evs, respond 200 (Events (map toOutboxEventDTO evs))))).

Definition handleAck (fl : fault) (s : store) (b : body outboxAckRequest) (now : time)
    : store * resp :=
  answer s (
    req ← decodeOutboxRequest b;
    fail_if (ak_EventID req <=? 0) || (trim_space (ak_ClaimToken req) =? "")%string
      with writeOutboxError 400 "event_id_and_claim_token_required" ;;
    Ok (store_answer (Ack fl s (ak_EventID req) (ak_ClaimToken req) now)
          (λ _, respond 204 NoBody))).

Definition handleReclaim (fl : fault) (s : store) (b : body outboxReclaimRequest) (now : time)
    : store * resp :=
  answer s (
    req ← decodeOutboxRequest b;
    fail_if (rc_EventID req <=? 0) || (trim_space (rc_ClaimToken req) =? "")%string
      with writeOutboxError 400 "event_id_and_claim_token_required" ;;
    Ok (store_answer (Reclaim fl s (rc_EventID req) (rc_ClaimToken req) now)
          (λ _, respond 204 NoBody))).

Definition authenticated (a : outboxAPI) (authorization : string) : bool :=
  bearer_is authorization (token a).

Definition ServeHTTP (a : outboxAPI) (fl : fault) (s : store) (r : request bodies) (now : time)
    : store * resp :=
  if (token a =? "")%string then (s, respond 404 PlainNotFound)
  else if negb (authenticated a (r_Authorization r)) then (s, writeOutboxError 401 "unauthorized")
  else if negb (r_Method r =? "POST")%string then (s, writeOutboxError 405 "method_not_allowed")
  else
    let path := trim_slashes (trim_prefix outboxPathPrefix (r_Path r)) in
    if (path =? "claim")%string then handleClaim a fl s (as_claim (r_Body r)) now
    else if (path =? "ack")%string then handleAck fl s (as_ack (r_Body r)) now
    else if (path =? "reclaim")%string then handleReclaim fl s (as_reclaim (r_Body r)) now
    else (s, writeOutboxError 404 "not_found").

(** The API is mounted only when it is configured. *)
Definition handleOutbox (api : option outboxAPI) (fl : fault) (s : store) (r : request bodies)
    (now : time) : store * resp :=
  match api with
  | None => (s, respond 404 (Code "not found"))
  | Some a => ServeHTTP a fl s r now
  end.

(** ** Specification: the store call a request stands for *)

Definition clamp (a : outboxAPI) (limit : Z) : Z :=
  Z.min (maxBatch a) (if limit <=? 0 then 1 else limit).

Definition decoded {T} (b : body T) : option T := match b with Json v => Some v | _ => None end.

Definition request_call (a : outboxAPI) (fl : fault) (r : request bodies) (now : time)
    : option call :=
  let path := trim_slashes (trim_prefix outboxPathPrefix (r_Path r)) in
  if negb (r_Method r =? "POST")%string then None
  else if (path =? "claim")%string then
    req ← decoded (as_claim (r_Body r));
    Some (KClaim fl (cl_ClaimToken req) (clamp a (cl_Limit req)) (claimTTL a) now)
  else if (path =? "ack")%string then
    req ← decoded (as_ack (r_Body r)); Some (KAck fl (ak_EventID req) (ak_ClaimToken req) now)
  else if (path =? "reclaim")%string then
    req ← decoded (as_reclaim (r_Body r)); Some (KReclaim fl (rc_EventID req) (rc_ClaimToken req) now)
  else None.

(** ** Lemmas *)

Lemma clamp_spec a limit :
  (let limit := if limit <=? 0 then 1 else limit in
   if maxBatch a <? limit then maxBatch a else limit) = clamp a limit.
Proof.
  unfold clamp. cbv zeta. set (l := if limit <=? 0 then 1 else limit).
  destruct (Z.ltb_spec (maxBatch a) l); lia.
Qed.

Lemma claim_batch fl s tok limit ttl now s' evs :
  wf s → 0 < limit → ClaimPending fl s tok limit ttl now = (s', Ok evs) →
  Z.of_nat (length evs) ≤ limit.
Proof.
  intros Hwf Hl H. apply ClaimPending_ok in H as (_ & -> & _); [|done].
  rewrite length_map. unfold claimed_events. pose proof (firstn_le_length (claim_limit limit)
    (filter (claimable (time_add now (wrap64 (- ttl)))) (events s))).
  unfold claim_limit in *. destruct (Z.leb_spec limit 0); lia.
Qed.

Lemma store_error_fails e : success (writeOutboxStoreError e) = false.
Proof. by destruct e. Qed.

(** A handler either stops with an error and no effect, or is one store call. *)
Definition one_call (s : store) (c : option call) (bound : Z) (p : store * resp) : Prop :=
  (success p.2 = false ∧ p.1 = s) ∨
  (success p.2 = true ∧ ∃ c', c = Some c' ∧ p.1 = run_call s c' ∧
    ∀ l, reply p.2 = Events l → Z.of_nat (length l) ≤ bound).

Lemma handleClaim_call a fl s b now :
  wf s → 0 < maxBatch a →
  one_call s (req ← decoded b; Some (KClaim fl (cl_ClaimToken req) (clamp a (cl_Limit req)) (claimTTL a) now))
    (maxBatch a) (handleClaim a fl s b now).
Proof.
  intros Hwf Hb. unfold handleClaim. destruct b as [| | |req]; try by left.
  cbn [decodeOutboxRequest mbind result_bind decoded option_bind]. cbv beta.
  destruct (trim_space (cl_ClaimToken req) =? "")%string; [by left|].
  rewrite clamp_spec. cbn [answer]. unfold store_answer.
  destruct (ClaimPending fl s _ _ _ now) as [s' [evs|e]] eqn:E; cbn [fst snd].
  - right. split; [done|]. eexists. split; [done|]. cbn [run_call]. rewrite E. split; [done|].
    intros l [= <-]. rewrite length_map. apply claim_batch in E; [|done|unfold clamp; destruct (Z.leb_spec (cl_Limit req) 0); lia].
    unfold clamp in E. lia.
  - left. split; [apply store_error_fails|]. by apply atomically_err in E as [-> _].
Qed.

Lemma handleAck_call fl s b now bound :
  one_call s (req ← decoded b; Some (KAck fl (ak_EventID req) (ak_ClaimToken req) now)) bound
    (handleAck fl s b now).
Proof.
  unfold handleAck. destruct b as [| | |req]; try by left. cbn. destruct (_ || _); [by left|].
  cbn [answer]. unfold store_answer. destruct (Ack fl s _ _ now) as [s' [[]|e]] eqn:E; cbn [fst snd].
  - right. split; [done|]. eexists. split; [done|]. cbn. by rewrite E.
  - left. split; [apply store_error_fails|]. by apply atomically_err in E as [-> _].
Qed.

Lemma handleReclaim_call fl s b now bound :
  one_call s (req ← decoded b; Some (KReclaim fl (rc_EventID req) (rc_ClaimToken req) now)) bound
    (handleReclaim fl s b now).
Proof.
  unfold handleReclaim. destruct b as [| | |req]; try by left. cbn. destruct (_ || _); [by left|].
  cbn [answer]. unfold store_answer. destruct (Reclaim fl s _ _ now) as [s' [[]|e]] eqn:E; cbn [fst snd].
  - right. split; [done|]. eexists. split; [done|]. cbn. by rewrite E.
  - left. split; [apply store_error_fails|]. by apply atomically_err in E as [-> _].
Qed.

(** ** Properties *)

(** The outbox API acts only for its consumer.  A request succeeds only
    when the API has a token and the request presents exactly it; it is then
    one claim, ack or reclaim of the store, of at most max_claim_batch events;
    any other request leaves the store as it was. *)
Theorem ServeHTTP_gate token claimTTL batch fl s r now (Hs : wf s) :
  let a := newOutboxAPI token claimTTL batch in
  let p := ServeHTTP a fl s r now in
  (success p.2 = false ∧ p.1 = s) ∨
  (success p.2 = true ∧ token ≠ "" ∧ r_Authorization r = "Bearer " +:+ token ∧
   ∃ c, request_call a fl r now = Some c ∧ p.1 = run_call s c ∧
     ∀ l, reply p.2 = Events l → Z.of_nat (length l) ≤ Z.max 1 batch).
Proof.
  intros a p. assert (0 < maxBatch a ≤ Z.max 1 batch) as Hb.
  { unfold a, newOutboxAPI; cbn. destruct (Z.leb_spec batch 0); lia. }
  unfold p, ServeHTTP. change (Outbox.token a) with token.
  destruct (String.eqb_spec token "") as [|Ht]; [by left|].
  destruct (authenticated a (r_Authorization r)) eqn:Ea; [|by left]. apply bearer_is_spec in Ea.
  unfold request_call. destruct (r_Method r =? "POST")%string; [|by left]. cbn [negb].
  set (path := trim_slashes _).
  assert (∀ c q, one_call s c (maxBatch a) q → (success q.2 = false ∧ q.1 = s) ∨
    (success q.2 = true ∧ token ≠ "" ∧ r_Authorization r = "Bearer " +:+ token ∧
     ∃ c', c = Some c' ∧ q.1 = run_call s c' ∧
       ∀ l, reply q.2 = Events l → Z.of_nat (length l) ≤ Z.max 1 batch)) as Hc.
  { intros c q [?|(Hok & c' & E & E' & Hl)]; [by left|]. right. split_and!; try done.
    exists c'. split_and!; try done. intros l Hr. specialize (Hl l Hr). lia. }
  destruct (path =? "claim")%string; [apply Hc, handleClaim_call; [done|lia]|].
  destruct (path =? "ack")%string; [apply Hc, handleAck_call|].
  destruct (path =? "reclaim")%string; [apply Hc, handleReclaim_call|]. by left.
Qed.

(** ** A concrete instance *)

Definition claim_request (auth : string) : request bodies :=
  {| r_Method := "POST"; r_Path := "/v1/correlation/outbox/claim/"; r_Authorization := auth;
     r_Body := {| as_claim := Json {| cl_ClaimToken := "A"; cl_Limit := 0 |};
                  as_ack := NotJSON; as_reclaim := NotJSON |} |}.

Example claim_unauthorized :
  (ServeHTTP (newOutboxAPI "s3cret" ttl10 5) None one_event_store
     (claim_request "Bearer other") half_second).2 = writeOutboxError 401 "unauthorized".
Proof. reflexivity. Qed.

Lemma ServeHTTP_gate_witness :
  let a := newOutboxAPI "s3cret" ttl10 5 in
  let r := claim_request "Bearer s3cret" in
  let p := ServeHTTP a None one_event_store r half_second in
  p.2 = respond 200 (Events [toOutboxEventDTO claimed_event]) ∧
  ((success p.2 = false ∧ p.1 = one_event_store) ∨
   (success p.2 = true ∧ "s3cret" ≠ "" ∧ r_Authorization r = "Bearer " +:+ "s3cret" ∧
    ∃ c, request_call a None r half_second = Some c ∧ p.1 = run_call one_event_store c ∧
      ∀ l, reply p.2 = Events l → Z.of_nat (length l) ≤ Z.max 1 5)).
Proof.
  split; [vm_compute; reflexivity|].
  apply (ServeHTTP_gate "s3cret" ttl10 5 None one_event_store (claim_request "Bearer s3cret") half_second).
  apply one_event_wf.
Defined.
