(* ===== verification/CapabilityRest.v ===== *)
(** * The private capability API and its clients

    internal/capability/rest.go serves the store of CapabilityStore.v to the
    broker services; internal/server/capability.go and internal/proxy/
    capability.go call it.  JSON texts are kept as the values they denote, with
    their exact lengths where a size limit looks at them.  [env] is what one
    call meets: clock readings, database faults, and what the network does. *)

From S2P Require Import Prelude GoStrings GoTime GoJson Capability CapabilityStore Http.
Open Scope string_scope.
Open Scope list_scope.
Open Scope Z_scope.

(** ** Requests and responses *)

Definition maxRequestBytes : Z := 8 * 1024.
Definition capMaxResponseBytes : Z := 8 * 1024.

Record reserveRequest := { rq_Handle : string; rq_Model : string; rq_Calls : Z; rq_Tokens : Z }.

Record verifyResponse := {
  vr_AgentType : string; vr_Mode : string; vr_RunID : string; vr_WorkItemID : string;
  vr_AllowedModels : list string; vr_CallBudget : Z; vr_TokenBudget : Z; vr_Expiry : time;
  vr_ReservedCalls : Z; vr_ReservedTokens : Z }.

Inductive cap_reply :=
| Verified (v : verifyResponse)
| Reserved (r : Reservation)
| CapCode (code : string)
| CapPlainNotFound
| CapNoBody.

Definition cap_resp := response cap_reply.
Definition cap_respond (st : Z) (r : cap_reply) : cap_resp := {| status := st; reply := r |}.
Definition writeCapError (st : Z) (code : string) : cap_resp := cap_respond st (CapCode code).

Record cap_bodies := {
  as_verify : body string; as_reserve : body reserveRequest; as_revoke : body string }.

Inductive network := Delivered | RequestLost | ResponseLost.

Record env := {
  clock1 : time; clock2 : time; clock3 : time; fault1 : fault; fault2 : fault; net : network }.

(** ** The server: internal/capability/rest.go *)

(** The switch on errors.Is, which sees through a wrapped error. *)
Definition writeCapStoreError (e : store_error) : cap_resp :=
  match e with
  | ErrHandleMalformed => writeCapError 400 "handle_malformed"
  | ErrHandleNotFound => writeCapError 404 "handle_not_found"
  | ErrRevoked => writeCapError 409 "revoked"
  | ErrClaims ErrExpired | ErrReconstruct ErrExpired => writeCapError 409 "expired"
  | ErrClaims (ErrModelDenied _) | ErrReconstruct (ErrModelDenied _) =>
      writeCapError 403 "model_denied"
  | ErrClaims (ErrCallBudget _) | ErrReconstruct (ErrCallBudget _) =>
      writeCapError 409 "call_budget_exhausted"
  | ErrClaims (ErrTokenBudget _) | ErrReconstruct (ErrTokenBudget _) =>
      writeCapError 409 "token_budget_exhausted"
  | ErrClaims (ErrInvalidClaims _) | ErrReconstruct (ErrInvalidClaims _) =>
      writeCapError 422 "invalid_claims"
  | _ => writeCapError 400 "reservation_denied"
  end.

Definition decodeCapRequest {T} (b : body T) : result cap_resp T :=
  match b with
  | Unreadable | TooLarge => Err (writeCapError 400 "request body invalid or too large")
  | NotJSON => Err (writeCapError 400 "invalid json")
  | Json v => Ok v
  end.

Definition or_store_error {A} (r : result store_error A) : result cap_resp A :=
  match r with Ok a => Ok a | Err e => Err (writeCapStoreError e) end.

Definition reply_of (r : result cap_resp cap_resp) : cap_resp :=
  match r with Ok p => p | Err p => p end.

Definition verify_reply (c : Claims) (r : Reservation) : verifyResponse :=
  {| vr_AgentType := agentType c; vr_Mode := mode c; vr_RunID := runID c;
     vr_WorkItemID := workItemID c; vr_AllowedModels := AllowedModels c;
     vr_CallBudget := callBudget c; vr_TokenBudget := tokenBudget c; vr_Expiry := expiry c;
     vr_ReservedCalls := Calls r; vr_ReservedTokens := Tokens r |}.

Section Server.
Variable sha256_hex : string → string.

Definition handleVerify (v : env) (t : table) (b : body string) : cap_resp :=
  reply_of (
    handle ← decodeCapRequest b;
    p ← or_store_error (Verify sha256_hex (fault1 v) t handle (clock1 v));
    Ok (cap_respond 200 (Verified (verify_reply p.1 p.2)))).

Definition reserve_request (c : Claims) (req : reserveRequest) : Request :=
  {| Capability.r_AgentType := agentType c; r_Mode := mode c; r_RunID := runID c;
     r_WorkItemID := workItemID c; r_Model := rq_Model req; r_Calls := rq_Calls req;
     r_Tokens := rq_Tokens req; r_ReservedCalls := 0; r_ReservedTokens := 0 |}.

Definition handleReserve (v : env) (t : table) (b : body reserveRequest) : table * cap_resp :=
  match decodeCapRequest b with
  | Err p => (t, p)
  | Ok req =>
    if (rq_Calls req <? 0) || (rq_Tokens req <? 0)
    then (t, writeCapError 400 "negative reservation")
    else match Verify sha256_hex (fault1 v) t (rq_Handle req) (clock1 v) with
         | Err e => (t, writeCapStoreError e)
         | Ok (claims, _) =>
           let p := Reserve sha256_hex (fault2 v) t (rq_Handle req) (reserve_request claims req)
                      (clock2 v) (clock3 v) in
           (p.1, match p.2 with
                 | Ok res => cap_respond 200 (Reserved res)
                 | Err e => writeCapStoreError e
                 end)
         end
  end.

Definition handleRevoke (v : env) (t : table) (b : body string) : table * cap_resp :=
  match decodeCapRequest b with
  | Err p => (t, p)
  | Ok handle =>
    let p := Revoke sha256_hex (fault1 v) t handle (clock1 v) in
    (p.1, match p.2 with Ok _ => cap_respond 204 CapNoBody | Err e => writeCapStoreError e end)
  end.

Definition ServeHTTP (token : string) (v : env) (t : table) (r : request cap_bodies)
    : table * cap_resp :=
  if (token =? "")%string then (t, cap_respond 404 CapPlainNotFound)
  else if negb (bearer_is (r_Authorization r) token) then (t, writeCapError 401 "unauthorized")
  else if negb (r_Method r =? "POST")%string then (t, writeCapError 405 "method_not_allowed")
  else
    let path := trim_slashes (trim_prefix "/v1/capabilities/" (r_Path r)) in
    if (path =? "verify")%string then (t, handleVerify v t (as_verify (r_Body r)))
    else if (path =? "reserve")%string then handleReserve v t (as_reserve (r_Body r))
    else if (path =? "revoke")%string then handleRevoke v t (as_revoke (r_Body r))
    else (t, writeCapError 404 "not_found").
End Server.

(** ** The clients *)

Inductive cap_client_error := errCapMissing | errCapDenied | errCapUnavailable | errCapIdentityMismatch.

Definition text_len (s : string) : Z := Z.of_nat (String.length s).

Definition verify_request_text (handle : string) : string :=
  json_object [("handle", json_string handle)].

Definition reserve_request_text (r : reserveRequest) : string :=
  json_object ([("handle", json_string (rq_Handle r))]
    ++ (if (rq_Model r =? "")%string then [] else [("model", json_string (rq_Model r))])
    ++ [("calls", json_int (rq_Calls r)); ("tokens", json_int (rq_Tokens r))]).

(** What the server reads of a text of a given length denoting [v]. *)
Definition sent {T} (len : Z) (v : T) : body T :=
  if maxRequestBytes <? len then TooLarge else Json v.

Definition json_strings (l : list string) : string :=
  "[" +:+ join "," (map json_string l) +:+ "]".

Definition verify_response_text (v : verifyResponse) : string :=
  json_object [("agent_type", json_string (vr_AgentType v)); ("mode", json_string (vr_Mode v));
    ("run_id", json_string (vr_RunID v)); ("work_item_id", json_string (vr_WorkItemID v));
    ("allowed_models", json_strings (vr_AllowedModels v));
    ("call_budget", json_int (vr_CallBudget v)); ("token_budget", json_int (vr_TokenBudget v));
    ("expiry", json_string (formatTime (vr_Expiry v)));
    ("reserved_calls", json_int (vr_ReservedCalls v));
    ("reserved_tokens", json_int (vr_ReservedTokens v))].

Definition received (v : verifyResponse) : verifyResponse :=
  {| vr_AgentType := coerce (vr_AgentType v); vr_Mode := coerce (vr_Mode v);
     vr_RunID := coerce (vr_RunID v); vr_WorkItemID := coerce (vr_WorkItemID v);
     vr_AllowedModels := map coerce (vr_AllowedModels v); vr_CallBudget := vr_CallBudget v;
     vr_TokenBudget := vr_TokenBudget v; vr_Expiry := vr_Expiry v;
     vr_ReservedCalls := vr_ReservedCalls v; vr_ReservedTokens := vr_ReservedTokens v |}.

(** [post]: the reply of a 2xx response, or the error its status maps to.
    [None] stands for a transport error. *)
Definition post (r : option cap_resp) : result cap_client_error cap_reply :=
  match r with
  | None => Err errCapUnavailable
  | Some p =>
    if success p then Ok (reply p)
    else if 500 <=? status p then Err errCapUnavailable
    else Err errCapDenied
  end.

Record capClaims := {
  cc_AgentType : string; cc_Mode : string; cc_RunID : string; cc_WorkItemID : string;
  cc_AllowedModels : list string; cc_CallBudget : Z; cc_TokenBudget : Z; cc_Expiry : time;
  cc_ReservedCalls : Z; cc_ReservedTokens : Z }.

Definition modelEnabled (c : capClaims) : bool := negb (is_nil (cc_AllowedModels c)).
Fixpoint listed (models : list string) (model : string) : bool :=
  match models with
  | [] => false
  | m :: models => if (m =? model)%string then true else listed models model
  end.
Definition allowsModel (c : capClaims) (model : string) : bool := listed (cc_AllowedModels c) model.

(** Decoding a verify reply: the text must fit the response limit, and a
    timestamp out of the RFC 3339 range does not parse. *)
Definition decode_verify (r : cap_reply) : result cap_client_error verifyResponse :=
  match r with
  | Verified v => if capMaxResponseBytes <? text_len (verify_response_text v) then Err errCapDenied
                  else Ok (received v)
  | _ => Err errCapDenied
  end.

Section Clients.
Variable sha256_hex : string → string.
Variable token client_token : string.

(** One exchange: the table after it, and what the client sees. *)
Definition exchange (v : env) (t : table) (path : string) (b : cap_bodies) : table * option cap_resp :=
  let r := {| r_Method := "POST"; r_Path := path; r_Authorization := "Bearer " +:+ client_token;
              r_Body := b |} in
  match net v with
  | RequestLost => (t, None)
  | Delivered => let p := ServeHTTP sha256_hex token v t r in (p.1, Some p.2)
  | ResponseLost => ((ServeHTTP sha256_hex token v t r).1, None)
  end.

Definition verify_body (handle : string) : cap_bodies :=
  {| as_verify := sent (text_len (verify_request_text handle)) (coerce handle);
     as_reserve := NotJSON; as_revoke := NotJSON |}.

Definition reserve_body (r : reserveRequest) : cap_bodies :=
  {| as_verify := NotJSON; as_revoke := NotJSON;
     as_reserve := sent (text_len (reserve_request_text r))
       {| rq_Handle := coerce (rq_Handle r); rq_Model := coerce (rq_Model r);
          rq_Calls := rq_Calls r; rq_Tokens := rq_Tokens r |} |}.

(** The proxy's client, internal/proxy/capability.go. *)
Definition client_verify (v : env) (t : table) (handle : string) : result cap_client_error capClaims :=
  out ← post (exchange v t "/v1/capabilities/verify" (verify_body handle)).2;
  out ← decode_verify out;
  fail_if negb (bool_decide (rfc3339_range (vr_Expiry out))) with errCapDenied ;;
  Ok {| cc_AgentType := vr_AgentType out; cc_Mode := vr_Mode out; cc_RunID := vr_RunID out;
        cc_WorkItemID := vr_WorkItemID out; cc_AllowedModels := vr_AllowedModels out;
        cc_CallBudget := vr_CallBudget out; cc_TokenBudget := vr_TokenBudget out;
        cc_Expiry := vr_Expiry out; cc_ReservedCalls := vr_ReservedCalls out;
        cc_ReservedTokens := vr_ReservedTokens out |}.

Definition client_reserve (v : env) (t : table) (handle model : string) (calls tokens : Z)
    : table * result cap_client_error Reservation :=
  let p := exchange v t "/v1/capabilities/reserve"
             (reserve_body {| rq_Handle := handle; rq_Model := model; rq_Calls := calls;
                              rq_Tokens := tokens |}) in
  (p.1, out ← post p.2; match out with Reserved r => Ok r | _ => Err errCapDenied end).

(** The broker's verifier, internal/server/capability.go. *)
Record verifiedCapability := {
  vc_AgentType : string; vc_Mode : string; vc_RunID : string; vc_WorkItemID : string }.

Definition complete (v : verifiedCapability) : bool :=
  negb (vc_AgentType v =? "")%string && negb (vc_Mode v =? "")%string
  && negb (vc_RunID v =? "")%string && negb (vc_WorkItemID v =? "")%string.

Definition verifier_verify (v : env) (t : table) (handle : string)
    : result cap_client_error verifiedCapability :=
  out ← post (exchange v t "/v1/capabilities/verify" (verify_body handle)).2;
  out ← decode_verify out;
  let c := {| vc_AgentType := vr_AgentType out; vc_Mode := vr_Mode out;
              vc_RunID := vr_RunID out; vc_WorkItemID := vr_WorkItemID out |} in
  fail_if negb (complete c) with errCapDenied ;;
  Ok c.
End Clients.

(** capStatus of internal/server/capability.go *)
Definition verifier_capStatus (e : cap_client_error) : Z * string :=
  match e with
  | errCapMissing => (401, "capability_required")
  | errCapUnavailable => (503, "capability_unavailable")
  | _ => (403, "capability_denied")
  end.
