(* ===== verification/Proxy.v ===== *)
(** * internal/proxy: the model-call facade

    The proxy serves sandboxed agents.  In its static mode a caller names its
    own run and a state file counts calls and tokens per run; in capability
    mode a run presents its opaque handle and every call is first reserved
    against the capability API, which the proxy uses through the interface
    [CapabilityAPI].  A handler maps the state it changes and a request to the
    new state and an [outcome]: status, error code, audit records and the
    requests sent upstream.  The body of a request is its length, what it
    decodes to, and the length of its re-encoding; the upstream's answer is an
    argument. *)

From S2P Require Import Prelude GoStrings GoTime GoJson Capability CapabilityStore Http CapabilityRest.
From stdpp Require Import pretty.
Open Scope string_scope.
Open Scope list_scope.
Open Scope Z_scope.

(** ** Configuration *)

Record CodexModelConfig := { Name : string; UpstreamModel : string; MaxOutputTokens : Z }.

Record Config := {
  Listen : string; AuthToken : string; AuthTokenEnv : string; CodexAuthToken : string;
  CodexAuthTokenEnv : string; UpstreamURL : string; UpstreamKey : string; UpstreamKeyEnv : string;
  CodexUpstreamKey : string; CodexUpstreamKeyEnv : string; cfg_AllowedModels : list string;
  CodexAllowedModels : list CodexModelConfig; StatePath : string; MaxCallsPerRun : Z;
  MaxTokensPerRun : Z; MaxRequestBytes : Z; MaxResponseBytes : Z; Timeout : Z;
  CapabilityAPIURL : string; CapabilityAPIToken : string; CapabilityAPITokenEnv : string }.

Definition or_default (z d : Z) : Z := if z =? 0 then d else z.

Definition ApplyDefaults (c : Config) : Config :=
  {| Listen := if (Listen c =? "")%string then "127.0.0.1:8092" else Listen c;
     AuthToken := AuthToken c; AuthTokenEnv := AuthTokenEnv c; CodexAuthToken := CodexAuthToken c;
     CodexAuthTokenEnv := CodexAuthTokenEnv c; UpstreamURL := UpstreamURL c;
     UpstreamKey := UpstreamKey c; UpstreamKeyEnv := UpstreamKeyEnv c;
     CodexUpstreamKey := CodexUpstreamKey c; CodexUpstreamKeyEnv := CodexUpstreamKeyEnv c;
     cfg_AllowedModels := cfg_AllowedModels c; CodexAllowedModels := CodexAllowedModels c;
     StatePath := StatePath c; MaxCallsPerRun := or_default (MaxCallsPerRun c) 20;
     MaxTokensPerRun := or_default (MaxTokensPerRun c) 200000;
     MaxRequestBytes := or_default (MaxRequestBytes c) (256 * 1024);
     MaxResponseBytes := or_default (MaxResponseBytes c) (512 * 1024);
     Timeout := or_default (Timeout c) (120 * second);
     CapabilityAPIURL := CapabilityAPIURL c; CapabilityAPIToken := CapabilityAPIToken c;
     CapabilityAPITokenEnv := CapabilityAPITokenEnv c |}.

(** [getenv] is the process environment. *)
Definition ResolveSecrets (getenv : string → string) (c : Config) : Config :=
  let resolve v env := if (v =? "")%string && negb (env =? "")%string then getenv env else v in
  {| Listen := Listen c; AuthToken := resolve (AuthToken c) (AuthTokenEnv c);
     AuthTokenEnv := AuthTokenEnv c; CodexAuthToken := resolve (CodexAuthToken c) (CodexAuthTokenEnv c);
     CodexAuthTokenEnv := CodexAuthTokenEnv c; UpstreamURL := UpstreamURL c;
     UpstreamKey := resolve (UpstreamKey c) (UpstreamKeyEnv c); UpstreamKeyEnv := UpstreamKeyEnv c;
     CodexUpstreamKey := resolve (CodexUpstreamKey c) (CodexUpstreamKeyEnv c);
     CodexUpstreamKeyEnv := CodexUpstreamKeyEnv c; cfg_AllowedModels := cfg_AllowedModels c;
     CodexAllowedModels := CodexAllowedModels c; StatePath := StatePath c;
     MaxCallsPerRun := MaxCallsPerRun c; MaxTokensPerRun := MaxTokensPerRun c;
     MaxRequestBytes := MaxRequestBytes c; MaxResponseBytes := MaxResponseBytes c;
     Timeout := Timeout c; CapabilityAPIURL := CapabilityAPIURL c;
     CapabilityAPIToken := resolve (CapabilityAPIToken c) (CapabilityAPITokenEnv c);
     CapabilityAPITokenEnv := CapabilityAPITokenEnv c |}.

Definition capabilityEnabled (c : Config) : bool :=
  negb (trim_space (CapabilityAPIURL c) =? "")%string
  && negb (trim_space (CapabilityAPIToken c) =? "")%string.

Definition codexConfigured (c : Config) : bool :=
  negb (is_nil (CodexAllowedModels c)) || negb (CodexAuthToken c =? "")%string
  || negb (CodexAuthTokenEnv c =? "")%string || negb (CodexUpstreamKey c =? "")%string
  || negb (CodexUpstreamKeyEnv c =? "")%string.

Definition when (b : bool) (msg : string) : list string := if b then [msg] else [].

Fixpoint codexModelErrors (capability : bool) (i : Z) (models : list CodexModelConfig) : list string :=
  match models with
  | [] => []
  | m :: models =>
    let entry := "codex_allowed_models[" +:+ pretty i +:+ "]" in
    when (trim_space (Name m) =? "")%string (entry +:+ ".name is required")
    ++ when (trim_space (UpstreamModel m) =? "")%string (entry +:+ ".upstream_model is required")
    ++ when (capability && (MaxOutputTokens m <? 1)) (entry +:+
         ".max_output_tokens must be positive when capability enforcement is enabled")
    ++ codexModelErrors capability (i + 1) models
  end.

(** The messages Validate joins; no message means the configuration is valid. *)
Definition ValidateErrors (c : Config) : list string :=
  let capURL := trim_space (CapabilityAPIURL c) in
  let capToken := trim_space (CapabilityAPIToken c) in
  let capTokenEnv := trim_space (CapabilityAPITokenEnv c) in
  when (trim_space (AuthToken c) =? "")%string "auth_token or auth_token_env is required"
  ++ when (trim_space (UpstreamURL c) =? "")%string "upstream_url is required"
  ++ when (is_nil (cfg_AllowedModels c)) "allowed_models must not be empty"
  ++ (if codexConfigured c then
        when (trim_space (CodexAuthToken c) =? "")%string
          "codex_auth_token or codex_auth_token_env is required when codex surface is configured"
        ++ when (is_nil (CodexAllowedModels c))
          "codex_allowed_models must not be empty when codex surface is configured"
        ++ codexModelErrors (capabilityEnabled c) 0 (CodexAllowedModels c)
      else [])
  ++ when (StatePath c =? "")%string "state_path is required"
  ++ when (MaxCallsPerRun c <? 1) "max_calls_per_run must be positive"
  ++ when (MaxTokensPerRun c <? 1) "max_tokens_per_run must be positive"
  ++ when ((MaxRequestBytes c <? 1) || (MaxResponseBytes c <? 1))
       "request and response byte limits must be positive"
  ++ when (negb (capURL =? "")%string && (capToken =? "")%string)
       "capability_api_url requires capability_api_token or capability_api_token_env"
  ++ when ((capURL =? "")%string && (negb (capToken =? "")%string || negb (capTokenEnv =? "")%string))
       "capability_api_token is set without capability_api_url; capability enforcement would not activate"
  ++ when (negb (capURL =? "")%string && negb (has_prefix "http://" capURL)
           && negb (has_prefix "https://" capURL))
       "capability_api_url must be an http(s) URL".

(** ** Requests, upstream answers, outcomes *)

Record ModelCallRequest := { mc_RunID : string; mc_Model : string; mc_Messages : Z; mc_MaxTokens : Z }.
Record openAIResponseRequest := { or_Model : string; or_MaxOutputTokens : Z }.
Record Usage := { PromptTokens : Z; CompletionTokens : Z; TotalTokens : Z }.
Definition no_usage : Usage := {| PromptTokens := 0; CompletionTokens := 0; TotalTokens := 0 |}.

(** A request body: read failure, or its length and decoding. *)
Record text (T : Type) := { t_len : Z; t_json : option T }.
Arguments t_len {T} t.
Arguments t_json {T} t.

(** A /v1/responses body: decoding, and the length of the re-encoded object
    with the model and, if given, max_output_tokens replaced. *)
Record codex_body := {
  cb_text : text openAIResponseRequest; cb_rewritten : string → option Z → option Z }.

Inductive upstream :=
| UpError
| UpStatus (code : Z)
| UpReadError
| UpNotJSON
| UpOK (usage : Usage).

(** One line of an event stream: its length, the usage it carries, and whether
    writing it to the client succeeds. *)
Record sse_line := { ln_len : Z; ln_usage : Usage; ln_written : bool }.

Inductive codex_upstream :=
| CxError
| CxStatus (code : Z)
| CxStream (lines : list sse_line) (eof : bool)
| CxBody (len : Z) (usage : Usage).

Record auditEvent := {
  a_RunID : string; a_Model : string; a_Endpoint : string; a_Decision : string;
  a_Tokens : Z; a_Error : string }.

Record upstream_request := { u_endpoint : string; u_model : string; u_max_tokens : option Z }.

Record outcome := {
  o_status : Z; o_error : string; o_audit : list auditEvent; o_sent : list upstream_request }.

Definition refuse (st : Z) (error : string) (audit : list auditEvent) : outcome :=
  {| o_status := st; o_error := error; o_audit := audit; o_sent := [] |}.
Definition answered (st : Z) (error : string) (audit : list auditEvent) (sent : upstream_request)
    : outcome := {| o_status := st; o_error := error; o_audit := audit; o_sent := [sent] |}.

Definition deny (run model endpoint : string) (tokens : Z) (error : string) : auditEvent :=
  {| a_RunID := run; a_Model := model; a_Endpoint := endpoint; a_Decision := "deny";
     a_Tokens := tokens; a_Error := error |}.
Definition allow (run model endpoint : string) (tokens : Z) : auditEvent :=
  {| a_RunID := run; a_Model := model; a_Endpoint := endpoint; a_Decision := "allow";
     a_Tokens := tokens; a_Error := "" |}.

(** ** Helpers *)

Definition bearer_token (authorization : string) : string := trim_prefix "Bearer " authorization.

Definition authOK (c : Config) (authorization : string) : bool :=
  let got := bearer_token authorization in
  negb (got =? "")%string && (got =? AuthToken c)%string.

Definition codexAuthOK (c : Config) (authorization : string) : bool :=
  let got := bearer_token authorization in
  negb (got =? "")%string && (got =? CodexAuthToken c)%string.

Fixpoint contains (items : list string) (want : string) : bool :=
  match items with
  | [] => false
  | item :: items => if (item =? want)%string then true else contains items want
  end.

Definition validateCall (c : Config) (i : ModelCallRequest) : result string unit :=
  fail_if (mc_RunID i =? "")%string with "run_id is required" ;;
  fail_if negb (contains (cfg_AllowedModels c) (mc_Model i)) with "model is not allowed" ;;
  fail_if mc_Messages i =? 0 with "messages are required" ;;
  Ok ().

Definition codexModel (c : Config) (name : string) : result string CodexModelConfig :=
  fail_if (trim_space name =? "")%string with "model is required" ;;
  match List.find (λ m, Name m =? name)%string (CodexAllowedModels c) with
  | Some m => Ok m
  | None => Err "model is not allowed"
  end.

Definition codexUpstreamModel (c : Config) (name : string) : result string string :=
  m ← codexModel c name; Ok (UpstreamModel m).

(** [readLimited] on a body of a given length. *)
Definition over_limit (len limit : Z) : bool := limit <? len.

Definition mergeUsage (current next : Usage) : Usage :=
  {| PromptTokens := if PromptTokens next =? 0 then PromptTokens current else PromptTokens next;
     CompletionTokens := if CompletionTokens next =? 0 then CompletionTokens current
                         else CompletionTokens next;
     TotalTokens := if TotalTokens next =? 0 then TotalTokens current else TotalTokens next |}.

(** ** The budget file of the static mode *)

Record runBudget := { b_Calls : Z; b_Tokens : Z }.

Inductive budget_file :=
| Absent
| Corrupt
| Runs (runs : gmap string runBudget).

Definition readBudget (fl : fault) (f : budget_file) : result string (gmap string runBudget) :=
  fail_if fails fl 0 with "read budget" ;;
  match f with
  | Absent => Ok ∅
  | Corrupt => Err "decode budget"
  | Runs runs => Ok runs
  end.

(** JSON object keys are written in sorted order, as valid UTF-8; on reading,
    the last of equal keys wins. *)
Definition key_order : relation (string * runBudget) := λ a b, text_order a.1 b.1.
#[export] Instance key_order_dec : RelDecision key_order.
Proof. intros a b. unfold key_order. apply _. Defined.

Definition encoded (runs : gmap string runBudget) : gmap string runBudget :=
  fold_left (λ m '(k, b), <[coerce k := b]> m) (merge_sort key_order (map_to_list runs)) ∅.

Definition writeBudget (fl : fault) (f : budget_file) (runs : gmap string runBudget)
    : budget_file * result string unit :=
  if fails fl 1 || fails fl 2 || fails fl 3 then (f, Err "write budget")
  else (Runs (encoded runs), Ok ()).

Definition budget_of (runs : gmap string runBudget) (run : string) : runBudget :=
  default {| b_Calls := 0; b_Tokens := 0 |} (runs !! run).

Definition reserveCall (c : Config) (fl : fault) (f : budget_file) (run : string)
    : budget_file * result string unit :=
  match readBudget fl f with
  | Err e => (f, Err e)
  | Ok runs =>
    let rb := budget_of runs run in
    if MaxCallsPerRun c <=? b_Calls rb then (f, Err "model call budget exhausted")
    else writeBudget fl f
           (<[run := {| b_Calls := wrap64 (b_Calls rb + 1); b_Tokens := b_Tokens rb |}]> runs)
  end.

Definition reserveTokens (c : Config) (fl : fault) (f : budget_file) (run : string) (tokens : Z)
    : budget_file * result string unit :=
  if tokens <=? 0 then (f, Ok ()) else
  match readBudget fl f with
  | Err e => (f, Err e)
  | Ok runs =>
    let rb := budget_of runs run in
    if MaxTokensPerRun c <? wrap64 (b_Tokens rb + tokens)
    then (f, Err "model token budget exhausted")
    else writeBudget fl f
           (<[run := {| b_Calls := b_Calls rb; b_Tokens := wrap64 (b_Tokens rb + tokens) |}]> runs)
  end.

(** ** Handlers of the static mode

    Two faults: of the call reservation and of the token reservation. *)

Section Static.
Variable c : Config.

Definition handleModelCall_static (fl1 fl2 : fault) (f : budget_file) (authorization : string)
    (body : text ModelCallRequest) (up : upstream) : budget_file * outcome :=
  if negb (authOK c authorization) then (f, refuse 401 "unauthorized" []) else
  match t_json body with
  | None => (f, refuse 400 "invalid_json" [])
  | Some i =>
    match validateCall c i with
    | Err e => (f, refuse 403 "policy_denied" [deny (mc_RunID i) (mc_Model i) "" 0 e])
    | Ok _ =>
      match reserveCall c fl1 f (mc_RunID i) with
      | (f, Err e) => (f, refuse 429 "budget_exhausted" [deny (mc_RunID i) (mc_Model i) "" 0 e])
      | (f, Ok _) =>
        let sent := {| u_endpoint := "/chat/completions"; u_model := mc_Model i;
                       u_max_tokens := if 0 <? mc_MaxTokens i then Some (mc_MaxTokens i) else None |} in
        let upstream_error e :=
          (f, answered 502 "upstream_error" [deny (mc_RunID i) (mc_Model i) "" 0 e] sent) in
        match up with
        | UpError => upstream_error "upstream request failed"
        | UpReadError => upstream_error "read upstream response"
        | UpStatus st => upstream_error ("upstream status " +:+ pretty st)
        | UpNotJSON => upstream_error "decode upstream response"
        | UpOK usage =>
          match reserveTokens c fl2 f (mc_RunID i) (TotalTokens usage) with
          | (f, Err e) =>
            (f, answered 429 "budget_exhausted"
                  [deny (mc_RunID i) (mc_Model i) "" (TotalTokens usage) e] sent)
          | (f, Ok _) =>
            (f, answered 200 "" [allow (mc_RunID i) (mc_Model i) "" (TotalTokens usage)] sent)
          end
        end
      end
    end
  end.

(** The copy loop shared by the two streaming functions: the usage it saw, or
    the audit error it stopped with. *)
Fixpoint stream_lines (lines : list sse_line) (eof : bool) (write_error stream_error : string)
    (total : Z) (usage : Usage) : Usage * option string :=
  match lines with
  | [] => (usage, if eof then None else Some stream_error)
  | ln :: lines =>
    let total := wrap64 (total + ln_len ln) in
    if MaxResponseBytes c <? total then (usage, Some "upstream response exceeded byte limit") else
    let usage := mergeUsage usage (ln_usage ln) in
    if negb (ln_written ln) then (usage, Some write_error)
    else stream_lines lines eof write_error stream_error total usage
  end.

Definition streamCodexResponse (fl : fault) (f : budget_file) (run model endpoint : string)
    (lines : list sse_line) (eof : bool) : budget_file * auditEvent :=
  match stream_lines lines eof "write error" "stream error" 0 no_usage with
  | (usage, Some e) => (f, deny run model endpoint (TotalTokens usage) e)
  | (usage, None) =>
    match reserveTokens c fl f run (TotalTokens usage) with
    | (f, Err e) => (f, deny run model endpoint (TotalTokens usage) e)
    | (f, Ok _) => (f, allow run model endpoint (TotalTokens usage))
    end
  end.

Definition auditEndpoint := "/v1/responses".
Definition upstreamEndpoint := "/responses".

Definition handleCodexResponses_static (fl1 fl2 : fault) (f : budget_file)
    (authorization run_header : string) (body : option codex_body) (up : codex_upstream)
    : budget_file * outcome :=
  if negb (codexAuthOK c authorization) then (f, refuse 401 "unauthorized" []) else
  let run := trim_space run_header in
  if (run =? "")%string then (f, refuse 400 "missing_run_id" []) else
  let denied model st code e := refuse st code [deny run model auditEndpoint 0 e] in
  match body with
  | None => (f, denied "" 413 "request_too_large" "read request")
  | Some b =>
    if over_limit (t_len (cb_text b)) (MaxRequestBytes c)
    then (f, denied "" 413 "request_too_large" "body exceeds byte limit") else
    match t_json (cb_text b) with
    | None => (f, denied "" 400 "invalid_json" "decode request")
    | Some i =>
      let model := or_Model i in
      match codexUpstreamModel c model with
      | Err e => (f, denied model 403 "policy_denied" e)
      | Ok upstreamModel =>
        match cb_rewritten b upstreamModel None with
        | None => (f, denied model 400 "invalid_json" "rewrite request")
        | Some _ =>
          match reserveCall c fl1 f run with
          | (f, Err e) => (f, denied model 429 "budget_exhausted" e)
          | (f, Ok _) =>
            let sent := {| u_endpoint := upstreamEndpoint; u_model := upstreamModel;
                           u_max_tokens := if or_MaxOutputTokens i =? 0 then None
                                           else Some (or_MaxOutputTokens i) |} in
            let failed st code tokens e :=
              answered st code [deny run model auditEndpoint tokens e] sent in
            match up with
            | CxError => (f, failed 502 "upstream_error" 0 "upstream request failed")
            | CxStatus st => (f, failed 502 "upstream_error" 0 ("upstream status " +:+ pretty st))
            | CxStream lines eof =>
              let p := streamCodexResponse fl2 f run model auditEndpoint lines eof in
              (p.1, answered 200 "" [p.2] sent)
            | CxBody len usage =>
              if over_limit len (MaxResponseBytes c)
              then (f, failed 502 "upstream_response_too_large" 0 "body exceeds byte limit") else
              match reserveTokens c fl2 f run (TotalTokens usage) with
              | (f, Err e) => (f, failed 429 "budget_exhausted" (TotalTokens usage) e)
              | (f, Ok _) => (f, answered 200 "" [allow run model auditEndpoint (TotalTokens usage)] sent)
              end
            end
          end
        end
      end
    end
  end.

End Static.

(** ** The capability API, as the proxy relies on it *)

Class CapabilityAPI (S E : Type) := {
  api_verify : E → S → string → result cap_client_error capClaims;
  api_reserve : E → S → string → string → Z → Z → S * result cap_client_error Reservation }.

(** The account behind a handle: what is used and what is granted. *)
Record account := { used_calls : Z; used_tokens : Z; max_calls : Z; max_tokens : Z }.

(** Usage only grows, never past the grant, and a reservation the client sees
    succeed is on the account. *)
Class CapabilityAPILaws (S E : Type) `{CapabilityAPI S E} := {
  api_inv : S → Prop;
  api_account : S → string → option account;
  api_within s h a : api_inv s → api_account s h = Some a →
    used_calls a ≤ max_calls a ∧ used_tokens a ≤ max_tokens a;
  api_reserve_inv e s h model calls tokens :
    api_inv s → api_inv (api_reserve e s h model calls tokens).1;
  api_reserve_grows e s h h' model calls tokens a :
    api_inv s → api_account s h' = Some a →
    ∃ a', api_account (api_reserve e s h model calls tokens).1 h' = Some a' ∧
      max_calls a' = max_calls a ∧ max_tokens a' = max_tokens a ∧
      used_calls a ≤ used_calls a' ∧ used_tokens a ≤ used_tokens a';
  api_reserve_ok e s h model calls tokens s' r :
    api_inv s → api_reserve e s h model calls tokens = (s', Ok r) →
    ∃ a a', api_account s h = Some a ∧ api_account s' h = Some a' ∧
      used_calls a' = used_calls a + calls ∧ used_tokens a' = used_tokens a + tokens }.

(** ** Handlers of the capability mode *)

(** capStatus and capAuditError of internal/proxy/capability_enforce.go *)
Definition capStatus (e : cap_client_error) : Z * string :=
  match e with
  | errCapMissing => (401, "capability_required")
  | errCapIdentityMismatch => (403, "run_id_mismatch")
  | errCapUnavailable => (503, "capability_unavailable")
  | errCapDenied => (403, "capability_denied")
  end.
Definition capAuditError (e : cap_client_error) : string := (capStatus e).2.

Definition bearerHandle (authorization : string) : string :=
  if negb (has_prefix "Bearer " authorization) then ""
  else trim_space (trim_prefix "Bearer " authorization).

Definition preflightTokenBound (requestBytes maxOutputTokens : Z) : Z * bool :=
  if (requestBytes <=? 0) || (maxOutputTokens <=? 0) then (0, false)
  else if wrap64 (max_int64 - maxOutputTokens) <? requestBytes then (0, false)
  else (wrap64 (requestBytes + maxOutputTokens), true).

Section Capability.
Context {St Env : Type} `{CapabilityAPI St Env}.
Variable c : Config.

(** Two environments: of the verify call and of the reserve call. *)
Definition authenticateCapability (e : Env) (s : St) (authorization callerRunID : string)
    : result cap_client_error (capClaims * string) :=
  let handle := bearerHandle authorization in
  fail_if (handle =? "")%string with errCapMissing ;;
  claims ← api_verify e s handle;
  fail_if negb (callerRunID =? "")%string && negb (callerRunID =? cc_RunID claims)%string
    with errCapIdentityMismatch ;;
  Ok (claims, handle).

Definition reserveCapabilityBudget (e : Env) (s : St) (auth : capClaims * string) (model : string)
    (tokens : Z) : St * result cap_client_error unit :=
  if negb (modelEnabled auth.1) || (tokens <=? 0) then (s, Err errCapDenied)
  else if (model =? "")%string || negb (allowsModel auth.1 model) then (s, Err errCapDenied)
  else let p := api_reserve e s auth.2 model 1 tokens in
       (p.1, match p.2 with Ok _ => Ok () | Err e => Err e end).

Definition handleModelCallCapability (e1 e2 : Env) (s : St) (authorization : string)
    (body : option (text ModelCallRequest)) (up : upstream) : St * outcome :=
  match body with
  | None => (s, refuse 413 "request_too_large" [])
  | Some b =>
    if over_limit (t_len b) (MaxRequestBytes c) then (s, refuse 413 "request_too_large" []) else
    match t_json b with
    | None => (s, refuse 400 "invalid_json" [])
    | Some i =>
      match authenticateCapability e1 s authorization (mc_RunID i) with
      | Err e =>
        (s, refuse (capStatus e).1 (capStatus e).2 [deny "" (mc_Model i) "" 0 (capAuditError e)])
      | Ok auth =>
        let runID := cc_RunID auth.1 in
        let model := mc_Model i in
        if mc_Messages i =? 0
        then (s, refuse 400 "messages_required" [deny runID model "" 0 "messages_required"]) else
        let '(tokenBound, ok) := preflightTokenBound (t_len b) (mc_MaxTokens i) in
        if negb ok
        then (s, refuse 400 "max_tokens_required" [deny runID model "" 0 "max_tokens_required"]) else
        match reserveCapabilityBudget e2 s auth model tokenBound with
        | (s, Err e) =>
          (s, refuse (capStatus e).1 (capStatus e).2 [deny runID model "" tokenBound (capAuditError e)])
        | (s, Ok _) =>
          let sent := {| u_endpoint := "/chat/completions"; u_model := model;
                         u_max_tokens := if 0 <? mc_MaxTokens i then Some (mc_MaxTokens i) else None |} in
          (s, match up with
              | UpOK usage => answered 200 "" [allow runID model "" (TotalTokens usage)] sent
              | _ => answered 502 "upstream_error" [deny runID model "" 0 "upstream_error"] sent
              end)
        end
      end
    end
  end.

Definition streamCodexResponseCapability (run model endpoint : string) (lines : list sse_line)
    (eof : bool) : auditEvent :=
  match stream_lines c lines eof "client_write_error" "upstream_stream_error" 0 no_usage with
  | (usage, Some e) => deny run model endpoint (TotalTokens usage) e
  | (usage, None) => allow run model endpoint (TotalTokens usage)
  end.

Definition effectiveMaxOutputTokens (i : openAIResponseRequest) (m : CodexModelConfig) : Z :=
  if or_MaxOutputTokens i =? 0 then MaxOutputTokens m else or_MaxOutputTokens i.

Definition handleCodexResponsesCapability (e1 e2 : Env) (s : St) (authorization run_header : string)
    (body : option codex_body) (up : codex_upstream) : St * outcome :=
  match authenticateCapability e1 s authorization (trim_space run_header) with
  | Err e =>
    (s, refuse (capStatus e).1 (capStatus e).2 [deny "" "" auditEndpoint 0 (capAuditError e)])
  | Ok auth =>
    let run := cc_RunID auth.1 in
    let denied model st code e := refuse st code [deny run model auditEndpoint 0 e] in
    match body with
    | None => (s, denied "" 413 "request_too_large" "request_too_large")
    | Some b =>
      if over_limit (t_len (cb_text b)) (MaxRequestBytes c)
      then (s, denied "" 413 "request_too_large" "request_too_large") else
      match t_json (cb_text b) with
      | None => (s, denied "" 400 "invalid_json" "invalid_json")
      | Some i =>
        let model := or_Model i in
        match codexModel c model with
        | Err _ => (s, denied model 403 "capability_denied" "model_denied")
        | Ok m =>
          let max := effectiveMaxOutputTokens i m in
          match cb_rewritten b (UpstreamModel m) (Some max) with
          | None => (s, denied model 400 "invalid_json" "invalid_json")
          | Some len =>
            let '(tokenBound, ok) := preflightTokenBound len max in
            if negb ok
            then (s, denied model 400 "max_output_tokens_required" "max_output_tokens_required") else
            match reserveCapabilityBudget e2 s auth model tokenBound with
            | (s, Err e) =>
              (s, refuse (capStatus e).1 (capStatus e).2
                    [deny run model auditEndpoint tokenBound (capAuditError e)])
            | (s, Ok _) =>
              let sent := {| u_endpoint := upstreamEndpoint; u_model := UpstreamModel m;
                             u_max_tokens := Some max |} in
              let failed code e := answered 502 code [deny run model auditEndpoint 0 e] sent in
              (s, match up with
                  | CxError => failed "upstream_error" "upstream_error"
                  | CxStatus st => failed "upstream_error" ("upstream status " +:+ pretty st)
                  | CxStream lines eof =>
                    answered 200 "" [streamCodexResponseCapability run model auditEndpoint lines eof] sent
                  | CxBody len usage =>
                    if over_limit len (MaxResponseBytes c)
                    then failed "upstream_response_too_large" "upstream_response_too_large"
                    else answered 200 "" [allow run model auditEndpoint (TotalTokens usage)] sent
                  end)
            end
          end
        end
      end
    end
  end.
End Capability.

(** ** Specification of the capability mode *)

Section CapabilitySpec.
Context {St Env : Type} `{CapabilityAPI St Env}.
Variable c : Config.

Inductive cap_request :=
| RModel (e1 e2 : Env) (authorization : string) (body : option (text ModelCallRequest)) (up : upstream)
| RCodex (e1 e2 : Env) (authorization run_header : string) (body : option codex_body)
    (up : codex_upstream).

Definition run_request (s : St) (r : cap_request) : St * outcome :=
  match r with
  | RModel e1 e2 auth body up => handleModelCallCapability c e1 e2 s auth body up
  | RCodex e1 e2 auth hdr body up => handleCodexResponsesCapability c e1 e2 s auth hdr body up
  end.

Definition request_handle (r : cap_request) : string :=
  match r with RModel _ _ auth _ _ | RCodex _ _ auth _ _ _ => bearerHandle auth end.

(** The model a request names and the tokens it can cost at most: its bytes
    plus the output tokens it allows, in unbounded arithmetic. *)
Definition request_model (r : cap_request) : option string :=
  match r with
  | RModel _ _ _ body _ => b ← body; i ← t_json b; Some (mc_Model i)
  | RCodex _ _ _ _ body _ => b ← body; i ← t_json (cb_text b); Some (or_Model i)
  end.

Definition request_bound (r : cap_request) : option Z :=
  match r with
  | RModel _ _ _ body _ => b ← body; i ← t_json b; Some (t_len b + mc_MaxTokens i)
  | RCodex _ _ _ _ body _ =>
    b ← body; i ← t_json (cb_text b);
    match codexModel c (or_Model i) with
    | Err _ => None
    | Ok m =>
      let max := effectiveMaxOutputTokens i m in
      len ← cb_rewritten b (UpstreamModel m) (Some max); Some (len + max)
    end
  end.

Definition request_run (r : cap_request) : string :=
  match r with
  | RModel _ _ _ body _ => default "" (b ← body; i ← t_json b; Some (mc_RunID i))
  | RCodex _ _ _ hdr _ _ => trim_space hdr
  end.

Definition request_envs (r : cap_request) : Env * Env :=
  match r with RModel e1 e2 _ _ _ | RCodex e1 e2 _ _ _ _ => (e1, e2) end.

(** Output-token limits are Go ints. *)
Definition typed_request (r : cap_request) : Prop :=
  match r with
  | RModel _ _ _ body _ => ∀ b i, body = Some b → t_json b = Some i → mc_MaxTokens i ≤ max_int64
  | RCodex _ _ _ _ body _ =>
    ∀ b i, body = Some b → t_json (cb_text b) = Some i → or_MaxOutputTokens i ≤ max_int64
  end.
Definition typed_config : Prop := Forall (λ m, MaxOutputTokens m ≤ max_int64) (CodexAllowedModels c).

(** What one request does: nothing is sent, and at most one reservation was
    tried; or the reservation of the whole bound succeeded, and one request
    was sent. *)
Inductive effect (s : St) (r : cap_request) : St → outcome → Prop :=
| eff_none o : o_sent o = [] → effect s r s o
| eff_refused model tokens s' o :
    s' = (api_reserve (request_envs r).2 s (request_handle r) model 1 tokens).1 →
    o_sent o = [] → effect s r s' o
| eff_sent claims model bound res s' o u :
    api_verify (request_envs r).1 s (request_handle r) = Ok claims →
    request_handle r ≠ "" → (request_run r = "" ∨ request_run r = cc_RunID claims) →
    request_model r = Some model → request_bound r = Some bound →
    model ≠ "" → model ∈ cc_AllowedModels claims →
    api_reserve (request_envs r).2 s (request_handle r) model 1 bound = (s', Ok res) →
    o_sent o = [u] → effect s r s' o.

Lemma preflight_ok rb mot n : mot ≤ max_int64 →
  preflightTokenBound rb mot = (n, true) → n = rb + mot.
Proof.
  unfold preflightTokenBound. intros Hm E. guards E. bool_hyps.
  assert (int64 (max_int64 - mot)) as Hi by (unfold int64, min_int64, max_int64 in *; lia).
  rewrite (wrap64_id _ Hi) in *. injection E as <-. apply wrap64_id.
  unfold int64, min_int64, max_int64 in *. lia.
Qed.

Lemma listed_spec models m : listed models m = true ↔ m ∈ models.
Proof.
  induction models as [|x models IH]; cbn; [split; [done|by intros ?%elem_of_nil]|].
  rewrite elem_of_cons. destruct (String.eqb_spec x m); intuition congruence.
Qed.

Lemma authenticate_ok e s auth run claims handle :
  authenticateCapability e s auth run = Ok (claims, handle) →
  handle = bearerHandle auth ∧ handle ≠ "" ∧ api_verify e s handle = Ok claims ∧
  (run = "" ∨ run = cc_RunID claims).
Proof.
  unfold authenticateCapability. intros E. peel E. apply bind_ok in E as (cl & Hv & E). peel E.
  injection E as -> <-. bool_hyps. split_and!; try done.
  match goal with Hr : negb _ && negb _ = false |- _ =>
    apply andb_false_iff in Hr as [Hr|Hr]; apply negb_false_iff, String.eqb_eq in Hr; auto end.
Qed.

Lemma reserve_budget_cases e s auth model tokens :
  (∃ err, reserveCapabilityBudget e s auth model tokens = (s, Err err)) ∨
  (∃ err, reserveCapabilityBudget e s auth model tokens =
     ((api_reserve e s auth.2 model 1 tokens).1, Err err)) ∨
  (∃ s' res, reserveCapabilityBudget e s auth model tokens = (s', Ok ()) ∧
     api_reserve e s auth.2 model 1 tokens = (s', Ok res) ∧ model ≠ "" ∧ model ∈ cc_AllowedModels auth.1).
Proof.
  unfold reserveCapabilityBudget.
  destruct (negb (modelEnabled auth.1) || (tokens <=? 0)); [by left; eexists|].
  destruct ((model =? "")%string || negb (allowsModel auth.1 model)) eqn:E2; [by left; eexists|].
  bool_hyps.
  destruct (api_reserve e s auth.2 model 1 tokens) as [s' [res|err]] eqn:E; cbn; right; [right|left].
  - exists s', res. split_and!; try done. by apply listed_spec.
  - by eexists.
Qed.

Lemma handleModelCall_effect s e1 e2 auth body up :
  typed_request (RModel e1 e2 auth body up) →
  let p := run_request s (RModel e1 e2 auth body up) in effect s (RModel e1 e2 auth body up) p.1 p.2.
Proof.
  intros Ht. cbn [run_request]. unfold handleModelCallCapability.
  destruct body as [b|]; [|by apply eff_none].
  destruct (over_limit _ _); [by apply eff_none|].
  destruct (t_json b) as [i|] eqn:Ej; [|by apply eff_none].
  destruct (authenticateCapability e1 s auth (mc_RunID i)) as [[claims handle]|err] eqn:Ea; [|by apply eff_none].
  apply authenticate_ok in Ea as (-> & Hh & Hv & Hrun).
  destruct (mc_Messages i =? 0); [by apply eff_none|].
  destruct (preflightTokenBound (t_len b) (mc_MaxTokens i)) as [n [|]] eqn:Ep; cbn [negb]; [|by apply eff_none].
  apply preflight_ok in Ep; [|by eapply Ht]. subst n.
  destruct (reserve_budget_cases e2 s (claims, bearerHandle auth) (mc_Model i) (t_len b + mc_MaxTokens i))
    as [[err ->]|[[err ->]|(s' & res & -> & Hr & Hm & Hin)]].
  - by apply eff_none.
  - by eapply eff_refused.
  - cbn in Hin, Hr. destruct up; (eapply (eff_sent _ _ claims); [done | done | cbn; by rewrite Ej | cbn; by rewrite Ej
      | cbn; by rewrite Ej | done | done | done | done]).
Qed.

Lemma find_model name m : typed_config → codexModel c name = Ok m → MaxOutputTokens m ≤ max_int64.
Proof.
  unfold codexModel. intros Hc E. peel E. destruct (List.find _ _) as [m'|] eqn:Ef; [|done].
  injection E as ->. apply find_some in Ef as [Hin%list_elem_of_In _].
  unfold typed_config in Hc. rewrite Forall_forall in Hc. by apply Hc.
Qed.

Lemma handleCodex_effect s e1 e2 auth hdr body up :
  typed_config → typed_request (RCodex e1 e2 auth hdr body up) →
  let p := run_request s (RCodex e1 e2 auth hdr body up) in effect s (RCodex e1 e2 auth hdr body up) p.1 p.2.
Proof.
  intros Hc Ht. cbn [run_request]. unfold handleCodexResponsesCapability.
  destruct (authenticateCapability e1 s auth (trim_space hdr)) as [[claims handle]|err] eqn:Ea; [|by apply eff_none].
  apply authenticate_ok in Ea as (-> & Hh & Hv & Hrun).
  destruct body as [b|]; [|by apply eff_none].
  destruct (over_limit _ _); [by apply eff_none|].
  destruct (t_json (cb_text b)) as [i|] eqn:Ej; [|by apply eff_none].
  destruct (codexModel c (or_Model i)) as [m|] eqn:Em; [|by apply eff_none].
  destruct (cb_rewritten b (UpstreamModel m) (Some (effectiveMaxOutputTokens i m))) as [len|] eqn:El; [|by apply eff_none].
  destruct (preflightTokenBound len (effectiveMaxOutputTokens i m)) as [n [|]] eqn:Ep; cbn [negb]; [|by apply eff_none].
  apply preflight_ok in Ep.
  2: { unfold effectiveMaxOutputTokens. case_match; [by eapply find_model | by eapply Ht]. }
  subst n.
  destruct (reserve_budget_cases e2 s (claims, bearerHandle auth) (or_Model i) (len + effectiveMaxOutputTokens i m))
    as [[err ->]|[[err ->]|(s' & res & -> & Hr & Hm & Hin)]].
  - by apply eff_none.
  - by eapply eff_refused.
  - cbn in Hin, Hr.
    assert (request_bound (RCodex e1 e2 auth hdr (Some b) up) = Some (len + effectiveMaxOutputTokens i m)) as Hb.
    { cbn. rewrite Ej. cbn. rewrite Em. cbn. by rewrite El. }
    destruct up as [| | |l u]; [..|destruct (over_limit l (MaxResponseBytes c))];
      (eapply (eff_sent _ _ claims); [done | done | done | cbn; by rewrite Ej | exact Hb | done | done | done | done]).
Qed.

Lemma run_request_effect s r :
  typed_config → typed_request r → effect s r (run_request s r).1 (run_request s r).2.
Proof. destruct r; intros; [by apply handleModelCall_effect | by apply handleCodex_effect]. Qed.

(** ** Accounting over a sequence of requests *)

Definition run_requests (s : St) (rs : list cap_request) : St :=
  fold_left (λ s r, (run_request s r).1) rs s.

(** The calls and tokens that requests sent upstream for handle [h] can cost. *)
Definition spent (h : string) (s : St) (r : cap_request) : Z * Z :=
  if negb (is_nil (o_sent (run_request s r).2)) && (request_handle r =? h)%string
  then (1, default 0 (request_bound r)) else (0, 0).

Fixpoint total_spent (h : string) (s : St) (rs : list cap_request) : Z * Z :=
  match rs with
  | [] => (0, 0)
  | r :: rs => let '(a, b) := spent h s r in
               let '(a', b') := total_spent h (run_request s r).1 rs in (a + a', b + b')
  end.

Context `{!CapabilityAPILaws St Env}.

Lemma run_request_account s r h a :
  typed_config → typed_request r → api_inv s → api_account s h = Some a →
  api_inv (run_request s r).1 ∧
  ∃ a', api_account (run_request s r).1 h = Some a' ∧
    max_calls a' = max_calls a ∧ max_tokens a' = max_tokens a ∧
    used_calls a + (spent h s r).1 ≤ used_calls a' ∧
    used_tokens a + (spent h s r).2 ≤ used_tokens a'.
Proof.
  intros Hc Ht Hs Ha. pose proof (run_request_effect s r Hc Ht) as He. unfold spent.
  destruct (run_request s r) as [s' o] eqn:E; cbn [fst snd] in *.
  destruct He as [o Ho|model tokens s' o -> Ho|claims model bound res s' o u _ _ _ _ Hb _ _ Hr Ho].
  - split; [done|]. exists a. rewrite Ho. cbn. split_and!; try done; lia.
  - split; [by apply api_reserve_inv|].
    destruct (api_reserve_grows (request_envs r).2 s (request_handle r) h model 1 tokens a Hs Ha)
      as (a' & ? & ? & ? & ? & ?). exists a'. rewrite Ho. cbn. split_and!; try done; lia.
  - pose proof (api_reserve_inv (request_envs r).2 s (request_handle r) model 1 bound Hs) as Hi.
    pose proof (api_reserve_grows (request_envs r).2 s (request_handle r) h model 1 bound a Hs Ha)
      as (a' & Ha' & ? & ? & ? & ?). rewrite Hr in Hi, Ha'. cbn [fst] in *. split; [done|].
    exists a'. rewrite Ho, Hb. cbn [is_nil negb andb default]. destruct (String.eqb_spec (request_handle r) h) as [<-|].
    + destruct (api_reserve_ok _ _ _ _ _ _ _ _ Hs Hr) as (a1 & a2 & E1 & E2 & ? & ?). simplify_eq.
      cbn. split_and!; try done; lia.
    + cbn. split_and!; try done; lia.
Qed.

Lemma run_requests_account s rs h a :
  typed_config → Forall typed_request rs → api_inv s → api_account s h = Some a →
  ∃ a', api_account (run_requests s rs) h = Some a' ∧ api_inv (run_requests s rs) ∧
    max_calls a' = max_calls a ∧ max_tokens a' = max_tokens a ∧
    used_calls a + (total_spent h s rs).1 ≤ used_calls a' ∧
    used_tokens a + (total_spent h s rs).2 ≤ used_tokens a'.
Proof.
  intros Hc Ht. revert s a. induction Ht as [|r rs Hr _ IH]; intros s a Hs Ha.
  { exists a. cbn. split_and!; try done; lia. }
  destruct (run_request_account s r h a Hc Hr Hs Ha) as (Hs1 & a1 & Ha1 & ? & ? & ? & ?).
  destruct (IH _ _ Hs1 Ha1) as (a2 & Ha2 & Hi & ? & ? & ? & ?). exists a2.
  change (run_requests s (r :: rs)) with (run_requests (run_request s r).1 rs). cbn [total_spent].
  destruct (spent h s r), (total_spent h (run_request s r).1 rs); cbn [fst snd] in *. split_and!; try done; lia.
Qed.
End CapabilitySpec.

(** ** The capability store behind its REST API implements the interface *)

Section Backend.
Variable sha256_hex : string → string.
Variable token client_token : string.

#[local] Instance store_api : CapabilityAPI table env := {
  api_verify v t handle := client_verify sha256_hex token client_token v t handle;
  api_reserve v t handle model calls tokens :=
    client_reserve sha256_hex token client_token v t handle model calls tokens }.

Definition row_account (r : row) : account :=
  {| used_calls := w_reserved_calls r; used_tokens := w_reserved_tokens r;
     max_calls := w_call_budget r; max_tokens := w_token_budget r |}.

Definition store_account (t : table) (handle : string) : option account :=
  row_account <$> t !! hashHandle sha256_hex (coerce handle).

(** The server's side of a reserve exchange: nothing happens and the answer is
    an error, or it is one [Reserve] with the requested increments. *)
Lemma reserve_server_cases v t auth b :
  let p := ServeHTTP sha256_hex token v t
             {| Http.r_Method := "POST"; Http.r_Path := "/v1/capabilities/reserve";
                Http.r_Authorization := auth; Http.r_Body := b |} in
  (p.1 = t ∧ success p.2 = false) ∨
  ∃ req claims q, as_reserve b = Json req ∧
    q = Reserve sha256_hex (fault2 v) t (rq_Handle req) (reserve_request claims req) (clock2 v) (clock3 v) ∧
    p.1 = q.1 ∧ p.2 = match q.2 with Ok res => cap_respond 200 (Reserved res)
                                   | Err e => writeCapStoreError e end.
Proof.
  assert (∀ e, success (writeCapStoreError e) = false) as He by (by intros [[]|[]| | | | | | |]).
  unfold ServeHTTP. cbn [Http.r_Method Http.r_Path Http.r_Authorization Http.r_Body].
  destruct (token =? "")%string; [by left|]. destruct (bearer_is auth token); [|by left].
  cbn [negb]. change (trim_slashes _) with "reserve". cbn [String.eqb Ascii.eqb Bool.eqb negb].
  unfold handleReserve. destruct (as_reserve b) as [| | |req]; try by left.
  cbn [decodeCapRequest]. destruct (_ || _); [by left|].
  destruct (Verify _ _ _ _ _) as [[claims u]|e]; [|by left; split; [|apply He]].
  right. by eexists req, claims, _.
Qed.

Lemma Reserve_grows fl t h req now now' d r :
  inv t → t !! d = Some r →
  ∃ r', (Reserve sha256_hex fl t h req now now').1 !! d = Some r' ∧
    w_call_budget r' = w_call_budget r ∧ w_token_budget r' = w_token_budget r ∧
    w_reserved_calls r ≤ w_reserved_calls r' ∧ w_reserved_tokens r ≤ w_reserved_tokens r'.
Proof.
  intros Ht Hr. destruct (run_call_row sha256_hex t (CReserve fl h req now now') d r Ht Hr)
    as (r' & Hr' & ? & ? & E1 & E2 & _). exists r'. split_and!; try done.
  all: cbn [granted] in E1, E2; destruct (Reserve sha256_hex fl t h req now now') as [t' [res|e]] eqn:E;
    cbn [snd is_ok andb fst] in E1, E2; [|lia].
  all: destruct Ht; apply Reserve_ok in E as (_ & _ & _ & r0 & m & cl & _ & _ & _ & _ & [_ _ _ Hn _ _ _] & _);
    [|done..]; cbn in Hn; destruct (_ =? _)%string; cbn in *; lia.
Qed.

#[local] Instance store_api_laws : CapabilityAPILaws table env.
Proof.
  refine {| api_inv := inv; api_account := store_account |}.
  - intros t h a [Hw _]. unfold store_account. intros (r & Hr & ->)%fmap_Some.
    destruct (Hw _ _ Hr) as [_ Hwr]. destruct (wr_calls _ Hwr), (wr_tokens _ Hwr). done.
  - intros v t h model calls tokens Ht. cbn. unfold client_reserve, exchange.
    destruct (reserve_server_cases v t ("Bearer " +:+ client_token) (reserve_body {| rq_Handle := h;
      rq_Model := model; rq_Calls := calls; rq_Tokens := tokens |})) as [[E _]|(req & cl & q & _ & -> & E & _)];
      destruct (net v); cbn [fst]; rewrite ?E; try done; by apply Reserve_inv.
  - intros v t h h' model calls tokens a Ht. cbn [api_reserve store_api]. unfold store_account. intros (r & Hr & ->)%fmap_Some.
    assert (∃ r', (client_reserve sha256_hex token client_token v t h model calls tokens).1
        !! hashHandle sha256_hex (coerce h') = Some r' ∧
      w_call_budget r' = w_call_budget r ∧ w_token_budget r' = w_token_budget r ∧
      w_reserved_calls r ≤ w_reserved_calls r' ∧ w_reserved_tokens r ≤ w_reserved_tokens r')
      as (r' & E & ? & ? & ? & ?); [|rewrite E; by exists (row_account r')].
    unfold client_reserve, exchange.
    destruct (reserve_server_cases v t ("Bearer " +:+ client_token) (reserve_body {| rq_Handle := h;
      rq_Model := model; rq_Calls := calls; rq_Tokens := tokens |})) as [[E _]|(req & cl & q & _ & -> & E & _)];
      destruct (net v); cbn [fst]; rewrite ?E; try (exists r; split_and!; try done; lia); by apply Reserve_grows.
  - intros v t h model calls tokens t' res Ht. cbn. unfold client_reserve, exchange, store_account.
    destruct (reserve_server_cases v t ("Bearer " +:+ client_token) (reserve_body {| rq_Handle := h;
      rq_Model := model; rq_Calls := calls; rq_Tokens := tokens |})) as [[_ Hf]|(req & cl & q & Hb & -> & E & Er)].
    { destruct (net v); cbn; [|done|done]. rewrite Hf. by case_match. }
    destruct (net v); cbn; [|done|done]. rewrite Er, E.
    destruct (Reserve _ _ _ _ _ _ _) as [t1 [res1|e]] eqn:ER; cbn.
    2: { by destruct e as [[]|[]| | | | | | |]. }
    intros [= <- <-]. destruct Ht as [Hw Hty].
    apply Reserve_ok in ER as (_ & _ & _ & r0 & m & c0 & Hr0 & _ & _ & _ & _ & -> & ->); [|done..].
    unfold reserve_body, sent in Hb. cbn [as_reserve] in Hb.
    destruct (maxRequestBytes <? text_len _); [done|]. injection Hb as <-. cbn [rq_Handle rq_Calls rq_Tokens] in *.
    rewrite Hr0, lookup_insert_eq. do 2 eexists. split_and!; reflexivity.
Defined.
End Backend.

(** ** The static mode's accounting *)

Lemma fold_insert_coerce l m0 :
  NoDup l.*1 → (∀ k b, (k, b) ∈ l → coerce k = k) →
  fold_left (λ (m : gmap string runBudget) '(k, b), <[coerce k := b]> m) l m0 = list_to_map l ∪ m0.
Proof.
  revert m0. induction l as [|[k b] l IH]; intros m0; cbn; [by rewrite (left_id_L ∅ (∪))|].
  intros [Hn Hd]%NoDup_cons Hc. rewrite IH by (try done; intros; eapply Hc; by right).
  rewrite (Hc k b) by (by left). rewrite <-insert_union_r by (by apply not_elem_of_list_to_map_1).
  apply insert_union_l.
Qed.

Lemma encoded_valid runs :
  (∀ k, is_Some (runs !! k) → valid_utf8 k = true) → encoded runs = runs.
Proof.
  intros Hv. unfold encoded.
  assert (merge_sort key_order (map_to_list runs) ≡ₚ map_to_list runs) as Hp by apply merge_sort_Permutation.
  rewrite fold_insert_coerce.
  - rewrite (right_id_L ∅ (∪)). rewrite <-(list_to_map_to_list runs) at 2. apply list_to_map_proper; [|done].
    rewrite Hp. apply NoDup_fst_map_to_list.
  - rewrite Hp. apply NoDup_fst_map_to_list.
  - intros k b. rewrite Hp. intros Hk%elem_of_map_to_list. apply coerce_valid, Hv. by exists b.
Qed.

Definition stored (f : budget_file) : gmap string runBudget :=
  match f with Runs runs => runs | _ => ∅ end.

Definition calls_of (f : budget_file) (run : string) : Z := b_Calls (budget_of (stored f) run).

(** Keys are text, counters are ints. *)
Definition good (f : budget_file) : Prop :=
  ∀ k b, stored f !! k = Some b → valid_utf8 k = true ∧ int64 (b_Calls b).

Lemma calls_int64 f run : good f → int64 (calls_of f run).
Proof.
  intros Hf. unfold calls_of, budget_of. destruct (stored f !! run) as [b|] eqn:E; cbn; [by eapply Hf|].
  unfold int64, min_int64, max_int64. lia.
Qed.

Lemma readBudget_stored fl f runs : readBudget fl f = Ok runs → runs = stored f.
Proof. unfold readBudget. intros E. peel E. destruct f; cbn in *; congruence. Qed.

Lemma write_entry fl f run b :
  good f → valid_utf8 run = true → int64 (b_Calls b) →
  writeBudget fl f (<[run := b]> (stored f)) = (f, Err "write budget") ∨
  (writeBudget fl f (<[run := b]> (stored f)) = (Runs (<[run := b]> (stored f)), Ok ()) ∧
   good (Runs (<[run := b]> (stored f)))).
Proof.
  intros Hf Hr Hb. unfold writeBudget. destruct (_ || _); [by left|]. right.
  assert (good (Runs (<[run := b]> (stored f)))) as Hg.
  { intros k b' Hk. cbn in Hk. apply lookup_insert_Some in Hk as [[<- <-]|[_ Hk]]; [done | by eapply Hf]. }
  rewrite encoded_valid; [done|]. intros k [b' Hk]. by eapply (Hg k b').
Qed.

Lemma calls_insert f run b run' :
  calls_of (Runs (<[run := b]> (stored f))) run' =
    if decide (run = run') then b_Calls b else calls_of f run'.
Proof.
  unfold calls_of, budget_of. cbn [stored]. case_decide as E; [subst; by rewrite lookup_insert_eq|].
  by rewrite lookup_insert_ne.
Qed.

Section StaticSpec.
Variable c : Config.
Hypothesis max_calls_int64 : MaxCallsPerRun c ≤ max_int64.

Lemma reserveCall_cases fl f run :
  good f → valid_utf8 run = true →
  (∃ e, reserveCall c fl f run = (f, Err e)) ∨
  ∃ f', reserveCall c fl f run = (f', Ok ()) ∧ good f' ∧ calls_of f run < MaxCallsPerRun c ∧
    ∀ run', calls_of f' run' = calls_of f run' + (if decide (run = run') then 1 else 0).
Proof.
  intros Hf Hr. unfold reserveCall. destruct (readBudget fl f) as [runs|e] eqn:Er; [|by left; eexists].
  apply readBudget_stored in Er as ->. destruct (Z.leb_spec (MaxCallsPerRun c) (b_Calls (budget_of (stored f) run)));
    [by left; eexists|].
  pose proof (calls_int64 f run Hf) as Hi. unfold calls_of in Hi.
  assert (wrap64 (b_Calls (budget_of (stored f) run) + 1) = b_Calls (budget_of (stored f) run) + 1) as Hw.
  { apply wrap64_id. unfold int64 in *. lia. }
  destruct (write_entry fl f run {| b_Calls := wrap64 (b_Calls (budget_of (stored f) run) + 1);
    b_Tokens := b_Tokens (budget_of (stored f) run) |} Hf Hr) as [-> | [-> Hg]];
    [cbn; auto with go | by left; eexists|].
  right. eexists. split_and!; [done|done|done|]. intros run'. rewrite calls_insert. cbn [b_Calls]. rewrite Hw.
  case_decide as E; [subst; unfold calls_of; lia | lia].
Qed.

Lemma reserveTokens_cases fl f run tokens :
  good f → valid_utf8 run = true →
  good (reserveTokens c fl f run tokens).1 ∧
  ∀ run', calls_of (reserveTokens c fl f run tokens).1 run' = calls_of f run'.
Proof.
  intros Hf Hr. unfold reserveTokens. destruct (tokens <=? 0); [done|].
  destruct (readBudget fl f) as [runs|e] eqn:Er; [|done]. apply readBudget_stored in Er as ->.
  destruct (_ <? _); [done|].
  destruct (write_entry fl f run {| b_Calls := b_Calls (budget_of (stored f) run);
    b_Tokens := wrap64 (b_Tokens (budget_of (stored f) run) + tokens) |} Hf Hr) as [-> | [-> Hg]];
    [by apply calls_int64 | done | ].
  split; [done|]. intros run'. cbn [fst]. rewrite calls_insert. case_decide; [by subst|done].
Qed.

Inductive static_request :=
| SModel (fl1 fl2 : fault) (authorization : string) (body : text ModelCallRequest) (up : upstream)
| SCodex (fl1 fl2 : fault) (authorization run_header : string) (body : option codex_body)
    (up : codex_upstream).

Definition run_static (f : budget_file) (r : static_request) : budget_file * outcome :=
  match r with
  | SModel fl1 fl2 auth body up => handleModelCall_static c fl1 fl2 f auth body up
  | SCodex fl1 fl2 auth hdr body up => handleCodexResponses_static c fl1 fl2 f auth hdr body up
  end.

(** The run a request names. *)
Definition static_run (r : static_request) : string :=
  match r with
  | SModel _ _ _ body _ => match t_json body with Some i => mc_RunID i | None => "" end
  | SCodex _ _ _ hdr _ _ => trim_space hdr
  end.

Definition counted (f f' : budget_file) (run : string) (o : outcome) : Prop :=
  good f' ∧
  ((o_sent o = [] ∧ ∀ run', calls_of f' run' = calls_of f run') ∨
   (o_sent o ≠ [] ∧ calls_of f run < MaxCallsPerRun c ∧
    ∀ run', calls_of f' run' = calls_of f run' + (if decide (run = run') then 1 else 0))).

Lemma static_step f r :
  good f → valid_utf8 (static_run r) = true →
  counted f (run_static f r).1 (static_run r) (run_static f r).2.
Proof.
  intros Hf Hv. assert (∀ o, o_sent o = [] → counted f f (static_run r) o) as Hno by (by split; [|left]).
  destruct r as [fl1 fl2 auth body up|fl1 fl2 auth hdr body up]; cbn [run_static static_run] in *.
  - unfold handleModelCall_static. destruct (authOK c auth); [|by apply Hno]. cbn [negb].
    destruct (t_json body) as [i|]; [|by apply Hno].
    destruct (validateCall c i); [|by apply Hno].
    destruct (reserveCall_cases fl1 f (mc_RunID i) Hf Hv) as [[e ->]|(f1 & -> & Hg & Hlt & Hc)]; [by apply Hno|].
    destruct up as [| | | |usage]; cbn [fst snd]; try (split; [done|right; by split_and!]).
    destruct (reserveTokens_cases fl2 f1 (mc_RunID i) (TotalTokens usage) Hg Hv) as [Hg2 Hc2].
    destruct (reserveTokens c fl2 f1 (mc_RunID i) (TotalTokens usage)) as [f2 [?|?]]; cbn [fst snd] in *;
      (split; [done|right; split_and!; [done|done|intros; by rewrite Hc2]]).
  - unfold handleCodexResponses_static. destruct (codexAuthOK c auth); [|by apply Hno]. cbn [negb].
    destruct (trim_space hdr =? "")%string; [by apply Hno|].
    destruct body as [b|]; [|by apply Hno]. destruct (over_limit _ _); [by apply Hno|].
    destruct (t_json (cb_text b)) as [i|]; [|by apply Hno].
    destruct (codexUpstreamModel c (or_Model i)) as [m|]; [|by apply Hno].
    destruct (cb_rewritten b m None); [|by apply Hno].
    destruct (reserveCall_cases fl1 f (trim_space hdr) Hf Hv) as [[e ->]|(f1 & -> & Hg & Hlt & Hc)]; [by apply Hno|].
    assert (∀ tokens, good (reserveTokens c fl2 f1 (trim_space hdr) tokens).1 ∧
      ∀ run', calls_of (reserveTokens c fl2 f1 (trim_space hdr) tokens).1 run' =
        calls_of f run' + (if decide (trim_space hdr = run') then 1 else 0)) as Ht.
    { intros tokens. destruct (reserveTokens_cases fl2 f1 (trim_space hdr) tokens Hg Hv) as [? Hc2].
      split; [done|]. intros. by rewrite Hc2. }
    destruct up as [|st|lines eof|len usage]; cbn [fst snd]; try (split; [done|right; by split_and!]).
    + unfold streamCodexResponse. destruct (stream_lines _ _ _ _ _ _ _) as [usage [e|]];
        cbn [fst snd]; [split; [done|right; by split_and!]|].
      destruct (Ht (TotalTokens usage)). destruct (reserveTokens _ _ _ _ _) as [f2 [?|?]]; cbn [fst snd] in *;
        (split; [done|right; by split_and!]).
    + destruct (over_limit _ _); cbn [fst snd]; [split; [done|right; by split_and!]|].
      destruct (Ht (TotalTokens usage)). destruct (reserveTokens _ _ _ _ _) as [f2 [?|?]]; cbn [fst snd] in *;
        (split; [done|right; by split_and!]).
Qed.

(** Requests sent upstream for a run, over a sequence. *)
Fixpoint static_sent (run : string) (f : budget_file) (rs : list static_request) : Z :=
  match rs with
  | [] => 0
  | r :: rs =>
    (if negb (is_nil (o_sent (run_static f r).2)) && (static_run r =? run)%string then 1 else 0)
    + static_sent run (run_static f r).1 rs
  end.

Lemma static_sent_bound run rs f :
  good f → Forall (λ r, valid_utf8 (static_run r) = true) rs →
  static_sent run f rs ≤ Z.max 0 (MaxCallsPerRun c - calls_of f run).
Proof.
  intros Hf Hrs. revert f Hf. induction Hrs as [|r rs Hv _ IH]; intros f Hf; cbn [static_sent]; [lia|].
  destruct (static_step f r Hf Hv) as [Hg [[Ho Hc]|(Ho & Hlt & Hc)]]; specialize (IH _ Hg); rewrite Hc in IH.
  - rewrite Ho. cbn. lia.
  - apply is_nil_false in Ho. rewrite Ho. cbn [negb andb].
    destruct (String.eqb_spec (static_run r) run) as [E|E].
    + rewrite decide_True in IH by done. rewrite E in Hlt. lia.
    + rewrite decide_False in IH by done. lia.
Qed.
End StaticSpec.

Lemma when_nil b msg : when b msg = [] ↔ b = false.
Proof. by destruct b. Qed.

Lemma codexModelErrors_nil capability i models :
  codexModelErrors capability i models = [] → capability = true →
  ∀ m, m ∈ models → 1 ≤ MaxOutputTokens m.
Proof.
  intros H ->. revert i H. induction models as [|x models IH]; intros i; cbn [codexModelErrors].
  - by intros _ m ?%elem_of_nil.
  - rewrite !app_nil, !when_nil. intros (_ & _ & Hx & H) m [->|Hm]%elem_of_cons; [|by eapply IH].
    cbn in Hx. by apply Z.ltb_ge in Hx.
Qed.

(** ** Properties *)

Section Properties.
Context {St Env : Type} `{CapabilityAPILaws St Env}.
Variable c : Config.

(** C1: the proxy cannot authorize an over-budget upstream call.  In
    capability mode, over any sequence of requests, the number of requests sent
    upstream for a handle, and the sum of what they can cost (request bytes
    plus permitted output tokens), stay within what the handle's grant has
    left, whatever callers claim, the network loses, or upstream reports. *)
Theorem upstream_within_grant (s : St) (rs : list (cap_request (Env := Env))) h a
    (Hc : typed_config c) (Hrs : Forall typed_request rs)
    (Hs : api_inv s) (Ha : api_account s h = Some a) :
  let '(calls, tokens) := total_spent c h s rs in
  used_calls a + calls ≤ max_calls a ∧ used_tokens a + tokens ≤ max_tokens a.
Proof.
  destruct (run_requests_account c s rs h a Hc Hrs Hs Ha) as (a' & Ha' & Hi & E1 & E2 & ? & ?).
  destruct (api_within _ _ _ Hi Ha'). destruct (total_spent c h s rs); cbn [fst snd] in *. lia.
Qed.

(** C11: identity and model come from the verified claims.  A request sent
    upstream presented a handle that verified, named no run or the claims' own,
    asked for a model the claims allow, and had its whole bound reserved first. *)
Theorem sent_is_authorized (s : St) (r : cap_request (Env := Env))
    (Hc : typed_config c) (Hr : typed_request r) (Hsent : o_sent (run_request c s r).2 ≠ []) :
  ∃ claims model bound res,
    api_verify (request_envs r).1 s (request_handle r) = Ok claims ∧
    (request_run r = "" ∨ request_run r = cc_RunID claims) ∧
    request_model r = Some model ∧ model ≠ "" ∧ model ∈ cc_AllowedModels claims ∧
    request_bound c r = Some bound ∧
    api_reserve (request_envs r).2 s (request_handle r) model 1 bound = ((run_request c s r).1, Ok res).
Proof.
  destruct (run_request_effect c s r Hc Hr) as [o Ho|m t s' o _ Ho|claims m b res s' o u]; [done|done|].
  by exists claims, m, b, res.
Qed.
End Properties.

(** In static mode no run gets more upstream calls than max_calls_per_run,
    counting those already in the state file, through any sequence of requests
    and file faults, for run ids that are text. *)
Theorem static_calls_bounded c run rs f
    (Hmax : MaxCallsPerRun c ≤ max_int64) (Hf : good f)
    (Hrs : Forall (λ r, valid_utf8 (static_run r) = true) rs) :
  static_sent c run f rs ≤ Z.max 0 (MaxCallsPerRun c - calls_of f run).
Proof. by apply static_sent_bound. Qed.

(** A valid configuration never disables capability enforcement silently:
    any of its settings being present means it is on, and then every codex
    model has a positive output bound to reserve. *)
Theorem Validate_all_or_nothing c (Hv : ValidateErrors c = []) :
  (trim_space (CapabilityAPIURL c) ≠ "" ∨ trim_space (CapabilityAPIToken c) ≠ "" ∨
   trim_space (CapabilityAPITokenEnv c) ≠ "" → capabilityEnabled c = true) ∧
  (capabilityEnabled c = true → ∀ m, m ∈ CodexAllowedModels c → 1 ≤ MaxOutputTokens m).
Proof.
  unfold ValidateErrors in Hv. cbv zeta in Hv. rewrite !app_nil, !when_nil in Hv.
  destruct Hv as (_ & _ & _ & Hcodex & _ & _ & _ & _ & H1 & H2 & _). split.
  - unfold capabilityEnabled. revert H1 H2.
    destruct (String.eqb_spec (trim_space (CapabilityAPIURL c)) ""),
      (String.eqb_spec (trim_space (CapabilityAPIToken c)) ""),
      (String.eqb_spec (trim_space (CapabilityAPITokenEnv c)) ""); cbn; intros; try done; tauto.
  - intros He m Hm. destruct (codexConfigured c) eqn:E.
    + rewrite !app_nil in Hcodex. destruct Hcodex as (_ & _ & Hcm). by eapply codexModelErrors_nil.
    + unfold codexConfigured in E. bool_hyps.
      match goal with En : CodexAllowedModels c = [] |- _ => rewrite En in Hm end. by apply elem_of_nil in Hm.
Qed.

(** ** Concrete instances *)

Definition sample_config : Config :=
  {| Listen := ""; AuthToken := "static"; AuthTokenEnv := ""; CodexAuthToken := "codex";
     CodexAuthTokenEnv := ""; UpstreamURL := "http://up"; UpstreamKey := ""; UpstreamKeyEnv := "";
     CodexUpstreamKey := ""; CodexUpstreamKeyEnv := ""; cfg_AllowedModels := ["gpt"];
     CodexAllowedModels := [{| Name := "gpt"; UpstreamModel := "openai/gpt"; MaxOutputTokens := 30 |}];
     StatePath := "/state"; MaxCallsPerRun := 1; MaxTokensPerRun := 1000; MaxRequestBytes := 100;
     MaxResponseBytes := 100; Timeout := 0; CapabilityAPIURL := "http://broker";
     CapabilityAPIToken := "tok"; CapabilityAPITokenEnv := "" |}.

Definition quiet : env :=
  {| clock1 := 10; clock2 := 11; clock3 := 12; fault1 := None; fault2 := None; net := Delivered |}.
Definition usage5 : Usage := {| PromptTokens := 2; CompletionTokens := 3; TotalTokens := 5 |}.

#[local] Instance sample_api : CapabilityAPI table env := store_api sample_sha "tok" "tok".
#[local] Instance sample_laws : CapabilityAPILaws table env :=
  store_api_laws sample_sha "tok" "tok".

Definition model_request : cap_request (Env := env) :=
  RModel quiet quiet ("Bearer " +:+ the_handle)
    (Some {| t_len := 20; t_json := Some {| mc_RunID := "run-1"; mc_Model := "gpt"; mc_Messages := 1;
                                            mc_MaxTokens := 30 |} |}) (UpOK usage5).
Definition codex_request : cap_request (Env := env) :=
  RCodex quiet quiet ("Bearer " +:+ the_handle) ""
    (Some {| cb_text := {| t_len := 15; t_json := Some {| or_Model := "gpt"; or_MaxOutputTokens := 0 |} |};
             cb_rewritten := λ _ _, Some 20 |}) (CxBody 10 usage5).

Lemma sample_typed : typed_config sample_config ∧ Forall typed_request [model_request; codex_request; codex_request].
Proof.
  split; [repeat constructor; vm_compute; discriminate|].
  repeat constructor; cbn; intros b i [= <-] [= <-]; vm_compute; discriminate.
Qed.

(** The handle's 100 tokens cover two of the three requests, 50 each. *)
Lemma upstream_within_grant_witness :
  total_spent sample_config the_handle issued [model_request; codex_request; codex_request] = (2, 100) ∧
  let '(calls, tokens) :=
    total_spent sample_config the_handle issued [model_request; codex_request; codex_request] in
  0 + calls ≤ 3 ∧ 0 + tokens ≤ 100.
Proof.
  split; [vm_compute; reflexivity|].
  apply (upstream_within_grant sample_config issued [model_request; codex_request; codex_request]
           the_handle (row_account the_row));
    [apply sample_typed | apply sample_typed | apply issued_inv | vm_compute; reflexivity].
Defined.

Lemma sent_is_authorized_witness :
  ∃ claims model bound res,
    api_verify quiet issued the_handle = Ok claims ∧
    ("run-1" = "" ∨ "run-1" = cc_RunID claims) ∧
    Some "gpt" = Some model ∧ model ≠ "" ∧ model ∈ cc_AllowedModels claims ∧
    Some 50 = Some bound ∧
    api_reserve quiet issued the_handle model 1 bound =
      ((run_request sample_config issued model_request).1, Ok res).
Proof.
  apply (sent_is_authorized sample_config issued model_request);
    [apply sample_typed | | vm_compute; discriminate].
  cbn; intros b i [= <-] [= <-]; vm_compute; discriminate.
Defined.

Definition static_call : static_request :=
  SModel None None "Bearer static"
    {| t_len := 20; t_json := Some {| mc_RunID := "r"; mc_Model := "gpt"; mc_Messages := 1; mc_MaxTokens := 0 |} |}
    (UpOK usage5).

Lemma static_calls_bounded_witness :
  static_sent sample_config "r" Absent [static_call; static_call] = 1 ∧
  static_sent sample_config "r" Absent [static_call; static_call] ≤
    Z.max 0 (MaxCallsPerRun sample_config - calls_of Absent "r").
Proof.
  split; [vm_compute; reflexivity|].
  apply (static_calls_bounded sample_config "r" [static_call; static_call] Absent);
    [vm_compute; discriminate | intros k b Hk; discriminate | repeat constructor].
Defined.

Lemma Validate_all_or_nothing_witness :
  (trim_space "http://broker" ≠ "" ∨ trim_space "tok" ≠ "" ∨ trim_space "" ≠ "" →
   capabilityEnabled sample_config = true) ∧
  (capabilityEnabled sample_config = true →
   ∀ m, m ∈ CodexAllowedModels sample_config → 1 ≤ MaxOutputTokens m).
Proof. apply (Validate_all_or_nothing sample_config). vm_compute. reflexivity. Defined.

(** The token counter is an int: a usage near its maximum wraps the sum below
    the limit, and the run's recorded usage becomes negative. *)
Lemma reserveTokens_overflow :
  let f := Runs {[ "r" := {| b_Calls := 1; b_Tokens := 1 |} ]} in
  reserveTokens sample_config None f "r" max_int64 =
    (Runs {[ "r" := {| b_Calls := 1; b_Tokens := min_int64 |} ]}, Ok ()).
Proof. vm_compute. reflexivity. Qed.

(** A run id that is not valid UTF-8 is stored under another key, so its calls
    are never counted against it. *)
Lemma invalid_run_id_uncounted :
  let run := str [255%nat] in
  let f1 := (reserveCall sample_config None Absent run).1 in
  let f2 := (reserveCall sample_config None f1 run).1 in
  MaxCallsPerRun sample_config = 1 ∧
  (reserveCall sample_config None Absent run).2 = Ok () ∧
  (reserveCall sample_config None f1 run).2 = Ok () ∧
  (reserveCall sample_config None f2 run).2 = Ok () ∧ calls_of f2 run = 0.
Proof. vm_compute. split_and!; reflexivity. Qed.
