(* ===== verification/Release.v ===== *)
(** * internal/release: the AgentRelease registry

    [agent_releases] is a list in ascending generation order, with the
    AUTOINCREMENT counter; [release_audit] a list in insertion order.  Each
    operation is one transaction.  [clock k] is the k-th reading of the clock
    an operation takes.  VerifyAndMarkAvailable is two transactions with the
    image acquisition between them, where other operations may run: histories
    take its transactions as separate calls. *)

From S2P Require Import Prelude GoStrings GoTime GoJson Regex.
Open Scope string_scope.
Open Scope list_scope.
Open Scope Z_scope.

(** ** Data *)

Definition StateCandidate := "candidate".
Definition StateVerified := "verified".
Definition StateActive := "active".
Definition StateSuperseded := "superseded".
Definition StateRolledBack := "rolled_back".

Definition OperationPublish := "publish".
Definition OperationVerify := "verify".
Definition OperationAcquire := "acquire".
Definition OperationPromote := "promote".
Definition OperationRollback := "rollback".
Definition OperationEvict := "evict".

Definition digest_re : re := Seq (lit "sha256:") (repeat_re 64 (Cls is_lower_hex)).
Definition digestOnly : re := digest_re.
Definition digestPinnedReference : re :=
  let part := plus (Cls lower_alnum) in
  Seq part (Seq (Star (Seq (Cls (one_of "._-/")) part))
    (Seq (opt (Seq (lit ":") (plus (Cls (word alnum "._-"))))) (Seq (lit "@") digest_re))).
Definition agentTypePattern : re :=
  let part := plus (Cls lower_alnum) in Seq part (Star (Seq (lit "-") part)).

Inductive rel_error :=
| ErrNotFound
| ErrNoActiveRelease
| ErrUnavailable
| ErrNotPromotable
| ErrNotMonotonic
| ErrInvalid (what : string)
| ErrStorage (context : string)
| ErrAcquire (what : string).

Record Provenance := {
  SourceRevision : string; DependencyManifestSHA256 : string; Platform : string;
  PublishedBy : string; PublishedAt : string }.

Record Release := {
  Generation : Z; AgentType : string; ImageReference : string; ImageDigest : string;
  Prov : Provenance; State : string; Available : bool; CreatedAt : time; UpdatedAt : time }.

Record Requirements := { ProvenanceFields : list string; Platforms : list string }.

Record AuditEntry := {
  a_Generation : Z; a_AgentType : string; a_Operation : string; a_Actor : string;
  a_Detail : string; a_RecordedAt : time }.

Record store := { releases : list Release; release_seq : Z; audit_log : list AuditEntry }.
Definition empty_store : store := {| releases := []; release_seq := 0; audit_log := [] |}.

(** ** Helpers *)

(** strings.LastIndex(s, "@"): the text after the last "@". *)
Fixpoint after_last_at (s : string) : option string :=
  match s with
  | EmptyString => None
  | String c s' =>
    match after_last_at s' with
    | Some r => Some r
    | None => if Ascii.eqb c "@" then Some s' else None
    end
  end.

Definition digestOf (reference : string) : result rel_error string :=
  match after_last_at reference with
  | None => Err (ErrInvalid "image reference must be digest-pinned")
  | Some digest =>
    fail_if negb (matches digestOnly digest)
      with ErrInvalid "image digest must be a sha256 digest" ;;
    Ok digest
  end.

Definition set_release (r : Release) (state : string) (available : bool) (now : time) : Release :=
  {| Generation := Generation r; AgentType := AgentType r; ImageReference := ImageReference r;
     ImageDigest := ImageDigest r; Prov := Prov r; State := state; Available := available;
     CreatedAt := CreatedAt r; UpdatedAt := now |}.

(** [UPDATE agent_releases SET ... WHERE generation = ?] *)
Definition update_release (generation : Z) (f : Release → Release) (s : store) : store :=
  {| releases := map (λ r, if Generation r =? generation then f r else r) (releases s);
     release_seq := release_seq s; audit_log := audit_log s |}.

Definition update_state (generation : Z) (state : string) (now : time) : store → store :=
  update_release generation (λ r, set_release r state (Available r) now).

Definition audit (fl : fault) (k : nat) (s : store) (generation : Z)
    (agentType operation actor detail : string) (now : time) : result rel_error store :=
  fail_if fails fl k with ErrStorage "record release audit" ;;
  Ok {| releases := releases s; release_seq := release_seq s;
        audit_log := audit_log s ++
          [{| a_Generation := generation; a_AgentType := agentType; a_Operation := operation;
              a_Actor := actor; a_Detail := detail; a_RecordedAt := now |}] |}.

Definition loadTx (fl : fault) (k : nat) (s : store) (generation : Z) : result rel_error Release :=
  fail_if fails fl k with ErrStorage "scan release" ;;
  match List.find (λ r, Generation r =? generation) (releases s) with
  | Some r => Ok r
  | None => Err ErrNotFound
  end.

Definition is_active (agentType : string) (r : Release) : bool :=
  (AgentType r =? agentType)%string && (State r =? StateActive)%string.

Definition activeTx (fl : fault) (k : nat) (s : store) (agentType : string)
    : result rel_error Release :=
  fail_if fails fl k with ErrStorage "scan release" ;;
  match List.find (is_active agentType) (releases s) with
  | Some r => Ok r
  | None => Err ErrNoActiveRelease
  end.

Definition commit (fl : fault) (k : nat) (context : string) (s : store)
    : result rel_error (store * unit) :=
  fail_if fails fl k with ErrStorage context ;; Ok (s, ()).

(** ** Operations *)

Definition coerce_provenance (p : Provenance) : Provenance :=
  {| SourceRevision := coerce (SourceRevision p);
     DependencyManifestSHA256 := coerce (DependencyManifestSHA256 p);
     Platform := coerce (Platform p); PublishedBy := coerce (PublishedBy p);
     PublishedAt := coerce (PublishedAt p) |}.

Definition PublishCandidate (fl : fault) (clock : nat → time) (s : store)
    (agentType imageReference : string) (provenance : Provenance) (actor : string)
    : store * result rel_error Release :=
  atomically s (
    fail_if negb (matches agentTypePattern agentType) with ErrInvalid "agent type" ;;
    fail_if negb (matches digestPinnedReference imageReference) with ErrInvalid "image reference" ;;
    digest ← digestOf imageReference;
    fail_if (actor =? "")%string with ErrInvalid "publish requires an actor" ;;
    fail_if fails fl 0 with ErrStorage "begin publish" ;;
    fail_if fails fl 1
            || existsb (λ r, (AgentType r =? agentType)%string && (ImageDigest r =? digest)%string)
                 (releases s)
            || (max_int64 <=? release_seq s)
      with ErrStorage "insert release candidate" ;;
    let generation := release_seq s + 1 in
    let row prov := {| Generation := generation; AgentType := agentType;
                       ImageReference := imageReference; ImageDigest := digest; Prov := prov;
                       State := StateCandidate; Available := false; CreatedAt := clock 0%nat;
                       UpdatedAt := clock 0%nat |} in
    let s := {| releases := releases s ++ [row (coerce_provenance provenance)];
                release_seq := generation; audit_log := audit_log s |} in
    s ← audit fl 2 s generation agentType OperationPublish actor imageReference (clock 1%nat);
    p ← commit fl 3 "commit publish" s;
    Ok (p.1, row provenance)).

(** The fields checkRequirements knows, in a map literal. *)
Definition present (item : Release) (field : string) : option string :=
  if (field =? "source_revision")%string then Some (SourceRevision (Prov item))
  else if (field =? "dependency_manifest_sha256")%string
       then Some (DependencyManifestSHA256 (Prov item))
  else if (field =? "platform")%string then Some (Platform (Prov item))
  else if (field =? "image_digest")%string then Some (ImageDigest item)
  else None.

Fixpoint checkFields (item : Release) (fields : list string) : result rel_error unit :=
  match fields with
  | [] => Ok ()
  | field :: fields =>
    match present item field with
    | None => Err (ErrInvalid "unknown required provenance field")
    | Some value =>
      fail_if (value =? "")%string with ErrInvalid "missing required provenance field" ;;
      checkFields item fields
    end
  end.

Definition checkRequirements (item : Release) (requirements : Requirements)
    : result rel_error unit :=
  _ ← checkFields item (ProvenanceFields requirements);
  fail_if negb (is_nil (Platforms requirements))
          && negb (existsb (λ p, p =? Platform (Prov item))%string (Platforms requirements))
    with ErrInvalid "release platform" ;;
  Ok ().

Definition verify (fl : fault) (clock : nat → time) (s : store) (generation : Z)
    (requirements : Requirements) (actor : string) : store * result rel_error unit :=
  atomically s (
    fail_if (actor =? "")%string with ErrInvalid "verify requires an actor" ;;
    fail_if fails fl 0 with ErrStorage "begin verify" ;;
    item ← loadTx fl 1 s generation;
    fail_if negb (State item =? StateCandidate)%string && negb (State item =? StateVerified)%string
      with ErrNotPromotable ;;
    _ ← checkRequirements item requirements;
    fail_if fails fl 2 with ErrStorage "mark release verified" ;;
    let s := update_state generation StateVerified (clock 0%nat) s in
    s ← audit fl 3 s generation (AgentType item) OperationVerify actor (ImageDigest item) (clock 1%nat);
    commit fl 4 "commit verify" s).

Definition markAvailable (fl : fault) (clock : nat → time) (s : store) (generation : Z)
    (available : bool) (actor : string) : store * result rel_error unit :=
  atomically s (
    fail_if (actor =? "")%string with ErrInvalid "availability change requires an actor" ;;
    fail_if fails fl 0 with ErrStorage "begin availability update" ;;
    item ← loadTx fl 1 s generation;
    let operation := if available then OperationAcquire else OperationEvict in
    fail_if fails fl 2 with ErrStorage "update release availability" ;;
    let s := update_release generation
               (λ r, set_release r (State r) available (clock 0%nat)) s in
    s ← audit fl 3 s generation (AgentType item) operation actor (ImageDigest item) (clock 1%nat);
    commit fl 4 "commit availability update" s).

(** [acquire] is the caller's function; the three faults are those of the two
    transactions and of the read between them. *)
Definition VerifyAndMarkAvailable (fl1 fl2 fl3 : fault) (clock1 clock2 : nat → time) (s : store)
    (generation : Z) (requirements : Requirements) (verifier acquirer : string)
    (acquire : Release → result rel_error unit) : store * result rel_error unit :=
  match verify fl1 clock1 s generation requirements verifier with
  | (s, Err e) => (s, Err e)
  | (s, Ok _) =>
    match loadTx fl2 0 s generation with
    | Err e => (s, Err e)
    | Ok item =>
      match acquire item with
      | Err e => (s, Err e)
      | Ok _ => markAvailable fl3 clock2 s generation true acquirer
      end
    end
  end.

Definition Promote (fl : fault) (clock : nat → time) (s : store) (generation : Z) (actor : string)
    : store * result rel_error unit :=
  atomically s (
    fail_if (actor =? "")%string with ErrInvalid "promote requires an actor" ;;
    fail_if fails fl 0 with ErrStorage "begin promote" ;;
    item ← loadTx fl 1 s generation;
    fail_if negb (State item =? StateVerified)%string with ErrNotPromotable ;;
    fail_if negb (Available item) with ErrUnavailable ;;
    s ← match activeTx fl 2 s (AgentType item) with
        | Err ErrNoActiveRelease => Ok s
        | Err e => Err e
        | Ok active =>
          fail_if generation <=? Generation active with ErrNotMonotonic ;;
          fail_if fails fl 3 with ErrStorage "supersede previous release" ;;
          Ok (update_state (Generation active) StateSuperseded (clock 0%nat) s)
        end;
    fail_if fails fl 4 with ErrStorage "activate release" ;;
    let s := update_state generation StateActive (clock 1%nat) s in
    s ← audit fl 5 s generation (AgentType item) OperationPromote actor (ImageDigest item) (clock 2%nat);
    commit fl 6 "commit promote" s).

Definition Rollback (fl : fault) (clock : nat → time) (s : store) (agentType : string)
    (generation : Z) (actor : string) : store * result rel_error unit :=
  atomically s (
    fail_if (actor =? "")%string with ErrInvalid "rollback requires an actor" ;;
    fail_if fails fl 0 with ErrStorage "begin rollback" ;;
    item ← loadTx fl 1 s generation;
    fail_if negb (AgentType item =? agentType)%string with ErrInvalid "belongs to another agent type" ;;
    fail_if negb (Available item) with ErrUnavailable ;;
    fail_if negb (State item =? StateSuperseded)%string && negb (State item =? StateRolledBack)%string
            && negb (State item =? StateVerified)%string with ErrNotPromotable ;;
    s ← match activeTx fl 2 s agentType with
        | Err ErrNoActiveRelease => Ok s
        | Err e => Err e
        | Ok active =>
          fail_if fails fl 3 with ErrStorage "retire rolled-back release" ;;
          Ok (update_state (Generation active) StateRolledBack (clock 0%nat) s)
        end;
    fail_if fails fl 4 with ErrStorage "activate rollback target" ;;
    let s := update_state generation StateActive (clock 1%nat) s in
    s ← audit fl 5 s generation agentType OperationRollback actor (ImageDigest item) (clock 2%nat);
    commit fl 6 "commit rollback" s).

(** ** Queries *)

Definition Active (fl : fault) (s : store) (agentType : string) : result rel_error Release :=
  activeTx fl 0 s agentType.

Definition Resolve (fl : fault) (s : store) (agentType : string) : result rel_error Release :=
  item ← Active fl s agentType;
  fail_if negb (Available item) with ErrUnavailable ;;
  Ok item.

Definition Get (fl : fault) (s : store) (generation : Z) : result rel_error Release :=
  loadTx fl 0 s generation.

Definition type_order : relation Release := λ a b, text_order (AgentType a) (AgentType b).
#[export] Instance type_order_dec : RelDecision type_order.
Proof. intros a b. unfold type_order. apply _. Defined.

Definition ActiveReleases (fl : fault) (s : store) : result rel_error (list Release) :=
  fail_if fails fl 0 with ErrStorage "list active releases" ;;
  Ok (merge_sort type_order (filter (λ r, State r =? StateActive)%string (releases s))).

Definition AuditTrail (fl : fault) (s : store) (generation : Z) : result rel_error (list AuditEntry) :=
  fail_if fails fl 0 with ErrStorage "read release audit" ;;
  Ok (filter (λ e, a_Generation e =? generation) (audit_log s)).

(** ** Reconcile

    [check] answers per call of the function: the k-th question gets
    [check k reference digest]. *)

Record ReconcileResult := {
  rr_AgentType : string; rr_Generation : Z; rr_ImageReference : string; rr_ImageDigest : string }.

Definition missing_entry (r : Release) : ReconcileResult :=
  {| rr_AgentType := AgentType r; rr_Generation := Generation r;
     rr_ImageReference := ImageReference r; rr_ImageDigest := ImageDigest r |}.

Section Reconcile.
Variable check : nat → string → string → result rel_error bool.
Variable fl : nat → fault.
Variable clock : nat → nat → time.
Variable actor : string.

Fixpoint mark_changed (k : nat) (s : store) (items : list Release) (missing : list ReconcileResult)
    : store * nat * result rel_error (list ReconcileResult) :=
  match items with
  | [] => (s, k, Ok missing)
  | item :: items =>
    match check k (ImageReference item) (ImageDigest item) with
    | Err e => (s, k, Err e)
    | Ok available =>
      if Bool.eqb available (Available item) then mark_changed (S k) s items missing
      else match markAvailable (fl (S k)) (clock k) s (Generation item) available actor with
           | (s, Err e) => (s, k, Err e)
           | (s, Ok _) =>
             mark_changed (S k) s items
               (if available then missing else missing ++ [missing_entry item])
           end
    end
  end.

Fixpoint report_unavailable (k : nat) (items : list Release) (missing : list ReconcileResult)
    : result rel_error (list ReconcileResult) :=
  match items with
  | [] => Ok missing
  | item :: items =>
    if Available item then report_unavailable k items missing
    else if existsb (λ m, rr_Generation m =? Generation item) missing
    then report_unavailable k items missing
    else match check k (ImageReference item) (ImageDigest item) with
         | Err e => Err e
         | Ok available =>
           report_unavailable (S k) items
             (if available then missing else missing ++ [missing_entry item])
         end
  end.

Definition Reconcile (s : store) : store * result rel_error (list ReconcileResult) :=
  if (actor =? "")%string then (s, Err (ErrInvalid "reconcile requires an actor")) else
  match ActiveReleases (fl 0) s with
  | Err e => (s, Err e)
  | Ok items =>
    match mark_changed 0 s items [] with
    | (s, _, Err e) => (s, Err e)
    | (s, k, Ok missing) => (s, report_unavailable k items missing)
    end
  end.
End Reconcile.

(** ** Histories: the transactions, in any order and with any faults *)

Inductive call :=
| LPublish (fl : fault) (clock : nat → time) (agentType imageReference : string)
    (provenance : Provenance) (actor : string)
| LVerify (fl : fault) (clock : nat → time) (generation : Z) (requirements : Requirements)
    (actor : string)
| LMark (fl : fault) (clock : nat → time) (generation : Z) (available : bool) (actor : string)
| LPromote (fl : fault) (clock : nat → time) (generation : Z) (actor : string)
| LRollback (fl : fault) (clock : nat → time) (agentType : string) (generation : Z) (actor : string).

Definition run_call (s : store) (c : call) : store :=
  match c with
  | LPublish fl clock t ref prov actor => (PublishCandidate fl clock s t ref prov actor).1
  | LVerify fl clock g req actor => (verify fl clock s g req actor).1
  | LMark fl clock g av actor => (markAvailable fl clock s g av actor).1
  | LPromote fl clock g actor => (Promote fl clock s g actor).1
  | LRollback fl clock t g actor => (Rollback fl clock s t g actor).1
  end.

Definition run (s : store) (cs : list call) : store := fold_left run_call cs s.

Definition call_actor (c : call) : string :=
  match c with
  | LPublish _ _ _ _ _ actor | LVerify _ _ _ _ actor | LMark _ _ _ _ actor
  | LPromote _ _ _ actor | LRollback _ _ _ _ actor => actor
  end.

(** ** Specification *)

Definition verified_in (log : list AuditEntry) (generation : Z) : Prop :=
  ∃ e, e ∈ log ∧ a_Generation e = generation ∧ a_Operation e = OperationVerify.

Record wf (s : store) : Prop := {
  wf_generations : NoDup (map Generation (releases s)) ∧
                   Forall (λ r, Generation r ≤ release_seq s) (releases s);
  wf_digests : NoDup (map (λ r, (AgentType r, ImageDigest r)) (releases s));
  wf_references : Forall (λ r, matches digestPinnedReference (ImageReference r) = true ∧
                               digestOf (ImageReference r) = Ok (ImageDigest r)) (releases s);
  wf_one_active : ∀ r r', r ∈ releases s → r' ∈ releases s → State r = StateActive →
                    State r' = StateActive → AgentType r = AgentType r' → r = r';
  wf_verified : ∀ r, r ∈ releases s → State r ≠ StateCandidate →
                  verified_in (audit_log s) (Generation r) }.

(** ** Lemmas: what a successful operation does *)

Definition log (s : store) (generation : Z) (t operation actor detail : string) (now : time) : store :=
  {| releases := releases s; release_seq := release_seq s;
     audit_log := audit_log s ++
       [{| a_Generation := generation; a_AgentType := t; a_Operation := operation;
           a_Actor := actor; a_Detail := detail; a_RecordedAt := now |}] |}.

Lemma audit_ok fl k s g t op actor d now s' :
  audit fl k s g t op actor d now = Ok s' → s' = log s g t op actor d now.
Proof. unfold audit. intros E. peel E. by injection E as <-. Qed.

Lemma commit_ok fl k ctx s s' u : commit fl k ctx s = Ok (s', u) → s' = s.
Proof. unfold commit. intros E. peel E. by injection E as <-. Qed.

Lemma loadTx_ok fl k s g r :
  loadTx fl k s g = Ok r → r ∈ releases s ∧ Generation r = g.
Proof.
  unfold loadTx. intros E. peel E. destruct (List.find _ _) as [r'|] eqn:Ef; [|done].
  injection E as ->. apply find_some in Ef as [Hin%list_elem_of_In Hg]. split; [done|]. by apply Z.eqb_eq.
Qed.

Definition found_active (s : store) (t : string) : option Release :=
  List.find (is_active t) (releases s).

Lemma found_active_some s t r : found_active s t = Some r → r ∈ releases s ∧ AgentType r = t ∧ State r = StateActive.
Proof.
  intros [Hin%list_elem_of_In Ha]%find_some. unfold is_active in Ha. bool_hyps. done.
Qed.

Lemma found_active_none s t r :
  found_active s t = None → r ∈ releases s → AgentType r = t → State r ≠ StateActive.
Proof.
  intros Hn Hin%list_elem_of_In Ht Ha. eapply find_none in Hn; [|done]. unfold is_active in Hn.
  by rewrite Ht, Ha, !String.eqb_refl in Hn.
Qed.

(** The two updates of Promote and Rollback. *)
Definition demote (old : option Release) (state : string) (now : time) (r : Release) : Release :=
  match old with
  | Some a => if Generation r =? Generation a then set_release r state (Available r) now else r
  | None => r
  end.

Definition activate (generation : Z) (now : time) (r : Release) : Release :=
  if Generation r =? generation then set_release r StateActive (Available r) now else r.

Definition switched (s : store) (t : string) (generation : Z) (state : string) (now1 now2 : time) : store :=
  {| releases := map (λ r, activate generation now2 (demote (found_active s t) state now1 r)) (releases s);
     release_seq := release_seq s; audit_log := audit_log s |}.


Definition row_of (s : store) (clock : nat → time) (t ref digest : string) (prov : Provenance) : Release :=
  {| Generation := release_seq s + 1; AgentType := t; ImageReference := ref; ImageDigest := digest;
     Prov := prov; State := StateCandidate; Available := false; CreatedAt := clock 0%nat;
     UpdatedAt := clock 0%nat |}.

Lemma PublishCandidate_ok fl clock s t ref prov actor s' r :
  PublishCandidate fl clock s t ref prov actor = (s', Ok r) →
  ∃ digest, matches agentTypePattern t = true ∧ matches digestPinnedReference ref = true ∧
    digestOf ref = Ok digest ∧ actor ≠ "" ∧
    (∀ x, x ∈ releases s → ¬ (AgentType x = t ∧ ImageDigest x = digest)) ∧
    r = row_of s clock t ref digest prov ∧
    s' = log {| releases := releases s ++ [row_of s clock t ref digest (coerce_provenance prov)];
                release_seq := release_seq s + 1; audit_log := audit_log s |}
           (release_seq s + 1) t OperationPublish actor ref (clock 1%nat).
Proof.
  unfold PublishCandidate. intros E%atomically_ok. peel E. apply bind_ok in E as (digest & Hd & E).
  peel E. apply bind_ok in E as (s1 & ->%audit_ok & E). apply bind_ok in E as ([s2 u] & ->%commit_ok & E).
  injection E as <- <-. bool_hyps. exists digest. split_and!; try done.
  intros x Hx [Ht Hg]. match goal with He : existsb _ _ = false |- _ => rename He into Hex end.
  assert (existsb (λ r, (AgentType r =? t)%string && (ImageDigest r =? digest)%string) (releases s) = true); [|congruence].
  apply existsb_elem_of. exists x. by rewrite Ht, Hg, !String.eqb_refl.
Qed.

Lemma verify_ok fl clock s g req actor s' :
  verify fl clock s g req actor = (s', Ok ()) →
  ∃ item, item ∈ releases s ∧ Generation item = g ∧ actor ≠ "" ∧
    (State item = StateCandidate ∨ State item = StateVerified) ∧ checkRequirements item req = Ok () ∧
    s' = log (update_state g StateVerified (clock 0%nat) s) g (AgentType item) OperationVerify actor
           (ImageDigest item) (clock 1%nat).
Proof.
  unfold verify. intros E%atomically_ok. peel E. apply bind_ok in E as (item & Hi%loadTx_ok & E).
  peel E. apply bind_ok in E as ([] & Hreq & E). peel E.
  apply bind_ok in E as (s1 & ->%audit_ok & E). apply commit_ok in E as ->. bool_hyps.
  destruct Hi. exists item. split_and!; try done.
  match goal with Hr : negb _ && negb _ = false |- _ =>
    apply andb_false_iff in Hr as [Hr|Hr]; apply negb_false_iff, String.eqb_eq in Hr; auto end.
Qed.

Lemma markAvailable_ok fl clock s g av actor s' :
  markAvailable fl clock s g av actor = (s', Ok ()) →
  ∃ item, item ∈ releases s ∧ Generation item = g ∧ actor ≠ "" ∧
    s' = log (update_release g (λ r, set_release r (State r) av (clock 0%nat)) s) g (AgentType item)
           (if av then OperationAcquire else OperationEvict) actor (ImageDigest item) (clock 1%nat).
Proof.
  unfold markAvailable. intros E%atomically_ok. peel E. apply bind_ok in E as (item & [? ?]%loadTx_ok & E).
  peel E. apply bind_ok in E as (s1 & ->%audit_ok & E). apply commit_ok in E as ->. bool_hyps. by exists item.
Qed.

Lemma Promote_ok fl clock s g actor s' :
  Promote fl clock s g actor = (s', Ok ()) →
  ∃ item, item ∈ releases s ∧ Generation item = g ∧ actor ≠ "" ∧ State item = StateVerified ∧
    Available item = true ∧ (∀ a, found_active s (AgentType item) = Some a → Generation a < g) ∧
    s' = log (switched s (AgentType item) g StateSuperseded (clock 0%nat) (clock 1%nat)) g (AgentType item)
           OperationPromote actor (ImageDigest item) (clock 2%nat).
Proof.
  unfold Promote. intros E%atomically_ok. peel E. apply bind_ok in E as (item & [? ?]%loadTx_ok & E).
  peel E. apply bind_ok in E as (s0 & Hsw & E). peel E.
  apply bind_ok in E as (s1 & ->%audit_ok & E). apply commit_ok in E as ->. bool_hyps.
  exists item. split_and!; try done.
  - intros a Ha. unfold activeTx in Hsw. fold (found_active s (AgentType item)) in Hsw. rewrite Ha in Hsw.
    destruct (fails fl 2); [done|]. peel Hsw. bool_hyps. lia.
  - f_equal. symmetry. unfold activeTx in Hsw. destruct (fails fl 2); [done|].
    unfold switched, update_state, update_release, found_active.
    destruct (List.find (is_active (AgentType item)) (releases s)) as [a|]; peel Hsw; injection Hsw as <-; cbn;
      [by rewrite map_map | done].
Qed.

Lemma Rollback_ok fl clock s t g actor s' :
  Rollback fl clock s t g actor = (s', Ok ()) →
  ∃ item, item ∈ releases s ∧ Generation item = g ∧ actor ≠ "" ∧ AgentType item = t ∧
    (State item = StateSuperseded ∨ State item = StateRolledBack ∨ State item = StateVerified) ∧
    Available item = true ∧
    s' = log (switched s t g StateRolledBack (clock 0%nat) (clock 1%nat)) g t
           OperationRollback actor (ImageDigest item) (clock 2%nat).
Proof.
  unfold Rollback. intros E%atomically_ok. peel E. apply bind_ok in E as (item & [? ?]%loadTx_ok & E).
  peel E. apply bind_ok in E as (s0 & Hsw & E). peel E.
  apply bind_ok in E as (s1 & ->%audit_ok & E). apply commit_ok in E as ->. bool_hyps.
  exists item. split_and!; try done.
  - match goal with Hr : negb _ && negb _ && negb _ = false |- _ =>
      apply andb_false_iff in Hr as [Hr|Hr]; [apply andb_false_iff in Hr as [Hr|Hr]|];
      apply negb_false_iff, String.eqb_eq in Hr; auto end.
  - f_equal. symmetry. unfold activeTx in Hsw. destruct (fails fl 2); [done|].
    unfold switched, update_state, update_release, found_active.
    destruct (List.find (is_active t) (releases s)) as [a|]; peel Hsw; injection Hsw as <-; cbn;
      [by rewrite map_map | done].
Qed.

(** ** Lemmas: the invariant *)

Lemma same_generation s r r' :
  wf s → r ∈ releases s → r' ∈ releases s → Generation r = Generation r' → r = r'.
Proof. intros Hwf. apply same_key, Hwf. Qed.

(** What identifies a release: no update changes it. *)
Definition identity (r : Release) := (Generation r, AgentType r, ImageReference r, ImageDigest r, Prov r).

Lemma verified_in_app l e g : verified_in l g → verified_in (l ++ [e]) g.
Proof. intros (x & ? & ? & ?). exists x. split; [apply elem_of_app; by left | done]. Qed.

(** An update [g] of the rows, followed by an audit entry [e], keeps the
    invariant if it changes no identity, makes nothing active beside another,
    and moves only audited releases out of the candidate state. *)
Lemma update_wf s f e :
  wf s → (∀ r, identity (f r) = identity r) →
  (∀ r r', r ∈ releases s → r' ∈ releases s → State (f r) = StateActive → State (f r') = StateActive →
     AgentType r = AgentType r' → r = r') →
  (∀ r, r ∈ releases s → State r = StateCandidate → State (f r) ≠ StateCandidate →
     a_Generation e = Generation r ∧ a_Operation e = OperationVerify) →
  wf {| releases := map f (releases s); release_seq := release_seq s; audit_log := audit_log s ++ [e] |}.
Proof.
  intros [[H1 H1'] H2 H3 H4 H5] Hid Hact Hver.
  assert (∀ r, Generation (f r) = Generation r ∧ AgentType (f r) = AgentType r ∧
    ImageReference (f r) = ImageReference r ∧ ImageDigest (f r) = ImageDigest r) as Hf.
  { intros r. specialize (Hid r). unfold identity in Hid. by simplify_eq. }
  split; cbn [releases release_seq audit_log].
  - split.
    + rewrite map_map. by rewrite (map_ext _ Generation) by apply Hf.
    + apply Forall_forall. intros x (r & -> & Hr)%list_elem_of_fmap. rewrite Forall_forall in H1'.
      destruct (Hf r) as (-> & _). by apply H1'.
  - rewrite map_map. rewrite (map_ext _ (λ r, (AgentType r, ImageDigest r))); [done|].
    intros r. by destruct (Hf r) as (_ & -> & _ & ->).
  - apply Forall_forall. intros x (r & -> & Hr)%list_elem_of_fmap. rewrite Forall_forall in H3.
    destruct (Hf r) as (_ & _ & -> & ->). by apply H3.
  - intros x x' (r & -> & Hr)%list_elem_of_fmap (r' & -> & Hr')%list_elem_of_fmap Ha Ha' Ht.
    destruct (Hf r) as (_ & E & _), (Hf r') as (_ & E' & _). f_equal. apply Hact; congruence.
  - intros x (r & -> & Hr)%list_elem_of_fmap Hs. destruct (Hf r) as (-> & _).
    destruct (decide (State r = StateCandidate)) as [Hc|Hc]; [|by apply verified_in_app, H5].
    destruct (Hver r Hr Hc Hs). exists e. split; [apply elem_of_app; right; by left | done].
Qed.

Lemma switched_identity s t g state now1 now2 r :
  identity (activate g now2 (demote (found_active s t) state now1 r)) = identity r.
Proof.
  unfold activate, demote. destruct (found_active s t); repeat case_match; done.
Qed.

Lemma demote_generation old state now r : Generation (demote old state now r) = Generation r.
Proof. unfold demote. destruct old; [by case_match | done]. Qed.

Lemma switched_state s t g state now1 now2 r :
  State (activate g now2 (demote (found_active s t) state now1 r)) =
    if Generation r =? g then StateActive
    else match found_active s t with
         | Some a => if Generation r =? Generation a then state else State r
         | None => State r
         end.
Proof.
  unfold activate. rewrite demote_generation. destruct (Generation r =? g); [done|].
  unfold demote. destruct (found_active s t); [by case_match | done].
Qed.

Lemma switched_wf s t g item state now1 now2 op actor d now3 :
  wf s → item ∈ releases s → Generation item = g → AgentType item = t → State item ≠ StateCandidate →
  state ≠ StateActive → state ≠ StateCandidate →
  wf (log (switched s t g state now1 now2) g t op actor d now3).
Proof.
  intros Hwf Hin Hg Ht Hic Hs Hsc. unfold log, switched. cbn [releases release_seq audit_log].
  assert (∀ r, r ∈ releases s → AgentType r = t → Generation r ≠ g →
    State (activate g now2 (demote (found_active s t) state now1 r)) ≠ StateActive) as Hno.
  { intros r Hr Htr Hgr. rewrite switched_state, (proj2 (Z.eqb_neq _ _) Hgr).
    destruct (found_active s t) as [a|] eqn:Ea; [|by apply (found_active_none _ _ _ Ea)].
    destruct (Z.eqb_spec (Generation r) (Generation a)) as [|Hne]; [done|].
    intros Har. apply Hne. apply found_active_some in Ea as (Hina & Hta & Hsa).
    f_equal. apply (wf_one_active _ Hwf); [done..|congruence]. }
  apply update_wf; [done | by intros; apply switched_identity | |].
  - intros r r' Hr Hr' Ha Ha' Htt. destruct (decide (AgentType r = t)) as [E|E].
    + apply (same_generation s); [done..|].
      destruct (decide (Generation r = g)) as [E1|E1], (decide (Generation r' = g)) as [E2|E2]; try congruence.
      * exfalso. apply (Hno r'); congruence.
      * exfalso. by apply (Hno r).
      * exfalso. by apply (Hno r).
    + assert (∀ x, x ∈ releases s → AgentType x ≠ t →
        State (activate g now2 (demote (found_active s t) state now1 x)) = State x) as Hsame.
      { intros x Hx Hxt. rewrite switched_state. destruct (Z.eqb_spec (Generation x) g) as [Eg|_].
        { exfalso. apply Hxt. rewrite <-Ht. f_equal. apply (same_generation s); congruence. }
        destruct (found_active s t) as [a|] eqn:Ea; [|done].
        destruct (Z.eqb_spec (Generation x) (Generation a)) as [Eg|_]; [|done].
        exfalso. apply found_active_some in Ea as (Hina & Hta & _). apply Hxt. rewrite <-Hta. f_equal.
        by apply (same_generation s). }
      rewrite Hsame in Ha by done. rewrite Hsame in Ha' by congruence. by apply (wf_one_active _ Hwf).
  - intros r Hr Hc Hn. exfalso. rewrite switched_state in Hn.
    destruct (Z.eqb_spec (Generation r) g) as [Eg|_].
    + apply Hic. rewrite <-Hc. f_equal. apply (same_generation s); congruence.
    + destruct (found_active s t) as [a|] eqn:Ea; [|done].
      destruct (Z.eqb_spec (Generation r) (Generation a)) as [Eg|_]; [|done].
      apply found_active_some in Ea as (Hina & _ & Hsa). rewrite (same_generation s r a Hwf Hr Hina Eg) in Hc.
      by rewrite Hsa in Hc.
Qed.

Lemma simple_update_wf s g f e :
  wf s → (∀ r, identity (f r) = identity r) → (∀ r, State (f r) = StateActive → State r = StateActive) →
  (∀ r, r ∈ releases s → Generation r = g → State r = StateCandidate → State (f r) ≠ StateCandidate →
     a_Generation e = Generation r ∧ a_Operation e = OperationVerify) →
  wf {| releases := map (λ r, if Generation r =? g then f r else r) (releases s);
        release_seq := release_seq s; audit_log := audit_log s ++ [e] |}.
Proof.
  intros Hwf Hid Hact Hver. apply update_wf; [done| | |].
  - intros r. by case_match.
  - intros r r' Hr Hr' Ha Ha' Ht. apply (wf_one_active _ Hwf); [done..| | |done]; repeat case_match; auto.
  - intros r Hr Hc Hn. destruct (Z.eqb_spec (Generation r) g) as [E|E]; [by apply Hver | done].
Qed.

Lemma publish_wf s clock t ref prov digest actor now :
  wf s → matches digestPinnedReference ref = true → digestOf ref = Ok digest →
  (∀ x, x ∈ releases s → ¬ (AgentType x = t ∧ ImageDigest x = digest)) →
  wf (log {| releases := releases s ++ [row_of s clock t ref digest prov];
             release_seq := release_seq s + 1; audit_log := audit_log s |}
        (release_seq s + 1) t OperationPublish actor ref now).
Proof.
  intros [[H1 H1'] H2 H3 H4 H5] Hm Hd Hu. unfold log. split; cbn [releases release_seq audit_log].
  - split; [rewrite map_app; apply NoDup_app; split; [done|]; split; [|apply NoDup_singleton]|].
    + intros g (r & -> & Hr)%list_elem_of_fmap E%list_elem_of_singleton. cbn in E.
      rewrite Forall_forall in H1'. specialize (H1' _ Hr). lia.
    + apply Forall_app. split; [|constructor; [cbn; lia|constructor]].
      eapply Forall_impl; [exact H1'|]. cbn. intros; lia.
  - rewrite map_app. apply NoDup_app. split; [done|]. split; [|apply NoDup_singleton].
    intros p (r & -> & Hr)%list_elem_of_fmap E%list_elem_of_singleton. cbn in E. injection E as E1 E2.
    by apply (Hu r).
  - apply Forall_app. split; [done|]. by constructor.
  - intros r r' Hr Hr' Ha Ha' Ht.
    apply elem_of_app in Hr as [Hr| ->%list_elem_of_singleton]; [|done].
    apply elem_of_app in Hr' as [Hr'| ->%list_elem_of_singleton]; [|done]. by apply H4.
  - intros r Hr Hn. apply elem_of_app in Hr as [Hr| ->%list_elem_of_singleton]; [|done].
    by apply verified_in_app, H5.
Qed.

(** Every call keeps the invariant, and changes nothing without one audit
    entry naming its actor. *)
Definition audited (s s' : store) (actor : string) : Prop :=
  s' = s ∨ ∃ e, audit_log s' = audit_log s ++ [e] ∧ a_Actor e = actor ∧ actor ≠ "".

Lemma registry_call_step s c : wf s → wf (run_call s c) ∧ audited s (run_call s c) (call_actor c).
Proof.
  intros Hwf.
  destruct c as [fl clock t ref prov actor|fl clock g req actor|fl clock g av actor|fl clock g actor|fl clock t g actor];
    cbn [run_call call_actor].
  - destruct (PublishCandidate fl clock s t ref prov actor) as [s' [r|e]] eqn:E; cbn [fst].
    2: { apply atomically_err in E as [-> _]. split; [done | by left]. }
    apply PublishCandidate_ok in E as (d & _ & Hm & Hd & Hact & Hu & _ & ->).
    split; [by apply publish_wf | right; eexists; split; [done|by split]].
  - destruct (verify fl clock s g req actor) as [s' [[]|e]] eqn:E; cbn [fst].
    2: { apply atomically_err in E as [-> _]. split; [done | by left]. }
    apply verify_ok in E as (item & Hi & Hg & Hact & Hst & _ & ->). split.
    + unfold log, update_state, update_release; cbn [releases release_seq audit_log].
      apply simple_update_wf; [done|done|done|]. intros r Hr Hgr _ _. by rewrite Hgr.
    + right. eexists. split; [done|by split].
  - destruct (markAvailable fl clock s g av actor) as [s' [[]|e]] eqn:E; cbn [fst].
    2: { apply atomically_err in E as [-> _]. split; [done | by left]. }
    apply markAvailable_ok in E as (item & Hi & Hg & Hact & ->). split.
    + unfold log, update_release; cbn [releases release_seq audit_log].
      apply simple_update_wf; [done|done|done|]. intros r _ _ Hc Hn. by cbn in Hn.
    + right. eexists. split; [done|by split].
  - destruct (Promote fl clock s g actor) as [s' [[]|e]] eqn:E; cbn [fst].
    2: { apply atomically_err in E as [-> _]. split; [done | by left]. }
    apply Promote_ok in E as (item & Hi & Hg & Hact & Hst & _ & _ & ->). split.
    + eapply switched_wf; try done. by rewrite Hst.
    + right. eexists. split; [done|by split].
  - destruct (Rollback fl clock s t g actor) as [s' [[]|e]] eqn:E; cbn [fst].
    2: { apply atomically_err in E as [-> _]. split; [done | by left]. }
    apply Rollback_ok in E as (item & Hi & Hg & Hact & Ht & Hst & _ & ->). split.
    + eapply switched_wf; try done. by destruct Hst as [-> | [-> | ->]].
    + right. eexists. split; [done|by split].
Qed.

Lemma registry_empty_wf : wf empty_store.
Proof.
  split; cbn; [split; constructor|constructor|constructor| |].
  - intros r r' H. by apply elem_of_nil in H.
  - intros r H. by apply elem_of_nil in H.
Qed.

Lemma registry_run_wf s cs : wf s → wf (run s cs).
Proof.
  revert s. induction cs as [|c cs IH]; intros s Hs; [done|]. apply IH. by apply registry_call_step.
Qed.

(** ** Lemmas: resolution *)

Lemma Resolve_ok s t r :
  Resolve None s t = Ok r ↔ found_active s t = Some r ∧ Available r = true.
Proof.
  unfold Resolve, Active, activeTx. rewrite fails_none. fold (found_active s t).
  destruct (found_active s t) as [r'|]; cbn; [|by split; [|intros []]].
  destruct (Available r') eqn:E; cbn; split; [by intros [= ->] | by intros [[= ->] _] | done | intros [[= ->] ?]; congruence].
Qed.

Lemma found_active_unique s t r :
  wf s → r ∈ releases s → AgentType r = t → State r = StateActive → found_active s t = Some r.
Proof.
  intros Hwf Hr Ht Ha. destruct (found_active s t) as [r'|] eqn:E.
  - apply found_active_some in E as (? & ? & ?). f_equal. apply (wf_one_active _ Hwf); congruence.
  - by apply (found_active_none _ _ _ E) in Ha.
Qed.

Lemma found_active_map s s' t f :
  releases s' = map f (releases s) → (∀ r, AgentType (f r) = AgentType r) →
  (∀ r, r ∈ releases s → AgentType r = t → f r = r) → found_active s' t = found_active s t.
Proof.
  intros E Ht Hf. unfold found_active. rewrite E. clear E. induction (releases s) as [|r l IH]; cbn; [done|].
  unfold is_active at 1 3. rewrite Ht. destruct (String.eqb_spec (AgentType r) t) as [Er|Er]; cbn.
  - rewrite (Hf r) by (done || by left). destruct (State r =? StateActive)%string; [done|].
    apply IH. intros. apply Hf; [by right|done].
  - apply IH. intros. apply Hf; [by right|done].
Qed.

Lemma switched_other s item g t t' state now1 now2 :
  wf s → item ∈ releases s → Generation item = g → AgentType item = t → t' ≠ t →
  found_active (switched s t g state now1 now2) t' = found_active s t'.
Proof.
  intros Hwf Hi Hg Ht Hne. eapply found_active_map; [done| |].
  - intros r. pose proof (switched_identity s t g state now1 now2 r) as E. unfold identity in E. by simplify_eq.
  - intros r Hr Hrt. unfold activate. rewrite demote_generation.
    destruct (Z.eqb_spec (Generation r) g) as [E|_].
    { exfalso. apply Hne. rewrite <-Hrt, <-Ht. f_equal. apply (same_generation s); congruence. }
    unfold demote. destruct (found_active s t) as [a|] eqn:Ea; [|done].
    destruct (Z.eqb_spec (Generation r) (Generation a)) as [E|_]; [|done].
    apply found_active_some in Ea as (Hia & Hta & _). exfalso. apply Hne. rewrite <-Hrt, <-Hta. f_equal.
    by apply (same_generation s).
Qed.

(** The release a switch activates, as it then stands. *)
Lemma switched_active s item state now1 now2 :
  item ∈ releases s → State item ≠ StateActive →
  ∃ r, r ∈ releases (switched s (AgentType item) (Generation item) state now1 now2) ∧
    identity r = identity item ∧ State r = StateActive ∧ Available r = Available item.
Proof.
  intros Hi Hna.
  exists (activate (Generation item) now2 (demote (found_active s (AgentType item)) state now1 item)).
  split_and!; [apply list_elem_of_fmap; by exists item | apply switched_identity | |].
  - by rewrite switched_state, Z.eqb_refl.
  - unfold activate. rewrite demote_generation, Z.eqb_refl. cbn. unfold demote.
    destruct (found_active _ _); [by case_match | done].
Qed.

(** ** Lemmas: reconciliation *)

Section ReconcileLemmas.
Variable image : string → string → bool.
Variable clock : nat → nat → time.
Variable actor : string.
Hypothesis actor_given : actor ≠ "".

Definition answers (k : nat) (ref digest : string) : result rel_error bool := Ok (image ref digest).
Definition no_faults (k : nat) : fault := None.
Definition present_image (r : Release) : bool := image (ImageReference r) (ImageDigest r).

Lemma markAvailable_complete clk s item av :
  wf s → item ∈ releases s →
  markAvailable None clk s (Generation item) av actor =
    (log (update_release (Generation item) (λ r, set_release r (State r) av (clk 0%nat)) s)
       (Generation item) (AgentType item) (if av then OperationAcquire else OperationEvict) actor
       (ImageDigest item) (clk 1%nat), Ok ()).
Proof.
  intros Hwf Hi. unfold markAvailable. rewrite (proj2 (String.eqb_neq actor "") actor_given), !fails_none.
  unfold loadTx. rewrite fails_none, (find_id Generation _ item); [|apply Hwf|done]. done.
Qed.

(** The rows while reconciling: those of [s0], with the availability of the
    generations in [gens] replaced by the observation. *)
Definition observed (gens : list Z) (r0 r : Release) : Prop :=
  identity r = identity r0 ∧ State r = State r0 ∧
  (if bool_decide (Generation r0 ∈ gens) then Available r = present_image r0 else r = r0).

Definition reconciled (s0 s : store) (gens : list Z) : Prop :=
  wf s ∧ Forall2 (observed gens) (releases s0) (releases s).

Lemma reconciled_row s0 s gens item :
  wf s0 → reconciled s0 s gens → item ∈ releases s0 → Generation item ∉ gens → item ∈ releases s.
Proof.
  intros Hwf0 [Hwf H] Hi Hn. apply list_elem_of_lookup in Hi as [n Hn'].
  destruct (Forall2_lookup_l _ _ _ _ _ H Hn') as (r & Hr & _ & _ & Ho).
  rewrite bool_decide_false in Ho by done. subst. by eapply list_elem_of_lookup_2.
Qed.

Lemma reconciled_same s0 s gens item :
  wf s0 → reconciled s0 s gens → item ∈ releases s0 → Generation item ∉ gens →
  present_image item = Available item → reconciled s0 s (Generation item :: gens).
Proof.
  intros Hwf0 [Hwf H] Hi Hn Hp. split; [done|]. apply Forall2_same_length_lookup in H as [Hl H].
  apply Forall2_same_length_lookup. split; [done|]. intros k r0 r Hr0 Hr.
  destruct (H k r0 r Hr0 Hr) as (Hid & Hst & Ho). split_and!; try done.
  destruct (decide (Generation r0 = Generation item)) as [E|E].
  - rewrite bool_decide_true by (rewrite E; by left).
    assert (r0 = item) as -> by (apply (same_generation s0); [done|by eapply list_elem_of_lookup_2|done|done]).
    rewrite bool_decide_false in Ho by done. by subst.
  - erewrite bool_decide_ext; [exact Ho|]. rewrite elem_of_cons. intuition congruence.
Qed.

Lemma reconciled_mark s0 s gens item now1 now2 op :
  wf s0 → reconciled s0 s gens → item ∈ releases s0 → Generation item ∉ gens →
  reconciled s0 (log (update_release (Generation item)
    (λ r, set_release r (State r) (present_image item) now1) s) (Generation item) (AgentType item) op actor
    (ImageDigest item) now2) (Generation item :: gens).
Proof.
  intros Hwf0 [Hwf H] Hi Hn. split.
  { unfold log, update_release; cbn [releases release_seq audit_log].
    apply simple_update_wf; [done|done|done|]. intros r _ _ Hc Hx. by cbn in Hx. }
  unfold log, update_release; cbn [releases]. apply Forall2_fmap_r.
  apply Forall2_same_length_lookup in H as [Hl H]. apply Forall2_same_length_lookup. split; [done|].
  intros k r0 r Hr0 Hr. destruct (H k r0 r Hr0 Hr) as (Hid & Hst & Ho). cbv beta delta [compose observed].
  assert (Generation r = Generation r0) as Hg by (unfold identity in Hid; by simplify_eq).
  rewrite Hg.
  destruct (Z.eqb_spec (Generation r0) (Generation item)) as [E|E].
  - rewrite bool_decide_true by (rewrite E; by left).
    assert (r0 = item) as -> by (apply (same_generation s0); [done|by eapply list_elem_of_lookup_2|done|done]).
    split_and!; done.
  - split_and!; try done. erewrite bool_decide_ext; [exact Ho|]. rewrite elem_of_cons. intuition congruence.
Qed.

Definition newly_missing (r : Release) : bool := Available r && negb (present_image r).

Lemma mark_changed_spec k s0 s gens items missing :
  wf s0 → reconciled s0 s gens → (∀ i, i ∈ items → i ∈ releases s0 ∧ Generation i ∉ gens) →
  NoDup (map Generation items) →
  ∃ s' k', mark_changed answers no_faults clock actor k s items missing =
      (s', k', Ok (missing ++ map missing_entry (filter newly_missing items))) ∧
    reconciled s0 s' (rev (map Generation items) ++ gens).
Proof.
  revert k s gens missing. induction items as [|item items IH]; intros k s gens missing Hwf0 Hrec Hin Hn.
  { exists s, k. cbn. by rewrite app_nil_r. }
  destruct (Hin item) as [Hi Hg]; [by left|]. cbn [map] in Hn. apply NoDup_cons in Hn as [Hni Hn].
  assert (∀ s', reconciled s0 s' (Generation item :: gens) → ∀ missing, ∃ s2 k',
    mark_changed answers no_faults clock actor (S k) s' items missing =
      (s2, k', Ok (missing ++ map missing_entry (filter newly_missing items))) ∧
    reconciled s0 s2 (rev (map Generation (item :: items)) ++ gens)) as Hrest.
  { intros s' Hs' m. cbn [map rev]. rewrite <-app_assoc. apply IH; try done.
    intros i Hii. destruct (Hin i) as [? Hig]; [by right|]. split; [done|].
    intros [E|?]%elem_of_cons; [|done]. apply Hni. rewrite <-E. by apply list_elem_of_fmap_2. }
  cbn [mark_changed answers]. fold (present_image item).
  destruct (Bool.eqb (present_image item) (Available item)) eqn:Eq.
  - apply eqb_prop in Eq. destruct (Hrest s (reconciled_same _ _ _ _ Hwf0 Hrec Hi Hg Eq) missing) as (s' & k' & E & ?).
    exists s', k'. split; [|done]. rewrite E. rewrite filter_cons_False; [done|].
    unfold newly_missing. rewrite Eq. destruct (Available item); cbn; tauto.
  - apply eqb_false_iff in Eq. unfold no_faults at 1.
    rewrite (markAvailable_complete (clock k) s item); [|apply Hrec|by eapply reconciled_row].
    destruct (Hrest _ (reconciled_mark s0 s gens item (clock k 0%nat) (clock k 1%nat)
      (if present_image item then OperationAcquire else OperationEvict) Hwf0 Hrec Hi Hg)
      (if present_image item then missing else missing ++ [missing_entry item])) as (s' & k' & E & ?).
    exists s', k'. split; [|done]. rewrite E.
    assert ((if present_image item then missing else missing ++ [missing_entry item]) ++
      map missing_entry (filter newly_missing items) =
      missing ++ map missing_entry (filter newly_missing (item :: items))) as ->; [|done].
    destruct (present_image item) eqn:Ep.
    + rewrite filter_cons_False; [done|]. unfold newly_missing. rewrite Ep. destruct (Available item); cbn; tauto.
    + rewrite filter_cons_True; [by rewrite <-app_assoc|]. unfold newly_missing. rewrite Ep.
      destruct (Available item); cbn; [done|congruence].
Qed.

Lemma report_spec all k items missing :
  NoDup (map Generation all) → (∀ i, i ∈ items → i ∈ all) →
  (∀ m, m ∈ missing → ∃ i, i ∈ all ∧ m = missing_entry i) →
  ∃ final, report_unavailable answers k items missing = Ok final ∧
    ∀ m, m ∈ final ↔ m ∈ missing ∨
      ∃ i, i ∈ items ∧ (Available i = false ∧ present_image i = false ∧ m = missing_entry i).
Proof.
  intros Hn. revert k missing. induction items as [|item items IH]; intros k missing Hin Hm.
  { exists missing. split; [done|]. intros m. rewrite elem_exists_nil. tauto. }
  cbn [report_unavailable]. setoid_rewrite elem_exists_cons.
  assert (∀ i, i ∈ items → i ∈ all) as Hin' by (intros; apply Hin; by right).
  destruct (Available item) eqn:Ea.
  { destruct (IH k missing Hin' Hm) as (f & -> & Hf). exists f. split; [done|]. intros m. rewrite Hf.
    split; [tauto|]. intros [?|[(? & _)|?]]; [auto|congruence|auto]. }
  destruct (existsb _ missing) eqn:Ex.
  { destruct (IH k missing Hin' Hm) as (f & -> & Hf). exists f. split; [done|]. intros m. rewrite Hf.
    apply existsb_elem_of in Ex as (m0 & Hm0 & E%Z.eqb_eq). destruct (Hm m0 Hm0) as (i0 & Hi0 & ->). cbn in E.
    assert (i0 = item) as -> by (apply (same_key Generation all); [done|done|apply Hin; by left|done]).
    split; [tauto|]. intros [?|[(_ & _ & ->)|?]]; auto. }
  cbn [answers]. fold (present_image item).
  destruct (present_image item) eqn:Ep.
  { destruct (IH (S k) missing Hin' Hm) as (f & E & Hf). exists f. rewrite E. split; [done|].
    intros m. rewrite Hf. split; [tauto|]. intros [?|[(_ & ? & _)|?]]; [auto|congruence|auto]. }
  destruct (IH (S k) (missing ++ [missing_entry item]) Hin') as (f & E & Hf).
  { intros m [?| ->%list_elem_of_singleton]%elem_of_app; [auto|]. exists item. split; [apply Hin; by left | done]. }
  exists f. rewrite E. split; [done|].
  intros m. rewrite Hf, elem_of_app, list_elem_of_singleton. tauto.
Qed.
End ReconcileLemmas.

(** What a reconciliation without faults does to the row of a release. *)
Definition reconciled_to (image : string → string → bool) (r0 r : Release) : Prop :=
  (State r = StateActive → State r0 = StateActive) ∧
  (State r0 = StateActive → identity r = identity r0 ∧ State r = StateActive ∧
     Available r = image (ImageReference r0) (ImageDigest r0)).

Lemma Reconcile_rows image clock actor s (Hs : wf s) (Ha : actor ≠ "") :
  let items := filter (λ r, State r =? StateActive)%string (releases s) in
  ∃ s' missing,
    Reconcile (answers image) no_faults clock actor s = (s', Ok missing) ∧ wf s' ∧
    Forall2 (reconciled_to image) (releases s) (releases s') ∧
    (∀ m, m ∈ missing ↔ ∃ i, i ∈ items ∧ image (ImageReference i) (ImageDigest i) = false ∧ m = missing_entry i).
Proof.
  intros items. set (sorted := merge_sort type_order items).
  assert (sorted ≡ₚ items) as Hperm by apply merge_sort_Permutation.
  assert (∀ i, i ∈ sorted ↔ i ∈ releases s ∧ State i = StateActive) as Hin.
  { intros i. rewrite Hperm. unfold items. rewrite list_elem_of_filter, Is_true_true, String.eqb_eq. tauto. }
  assert (NoDup (map Generation sorted)) as Hnd.
  { rewrite (Permutation_map Generation Hperm).
    destruct (wf_generations _ Hs) as [Hn _]. apply (sublist_NoDup _ _ Hn), (fmap_sublist Generation), sublist_filter. }
  destruct (mark_changed_spec image clock actor Ha 0 s s [] sorted [] Hs) as (s' & k' & Emark & Hrec & Hobs).
  { split; [done|]. apply Forall_Forall2_diag, Forall_forall. intros r _. by split_and!. }
  { intros i Hi. apply Hin in Hi as [? _]. split; [done|]. by intros ?%elem_of_nil. }
  { done. }
  cbn [app] in Emark. rewrite app_nil_r in Hobs.
  destruct (report_spec image clock actor sorted k' sorted (map missing_entry (filter (newly_missing image) sorted)) Hnd)
    as (missing & Erep & Hmiss).
  { done. }
  { intros m (i & -> & Hi)%list_elem_of_fmap. apply list_elem_of_filter in Hi as [_ Hi]. by exists i. }
  assert (∀ n r0 r, releases s !! n = Some r0 → releases s' !! n = Some r → State r0 = StateActive →
    identity r = identity r0 ∧ State r = StateActive ∧ Available r = image (ImageReference r0) (ImageDigest r0)) as Hrow.
  { intros n r0 r Hr0 Hr Ha0. apply Forall2_same_length_lookup in Hobs as [_ Hobs].
    destruct (Hobs n r0 r Hr0 Hr) as (Hid & Hst & Ho). rewrite bool_decide_true in Ho; [split_and!; [done|congruence|done]|].
    apply list_elem_of_In, in_rev. rewrite rev_involutive. apply list_elem_of_In.
    apply list_elem_of_fmap_2. apply Hin. split; [by eapply list_elem_of_lookup_2 | done]. }
  exists s', missing. split_and!.
  - unfold Reconcile, ActiveReleases. rewrite (proj2 (String.eqb_neq _ _) Ha). unfold no_faults at 1. rewrite fails_none.
    fold items. fold sorted. by rewrite Emark, Erep.
  - done.
  - apply Forall2_same_length_lookup. split; [by eapply Forall2_length|]. intros n r0 r Hr0 Hr.
    split; [|by apply (Hrow n)]. destruct (Forall2_lookup_lr _ _ _ _ _ _ Hobs Hr0 Hr) as (_ & -> & _). done.
  - intros m. rewrite Hmiss. setoid_rewrite <-Hperm. split.
    + intros [(i & -> & Hi)%list_elem_of_fmap|(i & Hi & _ & Hp & ->)]; [|by exists i].
      apply list_elem_of_filter in Hi as [Hnew Hi]. exists i. split_and!; try done.
      apply Is_true_true in Hnew. unfold newly_missing in Hnew. by bool_hyps.
    + intros (i & Hi & Hp & ->). destruct (Available i) eqn:Eav; [left|right; by exists i].
      apply list_elem_of_fmap_2, list_elem_of_filter. split; [|done]. apply Is_true_true.
      unfold newly_missing. rewrite Eav. unfold present_image. by rewrite Hp.
Qed.

(** ** Properties *)

(** C23: however the registry's transactions interleave and fail, an agent type
    has at most one active release, every release is pinned by digest, and
    none leaves the candidate state without an audited verification. *)
Theorem registry_invariant cs :
  let s := run empty_store cs in
  (∀ r r', r ∈ releases s → r' ∈ releases s → State r = StateActive → State r' = StateActive →
     AgentType r = AgentType r' → r = r') ∧
  (∀ r, r ∈ releases s →
     matches digestPinnedReference (ImageReference r) = true ∧
     digestOf (ImageReference r) = Ok (ImageDigest r) ∧
     (State r ≠ StateCandidate → verified_in (audit_log s) (Generation r))).
Proof.
  intros s. pose proof (registry_run_wf empty_store cs registry_empty_wf : wf s) as Hwf. split; [apply Hwf|].
  intros r Hr. pose proof (wf_references _ Hwf) as Href. rewrite Forall_forall in Href.
  destruct (Href r Hr). split_and!; [done..|]. by apply Hwf.
Qed.

(** Promotion moves forward only.  A successful [Promote] activates a
    verified, locally available release, newer than the one that was active;
    its agent type then resolves to it, and every other type to what it did. *)
Theorem Promote_forward fl clock s g actor s' (Hs : wf s)
    (Hp : Promote fl clock s g actor = (s', Ok ())) :
  ∃ item r, item ∈ releases s ∧ Generation item = g ∧ State item = StateVerified ∧
    Available item = true ∧
    (∀ old, Active None s (AgentType item) = Ok old → Generation old < g) ∧
    identity r = identity item ∧ Resolve None s' (AgentType item) = Ok r ∧
    ∀ t, t ≠ AgentType item → Active None s' t = Active None s t.
Proof.
  pose proof (registry_call_step s (LPromote fl clock g actor) Hs) as [Hs' _]. cbn in Hs'. rewrite Hp in Hs'. cbn in Hs'.
  apply Promote_ok in Hp as (item & Hi & Hg & _ & Hst & Hav & Hold & ->).
  destruct (switched_active s item StateSuperseded (clock 0%nat) (clock 1%nat) Hi) as (r & Hr & Hid & Hra & Hrv).
  { by rewrite Hst. }
  rewrite Hg in Hr. exists item, r. split_and!; try done.
  - intros old. unfold Active, activeTx. rewrite fails_none. fold (found_active s (AgentType item)).
    destruct (found_active s (AgentType item)) as [a|]; [|done]. intros [= <-]. by apply Hold.
  - apply Resolve_ok. split; [|congruence]. apply found_active_unique; [done|done| |done].
    unfold identity in Hid. by simplify_eq.
  - intros t Ht. unfold Active, activeTx. rewrite fails_none.
    pose proof (switched_other s item g (AgentType item) t StateSuperseded (clock 0%nat) (clock 1%nat) Hs Hi Hg eq_refl Ht) as E.
    unfold found_active in E. unfold log; cbn [releases]. by rewrite E.
Qed.

(** Reconciliation makes resolution fail closed.  After a fault-free
    [Reconcile] against the images that are really present, an agent type
    resolves exactly to its active release with its image present, and the
    result lists exactly the active releases whose image is absent. *)
Theorem Reconcile_fail_closed image clock actor s (Hs : wf s) (Ha : actor ≠ "") :
  let items := filter (λ r, State r =? StateActive)%string (releases s) in
  ∃ s' missing,
    Reconcile (answers image) no_faults clock actor s = (s', Ok missing) ∧
    (∀ t r, Resolve None s' t = Ok r → image (ImageReference r) (ImageDigest r) = true) ∧
    (∀ i, i ∈ items → (∃ r, Active None s' (AgentType i) = Ok r ∧ identity r = identity i ∧
       Available r = image (ImageReference i) (ImageDigest i))) ∧
    (∀ m, m ∈ missing ↔ ∃ i, i ∈ items ∧ image (ImageReference i) (ImageDigest i) = false ∧ m = missing_entry i).
Proof.
  intros items. destruct (Reconcile_rows image clock actor s Hs Ha) as (s' & missing & E & Hs' & Hrows & Hmiss).
  exists s', missing. split_and!; [done| | |done].
  - intros t r [Hf Hav]%Resolve_ok. apply found_active_some in Hf as (Hr & _ & Hst).
    apply list_elem_of_lookup in Hr as [n Hr].
    destruct (Forall2_lookup_r _ _ _ _ _ Hrows Hr) as (r0 & Hr0 & Hs0 & Hrow).
    destruct (Hrow (Hs0 Hst)) as (Hid & _ & Hi). unfold identity in Hid. congruence.
  - intros i [Hact Hi]%list_elem_of_filter. apply Is_true_true, String.eqb_eq in Hact.
    apply list_elem_of_lookup in Hi as [n Hn].
    destruct (Forall2_lookup_l _ _ _ _ _ Hrows Hn) as (r & Hr & _ & Hrow).
    destruct (Hrow Hact) as (Hid & Hst & Hav). exists r. split_and!; try done.
    unfold Active, activeTx. rewrite fails_none. fold (found_active s' (AgentType i)).
    rewrite (found_active_unique s' (AgentType i) r); [done|done|by eapply list_elem_of_lookup_2| |done].
    unfold identity in Hid. by simplify_eq.
Qed.

(** The audit trail is complete and append-only: a history extends the
    trail, and each transaction either changes nothing or appends exactly one
    entry, naming the actor it was given, who is never empty. *)
Theorem audit_append_only s cs c (Hs : wf s) :
  (∃ entries, audit_log (run s cs) = audit_log s ++ entries) ∧
  (run_call s c = s ∨ ∃ e, audit_log (run_call s c) = audit_log s ++ [e] ∧
     a_Actor e = call_actor c ∧ call_actor c ≠ "").
Proof.
  split; [|by apply registry_call_step]. revert s Hs. induction cs as [|k cs IH]; intros s Hs.
  { exists []. by rewrite app_nil_r. }
  destruct (registry_call_step s k Hs) as [Hs' Ha]. destruct (IH _ Hs') as [es Hes].
  change (run s (k :: cs)) with (run (run_call s k) cs).
  destruct Ha as [E|(e & E & _)]; [by exists es; rewrite Hes, E|].
  exists (e :: es). by rewrite Hes, E, <-app_assoc.
Qed.

(** ** Concrete instances *)

Definition hex64 (c : ascii) : string := String.string_of_list_ascii (replicate 64 c).
Definition ref_a : string := "ghcr.io/org/agent:v1@sha256:" +:+ hex64 "a".
Definition ref_b : string := "ghcr.io/org/agent@sha256:" +:+ hex64 "b".
Definition sample_prov : Provenance :=
  {| SourceRevision := "abc"; DependencyManifestSHA256 := ""; Platform := "linux/amd64";
     PublishedBy := ""; PublishedAt := "" |}.
Definition sample_requirements : Requirements :=
  {| ProvenanceFields := ["source_revision"; "platform"]; Platforms := ["linux/amd64"] |}.
Definition ticks (k : nat) : time := Z.of_nat k.

Example ref_ok : matches digestPinnedReference ref_a = true.
Proof. vm_compute. reflexivity. Qed.
Example ref_tag_only : matches digestPinnedReference "ghcr.io/org/agent:v1" = false.
Proof. vm_compute. reflexivity. Qed.

Definition two_verified : store :=
  run empty_store
    [LPublish None ticks "curator" ref_a sample_prov "publisher";
     LPublish None ticks "curator" ref_b sample_prov "publisher";
     LVerify None ticks 1 sample_requirements "broker"; LMark None ticks 1 true "broker";
     LVerify None ticks 2 sample_requirements "broker"; LMark None ticks 2 true "broker"].
Definition first_active : store := (Promote None ticks two_verified 1 "promoter").1.
Definition second_active : store := (Promote None ticks first_active 2 "promoter").1.

Lemma two_verified_wf : wf two_verified.
Proof. apply registry_run_wf, registry_empty_wf. Qed.
Lemma first_active_wf : wf first_active.
Proof. apply (registry_call_step two_verified (LPromote None ticks 1 "promoter") two_verified_wf). Qed.
Lemma second_active_wf : wf second_active.
Proof. apply (registry_call_step first_active (LPromote None ticks 2 "promoter") first_active_wf). Qed.

(** [Rollback] is documented as a return to an earlier generation; it accepts a
    newer one that was never promoted, which promotion order would reserve to
    [Promote]. *)
Lemma rollback_moves_forward :
  (∃ r, Active None first_active "curator" = Ok r ∧ Generation r = 1) ∧
  (Rollback None ticks first_active "curator" 2 "operator").2 = Ok () ∧
  ∃ r, Resolve None (Rollback None ticks first_active "curator" 2 "operator").1 "curator" = Ok r ∧
    Generation r = 2.
Proof.
  split; [eexists; split; vm_compute; reflexivity|].
  split; [vm_compute; reflexivity|]. eexists; split; vm_compute; reflexivity.
Qed.

Lemma Promote_forward_witness :
  ∃ item r, item ∈ releases first_active ∧ Generation item = 2 ∧ State item = StateVerified ∧
    Available item = true ∧
    (∀ old, Active None first_active (AgentType item) = Ok old → Generation old < 2) ∧
    identity r = identity item ∧ Resolve None second_active (AgentType item) = Ok r ∧
    ∀ t, t ≠ AgentType item → Active None second_active t = Active None first_active t.
Proof.
  apply (Promote_forward None ticks first_active 2 "promoter" second_active);
    [apply first_active_wf | apply run_pair; vm_compute; reflexivity].
Defined.

Lemma Reconcile_fail_closed_witness :
  let image := λ _ digest : string, false in
  Reconcile (answers image) no_faults (λ _, ticks) "broker" second_active =
    ((Reconcile (answers image) no_faults (λ _, ticks) "broker" second_active).1,
     Ok [{| rr_AgentType := "curator"; rr_Generation := 2; rr_ImageReference := ref_b;
            rr_ImageDigest := "sha256:" +:+ hex64 "b" |}]) ∧
  ∃ s' missing,
    Reconcile (answers image) no_faults (λ _, ticks) "broker" second_active = (s', Ok missing) ∧
    (∀ t r, Resolve None s' t = Ok r → false = true) ∧
    (∀ i, i ∈ filter (λ r, State r =? StateActive)%string (releases second_active) →
      ∃ r, Active None s' (AgentType i) = Ok r ∧ identity r = identity i ∧ Available r = false) ∧
    (∀ m, m ∈ missing ↔ ∃ i, i ∈ filter (λ r, State r =? StateActive)%string (releases second_active) ∧
      false = false ∧ m = missing_entry i).
Proof.
  split; [apply run_pair; vm_compute; reflexivity|].
  apply (Reconcile_fail_closed (λ _ _, false) (λ _, ticks) "broker" second_active second_active_wf).
  discriminate.
Defined.

Lemma audit_append_only_witness :
  let c := LPromote None ticks 2 "promoter" in
  (∃ entries, audit_log (run first_active [c]) = audit_log first_active ++ entries) ∧
  (run_call first_active c = first_active ∨ ∃ e, audit_log (run_call first_active c) = audit_log first_active ++ [e] ∧
     a_Actor e = "promoter" ∧ "promoter" ≠ "").
Proof. apply (audit_append_only first_active [LPromote None ticks 2 "promoter"]). apply first_active_wf. Defined.
