(* ===== verification/PushTripwire.v ===== *)
(** * internal/pushtripwire and its HTTP handler: response controls

    A trusted scanner reports findings on pushed commits; the broker records a
    response at most once per idempotency key, halts issuance for a profile
    generation, and asks an adapter to fence a worker session.  The four tables
    of the store are maps keyed by their primary keys.  SHA-256 and the regular
    expressions of the configuration are parameters; the answers of the fence
    adapter, the clock and the database faults are arguments.  An operation
    also returns the list of the fence calls it made. *)

From S2P Require Import Prelude GoStrings GoTime GoJson Regex Http.
Open Scope string_scope.
Open Scope list_scope.
Open Scope Z_scope.

(** ** The wire contract *)

Definition Version := "broker/push-tripwire/v1".

Fixpoint upto (n : nat) (r : re) : re :=
  match n with O => Eps | S n => opt (Seq r (upto n r)) end.
Definition between1 (n : nat) (r : re) : re := Seq r (upto (n - 1) r).

Definition idPattern : re := between1 128 (Cls (word alnum "._:-")).
Definition repoPattern : re :=
  let part := plus (Cls (word lower_alnum "_.-")) in Seq part (Seq (lit "/") part).
Definition refPattern : re := Seq (lit "refs/heads/") (between1 220 (Cls (word alnum "._/-"))).
Definition shaPattern : re := repeat_re 40 (Cls is_lower_hex).
Definition profilePattern : re := between1 128 (Cls (word alnum "._/-")).

Definition zero_sha : string := String.string_of_list_ascii (replicate 40 "0"%char).

Record MaterialRequest := {
  m_Version : string; m_DeliveryID : string; m_Repository : string; m_Ref : string;
  m_Before : string; m_After : string }.

Definition ValidateMaterial (r : MaterialRequest) : bool :=
  negb (negb (m_Version r =? Version)%string || negb (matches idPattern (m_DeliveryID r))
        || negb (matches repoPattern (m_Repository r)) || negb (matches refPattern (m_Ref r))
        || negb (matches shaPattern (m_Before r)) || negb (matches shaPattern (m_After r))
        || (m_After r =? zero_sha)%string).

Definition Authenticate (header secret : string) : bool :=
  if negb (has_prefix "Bearer " header) || (secret =? "")%string then false
  else (trim_prefix "Bearer " header =? secret)%string.

Record Binding := {
  WorkerID : string; LogicalSessionID : string; SessionLineageID : string;
  WorkerStorageLineageID : string; WorkerFenceEpoch : Z }.
#[export] Instance binding_eq_dec : EqDecision Binding.
Proof. solve_decision. Defined.

Record ResponseRequest := {
  r_Version : string; r_FindingID : string; r_DeliveryID : string; r_Repository : string;
  r_Ref : string; r_Before : string; r_After : string; r_Severity : string;
  r_ReasonCode : string; r_FingerprintID : string; r_Profile : string;
  r_ProfileGeneration : Z; r_Binding : option Binding; r_Actions : list string }.

Definition Halt := "halt_issuance".
Definition FenceAction := "fence_worker_session".

(** The loop over the actions; [seen] as a set. *)
Fixpoint validActions (seen : gset string) (actions : list string) : bool :=
  match actions with
  | [] => true
  | a :: actions =>
    if bool_decide (a ∈ seen) || (negb (a =? Halt)%string && negb (a =? FenceAction)%string)
    then false else validActions ({[a]} ∪ seen) actions
  end.

Definition completeBinding (b : option Binding) : bool :=
  match b with
  | None => false
  | Some b =>
    matches idPattern (WorkerID b) && matches idPattern (LogicalSessionID b)
    && matches idPattern (SessionLineageID b) && matches idPattern (WorkerStorageLineageID b)
    && negb (WorkerFenceEpoch b <? 1)
  end.

Definition listed (actions : list string) (a : string) : bool :=
  existsb (λ x, x =? a)%string actions.

Definition ValidateResponse (r : ResponseRequest) : bool :=
  if negb (r_Version r =? Version)%string || negb (matches idPattern (r_FindingID r))
     || negb (matches idPattern (r_DeliveryID r)) || negb (matches repoPattern (r_Repository r))
     || negb (matches refPattern (r_Ref r)) || negb (matches shaPattern (r_Before r))
     || negb (matches shaPattern (r_After r))
     || (negb (r_Severity r =? "high")%string && negb (r_Severity r =? "low")%string)
     || negb (matches idPattern (r_ReasonCode r))
     || (negb (r_FingerprintID r =? "")%string && negb (matches idPattern (r_FingerprintID r)))
     || negb (matches profilePattern (r_Profile r)) || (r_ProfileGeneration r <? 1)
     || (Z.of_nat (length (r_Actions r)) <? 1) || (2 <? Z.of_nat (length (r_Actions r)))
  then false
  else if negb (validActions ∅ (r_Actions r)) then false
  else if listed (r_Actions r) FenceAction then completeBinding (r_Binding r)
  else true.

Record ActionState := { as_Action : string; as_State : string; as_CompletedAt : string }.

Record ResponseResult := {
  rr_Version : string; rr_FindingID : string; rr_IdempotentReplay : bool;
  rr_Actions : list ActionState }.

(** ** The store *)

Record response_row := {
  row_fingerprint : string; row_request : ResponseRequest; row_response : ResponseResult }.

Record store := {
  halts : gmap (string * Z) string;
  catalog : gset (string * Z);
  responses : gmap string response_row;
  fence_requests : gmap string (option Binding * string) }.

Inductive tw_error :=
| ErrKey
| ErrReused
| ErrNotRegistered
| ErrRegistrationUnavailable
| ErrHalted (finding : string)
| ErrCatalog (what : string)
| ErrStorage (context : string).

Definition set_halts (s : store) h : store :=
  {| halts := h; catalog := catalog s; responses := responses s; fence_requests := fence_requests s |}.
Definition set_catalog (s : store) c : store :=
  {| halts := halts s; catalog := c; responses := responses s; fence_requests := fence_requests s |}.
Definition set_responses (s : store) r : store :=
  {| halts := halts s; catalog := catalog s; responses := r; fence_requests := fence_requests s |}.
Definition set_fences (s : store) f : store :=
  {| halts := halts s; catalog := catalog s; responses := responses s; fence_requests := f |}.

(** [INSERT OR IGNORE] *)
Definition insert_or_ignore {K A} `{Countable K} (k : K) (a : A) (m : gmap K A) : gmap K A :=
  match m !! k with Some _ => m | None => <[k := a]> m end.

Fixpoint catalogRows (fl : fault) (k : nat) (rows : list (string * Z)) (c : gset (string * Z))
    : result tw_error (gset (string * Z)) :=
  match rows with
  | [] => Ok c
  | (profile, generation) :: rows =>
    fail_if negb (matches profilePattern profile) || (generation <? 1)
      with ErrCatalog "invalid issuance enforcement profile generation" ;;
    fail_if fails fl k with ErrStorage "insert catalog" ;;
    catalogRows fl (S k) rows ({[(profile, generation)]} ∪ c)
  end.

Definition ReplaceEnforcementCatalog (fl : fault) (s : store) (profiles : gmap string Z)
    : store * result tw_error unit :=
  atomically s (
    fail_if bool_decide (profiles = ∅) with ErrCatalog "catalog must not be empty" ;;
    fail_if fails fl 0 with ErrStorage "begin" ;;
    fail_if fails fl 1 with ErrStorage "delete catalog" ;;
    c ← catalogRows fl 3 (map_to_list profiles) ∅;
    fail_if fails fl 2 with ErrStorage "commit" ;;
    Ok (set_catalog s c, ())).

(** ** Fingerprints *)

Definition json_bool_opt {A} (o : option A) (f : A → string * string) : list (string * string) :=
  match o with Some a => [f a] | None => [] end.

Definition binding_text (b : Binding) : string :=
  json_object [("worker_id", json_string (WorkerID b));
    ("logical_session_id", json_string (LogicalSessionID b));
    ("session_lineage_id", json_string (SessionLineageID b));
    ("worker_storage_lineage_id", json_string (WorkerStorageLineageID b));
    ("worker_fence_epoch", json_int (WorkerFenceEpoch b))].

(** json.Marshal of a request with the given actions *)
Definition request_text (r : ResponseRequest) (actions : list string) : string :=
  json_object ([("version", json_string (r_Version r)); ("finding_id", json_string (r_FindingID r));
    ("delivery_id", json_string (r_DeliveryID r)); ("repository", json_string (r_Repository r));
    ("ref", json_string (r_Ref r)); ("before", json_string (r_Before r));
    ("after", json_string (r_After r)); ("severity", json_string (r_Severity r));
    ("reason_code", json_string (r_ReasonCode r));
    ("fingerprint_id", json_string (r_FingerprintID r)); ("profile", json_string (r_Profile r));
    ("profile_generation", json_int (r_ProfileGeneration r))]
   ++ json_bool_opt (r_Binding r) (λ b, ("binding", binding_text b))
   ++ [("actions", "[" +:+ join "," (map json_string actions) +:+ "]")]).

Section Apply.
Variable sha256_hex : string → string.

Definition fingerprint (r : ResponseRequest) : string :=
  sha256_hex (request_text r (merge_sort text_order (r_Actions r))).

(** ** Apply *)

Definition fence_call := (Binding * string)%type.

Definition with_actions (out : ResponseResult) (l : list ActionState) : ResponseResult :=
  {| rr_Version := rr_Version out; rr_FindingID := rr_FindingID out;
     rr_IdempotentReplay := rr_IdempotentReplay out; rr_Actions := l |}.

Definition as_replay (out : ResponseResult) : ResponseResult :=
  {| rr_Version := rr_Version out; rr_FindingID := rr_FindingID out;
     rr_IdempotentReplay := true; rr_Actions := rr_Actions out |}.

(** [UPDATE fence_requests SET state='fenced' WHERE finding_id = ?] *)
Definition mark_fenced (finding : string) (s : store) : store :=
  set_fences s (alter (λ '(b, _), (b, "fenced")) finding (fence_requests s)).

(** [UPDATE responses SET response = ? WHERE idempotency_key = ?] *)
Definition set_response (key : string) (out : ResponseResult) (s : store) : store :=
  set_responses s (alter (λ row, {| row_fingerprint := row_fingerprint row;
    row_request := row_request row; row_response := out |}) key (responses s)).

Definition fenced_state (a : ActionState) (now : time) : ActionState :=
  {| as_Action := as_Action a; as_State := "fenced"; as_CompletedAt := formatTime now |}.

Definition awaits_fence (a : ActionState) : bool :=
  (as_Action a =? FenceAction)%string && (as_State a =? "fence_requested")%string.

(** The loop of a replay over the recorded actions: [before_] those done. *)
Fixpoint replay_fences (fl : fault) (k : nat) (clock : nat → time) (adapter : nat → bool) (s : store)
    (key : string) (b : Binding) (finding : string) (out : ResponseResult)
    (calls : list fence_call) (before_ rest : list ActionState)
    : store * list fence_call * result tw_error (list ActionState) :=
  match rest with
  | [] => (s, calls, Ok before_)
  | a :: rest =>
    if awaits_fence a then
      if adapter (length calls) then
        let a' := fenced_state a (clock (length calls)) in
        let calls := calls ++ [(b, finding)] in
        if fails fl k then (s, calls, Err (ErrStorage "update fence request")) else
        let s := mark_fenced finding s in
        if fails fl (S k) then (s, calls, Err (ErrStorage "update response")) else
        let s := set_response key (with_actions out (before_ ++ a' :: rest)) s in
        replay_fences fl (S (S k)) clock adapter s key b finding out calls (before_ ++ [a']) rest
      else replay_fences fl k clock adapter s key b finding out (calls ++ [(b, finding)])
             (before_ ++ [a]) rest
    else replay_fences fl k clock adapter s key b finding out calls (before_ ++ [a]) rest
  end.

Definition replay (fl : fault) (clock : nat → time) (adapter : option (nat → bool)) (s : store)
    (key : string) (req : ResponseRequest) (fp : string) (row : response_row)
    : store * list fence_call * result tw_error ResponseResult :=
  if negb (row_fingerprint row =? fp)%string then (s, [], Err ErrReused) else
  let out := row_response row in
  match r_Binding req, adapter with
  | Some b, Some adapter =>
    match replay_fences fl 1 clock adapter s key b (r_FindingID req) out [] [] (rr_Actions out) with
    | (s, calls, Ok actions) => (s, calls, Ok (as_replay (with_actions out actions)))
    | (s, calls, Err e) => (s, calls, Err e)
    end
  | _, _ => (s, [], Ok (as_replay out))
  end.

(** The loop over the requested actions inside the transaction. *)
Fixpoint record_actions (fl : fault) (k : nat) (now : time) (req : ResponseRequest) (s : store)
    (done_ : list ActionState) (actions : list string) : result tw_error (store * list ActionState) :=
  match actions with
  | [] => Ok (s, done_)
  | a :: actions =>
    if (a =? Halt)%string then
      fail_if fails fl k with ErrStorage "read catalog" ;;
      fail_if negb (bool_decide ((r_Profile req, r_ProfileGeneration req) ∈ catalog s))
        with ErrNotRegistered ;;
      fail_if fails fl (S k) with ErrStorage "insert halt" ;;
      let s := set_halts s (insert_or_ignore (r_Profile req, r_ProfileGeneration req)
                              (r_FindingID req) (halts s)) in
      record_actions fl (S (S k)) now req s
        (done_ ++ [{| as_Action := a; as_State := "halted"; as_CompletedAt := formatTime now |}]) actions
    else if (a =? FenceAction)%string then
      fail_if fails fl k with ErrStorage "insert fence request" ;;
      let s := set_fences s (insert_or_ignore (r_FindingID req) (r_Binding req, "requested")
                               (fence_requests s)) in
      record_actions fl (S (S k)) now req s
        (done_ ++ [{| as_Action := a; as_State := "fence_requested"; as_CompletedAt := formatTime now |}])
        actions
    else record_actions fl (S (S k)) now req s done_ actions
  end.

Definition record (fl : fault) (now : time) (s : store) (key fp : string) (req : ResponseRequest)
    : store * result tw_error ResponseResult :=
  atomically s (
    fail_if fails fl 1 with ErrStorage "connection" ;;
    fail_if fails fl 2 with ErrStorage "begin immediate" ;;
    p ← record_actions fl 8 now req s [] (r_Actions req);
    let out := {| rr_Version := Version; rr_FindingID := r_FindingID req;
                  rr_IdempotentReplay := false; rr_Actions := p.2 |} in
    fail_if fails fl 3 || bool_decide (is_Some (responses p.1 !! key))
      with ErrStorage "insert response" ;;
    fail_if fails fl 4 with ErrStorage "commit" ;;
    Ok (set_responses p.1 (<[key := {| row_fingerprint := fp; row_request := req;
                                       row_response := out |}]> (responses p.1)), out)).

(** After the commit: the fence call, and the two updates that record it. *)
Definition fence_after (fl : fault) (clock : nat → time) (adapter : option (nat → bool)) (s : store)
    (key : string) (req : ResponseRequest) (out : ResponseResult)
    : store * list fence_call * result tw_error ResponseResult :=
  match r_Binding req, adapter with
  | Some b, Some adapter =>
    let calls := [(b, r_FindingID req)] in
    if adapter 0%nat then
      if fails fl 5 then (s, calls, Err (ErrStorage "update fence request")) else
      let s := mark_fenced (r_FindingID req) s in
      let out := with_actions out
        (map (λ a, if (as_Action a =? FenceAction)%string then fenced_state a (clock 1%nat) else a)
           (rr_Actions out)) in
      if fails fl 6 then (s, calls, Err (ErrStorage "update response")) else
      (set_response key out s, calls, Ok out)
    else (s, calls, Ok out)
  | _, _ => (s, [], Ok out)
  end.

Definition Apply (fl : fault) (clock : nat → time) (adapter : option (nat → bool)) (s : store)
    (key : string) (req : ResponseRequest)
    : store * list fence_call * result tw_error ResponseResult :=
  if negb (matches idPattern key) then (s, [], Err ErrKey) else
  let fp := fingerprint req in
  if fails fl 0 then (s, [], Err (ErrStorage "read response")) else
  match responses s !! key with
  | Some row => replay fl clock adapter s key req fp row
  | None =>
    match record fl (clock 0%nat) s key fp req with
    | (s, Err e) => (s, [], Err e)
    | (s, Ok out) => if fails fl 7 then (s, [], Err (ErrStorage "close connection"))
                     else fence_after fl clock adapter s key req out
    end
  end.

Definition CheckIssuanceState (fl : fault) (s : store) (profile : string) (generation : Z)
    : result tw_error unit :=
  fail_if fails fl 0 with ErrStorage "read push tripwire enforcement catalog" ;;
  fail_if negb (bool_decide ((profile, generation) ∈ catalog s)) with ErrRegistrationUnavailable ;;
  fail_if fails fl 1 with ErrStorage "read push tripwire issuance state" ;;
  match halts s !! (profile, generation) with
  | Some finding => Err (ErrHalted finding)
  | None => Ok ()
  end.
End Apply.

(** ** The handler: internal/server *)

Record PushTripwireRepository := { RefPatterns : list string }.
Record PushTripwireResponseProfile := {
  Generation : Z; AllowHalt : bool; AllowFence : bool; Bindings : list Binding }.
Record PushTripwireConfig := {
  Enabled : bool; ScannerSecret : string; Repositories : gmap string PushTripwireRepository;
  ResponseProfiles : gmap string PushTripwireResponseProfile }.

Section Handler.
Variable sha256_hex : string → string.
Variable re_compile : string → option (string → bool).

Fixpoint tripwireRefAllowed (patterns : list string) (ref : string) : bool :=
  match patterns with
  | [] => false
  | p :: patterns =>
    match re_compile p with
    | Some re => if re ref then true else tripwireRefAllowed patterns ref
    | None => tripwireRefAllowed patterns ref
    end
  end.

Fixpoint actionsAllowed (scope : PushTripwireResponseProfile) (actions : list string) : bool :=
  match actions with
  | [] => true
  | a :: actions =>
    if (a =? Halt)%string && negb (AllowHalt scope) then false
    else if (a =? FenceAction)%string && negb (AllowFence scope) then false
    else actionsAllowed scope actions
  end.

Definition responseWithinReviewedScope (cfg : PushTripwireConfig) (req : ResponseRequest) : bool :=
  match ResponseProfiles cfg !! r_Profile req with
  | None => false
  | Some scope =>
    if negb (Generation scope =? r_ProfileGeneration req) then false
    else if negb (actionsAllowed scope (r_Actions req)) then false
    else match r_Binding req with
         | None => true
         | Some b => existsb (λ b', bool_decide (b' = b)) (Bindings scope)
         end
  end.

Inductive tw_reply := Recorded (r : ResponseResult) | TwError (what : string) | TwEmpty.
Definition tw_resp := response tw_reply.
Definition tw_respond (st : Z) (r : tw_reply) : tw_resp := {| status := st; reply := r |}.

(** The status of an error, by the words its text contains. *)
Definition apply_status (e : tw_error) : Z :=
  match e with ErrKey => 400 | ErrReused => 409 | _ => 500 end.

Definition handlePushTripwireResponse (cfg : PushTripwireConfig) (fl : fault) (clock : nat → time)
    (adapter : option (nat → bool)) (mounted : bool) (s : store)
    (r : request (body ResponseRequest)) (idempotency_key : string)
    : store * list fence_call * tw_resp :=
  if negb (r_Method r =? "POST")%string then (s, [], tw_respond 405 TwEmpty) else
  if negb (Enabled cfg) || negb mounted then (s, [], tw_respond 404 TwEmpty) else
  if negb (Authenticate (r_Authorization r) (ScannerSecret cfg))
  then (s, [], tw_respond 401 (TwError "scanner authentication failed")) else
  match r_Body r with
  | Unreadable | TooLarge | NotJSON =>
    (s, [], tw_respond 400 (TwError "invalid push tripwire response request"))
  | Json req =>
    if negb (ValidateResponse req)
    then (s, [], tw_respond 400 (TwError "invalid push tripwire response request")) else
    if negb (r_Severity req =? "high")%string
    then (s, [], tw_respond 403 (TwError "response controls require high severity")) else
    match Repositories cfg !! r_Repository req with
    | None => (s, [], tw_respond 403 (TwError "response repository or ref is outside reviewed broker scope"))
    | Some repo =>
      if negb (tripwireRefAllowed (RefPatterns repo) (r_Ref req))
      then (s, [], tw_respond 403 (TwError "response repository or ref is outside reviewed broker scope"))
      else if negb (responseWithinReviewedScope cfg req)
      then (s, [], tw_respond 403 (TwError "response attribution is outside reviewed broker scope"))
      else match Apply sha256_hex fl clock adapter s (trim_space idempotency_key) req with
           | (s, calls, Err e) => (s, calls, tw_respond (apply_status e) (TwError "apply"))
           | (s, calls, Ok out) => (s, calls, tw_respond 200 (Recorded out))
           end
    end
  end.
End Handler.

(** ** What an action of a request does inside the transaction *)

Definition action_effect (req : ResponseRequest) (s : store) (a : string) : store :=
  if (a =? Halt)%string
  then set_halts s (insert_or_ignore (r_Profile req, r_ProfileGeneration req) (r_FindingID req) (halts s))
  else if (a =? FenceAction)%string
  then set_fences s (insert_or_ignore (r_FindingID req) (r_Binding req, "requested") (fence_requests s))
  else s.

Definition action_state (now : time) (a : string) : option ActionState :=
  if (a =? Halt)%string
  then Some {| as_Action := a; as_State := "halted"; as_CompletedAt := formatTime now |}
  else if (a =? FenceAction)%string
  then Some {| as_Action := a; as_State := "fence_requested"; as_CompletedAt := formatTime now |}
  else None.

Definition known (a : string) : Prop := a = Halt ∨ a = FenceAction.

Definition registered (s : store) (req : ResponseRequest) : Prop :=
  (r_Profile req, r_ProfileGeneration req) ∈ catalog s.

#[export] Instance registered_dec s req : Decision (registered s req).
Proof. unfold registered. apply _. Defined.

Lemma ioi_some {K A} `{Countable K} (k : K) (a : A) m : is_Some (insert_or_ignore k a m !! k).
Proof. unfold insert_or_ignore. destruct (m !! k) eqn:E; [by rewrite E|]. rewrite lookup_insert_eq. eauto. Qed.

Lemma ioi_subseteq {K A} `{Countable K} (k : K) (a : A) m : m ⊆ insert_or_ignore k a m.
Proof. unfold insert_or_ignore. destruct (m !! k) eqn:E; [done|]. by apply insert_subseteq. Qed.

Lemma ioi_idemp {K A} `{Countable K} (k : K) (a : A) m :
  insert_or_ignore k a (insert_or_ignore k a m) = insert_or_ignore k a m.
Proof.
  unfold insert_or_ignore at 1. by destruct (ioi_some k a m) as [x ->].
Qed.

Lemma record_actions_ok fl k now req s acc acts s' l :
  record_actions fl k now req s acc acts = Ok (s', l) →
  s' = foldl (action_effect req) s acts ∧ l = acc ++ omap (action_state now) acts ∧
  (Halt ∈ acts → registered s req).
Proof.
  revert k s acc. induction acts as [|a acts IH]; intros k s acc H; cbn [record_actions] in H.
  { simplify_eq. rewrite app_nil_r. split_and!; [done..|]. by intros ?%elem_of_nil. }
  cbn [foldl omap list_omap]. unfold action_effect at 2, action_state at 1.
  destruct (String.eqb_spec a Halt) as [->|Ha].
  - peel H. bool_hyps. apply IH in H as (-> & -> & _).
    split_and!; [done|by rewrite <- (assoc_L (++))|done].
  - destruct (String.eqb_spec a FenceAction) as [->|Hf].
    + peel H. apply IH in H as (-> & -> & Hr). split_and!; [done|by rewrite <- (assoc_L (++))|].
      intros [?|?]%elem_of_cons; [done|]. by apply Hr.
    + apply IH in H as (-> & -> & Hr). split_and!; [done..|].
      intros [?|?]%elem_of_cons; [done|]. by apply Hr.
Qed.

Lemma record_actions_total k now req s acc acts :
  (Halt ∈ acts → registered s req) →
  ∃ p, record_actions None k now req s acc acts = Ok p.
Proof.
  revert k s acc. induction acts as [|a acts IH]; intros k s acc Hr; cbn [record_actions]; [eauto|].
  rewrite !fails_none. destruct (String.eqb_spec a Halt) as [->|Ha].
  - rewrite bool_decide_eq_true_2 by (apply Hr; left). cbn [negb]. apply IH. intros _. apply Hr; left.
  - destruct (a =? FenceAction)%string; apply IH; intros ?; apply Hr; by right.
Qed.

Lemma record_actions_unregistered k now req s acc acts :
  Halt ∈ acts → ¬ registered s req →
  record_actions None k now req s acc acts = Err ErrNotRegistered.
Proof.
  intros Hin Hr. revert k s acc Hr. induction acts as [|a acts IH]; intros k s acc Hr; cbn [record_actions].
  { by apply elem_of_nil in Hin. }
  rewrite !fails_none. destruct (String.eqb_spec a Halt) as [->|Ha].
  - by rewrite bool_decide_eq_false_2.
  - apply elem_of_cons in Hin as [?|Hin]; [done|]. destruct (a =? FenceAction)%string; by apply IH.
Qed.

Lemma effects_spec req s acts :
  let s' := foldl (action_effect req) s acts in
  halts s' = (if bool_decide (Halt ∈ acts)
              then insert_or_ignore (r_Profile req, r_ProfileGeneration req) (r_FindingID req) (halts s)
              else halts s) ∧
  catalog s' = catalog s ∧ responses s' = responses s ∧
  fence_requests s' = (if bool_decide (FenceAction ∈ acts)
                       then insert_or_ignore (r_FindingID req) (r_Binding req, "requested") (fence_requests s)
                       else fence_requests s).
Proof.
  revert s. induction acts as [|a acts IH]; intros s; cbn zeta; [done|]. cbn [foldl].
  destruct (IH (action_effect req s a)) as (-> & -> & -> & ->).
  unfold action_effect. destruct (String.eqb_spec a Halt) as [->|Ha].
  - rewrite (bool_decide_eq_true_2 (Halt ∈ Halt :: acts)) by left. cbn [halts catalog responses fence_requests set_halts].
    rewrite (if_bool_ext (FenceAction ∈ Halt :: acts) (FenceAction ∈ acts)) by (rewrite elem_of_cons; naive_solver).
    split_and!; [|done..]. destruct (bool_decide (Halt ∈ acts)); [apply ioi_idemp|done].
  - rewrite (if_bool_ext (Halt ∈ a :: acts) (Halt ∈ acts)) by (rewrite elem_of_cons; naive_solver).
    destruct (String.eqb_spec a FenceAction) as [->|Hf]; cbn [halts catalog responses fence_requests set_fences].
    + rewrite (bool_decide_eq_true_2 (FenceAction ∈ FenceAction :: acts)) by left.
      split_and!; [done..|]. destruct (bool_decide (FenceAction ∈ acts)); [apply ioi_idemp|done].
    + rewrite (if_bool_ext (FenceAction ∈ a :: acts) (FenceAction ∈ acts)) by (rewrite elem_of_cons; naive_solver).
      done.
Qed.

(** ** The bookkeeping after the transaction leaves the records alone *)

(** What no later call changes in a recorded response. *)
Definition row_key (row : response_row) :=
  (row_fingerprint row, row_request row, rr_FindingID (row_response row),
   map as_Action (rr_Actions (row_response row))).

Definition same_records (key : string) (s s' : store) : Prop :=
  halts s' = halts s ∧ catalog s' = catalog s ∧
  dom (fence_requests s') = dom (fence_requests s) ∧
  row_key <$> responses s' = row_key <$> responses s ∧
  (∀ k, k ≠ key → responses s' !! k = responses s !! k).

#[export] Instance same_records_preorder key : PreOrder (same_records key).
Proof.
  split; [by intros s|]. intros s1 s2 s3 (?&?&?&?&E1) (?&?&?&?&E2).
  split_and!; [congruence..|]. intros k Hk. by rewrite E2, E1.
Qed.

Lemma mark_fenced_records key finding s : same_records key s (mark_fenced finding s).
Proof.
  split_and!; try done. unfold mark_fenced; cbn [fence_requests set_fences].
  by rewrite dom_alter_L.
Qed.
#[export] Hint Resolve mark_fenced_records : go.

(** The stored answer and [out] differ at most in the progress of the actions. *)
Definition progress_of (s : store) (key : string) (out : ResponseResult) : Prop :=
  ∀ row, responses s !! key = Some row → rr_FindingID (row_response row) = rr_FindingID out ∧
    map as_Action (rr_Actions (row_response row)) = map as_Action (rr_Actions out).

Lemma set_response_records key out s :
  progress_of s key out → same_records key s (set_response key out s).
Proof.
  intros Hp. split_and!; try done; unfold set_response; cbn [responses set_responses].
  - apply map_eq. intros k. rewrite !lookup_fmap. destruct (decide (key = k)) as [<-|?].
    + rewrite lookup_alter_eq. destruct (responses s !! key) as [row|] eqn:E; [|done].
      destruct (Hp row E) as [Hi Ha]. unfold row_key; cbn. by rewrite Hi, Ha.
    + by rewrite lookup_alter_ne.
  - intros k Hk. by rewrite lookup_alter_ne.
Qed.

Lemma set_response_progress key out s out' :
  rr_FindingID out = rr_FindingID out' → map as_Action (rr_Actions out) = map as_Action (rr_Actions out') →
  progress_of (set_response key out s) key out'.
Proof.
  intros Hi Ha row. cbn. rewrite lookup_alter_eq. destruct (responses s !! key); [|done].
  intros [= <-]. done.
Qed.

Lemma same_records_row key s s' k row :
  same_records key s s' → responses s !! k = Some row →
  ∃ row', responses s' !! k = Some row' ∧ row_key row' = row_key row.
Proof.
  intros (_ & _ & _ & E & _) H. apply (f_equal (.!! k)) in E. rewrite !lookup_fmap, H in E.
  destruct (responses s' !! k) as [row'|]; [|done]. exists row'. split; [done|].
  by apply (inj Some) in E.
Qed.

Lemma same_records_row' key s s' k row :
  same_records key s s' → responses s' !! k = Some row →
  ∃ row', responses s !! k = Some row' ∧ row_key row = row_key row'.
Proof.
  intros (_ & _ & _ & E & _) H. apply (f_equal (.!! k)) in E. rewrite !lookup_fmap, H in E.
  destruct (responses s !! k) as [row'|]; [|done]. exists row'. split; [done|].
  by apply (inj Some) in E.
Qed.

(** The finding's fence calls: to the worker the request names. *)
Definition calls_for (req : ResponseRequest) (calls : list fence_call) : Prop :=
  ∀ c, c ∈ calls → ∃ b, r_Binding req = Some b ∧ c = (b, r_FindingID req).

Lemma calls_for_nil req : calls_for req [].
Proof. by intros c ?%elem_of_nil. Qed.
#[export] Hint Resolve calls_for_nil : go.

Lemma calls_for_app req calls b :
  calls_for req calls → r_Binding req = Some b → calls_for req (calls ++ [(b, r_FindingID req)]).
Proof. intros Hc Hb c [Hin|Hin]%elem_of_app; [eauto|]. apply list_elem_of_singleton in Hin as ->. eauto. Qed.

Lemma replay_fences_spec fl k clock adapter s key b req out calls acc rest s' calls' r :
  r_Binding req = Some b → calls_for req calls → progress_of s key (with_actions out (acc ++ rest)) →
  replay_fences fl k clock adapter s key b (r_FindingID req) out calls acc rest = (s', calls', r) →
  same_records key s s' ∧ calls_for req calls' ∧
  (∀ l, r = Ok l → map as_Action l = map as_Action (acc ++ rest)) ∧
  (forallb (λ a, negb (awaits_fence a)) rest = true → s' = s ∧ calls' = calls ∧ r = Ok (acc ++ rest)).
Proof.
  intros Hb. revert k s calls acc. induction rest as [|a rest IH]; intros k s calls acc Hc Hp H;
    cbn [replay_fences] in H.
  { simplify_eq. rewrite app_nil_r. split_and!; [done..|naive_solver|naive_solver]. }
  cbn [forallb]. rewrite (cons_middle a acc rest), (assoc_L (++)) in Hp |- *.
  destruct (awaits_fence a) eqn:Ea.
  - pose proof (calls_for_app _ _ _ Hc Hb) as Hc'. destruct (adapter (length calls)).
    + destruct (fails fl k); [simplify_eq; split_and!; done|].
      destruct (fails fl (S k)); [simplify_eq; split_and!; auto with go; done|].
      set (a' := fenced_state _ _) in H. set (out' := with_actions out (acc ++ a' :: rest)) in H.
      assert (progress_of s key out') as Hp'.
      { intros row Hr. destruct (Hp row Hr) as [-> ->]. split; [done|].
        unfold out'; cbn [rr_Actions with_actions]. rewrite !map_app. by rewrite <- (assoc_L (++)). }
      apply IH in H as (H1 & H2 & H3 & _); [|done|].
      * split_and!; [|done| |done].
        -- etrans; [|exact H1]. trans (mark_fenced (r_FindingID req) s); [auto with go|].
           by apply set_response_records.
        -- intros l Hl. by rewrite (H3 l Hl), !map_app.
      * apply set_response_progress; [done|]. cbn. by rewrite <- (assoc_L (++)).
    + apply IH in H as (H1 & H2 & H3 & _); done.
  - apply IH in H as (H1 & H2 & H3 & H4); done.
Qed.

Lemma replay_spec fl clock adapter s key req fp row s' calls r :
  responses s !! key = Some row →
  replay fl clock adapter s key req fp row = (s', calls, r) →
  same_records key s s' ∧ calls_for req calls ∧
  (∀ out, r = Ok out → row_fingerprint row = fp ∧ rr_IdempotentReplay out = true ∧
     rr_FindingID out = rr_FindingID (row_response row) ∧
     map as_Action (rr_Actions out) = map as_Action (rr_Actions (row_response row))) ∧
  (row_fingerprint row ≠ fp → s' = s ∧ calls = [] ∧ r = Err ErrReused) ∧
  (row_fingerprint row = fp → forallb (λ a, negb (awaits_fence a)) (rr_Actions (row_response row)) = true →
     s' = s ∧ calls = [] ∧ r = Ok (as_replay (row_response row))).
Proof.
  unfold replay. intros Hk H. destruct (String.eqb_spec (row_fingerprint row) fp) as [Ef|Ef]; cbn [negb] in H.
  2: { simplify_eq. split_and!; auto with go; done. }
  destruct (r_Binding req) as [b|] eqn:Eb; [|simplify_eq; split_and!; auto with go; naive_solver].
  destruct adapter as [adapter|]; [|simplify_eq; split_and!; auto with go; naive_solver].
  destruct (replay_fences _ _ _ _ _ _ _ _ _ _ _ _) as [[s1 c1] r1] eqn:E.
  apply (replay_fences_spec _ _ _ _ _ _ _ _ _ _ _ _ _ _ _ Eb) in E as (H1 & H2 & H3 & H4);
    [|auto with go|intros row' Hr; by simplify_eq].
  destruct r1 as [l|e]; simplify_eq; split_and!; try done.
  - intros out [= <-]. split_and!; [done..|]. by apply H3.
  - intros _ Ha. destruct (H4 Ha) as (-> & -> & [= ->]). split_and!; [done..|].
    by destruct (row_response row).
  - intros _ Ha. by destruct (H4 Ha) as (_ & _ & [=]).
Qed.

(** ** A recorded response *)

Definition first_result (now : time) (req : ResponseRequest) : ResponseResult :=
  {| rr_Version := Version; rr_FindingID := r_FindingID req; rr_IdempotentReplay := false;
     rr_Actions := omap (action_state now) (r_Actions req) |}.

Definition recorded (s : store) (key fp : string) (req : ResponseRequest) (out : ResponseResult) : store :=
  let s' := foldl (action_effect req) s (r_Actions req) in
  set_responses s' (<[key := {| row_fingerprint := fp; row_request := req; row_response := out |}]>
                      (responses s)).

Lemma recorded_row s key fp req out :
  responses (recorded s key fp req out) !! key =
    Some {| row_fingerprint := fp; row_request := req; row_response := out |}.
Proof. apply lookup_insert_eq. Qed.

Lemma recorded_response s key fp req out row :
  responses (recorded s key fp req out) !! key = Some row → row_response row = out.
Proof. rewrite recorded_row. by intros [= <-]. Qed.

Lemma record_cases fl now s key fp req :
  (∃ e, record fl now s key fp req = (s, Err e)) ∨
  (responses s !! key = None ∧ (Halt ∈ r_Actions req → registered s req) ∧
   record fl now s key fp req = (recorded s key fp req (first_result now req), Ok (first_result now req))).
Proof.
  destruct (record fl now s key fp req) as [s' [out|e]] eqn:E.
  2: { left. exists e. by apply atomically_err in E as [-> _]. }
  right. apply atomically_ok in E. peel E. apply bind_ok in E as ([s1 l] & E1 & E).
  apply record_actions_ok in E1 as (-> & -> & Hr). cbn [fst snd app] in E.
  destruct (effects_spec req s (r_Actions req)) as (_ & _ & Er & _). rewrite Er in E. peel E. simplify_eq.
  bool_hyps. split_and!; [|done..]. by apply eq_None_not_Some.
Qed.

Lemma record_total now s key fp req :
  responses s !! key = None → (Halt ∈ r_Actions req → registered s req) →
  record None now s key fp req = (recorded s key fp req (first_result now req), Ok (first_result now req)).
Proof.
  intros Hk Hr. unfold record. rewrite !fails_none.
  destruct (record_actions_total 8 now req s [] (r_Actions req) Hr) as [[s1 l] E]. rewrite E.
  apply record_actions_ok in E as (-> & -> & _). cbn [mbind result_bind app fst snd].
  destruct (effects_spec req s (r_Actions req)) as (_ & _ & Er & _). rewrite Er, Hk. done.
Qed.

Lemma fence_after_spec fl clock adapter s key req out s' calls r :
  (∀ row, responses s !! key = Some row → row_response row = out) →
  fence_after fl clock adapter s key req out = (s', calls, r) →
  same_records key s s' ∧ calls_for req calls ∧
  (∀ out', r = Ok out' → rr_IdempotentReplay out' = rr_IdempotentReplay out ∧
     rr_FindingID out' = rr_FindingID out ∧ map as_Action (rr_Actions out') = map as_Action (rr_Actions out) ∧
     (∀ row, responses s !! key = Some row →
        ∃ row', responses s' !! key = Some row' ∧ row_response row' = out')).
Proof.
  unfold fence_after. intros Hs H.
  destruct (r_Binding req) as [b|] eqn:Eb; [|simplify_eq; split_and!; auto with go; naive_solver].
  destruct adapter as [adapter|]; [|simplify_eq; split_and!; auto with go; naive_solver].
  assert (calls_for req [(b, r_FindingID req)]) as Hc by exact (calls_for_app req [] b (calls_for_nil req) Eb).
  destruct (adapter 0%nat); [|simplify_eq; split_and!; [done..|naive_solver]].
  destruct (fails fl 5); [simplify_eq; by split_and!|].
  destruct (fails fl 6); simplify_eq; (split_and!; [|done|]); auto with go; [done| |].
  - trans (mark_fenced (r_FindingID req) s); [auto with go|]. apply set_response_records.
    intros row Hr. rewrite (Hs row Hr). split; [done|]. cbn. rewrite map_map.
    apply map_ext. intros a. by destruct (as_Action a =? FenceAction)%string.
  - intros out' [= <-]. split_and!; [done..| |].
    + cbn. rewrite map_map. apply map_ext. intros a. by destruct (as_Action a =? FenceAction)%string.
    + intros row Hrow. cbn. rewrite lookup_alter_eq, Hrow. cbn. eauto.
Qed.

(** Every outcome of Apply. *)
Lemma Apply_cases sha fl clock adapter s key req s' calls r :
  Apply sha fl clock adapter s key req = (s', calls, r) →
  (s' = s ∧ calls = [] ∧ ∃ e, r = Err e) ∨
  (∃ row, responses s !! key = Some row ∧ row_fingerprint row = fingerprint sha req ∧
     replay fl clock adapter s key req (fingerprint sha req) row = (s', calls, r)) ∨
  (responses s !! key = None ∧ (Halt ∈ r_Actions req → registered s req) ∧
   let s1 := recorded s key (fingerprint sha req) req (first_result (clock 0%nat) req) in
   (s' = s1 ∧ calls = [] ∧ (∃ e, r = Err e)) ∨
   fence_after fl clock adapter s1 key req (first_result (clock 0%nat) req) = (s', calls, r)).
Proof.
  unfold Apply. intros H. destruct (negb _); [left; simplify_eq; eauto|].
  destruct (fails fl 0); [left; simplify_eq; eauto|].
  destruct (responses s !! key) as [row|] eqn:Ek.
  - destruct (decide (row_fingerprint row = fingerprint sha req)) as [Ef|Ef]; [right; left; eauto|].
    left. apply (replay_spec _ _ _ _ _ _ _ _ _ _ _ Ek) in H as (_ & _ & _ & Hd & _). destruct (Hd Ef) as (-> & -> & ->). eauto.
  - destruct (record_cases fl (clock 0%nat) s key (fingerprint sha req) req) as [[e E]|(_ & Hr & E)];
      rewrite E in H; [left; simplify_eq; eauto|].
    right; right. split_and!; [done..|]. destruct (fails fl 7); [left; simplify_eq; eauto|by right].
Qed.

Lemma Apply_calls sha fl clock adapter s key req s' calls r :
  Apply sha fl clock adapter s key req = (s', calls, r) → calls_for req calls.
Proof.
  intros [(_ & -> & _)|[(row & Hk & _ & E)|(_ & _ & [(_ & -> & _)|E])]]%Apply_cases; auto with go.
  - by apply (replay_spec _ _ _ _ _ _ _ _ _ _ _ Hk) in E as (_ & ? & _).
  - by apply (fence_after_spec _ _ _ _ _ _ _ _ _ _ (recorded_response _ _ _ _ _)) in E as (_ & ? & _).
Qed.

(** ** Histories of the store *)

Inductive tw_call :=
| TApply (fl : fault) (clock : nat → time) (adapter : option (nat → bool)) (key : string)
    (req : ResponseRequest)
| TCatalog (fl : fault) (profiles : gmap string Z).

Definition run_call (sha : string → string) (s : store) (c : tw_call) : store :=
  match c with
  | TApply fl clock adapter key req => (Apply sha fl clock adapter s key req).1.1
  | TCatalog fl profiles => (ReplaceEnforcementCatalog fl s profiles).1
  end.

Definition run (sha : string → string) (s : store) (cs : list tw_call) : store := foldl (run_call sha) s cs.

Definition halted (s : store) (req : ResponseRequest) : Prop :=
  is_Some (halts s !! (r_Profile req, r_ProfileGeneration req)).

(** A recorded halt action has its halt. *)
Definition wf (s : store) : Prop :=
  ∀ key row, responses s !! key = Some row → Halt ∈ r_Actions (row_request row) → halted s (row_request row).

Lemma tw_empty_wf : wf {| halts := ∅; catalog := ∅; responses := ∅; fence_requests := ∅ |}.
Proof. by intros key row H. Qed.

Lemma same_records_wf key s s' : same_records key s s' → wf s → wf s'.
Proof.
  intros Hs Hw k row Hk. pose proof Hs as (Eh & _).
  destruct (same_records_row' _ _ _ _ _ Hs Hk) as (row' & Hk' & [= _ -> _ _]).
  unfold halted. rewrite Eh. by apply (Hw k).
Qed.

Lemma recorded_halts s key fp req out :
  halts s ⊆ halts (recorded s key fp req out) ∧ (Halt ∈ r_Actions req → halted (recorded s key fp req out) req).
Proof.
  unfold halted, recorded; cbn [halts set_responses].
  destruct (effects_spec req s (r_Actions req)) as (-> & _). case_bool_decide.
  - split; [apply ioi_subseteq|intros _; apply ioi_some].
  - by split.
Qed.

Lemma tw_recorded_wf s key fp req out : wf s → wf (recorded s key fp req out).
Proof.
  intros Hw k row Hk Hh. destruct (recorded_halts s key fp req out) as [Hsub Hnew].
  cbn [responses recorded set_responses] in Hk. apply lookup_insert_Some in Hk as [[<- <-]|[_ Hk]].
  - by apply Hnew.
  - destruct (Hw k row Hk Hh) as [f Hf]. exists f. by eapply lookup_weaken.
Qed.

Lemma catalog_step fl s profiles :
  let s' := (ReplaceEnforcementCatalog fl s profiles).1 in
  halts s' = halts s ∧ responses s' = responses s.
Proof.
  cbn zeta. apply (atomically_inv (λ s', halts s' = halts s ∧ responses s' = responses s)); [done|].
  intros s' [] H. peel H. apply bind_ok in H as (c & _ & H). peel H. by simplify_eq.
Qed.

Lemma tw_run_call_step sha s c : wf s → wf (run_call sha s c) ∧ halts s ⊆ halts (run_call sha s c).
Proof.
  intros Hw. destruct c as [fl clock adapter key req|fl profiles]; cbn [run_call].
  - destruct (Apply sha fl clock adapter s key req) as [[s' calls] r] eqn:E; cbn [fst].
    apply Apply_cases in E as [(-> & _)|[(row & Hk & _ & E)|(_ & _ & E)]]; [done| |].
    + apply (replay_spec _ _ _ _ _ _ _ _ _ _ _ Hk) in E as (Hs & _). split; [by eapply same_records_wf|]. by destruct Hs as (-> & _).
    + set (s1 := recorded _ _ _ _ _) in E. assert (wf s1 ∧ halts s ⊆ halts s1) as [Hw1 Hh1].
      { split; [by apply tw_recorded_wf|apply recorded_halts]. }
      destruct E as [(-> & _)|E]; [done|].
      apply (fence_after_spec _ _ _ _ _ _ _ _ _ _ (recorded_response _ _ _ _ _)) in E as (Hs & _).
      split; [by eapply same_records_wf|]. by destruct Hs as (-> & _).
  - destruct (catalog_step fl s profiles) as [Eh Er]. split; [|by rewrite Eh].
    intros key row. unfold halted. rewrite Eh, Er. apply Hw.
Qed.

Lemma run_step sha s cs : wf s → wf (run sha s cs) ∧ halts s ⊆ halts (run sha s cs).
Proof.
  revert s. induction cs as [|c cs IH]; intros s Hw; [done|].
  destruct (tw_run_call_step sha s c Hw) as [Hw1 H1]. destruct (IH _ Hw1) as [Hw2 H2].
  split; [done|]. by trans (halts (run_call sha s c)).
Qed.

Lemma halted_refuses fl s profile generation :
  is_Some (halts s !! (profile, generation)) → is_ok (CheckIssuanceState fl s profile generation) = false.
Proof.
  intros [f Hf]. unfold CheckIssuanceState. rewrite Hf.
  by repeat case_match.
Qed.

Lemma validActions_known seen acts :
  validActions seen acts = true → Forall known acts.
Proof.
  revert seen. induction acts as [|a acts IH]; intros seen H; cbn [validActions] in H; [by constructor|].
  destruct (_ || _) eqn:E; [done|]. bool_hyps. constructor; [|by eapply IH].
  match goal with H : _ && _ = false |- _ => apply andb_false_iff in H end.
  unfold known. destruct (String.eqb_spec a Halt), (String.eqb_spec a FenceAction); naive_solver.
Qed.

Lemma valid_known r : ValidateResponse r = true → Forall known (r_Actions r).
Proof.
  unfold ValidateResponse. destruct (_ || _); [done|].
  destruct (validActions ∅ (r_Actions r)) eqn:E; [|done]. intros _. by eapply validActions_known.
Qed.

Lemma action_states_names now acts :
  Forall known acts → map as_Action (omap (action_state now) acts) = acts.
Proof.
  induction 1 as [|a acts Ha _ IH]; [done|]. cbn [omap list_omap].
  destruct Ha as [-> | ->]; cbn; by rewrite IH.
Qed.

Lemma Authenticate_spec header secret :
  Authenticate header secret = true ↔ secret ≠ "" ∧ header = "Bearer " +:+ secret.
Proof.
  rewrite <- bearer_is_spec. unfold Authenticate, bearer_is.
  destruct (String.eqb_spec secret ""), (has_prefix "Bearer " header); cbn; naive_solver.
Qed.

Lemma actionsAllowed_spec scope acts :
  actionsAllowed scope acts = true →
  (Halt ∈ acts → AllowHalt scope = true) ∧ (FenceAction ∈ acts → AllowFence scope = true).
Proof.
  induction acts as [|a acts IH]; cbn [actionsAllowed]; [by split; intros ?%elem_of_nil|].
  intros H. peel H. destruct (IH H) as [Hh Hf].
  split; (intros [Ha|?]%elem_of_cons; [subst a|by auto]).
  - by destruct (AllowHalt scope).
  - by destruct (AllowFence scope).
Qed.

Lemma tripwireRefAllowed_spec re_compile patterns ref :
  tripwireRefAllowed re_compile patterns ref = true ↔
  ∃ p, p ∈ patterns ∧ ∃ re, re_compile p = Some re ∧ re ref = true.
Proof.
  induction patterns as [|p ps IH]; cbn [tripwireRefAllowed]; [by rewrite elem_exists_nil|].
  rewrite elem_exists_cons, <- IH. destruct (re_compile p) as [re|]; [|naive_solver].
  destruct (re ref) eqn:E; (split; [by eauto 6|]).
  - done.
  - intros [(re' & [= <-] & ?)|?]; [congruence|done].
Qed.

(** What the reviewed configuration allows a request to ask for. *)
Definition within_scope (cfg : PushTripwireConfig) (req : ResponseRequest) : Prop :=
  ∃ scope, ResponseProfiles cfg !! r_Profile req = Some scope ∧
    Generation scope = r_ProfileGeneration req ∧
    (Halt ∈ r_Actions req → AllowHalt scope = true) ∧
    (FenceAction ∈ r_Actions req → AllowFence scope = true) ∧
    (∀ b, r_Binding req = Some b → b ∈ Bindings scope).

Lemma responseWithinReviewedScope_spec cfg req :
  responseWithinReviewedScope cfg req = true → within_scope cfg req.
Proof.
  unfold responseWithinReviewedScope, within_scope. intros H.
  destruct (ResponseProfiles cfg !! r_Profile req) as [scope|]; [|done]. exists scope.
  peel H. bool_hyps. destruct (actionsAllowed_spec scope (r_Actions req)) as [Hh Hf]; [done|].
  split_and!; try done. intros b Hb. rewrite Hb in H.
  apply existsb_elem_of in H as (b' & Hin & Hb'). bool_hyps. by subst.
Qed.

(** ** Properties *)

(** C26: a halt is final.  Whenever [Apply] succeeds, a response is recorded
    under its key with the fingerprint of the request (the request itself when
    the key is new); and if the recorded request asks to halt issuance, then no
    later history of responses, catalog replacements, restarts and faults lets
    an issuance check of that profile generation pass. *)
Theorem halts_final sha fl clock adapter s key req s1 calls out (Hw : wf s) :
  Apply sha fl clock adapter s key req = (s1, calls, Ok out) →
  ∃ row, responses s1 !! key = Some row ∧ row_fingerprint row = fingerprint sha req ∧
    (responses s !! key = None → row_request row = req) ∧
    (Halt ∈ r_Actions (row_request row) → ∀ cs fl',
       is_ok (CheckIssuanceState fl' (run sha s1 cs)
                (r_Profile (row_request row)) (r_ProfileGeneration (row_request row))) = false).
Proof.
  intros E. assert (wf s1) as Hw1.
  { replace s1 with (run_call sha s (TApply fl clock adapter key req)) by (cbn; by rewrite E).
    by apply tw_run_call_step. }
  assert (∃ row, responses s1 !! key = Some row ∧ row_fingerprint row = fingerprint sha req ∧
    (responses s !! key = None → row_request row = req)) as (row & Hk & Hf & Hq).
  { apply Apply_cases in E as [(_ & _ & ? & [=])|[(row & Hk & Hf & E)|(Hn & _ & [(_ & _ & ? & [=])|E])]].
    - apply (replay_spec _ _ _ _ _ _ _ _ _ _ _ Hk) in E as (Hs & _).
      destruct (same_records_row _ _ _ _ _ Hs Hk) as (row' & ? & [= ? ? ? ?]).
      exists row'. rewrite Hk. split_and!; [done|congruence|done].
    - apply (fence_after_spec _ _ _ _ _ _ _ _ _ _ (recorded_response _ _ _ _ _)) in E as (Hs & _).
      destruct (same_records_row _ _ _ key _ Hs (recorded_row _ _ _ _ _)) as (row' & Hk' & [= Hf' Hq' _ _]).
      by exists row'. }
  exists row. split_and!; [done..|]. intros Hh cs fl'. apply halted_refuses.
  destruct (run_step sha s1 cs Hw1) as [_ Hsub]. destruct (Hw1 key row Hk Hh) as [f Hf1].
  exists f. by eapply lookup_weaken.
Qed.

(** A valid response under a new key, with the database available, either
    is refused because it would halt a profile generation that no issuer has
    registered, and then nothing changes and no worker is fenced; or it is
    recorded: the answer lists exactly the requested actions in their order,
    the halt and the fence request are in their tables (the first finding of
    each stays), the stored answer is the one returned, and the catalog and
    every other response are as before. *)
Theorem Apply_fresh sha clock adapter s key req :
  matches idPattern key = true → ValidateResponse req = true → responses s !! key = None →
  (Halt ∈ r_Actions req ∧ ¬ registered s req ∧
   Apply sha None clock adapter s key req = (s, [], Err ErrNotRegistered)) ∨
  ((Halt ∈ r_Actions req → registered s req) ∧ ∃ s' calls out,
   Apply sha None clock adapter s key req = (s', calls, Ok out) ∧
   rr_FindingID out = r_FindingID req ∧ rr_IdempotentReplay out = false ∧
   map as_Action (rr_Actions out) = r_Actions req ∧ catalog s' = catalog s ∧
   halts s' = (if bool_decide (Halt ∈ r_Actions req)
               then insert_or_ignore (r_Profile req, r_ProfileGeneration req) (r_FindingID req) (halts s)
               else halts s) ∧
   dom (fence_requests s') = (if bool_decide (FenceAction ∈ r_Actions req)
               then {[r_FindingID req]} ∪ dom (fence_requests s) else dom (fence_requests s)) ∧
   (∃ row, responses s' !! key = Some row ∧ row_response row = out) ∧
   (∀ k, k ≠ key → responses s' !! k = responses s !! k)).
Proof.
  intros Hkey Hv Hn. unfold Apply. rewrite Hkey, fails_none, Hn. cbn [negb].
  destruct (decide (Halt ∈ r_Actions req ∧ ¬ registered s req)) as [[Hh Hr]|Hr].
  { left. split_and!; [done..|]. unfold record. rewrite !fails_none.
    by rewrite record_actions_unregistered. }
  right. assert (Halt ∈ r_Actions req → registered s req) as Hreg.
  { intros ?. destruct (decide (registered s req)) as [|Hx]; [done|]. by destruct Hr. }
  split; [done|]. rewrite record_total, fails_none by done.
  set (s1 := recorded _ _ _ _ _). set (out1 := first_result _ _).
  destruct (fence_after None clock adapter s1 key req out1) as [[s' calls] r] eqn:E.
  assert (∃ out, r = Ok out) as [out ->].
  { unfold fence_after in E. rewrite !fails_none in E. repeat case_match; simplify_eq; eauto. }
  apply (fence_after_spec _ _ _ _ _ _ _ _ _ _ (recorded_response _ _ _ _ _)) in E as ((Eh & Ec & Ef & _ & Er) & _ & Ho).
  destruct (Ho out eq_refl) as (Hrep & Hid & Hact & Hrow).
  destruct (effects_spec req s (r_Actions req)) as (Xh & Xc & _ & Xf).
  exists s', calls, out. split_and!; [done..| | | | | |].
  - rewrite Hact. by apply action_states_names, valid_known.
  - by rewrite Ec, <- Xc.
  - by rewrite Eh, <- Xh.
  - rewrite Ef. unfold s1, recorded; cbn [fence_requests set_responses]. rewrite Xf.
    case_bool_decide; [|done]. unfold insert_or_ignore.
    destruct (fence_requests s !! r_FindingID req) eqn:El; [|by rewrite dom_insert_L].
    apply elem_of_dom_2 in El. set_solver.
  - eapply Hrow, recorded_row.
  - intros k Hne. rewrite (Er k Hne). unfold s1, recorded; cbn [responses set_responses].
    by rewrite lookup_insert_ne.
Qed.

(** All fences of a response have been confirmed, or none was requested. *)
Definition completed (out : ResponseResult) : bool :=
  forallb (λ a, negb (awaits_fence a)) (rr_Actions out).

Lemma Apply_known sha fl clock adapter s key req row s' calls r :
  responses s !! key = Some row →
  Apply sha fl clock adapter s key req = (s', calls, r) →
  same_records key s s' ∧
  (row_fingerprint row ≠ fingerprint sha req → s' = s ∧ calls = [] ∧ is_ok r = false) ∧
  (∀ out, r = Ok out → row_fingerprint row = fingerprint sha req ∧ rr_IdempotentReplay out = true ∧
     rr_FindingID out = rr_FindingID (row_response row) ∧
     map as_Action (rr_Actions out) = map as_Action (rr_Actions (row_response row))) ∧
  (completed (row_response row) = true →
     s' = s ∧ calls = [] ∧ ∀ out, r = Ok out → out = as_replay (row_response row)).
Proof.
  intros Hk E. unfold Apply in E. destruct (negb _); [simplify_eq; split_and!; done|].
  destruct (fails fl 0); [simplify_eq; split_and!; done|]. rewrite Hk in E.
  apply (replay_spec _ _ _ _ _ _ _ _ _ _ _ Hk) in E as (H1 & _ & H3 & H4 & H5).
  split_and!; [done| |done|].
  - intros Hf. by destruct (H4 Hf) as (-> & -> & ->).
  - intros Hc. destruct (decide (row_fingerprint row = fingerprint sha req)) as [Hf|Hf].
    + destruct (H5 Hf Hc) as (-> & -> & ->). split_and!; [done..|]. by intros out [= ->].
    + by destruct (H4 Hf) as (-> & -> & ->).
Qed.

(** What a history does to the response under a key. *)
Definition kept (s s' : store) (key : string) : Prop :=
  ∀ row, responses s !! key = Some row → ∃ row', responses s' !! key = Some row' ∧
    row_key row' = row_key row ∧ (completed (row_response row) = true → row' = row).

Lemma run_call_kept sha s c key : kept s (run_call sha s c) key.
Proof.
  intros row Hk. destruct c as [fl clock adapter k req|fl profiles]; cbn [run_call].
  - destruct (Apply sha fl clock adapter s k req) as [[s' calls] r] eqn:E; cbn [fst].
    destruct (decide (k = key)) as [->|Hne].
    + destruct (Apply_known _ _ _ _ _ _ _ _ _ _ _ Hk E) as (Hs & _ & _ & Hc).
      destruct (same_records_row _ _ _ _ _ Hs Hk) as (row' & Hk' & Hr). exists row'.
      split_and!; [done..|]. intros Hd. destruct (Hc Hd) as (-> & _). congruence.
    + exists row. assert (responses s' !! key = responses s !! key) as ->; [|done].
      apply Apply_cases in E as [(-> & _)|[(row1 & Hk1 & _ & E)|(_ & _ & E)]]; [done| |].
      * apply (replay_spec _ _ _ _ _ _ _ _ _ _ _ Hk1) in E as ((_ & _ & _ & _ & Ho) & _).
        by apply Ho.
      * assert (responses s' !! key =
          responses (recorded s k (fingerprint sha req) req (first_result (clock 0%nat) req)) !! key) as ->.
        { destruct E as [(-> & _)|E]; [done|].
          apply (fence_after_spec _ _ _ _ _ _ _ _ _ _ (recorded_response _ _ _ _ _)) in E
            as ((_ & _ & _ & _ & Ho) & _). by apply Ho. }
        by apply lookup_insert_ne.
  - exists row. destruct (catalog_step fl s profiles) as [_ ->]. done.
Qed.

Lemma run_kept sha s cs key : kept s (run sha s cs) key.
Proof.
  revert s. induction cs as [|c cs IH]; intros s row Hk; [by exists row|].
  destruct (run_call_kept sha s c key row Hk) as (row1 & Hk1 & Hr1 & Hc1).
  destruct (IH _ row1 Hk1) as (row2 & Hk2 & Hr2 & Hc2). exists row2.
  split_and!; [done|congruence|]. intros Hd. specialize (Hc1 Hd) as ->. auto.
Qed.

Lemma Apply_stores sha fl clock adapter s key req s1 calls out :
  Apply sha fl clock adapter s key req = (s1, calls, Ok out) →
  ∃ row, responses s1 !! key = Some row ∧ row_fingerprint row = fingerprint sha req ∧
    rr_FindingID out = rr_FindingID (row_response row) ∧
    map as_Action (rr_Actions out) = map as_Action (rr_Actions (row_response row)) ∧
    (responses s !! key = None → row_response row = out).
Proof.
  intros E. apply Apply_cases in E as [(_ & _ & ? & [=])|[(row & Hk & Hf & E)|(Hn & _ & [(_ & _ & ? & [=])|E])]].
  - apply (replay_spec _ _ _ _ _ _ _ _ _ _ _ Hk) in E as (Hs & _ & Ho & _).
    destruct (same_records_row _ _ _ _ _ Hs Hk) as (row' & ? & [= ? ? Hi Ha]).
    destruct (Ho out eq_refl) as (_ & _ & Hi' & Ha'). exists row'. rewrite Hk.
    split_and!; [done|congruence|congruence|congruence|done].
  - apply (fence_after_spec _ _ _ _ _ _ _ _ _ _ (recorded_response _ _ _ _ _)) in E as (Hs & _ & Ho).
    destruct (Ho out eq_refl) as (_ & Hi & Ha & Hrow).
    destruct (Hrow _ (recorded_row _ _ _ _ _)) as (row & Hk & <-).
    destruct (same_records_row _ _ _ key _ Hs (recorded_row _ _ _ _ _)) as (row' & Hk' & [= Hf' _ _ _]).
    exists row. simplify_eq. done.
Qed.

(** A response is applied at most once.  After [Apply] has succeeded under a
    key, and after any history of other calls, a second [Apply] under that key
    - with a request of another fingerprint is refused, changes nothing and
      fences nobody;
    - with a request of the same fingerprint never halts, registers or requests
      anything again, and an answer it gives is marked as a replay, for the same
      finding and actions;
    - and once the recorded answer has no fence left to confirm, the second call
      makes no fence call, changes nothing and returns that very answer. *)
Theorem Apply_idempotent sha fl clock adapter s key req s1 calls out :
  Apply sha fl clock adapter s key req = (s1, calls, Ok out) →
  ∀ cs fl2 clock2 adapter2 req2 s3 calls2 r2,
    let s2 := run sha s1 cs in
    Apply sha fl2 clock2 adapter2 s2 key req2 = (s3, calls2, r2) →
    same_records key s2 s3 ∧
    (fingerprint sha req2 ≠ fingerprint sha req → s3 = s2 ∧ calls2 = [] ∧ is_ok r2 = false) ∧
    (∀ out2, r2 = Ok out2 → rr_IdempotentReplay out2 = true ∧ rr_FindingID out2 = rr_FindingID out ∧
       map as_Action (rr_Actions out2) = map as_Action (rr_Actions out)) ∧
    (responses s !! key = None → completed out = true →
       s3 = s2 ∧ calls2 = [] ∧ ∀ out2, r2 = Ok out2 → out2 = as_replay out).
Proof.
  intros E cs fl2 clock2 adapter2 req2 s3 calls2 r2 s2 E2.
  apply Apply_stores in E as (row & Hk & Hf & Hi & Ha & Hn).
  destruct (run_kept sha s1 cs key row Hk) as (row2 & Hk2 & [= Hf2 Hq2 Hi2 Ha2] & Hc).
  destruct (Apply_known _ _ _ _ _ _ _ _ _ _ _ Hk2 E2) as (H1 & H2 & H3 & H4).
  split_and!; [done| | |].
  - intros Hne. apply H2. congruence.
  - intros out2 Ho. destruct (H3 out2 Ho) as (_ & ? & ? & ?). split_and!; congruence.
  - intros Hnone Hd. specialize (Hn Hnone) as <-. specialize (Hc Hd) as ->. by apply H4.
Qed.

(** Response controls act only within the reviewed scope.  The handler
    touches the store or fences a worker only for a POST that presents the
    configured scanner secret while the feature is on, whose body is a valid
    response request of high severity for a configured repository and a ref that
    one of its patterns matches, whose profile generation, actions and worker
    binding the configuration allows.  It is then exactly one [Apply] under the
    trimmed idempotency key, answered 200 when that succeeds and with an error
    status otherwise, and every fence call names a reviewed binding and the
    finding.  Any other request is refused with no effect. *)
Theorem handlePushTripwireResponse_gate sha re_compile cfg fl clock adapter mounted s r ikey :
  let p := handlePushTripwireResponse sha re_compile cfg fl clock adapter mounted s r ikey in
  (p.1 = (s, []) ∧ success p.2 = false) ∨
  (r_Method r = "POST" ∧ Enabled cfg = true ∧ mounted = true ∧
   ScannerSecret cfg ≠ "" ∧ r_Authorization r = "Bearer " +:+ ScannerSecret cfg ∧
   ∃ req repo, r_Body r = Json req ∧ ValidateResponse req = true ∧ r_Severity req = "high" ∧
     Repositories cfg !! r_Repository req = Some repo ∧
     (∃ pat, pat ∈ RefPatterns repo ∧ ∃ re, re_compile pat = Some re ∧ re (r_Ref req) = true) ∧
     within_scope cfg req ∧
     let q := Apply sha fl clock adapter s (trim_space ikey) req in
     p.1 = q.1 ∧ success p.2 = is_ok q.2 ∧
     (∀ b finding, (b, finding) ∈ q.1.2 → finding = r_FindingID req ∧
        ∃ scope, ResponseProfiles cfg !! r_Profile req = Some scope ∧ b ∈ Bindings scope)).
Proof.
  cbv zeta. unfold handlePushTripwireResponse.
  destruct (String.eqb_spec (r_Method r) "POST") as [Hm|]; cbn [negb]; [|by left].
  destruct (Enabled cfg), mounted; cbn [negb orb]; try by left.
  destruct (Authenticate _ _) eqn:Ea; cbn [negb]; [|by left]. apply Authenticate_spec in Ea as [Hs Ha].
  destruct (r_Body r) as [| | |req] eqn:Eb; try by left.
  destruct (ValidateResponse req) eqn:Ev; cbn [negb]; [|by left].
  destruct (String.eqb_spec (r_Severity req) "high") as [Hh|]; cbn [negb]; [|by left].
  destruct (Repositories cfg !! r_Repository req) as [repo|] eqn:Er; [|by left].
  destruct (tripwireRefAllowed _ _ _) eqn:Et; cbn [negb]; [|by left].
  apply tripwireRefAllowed_spec in Et.
  destruct (responseWithinReviewedScope cfg req) eqn:Ew; cbn [negb]; [|by left].
  apply responseWithinReviewedScope_spec in Ew.
  right. split_and!; try done. exists req, repo. split_and!; try done.
  - by destruct (Apply _ _ _ _ _ _ _) as [[s' calls] [out|e]].
  - destruct (Apply _ _ _ _ _ _ _) as [[s' calls] [out|e]]; [done|]. by destruct e.
  - destruct (Apply _ _ _ _ _ _ _) as [[s' calls] r'] eqn:E; cbn [fst snd].
    apply Apply_calls in E. intros b finding Hin. destruct (E _ Hin) as (b' & Hb & [= -> ->]).
    split; [done|]. destruct Ew as (scope & ? & _ & _ & _ & Hin'). eauto.
Qed.

(** ** Concrete requests *)

Definition sample_binding : Binding :=
  {| WorkerID := "w1"; LogicalSessionID := "s1"; SessionLineageID := "l1";
     WorkerStorageLineageID := "v1"; WorkerFenceEpoch := 1 |}.

Definition sample_request (actions : list string) : ResponseRequest :=
  {| r_Version := Version; r_FindingID := "f1"; r_DeliveryID := "d1"; r_Repository := "o/r";
     r_Ref := "refs/heads/main"; r_Before := zero_sha;
     r_After := String.string_of_list_ascii (replicate 40 "a"%char);
     r_Severity := "high"; r_ReasonCode := "leak"; r_FingerprintID := ""; r_Profile := "p";
     r_ProfileGeneration := 1; r_Binding := Some sample_binding; r_Actions := actions |}.

Definition registered_store : store :=
  {| halts := ∅; catalog := {[("p", 1)]}; responses := ∅; fence_requests := ∅ |}.

Definition clock0 : nat → time := λ _, 0.
Definition no_hash : string → string := λ s, s.

Definition sample_config (fence : bool) : PushTripwireConfig :=
  {| Enabled := true; ScannerSecret := "k";
     Repositories := {["o/r" := {| RefPatterns := ["^refs/heads/main$"] |}]};
     ResponseProfiles := {["p" := {| Generation := 1; AllowHalt := true; AllowFence := fence;
                                     Bindings := [sample_binding] |}]} |}.
Definition main_only : string → option (string → bool) :=
  λ _, Some (λ ref, ref =? "refs/heads/main")%string.

Definition sample_post (actions : list string) : request (body ResponseRequest) :=
  {| r_Method := "POST"; r_Path := "/v1/push-tripwire/respond"; r_Authorization := "Bearer k";
     r_Body := Json (sample_request actions) |}.

(** A request for a halt alone, in a profile whose scope does not allow a fence,
    still makes the broker fence the worker its binding names. *)
Lemma fences_without_the_action :
  let p := handlePushTripwireResponse no_hash main_only (sample_config false) None clock0
             (Some (λ _, true)) true registered_store (sample_post [Halt]) "k1" in
  status p.2 = 200 ∧ p.1.2 = [(sample_binding, "f1")].
Proof. vm_compute. done. Qed.

Definition both := sample_request [Halt; FenceAction].
Definition first_apply := Apply no_hash None clock0 (Some (λ _, true)) registered_store "k1" both.
Definition first_out : ResponseResult :=
  {| rr_Version := Version; rr_FindingID := "f1"; rr_IdempotentReplay := false;
     rr_Actions := [{| as_Action := Halt; as_State := "halted"; as_CompletedAt := formatTime (clock0 0%nat) |};
                    {| as_Action := FenceAction; as_State := "fenced";
                       as_CompletedAt := formatTime (clock0 0%nat) |}] |}.

Lemma first_apply_run : first_apply = (first_apply.1.1, first_apply.1.2, Ok first_out).
Proof.
  assert (first_apply.2 = Ok first_out) as E by (vm_compute; reflexivity).
  destruct first_apply as [[? ?] ?]. cbn in *. by subst.
Defined.

Lemma registered_wf : wf registered_store.
Proof. by intros key row H. Qed.

Lemma halts_final_witness :
  ∃ row, responses first_apply.1.1 !! "k1" = Some row ∧ row_fingerprint row = fingerprint no_hash both ∧
    (responses registered_store !! "k1" = None → row_request row = both) ∧
    (Halt ∈ r_Actions (row_request row) → ∀ cs fl',
       is_ok (CheckIssuanceState fl' (run no_hash first_apply.1.1 cs)
                (r_Profile (row_request row)) (r_ProfileGeneration (row_request row))) = false).
Proof.
  apply (halts_final no_hash None clock0 (Some (λ _, true)) registered_store "k1" both
           first_apply.1.1 first_apply.1.2 first_out registered_wf first_apply_run).
Defined.

Lemma Apply_fresh_witness :
  (Halt ∈ r_Actions both ∧ ¬ registered registered_store both ∧
   first_apply = (registered_store, [], Err ErrNotRegistered)) ∨
  ((Halt ∈ r_Actions both → registered registered_store both) ∧ ∃ s' calls out,
   first_apply = (s', calls, Ok out) ∧
   rr_FindingID out = r_FindingID both ∧ rr_IdempotentReplay out = false ∧
   map as_Action (rr_Actions out) = r_Actions both ∧ catalog s' = catalog registered_store ∧
   halts s' = (if bool_decide (Halt ∈ r_Actions both)
               then insert_or_ignore (r_Profile both, r_ProfileGeneration both) (r_FindingID both)
                      (halts registered_store)
               else halts registered_store) ∧
   dom (fence_requests s') = (if bool_decide (FenceAction ∈ r_Actions both)
               then {[r_FindingID both]} ∪ dom (fence_requests registered_store)
               else dom (fence_requests registered_store)) ∧
   (∃ row, responses s' !! "k1" = Some row ∧ row_response row = out) ∧
   (∀ k, k ≠ "k1" → responses s' !! k = responses registered_store !! k)).
Proof.
  apply (Apply_fresh no_hash clock0 (Some (λ _, true)) registered_store "k1" both);
    [vm_compute; reflexivity..|reflexivity].
Defined.

Definition second_apply :=
  Apply no_hash None clock0 (Some (λ _, true)) (run no_hash first_apply.1.1 [TCatalog None {["q" := 2]}]) "k1" both.

Lemma Apply_idempotent_witness :
  let s2 := run no_hash first_apply.1.1 [TCatalog None {["q" := 2]}] in
  second_apply.2 = Ok (as_replay first_out) ∧
  (same_records "k1" s2 second_apply.1.1 ∧
   (fingerprint no_hash both ≠ fingerprint no_hash both →
      second_apply.1.1 = s2 ∧ second_apply.1.2 = [] ∧ is_ok second_apply.2 = false) ∧
   (∀ out2, second_apply.2 = Ok out2 → rr_IdempotentReplay out2 = true ∧
      rr_FindingID out2 = rr_FindingID first_out ∧
      map as_Action (rr_Actions out2) = map as_Action (rr_Actions first_out)) ∧
   (responses registered_store !! "k1" = None → completed first_out = true →
      second_apply.1.1 = s2 ∧ second_apply.1.2 = [] ∧
      ∀ out2, second_apply.2 = Ok out2 → out2 = as_replay first_out)).
Proof.
  split; [vm_compute; reflexivity|].
  apply (Apply_idempotent no_hash None clock0 (Some (λ _, true)) registered_store "k1" both
           first_apply.1.1 first_apply.1.2 first_out first_apply_run
           [TCatalog None {["q" := 2]}] None clock0 (Some (λ _, true)) both).
  fold second_apply. by destruct second_apply as [[? ?] ?].
Defined.
