(* ===== verification/Net.v ===== *)
(** * net/http and net/url, as the broker reads requests

    HTTP basic authentication (with the Base64 decoder it needs), query
    strings, header maps with canonical keys, strings.Fields,
    strconv.Atoi and strconv.ParseInt in base 16. *)

From S2P Require Import Prelude GoStrings.
Open Scope string_scope.
Open Scope list_scope.
Open Scope Z_scope.

Definition text (l : list ascii) : string := String.string_of_list_ascii l.

(** strings.Cut at a byte *)
Fixpoint cut (sep : ascii) (s : string) : option (string * string) :=
  match s with
  | EmptyString => None
  | String c s =>
    if Ascii.eqb c sep then Some ("", s)
    else match cut sep s with Some (a, b) => Some (String c a, b) | None => None end
  end.

(** strings.Split at a byte *)
Fixpoint split_at (sep : ascii) (s : string) : list string :=
  match s with
  | EmptyString => [""]
  | String c s =>
    if Ascii.eqb c sep then "" :: split_at sep s
    else match split_at sep s with
         | [] => [String c ""]
         | p :: ps => String c p :: ps
         end
  end.

(** strings.TrimRight(s, "/") *)
Definition trim_right_slash (s : string) : string :=
  let fix go l := match l with c :: l' => if Ascii.eqb c "/" then go l' else l | [] => [] end in
  text (reverse (go (reverse (chars s)))).

(** strings.Fields: the maximal runs of bytes that begin no space rune. *)
Definition emit (cur : string) : list string := if (cur =? "")%string then [] else [cur].
Fixpoint fields_from (fuel : nat) (cur s : string) : list string :=
  match fuel with
  | O => emit cur
  | S fuel =>
    match s with
    | EmptyString => emit cur
    | String c s' =>
      match List.find (λ e, has_prefix e s) space_encodings with
      | Some e => emit cur ++ fields_from fuel "" (sdrop (String.length e) s)
      | None => fields_from fuel (cur +:+ String c "") s'
      end
    end
  end.
Definition fields (s : string) : list string := fields_from (S (String.length s)) "" s.

(** ** strconv.ParseInt(s, 16, 32), for texts too short to leave its range *)

Definition hex_value (c : ascii) : option Z :=
  if is_digit c then Some (Z.of_nat (code c) - 48)
  else if in_range 97 102 c then Some (Z.of_nat (code c) - 87)
  else if in_range 65 70 c then Some (Z.of_nat (code c) - 55)
  else None.

Fixpoint hex_number (acc : Z) (s : string) : option Z :=
  match s with
  | EmptyString => Some acc
  | String c s => match hex_value c with Some d => hex_number (acc * 16 + d) s | None => None end
  end.

Definition parse_unsigned (s : string) : option Z :=
  match s with EmptyString => None | _ => hex_number 0 s end.

Definition ParseInt16 (s : string) : option Z :=
  match s with
  | String "+" s => parse_unsigned s
  | String "-" s => option_map Z.opp (parse_unsigned s)
  | _ => parse_unsigned s
  end.

(** ** strconv.Atoi and strconv.ParseInt(s, 10, 64) *)

Fixpoint decimal (acc : Z) (s : string) : option Z :=
  match s with
  | EmptyString => Some acc
  | String c s => if is_digit c then decimal (acc * 10 + (Z.of_nat (code c) - 48)) s else None
  end.
Definition decimal_number (s : string) : option Z :=
  match s with EmptyString => None | _ => decimal 0 s end.
Definition in_int64 (z : Z) : option Z := if (min_int64 <=? z) && (z <=? max_int64) then Some z else None.
Definition Atoi (s : string) : option Z :=
  match s with
  | String "+" s => decimal_number s
  | String "-" s => Z.opp <$> decimal_number s
  | _ => decimal_number s
  end ≫= in_int64.

(** ** base64.StdEncoding.DecodeString *)

Definition sextet (c : ascii) : option Z :=
  let n := Z.of_nat (code c) in
  if is_upper c then Some (n - 65)
  else if is_lower c then Some (n - 71)
  else if is_digit c then Some (n + 4)
  else if Ascii.eqb c "+" then Some 62
  else if Ascii.eqb c "/" then Some 63
  else None.

Definition byte (z : Z) : ascii := ascii_of_nat (Z.to_nat (z mod 256)).

(** Quanta of four characters; padding only in the last one. *)
Fixpoint decode_quanta (l : list ascii) : option (list ascii) :=
  match l with
  | [] => Some []
  | a :: b :: c :: d :: rest =>
    match sextet a, sextet b with
    | Some x, Some y =>
      let b1 := byte (x * 4 + y / 16) in
      if Ascii.eqb c "=" then if Ascii.eqb d "=" && is_nil rest then Some [b1] else None
      else match sextet c with
           | None => None
           | Some z =>
             let b2 := byte (y * 16 + z / 4) in
             if Ascii.eqb d "=" then if is_nil rest then Some [b1; b2] else None
             else match sextet d, decode_quanta rest with
                  | Some w, Some l => Some (b1 :: b2 :: byte (z * 64 + w) :: l)
                  | _, _ => None
                  end
           end
    | _, _ => None
    end
  | _ => None
  end.

Definition is_newline (c : ascii) : bool := (code c =? 10)%nat || (code c =? 13)%nat.
Definition base64_decode (s : string) : option string :=
  text <$> decode_quanta (List.filter (λ c, negb (is_newline c)) (chars s)).

(** ** Requests *)

(** A header map: canonical keys. *)
Definition headers := gmap string (list string).

Definition header_get (h : gmap string (list string)) (k : string) : string :=
  match h !! k with Some (v :: _) => v | _ => "" end.

Fixpoint ascii_equal_fold (a b : string) : bool :=
  match a, b with
  | EmptyString, EmptyString => true
  | String c a, String d b => Ascii.eqb (lower_char c) (lower_char d) && ascii_equal_fold a b
  | _, _ => false
  end.

(** http.Request.BasicAuth, of the Authorization header *)
Definition BasicAuth (h : gmap string (list string)) : option (string * string) :=
  let auth := header_get h "Authorization" in
  if ascii_equal_fold (stake 6 auth) "Basic " then
    match base64_decode (sdrop 6 auth) with
    | Some cs => cut ":" cs
    | None => None
    end
  else None.

(** ** url.ParseQuery *)

(** url.QueryUnescape *)
Fixpoint unescape (s : string) : option string :=
  match s with
  | EmptyString => Some EmptyString
  | String c s =>
    if Ascii.eqb c "%" then
      match s with
      | String a (String b s) =>
        match hex_value a, hex_value b, unescape s with
        | Some x, Some y, Some s => Some (String (byte (x * 16 + y)) s)
        | _, _, _ => None
        end
      | _ => None
      end
    else String (if Ascii.eqb c "+" then " "%char else c) <$> unescape s
  end.

(** url.PathUnescape *)
Fixpoint path_unescape (s : string) : option string :=
  match s with
  | EmptyString => Some ""
  | String c r =>
    if Ascii.eqb c "%" then
      match r with
      | String a (String b r) =>
        match hex_value a, hex_value b, path_unescape r with
        | Some x, Some y, Some r => Some (String (byte (x * 16 + y)) r)
        | _, _, _ => None
        end
      | _ => None
      end
    else String c <$> path_unescape r
  end.

Definition query_pair (part : string) : option (option (string * string)) :=
  if GoStrings.contains part ";" then None
  else if (part =? "")%string then Some None
  else let '(k, v) := default (part, "") (cut "=" part) in
       match unescape k, unescape v with
       | Some k, Some v => Some (Some (k, v))
       | _, _ => None
       end.

Fixpoint query_pairs (parts : list string) : option (list (string * string)) :=
  match parts with
  | [] => Some []
  | p :: parts =>
    match query_pair p, query_pairs parts with
    | Some (Some kv), Some l => Some (kv :: l)
    | Some None, Some l => Some l
    | _, _ => None
    end
  end.

(** [None] when any pair is malformed. *)
Definition ParseQuery (raw : string) : option (gmap string (list string)) :=
  foldr (λ '(k, v) m, <[k := v :: default [] (m !! k)]> m) ∅ <$> query_pairs (split_at "&" raw).

(** ** Facts *)

Lemma cut_spec sep s a b : cut sep s = Some (a, b) → s = a +:+ String sep b.
Proof.
  revert a b. induction s as [|c s IH]; intros a b H; cbn in H; [done|].
  destruct (Ascii.eqb_spec c sep) as [->|].
  - by simplify_eq.
  - destruct (cut sep s) as [[a' b']|]; [|done]. simplify_eq. rewrite sapp_cons. by rewrite (IH a' b).
Qed.

Lemma length_chars s : length (chars s) = String.length s.
Proof. induction s as [|c s IH]; [done|]. cbn. f_equal. exact IH. Qed.

Lemma chars_app a b : chars (a +:+ b) = chars a ++ chars b.
Proof. induction a as [|c a IH]; [done|]. rewrite sapp_cons. cbn. by f_equal. Qed.

Lemma all_chars_impl (p q : ascii → bool) s :
  (∀ c, p c = true → q c = true) → all_chars p s = true → all_chars q s = true.
Proof. unfold all_chars. rewrite !forallb_elem_of. eauto. Qed.

Lemma all_chars_cons p c s : all_chars p (String c s) = p c && all_chars p s.
Proof. reflexivity. Qed.

Lemma cut_app sep a b : all_chars (λ c, negb (Ascii.eqb c sep)) a = true → cut sep (a +:+ String sep b) = Some (a, b).
Proof.
  induction a as [|c a IH]; intros H.
  - rewrite sapp_nil. cbn [cut]. by rewrite Ascii.eqb_refl.
  - rewrite all_chars_cons in H. apply andb_true_iff in H as [Hc Ha]. rewrite sapp_cons. cbn [cut].
    destruct (Ascii.eqb c sep); [done|]. by rewrite IH.
Qed.

Lemma cut_none sep a : all_chars (λ c, negb (Ascii.eqb c sep)) a = true → cut sep a = None.
Proof.
  induction a as [|c a IH]; intros H; [done|].
  rewrite all_chars_cons in H. apply andb_true_iff in H as [Hc Ha]. cbn [cut].
  destruct (Ascii.eqb c sep); [done|]. by rewrite IH.
Qed.

Lemma all_chars_app p a b : all_chars p (a +:+ b) = all_chars p a && all_chars p b.
Proof. unfold all_chars. by rewrite chars_app, forallb_app. Qed.

Lemma split_none sep s : all_chars (λ c, negb (Ascii.eqb c sep)) s = true → split_at sep s = [s].
Proof.
  induction s as [|c s IH]; [done|]. rewrite all_chars_cons. intros [Hc Hs]%andb_true_iff.
  cbn [split_at]. apply negb_true_iff in Hc. by rewrite Hc, IH.
Qed.

Lemma split_app sep a b : all_chars (λ c, negb (Ascii.eqb c sep)) a = true →
  split_at sep (a +:+ String sep b) = a :: split_at sep b.
Proof.
  induction a as [|c a IH]; [by rewrite sapp_nil; cbn; rewrite Ascii.eqb_refl|]. rewrite all_chars_cons.
  intros [Hc Ha]%andb_true_iff. rewrite sapp_cons. cbn [split_at]. apply negb_true_iff in Hc. by rewrite Hc, IH.
Qed.

Definition free_of (sep : ascii) (s : string) : Prop := all_chars (λ c, negb (Ascii.eqb c sep)) s = true.

Lemma split_join sep l : l ≠ [] → Forall (free_of sep) l → split_at sep (GoStrings.join (String sep "") l) = l.
Proof.
  intros Hl Hf. induction Hf as [|a l Ha Hf IH]; [done|]. destruct l as [|b l]; [by apply split_none|].
  change (GoStrings.join (String sep "") (a :: b :: l)) with (a +:+ String sep (GoStrings.join (String sep "") (b :: l))).
  by rewrite split_app, IH.
Qed.

Lemma length_stake n s : String.length (stake n s) = Nat.min n (String.length s).
Proof. revert s. induction n as [|n IH]; intros [|c s]; cbn; try done. by rewrite IH. Qed.

Lemma stake_app n a b : String.length a = n → stake n (a +:+ b) = a.
Proof.
  intros <-. induction a as [|c a IH]; [by destruct b|]. rewrite sapp_cons. cbn. by rewrite IH.
Qed.

Lemma sdrop_app n a b : String.length a = n → sdrop n (a +:+ b) = b.
Proof. intros <-. induction a as [|c a IH]; [by destruct b|]. rewrite sapp_cons. cbn. by rewrite IH. Qed.

(** Printable ASCII without the space: no byte begins a space rune. *)
Definition graphic (c : ascii) : bool := in_range 33 126 c.
Definition graphic_text (s : string) : bool := all_chars graphic s.

Lemma graphic_no_space c s :
  graphic c = true → List.find (λ e, has_prefix e (String c s)) space_encodings = None.
Proof.
  assert (∀ e, e ∈ space_encodings → ∃ d r, e = String d r ∧ graphic d = false) as Hall.
  { assert (forallb (λ e, match e with String d _ => negb (graphic d) | _ => false end) space_encodings = true)
      as Hb by (vm_compute; reflexivity).
    intros e He. rewrite forallb_elem_of in Hb. specialize (Hb e He). destruct e as [|d r]; [done|].
    exists d, r. split; [done|]. by destruct (graphic d). }
  intros Hc. destruct (List.find _ _) as [e|] eqn:E; [|done].
  apply find_some_in in E as [Hin Hp]. destruct (Hall e Hin) as (d & r & -> & Hd).
  cbn in Hp. apply andb_true_iff in Hp as [Hp _]. apply Ascii.eqb_eq in Hp as ->. congruence.
Qed.

Lemma fields_word fuel cur w s :
  graphic_text w = true →
  fields_from (String.length w + fuel) cur (w +:+ s) = fields_from fuel (cur +:+ w) s.
Proof.
  revert cur. induction w as [|c w IH]; intros cur Hw; [by rewrite sapp_nil_r|].
  cbn in Hw. apply andb_true_iff in Hw as [Hc Hw]. rewrite sapp_cons.
  cbn [String.length Nat.add fields_from]. rewrite graphic_no_space by done.
  rewrite IH by done. by rewrite sapp_assoc.
Qed.

Lemma fields_space fuel cur s :
  fields_from (S fuel) cur (String " " s) = emit cur ++ fields_from fuel "" s.
Proof. reflexivity. Qed.

Lemma fields_newline fuel cur : fields_from (S (S fuel)) cur (str [10%nat]) = emit cur.
Proof. change (emit cur ++ [] = emit cur). apply app_nil_r. Qed.

Lemma emit_nonempty w : w ≠ "" → emit w = [w].
Proof. unfold emit. by destruct (String.eqb_spec w ""). Qed.

Example basic_auth : BasicAuth {["Authorization" := ["basic YTE6czpjcmV0"]]} = Some ("a1", "s:cret").
Proof. vm_compute. reflexivity. Qed.
Example basic_auth_padding : base64_decode "YTE6cw==" = Some "a1:s".
Proof. vm_compute. reflexivity. Qed.
Example parse_query_ex :
  ParseQuery "service=git%2Dupload-pack" = Some {["service" := ["git-upload-pack"]]}.
Proof. vm_compute. reflexivity. Qed.
Example fields_ex : fields " a  bc	d" = ["a"; "bc"; "d"].
Proof. vm_compute. reflexivity. Qed.
Example parse_signed : ParseInt16 "+00b" = Some 11 ∧ ParseInt16 "-000" = Some 0 ∧ ParseInt16 "00g1" = None.
Proof. done. Qed.
Example atoi_ex :
  (Atoi "42", Atoi "+7", Atoi "-3", Atoi "", Atoi "1_0", Atoi "9223372036854775808") =
  (Some 42, Some 7, Some (-3), None, None, None).
Proof. by vm_compute. Qed.
