(* ===== verification/ReceivePack.v ===== *)
(** * The receive-pack command prefix: internal/server/server.go

    A push starts with pkt-lines naming the refs it updates, up to a flush
    packet.  The broker reads that prefix of the body (at most 256 KiB), decides
    on the refs, and forwards the very bytes it read followed by the rest.  The
    body is the bytes the reader delivers before its end or its first error. *)

From S2P Require Import Prelude GoStrings GoJson Regex Net.
Open Scope string_scope.
Open Scope list_scope.
Open Scope Z_scope.

Record receivePackUpdate := { Before : string; After : string; Ref : string }.

Definition maxReceivePackCommandPrefixBytes : Z := 262144.

Inductive prefix_failure :=
| ShortRead
| BadPktLineLength
| NonHexLength
| ZeroUpdates
| MalformedSHA
| MalformedRefName
| ExceededBound
| MalformedUpdate
| MalformedShallow
| TooManyUpdates
| OutOfFuel.

Definition githubSHA : re := repeat_re 40 (Cls is_lower_hex).

Definition slen (s : string) : Z := Z.of_nat (String.length s).

Definition nul : ascii := ascii_of_nat 0.
Definition newline : string := str [10%nat].

Definition trim_newline (payload : string) : string :=
  let l := chars payload in
  match last l with
  | Some c => if (code c =? 10)%nat then stake (String.length payload - 1) payload else payload
  | None => payload
  end.

Definition validReceivePackShallow (payload : string) : bool :=
  let payload := trim_newline payload in
  (slen payload =? slen "shallow " + 40) && has_prefix "shallow " payload
  && matches githubSHA (sdrop (String.length "shallow ") payload).

(** One command line, up to its NUL and its capabilities. *)
Definition command (payload : string) : result prefix_failure receivePackUpdate :=
  let line := match cut nul payload with Some (line, _) => line | None => payload end in
  match fields line with
  | [before; after; ref] =>
    fail_if negb (matches githubSHA before) || negb (matches githubSHA after) with MalformedSHA ;;
    fail_if negb (has_prefix "refs/heads/" ref) with MalformedRefName ;;
    Ok {| Before := before; After := after; Ref := ref |}
  | _ => Err MalformedUpdate
  end.

(** The loop: the bytes read so far, the bytes still in the body, the updates. *)
Fixpoint readCommands (fuel : nat) (prefix body : string) (updates : list receivePackUpdate)
    : string * string * result prefix_failure (list receivePackUpdate) :=
  match fuel with
  | O => (prefix, body, Err OutOfFuel)
  | S fuel =>
    if slen body <? 4 then (prefix +:+ body, "", Err ShortRead) else
    let header := stake 4 body in
    let prefix := prefix +:+ header in
    let body := sdrop 4 body in
    if maxReceivePackCommandPrefixBytes <? slen prefix then (prefix, body, Err ExceededBound) else
    match ParseInt16 header with
    | None => (prefix, body, Err NonHexLength)
    | Some n =>
      if (n <? 0) || (n <? 4) && negb (n =? 0) then (prefix, body, Err BadPktLineLength) else
      if n =? 0 then
        if is_nil updates then (prefix, body, Err ZeroUpdates) else (prefix, body, Ok updates)
      else
        let payloadSize := n - 4 in
        if maxReceivePackCommandPrefixBytes <? slen prefix + payloadSize
        then (prefix, body, Err ExceededBound) else
        if slen body <? payloadSize then (prefix +:+ body, "", Err ShortRead) else
        let payload := stake (Z.to_nat payloadSize) body in
        let prefix := prefix +:+ payload in
        let body := sdrop (Z.to_nat payloadSize) body in
        if is_nil updates && has_prefix "shallow" payload then
          if negb (validReceivePackShallow payload) then (prefix, body, Err MalformedShallow)
          else readCommands fuel prefix body updates
        else
          match command payload with
          | Err e => (prefix, body, Err e)
          | Ok u =>
            let updates := updates ++ [u] in
            if 64 <? Z.of_nat (length updates) then (prefix, body, Err TooManyUpdates)
            else readCommands fuel prefix body updates
          end
    end
  end.

(** Every round takes at least the four bytes of a header. *)
Definition readReceivePackCommandPrefix (body : string)
    : string * string * result prefix_failure (list receivePackUpdate) :=
  readCommands (S (String.length body)) "" body [].

Definition receivePackUpdates (body : string) : result prefix_failure (list receivePackUpdate) :=
  (readReceivePackCommandPrefix body).2.

(** [updates[0]] of an accepted prefix exists. *)
Definition receivePackBranch (body : string) : string :=
  match receivePackUpdates body with
  | Err _ => ""
  | Ok (u :: _) => Ref u
  | Ok [] => ""
  end.

(** receivePackRejected: is there an [ng] line in GitHub's report?  [None] of
    the inner function means the loop ended without one. *)
Definition strip_band (line : string) : string :=
  match line with
  | String c rest => if (code c =? 1)%nat || (code c =? 2)%nat || (code c =? 3)%nat then rest else line
  | EmptyString => line
  end.

Fixpoint rejected_from (fuel : nat) (body : string) : bool :=
  match fuel with
  | O => false
  | S fuel =>
    if slen body <? 4 then false else
    match ParseInt16 (stake 4 body) with
    | None => false
    | Some n =>
      if (n <? 4) || (slen body <? n) then false else
      if n =? 0 then rejected_from fuel (sdrop 4 body) else
      let line := strip_band (stake (Z.to_nat n - 4) (sdrop 4 body)) in
      if has_prefix "ng " line then true else rejected_from fuel (sdrop (Z.to_nat n) body)
    end
  end.
Definition receivePackRejected (body : string) : bool := rejected_from (S (String.length body)) body.

(** ** Specification: the grammar of an accepted prefix *)

(** [h] is the four byte header of a packet with payload [p]. *)
Definition packet (h p : string) : Prop :=
  String.length h = 4%nat ∧ ParseInt16 h = Some (4 + slen p).

Definition flush (h : string) : Prop := String.length h = 4%nat ∧ ParseInt16 h = Some 0.

Definition skipped (seen : list receivePackUpdate) (p : string) : bool :=
  is_nil seen && has_prefix "shallow" p.

Inductive command_list : list receivePackUpdate → list receivePackUpdate → string → Prop :=
| cl_flush seen h : flush h → seen ≠ [] → command_list seen seen h
| cl_shallow seen final h p t :
    packet h p → skipped seen p = true → validReceivePackShallow p = true →
    command_list seen final t → command_list seen final (h +:+ (p +:+ t))
| cl_update seen u final h p t :
    packet h p → skipped seen p = false → command p = Ok u → (length seen < 64)%nat →
    command_list (seen ++ [u]) final t → command_list seen final (h +:+ (p +:+ t)).

Definition valid_update (u : receivePackUpdate) : Prop :=
  matches githubSHA (Before u) = true ∧ matches githubSHA (After u) = true ∧
  has_prefix "refs/heads/" (Ref u) = true.

Lemma command_valid p u : command p = Ok u → valid_update u.
Proof.
  unfold command. destruct (fields _) as [|b [|a [|r [|]]]]; try done. intros H. peel H. simplify_eq.
  bool_hyps. done.
Qed.

Lemma command_list_valid seen final t :
  command_list seen final t → Forall valid_update seen → (length seen ≤ 64)%nat →
  Forall valid_update final ∧ (1 ≤ length final ≤ 64)%nat ∧ seen `prefix_of` final.
Proof.
  induction 1 as [seen h Hf Hn|seen final h p t Hp Hs Hv _ IH|seen u final h p t Hp Hs Hc Hl _ IH];
    intros Hall Hlen.
  - split_and!; [done| |done|done]. destruct seen; [done|cbn; lia].
  - by apply IH.
  - apply command_valid in Hc. destruct IH as (? & ? & Hpre).
    + by apply Forall_app_2; [|constructor].
    + rewrite length_app; cbn; lia.
    + split_and!; [done|lia|lia|]. by eapply prefix_app_l.
Qed.

Lemma slen_app a b : slen (a +:+ b) = slen a + slen b.
Proof. unfold slen. rewrite length_sapp. lia. Qed.

Lemma slen_nonneg s : 0 ≤ slen s.
Proof. unfold slen. lia. Qed.

Lemma slen_stake n s : n ≤ slen s → 0 ≤ n → slen (stake (Z.to_nat n) s) = n.
Proof. unfold slen. rewrite length_stake. lia. Qed.

(** ** The reader decides the grammar *)

Ltac len := unfold slen, maxReceivePackCommandPrefixBytes in *;
  rewrite ?length_sapp, ?length_stake, ?length_sdrop in *; lia.

Lemma readCommands_sound fuel prefix body seen prefix' rest final :
  readCommands fuel prefix body seen = (prefix', rest, Ok final) →
  ∃ t, prefix' = prefix +:+ t ∧ body = t +:+ rest ∧ command_list seen final t ∧
    slen prefix' ≤ maxReceivePackCommandPrefixBytes.
Proof.
  revert prefix body seen. induction fuel as [|fuel IH]; intros prefix body seen H; [done|].
  cbn [readCommands] in H. destruct (Z.ltb_spec (slen body) 4) as [|H4]; [done|]. cbv zeta in H.
  set (h := stake 4 body) in *. set (body1 := sdrop 4 body) in *.
  assert (body = h +:+ body1) as Eb by (symmetry; apply stake_sdrop).
  assert (String.length h = 4%nat) as Hh by (unfold h; rewrite length_stake; unfold slen in H4; lia).
  destruct (Z.ltb_spec maxReceivePackCommandPrefixBytes (slen (prefix +:+ h))) as [|Hm]; [done|].
  destruct (ParseInt16 h) as [n|] eqn:En; [|done].
  destruct ((n <? 0) || _) eqn:E0; [done|]. bool_hyps.
  destruct (Z.eqb_spec n 0) as [->|Hn].
  { destruct (is_nil seen) eqn:Es; [done|]. simplify_eq. bool_hyps. exists h.
    split_and!; [done..|by constructor|done]. }
  destruct (Z.ltb_spec maxReceivePackCommandPrefixBytes (slen (prefix +:+ h) + (n - 4))) as [|Hm2]; [done|].
  destruct (Z.ltb_spec (slen body1) (n - 4)) as [|Hl]; [done|].
  assert (4 ≤ n) as H4n.
  { match goal with H : _ && _ = false |- _ => apply andb_false_iff in H as [H|H] end; bool_hyps; lia. }
  set (p := stake (Z.to_nat (n - 4)) body1) in *. set (body2 := sdrop (Z.to_nat (n - 4)) body1) in *.
  assert (body1 = p +:+ body2) as Eb1 by (symmetry; apply stake_sdrop).
  assert (packet h p) as Hp.
  { split; [done|]. rewrite En. f_equal. unfold p. rewrite slen_stake; lia. }
  assert (∀ prefix' t, prefix' = ((prefix +:+ h) +:+ p) +:+ t → prefix' = prefix +:+ (h +:+ (p +:+ t))) as Hpre.
  { intros ? t ->. by rewrite !sapp_assoc. }
  destruct (is_nil seen && has_prefix "shallow" p) eqn:Esk.
  - destruct (validReceivePackShallow p) eqn:Ev; [|done]. cbn [negb] in H.
    apply IH in H as (t & -> & Et & Hc & Hs). exists (h +:+ (p +:+ t)).
    split_and!; [by apply Hpre| |by eapply cl_shallow|done].
    by rewrite Eb, Eb1, Et, !sapp_assoc.
  - destruct (command p) as [u|] eqn:Ec; [|done].
    destruct (Z.ltb_spec 64 (Z.of_nat (length (seen ++ [u])))) as [|H64]; [done|].
    rewrite length_app in H64; cbn in H64.
    apply IH in H as (t & -> & Et & Hc & Hs). exists (h +:+ (p +:+ t)).
    split_and!; [by apply Hpre| |eapply cl_update; try done; lia|done].
    by rewrite Eb, Eb1, Et, !sapp_assoc.
Qed.

(** One round of the loop on a packet. *)
Lemma readCommands_packet fuel prefix h p body seen :
  packet h p → slen prefix + slen h + slen p ≤ maxReceivePackCommandPrefixBytes →
  readCommands (S fuel) prefix (h +:+ (p +:+ body)) seen =
    let prefix := (prefix +:+ h) +:+ p in
    if skipped seen p then
      if negb (validReceivePackShallow p) then (prefix, body, Err MalformedShallow)
      else readCommands fuel prefix body seen
    else match command p with
         | Err e => (prefix, body, Err e)
         | Ok u => if 64 <? Z.of_nat (length (seen ++ [u])) then (prefix, body, Err TooManyUpdates)
                   else readCommands fuel prefix body (seen ++ [u])
         end.
Proof.
  intros [Hh En] Hm. cbn [readCommands]. cbv zeta. rewrite (stake_app 4) by done. rewrite (sdrop_app 4) by done.
  pose proof (slen_nonneg p). pose proof (slen_nonneg body). assert (slen h = 4) as Hs by (unfold slen; lia).
  destruct (Z.ltb_spec (slen (h +:+ (p +:+ body))) 4) as [Hb|_]; [rewrite !slen_app in Hb; lia|].
  destruct (Z.ltb_spec maxReceivePackCommandPrefixBytes (slen (prefix +:+ h))) as [Hb|_]; [rewrite slen_app in Hb; lia|].
  rewrite En. replace (4 + slen p <? 0) with false by lia. replace (4 + slen p <? 4) with false by lia.
  replace (4 + slen p =? 0) with false by lia. cbn [orb andb].
  replace (4 + slen p - 4) with (slen p) by lia. rewrite (slen_app prefix h), (slen_app p body).
  destruct (Z.ltb_spec maxReceivePackCommandPrefixBytes (slen prefix + slen h + slen p)); [lia|].
  destruct (Z.ltb_spec (slen p + slen body) (slen p)); [lia|].
  rewrite stake_app, sdrop_app by (unfold slen; lia). reflexivity.
Qed.

Lemma readCommands_complete seen final t :
  command_list seen final t → ∀ fuel prefix rest,
  slen prefix + slen t ≤ maxReceivePackCommandPrefixBytes → (String.length t ≤ fuel)%nat →
  readCommands (S fuel) prefix (t +:+ rest) seen = (prefix +:+ t, rest, Ok final).
Proof.
  induction 1 as [seen h [Hh En] Hn|seen final h p t Hp Hs Hv Hc IH|seen u final h p t Hp Hs Hcmd Hl Hc IH];
    intros fuel prefix rest Hm Hf.
  - cbn [readCommands]. cbv zeta. rewrite (stake_app 4), (sdrop_app 4) by done.
    destruct (Z.ltb_spec (slen (h +:+ rest)) 4) as [Hb|_]; [len|].
    destruct (Z.ltb_spec maxReceivePackCommandPrefixBytes (slen (prefix +:+ h))) as [Hb|_]; [len|].
    rewrite En. apply is_nil_false in Hn. by rewrite Hn.
  - rewrite !slen_app in Hm. pose proof (slen_nonneg t).
    destruct Hp as [Hh En]. rewrite !length_sapp in Hf. destruct fuel as [|fuel]; [lia|].
    rewrite !sapp_assoc, readCommands_packet, Hs, Hv; [|done|lia]. cbn [negb].
    rewrite IH; [by rewrite !sapp_assoc|rewrite !slen_app; lia|lia].
  - rewrite !slen_app in Hm. pose proof (slen_nonneg t).
    destruct Hp as [Hh En]. rewrite !length_sapp in Hf. destruct fuel as [|fuel]; [lia|].
    rewrite !sapp_assoc, readCommands_packet, Hs, Hcmd; [|done|lia].
    destruct (Z.ltb_spec 64 (Z.of_nat (length (seen ++ [u])))) as [Hb|_]; [rewrite length_app in Hb; cbn in Hb; lia|].
    rewrite IH; [by rewrite !sapp_assoc|rewrite !slen_app; lia|lia].
Qed.

Lemma readReceivePackCommandPrefix_iff body prefix rest updates :
  readReceivePackCommandPrefix body = (prefix, rest, Ok updates) ↔
  body = prefix +:+ rest ∧ command_list [] updates prefix ∧ slen prefix ≤ maxReceivePackCommandPrefixBytes.
Proof.
  split.
  - intros (t & -> & -> & ? & ?)%readCommands_sound. by rewrite sapp_nil in *.
  - intros (-> & Hc & Hm). unfold readReceivePackCommandPrefix.
    rewrite (readCommands_complete _ _ _ Hc); [done|done|rewrite length_sapp; lia].
Qed.

Lemma readCommands_fuel fuel prefix body seen :
  (String.length body < fuel)%nat → (readCommands fuel prefix body seen).2 ≠ Err OutOfFuel.
Proof.
  revert prefix body seen. induction fuel as [|fuel IH]; intros prefix body seen Hf; [lia|].
  cbn [readCommands]. destruct (Z.ltb_spec (slen body) 4); [done|]. cbv zeta.
  assert (∀ q prefix seen, (readCommands fuel prefix (sdrop q (sdrop 4 body)) seen).2 ≠ Err OutOfFuel) as Hrec.
  { intros q pre sn. apply IH. rewrite !length_sdrop. unfold slen in *. lia. }
  assert (∀ p, command p ≠ Err OutOfFuel) as Hcmd.
  { intros p. unfold command. by repeat case_match. }
  repeat case_match; try done; try apply Hrec; cbn [snd]; intros [= ->]; by eapply Hcmd.
Qed.

Lemma readCommands_bytes fuel prefix body seen :
  slen prefix ≤ maxReceivePackCommandPrefixBytes →
  let p := readCommands fuel prefix body seen in
  p.1.1 +:+ p.1.2 = prefix +:+ body ∧ slen p.1.1 ≤ maxReceivePackCommandPrefixBytes + 4.
Proof.
  revert prefix body seen. induction fuel as [|fuel IH]; intros prefix body seen Hm; cbn [readCommands]; [cbn; split; [done|lia]|].
  destruct (Z.ltb_spec (slen body) 4) as [|H4]; cbv zeta.
  { cbn [fst snd]. rewrite sapp_nil_r, slen_app. split; [done|lia]. }
  set (h := stake 4 body) in *. set (body1 := sdrop 4 body) in *.
  assert (body = h +:+ body1) as Eb by (symmetry; apply stake_sdrop).
  assert (slen h = 4) as Hh by (unfold h; rewrite (slen_stake 4); lia).
  assert ((prefix +:+ h) +:+ body1 = prefix +:+ body) as E1 by (by rewrite Eb, sapp_assoc).
  assert (slen (prefix +:+ h) ≤ maxReceivePackCommandPrefixBytes + 4) as Hs1 by (rewrite slen_app; lia).
  destruct (Z.ltb_spec maxReceivePackCommandPrefixBytes (slen (prefix +:+ h))) as [|Hm1]; [done|].
  destruct (ParseInt16 h) as [n|]; [|done].
  destruct ((n <? 0) || _) eqn:E0; [done|]. bool_hyps.
  destruct (Z.eqb_spec n 0) as [->|Hn]; [by destruct (is_nil seen)|].
  destruct (Z.ltb_spec maxReceivePackCommandPrefixBytes (slen (prefix +:+ h) + (n - 4))) as [|Hm2]; [done|].
  destruct (Z.ltb_spec (slen body1) (n - 4)) as [|Hl].
  { cbn [fst snd]. rewrite sapp_nil_r, slen_app. split; [done|lia]. }
  assert (4 ≤ n) as H4n.
  { match goal with H : _ && _ = false |- _ => apply andb_false_iff in H as [H|H] end; bool_hyps; lia. }
  set (p := stake (Z.to_nat (n - 4)) body1) in *. set (body2 := sdrop (Z.to_nat (n - 4)) body1) in *.
  assert (((prefix +:+ h) +:+ p) +:+ body2 = prefix +:+ body) as E2.
  { rewrite sapp_assoc. unfold p, body2. by rewrite stake_sdrop. }
  assert (slen ((prefix +:+ h) +:+ p) ≤ maxReceivePackCommandPrefixBytes) as Hs2.
  { rewrite slen_app. unfold p. rewrite slen_stake; lia. }
  assert (∀ seen', let q := readCommands fuel ((prefix +:+ h) +:+ p) body2 seen' in
    q.1.1 +:+ q.1.2 = prefix +:+ body ∧ slen q.1.1 ≤ maxReceivePackCommandPrefixBytes + 4) as Hrec.
  { intros seen'. destruct (IH ((prefix +:+ h) +:+ p) body2 seen' Hs2) as [E ?]. by rewrite <- E2, <- E. }
  repeat case_match; try apply Hrec; cbn [fst snd]; (split; [done|lia]).
Qed.

(** ** The encoding a Git client sends *)

Definition hex4 (n : nat) : string :=
  String (hex_digit (n / 4096 mod 16)) (String (hex_digit (n / 256 mod 16))
    (String (hex_digit (n / 16 mod 16)) (String (hex_digit (n mod 16)) EmptyString))).

Definition pkt_line (p : string) : string := hex4 (4 + String.length p) +:+ p.

Definition update_text (u : receivePackUpdate) : string :=
  Before u +:+ " " +:+ After u +:+ " " +:+ Ref u.
Definition shallow_line (sha : string) : string := "shallow " +:+ sha +:+ newline.

Fixpoint encode_more (us : list receivePackUpdate) : string :=
  match us with [] => "0000" | u :: us => pkt_line (update_text u +:+ newline) +:+ encode_more us end.
Fixpoint encode_push (shallow : list string) (u : receivePackUpdate) (caps : string)
    (us : list receivePackUpdate) : string :=
  match shallow with
  | [] => pkt_line (update_text u +:+ String nul caps) +:+ encode_more us
  | sha :: shallow => pkt_line (shallow_line sha) +:+ encode_push shallow u caps us
  end.

Lemma hex_value_digit d : (d < 16)%nat → hex_value (hex_digit d) = Some (Z.of_nat d).
Proof. intros H. do 16 (destruct d as [|d]; [reflexivity|]). lia. Qed.

Lemma ParseInt16_digits c s : is_Some (hex_value c) → ParseInt16 (String c s) = hex_number 0 (String c s).
Proof.
  intros H. destruct c as [[] [] [] [] [] [] [] []]; try reflexivity; by apply is_Some_None in H.
Qed.

Lemma ParseInt16_hex4 n : Z.of_nat n < 65536 → ParseInt16 (hex4 n) = Some (Z.of_nat n).
Proof.
  intros Hn. unfold hex4.
  pose proof (hex_value_digit (n / 4096 mod 16) ltac:(apply Nat.mod_upper_bound; lia)) as E1.
  pose proof (hex_value_digit (n / 256 mod 16) ltac:(apply Nat.mod_upper_bound; lia)) as E2.
  pose proof (hex_value_digit (n / 16 mod 16) ltac:(apply Nat.mod_upper_bound; lia)) as E3.
  pose proof (hex_value_digit (n mod 16) ltac:(apply Nat.mod_upper_bound; lia)) as E4.
  rewrite ParseInt16_digits by (rewrite E1; eauto). cbn [hex_number]. rewrite E1, E2, E3, E4.
  f_equal. clear - Hn.
  assert (n / 256 = n / 16 / 16 ∧ n / 4096 = n / 256 / 16)%nat as [Ea Eb].
  { by rewrite !Nat.Div0.div_div. }
  assert (n / 4096 mod 16 = n / 4096)%nat as Ec.
  { apply Nat.mod_small, Nat2Z.inj_lt. rewrite Nat2Z.inj_div. apply Z.div_lt_upper_bound; lia. }
  pose proof (Nat.div_mod_eq n 16). pose proof (Nat.div_mod_eq (n / 16) 16).
  pose proof (Nat.div_mod_eq (n / 256) 16). lia.
Qed.

Lemma pkt_line_packet p :
  slen p < 65532 →
  packet (hex4 (4 + String.length p)) p.
Proof. unfold slen. intros H. split; [done|]. rewrite ParseInt16_hex4 by lia. f_equal. unfold slen. lia. Qed.

(** ** The broker reads back what a client encodes *)

Lemma lang_repeat_cls n p l :
  lang (repeat_re n (Cls p)) l → length l = n ∧ forallb p l = true.
Proof.
  revert l. induction n as [|n IH]; intros l H.
  - inversion H; by subst.
  - destruct n as [|n].
    + inversion H; subst. cbn. by rewrite andb_true_r.
    + cbn [repeat_re] in H. inversion H as [|?|? ? x y Hx Hy| | | |]; subst.
      inversion Hx; subst. apply IH in Hy as [<- Hy]. cbn. by rewrite Hy, andb_true_r.
Qed.

Lemma sha_hex s : matches githubSHA s = true → String.length s = 40%nat ∧ all_chars is_lower_hex s = true.
Proof. rewrite matches_spec. intros [H Hall]%lang_repeat_cls. split; [|done]. by rewrite <- length_chars. Qed.

Lemma hex_graphic c : is_lower_hex c = true → graphic c = true.
Proof.
  unfold is_lower_hex, is_digit, graphic, in_range. intros H.
  repeat (apply orb_true_iff in H as [H|H] || apply andb_true_iff in H as [H ?]);
    rewrite ?Nat.leb_le in *; apply andb_true_iff; rewrite !Nat.leb_le; lia.
Qed.

Lemma sha_graphic s : matches githubSHA s = true → graphic_text s = true.
Proof. intros [_ H]%sha_hex. by eapply all_chars_impl; [apply hex_graphic|]. Qed.

Lemma sha_length s : matches githubSHA s = true → String.length s = 40%nat.
Proof. by intros [? _]%sha_hex. Qed.

Definition sendable (u : receivePackUpdate) : Prop := valid_update u ∧ graphic_text (Ref u) = true.

Lemma update_text_no_nul u : sendable u → all_chars (λ c, negb (Ascii.eqb c nul)) (update_text u) = true.
Proof.
  intros [(Hb & Ha & _) Hr]. unfold update_text. rewrite !all_chars_app.
  assert (∀ s, graphic_text s = true → all_chars (λ c, negb (Ascii.eqb c nul)) s = true) as Hg.
  { intros s. apply all_chars_impl. intros c Hc. destruct (Ascii.eqb_spec c nul) as [->|]; [discriminate Hc|done]. }
  rewrite (Hg (Before u)), (Hg (After u)), (Hg (Ref u)); auto using sha_graphic.
Qed.

(** The three fields of a line, whatever ends it. *)
Lemma fields_update u tail fuel :
  sendable u → (∀ cur, fields_from fuel cur tail = emit cur) →
  fields_from (String.length (update_text u) + fuel) "" (update_text u +:+ tail)
    = [Before u; After u; Ref u].
Proof.
  intros [(Hb & Ha & Hp) Hr] Ht. unfold update_text. rewrite !length_sapp.
  change (String.length " ") with 1%nat.
  replace (String.length (Before u) + (1 + (String.length (After u) + (1 + String.length (Ref u)))) + fuel)%nat
    with (String.length (Before u) + S (String.length (After u) + S (String.length (Ref u) + fuel)))%nat by lia.
  assert (∀ w fuel cur t, fields_from (S fuel) (cur +:+ w) (" " +:+ t) = emit (cur +:+ w) ++ fields_from fuel "" t)
    as Hsp by reflexivity.
  rewrite !sapp_assoc. rewrite fields_word, Hsp by (by apply sha_graphic).
  rewrite fields_word, Hsp by (by apply sha_graphic).
  rewrite fields_word, !sapp_nil, Ht by done.
  apply sha_length in Hb, Ha. rewrite !emit_nonempty; [done| | |]; intros E; rewrite E in *; done.
Qed.

Lemma command_update u line :
  sendable u → fields line = [Before u; After u; Ref u] →
  ∀ payload, (match cut nul payload with Some (l, _) => l | None => payload end) = line →
  command payload = Ok u.
Proof.
  intros [(Hb & Ha & Hp) _] Hf payload E. unfold command. rewrite E, Hf, Hb, Ha, Hp. by destruct u.
Qed.

Lemma fields_end cur fuel : fields_from fuel cur "" = emit cur.
Proof. by destruct fuel. Qed.

Lemma command_first u caps : sendable u → command (update_text u +:+ String nul caps) = Ok u.
Proof.
  intros Hu. apply (command_update u (update_text u)); [done| |].
  - unfold fields. rewrite <- (sapp_nil_r (update_text u)) at 2.
    rewrite <- Nat.add_1_r. apply fields_update; [done|]. intros. apply fields_end.
  - by rewrite cut_app by (by apply update_text_no_nul).
Qed.

Lemma command_more u : sendable u → command (update_text u +:+ newline) = Ok u.
Proof.
  intros Hu. apply (command_update u (update_text u +:+ newline)); [done| |].
  - unfold fields. rewrite length_sapp. change (String.length newline) with 1%nat.
    replace (S _) with (String.length (update_text u) + 2)%nat by lia.
    apply fields_update; [done|]. intros cur. apply fields_newline.
  - rewrite cut_none; [done|]. rewrite all_chars_app, update_text_no_nul by done. done.
Qed.

Lemma command_not_skipped seen u tail : sendable u → skipped seen (update_text u +:+ tail) = false.
Proof.
  intros [(Hb & _) _]. unfold skipped, update_text. apply sha_hex in Hb as [Hl Hh].
  destruct (Before u) as [|c b]; [done|]. cbn in Hh. apply andb_true_iff in Hh as [Hc _].
  rewrite sapp_assoc, sapp_cons. cbn [has_prefix]. destruct (Ascii.eqb_spec "s" c) as [<-|]; [discriminate Hc|].
  apply andb_false_r.
Qed.

Lemma shallow_valid sha : matches githubSHA sha = true → validReceivePackShallow (shallow_line sha) = true.
Proof.
  intros H. pose proof (sha_length _ H) as Hl. unfold validReceivePackShallow.
  assert (trim_newline (shallow_line sha) = "shallow " +:+ sha) as ->.
  { unfold trim_newline, shallow_line. rewrite <- sapp_assoc, chars_app.
    change (chars newline) with [ascii_of_nat 10]. rewrite last_snoc.
    change (code (ascii_of_nat 10) =? 10)%nat with true. cbn iota. rewrite stake_app; [done|].
    rewrite (length_sapp ("shallow " +:+ sha)). change (String.length newline) with 1%nat. lia. }
  rewrite slen_app, (sdrop_app (String.length "shallow ")) by done. rewrite H.
  assert (has_prefix "shallow " ("shallow " +:+ sha) = true) as ->.
  { apply has_prefix_drop. by rewrite sdrop_app. }
  unfold slen at 2. rewrite Hl. rewrite andb_true_r, andb_true_r. apply Z.eqb_refl.
Qed.

Definition fits (p : string) : Prop := slen p < 65532.

Lemma pkt_line_text p t : pkt_line p +:+ t = hex4 (4 + String.length p) +:+ (p +:+ t).
Proof. unfold pkt_line. apply sapp_assoc. Qed.

Lemma encode_more_list seen us :
  seen ≠ [] → Forall sendable us → Forall fits (map (λ u, update_text u +:+ newline) us) →
  (length seen + length us ≤ 64)%nat → command_list seen (seen ++ us) (encode_more us).
Proof.
  revert seen. induction us as [|u us IH]; intros seen Hn Hs Hf Hl; cbn [encode_more].
  - rewrite app_nil_r. constructor; [|done]. split; reflexivity.
  - inversion Hs as [|? ? Hu Hus]; subst. inversion Hf as [|? ? Hfu Hfus]; subst. cbn in Hl.
    rewrite pkt_line_text. rewrite (cons_middle u seen us), (assoc_L (++)).
    eapply cl_update; [by apply pkt_line_packet|by apply command_not_skipped|by apply command_more|lia|].
    apply IH; [by destruct seen|done|done|]. rewrite length_app. cbn. lia.
Qed.

Lemma encode_push_list shallow u caps us :
  Forall (λ sha, matches githubSHA sha = true) shallow → Forall sendable (u :: us) →
  Forall fits ((update_text u +:+ String nul caps) :: map (λ u, update_text u +:+ newline) us) →
  (length (u :: us) ≤ 64)%nat → command_list [] (u :: us) (encode_push shallow u caps us).
Proof.
  intros Hsh Hs Hf Hl. induction Hsh as [|sha shallow Hsha _ IH]; cbn [encode_push]; rewrite pkt_line_text.
  - inversion Hs as [|? ? Hu Hus]; subst. inversion Hf as [|? ? Hfu Hfus]; subst. cbn in Hl.
    eapply cl_update; [by apply pkt_line_packet|by apply command_not_skipped|by apply command_first|cbn; lia|].
    apply (encode_more_list [u]); [done..|cbn; lia].
  - pose proof (sha_length _ Hsha) as Hlen.
    eapply cl_shallow; [apply pkt_line_packet|done|by apply shallow_valid|exact IH].
    unfold slen, shallow_line. rewrite !length_sapp, Hlen. cbn. lia.
Qed.

(** A report of one level of packets. *)
Fixpoint report (ps : list string) : string :=
  match ps with [] => "0000" | p :: ps => pkt_line p +:+ report ps end.

Lemma rejected_report ps fuel :
  Forall fits ps → (length ps ≤ fuel)%nat →
  rejected_from (S fuel) (report ps) = existsb (λ p, has_prefix "ng " (strip_band p)) ps.
Proof.
  intros Hf. revert fuel. induction Hf as [|p ps Hp _ IH]; intros fuel Hl; [done|].
  cbn [report existsb rejected_from]. rewrite pkt_line_text.
  destruct (pkt_line_packet p Hp) as [Hh Hpi]. set (h := hex4 _) in *.
  rewrite (stake_app 4), (sdrop_app 4), Hpi by done.
  pose proof (slen_nonneg (report ps)). pose proof (slen_nonneg p).
  assert (slen h = 4) as Hs by (unfold slen; lia).
  destruct (Z.ltb_spec (slen (h +:+ (p +:+ report ps))) 4) as [Hb|_]; [rewrite !slen_app in Hb; lia|].
  destruct (Z.ltb_spec (slen (h +:+ (p +:+ report ps))) (4 + slen p)) as [Hb|_]; [rewrite !slen_app in Hb; lia|].
  replace (4 + slen p <? 4) with false by lia. replace (4 + slen p =? 0) with false by lia. cbn [orb].
  replace (Z.to_nat (4 + slen p) - 4)%nat with (String.length p) by (unfold slen; lia).
  rewrite stake_app by done. destruct (has_prefix "ng " (strip_band p)); [done|]. cbn [orb].
  destruct fuel as [|fuel]; [cbn in Hl; lia|].
  rewrite <- sapp_assoc, sdrop_app by (rewrite length_sapp; unfold slen in *; lia).
  apply IH. cbn in Hl. lia.
Qed.

Lemma report_length ps : (length ps ≤ String.length (report ps))%nat.
Proof.
  induction ps as [|p ps IH]; [cbn; lia|]. cbn [report length]. unfold pkt_line.
  rewrite !length_sapp. change (String.length (hex4 (4 + String.length p))) with 4%nat. lia.
Qed.

(** ** Properties *)

(** C29: the broker accepts exactly the command prefixes of the grammar.  The
    reader returns updates if and only if the body starts with a well-formed
    sequence of packets (shallow lines, then commands, then a flush) of at most
    256 KiB, and then it has read exactly that sequence; every accepted prefix
    names between 1 and 64 updates, each with two SHAs and a branch ref.  Whatever
    the body, the bytes read followed by those left are the body, at most 256 KiB
    and a header are read, and the loop ends on its own. *)
Theorem readReceivePackCommandPrefix_exact body prefix rest r :
  readReceivePackCommandPrefix body = (prefix, rest, r) →
  prefix +:+ rest = body ∧ slen prefix ≤ maxReceivePackCommandPrefixBytes + 4 ∧ r ≠ Err OutOfFuel ∧
  (∀ updates, r = Ok updates →
     command_list [] updates prefix ∧ slen prefix ≤ maxReceivePackCommandPrefixBytes ∧
     Forall valid_update updates ∧ (1 ≤ length updates ≤ 64)%nat) ∧
  (∀ p t updates, body = p +:+ t → slen p ≤ maxReceivePackCommandPrefixBytes →
     command_list [] updates p → r = Ok updates ∧ prefix = p ∧ rest = t).
Proof.
  intros E. destruct (readCommands_bytes (S (String.length body)) "" body []) as [H1 H2].
  { unfold slen, maxReceivePackCommandPrefixBytes. cbn. lia. }
  pose proof (readCommands_fuel (S (String.length body)) "" body [] ltac:(lia)) as H3.
  fold (readReceivePackCommandPrefix body) in H1, H2, H3. rewrite E in H1, H2, H3. cbn [fst snd] in *.
  split_and!; [done..| |].
  - intros updates ->. apply readReceivePackCommandPrefix_iff in E as (_ & Hc & Hm).
    destruct (command_list_valid _ _ _ Hc) as (? & ? & _); [done|cbn; lia|done].
  - intros p t updates -> Hm Hc.
    assert (readReceivePackCommandPrefix (p +:+ t) = (p, t, Ok updates)) as E'
      by by apply readReceivePackCommandPrefix_iff.
    rewrite E in E'. by simplify_eq.
Qed.

(** The broker reads back what a Git client encodes: shallow lines, the
    first command with its capabilities, the others, a flush; the pack data that
    follows is left in the body. *)
Theorem encode_push_roundtrip shallow u caps us pack :
  Forall (λ sha, matches githubSHA sha = true) shallow → Forall sendable (u :: us) →
  Forall fits ((update_text u +:+ String nul caps) :: map (λ u, update_text u +:+ newline) us) →
  (length (u :: us) ≤ 64)%nat →
  slen (encode_push shallow u caps us) ≤ maxReceivePackCommandPrefixBytes →
  readReceivePackCommandPrefix (encode_push shallow u caps us +:+ pack) =
    (encode_push shallow u caps us, pack, Ok (u :: us)).
Proof.
  intros Hsh Hs Hf Hl Hm. apply readReceivePackCommandPrefix_iff.
  split_and!; [done|by apply encode_push_list|done].
Qed.

(** A rejection is recognised in a report of one level of packets: exactly
    when a line, without its side-band byte, starts with "ng ". *)
Theorem receivePackRejected_report ps :
  Forall fits ps →
  receivePackRejected (report ps) = existsb (λ p, has_prefix "ng " (strip_band p)) ps.
Proof.
  intros Hf. unfold receivePackRejected. apply rejected_report; [done|]. apply report_length.
Qed.

(** ** Concrete pushes *)

Definition sha_of (c : ascii) : string := text (replicate 40 c).
Definition sample_update (ref : string) : receivePackUpdate :=
  {| Before := sha_of "1"; After := sha_of "2"; Ref := ref |}.

Definition sample_push : string :=
  encode_push [sha_of "a"] (sample_update "refs/heads/agent/one") " report-status side-band-64k"
    [sample_update "refs/heads/agent/two"] +:+ "PACK".

Example sample_push_branch : receivePackBranch sample_push = "refs/heads/agent/one".
Proof. vm_compute. reflexivity. Qed.

Lemma readReceivePackCommandPrefix_exact_witness :
  let p := readReceivePackCommandPrefix sample_push in
  p.2 = Ok [sample_update "refs/heads/agent/one"; sample_update "refs/heads/agent/two"] ∧
  p.1.1 +:+ p.1.2 = sample_push ∧ slen p.1.1 ≤ maxReceivePackCommandPrefixBytes + 4 ∧ p.2 ≠ Err OutOfFuel ∧
  (∀ updates, p.2 = Ok updates →
     command_list [] updates p.1.1 ∧ slen p.1.1 ≤ maxReceivePackCommandPrefixBytes ∧
     Forall valid_update updates ∧ (1 ≤ length updates ≤ 64)%nat) ∧
  (∀ q t updates, sample_push = q +:+ t → slen q ≤ maxReceivePackCommandPrefixBytes →
     command_list [] updates q → p.2 = Ok updates ∧ p.1.1 = q ∧ p.1.2 = t).
Proof.
  split; [vm_compute; reflexivity|].
  apply (readReceivePackCommandPrefix_exact sample_push).
  by destruct (readReceivePackCommandPrefix sample_push) as [[? ?] ?].
Defined.

Lemma encode_push_roundtrip_witness :
  readReceivePackCommandPrefix sample_push =
    (encode_push [sha_of "a"] (sample_update "refs/heads/agent/one") " report-status side-band-64k"
       [sample_update "refs/heads/agent/two"], "PACK",
     Ok [sample_update "refs/heads/agent/one"; sample_update "refs/heads/agent/two"]).
Proof.
  apply (encode_push_roundtrip [sha_of "a"] (sample_update "refs/heads/agent/one")
    " report-status side-band-64k" [sample_update "refs/heads/agent/two"] "PACK").
  - repeat constructor.
  - repeat constructor.
  - repeat constructor.
  - cbn. lia.
  - vm_compute. discriminate.
Defined.

Lemma receivePackRejected_report_witness :
  receivePackRejected (report ["unpack ok"; "ng refs/heads/main protected"]) = true.
Proof.
  rewrite (receivePackRejected_report ["unpack ok"; "ng refs/heads/main protected"]);
    [reflexivity|repeat constructor].
Defined.

(** The report GitHub sends to a client that asked for side-band-64k is a
    sequence of packets inside the band: its rejected refs are not recognised.
    Neither is a line after a flush packet. *)
Lemma sideband_rejection_missed :
  receivePackRejected
    (report [String (ascii_of_nat 1) (report ["unpack ok"; "ng refs/heads/main protected"])]) = false ∧
  receivePackRejected ("0000" +:+ report ["ng refs/heads/main protected"]) = false.
Proof. by vm_compute. Qed.

(** A pkt-line length with a sign, which no Git server accepts, is read as a number. *)
Lemma signed_length_accepted :
  (readReceivePackCommandPrefix
     (pkt_line (update_text (sample_update "refs/heads/a")) +:+ "-000")).2
    = Ok [sample_update "refs/heads/a"].
Proof. vm_compute. reflexivity. Qed.
