(* ===== verification/GitTransport.v ===== *)
(** * The Git transport: handleGit of internal/server, internal/auth and the
    configuration lookups they use

    A Git client talks to the broker over smart HTTP.  The handler authenticates
    the agent, decides on the operation and on every ref of a push, checks the
    refs against GitHub, and forwards the request with an installation token in
    place of the agent's credentials.  GitHub's answers and url.Parse's and
    http.NewRequest's verdicts are arguments; audit records are not modelled. *)

From stdpp Require Import pretty.
From S2P Require Import Prelude GoStrings Regex Net ReceivePack Policy.
Open Scope string_scope.
Open Scope list_scope.
Open Scope Z_scope.

(** ** Configuration *)

Record BranchLifecycleGuard := { Mode : string; StalePRStates : list string; Operations : list string }.

Definition GitReceivePackDenyOpaque := "deny_opaque".

(** The part of config.Agent policy reads, and the rest. *)
Record Agent := {
  policy_agent : Policy.Agent; Secret : string; GitHubApp : string;
  GitReceivePack : string; BranchGuard : BranchLifecycleGuard }.

Definition ID (a : Agent) : string := ag_ID (policy_agent a).

(** The entries of an app's installations map, in the order an iteration visits them. *)
Record GitHubAppConfig := { AppID : Z; PrivateKeyPath : string; Installations : list (string * Z) }.

Record Config := {
  Agents : list Agent; AdminSecret : string; GitBaseURL : string;
  DefaultApp : GitHubAppConfig; Apps : gmap string GitHubAppConfig }.

Definition AgentByID (cfg : Config) (id : string) : option Agent :=
  List.find (λ a, (ID a =? id)%string) (Agents cfg).

Definition AppContexts (cfg : Config) : gmap string GitHubAppConfig :=
  let d := DefaultApp cfg in
  let out := if negb (AppID d =? 0) || negb (PrivateKeyPath d =? "")%string || negb (is_nil (Installations d))
             then {["default" := d]} else ∅ in
  Apps cfg ∪ out.

Definition AppContext (cfg : Config) (name : string) : option GitHubAppConfig :=
  AppContexts cfg !! (if (name =? "")%string then "default" else name).

Definition installationCoversRepo (configured repo : string) : bool :=
  let configured := trim_space configured in
  let repo := trim_space repo in
  if equal_fold configured repo then true else
  match cut "/" repo with
  | None => false
  | Some (owner, _) =>
    if (owner =? "")%string then false else
    match cut "/" configured with
    | None => false
    | Some (wildcardOwner, wildcardSuffix) =>
      (wildcardSuffix =? "*")%string && equal_fold wildcardOwner owner
    end
  end.

Definition lookup_repo (repo : string) (l : list (string * Z)) : option Z :=
  snd <$> List.find (λ '(r, _), (r =? repo)%string) l.

Definition InstallationIDForApp (cfg : Config) (appName repo : string) : option Z :=
  match AppContext cfg appName with
  | None => None
  | Some app =>
    match lookup_repo (to_lower repo) (Installations app) with
    | Some id => Some id
    | None =>
      match lookup_repo repo (Installations app) with
      | Some id => Some id
      | None => snd <$> List.find (λ '(configured, _), installationCoversRepo configured repo) (Installations app)
      end
    end
  end.

Definition GitHubAppName (a : Agent) : string :=
  if negb (GitHubApp a =? "")%string then GitHubApp a else "default".

(** ** Authentication: internal/auth *)

Definition AuthenticateAgent (h : gmap string (list string)) (cfg : Config) : option (Agent * string) :=
  let id := header_get h "X-Agent-Id" in
  let secret := header_get h "X-Agent-Secret" in
  let '(id, secret) :=
    if (id =? "")%string || (secret =? "")%string then default (id, secret) (BasicAuth h) else (id, secret) in
  let id := trim_space id in
  if (id =? "")%string || (secret =? "")%string then None else
  match AgentByID cfg id with
  | None => None
  | Some agent =>
    if negb (ag_Enabled (policy_agent agent)) || (Secret agent =? "")%string then None
    else if negb (secret =? Secret agent)%string then None
    else Some (agent, id)
  end.

Definition AuthenticateAdmin (h : gmap string (list string)) (cfg : Config) : bool :=
  if (AdminSecret cfg =? "")%string then false else
  let got := header_get h "X-Admin-Secret" in
  let got := if (got =? "")%string then default "" (snd <$> BasicAuth h) else got in
  (got =? AdminSecret cfg)%string.

(** ** Paths and operations *)

Definition parseGitPath (path : string) : option (string * string) :=
  let trimmed := trim_prefix "/git/" path in
  match index_of ".git" trimmed with
  | None => None
  | Some idx =>
    let repo := stake idx trimmed in
    let suffix := sdrop (idx + 4) trimmed in
    if negb (count_char "/" repo =? 1)%nat then None else Some (repo, suffix)
  end.

Definition safe_char (c : ascii) : bool := word alnum "-_." c.
Definition safeGitPathSegment (segment : string) : bool :=
  if (segment =? "")%string || (100 <? slen segment) then false
  else all_chars safe_char segment.
Definition safeGitRepository (repo : string) : bool :=
  match cut "/" repo with
  | Some (owner, name) => safeGitPathSegment owner && safeGitPathSegment name
  | None => false
  end.
Definition safeGitSuffix (suffix : string) : bool :=
  (suffix =? "/info/refs")%string || (suffix =? "/git-upload-pack")%string
  || (suffix =? "/git-receive-pack")%string || (suffix =? "")%string.

Definition gitDiscoveryService (rawQuery : string) : option string :=
  match ParseQuery rawQuery with
  | None => None
  | Some query =>
    match query !! "service" with
    | Some [service] => if (size query =? 1)%nat then Some service else None
    | _ => None
    end
  end.

Record git_request := {
  g_Method : string; g_Path : string; g_RawQuery : string;
  g_Headers : gmap string (list string); g_Body : string; g_ContentLength : Z }.

Record gitTransportRequestIdentity := {
  i_method : string; i_service : string; i_repo : string; i_requestPath : string;
  i_credentialHeaderPresent : bool; i_basicAuthPresent : bool }.

(** What the audit trail may learn of a request. *)
Definition gitTransportRequest (r : git_request) : gitTransportRequestIdentity :=
  let method := if (g_Method r =? "GET")%string then "GET"
                else if (g_Method r =? "POST")%string then "POST" else "other" in
  let cred := negb (header_get (g_Headers r) "Authorization" =? "")%string
              || negb (header_get (g_Headers r) "X-Agent-Id" =? "")%string
              || negb (header_get (g_Headers r) "X-Agent-Secret" =? "")%string in
  let basic := has_prefix "basic " (to_lower (header_get (g_Headers r) "Authorization")) in
  let identity service repo path :=
    {| i_method := method; i_service := service; i_repo := repo; i_requestPath := path;
       i_credentialHeaderPresent := cred; i_basicAuthPresent := basic |} in
  match parseGitPath (g_Path r) with
  | None => identity "" "" "/git/[invalid]"
  | Some (repo, suffix) =>
    if negb (safeGitRepository repo) || negb (safeGitSuffix suffix) then identity "" "" "/git/[invalid]"
    else
      let service :=
        if (g_Method r =? "GET")%string && (suffix =? "/info/refs")%string then
          default "unsupported" (gitDiscoveryService (g_RawQuery r))
        else if (g_Method r =? "POST")%string then
          if (suffix =? "/git-upload-pack")%string then "git-upload-pack"
          else if (suffix =? "/git-receive-pack")%string then "git-receive-pack"
          else "unsupported"
        else "" in
      identity service repo ("/git/" +:+ repo +:+ ".git" +:+ suffix)
  end.

Definition UploadPack := "git.upload-pack".
Definition ReceivePack := "git.receive-pack".

Definition gitOperation (r : git_request) (suffix : string) : string :=
  if (g_Method r =? "GET")%string && (suffix =? "/info/refs")%string then
    match gitDiscoveryService (g_RawQuery r) with
    | None => ""
    | Some service =>
      if (service =? "git-upload-pack")%string then UploadPack
      else if (service =? "git-receive-pack")%string then ReceivePack
      else ""
    end
  else if (g_Method r =? "POST")%string && (g_RawQuery r =? "")%string && (suffix =? "/git-upload-pack")%string
  then UploadPack
  else if (g_Method r =? "POST")%string && (g_RawQuery r =? "")%string && (suffix =? "/git-receive-pack")%string
  then ReceivePack
  else "".

Definition kept_header (k : string) : bool :=
  let lk := to_lower k in
  negb ((lk =? "authorization")%string || (lk =? "host")%string
        || has_prefix "x-agent-" lk || has_prefix "x-admin-" lk).

(** The keys of a header map the server read are canonical, as Add would make them. *)
Definition copyGitHeaders (dst src : gmap string (list string)) : gmap string (list string) :=
  union_with (λ a b, Some (a ++ b)) dst
    (filter (λ '(k, vals), kept_header k = true ∧ vals ≠ []) src).

Definition gitUpstreamURL (parse_ok : string → bool) (base repo suffix : string) : option string :=
  let u := trim_right_slash base +:+ "/" +:+ repo +:+ ".git" +:+ suffix in
  if parse_ok u then Some u else None.

(** ** The branch lifecycle guard *)

Record PullSummary := {
  p_Number : Z; p_State : string; p_HeadRef : string; p_Merged : bool; p_MergedAt : string;
  p_HTMLURL : string }.

Fixpoint containsString (items : list string) (want : string) : bool :=
  match items with
  | [] => false
  | item :: items => if (item =? want)%string then true else containsString items want
  end.
Fixpoint containsFoldString (items : list string) (want : string) : bool :=
  match items with
  | [] => false
  | item :: items => if equal_fold item want then true else containsFoldString items want
  end.

(** What GitHub answers while a request is handled; [None] is an error.  Every
    call to GetRef has its number, as the ref may move between two of them. *)
Record github := {
  ListPulls : string → Z → string → string → option (list PullSummary);
  GetRef : nat → string → Z → string → string → option (option string);
  InstallationToken : string → Z → option string }.

Definition guard_result (mode : string) (check : FailedCheck) (action : string) : Result :=
  if (mode =? "warn")%string
  then {| Allowed := true; Decision := DecisionWarn; FailedChecks := []; Warnings := [check];
          RequiredChanges := [] |}
  else {| Allowed := false; Decision := DecisionDeny; FailedChecks := [check]; Warnings := [];
          RequiredChanges := [{| rc_Field := ""; rc_Location := "branch"; rc_Action := action |}] |}.

Definition unverified : FailedCheck :=
  {| fc_Dimension := "branch_lifecycle"; fc_Field := ""; fc_Location := "github";
     fc_Expected := "verifiable pull request state for branch"; fc_Actual := "lookup failed";
     fc_SafeToDisplay := true;
     fc_Message := [Lit "broker could not verify whether this branch has already backed a closed pull request"] |}.

Definition merged_text (p : PullSummary) : string :=
  if p_Merged p then "merged"
  else if (p_MergedAt p =? "")%string then "merged status unavailable" else "not merged".

Definition stale_pull (p : PullSummary) : FailedCheck :=
  {| fc_Dimension := "branch_lifecycle"; fc_Field := ""; fc_Location := "branch";
     fc_Expected := "branch with no closed pull request history";
     fc_Actual := "PR #" +:+ pretty (p_Number p) +:+ " is " +:+ p_State p +:+ " ("
                  +:+ merged_text p +:+ "): " +:+ p_HTMLURL p;
     fc_SafeToDisplay := true;
     fc_Message := [Lit "branch has already backed a closed pull request; create a fresh agent branch for follow-up work"] |}.

Fixpoint checkPulls (mode branchName : string) (stale : list string) (pulls : list PullSummary)
    : option Result :=
  match pulls with
  | [] => None
  | p :: pulls =>
    if negb (p_HeadRef p =? branchName)%string || negb (containsFoldString stale (p_State p))
    then checkPulls mode branchName stale pulls
    else Some (guard_result mode (stale_pull p) "create and push a fresh branch matching the agent branch policy")
  end.

Definition checkBranchLifecycle (gh : github) (appName : string) (inst : Z) (repo branch operation : string)
    (agent : Agent) : option Result :=
  let guard := BranchGuard agent in
  let mode := to_lower (trim_space (Mode guard)) in
  let operations := if is_nil (Operations guard) then [ReceivePack; "pull.create"] else Operations guard in
  let staleStates := if is_nil (StalePRStates guard) then ["closed"] else StalePRStates guard in
  if (mode =? "")%string || (mode =? "off")%string || negb (containsString operations operation) then None else
  let branchName := trim_prefix "refs/heads/" branch in
  if (branchName =? "")%string then None else
  match cut "/" repo with
  | None => None
  | Some (owner, _) =>
    if (owner =? "")%string then None else
    match ListPulls gh appName inst repo (owner +:+ ":" +:+ branchName) with
    | None => Some (guard_result mode unverified
                "retry after branch lifecycle state can be verified or use a fresh agent branch")
    | Some pulls => checkPulls mode branchName staleStates pulls
    end
  end.

(** ** handleGit *)

Record upstream := {
  u_Method : string; u_URL : string; u_RawQuery : string; u_Headers : gmap string (list string);
  u_Username : string; u_Password : string; u_Body : string; u_ContentLength : Z }.

(** GitHub's answer: its status, its headers, its body ([None]: a read error). *)
Record upstream_response := {
  s_Status : Z; s_Headers : gmap string (list string); s_Body : option string }.

Record outcome := {
  o_Status : Z; o_Result : string; o_Headers : gmap string (list string); o_Sent : option upstream }.

Definition refuse (st : Z) (what : string) : outcome :=
  {| o_Status := st; o_Result := what; o_Headers := ∅; o_Sent := None |}.

Definition zero_sha : string := text (replicate 40 "0"%char).

Definition policy_request (agent : Agent) (id repo operation branch : string) : Request :=
  {| req_Agent := policy_agent agent; req_AgentID := id; req_Repo := repo; req_Operation := operation;
     req_Branch := branch; req_BaseBranch := ""; req_Permissions := []; req_Metadata := ∅;
     req_Locations := ∅ |}.

Section Handler.
Variable re_compile : string → option (string → bool).

Fixpoint check_more (agent : Agent) (id repo operation : string) (updates : list receivePackUpdate) : bool :=
  match updates with
  | [] => true
  | u :: updates =>
    if negb (Allowed (Check re_compile (policy_request agent id repo operation (Ref u)))) then false
    else check_more agent id repo operation updates
  end.

Fixpoint preflight (gh : github) (k : nat) (appName : string) (inst : Z) (repo : string)
    (updates : list receivePackUpdate) : option (Z * string) :=
  match updates with
  | [] => None
  | u :: updates =>
    if (After u =? zero_sha)%string then Some (403, "ref_deletion_rejected") else
    match GetRef gh k appName inst repo (Ref u) with
    | None => Some (502, "ref_preflight_unavailable")
    | Some current =>
      let zeroBefore := (Before u =? zero_sha)%string in
      let found := bool_decide (is_Some current) in
      if zeroBefore && found
         || negb zeroBefore && (negb found || negb (default "" current =? Before u)%string)
      then Some (403, "ref_before_mismatch")
      else preflight gh (S k) appName inst repo updates
    end
  end.

Definition handleGit (cfg : Config) (gh : github) (parse_ok new_request_ok : string → bool)
    (Do : upstream → option upstream_response) (r : git_request) : outcome :=
  match parseGitPath (g_Path r) with
  | None => refuse 404 "invalid_git_path"
  | Some (repo, suffix) =>
  match AuthenticateAgent (g_Headers r) cfg with
  | None => refuse 401 "agent_credentials"
  | Some (agent, id) =>
  let operation := gitOperation r suffix in
  if (operation =? "")%string then refuse 400 "unsupported_git_operation" else
  let is_push := (operation =? ReceivePack)%string && (g_Method r =? "POST")%string in
  let parsed := if is_push then readReceivePackCommandPrefix (g_Body r) else ("", g_Body r, Ok []) in
  match parsed with
  | (_, _, Err e) =>
    refuse (match e with ExceededBound => 413 | _ => 400 end) "receive_pack_command_prefix_rejected"
  | (prefix, rest, Ok updates) =>
  let branch := match updates with u :: _ => Ref u | [] => "" end in
  if is_push && (branch =? "")%string then refuse 403 "branch_unparseable" else
  if negb (Allowed (Check re_compile (policy_request agent id repo operation branch)))
  then refuse 403 "policy_denied" else
  if negb (check_more agent id repo operation (drop 1 updates)) then refuse 403 "policy_denied" else
  if is_push && (GitReceivePack agent =? GitReceivePackDenyOpaque)%string
  then refuse 403 "semantic_pack_inspection_unavailable" else
  let appName := GitHubAppName agent in
  match InstallationIDForApp cfg appName repo with
  | None => refuse 403 "installation_not_configured"
  | Some inst =>
  let guard := checkBranchLifecycle gh appName inst repo branch operation agent in
  if match guard with Some g => negb (Allowed g) | None => false end then refuse 403 "policy_denied" else
  match (if is_push then preflight gh 0 appName inst repo updates else None) with
  | Some (st, what) => refuse st what
  | None =>
  match InstallationToken gh appName inst with
  | None => refuse 502 "token_exchange_failed"
  | Some token =>
  match gitUpstreamURL parse_ok (GitBaseURL cfg) repo suffix with
  | None => refuse 400 "upstream_url_invalid"
  | Some url =>
  if negb (new_request_ok (g_Method r)) then refuse 400 "upstream_request_invalid" else
  let u := {| u_Method := g_Method r; u_URL := url; u_RawQuery := g_RawQuery r;
              u_Headers := copyGitHeaders ∅ (g_Headers r);
              u_Username := "x-access-token"; u_Password := token;
              u_Body := prefix +:+ rest; u_ContentLength := g_ContentLength r |} in
  match Do u with
  | None => {| o_Status := 502; o_Result := "github git upstream failed"; o_Headers := ∅; o_Sent := Some u |}
  | Some resp =>
    let answer result := {| o_Status := s_Status resp; o_Result := result;
                            o_Headers := copyGitHeaders ∅ (s_Headers resp); o_Sent := Some u |} in
    let status_text := "status " +:+ pretty (s_Status resp) in
    if negb (operation =? ReceivePack)%string then answer status_text else
    match s_Body resp with
    | None => {| o_Status := 502; o_Result := "receive_pack_status_limit_exceeded"; o_Headers := ∅;
                 o_Sent := Some u |}
    | Some b =>
      if 4194304 <? slen b
      then {| o_Status := 502; o_Result := "receive_pack_status_limit_exceeded"; o_Headers := ∅;
              o_Sent := Some u |}
      else answer (if receivePackRejected b then "github_ref_update_rejected" else status_text)
    end
  end end end end end end end end.
End Handler.

(** ** Specification: the requests the broker forwards *)

Section Spec.
Variable re_compile : string → option (string → bool).

(** GitHub's ref is where the client believes it is, and is not deleted. *)
Definition ref_current (gh : github) (k : nat) (appName : string) (inst : Z) (repo : string)
    (u : receivePackUpdate) : Prop :=
  After u ≠ zero_sha ∧
  GetRef gh k appName inst repo (Ref u) = Some (if decide (Before u = zero_sha) then None else Some (Before u)).

(** The updates a request asks for: those of the command prefix of a push. *)
Definition asks_for (is_push : bool) (body : string) (updates : list receivePackUpdate) : Prop :=
  if is_push
  then ∃ prefix rest, body = prefix +:+ rest ∧ command_list [] updates prefix ∧
         slen prefix ≤ maxReceivePackCommandPrefixBytes
  else updates = [].

Definition pushes (r : git_request) (operation : string) : bool :=
  (operation =? ReceivePack)%string && (g_Method r =? "POST")%string.

(** The refs policy decides on: no ref for a discovery or a fetch. *)
Definition refs_of (is_push : bool) (updates : list receivePackUpdate) : list string :=
  if is_push then map Ref updates else [""].

Definition forwards (cfg : Config) (gh : github) (parse_ok new_request_ok : string → bool)
    (r : git_request) (u : upstream) : Prop :=
  ∃ repo suffix agent id inst token updates,
    let operation := gitOperation r suffix in
    let is_push := pushes r operation in
    let app := GitHubAppName agent in
    let url := trim_right_slash (GitBaseURL cfg) +:+ "/" +:+ repo +:+ ".git" +:+ suffix in
    parseGitPath (g_Path r) = Some (repo, suffix) ∧
    AuthenticateAgent (g_Headers r) cfg = Some (agent, id) ∧
    operation ≠ "" ∧
    asks_for is_push (g_Body r) updates ∧
    (∀ ref, ref ∈ refs_of is_push updates → permitted re_compile (policy_request agent id repo operation ref)) ∧
    (is_push = true → GitReceivePack agent ≠ GitReceivePackDenyOpaque) ∧
    InstallationIDForApp cfg app repo = Some inst ∧
    (∀ g, checkBranchLifecycle gh app inst repo (default "" (Ref <$> head updates)) operation agent = Some g →
       Allowed g = true) ∧
    (is_push = true → ∀ i v, updates !! i = Some v → ref_current gh i app inst repo v) ∧
    InstallationToken gh app inst = Some token ∧
    parse_ok url = true ∧ new_request_ok (g_Method r) = true ∧
    u = {| u_Method := g_Method r; u_URL := url; u_RawQuery := g_RawQuery r;
           u_Headers := copyGitHeaders ∅ (g_Headers r); u_Username := "x-access-token";
           u_Password := token; u_Body := g_Body r; u_ContentLength := g_ContentLength r |}.

(** ** Lemmas *)

Lemma allowed_permitted req : Allowed (Check re_compile req) = true ↔ permitted re_compile req.
Proof. rewrite <- Check_no_failure, (proj1 (Check_shape re_compile req)). apply is_nil_true. Qed.

Lemma check_more_spec agent id repo operation updates :
  check_more re_compile agent id repo operation updates = true ↔
  ∀ ref, ref ∈ map Ref updates → permitted re_compile (policy_request agent id repo operation ref).
Proof.
  induction updates as [|u us IH]; cbn [check_more map]; [by rewrite elem_forall_nil|].
  rewrite elem_forall_cons, <- allowed_permitted, <- IH.
  destruct (Allowed _); cbn [negb]; intuition congruence.
Qed.

Lemma ref_current_test gh k app inst repo u current :
  GetRef gh k app inst repo (Ref u) = Some current → After u ≠ zero_sha →
  (let zeroBefore := (Before u =? zero_sha)%string in
   let found := bool_decide (is_Some current) in
   zeroBefore && found || negb zeroBefore && (negb found || negb (default "" current =? Before u)%string)) = false
  ↔ ref_current gh k app inst repo u.
Proof using Type.
  intros E Ha. unfold ref_current. rewrite E. cbv zeta.
  destruct (String.eqb_spec (Before u) zero_sha) as [Hb|Hb]; destruct current as [c|]; cbn [default from_option negb andb orb];
    rewrite ?(bool_decide_eq_true_2 (is_Some (Some c))) by eauto;
    rewrite ?(bool_decide_eq_false_2 (is_Some None)) by (by intros []);
    destruct (decide (Before u = zero_sha)); try done; cbn.
  - split; [done|]. by intros [_ [=]].
  - destruct (String.eqb_spec c (Before u)) as [->|Hc]; cbn; (split; [done|]); [done|].
    intros [_ [= ?]]. congruence.
  - split; [done|]. by intros [_ [=]].
Qed.

Lemma preflight_spec gh k app inst repo updates :
  preflight gh k app inst repo updates = None ↔
  ∀ i u, updates !! i = Some u → ref_current gh (k + i) app inst repo u.
Proof using Type.
  revert k. induction updates as [|u us IH]; intros k; cbn [preflight]; [done|].
  assert ((∀ i v, (u :: us) !! i = Some v → ref_current gh (k + i) app inst repo v) ↔
    ref_current gh k app inst repo u ∧ ∀ i v, us !! i = Some v → ref_current gh (S k + i) app inst repo v) as ->.
  { split.
    - intros H. split; [replace k with (k + 0)%nat by lia; by apply H|].
      intros i v Hv. replace (S k + i)%nat with (k + S i)%nat by lia. by apply H.
    - intros [H0 H] [|i] v Hv; cbn in Hv; simplify_eq; [by rewrite Nat.add_0_r|].
      replace (k + S i)%nat with (S k + i)%nat by lia. by apply H. }
  rewrite <- IH. destruct (String.eqb_spec (After u) zero_sha) as [Ha|Ha]; [split; [done|]; by intros [[? _] _]|].
  destruct (GetRef gh k app inst repo (Ref u)) as [current|] eqn:E.
  2: { split; [done|]. unfold ref_current. rewrite E. by intros [[_ [=]] _]. }
  rewrite <- (ref_current_test _ _ _ _ _ _ _ E Ha). cbv zeta.
  destruct (_ || _); [split; [done|]; by intros [[=] _]|]. split; [by split|]. by intros [_ ?].
Qed.

Lemma asks_for_spec is_push body updates :
  asks_for is_push body updates ↔
  ∃ prefix rest, prefix +:+ rest = body ∧
    (if is_push then readReceivePackCommandPrefix body else ("", body, Ok [])) = (prefix, rest, Ok updates).
Proof using Type.
  destruct is_push; cbn; split.
  - intros (p & t & -> & Hc & Hm). exists p, t. split; [done|]. by apply readReceivePackCommandPrefix_iff.
  - intros (p & t & _ & (-> & ? & ?)%readReceivePackCommandPrefix_iff). eauto.
  - intros ->. by exists "", body.
  - intros (? & ? & _ & E). by simplify_eq.
Qed.

Lemma pushed_branch body updates :
  asks_for true body updates → ∃ u us, updates = u :: us ∧ Ref u ≠ "".
Proof using Type.
  intros (p & t & _ & Hc & _). apply command_list_valid in Hc as (Hv & Hl & _); [|done|cbn; lia].
  destruct updates as [|u us]; [cbn in Hl; lia|]. exists u, us. split; [done|].
  inversion Hv as [|? ? (_ & _ & Hr)]; subst. by intros E; rewrite E in Hr.
Qed.

Lemma refs_permitted agent id repo operation is_push body updates :
  asks_for is_push body updates →
  (∀ ref, ref ∈ refs_of is_push updates → permitted re_compile (policy_request agent id repo operation ref)) ↔
  Allowed (Check re_compile (policy_request agent id repo operation
    match updates with u :: _ => Ref u | [] => "" end)) = true ∧
  check_more re_compile agent id repo operation (drop 1 updates) = true.
Proof.
  intros Ha. rewrite allowed_permitted, check_more_spec. destruct is_push; cbn [refs_of].
  - destruct (pushed_branch _ _ Ha) as (u & us & -> & _). cbn [map drop]. by rewrite elem_forall_cons.
  - cbn in Ha. subst updates. cbn [map drop]. by rewrite elem_forall_cons.
Qed.

Lemma gitUpstreamURL_spec parse_ok base repo suffix url :
  gitUpstreamURL parse_ok base repo suffix = Some url ↔
  url = trim_right_slash base +:+ "/" +:+ repo +:+ ".git" +:+ suffix ∧ parse_ok url = true.
Proof using Type.
  unfold gitUpstreamURL. cbv zeta. destruct (parse_ok _) eqn:E; split.
  - intros H. by simplify_eq.
  - by intros [-> _].
  - done.
  - intros [-> ?]. congruence.
Qed.
End Spec.

(** The two directions, for a repository and an authenticated agent. *)
Lemma handleGit_sound re_compile cfg gh parse_ok new_request_ok Do r u :
  o_Sent (handleGit re_compile cfg gh parse_ok new_request_ok Do r) = Some u →
  forwards re_compile cfg gh parse_ok new_request_ok r u.
Proof.
  unfold handleGit, forwards. cbv zeta. fold (pushes r).
  destruct (parseGitPath (g_Path r)) as [[repo suffix]|]; [|done].
  destruct (AuthenticateAgent (g_Headers r) cfg) as [[agent id]|]; [|done].
  set (op := gitOperation r suffix).
  destruct (String.eqb_spec op "") as [|Hop]; [done|].
  change ((op =? ReceivePack)%string && (g_Method r =? "POST")%string) with (pushes r op).
  destruct (if pushes r op then _ else _) as [[prefix rest] [updates|e]] eqn:Ep; [|done].
  assert (asks_for (pushes r op) (g_Body r) updates) as Ha.
  { apply asks_for_spec. exists prefix, rest. split; [|done].
    destruct (pushes r op); [by apply readReceivePackCommandPrefix_iff in Ep as (-> & _)|]. by simplify_eq. }
  assert (prefix +:+ rest = g_Body r) as Eb.
  { destruct (pushes r op); [by apply readReceivePackCommandPrefix_iff in Ep as (-> & _)|]. by simplify_eq. }
  set (branch := match updates with u :: _ => Ref u | [] => "" end).
  destruct (pushes r op && (branch =? "")%string); [done|].
  destruct (Allowed (Check _ _)) eqn:Eall; [|done]. destruct (check_more _ _ _ _ _ _) eqn:Emore; [|done]. cbn [negb].
  destruct (pushes r op && (GitReceivePack agent =? _)%string) eqn:Eopq; [done|].
  destruct (InstallationIDForApp _ _ _) as [inst|] eqn:Ei; [|done].
  destruct (match checkBranchLifecycle _ _ _ _ _ _ _ with Some g => _ | None => _ end) eqn:Eg; [done|].
  destruct (if pushes r op then preflight _ _ _ _ _ _ else None) as [[]|] eqn:Epre; [done|].
  destruct (InstallationToken _ _ _) as [token|] eqn:Et; [|done].
  destruct (gitUpstreamURL _ _ _ _) as [url|] eqn:Eu; [|done]. apply gitUpstreamURL_spec in Eu as [-> Eu].
  destruct (new_request_ok _) eqn:En; [|done]. cbn [negb]. intros H.
  exists repo, suffix, agent, id, inst, token, updates. fold op. split_and!; try done.
  + by eapply refs_permitted.
  + intros Hp. rewrite Hp in Eopq. cbn in Eopq. by bool_hyps.
  + intros g Hg. assert (default "" (Ref <$> head updates) = branch) as Ebr by by destruct updates.
    rewrite Ebr in Hg. rewrite Hg in Eg. by destruct (Allowed g).
  + intros Hp i v Hv. rewrite Hp in Epre. exact (proj1 (preflight_spec gh 0%nat _ _ _ _) Epre i v Hv).
  + rewrite Eb in H. destruct (Do _) as [resp|]; [|by injection H].
    destruct (negb _); [by injection H|]. destruct (s_Body resp); [|by injection H].
    destruct (_ <? _); by injection H.
Qed.

Lemma handleGit_complete re_compile cfg gh parse_ok new_request_ok Do r u :
  forwards re_compile cfg gh parse_ok new_request_ok r u →
  o_Sent (handleGit re_compile cfg gh parse_ok new_request_ok Do r) = Some u.
Proof.
  unfold handleGit, forwards. cbv zeta.
  intros (repo & suffix & agent & id & inst & token & updates & Hpath & Hauth & Hop & Ha & Href & Hopq & Hi & Hg & Hpre & Ht & Hu & Hn & ->).
  rewrite Hpath, Hauth. set (op := gitOperation r suffix) in *.
  destruct (String.eqb_spec op "") as [|_]; [done|].
  change ((op =? ReceivePack)%string && (g_Method r =? "POST")%string) with (pushes r op).
  pose proof Ha as (prefix & rest & Eb & Ep)%asks_for_spec. rewrite Ep.
  set (branch := match updates with u :: _ => Ref u | [] => "" end).
  assert (pushes r op && (branch =? "")%string = false) as ->.
  { destruct (pushes r op); [|done]. destruct (pushed_branch _ _ Ha) as (u & us & Eus & Hr).
    unfold branch. rewrite Eus. cbn. by apply String.eqb_neq. }
  apply (refs_permitted _ _ _ _ _ _ _ _ Ha) in Href as [Hr1 Hr2]. fold branch in Hr1. rewrite Hr1, Hr2. cbn [negb].
  assert (pushes r op && (GitReceivePack agent =? GitReceivePackDenyOpaque)%string = false) as ->.
  { destruct (pushes r op); [|done]. cbn. by apply String.eqb_neq, Hopq. }
  rewrite Hi.
  assert (default "" (Ref <$> head updates) = branch) as Ebr by by destruct updates. rewrite Ebr in Hg.
  assert (match checkBranchLifecycle gh (GitHubAppName agent) inst repo branch op agent with
          | Some g => negb (Allowed g) | None => false end = false) as ->.
  { destruct (checkBranchLifecycle _ _ _ _ _ _ _) as [g|]; [|done]. by rewrite Hg. }
  assert ((if pushes r op then preflight gh 0%nat (GitHubAppName agent) inst repo updates else None) = None) as ->.
  { destruct (pushes r op); [|done]. apply preflight_spec. intros i v Hv. by apply Hpre. }
  rewrite Ht. rewrite (proj2 (gitUpstreamURL_spec _ _ _ _ _) (conj eq_refl Hu)). rewrite Hn, Eb. cbn [negb].
  destruct (Do _) as [resp|]; [|done]. destruct (negb _); [done|]. destruct (s_Body resp); [|done].
  by destruct (_ <? _).
Qed.

(** ** Whose credentials are used *)

(** The request presents the identity [raw] with the secret [secret]. *)
Definition presents (h : gmap string (list string)) (raw secret : string) : Prop :=
  (header_get h "X-Agent-Id" = raw ∧ header_get h "X-Agent-Secret" = secret) ∨
  BasicAuth h = Some (raw, secret).

Lemma AuthenticateAgent_some h cfg agent id :
  AuthenticateAgent h cfg = Some (agent, id) →
  agent ∈ Agents cfg ∧ ID agent = id ∧ id ≠ "" ∧ ag_Enabled (policy_agent agent) = true ∧
  Secret agent ≠ "" ∧ ∃ raw, id = trim_space raw ∧ presents h raw (Secret agent).
Proof.
  unfold AuthenticateAgent. cbv zeta.
  set (hid := header_get h "X-Agent-Id"). set (hs := header_get h "X-Agent-Secret").
  destruct (if (hid =? "")%string || _ then _ else _) as [raw secret] eqn:E.
  intros H. destruct ((trim_space raw =? "")%string || _) eqn:Ee in H; [done|]. unfold AgentByID in H.
  destruct (List.find _ _) as [a|] eqn:Ef; [|done]. apply find_some_in in Ef as [Hin Hid].
  peel H. simplify_eq. bool_hyps. subst secret. split_and!; try done.
  exists raw. split; [done|]. unfold presents. fold hid hs.
  destruct ((hid =? "")%string || (hs =? "")%string) eqn:Eh; [|left; split; congruence].
  destruct (BasicAuth h) as [[b1 b2]|]; cbn in E; [right; congruence|left; split; congruence].
Qed.

Lemma InstallationIDForApp_some cfg app repo inst :
  InstallationIDForApp cfg app repo = Some inst →
  ∃ ctx configured, AppContext cfg app = Some ctx ∧ (configured, inst) ∈ Installations ctx ∧
    (configured = to_lower repo ∨ configured = repo ∨ installationCoversRepo configured repo = true).
Proof.
  unfold InstallationIDForApp. destruct (AppContext cfg app) as [ctx|]; [|done]. unfold lookup_repo.
  assert (∀ f v, snd <$> List.find f (Installations ctx) = Some v →
    ∃ c, (c, v) ∈ Installations ctx ∧ f (c, v) = true) as Hf.
  { intros f v H. destruct (List.find f _) as [[c w]|] eqn:E; [|done]. apply find_some_in in E as [? ?].
    exists c. by simplify_eq/=. }
  destruct (snd <$> List.find _ _) as [id|] eqn:E1.
  { intros [= ->]. apply Hf in E1 as (c & ? & Hc). bool_hyps. exists ctx, c. auto. }
  destruct (snd <$> List.find (λ '(r, _), (r =? repo)%string) _) as [id|] eqn:E2.
  { intros [= ->]. apply Hf in E2 as (c & ? & Hc). bool_hyps. exists ctx, c. auto. }
  intros E3. apply Hf in E3 as (c & ? & Hc). exists ctx, c. auto.
Qed.

Lemma copyGitHeaders_kept src k :
  is_Some (copyGitHeaders ∅ src !! k) → kept_header k = true ∧ copyGitHeaders ∅ src !! k = src !! k.
Proof.
  unfold copyGitHeaders. rewrite lookup_union_with, lookup_empty.
  destruct (filter _ src !! k) as [v|] eqn:E; cbn; [|by intros []].
  apply map_lookup_filter_Some in E as [E [Hk _]]. intros _. by rewrite E.
Qed.

(** ** Properties *)

(** C27: the Git proxy forwards exactly the requests it may.  [handleGit] sends a
    request upstream if and only if the path names a repository, the agent's
    credentials check, the operation is one of the supported ones, policy permits
    it for every ref (every update of a push, not only the first), the identity
    may push opaque packs, an installation covers the repository, the lifecycle
    guard admits the first branch, no update deletes a ref and each has its
    advertised state at GitHub, and a token is granted.  What is sent has the
    client's method, query and exact body, the URL of that repository under the
    configured base, and the installation token as its credentials. *)
Theorem handleGit_forwards re_compile cfg gh parse_ok new_request_ok Do r u :
  o_Sent (handleGit re_compile cfg gh parse_ok new_request_ok Do r) = Some u ↔
  forwards re_compile cfg gh parse_ok new_request_ok r u.
Proof. split; [apply handleGit_sound|apply handleGit_complete]. Qed.

(** C28: nobody's credentials pass the broker.  A request is sent upstream only on
    behalf of an enabled agent of the configuration that presented its own,
    non-empty secret; the headers sent hold no Authorization, Host, X-Agent-* or
    X-Admin-* field and are otherwise the client's; and the token is that of an
    installation whose entry covers the repository in the URL. *)
Theorem handleGit_credentials re_compile cfg gh parse_ok new_request_ok Do r u :
  o_Sent (handleGit re_compile cfg gh parse_ok new_request_ok Do r) = Some u →
  (∀ k, is_Some (u_Headers u !! k) → kept_header k = true ∧ u_Headers u !! k = g_Headers r !! k) ∧
  ∃ agent id raw repo suffix ctx configured inst,
    (agent ∈ Agents cfg ∧ ID agent = id ∧ id = trim_space raw ∧ ag_Enabled (policy_agent agent) = true ∧
     Secret agent ≠ "" ∧ presents (g_Headers r) raw (Secret agent)) ∧
    u_URL u = trim_right_slash (GitBaseURL cfg) +:+ "/" +:+ repo +:+ ".git" +:+ suffix ∧
    AppContext cfg (GitHubAppName agent) = Some ctx ∧ (configured, inst) ∈ Installations ctx ∧
    (configured = to_lower repo ∨ configured = repo ∨ installationCoversRepo configured repo = true) ∧
    u_Username u = "x-access-token" ∧
    InstallationToken gh (GitHubAppName agent) inst = Some (u_Password u).
Proof.
  intros H. apply handleGit_sound in H
    as (repo & suffix & agent & id & inst & token & updates & _ & Ha & _ & _ & _ & _ & Hi & _ & _ & Ht & _ & _ & ->).
  cbn [u_Headers u_URL u_Username u_Password]. split; [intros k; apply copyGitHeaders_kept|].
  apply AuthenticateAgent_some in Ha as (Hin & Hid & _ & Hen & Hs & raw & Hraw & Hp).
  apply InstallationIDForApp_some in Hi as (ctx & configured & Hc & Hm & Hcov).
  exists agent, id, raw, repo, suffix, ctx, configured, inst. done.
Qed.

(** What the audit trail learns of a Git request does not depend on its
    credentials.  Two requests that differ only in their headers, and agree on
    whether any credential header is present and whether it is of the basic
    scheme, have the same audit identity; and the path recorded is the fixed text
    for an invalid one or consists of safe characters and slashes. *)
Theorem gitTransportRequest_audit r h :
  let r' := {| g_Method := g_Method r; g_Path := g_Path r; g_RawQuery := g_RawQuery r;
               g_Headers := h; g_Body := g_Body r; g_ContentLength := g_ContentLength r |} in
  (i_credentialHeaderPresent (gitTransportRequest r') = i_credentialHeaderPresent (gitTransportRequest r) →
   i_basicAuthPresent (gitTransportRequest r') = i_basicAuthPresent (gitTransportRequest r) →
   gitTransportRequest r' = gitTransportRequest r) ∧
  (i_requestPath (gitTransportRequest r) = "/git/[invalid]" ∨
   all_chars (λ c, safe_char c || Ascii.eqb c "/") (i_requestPath (gitTransportRequest r)) = true).
Proof.
  cbv zeta. unfold gitTransportRequest. cbn [g_Method g_Path g_RawQuery g_Headers].
  destruct (parseGitPath (g_Path r)) as [[repo suffix]|]; [|split; [cbn; congruence|by left]].
  destruct (safeGitRepository repo) eqn:Er; [|split; [cbn; congruence|by left]].
  destruct (safeGitSuffix suffix) eqn:Es; [|split; [cbn; congruence|by left]].
  cbn [negb orb]. split; [cbn; congruence|]. right. cbn [i_requestPath].
  rewrite !all_chars_app. unfold safeGitRepository in Er.
  destruct (cut "/" repo) as [[owner name]|] eqn:Ec; [|done]. apply cut_spec in Ec as ->.
  apply andb_true_iff in Er as [Eo En].
  assert (∀ s, safeGitPathSegment s = true → all_chars (λ c, safe_char c || Ascii.eqb c "/") s = true) as Hs.
  { intros s. unfold safeGitPathSegment. destruct (_ || _); [done|].
    apply all_chars_impl. by intros c ->. }
  rewrite (all_chars_app _ owner), (all_chars_cons _ "/" name), (Hs owner), (Hs name) by done.
  unfold safeGitSuffix in Es.
  repeat (apply orb_true_iff in Es as [Es|Es]); apply String.eqb_eq in Es as ->; reflexivity.
Qed.

(** ** A concrete push *)

Definition sample_agent : Agent :=
  {| policy_agent := {| ag_ID := "a1"; ag_Enabled := true; ag_Repositories := ["o/r"];
       ag_Operations := [ReceivePack; UploadPack]; ag_BranchPatterns := ["^refs/heads/agent/"];
       ag_BaseBranches := []; ag_Permissions := []; ag_MetadataAssertions := ∅ |};
     Secret := "s:cret"; GitHubApp := ""; GitReceivePack := "allow_opaque";
     BranchGuard := {| Mode := "enforce"; StalePRStates := []; Operations := [] |} |}.

Definition agent_branches : string → option (string → bool) :=
  λ p, if (p =? "^refs/heads/agent/")%string then Some (has_prefix "refs/heads/agent/") else None.

Definition sample_config : Config :=
  {| Agents := [sample_agent]; AdminSecret := ""; GitBaseURL := "https://github.com/";
     DefaultApp := {| AppID := 7; PrivateKeyPath := "key.pem"; Installations := [("o/*", 42)] |};
     Apps := ∅ |}.

Definition closed_pull : PullSummary :=
  {| p_Number := 3; p_State := "closed"; p_HeadRef := "agent/two"; p_Merged := true; p_MergedAt := "";
     p_HTMLURL := "" |}.

(** GitHub knows both branches at the advertised commit; the second has backed a
    pull request that is closed. *)
Definition sample_github : github :=
  {| ListPulls := λ _ _ _ head, Some (if (head =? "o:agent/two")%string then [closed_pull] else []);
     GetRef := λ _ _ _ _ _, Some (Some (sha_of "1"));
     InstallationToken := λ _ inst, if inst =? 42 then Some "tok" else None |}.

Definition two_refs : string :=
  encode_push [] (sample_update "refs/heads/agent/one") " report-status"
    [sample_update "refs/heads/agent/two"] +:+ "PACK".

Definition sample_git_request (body : string) : git_request :=
  {| g_Method := "POST"; g_Path := "/git/o/r.git/git-receive-pack"; g_RawQuery := "";
     g_Headers := {["Authorization" := ["Basic YTE6czpjcmV0"]; "Accept" := ["*/*"]]};
     g_Body := body; g_ContentLength := slen body |}.

Definition accepted (b : string) : upstream → option upstream_response :=
  λ _, Some {| s_Status := 200; s_Headers := ∅; s_Body := Some b |}.
Definition always : string → bool := λ _, true.

Definition sample_run (body : string) : outcome :=
  handleGit agent_branches sample_config sample_github always always
    (accepted (report ["unpack ok"])) (sample_git_request body).

Definition sample_sent (body : string) : upstream :=
  {| u_Method := "POST"; u_URL := "https://github.com/o/r.git/git-receive-pack"; u_RawQuery := "";
     u_Headers := copyGitHeaders ∅ (g_Headers (sample_git_request body));
     u_Username := "x-access-token"; u_Password := "tok"; u_Body := body;
     u_ContentLength := slen body |}.

Lemma sample_run_sent : o_Sent (sample_run two_refs) = Some (sample_sent two_refs).
Proof. vm_compute. reflexivity. Qed.

(** The lifecycle guard is asked about the first branch of a push only: the same
    guard denies a push of the second branch alone, and the push of both passes. *)
Lemma lifecycle_guard_first_ref_only :
  o_Sent (sample_run (encode_push [] (sample_update "refs/heads/agent/two") "" [])) = None ∧
  o_Sent (sample_run two_refs) = Some (sample_sent two_refs) ∧
  receivePackUpdates two_refs =
    Ok [sample_update "refs/heads/agent/one"; sample_update "refs/heads/agent/two"].
Proof. split_and!; vm_compute; reflexivity. Qed.

Example other_branch_denied :
  o_Result (sample_run (encode_push [] (sample_update "refs/heads/agent/one") ""
    [sample_update "refs/heads/main"])) = "policy_denied".
Proof. vm_compute. reflexivity. Qed.

Lemma handleGit_credentials_witness :
  (∀ k, is_Some (u_Headers (sample_sent two_refs) !! k) → kept_header k = true ∧
     u_Headers (sample_sent two_refs) !! k = g_Headers (sample_git_request two_refs) !! k) ∧
  ∃ agent id raw repo suffix ctx configured inst,
    (agent ∈ Agents sample_config ∧ ID agent = id ∧ id = trim_space raw ∧
     ag_Enabled (policy_agent agent) = true ∧
     Secret agent ≠ "" ∧ presents (g_Headers (sample_git_request two_refs)) raw (Secret agent)) ∧
    u_URL (sample_sent two_refs) =
      trim_right_slash (GitBaseURL sample_config) +:+ "/" +:+ repo +:+ ".git" +:+ suffix ∧
    AppContext sample_config (GitHubAppName agent) = Some ctx ∧ (configured, inst) ∈ Installations ctx ∧
    (configured = to_lower repo ∨ configured = repo ∨ installationCoversRepo configured repo = true) ∧
    u_Username (sample_sent two_refs) = "x-access-token" ∧
    InstallationToken sample_github (GitHubAppName agent) inst = Some (u_Password (sample_sent two_refs)).
Proof.
  apply (handleGit_credentials agent_branches sample_config sample_github always always
    (accepted (report ["unpack ok"])) (sample_git_request two_refs) (sample_sent two_refs)).
  exact sample_run_sent.
Defined.
