(* ===== verification/ReadAccess.v ===== *)
(** * Brokered reads: withReadAccess and classifyGitHubReadError of internal/server

    Every read endpoint authenticates the agent, finds the installation of the
    repository, asks policy, and only then calls GitHub; the error of a call is
    classified into a status and a code. *)

From S2P Require Import Prelude GoStrings Policy Http GitTransport.
Open Scope string_scope.
Open Scope list_scope.
Open Scope Z_scope.

(** githubapp.APIError, server.staleHeadError, a timeout (isTimeoutError), any other. *)
Inductive read_error :=
| APIError (StatusCode : Z) (Body : string)
| staleHeadError (expected actual : string)
| TimeoutError
| OtherError (what : string).

Definition RateLimited (StatusCode : Z) (Body : string) : bool :=
  if StatusCode =? 429 then true
  else GoStrings.contains (to_lower Body) "rate limit" || GoStrings.contains (to_lower Body) "secondary rate".

Definition classifyGitHubReadError (e : read_error) : Z * string :=
  match e with
  | staleHeadError _ _ => (409, "stale_pull_head")
  | APIError code body =>
    if code =? 404 then (404, "github_not_found")
    else if RateLimited code body then (429, "github_rate_limited")
    else if code =? 408 then (504, "github_timeout")
    else if code =? 401 then (502, "github_unauthorized")
    else if code =? 403 then (403, "github_forbidden")
    else if 500 <=? code then (502, "github_error")
    else (502, "github_rejected")
  | TimeoutError => (504, "github_timeout")
  | OtherError _ => (502, "github_error")
  end.

Inductive read_reply (A : Type) := ReadOk (out : A) | ReadError (code : string).
Arguments ReadOk {A} out.
Arguments ReadError {A} code.

Section Access.
Context {A : Type}.
Variable re_compile : string → option (string → bool).

(** [fn] is the call to GitHub, given the app and the installation. *)
Definition withReadAccess (cfg : Config) (h : gmap string (list string)) (repo operation branch : string)
    (fn : string → Z → result read_error A) : response (read_reply A) :=
  match AuthenticateAgent h cfg with
  | None => {| status := 401; reply := ReadError "unauthorized" |}
  | Some (agent, id) =>
    let appName := GitHubAppName agent in
    match InstallationIDForApp cfg appName repo with
    | None => {| status := 403; reply := ReadError "installation_not_configured" |}
    | Some inst =>
      if negb (Allowed (Check re_compile (policy_request agent id repo operation branch)))
      then {| status := 403; reply := ReadError "policy_denied" |}
      else match fn appName inst with
           | Ok out => {| status := 200; reply := ReadOk out |}
           | Err e => let '(st, code) := classifyGitHubReadError e in
                      {| status := st; reply := ReadError code |}
           end
    end
  end.

(** Who may read what: the authenticated agent, the app and the installation. *)
Definition may_read (cfg : Config) (h : gmap string (list string)) (repo operation branch : string)
    (appName : string) (inst : Z) : Prop :=
  ∃ agent id, AuthenticateAgent h cfg = Some (agent, id) ∧ appName = GitHubAppName agent ∧
    InstallationIDForApp cfg appName repo = Some inst ∧
    permitted re_compile (policy_request agent id repo operation branch).

Lemma classify_fails e : let '(st, _) := classifyGitHubReadError e in 400 ≤ st < 600.
Proof. destruct e; cbn; repeat case_match; simplify_eq; lia. Qed.

Lemma withReadAccess_iff cfg h repo operation branch fn out :
  withReadAccess cfg h repo operation branch fn = {| status := 200; reply := ReadOk out |} ↔
  ∃ appName inst, may_read cfg h repo operation branch appName inst ∧ fn appName inst = Ok out.
Proof.
  unfold withReadAccess, may_read.
  destruct (AuthenticateAgent h cfg) as [[agent id]|]; [|split; [done|]; by intros (?&?&(?&?&[=]&_)&_)].
  destruct (InstallationIDForApp cfg (GitHubAppName agent) repo) as [inst|] eqn:Ei.
  2: { split; [done|]. intros (?&?&(?&?&[= <- <-]&->&E&_)&_). congruence. }
  destruct (Allowed (Check re_compile (policy_request agent id repo operation branch))) eqn:Ea; cbn [negb].
  2: { split; [done|]. intros (?&?&(?&?&[= <- <-]&_&_&E)&_).
       apply allowed_permitted in E. congruence. }
  apply allowed_permitted in Ea. split.
  - intros H. exists (GitHubAppName agent), inst. split; [eauto 8|].
    destruct (fn _ _) as [o|e]; [congruence|]. destruct (classifyGitHubReadError e). congruence.
  - intros (?&?&(?&?&[= <- <-]&->&E&_)&Ef). rewrite Ei in E. injection E as <-. by rewrite Ef.
Qed.

(** A refused caller learns nothing GitHub said: the call is not made. *)
Lemma withReadAccess_refused cfg h repo operation branch fn fn' :
  (¬ ∃ appName inst, may_read cfg h repo operation branch appName inst) →
  withReadAccess cfg h repo operation branch fn = withReadAccess cfg h repo operation branch fn' ∧
  success (withReadAccess cfg h repo operation branch fn) = false.
Proof.
  intros Hn. unfold withReadAccess, may_read in *.
  destruct (AuthenticateAgent h cfg) as [[agent id]|]; [|done].
  destruct (InstallationIDForApp cfg (GitHubAppName agent) repo) as [inst|] eqn:Ei; [|done].
  destruct (Allowed (Check re_compile (policy_request agent id repo operation branch))) eqn:Ea; [|done].
  destruct Hn. exists (GitHubAppName agent), inst. apply allowed_permitted in Ea. eauto 8.
Qed.
End Access.

(** ** Properties *)

(** A read reaches GitHub only for an authenticated agent whom policy permits
    the operation, with the installation that covers the repository.  A 200 answer
    carries exactly what the call returned for that app and installation; a caller
    who may not read gets the same refusal whatever GitHub would have said; and an
    error of the call is an error status. *)
Theorem withReadAccess_gate {A} re_compile cfg h repo operation branch
    (fn : string → Z → result read_error A) :
  let p := withReadAccess re_compile cfg h repo operation branch fn in
  (∀ out, p = {| status := 200; reply := ReadOk out |} ↔
     ∃ appName inst, may_read re_compile cfg h repo operation branch appName inst ∧ fn appName inst = Ok out) ∧
  ((¬ ∃ appName inst, may_read re_compile cfg h repo operation branch appName inst) →
     success p = false ∧ ∀ fn', withReadAccess re_compile cfg h repo operation branch fn' = p) ∧
  (success p = true → ∃ out, p = {| status := 200; reply := ReadOk out |}).
Proof.
  cbv zeta. split_and!.
  - intros out. apply withReadAccess_iff.
  - intros Hn. split; [by apply (withReadAccess_refused _ _ _ _ _ _ _ fn)|].
    intros fn'. by apply withReadAccess_refused.
  - unfold withReadAccess. destruct (AuthenticateAgent h cfg) as [[agent id]|]; [|done].
    destruct (InstallationIDForApp cfg _ repo); [|done]. destruct (negb _); [done|].
    destruct (fn _ _) as [o|e]; [eauto|]. pose proof (classify_fails e) as Hc.
    destruct (classifyGitHubReadError e) as [st code]. unfold success; cbn [status].
    intros [_ ?%Z.ltb_lt]%andb_true_iff. lia.
Qed.
