(* ===== verification/RepoApi.v ===== *)
(** * The repository API: routing and reads (handleRepoAPI of internal/server)

    A request under /v1/repos/ is split at its slashes and dispatched on its
    shape; the endpoints that read compose a query for GitHub from the caller's
    and go through withReadAccess.  What GitHub's client answers to a read is an
    argument.  The endpoints that change something are in Mutations. *)

From stdpp Require Import pretty.
From S2P Require Import Prelude GoStrings Net Http Policy GitTransport ReadAccess.
Open Scope string_scope.
Open Scope list_scope.
Open Scope Z_scope.

(** ** Routing *)

Inductive endpoint :=
| Probe | PullList | PullCreate | PullGet (number : string) | PullFiles (number : string)
| PullIssueComments (number : string) | PullReviews (number : string) | PullReviewComments (number : string)
| PullReviewThreads (number : string) | CIObservation (number : string)
| PullReviewDismiss (number reviewID : string) | PullReviewThreadResolve (number threadID : string)
| IssueCreate | IssueList | IssueGet (number : string) | IssueComments (number : string)
| CommentCreate (number : string) | IssueLabelsAdd (number : string) | IssueLabelRemove (number label : string)
| CommitStatus (sha : string) | CheckRuns (sha : string)
| ActionsJobLog (jobID : string) | ActionsRunJobs (runID : string).

(** The repository and the endpoint, or not found. *)
Definition handleRepoAPI (method path : string) : option (string * endpoint) :=
  match split_at "/" (trim_prefix "/v1/repos/" path) with
  | a :: b :: rest =>
    let repo := a +:+ "/" +:+ b in
    pair repo <$>
    if (method =? "GET")%string then
      match rest with
      | ["probe"] => Some Probe
      | ["pulls"] => Some PullList
      | ["pulls"; n] => Some (PullGet n)
      | ["pulls"; n; "files"] => Some (PullFiles n)
      | ["pulls"; n; "comments"] => Some (PullIssueComments n)
      | ["pulls"; n; "reviews"] => Some (PullReviews n)
      | ["pulls"; n; "review-comments"] => Some (PullReviewComments n)
      | ["pulls"; n; "review-threads"] => Some (PullReviewThreads n)
      | ["pulls"; n; "ci-observation"] => Some (CIObservation n)
      | ["issues"] => Some IssueList
      | ["issues"; n] => Some (IssueGet n)
      | ["issues"; n; "comments"] => Some (IssueComments n)
      | ["commits"; sha; "status"] => Some (CommitStatus sha)
      | ["commits"; sha; "check-runs"] => Some (CheckRuns sha)
      | ["actions"; "jobs"; id; "log"] => Some (ActionsJobLog id)
      | ["actions"; "runs"; id; "jobs"] => Some (ActionsRunJobs id)
      | _ => None
      end
    else if (method =? "POST")%string then
      match rest with
      | ["pulls"] => Some PullCreate
      | ["issues"] => Some IssueCreate
      | ["issues"; n; "comments"] => Some (CommentCreate n)
      | ["issues"; n; "labels"] => Some (IssueLabelsAdd n)
      | _ => None
      end
    else if (method =? "PUT")%string then
      match rest with
      | ["pulls"; n; "reviews"; id; "dismissal"] => Some (PullReviewDismiss n id)
      | ["pulls"; n; "review-threads"; id; "resolve"] => Some (PullReviewThreadResolve n id)
      | _ => None
      end
    else if (method =? "DELETE")%string then
      match rest with
      | ["issues"; n; "labels"; label] => Some (IssueLabelRemove n label)
      | _ => None
      end
    else None
  | _ => None
  end.

Example route_ex :
  handleRepoAPI "PUT" "/v1/repos/o/r/pulls/7/reviews/R_1/dismissal" = Some ("o/r", PullReviewDismiss "7" "R_1").
Proof. by vm_compute. Qed.

(** ** Queries *)

(** r.URL.Query().Get and the Set of a url.Values. *)
Definition Get (q : gmap string (list string)) (k : string) : string := default "" (q !! k ≫= head).

Definition positive_or (default_ : Z) (raw : string) : Z :=
  if negb (raw =? "")%string then
    match Atoi raw with Some n => if 0 <? n then n else default_ | None => default_ end
  else default_.

Fixpoint pass_through (q : gmap string (list string)) (keys : list string) (out : gmap string (list string))
    : gmap string (list string) :=
  match keys with
  | [] => out
  | key :: keys =>
    let value := trim_space (Get q key) in
    pass_through q keys (if negb (value =? "")%string then <[key := [value]]> out else out)
  end.

Definition githubListQuery (q : gmap string (list string)) (passthrough : list string) : gmap string (list string) :=
  let perPage := positive_or 30 (Get q "per_page") in
  let perPage := if 100 <? perPage then 100 else perPage in
  let page := positive_or 1 (Get q "page") in
  pass_through q passthrough (<["page" := [pretty page]]> {["per_page" := [pretty perPage]]}).

Definition parsePositiveInt (raw : string) : option Z :=
  match Atoi raw with Some n => if n <? 1 then None else Some n | None => None end.

(** ** The endpoints that read *)

Definition maxActionsJobLogBytes : Z := 16 * 1024 * 1024.

(** The calls of GitHub's client, after the app and the installation. *)
Inductive read_call :=
| GetRepo (repo : string)
| ListPulls (repo : string) (query : gmap string (list string))
| GetPull (repo : string) (number : Z)
| ListPullFiles (repo : string) (number : Z) (query : gmap string (list string))
| ListIssueComments (repo : string) (number : Z) (query : gmap string (list string))
| ListPullReviews (repo : string) (number : Z) (query : gmap string (list string))
| ListPullReviewComments (repo : string) (number : Z) (query : gmap string (list string))
| ListPullReviewThreads (repo : string) (number : Z) (query : gmap string (list string))
| ListIssues (repo : string) (query : gmap string (list string))
| GetIssue (repo : string) (number : Z)
| GetCommitStatus (repo sha : string)
| ListCheckRuns (repo sha : string) (query : gmap string (list string))
| GetWorkflowJobLog (repo : string) (jobID maxBytes : Z)
| ListWorkflowJobs (repo : string) (runID : Z).

(** Pull requests and issues as far as the filters read them, with what is left. *)
Record PullSummary_ (X : Type) := { ps_Body : string; ps_HeadRef : string; ps_rest : X }.
Record IssueSummary (X : Type) := { iss_Body : string; iss_rest : X }.
Arguments ps_Body {X} p.
Arguments ps_HeadRef {X} p.
Arguments iss_Body {X} i.

Section Reads.
Context {X : Type}.

Inductive read_data :=
| Pulls (l : list (PullSummary_ X))
| Issues (l : list (IssueSummary X))
| Data (x : X).

Variable re_compile : string → option (string → bool).
Variable cfg : Config.
(** GitHub's client: app and installation, and the call. *)
Variable gh : string → Z → read_call → result read_error read_data.

Definition marked (marker : string) (l : list (PullSummary_ X)) : list (PullSummary_ X) :=
  if negb (marker =? "")%string then List.filter (λ p, GoStrings.contains (ps_Body p) marker) l else l.
Definition prefixed (prefix : string) (l : list (PullSummary_ X)) : list (PullSummary_ X) :=
  if negb (prefix =? "")%string then List.filter (λ p, has_prefix prefix (ps_HeadRef p)) l else l.
Definition marked_issues (marker : string) (l : list (IssueSummary X)) : list (IssueSummary X) :=
  if negb (marker =? "")%string then List.filter (λ i, GoStrings.contains (iss_Body i) marker) l else l.

(** What the endpoint's function makes of GitHub's answer. *)
Definition filtered (q : gmap string (list string)) (d : read_data) : read_data :=
  match d with
  | Pulls l => Pulls (prefixed (trim_space (Get q "head_prefix")) (marked (trim_space (Get q "body_marker")) l))
  | Issues l => Issues (marked_issues (trim_space (Get q "body_marker")) l)
  | Data x => Data x
  end.

Definition read_once (c : read_call) (appName : string) (inst : Z) : result read_error read_data := gh appName inst c.
Definition read_filtered (q : gmap string (list string)) (c : read_call) (appName : string) (inst : Z)
    : result read_error read_data :=
  match gh appName inst c with Ok d => Ok (filtered q d) | Err e => Err e end.

Definition invalid_request : response (read_reply read_data) :=
  {| status := 400; reply := ReadError "invalid_request" |}.

Definition numbered (raw : string) (k : Z → response (read_reply read_data)) : response (read_reply read_data) :=
  match parsePositiveInt raw with None => invalid_request | Some n => k n end.

Definition handlePullList h repo q :=
  withReadAccess re_compile cfg h repo "pull.read" ""
    (read_filtered q (ListPulls repo (githubListQuery q ["state"; "head"; "base"; "sort"; "direction"]))).
Definition handlePullGet h repo rawNumber := numbered rawNumber (λ number,
  withReadAccess re_compile cfg h repo "pull.read" "" (read_once (GetPull repo number))).
Definition handlePullFiles h repo rawNumber q := numbered rawNumber (λ number,
  withReadAccess re_compile cfg h repo "pull.files.read" ""
    (read_once (ListPullFiles repo number (githubListQuery q [])))).
Definition handlePullIssueComments h repo rawNumber q := numbered rawNumber (λ number,
  withReadAccess re_compile cfg h repo "issue.comments.read" ""
    (read_once (ListIssueComments repo number (githubListQuery q ["since"])))).
Definition handlePullReviews h repo rawNumber q := numbered rawNumber (λ number,
  withReadAccess re_compile cfg h repo "pull.reviews.read" ""
    (read_once (ListPullReviews repo number (githubListQuery q [])))).
Definition handlePullReviewComments h repo rawNumber q := numbered rawNumber (λ number,
  withReadAccess re_compile cfg h repo "pull.reviews.read" ""
    (read_once (ListPullReviewComments repo number (githubListQuery q [])))).
Definition handlePullReviewThreads h repo rawNumber q := numbered rawNumber (λ number,
  withReadAccess re_compile cfg h repo "pull.reviews.read" ""
    (read_once (ListPullReviewThreads repo number (githubListQuery q [])))).
Definition handleIssueList h repo q :=
  withReadAccess re_compile cfg h repo "issue.read" ""
    (read_filtered q (ListIssues repo (githubListQuery q
       ["state"; "labels"; "assignee"; "creator"; "mentioned"; "since"; "sort"; "direction"]))).
Definition handleIssueGet h repo rawNumber := numbered rawNumber (λ number,
  withReadAccess re_compile cfg h repo "issue.read" "" (read_once (GetIssue repo number))).
Definition handleIssueComments h repo rawNumber q := numbered rawNumber (λ number,
  withReadAccess re_compile cfg h repo "issue.comments.read" ""
    (read_once (ListIssueComments repo number (githubListQuery q ["since"])))).
Definition handleCommitStatus h repo sha :=
  withReadAccess re_compile cfg h repo "status.read" "" (read_once (GetCommitStatus repo sha)).
Definition handleCheckRuns h repo sha q :=
  withReadAccess re_compile cfg h repo "checks.read" ""
    (read_once (ListCheckRuns repo sha (githubListQuery q ["check_name"; "status"; "filter"]))).
Definition handleActionsRunJobs h repo rawRunID := numbered rawRunID (λ runID,
  withReadAccess re_compile cfg h repo "actions.read" "" (read_once (ListWorkflowJobs repo runID))).
Definition handleActionsJobLog h repo rawJobID := numbered rawJobID (λ jobID,
  withReadAccess re_compile cfg h repo "actions.logs.read" ""
    (read_once (GetWorkflowJobLog repo jobID maxActionsJobLogBytes))).

(** handleProbe does not classify GitHub's error. *)
Definition handleProbe h repo : response (read_reply read_data) :=
  match AuthenticateAgent h cfg with
  | None => {| status := 401; reply := ReadError "unauthorized" |}
  | Some (agent, id) =>
    let appName := GitHubAppName agent in
    match InstallationIDForApp cfg appName repo with
    | None => {| status := 403; reply := ReadError "installation_not_configured" |}
    | Some inst =>
      if negb (Allowed (Check re_compile (policy_request agent id repo "repo.probe" "")))
      then {| status := 403; reply := ReadError "policy_denied" |}
      else match gh appName inst (GetRepo repo) with
           | Err _ => {| status := 502; reply := ReadError "github_error" |}
           | Ok out => {| status := 200; reply := ReadOk out |}
           end
    end
  end.

(** The CI observation is in CIStatus. *)
Definition serve_read (h q : gmap string (list string)) (method path : string)
    : option (response (read_reply read_data)) :=
  match handleRepoAPI method path with
  | None => Some {| status := 404; reply := ReadError "not found" |}
  | Some (repo, ep) =>
    match ep with
    | Probe => Some (handleProbe h repo)
    | PullList => Some (handlePullList h repo q)
    | PullGet n => Some (handlePullGet h repo n)
    | PullFiles n => Some (handlePullFiles h repo n q)
    | PullIssueComments n => Some (handlePullIssueComments h repo n q)
    | PullReviews n => Some (handlePullReviews h repo n q)
    | PullReviewComments n => Some (handlePullReviewComments h repo n q)
    | PullReviewThreads n => Some (handlePullReviewThreads h repo n q)
    | IssueList => Some (handleIssueList h repo q)
    | IssueGet n => Some (handleIssueGet h repo n)
    | IssueComments n => Some (handleIssueComments h repo n q)
    | CommitStatus sha => Some (handleCommitStatus h repo sha)
    | CheckRuns sha => Some (handleCheckRuns h repo sha q)
    | ActionsJobLog id => Some (handleActionsJobLog h repo id)
    | ActionsRunJobs id => Some (handleActionsRunJobs h repo id)
    | _ => None
    end
  end.
End Reads.

(** ** What an answer tells *)

(** The operation policy is asked about for a call, and the repository it reads. *)
Definition operation_of_read (c : read_call) : string :=
  match c with
  | GetRepo _ => "repo.probe"
  | ListPulls _ _ | GetPull _ _ => "pull.read"
  | ListPullFiles _ _ _ => "pull.files.read"
  | ListIssueComments _ _ _ => "issue.comments.read"
  | ListPullReviews _ _ _ | ListPullReviewComments _ _ _ | ListPullReviewThreads _ _ _ => "pull.reviews.read"
  | ListIssues _ _ | GetIssue _ _ => "issue.read"
  | GetCommitStatus _ _ => "status.read"
  | ListCheckRuns _ _ _ => "checks.read"
  | GetWorkflowJobLog _ _ _ => "actions.logs.read"
  | ListWorkflowJobs _ _ => "actions.read"
  end.

Definition repo_of_read (c : read_call) : string :=
  match c with
  | GetRepo r | ListPulls r _ | GetPull r _ | ListPullFiles r _ _ | ListIssueComments r _ _ | ListPullReviews r _ _
  | ListPullReviewComments r _ _ | ListPullReviewThreads r _ _ | ListIssues r _ | GetIssue r _ | GetCommitStatus r _
  | ListCheckRuns r _ _ | GetWorkflowJobLog r _ _ | ListWorkflowJobs r _ => r
  end.

(** Numbers are positive, pages have at most 100 entries, logs 16 MiB. *)
Definition paged (query : gmap string (list string)) : Prop :=
  (∃ n, query !! "per_page" = Some [pretty n] ∧ 1 ≤ n ≤ 100) ∧
  (∃ n, query !! "page" = Some [pretty n] ∧ 1 ≤ n).

Definition bounded_read (c : read_call) : Prop :=
  match c with
  | GetRepo _ | GetCommitStatus _ _ => True
  | ListPulls _ q | ListIssues _ q | ListCheckRuns _ _ q => paged q
  | GetPull _ n | GetIssue _ n | ListWorkflowJobs _ n => 1 ≤ n
  | ListPullFiles _ n q | ListIssueComments _ n q | ListPullReviews _ n q | ListPullReviewComments _ n q
  | ListPullReviewThreads _ n q => 1 ≤ n ∧ paged q
  | GetWorkflowJobLog _ n b => 1 ≤ n ∧ b ≤ 16777216
  end.

Lemma pass_through_kept q keys out k : k ∉ keys → pass_through q keys out !! k = out !! k.
Proof.
  revert out. induction keys as [|key keys IH]; intros out; [done|].
  intros [Hne Hk]%not_elem_of_cons. cbn [pass_through]. rewrite IH by done.
  case_match; [|done]. by rewrite lookup_insert_ne.
Qed.

Lemma positive_or_pos default_ raw : 1 ≤ default_ → 1 ≤ positive_or default_ raw.
Proof.
  intros H. unfold positive_or. case_match; [|done]. destruct (Atoi raw) as [n|]; [|done].
  destruct (Z.ltb_spec 0 n); lia.
Qed.

Lemma githubListQuery_paged q keys :
  existsb (String.eqb "per_page") keys = false → existsb (String.eqb "page") keys = false → paged (githubListQuery q keys).
Proof.
  assert (∀ k, existsb (String.eqb k) keys = false → k ∉ keys) as Hn.
  { intros k Hk Hin. apply not_true_iff_false in Hk. destruct Hk. apply existsb_exists. exists k.
    split; [by apply list_elem_of_In in Hin|by apply String.eqb_refl]. }
  intros Hp%Hn Hg%Hn. unfold githubListQuery. split.
  - rewrite pass_through_kept, lookup_insert_ne, lookup_singleton_eq by done. eexists. split; [done|].
    pose proof (positive_or_pos 30 (Get q "per_page") ltac:(lia)). case_match; bool_hyps; lia.
  - rewrite pass_through_kept, lookup_insert_eq by done. eexists. split; [done|]. by apply positive_or_pos.
Qed.

Lemma parsePositiveInt_pos raw n : parsePositiveInt raw = Some n → 1 ≤ n.
Proof.
  unfold parsePositiveInt. destruct (Atoi raw) as [k|]; [|done]. destruct (Z.ltb_spec k 1); [done|]. by intros [= <-].
Qed.

Section Answers.
Context {X : Type}.
Variable re_compile : string → option (string → bool).
Variable cfg : Config.
Variable gh : string → Z → read_call → result read_error (@read_data X).
Variables (h q : gmap string (list string)).

(** Where the data of an answer comes from. *)
Definition read_for (repo : string) (out : read_data) : Prop :=
  ∃ c appName inst d, may_read re_compile cfg h repo (operation_of_read c) "" appName inst ∧
    repo_of_read c = repo ∧ bounded_read c ∧ gh appName inst c = Ok d ∧ (out = d ∨ out = filtered q d).

Lemma read_for_once repo c out :
  withReadAccess re_compile cfg h repo (operation_of_read c) "" (read_once gh c) = {| status := 200; reply := ReadOk out |} →
  repo_of_read c = repo → bounded_read c → read_for repo out.
Proof using Type.
  intros (app & inst & Hm & Hd)%withReadAccess_iff Hr Hb. exists c, app, inst, out. split_and!; try done. by left.
Qed.

Lemma read_for_filtered repo c out :
  withReadAccess re_compile cfg h repo (operation_of_read c) "" (read_filtered gh q c) = {| status := 200; reply := ReadOk out |} →
  repo_of_read c = repo → bounded_read c → read_for repo out.
Proof using Type.
  intros (app & inst & Hm & Hd)%withReadAccess_iff Hr Hb. unfold read_filtered in Hd.
  destruct (gh app inst c) as [d|] eqn:E; [|done]. injection Hd as <-. exists c, app, inst, d. split_and!; try done. by right.
Qed.

Lemma numbered_ok raw k out :
  numbered raw k = {| status := 200; reply := ReadOk out |} →
  ∃ n, 1 ≤ n ∧ k n = ({| status := 200; reply := ReadOk out |} : response (read_reply (@read_data X))).
Proof using Type.
  unfold numbered. destruct (parsePositiveInt raw) as [n|] eqn:E; [|done]. intros H. exists n.
  split; [by eapply parsePositiveInt_pos|done].
Qed.

Lemma probe_ok repo out :
  handleProbe re_compile cfg gh h repo = {| status := 200; reply := ReadOk out |} → read_for repo out.
Proof using Type.
  unfold handleProbe. destruct (AuthenticateAgent h cfg) as [[agent id]|] eqn:Ea; [|done].
  destruct (InstallationIDForApp cfg (GitHubAppName agent) repo) as [inst|] eqn:Ei; [|done].
  destruct (Allowed (Check re_compile (policy_request agent id repo "repo.probe" ""))) eqn:Ep; cbn [negb]; [|done].
  destruct (gh _ inst (GetRepo repo)) as [d|] eqn:Eg; [|done]. intros [= <-].
  exists (GetRepo repo), (GitHubAppName agent), inst, d. split_and!; try done; [|by left].
  exists agent, id. split_and!; try done. by apply allowed_permitted.
Qed.
End Answers.

(** ** Properties *)

(** C33: data comes out of the read endpoints only for an authenticated agent whom
    policy permits the operation of the endpoint on the repository of the path,
    and it is GitHub's answer to one call about that repository, made with the
    installation that covers it, with positive numbers and at most 100 entries
    to a page. *)
Theorem read_answer_gated {X} re_compile cfg (gh : string → Z → read_call → result read_error (@read_data X)) h q method path out :
  serve_read re_compile cfg gh h q method path = Some {| status := 200; reply := ReadOk out |} →
  ∃ repo ep, handleRepoAPI method path = Some (repo, ep) ∧ read_for re_compile cfg gh h q repo out.
Proof.
  unfold serve_read. destruct (handleRepoAPI method path) as [[repo ep]|]; [|done]. intros H. exists repo, ep. split; [done|].
  destruct ep; try discriminate H; apply (inj Some) in H.
  all: unfold handlePullList, handlePullGet, handlePullFiles, handlePullIssueComments, handlePullReviews,
    handlePullReviewComments, handlePullReviewThreads, handleIssueList, handleIssueGet, handleIssueComments,
    handleCommitStatus, handleCheckRuns, handleActionsJobLog, handleActionsRunJobs in H.
  all: lazymatch type of H with
       | handleProbe _ _ _ _ _ = _ => exact (probe_ok _ _ _ _ _ _ _ H)
       | numbered _ _ = _ => apply numbered_ok in H as (n' & Hn & H)
       | _ => idtac
       end.
  all: lazymatch type of H with
       | withReadAccess _ _ _ _ _ _ (read_once _ ?c) = _ => apply (read_for_once _ _ _ _ q _ c _ H eq_refl)
       | withReadAccess _ _ _ _ _ _ (read_filtered _ _ ?c) = _ => apply (read_for_filtered _ _ _ _ q _ c _ H eq_refl)
       end.
  all: cbn [bounded_read]; repeat split; try apply githubListQuery_paged.
  all: first [exact Hn | exact I | reflexivity | unfold maxActionsJobLogBytes; lia].
Qed.

Definition reader : Agent :=
  {| policy_agent := {| ag_ID := "a1"; ag_Enabled := true; ag_Repositories := ["o/r"]; ag_Operations := ["pull.read"];
       ag_BranchPatterns := []; ag_BaseBranches := []; ag_Permissions := []; ag_MetadataAssertions := ∅ |};
     Secret := "s1"; GitHubApp := ""; GitReceivePack := "";
     BranchGuard := {| Mode := ""; StalePRStates := []; Operations := [] |} |}.
Definition reader_config : Config :=
  {| Agents := [reader]; AdminSecret := ""; GitBaseURL := "";
     DefaultApp := {| AppID := 7; PrivateKeyPath := "key.pem"; Installations := [("o/*", 42)] |}; Apps := ∅ |}.
Definition reader_headers : gmap string (list string) := {["X-Agent-Id" := ["a1"]; "X-Agent-Secret" := ["s1"]]}.
Definition two_pulls : list (PullSummary_ Z) :=
  [{| ps_Body := "run r1"; ps_HeadRef := "agent/x"; ps_rest := 3 |};
   {| ps_Body := "run r2"; ps_HeadRef := "agent/y"; ps_rest := 4 |}].
(** GitHub lists two pull requests when it is asked for a page of 100. *)
Definition listing (app : string) (inst : Z) (c : read_call) : result read_error (@read_data Z) :=
  match c with
  | ListPulls _ q => if (Get q "per_page" =? "100")%string then Ok (Pulls two_pulls) else Err TimeoutError
  | _ => Err TimeoutError
  end.
Definition marker_query : gmap string (list string) := {["per_page" := ["500"]; "body_marker" := [" run r2 "]]}.

Lemma read_answer_gated_witness :
  ∃ repo ep, handleRepoAPI "GET" "/v1/repos/o/r/pulls" = Some (repo, ep) ∧
    read_for (λ _, None) reader_config listing reader_headers marker_query repo
      (Pulls [{| ps_Body := "run r2"; ps_HeadRef := "agent/y"; ps_rest := 4 |}]).
Proof.
  apply (@read_answer_gated Z (λ _, None) reader_config listing reader_headers marker_query "GET" "/v1/repos/o/r/pulls").
  vm_compute. reflexivity.
Defined.
