(* ===== verification/CIStatus.v ===== *)
(** * CI observation: requiredCI and aggregateCI of internal/server

    The broker tells an agent whether the checks GitHub requires for a pull
    request have passed at a given head commit.  The requirements come from the
    active branch rules; the evidence is commit statuses, check runs and workflow
    runs.  A record holds the fields the code reads. *)

From stdpp Require Import pretty.
From S2P Require Import Prelude GoStrings GoJson Regex Net ReceivePack Policy Http GitTransport ReadAccess.
Open Scope string_scope.
Open Scope list_scope.
Open Scope Z_scope.

(** ** Data: internal/api *)

Record RequiredWorkflow := { w_Path : string; w_Ref : string; w_RepositoryID : Z; w_SHA : string }.

Record RequiredCI := {
  Kind : string; Identity : string; IntegrationID : option Z; Workflow : option RequiredWorkflow }.

Record RequiredStatusCheck := { rs_Context : string; rs_IntegrationID : option Z }.

Record BranchRule := {
  br_Type : string; RequiredStatusChecks : list RequiredStatusCheck;
  RequiredWorkflows : list RequiredWorkflow }.

Record LegacyRequiredStatusChecks := { Contexts : list string; Checks : list RequiredStatusCheck }.

Record StatusContext := { s_Context : string; s_State : string }.
Record CheckRun := { c_Name : string; c_Status : string; c_Conclusion : string; c_App : option Z }.
Record ReferencedWorkflow := {
  rw_Path : string; rw_Ref : string; rw_SHA : string; rw_RepositoryID : Z }.
Record WorkflowRun := {
  run_ID : Z; run_Status : string; run_Conclusion : string; run_Path : string;
  ReferencedWorkflows : list ReferencedWorkflow }.

(** ** requiredCI *)

(** The identities seen, and the requirements in order. *)
Definition required_acc := (gset string * list RequiredCI)%type.

Definition check_key (kind name : string) (integration : option Z) : string :=
  kind +:+ ":" +:+ name +:+ ":" +:+ match integration with Some id => pretty id | None => "" end.

Definition add (kind name : string) (integration : option Z) (acc : gset string * list RequiredCI)
    : gset string * list RequiredCI :=
  let name := trim_space name in
  let key := check_key kind name integration in
  if negb (name =? "")%string && negb (bool_decide (key ∈ acc.1))
  then ({[key]} ∪ acc.1, acc.2 ++ [{| Kind := kind; Identity := name; IntegrationID := integration; Workflow := None |}])
  else acc.

Definition workflow_key (w : RequiredWorkflow) : string :=
  "workflow:" +:+ w_Path w +:+ ":" +:+ w_Ref w +:+ ":" +:+ pretty (w_RepositoryID w) +:+ ":" +:+ w_SHA w.

Definition addWorkflow (w : RequiredWorkflow) (acc : gset string * list RequiredCI)
    : gset string * list RequiredCI :=
  if (w_Path w =? "")%string then acc else
  let key := workflow_key w in
  if negb (bool_decide (key ∈ acc.1))
  then ({[key]} ∪ acc.1, acc.2 ++ [{| Kind := "workflow"; Identity := w_Path w; IntegrationID := None; Workflow := Some w |}])
  else acc.

Definition add_check (acc : gset string * list RequiredCI) (c : RequiredStatusCheck) :=
  add "check" (rs_Context c) (rs_IntegrationID c) acc.

Definition add_rule (acc : gset string * list RequiredCI) (rule : BranchRule) : gset string * list RequiredCI :=
  if (br_Type rule =? "required_status_checks")%string then foldl add_check acc (RequiredStatusChecks rule)
  else if (br_Type rule =? "required_workflows")%string
  then foldl (λ acc w, addWorkflow w acc) acc (RequiredWorkflows rule)
  else acc.

Definition requiredCI (rules : option (list BranchRule)) (protection : option (option LegacyRequiredStatusChecks))
    : list RequiredCI :=
  match rules with
  | Some rules => (foldl add_rule (∅, []) rules).2
  | None =>
    match protection with
    | Some (Some checks) =>
      let acc := foldl (λ acc context, add "status" context None acc) (∅, []) (Contexts checks) in
      (foldl add_check acc (Checks checks)).2
    | _ => []
    end
  end.

(** ** Matching a workflow run *)

(** strings.LastIndex of a byte *)
Fixpoint last_index (c : ascii) (s : string) : option nat :=
  match s with
  | EmptyString => None
  | String d s =>
    match last_index c s with
    | Some i => Some (S i)
    | None => if Ascii.eqb d c then Some 0%nat else None
    end
  end.

Definition from_workflows (value : string) : string :=
  match index_of ".github/workflows/" value with
  | Some source => if (0 <? source)%nat then sdrop source value else value
  | None => value
  end.

Definition splitWorkflowPathRef (value : string) : string * string :=
  match last_index "@" value with
  | Some at_ =>
    if (0 <? at_)%nat then (from_workflows (stake at_ value), sdrop (at_ + 1) value)
    else (from_workflows value, "")
  | None => (from_workflows value, "")
  end.

Definition workflowRunMatches (required : option RequiredWorkflow) (path ref : string) (repositoryID : Z)
    (sha : string) : bool :=
  match required with
  | None => false
  | Some required =>
    let '(path, pathRef) := splitWorkflowPathRef path in
    let '(requiredPath, requiredPathRef) := splitWorkflowPathRef (w_Path required) in
    if negb (path =? requiredPath)%string then false else
    let ref := if (ref =? "")%string then pathRef else ref in
    let requiredRef := if (w_Ref required =? "")%string then requiredPathRef else w_Ref required in
    if negb (w_SHA required =? "")%string && (sha =? "")%string then false else
    ((requiredRef =? "")%string || (requiredRef =? ref)%string)
    && ((w_SHA required =? "")%string || (w_SHA required =? sha)%string)
    && ((repositoryID =? 0) || (w_RepositoryID required =? 0) || (w_RepositoryID required =? repositoryID))
  end.

(** ** aggregateCI *)

(** statusByName: the last status of a context. *)
Fixpoint status_of (name : string) (statuses : list StatusContext) : string :=
  match statuses with
  | [] => ""
  | s :: statuses =>
    if existsb (λ s', (s_Context s' =? name)%string) statuses then status_of name statuses
    else if (s_Context s =? name)%string then to_lower (s_State s) else ""
  end.

Fixpoint first_check (integration : option Z) (candidates : list CheckRun) : string * string :=
  match candidates with
  | [] => ("", "")
  | c :: candidates =>
    if match integration with Some id => negb (bool_decide (c_App c = Some id)) | None => false end
    then first_check integration candidates
    else (to_lower (c_Status c), to_lower (c_Conclusion c))
  end.

Definition run_matches (w : option RequiredWorkflow) (run : WorkflowRun) : bool :=
  workflowRunMatches w (run_Path run) "" 0 "".
Definition reference_matches (w : option RequiredWorkflow) (run : WorkflowRun) : bool :=
  existsb (λ ref, workflowRunMatches w (rw_Path ref) (rw_Ref ref) (rw_RepositoryID ref) (rw_SHA ref))
    (ReferencedWorkflows run).
Definition run_state (run : WorkflowRun) : string * string :=
  (to_lower (run_Status run), to_lower (run_Conclusion run)).

Fixpoint scan_runs (w : option RequiredWorkflow) (found : string * string) (runs : list WorkflowRun)
    : string * string :=
  match runs with
  | [] => found
  | run :: runs =>
    if run_matches w run then run_state run
    else
      let found := if reference_matches w run then run_state run else found in
      if negb (found.1 =? "")%string then found else scan_runs w found runs
  end.

Definition observe (statuses : list StatusContext) (checks : list CheckRun) (runs : list WorkflowRun)
    (r : RequiredCI) : string * string :=
  if (Kind r =? "status")%string then (status_of (Identity r) statuses, "")
  else if (Kind r =? "check")%string then
    match List.filter (λ c, (c_Name c =? Identity r)%string) checks with
    | [] => match IntegrationID r with None => (status_of (Identity r) statuses, "") | Some _ => ("", "") end
    | candidates => first_check (IntegrationID r) candidates
    end
  else if (Kind r =? "workflow")%string then scan_runs (Workflow r) ("", "") runs
  else ("", "").

Definition is_one_of (s : string) (l : list string) : bool := existsb (String.eqb s) l.

Definition unfinished (state : string) : bool :=
  is_one_of state [""; "queued"; "in_progress"; "pending"; "requested"; "waiting"].

Fixpoint aggregate_from (statuses : list StatusContext) (checks : list CheckRun) (runs : list WorkflowRun)
    (result_ : string) (required : list RequiredCI) : string :=
  match required with
  | [] => result_
  | r :: required =>
    let '(state, conclusion) := observe statuses checks runs r in
    if unfinished state then aggregate_from statuses checks runs "pending" required
    else if (state =? "error")%string || (conclusion =? "startup_failure")%string
            || (conclusion =? "timed_out")%string then "infrastructure_failure"
    else if (state =? "failure")%string || (conclusion =? "failure")%string
            || (conclusion =? "cancelled")%string || (conclusion =? "action_required")%string
    then "code_failure"
    else aggregate_from statuses checks runs
           (if negb (state =? "success")%string && negb (conclusion =? "success")%string
               && negb (conclusion =? "neutral")%string && negb (conclusion =? "skipped")%string
            then "pending" else result_) required
  end.

Definition aggregateCI (required : list RequiredCI) (statuses : list StatusContext) (checks : list CheckRun)
    (runs : list WorkflowRun) : string :=
  if is_nil required then "success" else aggregate_from statuses checks runs "success" required.

(** ** The observation of a pull request *)

Record PullView := { HeadSHA : string; BaseRef : string }.

(** GitHub's answers; the pull request is read twice. *)
Record ci_github := {
  GetPull : nat → result read_error PullView;
  GetCommitStatus : string → result read_error (list StatusContext);
  ListCheckRuns : string → result read_error (list CheckRun);
  ListWorkflowRuns : string → result read_error (list WorkflowRun);
  ListWorkflowJobs : Z → result read_error (list Z);
  GetBranchRules : string → result read_error (option (list BranchRule)) }.

Record CIObservation := {
  RequestedHeadSHA : string; o_Pull : PullView; o_Statuses : list StatusContext;
  o_CheckRuns : list CheckRun; o_WorkflowRuns : list WorkflowRun; o_WorkflowJobs : list Z;
  o_BranchRules : option (list BranchRule); o_RequiredCI : list RequiredCI; AggregateState : string }.

Fixpoint collectJobs (gh : ci_github) (jobs : list Z) (runs : list WorkflowRun) : result read_error (list Z) :=
  match runs with
  | [] => Ok jobs
  | run :: runs =>
    runJobs ← ListWorkflowJobs gh (run_ID run);
    let jobs := jobs ++ runJobs in
    fail_if 1000 <? Z.of_nat (length jobs)
      with OtherError "GitHub CI observation exceeds the 1,000-job bound" ;;
    collectJobs gh jobs runs
  end.

Definition observeCI (gh : ci_github) (expected : string) : result read_error CIObservation :=
  pull ← GetPull gh 0;
  fail_if (HeadSHA pull =? "")%string with OtherError "GitHub pull request has no head SHA" ;;
  fail_if negb (HeadSHA pull =? expected)%string with staleHeadError expected (HeadSHA pull) ;;
  status ← GetCommitStatus gh (HeadSHA pull);
  checks ← ListCheckRuns gh (HeadSHA pull);
  runs ← ListWorkflowRuns gh (HeadSHA pull);
  jobs ← collectJobs gh [] runs;
  rules ← GetBranchRules gh (BaseRef pull);
  let required := requiredCI rules None in
  current ← GetPull gh 1;
  fail_if negb (HeadSHA current =? expected)%string with staleHeadError expected (HeadSHA current) ;;
  Ok {| RequestedHeadSHA := expected; o_Pull := current; o_Statuses := status; o_CheckRuns := checks;
        o_WorkflowRuns := runs; o_WorkflowJobs := jobs; o_BranchRules := rules; o_RequiredCI := required;
        AggregateState := aggregateCI required status checks runs |}.

(** [number] is what strconv.Atoi makes of the path segment. *)
Definition handleCIObservation (re_compile : string → option (string → bool)) (cfg : Config)
    (gh : string → Z → ci_github) (h : gmap string (list string)) (repo : string) (number : option Z)
    (head_sha : string) : response (read_reply CIObservation) :=
  match number with
  | None => {| status := 400; reply := ReadError "invalid_request" |}
  | Some n =>
    if n <? 1 then {| status := 400; reply := ReadError "invalid_request" |} else
    if negb (matches githubSHA head_sha)
    then {| status := 400; reply := ReadError "invalid_requested_head_sha" |} else
    withReadAccess re_compile cfg h repo "ci.read" "" (λ app inst, observeCI (gh app inst) head_sha)
  end.

(** ** The key of a requirement determines it *)

Definition colon : ascii := ":".
Definition no_colon (s : string) : bool := all_chars (λ c, negb (Ascii.eqb c colon)) s.

Lemma pretty_N_go_plain x s : no_colon s = true → no_colon (pretty_N_go x s) = true.
Proof.
  revert s. induction (N.lt_wf_0 x) as [x _ IH]; intros s Hs.
  destruct (decide (x = 0)%N) as [->|Hx]; [done|].
  rewrite pretty_N_go_step by lia. apply IH; [apply N.div_lt; lia|].
  unfold no_colon. rewrite all_chars_cons. apply andb_true_iff. split; [|done].
  generalize (x mod 10)%N. clear. intros m. unfold pretty_N_char. by repeat case_match.
Qed.

Lemma pretty_N_go_nonempty x s : s ≠ "" → pretty_N_go x s ≠ "".
Proof.
  revert s. induction (N.lt_wf_0 x) as [x _ IH]; intros s Hs.
  destruct (decide (x = 0)%N) as [->|Hx]; [done|].
  rewrite pretty_N_go_step by lia. apply IH; [apply N.div_lt; lia|done].
Qed.

Lemma pretty_Z_plain (z : Z) : no_colon (pretty z) = true ∧ pretty z ≠ "".
Proof.
  assert (∀ p, no_colon (pretty_N_go (N.pos p) "") = true ∧ pretty_N_go (N.pos p) "" ≠ "") as Hp.
  { intros p. split; [by apply pretty_N_go_plain|].
    rewrite pretty_N_go_step by lia. by apply pretty_N_go_nonempty. }
  destruct z as [|p|p]; [done|apply Hp|].
  change (pretty (Z.neg p)) with ("-" +:+ pretty_N_go (N.pos p) ""). split; [|done].
  unfold no_colon. rewrite all_chars_app. apply andb_true_iff. split; [done|]. exact (proj1 (Hp p)).
Qed.

Definition integration_text (o : option Z) : string := match o with Some id => pretty id | None => "" end.

Lemma integration_plain o : no_colon (integration_text o) = true.
Proof. destruct o; [apply pretty_Z_plain|done]. Qed.

#[export] Instance integration_text_inj : Inj (=) (=) integration_text.
Proof.
  intros [a|] [b|] E; cbn in E; try done.
  - f_equal. by apply (inj pretty).
  - by destruct (pretty_Z_plain a).
  - by destruct (pretty_Z_plain b).
Qed.

Lemma last_index_none c s : all_chars (λ d, negb (Ascii.eqb d c)) s = true → last_index c s = None.
Proof.
  induction s as [|d s IH]; [done|]. rewrite all_chars_cons. intros [Hd Hs]%andb_true_iff.
  cbn [last_index]. rewrite IH by done. by destruct (Ascii.eqb d c).
Qed.

Lemma last_index_app c a b :
  all_chars (λ d, negb (Ascii.eqb d c)) b = true → last_index c (a +:+ String c b) = Some (String.length a).
Proof.
  intros Hb. induction a as [|d a IH].
  - rewrite sapp_nil. cbn [last_index]. by rewrite last_index_none, Ascii.eqb_refl.
  - rewrite sapp_cons. cbn [last_index]. by rewrite IH.
Qed.

(** A text is split at its last colon in one way. *)
Lemma split_last_colon a b a' b' :
  no_colon b = true → no_colon b' = true → a +:+ ":" +:+ b = a' +:+ ":" +:+ b' → a = a' ∧ b = b'.
Proof.
  intros Hb Hb' E. pose proof (f_equal (last_index colon) E) as El.
  change (":" +:+ b) with (String colon b) in *. change (":" +:+ b') with (String colon b') in *.
  rewrite !last_index_app in El by done. injection El as El.
  pose proof (f_equal (stake (String.length a)) E) as Ea. rewrite stake_app in Ea by done.
  rewrite El, stake_app in Ea by done. pose proof (f_equal (sdrop (String.length a)) E) as Eb.
  rewrite sdrop_app in Eb by done. rewrite El, sdrop_app in Eb by done. by simplify_eq.
Qed.

Lemma check_key_inj kind name o name' o' :
  check_key kind name o = check_key kind name' o' → name = name' ∧ o = o'.
Proof.
  unfold check_key. fold (integration_text o) (integration_text o'). intros E.
  assert (∀ a, kind +:+ ":" +:+ name +:+ a = (kind +:+ ":" +:+ name) +:+ a ∧
               kind +:+ ":" +:+ name' +:+ a = (kind +:+ ":" +:+ name') +:+ a) as Hassoc
    by (intros; by rewrite !sapp_assoc).
  rewrite (proj1 (Hassoc _)), (proj2 (Hassoc _)) in E.
  apply split_last_colon in E as [En Eo]; [|apply integration_plain..].
  split; [|by apply (inj integration_text)]. rewrite <- !sapp_assoc in En.
  pose proof (f_equal (sdrop (String.length (kind +:+ ":"))) En) as Es. by rewrite !sdrop_app in Es.
Qed.

(** ** Every requirement of the rules is observed *)

Definition key_of (r : RequiredCI) : string :=
  match Workflow r with Some w => workflow_key w | None => check_key (Kind r) (Identity r) (IntegrationID r) end.

(** What the code knows of its accumulator. *)
Definition acc_ok (acc : gset string * list RequiredCI) : Prop :=
  (∀ k, k ∈ acc.1 → ∃ r, r ∈ acc.2 ∧ key_of r = k) ∧
  (∀ r, r ∈ acc.2 → (Workflow r = None ∧ (Kind r = "check" ∨ Kind r = "status")) ∨
     (∃ w, Workflow r = Some w ∧ Kind r = "workflow" ∧ w_Path w ≠ "")).

Definition has_check (c : RequiredStatusCheck) (acc : gset string * list RequiredCI) : Prop :=
  trim_space (rs_Context c) = "" ∨
  {| Kind := "check"; Identity := trim_space (rs_Context c); IntegrationID := rs_IntegrationID c;
     Workflow := None |} ∈ acc.2.

Definition has_workflow (w : RequiredWorkflow) (acc : gset string * list RequiredCI) : Prop :=
  w_Path w = "" ∨ ∃ r w', r ∈ acc.2 ∧ Kind r = "workflow" ∧ Workflow r = Some w' ∧ workflow_key w' = workflow_key w.

Definition grows (acc acc' : gset string * list RequiredCI) : Prop := acc_ok acc' ∧ ∃ l, acc'.2 = acc.2 ++ l.

Lemma grows_trans a b c : grows a b → grows b c → grows a c.
Proof. intros [_ [l Hl]] [Hc [l' Hl']]. split; [done|]. exists (l ++ l'). by rewrite Hl', Hl, (assoc_L (++)). Qed.

Lemma grows_has_check a b c : grows a b → has_check c a → has_check c b.
Proof. intros [_ [l Hl]] [?|?]; [by left|]. right. rewrite Hl. apply elem_of_app. by left. Qed.

Lemma grows_has_workflow a b w : grows a b → has_workflow w a → has_workflow w b.
Proof.
  intros [_ [l Hl]] [?|(r & w' & Hin & ?)]; [by left|]. right. exists r, w'. split; [|done].
  rewrite Hl. apply elem_of_app. by left.
Qed.

Lemma check_workflow_keys name o w : check_key "check" name o ≠ workflow_key w.
Proof. done. Qed.
Lemma check_status_keys name o name' o' : check_key "check" name o ≠ check_key "status" name' o'.
Proof. done. Qed.
Lemma status_workflow_keys name o w : check_key "status" name o ≠ workflow_key w.
Proof. done. Qed.

Lemma add_spec acc kind name o :
  acc_ok acc → kind = "check" ∨ kind = "status" →
  grows acc (add kind name o acc) ∧
  (trim_space name = "" ∨ ∃ r, r ∈ (add kind name o acc).2 ∧ key_of r = check_key kind (trim_space name) o).
Proof.
  intros [Hk Hr] Hkind. unfold add. cbv zeta.
  destruct (String.eqb_spec (trim_space name) "") as [|Hn]; cbn [negb andb].
  { split; [split; [by split|exists []; by rewrite app_nil_r]|by left]. }
  destruct (bool_decide (check_key kind (trim_space name) o ∈ acc.1)) eqn:E; cbn [negb]; bool_hyps.
  { split; [split; [by split|exists []; by rewrite app_nil_r]|right; by apply Hk]. }
  set (r := {| Kind := kind; Identity := trim_space name; IntegrationID := o; Workflow := None |}).
  assert (key_of r = check_key kind (trim_space name) o) as Er by done.
  split; [|right; exists r; split; [apply elem_of_app; right; by apply list_elem_of_singleton|done]].
  split; [|by exists [r]]. split; cbn [fst snd].
  - intros k [->%elem_of_singleton|Hin]%elem_of_union.
    + exists r. split; [|done]. apply elem_of_app. right. by apply list_elem_of_singleton.
    + destruct (Hk k Hin) as (r' & ? & ?). exists r'. split; [|done]. apply elem_of_app. by left.
  - intros r' [Hin|Hin]%elem_of_app; [by apply Hr|]. apply list_elem_of_singleton in Hin as ->. by left.
Qed.

Lemma addWorkflow_spec acc w :
  acc_ok acc → grows acc (addWorkflow w acc) ∧ has_workflow w (addWorkflow w acc).
Proof.
  intros [Hk Hr]. unfold addWorkflow, has_workflow. cbv zeta.
  destruct (String.eqb_spec (w_Path w) "") as [|Hn].
  { split; [split; [by split|exists []; by rewrite app_nil_r]|by left]. }
  destruct (bool_decide (workflow_key w ∈ acc.1)) eqn:E; cbn [negb]; bool_hyps.
  { split; [split; [by split|exists []; by rewrite app_nil_r]|]. right.
    destruct (Hk _ E) as (r & Hin & Ek). destruct (Hr r Hin) as [[Hw Hkind]|(w' & Hw & Hkind & _)].
    - unfold key_of in Ek. rewrite Hw in Ek. exfalso. destruct Hkind as [E'|E']; rewrite E' in Ek.
      + by eapply check_workflow_keys.
      + by eapply status_workflow_keys.
    - exists r, w'. unfold key_of in Ek. rewrite Hw in Ek. done. }
  set (r := {| Kind := "workflow"; Identity := w_Path w; IntegrationID := None; Workflow := Some w |}).
  split; [|right; exists r, w; split_and!; try done; apply elem_of_app; right; by apply list_elem_of_singleton].
  split; [|by exists [r]]. split; cbn [fst snd].
  - intros k [->%elem_of_singleton|Hin]%elem_of_union.
    + exists r. split; [|done]. apply elem_of_app. right. by apply list_elem_of_singleton.
    + destruct (Hk k Hin) as (r' & ? & ?). exists r'. split; [|done]. apply elem_of_app. by left.
  - intros r' [Hin|Hin]%elem_of_app; [by apply Hr|]. apply list_elem_of_singleton in Hin as ->. right. by exists w.
Qed.

Lemma add_check_spec acc c : acc_ok acc → grows acc (add_check acc c) ∧ has_check c (add_check acc c).
Proof.
  intros Ha. destruct (add_spec acc "check" (rs_Context c) (rs_IntegrationID c) Ha (or_introl eq_refl)) as [Hg Hc].
  split; [done|]. destruct Hc as [?|(r & Hin & Ek)]; [by left|]. right. destruct Hg as [[_ Hr] _].
  replace ({| Kind := _ |}) with r; [done|].
  destruct (Hr r Hin) as [[Hw [Hk|Hk]]|(w & Hw & _)]; unfold key_of in Ek; rewrite Hw in Ek.
  - rewrite Hk in Ek. apply check_key_inj in Ek as [Ei Eo]. destruct r; cbn in *. by subst.
  - rewrite Hk in Ek. by symmetry in Ek; apply check_status_keys in Ek.
  - by symmetry in Ek; apply check_workflow_keys in Ek.
Qed.

Lemma foldl_adds {A} (f : gset string * list RequiredCI → A → gset string * list RequiredCI)
    (P : A → gset string * list RequiredCI → Prop) l acc :
  (∀ acc x, acc_ok acc → grows acc (f acc x) ∧ P x (f acc x)) →
  (∀ x a b, grows a b → P x a → P x b) → acc_ok acc →
  grows acc (foldl f acc l) ∧ ∀ x, x ∈ l → P x (foldl f acc l).
Proof.
  intros Hf HP. revert acc. induction l as [|y l IH]; intros acc Ha.
  - split; [|by intros x ?%elem_of_nil]. split; [done|]. exists []. by rewrite app_nil_r.
  - destruct (Hf acc y Ha) as [Hg Hy]. destruct (IH (f acc y) (proj1 Hg)) as [Hg' Hl].
    split; [by eapply grows_trans|]. intros x [->|Hin]%elem_of_cons; [by eapply HP|by apply Hl].
Qed.

Definition rule_covered (rule : BranchRule) (acc : gset string * list RequiredCI) : Prop :=
  (br_Type rule = "required_status_checks" → ∀ c, c ∈ RequiredStatusChecks rule → has_check c acc) ∧
  (br_Type rule = "required_workflows" → ∀ w, w ∈ RequiredWorkflows rule → has_workflow w acc).

Lemma add_rule_spec acc rule : acc_ok acc → grows acc (add_rule acc rule) ∧ rule_covered rule (add_rule acc rule).
Proof.
  intros Ha. unfold add_rule, rule_covered.
  destruct (String.eqb_spec (br_Type rule) "required_status_checks") as [E|E].
  { destruct (foldl_adds add_check has_check (RequiredStatusChecks rule) acc add_check_spec) as [Hg Hc];
      [intros; by eapply grows_has_check|done|]. split; [done|]. split; [by intros _ c ?; apply Hc|by rewrite E]. }
  destruct (String.eqb_spec (br_Type rule) "required_workflows") as [E'|E'].
  { destruct (foldl_adds (λ acc w, addWorkflow w acc) has_workflow (RequiredWorkflows rule) acc) as [Hg Hc];
      [intros; by apply addWorkflow_spec|intros; by eapply grows_has_workflow|done|].
    split; [done|]. split; [done|by intros _ w ?; apply Hc]. }
  split; [|done]. split; [done|]. exists []. by rewrite app_nil_r.
Qed.

Lemma empty_acc_ok : acc_ok (∅, []).
Proof. split; [intros k Hk; set_solver|by intros r ?%elem_of_nil]. Qed.

Lemma requiredCI_rules rules protection :
  let out := requiredCI (Some rules) protection in
  (∀ rule, rule ∈ rules → rule_covered rule (∅, out)) ∧
  (∀ r, r ∈ out → (Workflow r = None ∧ (Kind r = "check" ∨ Kind r = "status")) ∨
     (∃ w, Workflow r = Some w ∧ Kind r = "workflow" ∧ w_Path w ≠ "")).
Proof.
  cbv zeta. cbn [requiredCI].
  destruct (foldl_adds add_rule rule_covered rules (∅, []) add_rule_spec) as [[[_ Hr] _] Hc]; [|apply empty_acc_ok|].
  { intros rule a b Hg [H1 H2]. split; intros E x Hx.
    - eapply grows_has_check; [done|by apply H1].
    - eapply grows_has_workflow; [done|by apply H2]. }
  split; [exact Hc|exact Hr].
Qed.

(** ** The evidence of a requirement *)

(** A conclusion the requirement is met by. *)
Definition green (p : string * string) : Prop :=
  unfinished p.1 = false ∧ p.1 ≠ "error" ∧ p.1 ≠ "failure" ∧
  p.2 ∉ ["startup_failure"; "timed_out"; "failure"; "cancelled"; "action_required"] ∧
  (p.1 = "success" ∨ p.2 ∈ ["success"; "neutral"; "skipped"]).

(** A conclusion it has failed by. *)
Definition red (p : string * string) : Prop :=
  p.1 = "error" ∨ p.1 = "failure" ∨
  p.2 ∈ ["startup_failure"; "timed_out"; "failure"; "cancelled"; "action_required"].

(** GitHub reported [p] for the requirement. *)
Definition status_shows (statuses : list StatusContext) (name : string) (p : string * string) : Prop :=
  ∃ s, s ∈ statuses ∧ s_Context s = name ∧ p = (to_lower (s_State s), "").
Definition check_shows (checks : list CheckRun) (name : string) (integration : option Z) (p : string * string) : Prop :=
  ∃ c, c ∈ checks ∧ c_Name c = name ∧ (∀ id, integration = Some id → c_App c = Some id) ∧
    p = (to_lower (c_Status c), to_lower (c_Conclusion c)).
Definition run_shows (runs : list WorkflowRun) (w : option RequiredWorkflow) (p : string * string) : Prop :=
  ∃ run, run ∈ runs ∧ p = run_state run ∧
    (workflowRunMatches w (run_Path run) "" 0 "" = true ∨
     ∃ ref, ref ∈ ReferencedWorkflows run ∧
       workflowRunMatches w (rw_Path ref) (rw_Ref ref) (rw_RepositoryID ref) (rw_SHA ref) = true).

Definition shows (statuses : list StatusContext) (checks : list CheckRun) (runs : list WorkflowRun)
    (r : RequiredCI) (p : string * string) : Prop :=
  (Kind r = "status" ∧ status_shows statuses (Identity r) p) ∨
  (Kind r = "check" ∧ (check_shows checks (Identity r) (IntegrationID r) p ∨
     (IntegrationID r = None ∧ (∀ c, c ∈ checks → c_Name c ≠ Identity r) ∧
      status_shows statuses (Identity r) p))) ∨
  (Kind r = "workflow" ∧ run_shows runs (Workflow r) p).

Lemma status_of_shows name statuses :
  status_of name statuses ≠ "" → status_shows statuses name (status_of name statuses, "").
Proof.
  induction statuses as [|s l IH]; cbn [status_of]; [done|]. intros H.
  destruct (existsb _ l).
  - destruct (IH H) as (s' & Hin & ?). exists s'. split; [by right|done].
  - destruct (String.eqb_spec (s_Context s) name); [|done]. exists s. split_and!; [left|done|done].
Qed.

Lemma first_check_shows integration candidates :
  (first_check integration candidates).1 ≠ "" →
  ∃ c, c ∈ candidates ∧ (∀ id, integration = Some id → c_App c = Some id) ∧
    first_check integration candidates = (to_lower (c_Status c), to_lower (c_Conclusion c)).
Proof.
  induction candidates as [|c l IH]; cbn [first_check]; [done|]. intros H.
  destruct (match integration with Some _ => _ | None => _ end) eqn:E.
  - destruct (IH H) as (c' & Hin & ?). exists c'. split; [by right|done].
  - exists c. split_and!; [left| |done]. intros id ->. by bool_hyps.
Qed.

Lemma scan_runs_shows w found runs :
  found.1 = "" → (scan_runs w found runs).1 ≠ "" → run_shows runs w (scan_runs w found runs).
Proof.
  revert found. induction runs as [|run runs IH]; intros found Hf; cbn [scan_runs]; [done|].
  assert (∀ p, run_shows runs w p → run_shows (run :: runs) w p) as Hcons.
  { intros p (r & Hin & ?). exists r. split; [by right|done]. }
  unfold run_matches, reference_matches.
  destruct (workflowRunMatches w (run_Path run) "" 0 "") eqn:Em.
  { intros _. exists run. split_and!; [left|done|by left]. }
  destruct (existsb _ (ReferencedWorkflows run)) eqn:Er.
  - destruct (String.eqb_spec (run_state run).1 ""); cbn [negb]; intros H; [by apply Hcons, IH|].
    exists run. split_and!; [left|done|right]. by apply existsb_elem_of in Er.
  - destruct (String.eqb_spec found.1 ""); cbn [negb]; intros H; [by apply Hcons, IH|done].
Qed.

Lemma observe_shows statuses checks runs r :
  (observe statuses checks runs r).1 ≠ "" → shows statuses checks runs r (observe statuses checks runs r).
Proof.
  unfold observe, shows. destruct (String.eqb_spec (Kind r) "status") as [E|_].
  { intros H. left. split; [done|]. by apply status_of_shows. }
  destruct (String.eqb_spec (Kind r) "check") as [E|_].
  { right; left. split; [done|].
    assert (∀ c, c ∈ List.filter (λ c, (c_Name c =? Identity r)%string) checks ↔ c ∈ checks ∧ c_Name c = Identity r) as Hf.
    { intros c. by rewrite !list_elem_of_In, filter_In, String.eqb_eq. }
    destruct (List.filter _ checks) as [|c0 cs] eqn:Ef.
    - destruct (IntegrationID r); [done|]. right. split_and!; [done| |by apply status_of_shows].
      intros c Hc E'. assert (c ∈ []) as ?%elem_of_nil by (by apply Hf). done.
    - left. apply first_check_shows in H as (c & Hin & Hi & ->).
      apply Hf in Hin as [? ?]. by exists c. }
  destruct (String.eqb_spec (Kind r) "workflow") as [E|_]; [|done].
  intros H. right; right. split; [done|]. by apply scan_runs_shows.
Qed.

(** ** The aggregate *)

Lemma is_one_of_spec s l : is_one_of s l = true ↔ s ∈ l.
Proof.
  unfold is_one_of. rewrite existsb_elem_of. setoid_rewrite String.eqb_eq. split; [by intros (x & ? & ->)|eauto].
Qed.

(** The three outcomes of one requirement. *)
Lemma verdict state conclusion :
  unfinished state = false →
  let infra := (state =? "error")%string || (conclusion =? "startup_failure")%string
               || (conclusion =? "timed_out")%string in
  let code := (state =? "failure")%string || (conclusion =? "failure")%string
              || (conclusion =? "cancelled")%string || (conclusion =? "action_required")%string in
  let open_ := negb (state =? "success")%string && negb (conclusion =? "success")%string
               && negb (conclusion =? "neutral")%string && negb (conclusion =? "skipped")%string in
  (infra || code = true ↔ red (state, conclusion)) ∧
  (infra || code || open_ = false ↔ green (state, conclusion)).
Proof.
  intros Hu. cbv zeta. unfold red, green. cbn [fst snd]. rewrite Hu. rewrite !not_elem_of_cons, !elem_of_cons, !elem_of_nil.
  split.
  - rewrite !orb_true_iff, !String.eqb_eq. tauto.
  - rewrite !orb_false_iff, !andb_false_iff, !negb_false_iff, !String.eqb_neq, !String.eqb_eq. tauto.
Qed.

Section Aggregate.
Variables (statuses : list StatusContext) (checks : list CheckRun) (runs : list WorkflowRun).
Notation observed := (observe statuses checks runs).

Definition failed (r : RequiredCI) : Prop := unfinished (observed r).1 = false ∧ red (observed r).

Lemma green_not_failed r : green (observed r) → ¬ failed r.
Proof.
  intros (_ & H1 & H2 & H3 & _) [_ [?|[?|?]]]; done.
Qed.

Lemma aggregate_from_spec result_ required :
  result_ = "success" ∨ result_ = "pending" →
  let a := aggregate_from statuses checks runs result_ required in
  (a = "success" ↔ result_ = "success" ∧ ∀ r, r ∈ required → green (observed r)) ∧
  (a = "infrastructure_failure" ∨ a = "code_failure" ↔ ∃ r, r ∈ required ∧ failed r) ∧
  (a = "success" ∨ a = "pending" ∨ a = "infrastructure_failure" ∨ a = "code_failure").
Proof.
  revert result_. induction required as [|r required IH]; intros result_ Hres; cbn zeta; cbn [aggregate_from].
  { rewrite elem_exists_nil, elem_forall_nil. destruct Hres as [-> | ->]; intuition done. }
  rewrite elem_exists_cons, elem_forall_cons. unfold failed at 1.
  destruct (observed r) as [state conclusion] eqn:Eo. cbn [fst].
  destruct (unfinished state) eqn:Eu.
  { destruct (IH "pending" (or_intror eq_refl)) as (H1 & H2 & H3). rewrite H1, H2.
    assert (¬ green (state, conclusion)) as Hn by (intros [E _]; cbn [fst] in E; congruence).
    intuition (discriminate || auto). }
  destruct (verdict state conclusion Eu) as [Hred Hgreen]. cbv zeta in Hred, Hgreen.
  set (infra := _ || (conclusion =? "timed_out")%string) in *.
  set (code := _ || (conclusion =? "action_required")%string) in *.
  set (open_ := _ && negb (conclusion =? "skipped")%string) in *.
  assert (infra || code = true → ¬ green (state, conclusion)) as Hng.
  { intros E Hg. apply Hgreen in Hg. rewrite E in Hg. done. }
  destruct infra; [destruct Hred as [Hred _]; specialize (Hred eq_refl); specialize (Hng eq_refl); intuition (discriminate || auto)|].
  destruct code; [destruct Hred as [Hred _]; specialize (Hred eq_refl); specialize (Hng eq_refl); intuition (discriminate || auto)|].
  assert (¬ red (state, conclusion)) as Hnr by (intros Hr; by apply Hred in Hr). cbn [orb] in Hgreen.
  destruct open_.
  - destruct (IH "pending" (or_intror eq_refl)) as (H1 & H2 & H3). rewrite H1, H2.
    assert (¬ green (state, conclusion)) as Hg by (intros Hg; by apply Hgreen in Hg).
    intuition (discriminate || auto).
  - destruct (IH result_ Hres) as (H1 & H2 & H3). rewrite H1, H2.
    assert (green (state, conclusion)) as Hg by by apply Hgreen. tauto.
Qed.
End Aggregate.

Lemma aggregateCI_spec required statuses checks runs :
  let a := aggregateCI required statuses checks runs in
  (a = "success" ↔ ∀ r, r ∈ required → green (observe statuses checks runs r)) ∧
  (a = "infrastructure_failure" ∨ a = "code_failure" ↔ ∃ r, r ∈ required ∧ failed statuses checks runs r) ∧
  (a = "success" ∨ a = "pending" ∨ a = "infrastructure_failure" ∨ a = "code_failure").
Proof.
  cbv zeta. unfold aggregateCI. destruct (is_nil required) eqn:E.
  - bool_hyps. subst. rewrite elem_exists_nil, elem_forall_nil. intuition done.
  - destruct (aggregate_from_spec statuses checks runs "success" required (or_introl eq_refl)) as (H1 & H2 & H3).
    rewrite H1. tauto.
Qed.

Lemma collectJobs_ok gh jobs runs jobs' :
  Z.of_nat (length jobs) ≤ 1000 → collectJobs gh jobs runs = Ok jobs' → Z.of_nat (length jobs') ≤ 1000.
Proof.
  revert jobs. induction runs as [|run runs IH]; intros jobs Hl H; cbn [collectJobs] in H; [by simplify_eq|].
  apply bind_ok in H as (l & _ & H). peel H. bool_hyps. by apply IH in H.
Qed.

Lemma observeCI_ok gh expected o :
  observeCI gh expected = Ok o →
  RequestedHeadSHA o = expected ∧ expected ≠ "" ∧ HeadSHA (o_Pull o) = expected ∧ GetPull gh 1 = Ok (o_Pull o) ∧
  (∃ pull, GetPull gh 0 = Ok pull ∧ HeadSHA pull = expected ∧ GetBranchRules gh (BaseRef pull) = Ok (o_BranchRules o)) ∧
  GetCommitStatus gh expected = Ok (o_Statuses o) ∧ ListCheckRuns gh expected = Ok (o_CheckRuns o) ∧
  ListWorkflowRuns gh expected = Ok (o_WorkflowRuns o) ∧ Z.of_nat (length (o_WorkflowJobs o)) ≤ 1000 ∧
  o_RequiredCI o = requiredCI (o_BranchRules o) None ∧
  AggregateState o = aggregateCI (o_RequiredCI o) (o_Statuses o) (o_CheckRuns o) (o_WorkflowRuns o).
Proof.
  unfold observeCI. intros H. apply bind_ok in H as (pull & Hp & H). peel H. bool_hyps.
  apply bind_ok in H as (sts & Hs & H). apply bind_ok in H as (checks & Hc & H).
  apply bind_ok in H as (runs & Hr & H). apply bind_ok in H as (jobs & Hj & H).
  apply bind_ok in H as (rules & Hb & H). cbv zeta in H. apply bind_ok in H as (current & Hcur & H). peel H.
  simplify_eq. bool_hyps. cbn. apply collectJobs_ok in Hj; [|cbn; lia].
  split_and!; try done. by exists pull.
Qed.

(** ** Properties *)

(** The aggregate state is decided by the required checks alone and fails
    closed.  It is success exactly when every requirement is observed in a final,
    passing state; it is a failure exactly when some requirement is observed in a
    final, failing state, whatever is still pending; otherwise it is pending.  And
    what is observed for a requirement is what GitHub reported for it: a missing
    status, check or run, or a check of another app than the required one, is not
    a passing state. *)
Theorem aggregateCI_decides required statuses checks runs :
  let a := aggregateCI required statuses checks runs in
  (a = "success" ↔ ∀ r, r ∈ required → green (observe statuses checks runs r)) ∧
  (a = "infrastructure_failure" ∨ a = "code_failure" ↔ ∃ r, r ∈ required ∧ failed statuses checks runs r) ∧
  (a = "success" ∨ a = "pending" ∨ a = "infrastructure_failure" ∨ a = "code_failure") ∧
  ∀ r, let p := observe statuses checks runs r in p.1 ≠ "" → shows statuses checks runs r p.
Proof.
  cbv zeta. destruct (aggregateCI_spec required statuses checks runs) as (H1 & H2 & H3).
  split_and!; [done..|]. intros r. apply observe_shows.
Qed.

(** C30: a success answer means that what the branch rules require has passed at
    the requested commit.  When the CI endpoint answers 200 with the aggregate
    success, the pull request had the requested head both before and after the
    evidence was read; all evidence was read for that commit; and every check and
    every workflow the active rules of its base branch require is shown in a
    passing state by that evidence. *)
Theorem success_answer_sound re_compile cfg gh h repo number head_sha rules o :
  handleCIObservation re_compile cfg gh h repo number head_sha = {| status := 200; reply := ReadOk o |} →
  AggregateState o = "success" → o_BranchRules o = Some rules →
  ∃ app inst, may_read re_compile cfg h repo "ci.read" "" app inst ∧
    let g := gh app inst in
    matches githubSHA head_sha = true ∧
    (∃ before after, GetPull g 0 = Ok before ∧ GetPull g 1 = Ok after ∧ HeadSHA before = head_sha ∧
       HeadSHA after = head_sha ∧ GetBranchRules g (BaseRef before) = Ok (Some rules)) ∧
    ∃ statuses checks runs, GetCommitStatus g head_sha = Ok statuses ∧ ListCheckRuns g head_sha = Ok checks ∧
      ListWorkflowRuns g head_sha = Ok runs ∧
      ∀ rule, rule ∈ rules →
        (br_Type rule = "required_status_checks" → ∀ c, c ∈ RequiredStatusChecks rule →
           trim_space (rs_Context c) = "" ∨
           ∃ p, green p ∧
             shows statuses checks runs
               {| Kind := "check"; Identity := trim_space (rs_Context c);
                  IntegrationID := rs_IntegrationID c; Workflow := None |} p) ∧
        (br_Type rule = "required_workflows" → ∀ w, w ∈ RequiredWorkflows rule →
           w_Path w = "" ∨
           ∃ w' p, workflow_key w' = workflow_key w ∧ green p ∧ run_shows runs (Some w') p).
Proof.
  unfold handleCIObservation. intros H Hsucc Hrules. destruct number as [n|]; [|done]. peel H. bool_hyps.
  apply withReadAccess_iff in H as (app & inst & Hmay & Ho). exists app, inst. split; [done|].
  apply observeCI_ok in Ho as (_ & _ & Hcur & Hg1 & (pull & Hg0 & Hh & Hb) & Hs & Hc & Hr & _ & Hreq & Hagg).
  cbv zeta. split; [done|]. split; [exists pull, (o_Pull o); by rewrite <- Hrules|].
  exists (o_Statuses o), (o_CheckRuns o), (o_WorkflowRuns o). split_and!; [done..|].
  rewrite Hagg in Hsucc. pose proof (proj1 (proj1 (aggregateCI_spec _ _ _ _)) Hsucc) as Hall. rewrite Hreq, Hrules in Hall.
  assert (∀ r, r ∈ requiredCI (Some rules) None → ∃ p, green p ∧
    shows (o_Statuses o) (o_CheckRuns o) (o_WorkflowRuns o) r p) as Hshow.
  { intros r Hin. exists (observe (o_Statuses o) (o_CheckRuns o) (o_WorkflowRuns o) r).
    pose proof (Hall r Hin) as Hg. split; [done|]. apply observe_shows.
    destruct Hg as [Hu _]. intros E. by rewrite E in Hu. }
  destruct (requiredCI_rules rules None) as [Hcov Hkind]. intros rule Hin. destruct (Hcov rule Hin) as [H1 H2].
  split; intros Et x Hx.
  - destruct (H1 Et x Hx) as [?|Hr1]; [by left|]. right. by apply Hshow.
  - destruct (H2 Et x Hx) as [?|(r & w' & Hr1 & Hk & Hw & Ekey)]; [by left|]. right.
    destruct (Hshow r Hr1) as (p & Hg & [[Hk' _]|[[Hk' _]|[_ Hrun]]]); [congruence..|].
    exists w', p. rewrite Hw in Hrun. done.
Qed.

(** ** A concrete observation *)

Definition sample_head : string := sha_of "a".
Definition sample_rules : list BranchRule :=
  [{| br_Type := "required_status_checks";
      RequiredStatusChecks := [{| rs_Context := "test"; rs_IntegrationID := Some 15 |};
                               {| rs_Context := "lint"; rs_IntegrationID := None |}];
      RequiredWorkflows := [] |};
   {| br_Type := "required_workflows"; RequiredStatusChecks := [];
      RequiredWorkflows := [{| w_Path := ".github/workflows/ci.yml"; w_Ref := "refs/heads/main";
                               w_RepositoryID := 9; w_SHA := "" |}] |}].

Definition sample_ci (other_app : bool) : ci_github :=
  {| GetPull := λ _, Ok {| HeadSHA := sample_head; BaseRef := "main" |};
     GetCommitStatus := λ _, Ok [{| s_Context := "lint"; s_State := "success" |}];
     ListCheckRuns := λ _, Ok [{| c_Name := "test"; c_Status := "completed"; c_Conclusion := "success";
                                  c_App := Some (if other_app then 16 else 15) |}];
     ListWorkflowRuns := λ _, Ok [{| run_ID := 1; run_Status := "completed"; run_Conclusion := "skipped";
       run_Path := "o/r/.github/workflows/ci.yml@refs/heads/main"; ReferencedWorkflows := [] |}];
     ListWorkflowJobs := λ _, Ok [7];
     GetBranchRules := λ _, Ok (Some sample_rules) |}.

Definition reader : Agent :=
  {| policy_agent := {| ag_ID := "a1"; ag_Enabled := true; ag_Repositories := ["o/r"];
       ag_Operations := ["ci.read"]; ag_BranchPatterns := []; ag_BaseBranches := []; ag_Permissions := [];
       ag_MetadataAssertions := ∅ |};
     Secret := "s:cret"; GitHubApp := ""; GitReceivePack := "";
     BranchGuard := {| Mode := ""; StalePRStates := []; Operations := [] |} |}.
Definition reader_config : Config :=
  {| Agents := [reader]; AdminSecret := ""; GitBaseURL := "";
     DefaultApp := {| AppID := 7; PrivateKeyPath := ""; Installations := [("o/r", 42)] |}; Apps := ∅ |}.
Definition reader_headers : gmap string (list string) :=
  {["X-Agent-Id" := ["a1"]; "X-Agent-Secret" := ["s:cret"]]}.

Definition sample_answer (other_app : bool) :=
  handleCIObservation (λ _, None) reader_config (λ _ _, sample_ci other_app) reader_headers "o/r" (Some 3) sample_head.

Definition aggregate_of (r : response (read_reply CIObservation)) : string :=
  match reply r with ReadOk o => AggregateState o | ReadError c => c end.

(** A check of another app does not meet the requirement. *)
Example other_app_pending : aggregate_of (sample_answer true) = "pending".
Proof. vm_compute. reflexivity. Qed.

Definition sample_observation : CIObservation :=
  {| RequestedHeadSHA := sample_head; o_Pull := {| HeadSHA := sample_head; BaseRef := "main" |};
     o_Statuses := [{| s_Context := "lint"; s_State := "success" |}];
     o_CheckRuns := [{| c_Name := "test"; c_Status := "completed"; c_Conclusion := "success"; c_App := Some 15 |}];
     o_WorkflowRuns := [{| run_ID := 1; run_Status := "completed"; run_Conclusion := "skipped";
       run_Path := "o/r/.github/workflows/ci.yml@refs/heads/main"; ReferencedWorkflows := [] |}];
     o_WorkflowJobs := [7]; o_BranchRules := Some sample_rules;
     o_RequiredCI := requiredCI (Some sample_rules) None; AggregateState := "success" |}.

Lemma success_answer_sound_witness :
  ∃ app inst, may_read (λ _, None) reader_config reader_headers "o/r" "ci.read" "" app inst ∧
    matches githubSHA sample_head = true ∧
    (∃ before after, GetPull (sample_ci false) 0 = Ok before ∧ GetPull (sample_ci false) 1 = Ok after ∧
       HeadSHA before = sample_head ∧ HeadSHA after = sample_head ∧
       GetBranchRules (sample_ci false) (BaseRef before) = Ok (Some sample_rules)) ∧
    ∃ statuses checks runs, GetCommitStatus (sample_ci false) sample_head = Ok statuses ∧
      ListCheckRuns (sample_ci false) sample_head = Ok checks ∧
      ListWorkflowRuns (sample_ci false) sample_head = Ok runs ∧
      ∀ rule, rule ∈ sample_rules →
        (br_Type rule = "required_status_checks" → ∀ c, c ∈ RequiredStatusChecks rule →
           trim_space (rs_Context c) = "" ∨
           ∃ p, green p ∧
             shows statuses checks runs
               {| Kind := "check"; Identity := trim_space (rs_Context c);
                  IntegrationID := rs_IntegrationID c; Workflow := None |} p) ∧
        (br_Type rule = "required_workflows" → ∀ w, w ∈ RequiredWorkflows rule →
           w_Path w = "" ∨
           ∃ w' p, workflow_key w' = workflow_key w ∧ green p ∧ run_shows runs (Some w') p).
Proof.
  apply (success_answer_sound (λ _, None) reader_config (λ _ _, sample_ci false) reader_headers "o/r" (Some 3)
           sample_head sample_rules sample_observation); [vm_compute|..]; reflexivity.
Defined.

(** Requirements are told apart by a text in which the parts of a workflow are
    separated by colons: two workflows can share it, and then only the first is
    required. *)
Lemma workflow_key_collision :
  let w1 := {| w_Path := ".github/workflows/a:b.yml"; w_Ref := "main"; w_RepositoryID := 1; w_SHA := "" |} in
  let w2 := {| w_Path := ".github/workflows/a"; w_Ref := "b.yml:main"; w_RepositoryID := 1; w_SHA := "" |} in
  w1 ≠ w2 ∧ workflow_key w1 = workflow_key w2 ∧
  length (requiredCI (Some [{| br_Type := "required_workflows"; RequiredStatusChecks := [];
                               RequiredWorkflows := [w1; w2] |}]) None) = 1%nat.
Proof. split_and!; [done|reflexivity|vm_compute; reflexivity]. Qed.
