(* ===== verification/GitHubApi.v ===== *)
(** * internal/api and the calls of internal/githubapp

    The records of the broker's JSON API and the calls of GitHub that change
    something, with what GitHub's client gives back for them.  The client itself
    is a parameter: these are its signatures. *)

From S2P Require Import Prelude.
Open Scope string_scope.
Open Scope Z_scope.

(** ** Answers *)

Record GitHubResult := { URL : string; HTMLURL : string; Number : Z; ID : Z; g_CreatedAt : string }.

Record PullReview := {
  pr_ID : string; pr_DatabaseID : Z; pr_State : string; pr_Body : string; pr_Author : option string;
  pr_CommitID : string; pr_SubmittedAt : string; pr_HTMLURL : string }.

Record PullReviewThreadResolveResult := { rt_ID : string; rt_IsResolved : bool }.

Record IssueComment := {
  ic_ID : Z; ic_Body : string; ic_Author : string; ic_URL : string; ic_HTMLURL : string;
  ic_CreatedAt : string; ic_UpdatedAt : string }.

(** The bodies the broker answers with, and stores. *)
Inductive reply_body :=
| RResult (g : GitHubResult)
| RReview (v : PullReview)
| RThread (v : PullReviewThreadResolveResult)
| RLabels (labels : list string).

(** ** Requests *)

Record PullCreateRequest := {
  Title : string; Head : string; Base : string; ReqBody : string; Draft : bool;
  Metadata : gmap string string; Permissions : list string }.

Record CommentCreateRequest := {
  cc_Body : string; cc_Metadata : gmap string string; cc_Permissions : list string }.

Record IssueCreateRequest := {
  is_Title : string; is_Body : string; is_Labels : list string;
  is_Metadata : gmap string string; is_Permissions : list string }.

Record IssueLabelsRequest := {
  il_Labels : list string; il_Metadata : gmap string string; il_Permissions : list string }.

(** PullReviewDismissRequest and PullReviewThreadResolveRequest have the same fields. *)
Record MessageRequest := {
  mr_Message : string; mr_Metadata : gmap string string; mr_Permissions : list string }.

(** ** The calls that change GitHub

    Each begins with the app and the installation its token is issued for. *)

Inductive mutation :=
| CreatePull (app repo : string) (inst : Z) (title head base body : string) (draft : bool)
| CreateIssue (app repo : string) (inst : Z) (title body : string) (labels : list string)
| CreateIssueComment (app repo issueNumber : string) (inst : Z) (body : string)
| AddIssueLabels (app repo : string) (inst number : Z) (labels : list string)
| RemoveIssueLabel (app repo : string) (inst number : Z) (label : string)
| DismissPullReview (app repo : string) (inst number reviewID : Z) (message : string)
| DismissPullReviewNode (app : string) (inst : Z) (reviewNodeID message : string)
| ResolvePullReviewThread (app : string) (inst : Z) (threadID message : string).

(** The path of CreateIssueComment, as it is put together. *)
Definition issue_comments_path (repo issueNumber : string) : string :=
  "/repos/" +:+ repo +:+ "/issues/" +:+ issueNumber +:+ "/comments".
