(* ===== verification/Idempotency.v ===== *)
(** * internal/idempotency and internal/metadata

    The durable record of mutation responses, one file of records by key that
    is rewritten and renamed into place, and the metadata block the broker
    appends to the bodies it creates.  [path_set] says whether a state path is
    configured; without one every operation is a no-op.  Fault 0 is reading the
    file, fault 1 writing it. *)

From stdpp Require Import pretty.
From S2P Require Import Prelude GoStrings GoTime.
Open Scope string_scope.
Open Scope list_scope.
Open Scope Z_scope.

(** ** Records *)

(** [Body] is the response the stored JSON is of. *)
Record Record_ (B : Type) := {
  CreatedAt : time; Operation : string; RequestDigest : string; Status : Z; Body : option B;
  Pending : bool; SemanticBody : string }.
Arguments CreatedAt {B} r.
Arguments Operation {B} r.
Arguments RequestDigest {B} r.
Arguments Status {B} r.
Arguments Body {B} r.
Arguments Pending {B} r.
Arguments SemanticBody {B} r.

Inductive idem_error := ErrRead | ErrWrite.

Section Store.
Context {B : Type}.
Implicit Types (st : gmap string (Record_ B)).

Definition writeState (fl : fault) st st' : gmap string (Record_ B) * result idem_error unit :=
  if fails fl 1 then (st, Err ErrWrite) else (st', Ok ()).

(** The record, whether it was found, whether it conflicts. *)
Definition ReserveExact (fl : fault) (path_set : bool) (now : time) st
    (key operation digest semanticBody : string)
    : gmap string (Record_ B) * result idem_error (option (Record_ B) * bool * bool) :=
  if negb path_set || (key =? "")%string then (st, Ok (None, false, false)) else
  if fails fl 0 then (st, Err ErrRead) else
  match st !! key with
  | Some rec =>
    if negb (Operation rec =? operation)%string || (RequestDigest rec =? "")%string
       || negb (RequestDigest rec =? digest)%string
    then (st, Ok (Some rec, true, true))
    else (st, Ok (Some rec, true, false))
  | None =>
    let rec := {| CreatedAt := now; Operation := operation; RequestDigest := digest; Status := 0;
                  Body := None; Pending := true; SemanticBody := semanticBody |} in
    match writeState fl st (<[key := rec]> st) with
    | (st, Err e) => (st, Err e)
    | (st, Ok _) => (st, Ok (Some rec, false, false))
    end
  end.

Definition Load (fl : fault) (path_set : bool) st (key : string)
    : result idem_error (option (Record_ B)) :=
  if negb path_set || (key =? "")%string then Ok None else
  if fails fl 0 then Err ErrRead else Ok (st !! key).

Definition Store (fl : fault) (path_set : bool) (now : time) st (key : string) (rec : Record_ B)
    : gmap string (Record_ B) * result idem_error unit :=
  if negb path_set || (key =? "")%string then (st, Ok ()) else
  if fails fl 0 then (st, Err ErrRead) else
  let rec := if CreatedAt rec =? zero_time
             then {| CreatedAt := now; Operation := Operation rec; RequestDigest := RequestDigest rec;
                     Status := Status rec; Body := Body rec; Pending := Pending rec;
                     SemanticBody := SemanticBody rec |}
             else rec in
  writeState fl st (<[key := rec]> st).

(** ** Lemmas *)

Lemma ReserveExact_cases fl now st key operation digest sb st' r :
  key ≠ "" → ReserveExact fl true now st key operation digest sb = (st', Ok r) →
  (∃ rec, st !! key = Some rec ∧ st' = st ∧ r = (Some rec, true, r.2) ∧
     (r.2 = false ↔ Operation rec = operation ∧ RequestDigest rec = digest ∧ digest ≠ "")) ∨
  (st !! key = None ∧ ∃ rec, r = (Some rec, false, false) ∧ Pending rec = true ∧
     Operation rec = operation ∧ RequestDigest rec = digest ∧ st' = <[key := rec]> st).
Proof.
  intros Hk%String.eqb_neq H. unfold ReserveExact in H. rewrite Hk in H. cbn [negb orb] in H.
  destruct (fails fl 0); [done|]. destruct (st !! key) as [rec|] eqn:E.
  - left. exists rec.
    destruct (String.eqb_spec (Operation rec) operation), (String.eqb_spec (RequestDigest rec) ""),
      (String.eqb_spec (RequestDigest rec) digest); cbn in H; simplify_eq; cbn; split_and!; try done;
      naive_solver congruence.
  - right. split; [done|]. unfold writeState in H. destruct (fails fl 1); [done|]. simplify_eq. by eexists.
Qed.

Lemma Store_ok fl now st key rec st' :
  key ≠ "" → Store fl true now st key rec = (st', Ok ()) →
  ∃ rec', st' = <[key := rec']> st ∧ Operation rec' = Operation rec ∧ RequestDigest rec' = RequestDigest rec ∧
    Status rec' = Status rec ∧ Body rec' = Body rec ∧ Pending rec' = Pending rec.
Proof.
  intros Hk%String.eqb_neq H. unfold Store, writeState in H. rewrite Hk in H. cbn [negb orb] in H.
  destruct (fails fl 0); [done|]. destruct (fails fl 1); [done|]. simplify_eq.
  eexists. split; [reflexivity|]. by destruct (CreatedAt rec =? zero_time).
Qed.
End Store.

(** ** internal/metadata *)

Definition set_if (c : bool) (k v : string) (m : gmap string string) : gmap string string :=
  if c then <[k := v]> m else m.

Definition WithBrokerFields (input : gmap string string) (agentID operationID : string) (installationID : Z)
    : gmap string string :=
  set_if (negb (installationID =? 0)) "GitHub-App-Installation-Id" (pretty installationID)
    (set_if (negb (operationID =? "")%string) "Broker-Operation-Id" operationID
      (set_if (negb (agentID =? "")%string) "Agent-Id" agentID input)).

Definition newline : string := str [10%nat].

Definition metadata_lines (values : gmap string string) : list string :=
  map (λ k, k +:+ ": " +:+ default "" (values !! k) +:+ newline)
    (merge_sort text_order (elements (dom values))).

Definition RenderBlock (values : gmap string string) : string :=
  if (size values =? 0)%nat then "" else
  newline +:+ newline +:+ "<!-- gh-agent-broker:metadata" +:+ newline
    +:+ String.concat "" (metadata_lines values) +:+ "-->" +:+ newline.

(** The broker's fields are the broker's, whatever the caller sent. *)
Lemma WithBrokerFields_own input agentID operationID inst :
  let out := WithBrokerFields input agentID operationID inst in
  (agentID ≠ "" → out !! "Agent-Id" = Some agentID) ∧
  (operationID ≠ "" → out !! "Broker-Operation-Id" = Some operationID) ∧
  (inst ≠ 0 → out !! "GitHub-App-Installation-Id" = Some (pretty inst)) ∧
  (∀ k, k ≠ "Agent-Id" → k ≠ "Broker-Operation-Id" → k ≠ "GitHub-App-Installation-Id" → out !! k = input !! k).
Proof.
  cbv zeta. unfold WithBrokerFields.
  assert (∀ c k v m, set_if c k v m !! k = if c then Some v else m !! k) as He.
  { intros [] k v m; [apply lookup_insert_eq|done]. }
  assert (∀ c k v m k', k' ≠ k → set_if c k v m !! k' = m !! k') as Hn.
  { intros [] k v m k' Hk; [by apply lookup_insert_ne|done]. }
  split_and!.
  - intros ?%String.eqb_neq. rewrite !Hn by done. by rewrite He, H.
  - intros ?%String.eqb_neq. rewrite Hn by done. by rewrite He, H.
  - intros ?%Z.eqb_neq. by rewrite He, H.
  - intros k ???. by rewrite !Hn.
Qed.

Example block_ex :
  RenderBlock (WithBrokerFields {["Run-Id" := "r1"]} "a1" "op_1" 7) =
  join newline [""; ""; "<!-- gh-agent-broker:metadata"; "Agent-Id: a1"; "Broker-Operation-Id: op_1";
    "GitHub-App-Installation-Id: 7"; "Run-Id: r1"; "-->"; ""].
Proof. vm_compute. reflexivity. Qed.
