(* ===== verification/PullCreate.v ===== *)
(** * Correlated pull request creation: pullCreateWithCorrelation of internal/server

    A run's capability is verified, the request is bound to its idempotency key
    by a durable reservation, the pull request is created (or found again after
    an interrupted attempt), the correlation is recorded together with its
    outbox event, and the response is stored for replay.  The state is the
    idempotency file and the correlation store; GitHub's and the capability API's
    answers, SHA-256, the clock and the faults of the two stores are arguments.
    pullCreateMu makes an attempt one step; an attempt that a crash interrupts
    leaves the state of one in which the next durable write fails. *)

From stdpp Require Import pretty.
From S2P Require Import Prelude GoStrings GoTime GoJson Net GitHubApi Idempotency Correlation.
Open Scope string_scope.
Open Scope list_scope.
Open Scope Z_scope.

(** ** Data *)

(** The fields of a PullSummary that are read. *)
Record OpenPull := {
  op_Number : Z; op_Title : string; op_Body : string; op_HeadRef : string; op_BaseRef : string;
  op_URL : string; op_HTMLURL : string }.

Record verifiedCapability := {
  v_AgentType : string; v_Mode : string; v_RunID : string; v_WorkItemID : string }.

Definition complete (v : verifiedCapability) : bool :=
  negb (v_AgentType v =? "")%string && negb (v_Mode v =? "")%string
  && negb (v_RunID v =? "")%string && negb (v_WorkItemID v =? "")%string.

Inductive cap_error := CapMissing | CapDenied | CapUnavailable.

(** The capability API's answer: [None] is a transport error; a body is [None]
    when reading it fails, and decodes or does not. *)
Definition verify (resp : option (Z * option (option verifiedCapability)))
    : result cap_error verifiedCapability :=
  match resp with
  | None | Some (_, None) => Err CapUnavailable
  | Some (st, Some decoded) =>
    if (200 <=? st) && (st <? 300) then
      match decoded with
      | None => Err CapDenied
      | Some v => if negb (complete v) then Err CapDenied else Ok v
      end
    else if 500 <=? st then Err CapUnavailable
    else Err CapDenied
  end.

Definition capStatus (e : cap_error) : Z * string :=
  match e with
  | CapMissing => (401, "capability_required")
  | CapUnavailable => (503, "capability_unavailable")
  | CapDenied => (403, "capability_denied")
  end.

Definition check_field (md : gmap string string) (key verified : string) : string :=
  match md !! key with
  | Some v => if negb (trim_space v =? "")%string && negb (trim_space v =? verified)%string then key else ""
  | None => ""
  end.

Definition spoofedIdentityField (md : gmap string string) (claims : verifiedCapability) : string :=
  default "" (List.find (λ m, negb (m =? "")%string)
    [check_field md "run_id" (v_RunID claims); check_field md "agent_type" (v_AgentType claims);
     check_field md "work_item_id" (v_WorkItemID claims); check_field md "mode" (v_Mode claims)]).

(** ** Finding the pull request of an interrupted attempt *)

Definition trim_heads (ref : string) : string := trim_prefix "refs/heads/" ref.

Definition exact_match (branch base title marker : string) (p : OpenPull) : bool :=
  negb (negb (trim_heads (op_HeadRef p) =? branch)%string || negb (trim_heads (op_BaseRef p) =? base)%string
        || negb (op_Title p =? title)%string || negb (GoStrings.contains (op_Body p) marker)).

(** The loop: [best] so far. *)
Fixpoint best_match (branch base title marker : string) (best : option OpenPull) (pulls : list OpenPull)
    : option OpenPull :=
  match pulls with
  | [] => best
  | p :: pulls =>
    if exact_match branch base title marker p then
      match best with
      | Some b => best_match branch base title marker (if op_Number p <? op_Number b then Some p else best) pulls
      | None => best_match branch base title marker (Some p) pulls
      end
    else best_match branch base title marker best pulls
  end.

Definition marker_of (operationID : string) : string := "operation_id: " +:+ operationID.

Definition result_of (p : OpenPull) : GitHubResult :=
  {| Number := op_Number p; URL := op_URL p; HTMLURL := op_HTMLURL p; ID := 0; g_CreatedAt := "" |}.

(** [ListPulls] gives the open pull requests of a head and a base; [None] is an error. *)
Definition openPullForOperation (ListPulls : string → string → option (list OpenPull))
    (repo head base title operationID : string) : result unit (option GitHubResult) :=
  let branch := trim_heads head in
  let base := trim_heads base in
  if (branch =? "")%string || (base =? "")%string || (title =? "")%string || (operationID =? "")%string
  then Ok None else
  match cut "/" repo with
  | None => Ok None
  | Some (owner, _) =>
    if (owner =? "")%string then Ok None else
    match ListPulls (owner +:+ ":" +:+ branch) base with
    | None => Err ()
    | Some pulls => Ok (result_of <$> best_match branch base title (marker_of operationID) None pulls)
    end
  end.

(** ** The operation *)

Record pull_ctx := {
  c_AgentID : string; c_Request : PullCreateRequest; c_Repo_ : string; c_Inst : Z }.

(** What happens around an attempt. *)
Record attempt_env := {
  ev_verify : string → option (Z * option (option verifiedCapability));
  ev_get_pull : Z → option GitHubResult;
  ev_list : nat → string → string → option (list OpenPull);
  ev_create : string → option GitHubResult;
  ev_now : time;
  ev_reserve : fault; ev_lookup : fault; ev_record : fault; ev_store : fault }.

Record state := { idem : gmap string (Idempotency.Record_ reply_body); corr : Correlation.store }.

Inductive pc_reply := PcError (code : string) | PcPull (g : GitHubResult) | PcStored (body : option reply_body) | PcEmpty.
Record pc_response := { pc_status : Z; pc_reply_ : pc_reply }.
Definition pc (st : Z) (r : pc_reply) : pc_response := {| pc_status := st; pc_reply_ := r |}.

Definition zero_byte : string := str [0%nat].

Section Create.
Variable sha256_hex : string → string.

Definition idempotencyKeyDigest (key : string) : string := sha256_hex key.

Definition pullCreateOperationID (agentID repo head base keyDigest : string) : string :=
  "op_" +:+ sha256_hex (join zero_byte ["pull.create"; agentID; repo; head; base; keyDigest]).

Definition FormatBool (b : bool) : string := if b then "true" else "false".

Definition pullCreateRequestDigest (repo : string) (req : PullCreateRequest) : string :=
  sha256_hex (join zero_byte [repo; Title req; Head req; Base req; ReqBody req; FormatBool (Draft req)]).

(** The bodies passed to CreatePull, and the pull request with whether it was found. *)
Definition reconcileOrCreatePull (e : attempt_env) (s : state) (c : pull_ctx) (body operationID : string)
    (pendingReplay : bool) : list string * result unit (GitHubResult * bool) :=
  let req := c_Request c in
  let open_ k := openPullForOperation (ev_list e k) (c_Repo_ c) (Head req) (Base req) (Title req) operationID in
  match GetByOperation (ev_lookup e) (corr s) operationID with
  | Ok existing =>
    match ev_get_pull e (c_PRNumber existing) with
    | None => ([], Err ())
    | Some pull => ([], Ok (pull, true))
    end
  | Err ErrNotFound =>
    let create :=
      match ev_create e body with
      | Some g => ([body], Ok (g, false))
      | None => match open_ 1%nat with
                | Ok (Some pr) => ([body], Ok (pr, true))
                | _ => ([body], Err ())
                end
      end in
    if pendingReplay then
      match open_ 0%nat with
      | Err e => ([], Err e)
      | Ok (Some pr) => ([], Ok (pr, true))
      | Ok None => create
      end
    else create
  | Err _ => ([], Err ())
  end.

Definition identity_of (claims : verifiedCapability) (operationID : string) : Identity :=
  {| AgentType := v_AgentType claims; Mode := v_Mode claims; RunID := v_RunID claims;
     WorkItemID := v_WorkItemID claims; OperationID := operationID |}.

Definition operation_of (c : pull_ctx) (key : string) : string :=
  pullCreateOperationID (c_AgentID c) (c_Repo_ c) (Head (c_Request c)) (Base (c_Request c))
    (idempotencyKeyDigest key).

Definition scoped_key (c : pull_ctx) (key : string) : string :=
  "pull.create:" +:+ c_AgentID c +:+ ":" +:+ c_Repo_ c +:+ ":" +:+ idempotencyKeyDigest key.

Definition body_of (c : pull_ctx) (operationID : string) : string :=
  ReqBody (c_Request c) +:+
    RenderBlock (WithBrokerFields (Metadata (c_Request c)) (c_AgentID c) operationID (c_Inst c)).

(** The last part: record, then store the response and answer.  When the store
    fails nothing is written to the response, which is then 200 and empty. *)
Definition record_and_answer (e : attempt_env) (path_set : bool) (s : state) (c : pull_ctx)
    (claims : verifiedCapability) (operationID scopedKey digest : string) (g : GitHubResult)
    : state * pc_response :=
  match Correlation.Record_ (ev_record e) (corr s) (identity_of claims operationID) (c_Repo_ c) (Number g) (ev_now e) with
  | (corr', Err _) => ({| idem := idem s; corr := corr' |}, pc 500 (PcError "correlation_error"))
  | (corr', Ok _) =>
    let rec := {| CreatedAt := zero_time; Operation := "pull.create"; RequestDigest := digest; Status := 201;
                  Body := Some (RResult g); Pending := false; SemanticBody := "" |} in
    match Store (ev_store e) path_set (ev_now e) (idem s) scopedKey rec with
    | (idem', Err _) => ({| idem := idem'; corr := corr' |}, pc 200 PcEmpty)
    | (idem', Ok _) => ({| idem := idem'; corr := corr' |}, pc 201 (PcPull g))
    end
  end.

(** [capability] and [idempotency_key] are the two headers. *)
Definition pullCreateWithCorrelation (e : attempt_env) (path_set : bool) (s : state) (c : pull_ctx)
    (capability idempotency_key : string) : state * list string * pc_response :=
  let handle := trim_space capability in
  if (handle =? "")%string then (s, [], pc 401 (PcError "capability_required")) else
  match verify (ev_verify e handle) with
  | Err err => let '(st, code) := capStatus err in (s, [], pc st (PcError code))
  | Ok claims =>
    if negb (spoofedIdentityField (Metadata (c_Request c)) claims =? "")%string
    then (s, [], pc 403 (PcError "identity_mismatch")) else
    let key := trim_space idempotency_key in
    if (key =? "")%string then (s, [], pc 400 (PcError "idempotency_key_required")) else
    let stableOpID := operation_of c key in
    let body := body_of c stableOpID in
    let requestDigest := pullCreateRequestDigest (c_Repo_ c) (c_Request c) in
    let scopedKey := scoped_key c key in
    match ReserveExact (ev_reserve e) path_set (ev_now e) (idem s) scopedKey "pull.create" requestDigest "" with
    | (idem', Err _) => ({| idem := idem'; corr := corr s |}, [], pc 500 (PcError "idempotency_error"))
    | (idem', Ok (rec, found, conflict)) =>
      let s := {| idem := idem'; corr := corr s |} in
      if conflict then (s, [], pc 409 (PcError "idempotency_key_conflict")) else
      let pending := match rec with Some rec => Pending rec | None => false end in
      if found && negb pending
      then (s, [], pc (match rec with Some rec => Status rec | None => 0 end)
                      (PcStored (rec ≫= Body))) else
      match reconcileOrCreatePull e s c body stableOpID (found && pending) with
      | (created, Err _) => (s, created, pc 502 (PcError "github_error"))
      | (created, Ok (g, _)) =>
        let '(s, r) := record_and_answer e path_set s c claims stableOpID scopedKey requestDigest g in
        (s, created, r)
      end
    end
  end.
End Create.

(** ** Lemmas *)

(** The first of two lists of correlations begins the second. *)
Definition corr_grows (s s' : Correlation.store) : Prop := ∃ cs, corrs s' = corrs s ++ cs.

Lemma corr_grows_refl s : corr_grows s s.
Proof. exists []. by rewrite app_nil_r. Qed.

Lemma corr_grows_trans a b c : corr_grows a b → corr_grows b c → corr_grows a c.
Proof. intros [l E] [l' E']. exists (l ++ l'). by rewrite E', E, (assoc_L (++)). Qed.

Lemma corr_grows_same s s' : corrs s' = corrs s → corr_grows s s'.
Proof. intros E. exists []. by rewrite app_nil_r. Qed.

Lemma corr_grows_find s s' op c :
  corr_grows s s' → find_operation s op = Some c → find_operation s' op = Some c.
Proof. intros [l E] H. unfold find_operation in *. rewrite E. by apply find_app_l. Qed.

Lemma Record_grows fl s id repo pr now : corr_grows s (Correlation.Record_ fl s id repo pr now).1.
Proof.
  destruct (Correlation.Record_ fl s id repo pr now) as [s' [c|e]] eqn:E; cbn.
  - apply Record_ok in E as (_ & _ & _ & [[_ ->]|(_ & _ & p & _ & ->)]); [apply corr_grows_refl|by eexists].
  - apply atomically_err in E as [-> _]. apply corr_grows_refl.
Qed.

Lemma claim_each_corrs fl k s token now ids s' evs :
  claim_each fl k s token now ids = Ok (s', evs) → corrs s' = corrs s.
Proof.
  revert k s evs. induction ids as [|id ids IH]; intros k s evs H; cbn [claim_each] in H; peel H; [by simplify_eq|].
  apply bind_ok in H as (ev & _ & H). apply bind_ok in H as ([s1 l] & H1 & H). simplify_eq. by apply IH in H1.
Qed.

Lemma run_call_grows s c : corr_grows s (Correlation.run_call s c).
Proof.
  destruct c as [fl id repo pr now|fl token limit ttl now|fl id token now|fl id token now];
    cbn [Correlation.run_call]; [apply Record_grows|apply corr_grows_same..];
    apply (atomically_inv (λ s', corrs s' = corrs s)); try done; intros s' a H; peel H.
  - by apply claim_each_corrs in H.
  - apply bind_ok in H as (ev & _ & H). peel H. by simplify_eq.
  - apply bind_ok in H as (ev & _ & H). peel H. by simplify_eq.
Qed.

Lemma lookup_recorded fl s op c :
  find_operation s op = Some c → GetByOperation fl s op = Ok c ∨ ∃ e, GetByOperation fl s op = Err e ∧ e ≠ ErrNotFound.
Proof.
  intros Hf. unfold GetByOperation, correlationByOperation. destruct (fails fl 0); [right; by eexists|].
  unfold find_operation in Hf. rewrite Hf, scanCorrelation_cases. case_decide; [by left|right; by eexists].
Qed.

Lemma lookup_ok fl s op c : GetByOperation fl s op = Ok c → find_operation s op = Some c.
Proof.
  unfold GetByOperation, correlationByOperation. destruct (fails fl 0); [done|]. rewrite scanCorrelation_cases.
  fold (find_operation s op). destruct (find_operation s op); [|done]. case_decide; [|done]. by intros [= ->].
Qed.

(** *** The search for an existing pull request *)

Lemma best_match_spec branch base title marker best pulls :
  match best_match branch base title marker best pulls with
  | None => best = None ∧ ∀ p, p ∈ pulls → exact_match branch base title marker p = false
  | Some p => (best = Some p ∨ (p ∈ pulls ∧ exact_match branch base title marker p = true)) ∧
      (∀ q, q ∈ pulls → exact_match branch base title marker q = true → op_Number p ≤ op_Number q) ∧
      (∀ b, best = Some b → op_Number p ≤ op_Number b)
  end.
Proof.
  revert best. induction pulls as [|q pulls IH]; intros best; cbn [best_match].
  { destruct best as [b|]; [|split; [done|by intros p ?%elem_of_nil]].
    split_and!; [by left|by intros p ?%elem_of_nil|by intros ? [= <-]]. }
  destruct (exact_match branch base title marker q) eqn:E.
  - assert (∀ best', (∀ b, best' = Some b → b = q ∨ best = Some b) → best' ≠ None →
      (∀ b, best' = Some b → op_Number b ≤ op_Number q ∧ ∀ b', best = Some b' → op_Number b ≤ op_Number b') →
      match best_match branch base title marker best' pulls with
      | None => best = None ∧ ∀ p, p ∈ q :: pulls → exact_match branch base title marker p = false
      | Some p => (best = Some p ∨ (p ∈ q :: pulls ∧ exact_match branch base title marker p = true)) ∧
          (∀ r, r ∈ q :: pulls → exact_match branch base title marker r = true → op_Number p ≤ op_Number r) ∧
          (∀ b, best = Some b → op_Number p ≤ op_Number b)
      end) as Hgo.
    { intros best' Hfrom Hne Hle. specialize (IH best').
      destruct (best_match branch base title marker best' pulls) as [p|]; [|by destruct IH].
      destruct IH as (Hp & Hmin & Hb). destruct best' as [b'|]; [|done]. specialize (Hb b' eq_refl).
      destruct (Hle b' eq_refl) as [Hq Hold]. split_and!.
      - destruct Hp as [[= <-]|[? ?]]; [|right; split; [by right|done]].
        destruct (Hfrom b' eq_refl) as [->|?]; [right; split; [left|done]|by left].
      - intros r [->|Hr]%elem_of_cons Hex; [lia|by apply Hmin].
      - intros b Eb. specialize (Hold b Eb). lia. }
    destruct best as [b|].
    + apply Hgo; [| |]; destruct (Z.ltb_spec (op_Number q) (op_Number b)); intros; simplify_eq; auto; split; try lia;
        intros; simplify_eq; lia.
    + apply Hgo; [naive_solver|done|]. intros b' [= <-]. split; [lia|done].
  - specialize (IH best). destruct (best_match branch base title marker best pulls) as [p|].
    + destruct IH as (Hp & Hmin & Hb). split_and!; [|intros r [->|Hr]%elem_of_cons Hex; [congruence|by apply Hmin]|done].
      destruct Hp as [?|[? ?]]; [by left|right; split; [by right|done]].
    + destruct IH as [? Hn]. split; [done|]. intros r [->|Hr]%elem_of_cons; [done|by apply Hn].
Qed.

Lemma exact_match_spec branch base title marker p :
  exact_match branch base title marker p = true ↔
  trim_heads (op_HeadRef p) = branch ∧ trim_heads (op_BaseRef p) = base ∧ op_Title p = title ∧
  GoStrings.contains (op_Body p) marker = true.
Proof.
  unfold exact_match. rewrite negb_true_iff, !orb_false_iff, !negb_false_iff, !String.eqb_eq. tauto.
Qed.

(** Adopting a pull request is exact. *)
Definition adopted (repo head base title operationID : string)
    (ListPulls : string → string → option (list OpenPull)) (g : GitHubResult) : Prop :=
  ∃ owner rest pulls p, cut "/" repo = Some (owner, rest) ∧
    ListPulls (owner +:+ ":" +:+ trim_heads head) (trim_heads base) = Some pulls ∧ p ∈ pulls ∧ g = result_of p ∧
    trim_heads (op_HeadRef p) = trim_heads head ∧ trim_heads (op_BaseRef p) = trim_heads base ∧
    op_Title p = title ∧ GoStrings.contains (op_Body p) (marker_of operationID) = true ∧
    ∀ q, q ∈ pulls → exact_match (trim_heads head) (trim_heads base) title (marker_of operationID) q = true →
      Number g ≤ op_Number q.

Lemma openPull_adopted ListPulls repo head base title op g :
  openPullForOperation ListPulls repo head base title op = Ok (Some g) →
  adopted repo head base title op ListPulls g.
Proof.
  unfold openPullForOperation, adopted. cbv zeta. destruct (_ || _); [done|].
  destruct (cut "/" repo) as [[owner rest]|]; [|done]. destruct (owner =? "")%string; [done|].
  destruct (ListPulls _ _) as [pulls|] eqn:El; [|done].
  pose proof (best_match_spec (trim_heads head) (trim_heads base) title (marker_of op) None pulls) as Hb.
  destruct (best_match _ _ _ _ _ _) as [p|]; [|done]. intros [= <-].
  destruct Hb as ([?|[Hin Hex]] & Hmin & _); [done|]. apply exact_match_spec in Hex as (?&?&?&?).
  exists owner, rest, pulls, p. by split_and!.
Qed.

Section Attempts.
Variable sha256_hex : string → string.
Implicit Types (e : attempt_env) (s : state) (c : pull_ctx).
Notation attempt := (pullCreateWithCorrelation sha256_hex).
Notation operation := (operation_of sha256_hex).

(** Where the pull request of an answer comes from. *)
Definition provenance e s c (body op : string) (created : list string) (g : GitHubResult) : Prop :=
  (∃ row, find_operation (corr s) op = Some row ∧ ev_get_pull e (c_PRNumber row) = Some g ∧ created = []) ∨
  (find_operation (corr s) op = None ∧
   ((ev_create e body = Some g ∧ created = [body]) ∨
    ∃ k, adopted (c_Repo_ c) (Head (c_Request c)) (Base (c_Request c)) (Title (c_Request c)) op (ev_list e k) g)).

Lemma reconcile_spec e s c body op pend created r :
  reconcileOrCreatePull e s c body op pend = (created, r) →
  (created = [] ∨ (created = [body] ∧ find_operation (corr s) op = None)) ∧
  ∀ g found, r = Ok (g, found) → provenance e s c body op created g.
Proof using Type.
  unfold reconcileOrCreatePull, provenance. cbv zeta.
  destruct (GetByOperation (ev_lookup e) (corr s) op) as [row|err] eqn:El.
  { apply lookup_ok in El. destruct (ev_get_pull e (c_PRNumber row)) as [pull|] eqn:Eg; intros [= <- <-].
    - split; [by left|]. intros g found [= <- <-]. left. by exists row.
    - split; [by left|done]. }
  assert (err = ErrNotFound → find_operation (corr s) op = None) as Hnone.
  { intros ->. destruct (find_operation (corr s) op) as [row|] eqn:Ef; [|done].
    destruct (lookup_recorded (ev_lookup e) _ _ _ Ef) as [H|(e' & H & Hne)]; congruence. }
  destruct err; try (intros [= <- <-]; split; [by left|done]). specialize (Hnone eq_refl).
  set (create := match ev_create e body with Some _ => _ | None => _ end).
  assert (∀ cr rr, create = (cr, rr) → (cr = [] ∨ (cr = [body] ∧ find_operation (corr s) op = None)) ∧
    ∀ g found, rr = Ok (g, found) → provenance e s c body op cr g) as Hcreate.
  { intros cr rr. unfold create. destruct (ev_create e body) as [g|] eqn:Ec; [|destruct (openPullForOperation _ _ _ _ _ _) as [[pr|]|] eqn:Eo];
      intros [= <- <-]; (split; [by right|]); try done; intros ? ? [= <- <-]; right; (split; [done|]).
    - by left.
    - right. exists 1%nat. by apply openPull_adopted. }
  destruct pend; [|apply Hcreate].
  destruct (openPullForOperation (ev_list e 0) _ _ _ _ _) as [[pr|]|] eqn:Eo; [|apply Hcreate|].
  - intros [= <- <-]. split; [by left|]. intros g found [= <- <-]. right. split; [done|].
    right. exists 0%nat. by apply openPull_adopted.
  - intros [= <- <-]. split; [by left|done].
Qed.

(** The checks before the reservation. *)
Definition admitted_claims e c (capability : string) (claims : verifiedCapability) : Prop :=
  trim_space capability ≠ "" ∧ verify (ev_verify e (trim_space capability)) = Ok claims ∧
  spoofedIdentityField (Metadata (c_Request c)) claims = "".

(** Every outcome of an attempt. *)
Lemma attempt_cases e path_set s c capability key s' created resp :
  attempt e path_set s c capability key = (s', created, resp) →
  let k := trim_space key in let op := operation c k in
  (s' = s ∧ created = [] ∧ (∀ g o, pc_reply_ resp ≠ PcPull g ∧ pc_reply_ resp ≠ PcStored o)) ∨
  ∃ claims, admitted_claims e c capability claims ∧ k ≠ "" ∧
  ∃ idem1 rec found conflict,
    ReserveExact (ev_reserve e) path_set (ev_now e) (idem s) (scoped_key sha256_hex c k) "pull.create"
      (pullCreateRequestDigest sha256_hex (c_Repo_ c) (c_Request c)) "" = (idem1, Ok (rec, found, conflict)) ∧
    let s1 := {| idem := idem1; corr := corr s |} in
    ((conflict = true ∧ s' = s1 ∧ created = [] ∧ resp = pc 409 (PcError "idempotency_key_conflict")) ∨
     (conflict = false ∧ ∃ rec', found = true ∧ rec = Some rec' ∧ Pending rec' = false ∧ s' = s1 ∧ created = [] ∧
        resp = pc (Status rec') (PcStored (Body rec'))) ∨
     (conflict = false ∧ (found = true → ∀ rec', rec = Some rec' → Pending rec' = true) ∧
      ∃ r, reconcileOrCreatePull e s1 c (body_of c op) op (found && match rec with Some rec => Pending rec | None => false end)
             = (created, r) ∧
        match r with
        | Err _ => s' = s1 ∧ resp = pc 502 (PcError "github_error")
        | Ok (g, _) => record_and_answer e path_set s1 c claims op (scoped_key sha256_hex c k)
              (pullCreateRequestDigest sha256_hex (c_Repo_ c) (c_Request c)) g = (s', resp)
        end)).
Proof.
  unfold pullCreateWithCorrelation. cbv zeta. intros H.
  destruct (String.eqb_spec (trim_space capability) "") as [|Hc]; [left; simplify_eq; done|].
  destruct (verify _) as [claims|err] eqn:Ev.
  2: { left. destruct (capStatus err). simplify_eq. done. }
  destruct (String.eqb_spec (spoofedIdentityField (Metadata (c_Request c)) claims) "") as [Hs|Hs]; cbn [negb] in H;
    [|left; simplify_eq; done].
  destruct (String.eqb_spec (trim_space key) "") as [Hk|Hk]; [left; simplify_eq; done|].
  destruct (ReserveExact _ _ _ _ _ _ _ _) as [idem1 [[[rec found] conflict]|err]] eqn:Er.
  2: { left. assert (idem1 = idem s) as ->.
       { clear H. unfold ReserveExact, writeState in Er. by repeat case_match; simplify_eq. }
       destruct s; simplify_eq. done. }
  right. exists claims. split; [done|]. split; [done|]. exists idem1, rec, found, conflict. split; [done|].
  destruct conflict; [left; by simplify_eq|]. right.
  destruct (found && negb match rec with Some rec => Pending rec | None => false end) eqn:Ef.
  - left. apply andb_true_iff in Ef as [-> Ef]. split; [done|].
    destruct rec as [rec|]; [|exfalso; unfold ReserveExact, writeState in Er; by repeat case_match; simplify_eq].
    exists rec. simplify_eq. split_and!; try done. by destruct (Pending rec).
  - right. split; [done|]. split.
    { intros -> rec' ->. cbn in Ef. by destruct (Pending rec'). }
    destruct (reconcileOrCreatePull _ _ _ _ _ _) as [cr [[g b]|err]] eqn:Erec.
    + destruct (record_and_answer _ _ _ _ _ _ _ _ _) as [s2 r2] eqn:Ea. simplify_eq. by eexists.
    + simplify_eq. by eexists.
Qed.

Lemma record_and_answer_spec e path_set s c claims op k digest g s' resp :
  record_and_answer e path_set s c claims op k digest g = (s', resp) →
  corr_grows (corr s) (corr s') ∧
  (∀ k', k' ≠ k ∨ path_set = false → idem s' !! k' = idem s !! k') ∧
  (∀ g', pc_reply_ resp = PcPull g' →
     g' = g ∧ resp = pc 201 (PcPull g) ∧
     (∃ row, find_operation (corr s') op = Some row ∧
        (find_operation (corr s) op = Some row ∨
         (find_operation (corr s) op = None ∧ c_AgentType row = v_AgentType claims ∧ c_Mode row = v_Mode claims ∧
          c_RunID row = v_RunID claims ∧ c_WorkItemID row = v_WorkItemID claims ∧ c_Repo row = c_Repo_ c ∧
          c_PRNumber row = Number g))) ∧
     (path_set = true → k ≠ "" → ∃ rec, idem s' !! k = Some rec ∧ Pending rec = false ∧ Operation rec = "pull.create" ∧
        RequestDigest rec = digest ∧ Status rec = 201 ∧ Body rec = Some (RResult g))) ∧
  (∀ g', pc_reply_ resp ≠ PcStored g').
Proof using Type.
  unfold record_and_answer. intros H.
  pose proof (Record_grows (ev_record e) (corr s) (identity_of claims op) (c_Repo_ c) (Number g) (ev_now e)) as Hg.
  destruct (Correlation.Record_ _ _ _ _ _ _) as [corr' [row|err]] eqn:Er; cbn [fst] in Hg.
  2: { simplify_eq. by split_and!. }
  assert (find_operation corr' op = Some row ∧ (find_operation (corr s) op = Some row ∨
    (find_operation (corr s) op = None ∧ c_AgentType row = v_AgentType claims ∧ c_Mode row = v_Mode claims ∧
     c_RunID row = v_RunID claims ∧ c_WorkItemID row = v_WorkItemID claims ∧ c_Repo row = c_Repo_ c ∧
     c_PRNumber row = Number g))) as [Hrow Horig].
  { apply Record_ok in Er as (_ & _ & _ & [[Hf ->]|(Hf & -> & p & _ & ->)]); cbn [OperationID identity_of] in Hf;
      [split; [done|by left]|]. split; [|right; by split_and!].
    unfold find_operation in *. cbn [corrs recorded]. revert Hf. induction (corrs (corr s)) as [|x l IH]; cbn.
    - by rewrite String.eqb_refl.
    - destruct (c_OperationID x =? op)%string; [done|exact IH]. }
  set (rec := {| CreatedAt := zero_time |}) in H.
  assert (∀ k', k' ≠ k ∨ path_set = false → ∀ m u, Store (ev_store e) path_set (ev_now e) (idem s) k rec = (m, u) → m !! k' = idem s !! k') as Hother.
  { intros k' Hk' m u Hs. unfold Store, writeState in Hs. destruct path_set; cbn [negb orb] in Hs; [|by simplify_eq].
    destruct Hk' as [Hk'|]; [|done]. destruct (k =? "")%string; [by simplify_eq|].
    destruct (fails (ev_store e) 0); [by simplify_eq|]. destruct (fails (ev_store e) 1); [by simplify_eq|].
    simplify_eq. by rewrite lookup_insert_ne. }
  destruct (Store _ _ _ _ _ _) as [idem' [[]|err]] eqn:Es; simplify_eq; cbn [corr idem pc_reply_ pc].
  - split_and!; [done|by intros; eapply Hother| |done]. intros g' [= <-]. split_and!; [done..|by exists row|].
    intros -> Hk. apply Store_ok in Es as (rec' & -> & E1 & E2 & E3 & E4 & E5); [|done].
    exists rec'. rewrite lookup_insert_eq. by split_and!.
  - split_and!; [done|by intros; eapply Hother|done|done].
Qed.

Lemma ReserveExact_kept {B} fl path_set now (st : gmap string (Idempotency.Record_ B)) key op digest sb st' r k rec :
  st !! k = Some rec → ReserveExact fl path_set now st key op digest sb = (st', r) → st' !! k = Some rec.
Proof using Type.
  intros Hk H. unfold ReserveExact, writeState in H. destruct (negb path_set || _); [by simplify_eq|].
  destruct (fails fl 0); [by simplify_eq|]. destruct (st !! key) as [rec'|] eqn:E.
  - destruct (_ || _); by simplify_eq.
  - destruct (fails fl 1); [by simplify_eq|]. simplify_eq. rewrite lookup_insert_ne; [done|]. by intros ->; simplify_eq.
Qed.

Lemma attempt_step e path_set s c capability key s' created resp :
  attempt e path_set s c capability key = (s', created, resp) →
  corr_grows (corr s) (corr s') ∧
  (∀ k rec, idem s !! k = Some rec → Pending rec = false → idem s' !! k = Some rec).
Proof.
  intros H. apply attempt_cases in H as [(-> & _)|(claims & _ & Hk & idem1 & rec & found & conflict & Er & H)];
    [split; [apply corr_grows_refl|done]|]. cbv zeta in H.
  destruct H as [(_ & -> & _)|[(_ & rec' & _ & _ & _ & -> & _)|(-> & Hpend & r & _ & H)]].
  1-2: (split; [apply corr_grows_refl|intros k r' Hr _; by eapply ReserveExact_kept]).
  destruct r as [[g b]|[]]; [|destruct H as [-> _]; split; [apply corr_grows_refl|intros k r' Hr _; by eapply ReserveExact_kept]].
  apply record_and_answer_spec in H as (Hg & Hother & _). split; [done|].
  intros k r' Hr Hdone. pose proof (ReserveExact_kept _ _ _ _ _ _ _ _ _ _ _ _ Hr Er) as Hr1.
  destruct path_set; [|rewrite Hother; [done|by right]].
  destruct (decide (k = scoped_key sha256_hex c (trim_space key))) as [->|Hne]; [|rewrite Hother; [done|by left]].
  apply ReserveExact_cases in Er as [(rec0 & Hf & _ & [= -> ->] & _)|[Hn _]]; [|congruence|done].
  simplify_eq. specialize (Hpend eq_refl _ eq_refl). congruence.
Qed.
End Attempts.

(** ** Histories *)

Inductive pc_call :=
| Attempt (e : attempt_env) (path_set : bool) (c : pull_ctx) (capability key : string)
| Consumer (k : Correlation.call).

Definition pc_step (sha : string → string) (s : state) (k : pc_call) : state :=
  match k with
  | Attempt e path_set c capability key => (pullCreateWithCorrelation sha e path_set s c capability key).1.1
  | Consumer k => {| idem := idem s; corr := Correlation.run_call (corr s) k |}
  end.

Definition pc_run (sha : string → string) (s : state) (ks : list pc_call) : state := foldl (pc_step sha) s ks.

Lemma pc_run_kept sha s ks :
  corr_grows (corr s) (corr (pc_run sha s ks)) ∧
  (∀ k rec, idem s !! k = Some rec → Pending rec = false → idem (pc_run sha s ks) !! k = Some rec).
Proof.
  revert s. induction ks as [|k ks IH]; intros s; [split; [apply corr_grows_refl|done]|].
  cbn [pc_run foldl]. destruct (IH (pc_step sha s k)) as [Hg Hi].
  assert (corr_grows (corr s) (corr (pc_step sha s k)) ∧
    (∀ j rec, idem s !! j = Some rec → Pending rec = false → idem (pc_step sha s k) !! j = Some rec)) as [Hg1 Hi1].
  { destruct k as [e path_set c capability key|k]; cbn [pc_step].
    - destruct (pullCreateWithCorrelation _ _ _ _ _ _ _) as [[s1 cr] r] eqn:E. by eapply attempt_step.
    - split; [apply run_call_grows|done]. }
  split; [by eapply corr_grows_trans|]. intros j rec Hj Hd. by apply Hi, Hd; apply Hi1.
Qed.

(** The caller's identity metadata that a capability confirms or leaves blank. *)
Definition agrees (md : gmap string string) (key verified : string) : Prop :=
  ∀ v, md !! key = Some v → trim_space v = "" ∨ trim_space v = verified.

Lemma check_field_agrees md key verified : key ≠ "" → check_field md key verified = "" → agrees md key verified.
Proof.
  intros Hk. unfold check_field, agrees. intros H v Hv. rewrite Hv in H.
  destruct (String.eqb_spec (trim_space v) ""); [by left|].
  destruct (String.eqb_spec (trim_space v) verified); [by right|]. done.
Qed.

Lemma not_spoofed md claims :
  spoofedIdentityField md claims = "" →
  agrees md "run_id" (v_RunID claims) ∧ agrees md "agent_type" (v_AgentType claims) ∧
  agrees md "work_item_id" (v_WorkItemID claims) ∧ agrees md "mode" (v_Mode claims).
Proof.
  unfold spoofedIdentityField. intros H.
  assert (∀ m, m ∈ [check_field md "run_id" (v_RunID claims); check_field md "agent_type" (v_AgentType claims);
    check_field md "work_item_id" (v_WorkItemID claims); check_field md "mode" (v_Mode claims)] → m = "") as Hall.
  { intros m Hm. destruct (List.find _ _) as [m'|] eqn:E; cbn in H.
    - subst m'. apply find_some_in in E as [_ E]. done.
    - pose proof (find_none_all _ _ _ E Hm) as Hn. cbv beta in Hn. by bool_hyps. }
  split_and!; apply check_field_agrees; try done; apply Hall; rewrite !elem_of_cons; tauto.
Qed.

Lemma verify_complete resp claims :
  verify resp = Ok claims → v_AgentType claims ≠ "" ∧ v_Mode claims ≠ "" ∧ v_RunID claims ≠ "" ∧ v_WorkItemID claims ≠ "".
Proof.
  unfold verify. intros H. destruct resp as [[st [[v|]|]]|]; repeat case_match; simplify_eq.
  unfold complete in *. by bool_hyps.
Qed.

(** ** Properties *)

(** A created pull request is correlated before it is reported.  When an
    attempt answers with a pull request, the capability was verified and its four
    claims are present, the caller's metadata contradicts none of them, at most one
    pull request was created, with the body that carries the operation's id; the
    pull request is the recorded one of this operation, or the one just created, or
    one adopted by exact head, base, title and marker; and the store holds the
    operation's correlation, which if new names the verified claims, the repository
    and that pull request. *)
Theorem pull_recorded sha e path_set s c capability key s' created resp g :
  pullCreateWithCorrelation sha e path_set s c capability key = (s', created, resp) → pc_reply_ resp = PcPull g →
  let op := operation_of sha c (trim_space key) in
  resp = pc 201 (PcPull g) ∧ (created = [] ∨ created = [body_of c op]) ∧
  provenance e s c (body_of c op) op created g ∧
  ∃ claims row, verify (ev_verify e (trim_space capability)) = Ok claims ∧
    (v_AgentType claims ≠ "" ∧ v_Mode claims ≠ "" ∧ v_RunID claims ≠ "" ∧ v_WorkItemID claims ≠ "") ∧
    (let md := Metadata (c_Request c) in
     agrees md "run_id" (v_RunID claims) ∧ agrees md "agent_type" (v_AgentType claims) ∧
     agrees md "work_item_id" (v_WorkItemID claims) ∧ agrees md "mode" (v_Mode claims)) ∧
    find_operation (corr s') op = Some row ∧
    (find_operation (corr s) op = Some row ∨
     (find_operation (corr s) op = None ∧ c_AgentType row = v_AgentType claims ∧ c_Mode row = v_Mode claims ∧
      c_RunID row = v_RunID claims ∧ c_WorkItemID row = v_WorkItemID claims ∧ c_Repo row = c_Repo_ c ∧
      c_PRNumber row = Number g)).
Proof.
  intros H Hg. cbv zeta.
  apply attempt_cases in H as [(_ & _ & Hno)|(claims & (_ & Hv & Hs) & Hk & idem1 & rec & found & conflict & Er & H)];
    [by destruct (Hno g None)|]. cbv zeta in H.
  destruct H as [(_ & _ & _ & ->)|[(_ & rec' & _ & _ & _ & _ & _ & ->)|(_ & _ & r & Hrec & H)]]; [done..|].
  apply reconcile_spec in Hrec as [Hcr Hprov].
  destruct r as [[g0 b]|[]]; [|by destruct H as [_ ->]].
  apply record_and_answer_spec in H as (_ & _ & Hans & _). destruct (Hans g Hg) as (-> & -> & (row & Hrow & Ho) & _).
  split_and!; [done|destruct Hcr as [?|[? _]]; auto|by eapply Hprov|].
  exists claims, row. pose proof (verify_complete _ _ Hv) as (?&?&?&?).
  pose proof (not_spoofed _ _ Hs) as (?&?&?&?). by split_and!.
Qed.

(** C35: once an operation is correlated, no retry creates another pull request.
    After an attempt that answered with a pull request, and any history of other
    attempts and of the outbox consumer, an attempt of the same operation calls
    CreatePull not at all, and a pull request it answers with is the one its
    correlation names. *)
Theorem created_once sha e path_set s c capability key s1 created1 resp1 g :
  pullCreateWithCorrelation sha e path_set s c capability key = (s1, created1, resp1) → pc_reply_ resp1 = PcPull g →
  ∀ ks e2 path2 c2 capability2 key2 s3 created2 resp2,
    operation_of sha c2 (trim_space key2) = operation_of sha c (trim_space key) →
    pullCreateWithCorrelation sha e2 path2 (pc_run sha s1 ks) c2 capability2 key2 = (s3, created2, resp2) →
    created2 = [] ∧
    ∀ g2, pc_reply_ resp2 = PcPull g2 → ∃ row,
      find_operation (corr s1) (operation_of sha c (trim_space key)) = Some row ∧
      ev_get_pull e2 (c_PRNumber row) = Some g2.
Proof.
  intros H Hg ks e2 path2 c2 capability2 key2 s3 created2 resp2 Hop H2.
  assert (∃ row, find_operation (corr s1) (operation_of sha c (trim_space key)) = Some row) as [row Hrow].
  { apply attempt_cases in H as [(_ & _ & Hno)|(claims & _ & _ & idem1 & rec & found & conflict & _ & H)];
      [by destruct (Hno g None)|]. cbv zeta in H.
    destruct H as [(_ & _ & _ & ->)|[(_ & rec' & _ & _ & _ & _ & _ & ->)|(_ & _ & r & _ & H)]]; [done..|].
    destruct r as [[g0 b]|[]]; [|by destruct H as [_ ->]].
    apply record_and_answer_spec in H as (_ & _ & Hans & _). destruct (Hans g Hg) as (_ & _ & (row & ? & _) & _). by exists row. }
  destruct (pc_run_kept sha s1 ks) as [Hgrow _]. pose proof (corr_grows_find _ _ _ _ Hgrow Hrow) as Hrow2.
  rewrite <- Hop in Hrow2 |- *.
  apply attempt_cases in H2 as [(_ & -> & Hno)|(claims & _ & _ & idem1 & rec & found & conflict & _ & H2)].
  { split; [done|]. intros g2 E. by destruct (Hno g2 None). }
  cbv zeta in H2. destruct H2 as [(_ & _ & -> & ->)|[(_ & rec' & _ & _ & _ & _ & -> & ->)|(_ & _ & r & Hrec & H2)]]; [done..|].
  apply reconcile_spec in Hrec as [Hcr Hprov]. cbn [corr] in Hcr.
  split; [destruct Hcr as [?|[_ ?]]; [done|congruence]|]. intros g2 Eg2.
  destruct r as [[g0 b]|[]]; [|by destruct H2 as [_ ->]].
  apply record_and_answer_spec in H2 as (_ & _ & Hans & _). destruct (Hans g2 Eg2) as (-> & _).
  destruct (Hprov _ _ eq_refl) as [(row' & Hf & Hget & _)|[Hf _]]; cbn [corr] in Hf; [|congruence].
  exists row'. split; [congruence|done].
Qed.

(** A completed request is replayed for ever and its key is bound to it.  With
    the idempotency state configured, after an attempt that answered with a pull
    request and any history, an attempt with the same key by the same agent on the
    same repository, whose capability is verified and not contradicted, creates
    nothing and changes nothing: it gets the stored answer if its request has the
    same digest, and a conflict otherwise. *)
Theorem replayed_or_refused sha e s c capability key s1 created1 resp1 g :
  pullCreateWithCorrelation sha e true s c capability key = (s1, created1, resp1) → pc_reply_ resp1 = PcPull g →
  ∀ ks e2 c2 capability2 key2 claims2,
    let s2 := pc_run sha s1 ks in
    scoped_key sha c2 (trim_space key2) = scoped_key sha c (trim_space key) → trim_space key2 ≠ "" →
    admitted_claims e2 c2 capability2 claims2 → ev_reserve e2 = None →
    pullCreateRequestDigest sha (c_Repo_ c2) (c_Request c2) ≠ "" →
    pullCreateWithCorrelation sha e2 true s2 c2 capability2 key2 =
      (s2, [], if decide (pullCreateRequestDigest sha (c_Repo_ c2) (c_Request c2) =
                          pullCreateRequestDigest sha (c_Repo_ c) (c_Request c))
               then pc 201 (PcStored (Some (RResult g))) else pc 409 (PcError "idempotency_key_conflict")).
Proof.
  intros H Hg ks e2 c2 capability2 key2 claims2 s2 Hscope Hk2 (Hc2 & Hv2 & Hs2) Hres Hdig.
  assert (∃ rec, idem s1 !! scoped_key sha c (trim_space key) = Some rec ∧ Pending rec = false ∧
    Operation rec = "pull.create" ∧ RequestDigest rec = pullCreateRequestDigest sha (c_Repo_ c) (c_Request c) ∧
    Status rec = 201 ∧ Body rec = Some (RResult g)) as (rec & Hrec & Hp & Ho & Hd & Hst & Hb).
  { apply attempt_cases in H as [(_ & _ & Hno)|(claims & _ & _ & idem1 & rec & found & conflict & _ & H)];
      [by destruct (Hno g None)|]. cbv zeta in H.
    destruct H as [(_ & _ & _ & ->)|[(_ & rec' & _ & _ & _ & _ & _ & ->)|(_ & _ & r & _ & H)]]; [done..|].
    destruct r as [[g0 b]|[]]; [|by destruct H as [_ ->]].
    apply record_and_answer_spec in H as (_ & _ & Hans & _). destruct (Hans g Hg) as (-> & _ & _ & Hidem).
    apply Hidem; done. }
  destruct (pc_run_kept sha s1 ks) as [_ Hkeep]. specialize (Hkeep _ _ Hrec Hp). fold s2 in Hkeep.
  unfold pullCreateWithCorrelation. cbv zeta. apply String.eqb_neq in Hc2, Hk2. rewrite Hc2, Hv2, Hs2, Hk2. cbn [negb].
  change ("" =? "")%string with true. cbn [negb]. rewrite Hscope. unfold ReserveExact.
  assert ((scoped_key sha c (trim_space key) =? "")%string = false) as -> by done. cbn [negb orb].
  rewrite Hres, fails_none, Hkeep, Ho, Hd. cbn [negb orb]. change ("pull.create" =? "pull.create")%string with true. cbn [negb orb].
  assert (({| idem := idem s2; corr := corr s2 |} : state) = s2) as Es2 by by destruct s2.
  destruct (decide _) as [E|E].
  - rewrite <- E, String.eqb_refl. apply String.eqb_neq in Hdig. rewrite Hdig. cbn. by rewrite Hp, Hst, Hb, Es2.
  - assert ((pullCreateRequestDigest sha (c_Repo_ c) (c_Request c) =? "")%string
      || negb (pullCreateRequestDigest sha (c_Repo_ c) (c_Request c) =? pullCreateRequestDigest sha (c_Repo_ c2) (c_Request c2))%string
      = true) as ->; [|by rewrite Es2].
    apply orb_true_iff. right. apply negb_true_iff, String.eqb_neq. congruence.
Qed.

(** ** Concrete attempts *)

Definition no_hash (s : string) : string := s.

Definition sample_request : PullCreateRequest :=
  {| Title := "T"; Head := "agent/x"; Base := "main"; ReqBody := "B"; Draft := false; Metadata := ∅; Permissions := [] |}.
Definition sample_ctx (req : PullCreateRequest) : pull_ctx :=
  {| c_AgentID := "a1"; c_Request := req; c_Repo_ := "o/r"; c_Inst := 42 |}.
Definition sample_claims : verifiedCapability :=
  {| v_AgentType := "curator"; v_Mode := "full"; v_RunID := "r1"; v_WorkItemID := "w1" |}.
Definition pull_number (n : Z) : GitHubResult := {| Number := n; URL := ""; HTMLURL := ""; ID := 0; g_CreatedAt := "" |}.

(** GitHub creates number [n]; the open pull requests are [open_]. *)
Definition sample_env (n : option Z) (open_ : option (list OpenPull)) (store_fault : fault) : attempt_env :=
  {| ev_verify := λ h, if (h =? "cap")%string then Some (200, Some (Some sample_claims)) else Some (404, Some None);
     ev_get_pull := λ k, Some (pull_number k);
     ev_list := λ _ _ _, open_;
     ev_create := λ _, pull_number <$> n;
     ev_now := second; ev_reserve := None; ev_lookup := None; ev_record := None; ev_store := store_fault |}.

Definition initial : state := {| idem := ∅; corr := Correlation.empty_store |}.
Definition sample_op : string := operation_of no_hash (sample_ctx sample_request) "k1".
Definition sample_body : string := body_of (sample_ctx sample_request) sample_op.

Definition tried (e : attempt_env) (s : state) :=
  pullCreateWithCorrelation no_hash e true s (sample_ctx sample_request) "cap" "k1".

(** The pull request GitHub accepted while its answer was lost. *)
Definition lost_pull : OpenPull :=
  {| op_Number := 7; op_Title := "T"; op_Body := sample_body; op_HeadRef := "agent/x"; op_BaseRef := "main";
     op_URL := ""; op_HTMLURL := "" |}.

(** A retry looks for the text "operation_id: ", which the metadata block does not
    contain: it names the field Broker-Operation-Id.  So a pull request whose
    creation was interrupted is not found again, and the retry creates a second. *)
Lemma lost_response_duplicates :
  let first := tried (sample_env None None None) initial in
  let second_ := tried (sample_env (Some 8) (Some [lost_pull]) None) first.1.1 in
  GoStrings.contains sample_body ("Broker-Operation-Id: " +:+ sample_op) = true ∧
  GoStrings.contains sample_body (marker_of sample_op) = false ∧
  first.1.2 = [sample_body] ∧ pc_status first.2 = 502 ∧
  second_.1.2 = [sample_body] ∧ second_.2 = pc 201 (PcPull (pull_number 8)).
Proof. vm_compute. by split_and!. Qed.

(** When the completed record cannot be written, the answer is an empty 200. *)
Lemma store_failure_empty_200 :
  (tried (sample_env (Some 7) None (Some 1%nat)) initial).2 = pc 200 PcEmpty.
Proof. vm_compute. reflexivity. Qed.

Lemma run_triple {A B C} (p : A * B * C) r : p.2 = r → p = (p.1.1, p.1.2, r).
Proof. destruct p as [[? ?] ?]. cbn. congruence. Qed.

Definition created_ok := tried (sample_env (Some 7) None None) initial.
Lemma created_ok_run : created_ok = (created_ok.1.1, created_ok.1.2, pc 201 (PcPull (pull_number 7))).
Proof. apply run_triple. vm_compute. reflexivity. Defined.

Lemma pull_recorded_witness :
  let e := sample_env (Some 7) None None in
  let c := sample_ctx sample_request in
  pc 201 (PcPull (pull_number 7)) = pc 201 (PcPull (pull_number 7)) ∧
  (created_ok.1.2 = [] ∨ created_ok.1.2 = [body_of c (operation_of no_hash c (trim_space "k1"))]) ∧
  provenance e initial c (body_of c (operation_of no_hash c (trim_space "k1")))
    (operation_of no_hash c (trim_space "k1")) created_ok.1.2 (pull_number 7) ∧
  ∃ claims row, verify (ev_verify e (trim_space "cap")) = Ok claims ∧
    (v_AgentType claims ≠ "" ∧ v_Mode claims ≠ "" ∧ v_RunID claims ≠ "" ∧ v_WorkItemID claims ≠ "") ∧
    (let md := Metadata (c_Request c) in
     agrees md "run_id" (v_RunID claims) ∧ agrees md "agent_type" (v_AgentType claims) ∧
     agrees md "work_item_id" (v_WorkItemID claims) ∧ agrees md "mode" (v_Mode claims)) ∧
    find_operation (corr created_ok.1.1) (operation_of no_hash c (trim_space "k1")) = Some row ∧
    (find_operation (corr initial) (operation_of no_hash c (trim_space "k1")) = Some row ∨
     (find_operation (corr initial) (operation_of no_hash c (trim_space "k1")) = None ∧
      c_AgentType row = v_AgentType claims ∧ c_Mode row = v_Mode claims ∧
      c_RunID row = v_RunID claims ∧ c_WorkItemID row = v_WorkItemID claims ∧ c_Repo row = c_Repo_ c ∧
      c_PRNumber row = Number (pull_number 7))).
Proof.
  apply (pull_recorded no_hash (sample_env (Some 7) None None) true initial (sample_ctx sample_request) "cap" "k1"
    created_ok.1.1 created_ok.1.2 (pc 201 (PcPull (pull_number 7)))); [exact created_ok_run|reflexivity].
Defined.

(** A retry by another capability, without the idempotency state. *)
Definition retried :=
  pullCreateWithCorrelation no_hash (sample_env (Some 8) None None) false (pc_run no_hash created_ok.1.1 [])
    (sample_ctx sample_request) "cap" " k1 ".

Lemma created_once_witness :
  retried.2 = pc 201 (PcPull (pull_number 7)) ∧
  (retried.1.2 = [] ∧
   ∀ g2, pc_reply_ retried.2 = PcPull g2 → ∃ row,
     find_operation (corr created_ok.1.1)
       (operation_of no_hash (sample_ctx sample_request) (trim_space "k1")) = Some row ∧
     ev_get_pull (sample_env (Some 8) None None) (c_PRNumber row) = Some g2).
Proof.
  split; [vm_compute; reflexivity|].
  apply (created_once no_hash (sample_env (Some 7) None None) true initial (sample_ctx sample_request) "cap" "k1"
    created_ok.1.1 created_ok.1.2 (pc 201 (PcPull (pull_number 7))) (pull_number 7) created_ok_run eq_refl
    [] (sample_env (Some 8) None None) false (sample_ctx sample_request) "cap" " k1 " retried.1.1 retried.1.2 retried.2).
  - reflexivity.
  - by apply (run_triple retried).
Defined.

Definition other_request : PullCreateRequest :=
  {| Title := "Other"; Head := "agent/x"; Base := "main"; ReqBody := "B"; Draft := false; Metadata := ∅; Permissions := [] |}.

Lemma replayed_or_refused_witness :
  let c2 := sample_ctx other_request in
  let e2 := sample_env (Some 8) None None in
  pullCreateWithCorrelation no_hash e2 true (pc_run no_hash created_ok.1.1 []) c2 "cap" "k1" =
    (pc_run no_hash created_ok.1.1 [], [],
     if decide (pullCreateRequestDigest no_hash (c_Repo_ c2) (c_Request c2) =
                pullCreateRequestDigest no_hash "o/r" sample_request)
     then pc 201 (PcStored (Some (RResult (pull_number 7)))) else pc 409 (PcError "idempotency_key_conflict")).
Proof.
  apply (replayed_or_refused no_hash (sample_env (Some 7) None None) initial (sample_ctx sample_request) "cap" "k1"
    created_ok.1.1 created_ok.1.2 (pc 201 (PcPull (pull_number 7))) (pull_number 7) created_ok_run eq_refl
    [] (sample_env (Some 8) None None) (sample_ctx other_request) "cap" "k1" sample_claims).
  - reflexivity.
  - discriminate.
  - split_and!; [discriminate|reflexivity|vm_compute; reflexivity].
  - reflexivity.
  - discriminate.
Defined.
