(* ===== verification/Limits.v ===== *)
(** * internal/limits: per-run mutation budgets

    A state file counts, for every run, the GitHub objects the run was allowed
    to create, in all and by class.  [CheckAndReserve] refuses a run that has
    spent its budget and counts the others.  The mutex makes a call one step;
    fault 0 is reading or decoding the file, fault 1 writing it. *)

From S2P Require Import Prelude GoStrings.
Open Scope string_scope.
Open Scope list_scope.
Open Scope Z_scope.

Record MutationLimitsConfig := {
  StatePath : string; RunMetadataField : string; ActionMetadataField : string;
  MaxNewObjectsPerRun : Z; ClassLimits : gmap string Z; OperationClasses : gmap string string }.

Inductive limit_reason := NoRunField | RunExhausted | ClassExhausted (class : string).

Record Decision := { Allowed : bool; Reason : option limit_reason; RunID : string; Class_ : string }.

Record runState := { Total : Z; Classes : gmap string Z }.

Inductive limit_error := LRead | LWrite.

Definition lookup_text (m : gmap string string) (k : string) : string := default "" (m !! k).
Definition count_of (m : gmap string Z) (k : string) : Z := default 0 (m !! k).
Definition no_runs : runState := {| Total := 0; Classes := ∅ |}.
Definition run_of (st : gmap string runState) (id : string) : runState := default no_runs (st !! id).

Definition operationClass (cfg : MutationLimitsConfig) (operation : string) (metadata : gmap string string) : string :=
  let class := if negb (ActionMetadataField cfg =? "")%string then lookup_text metadata (ActionMetadataField cfg) else "" in
  if negb (class =? "")%string then class else
  let class := lookup_text (OperationClasses cfg) operation in
  if negb (class =? "")%string then class else operation.

Definition runField (cfg : MutationLimitsConfig) : string :=
  if (RunMetadataField cfg =? "")%string then "Run-Id" else RunMetadataField cfg.

Definition allow (runID class : string) : Decision :=
  {| Allowed := true; Reason := None; RunID := runID; Class_ := class |}.
Definition deny (why : limit_reason) (runID class : string) : Decision :=
  {| Allowed := false; Reason := Some why; RunID := runID; Class_ := class |}.

Definition disabled (cfg : MutationLimitsConfig) : bool :=
  (StatePath cfg =? "")%string || (MaxNewObjectsPerRun cfg =? 0) && bool_decide (ClassLimits cfg = ∅).

Definition reserved (rs : runState) (class : string) : runState :=
  {| Total := wrap64 (Total rs + 1); Classes := <[class := wrap64 (count_of (Classes rs) class + 1)]> (Classes rs) |}.

Definition CheckAndReserve (cfg : MutationLimitsConfig) (fl : fault) (st : gmap string runState)
    (operation : string) (metadata : gmap string string) : gmap string runState * result limit_error Decision :=
  if disabled cfg then (st, Ok (allow "" "")) else
  let runID := lookup_text metadata (runField cfg) in
  if (runID =? "")%string then (st, Ok (deny NoRunField "" "")) else
  let class := operationClass cfg operation metadata in
  if fails fl 0 then (st, Err LRead) else
  let rs := run_of st runID in
  if (0 <? MaxNewObjectsPerRun cfg) && (MaxNewObjectsPerRun cfg <=? Total rs)
  then (st, Ok (deny RunExhausted runID class)) else
  let limit := count_of (ClassLimits cfg) class in
  if (0 <? limit) && (limit <=? count_of (Classes rs) class)
  then (st, Ok (deny (ClassExhausted class) runID class)) else
  if fails fl 1 then (st, Err LWrite) else
  (<[runID := reserved rs class]> st, Ok (allow runID class)).

(** ** Histories *)

Record call := { c_fault : fault; c_operation : string; c_metadata : gmap string string }.

Fixpoint history (cfg : MutationLimitsConfig) (st : gmap string runState) (calls : list call)
    : gmap string runState * list (result limit_error Decision) :=
  match calls with
  | [] => (st, [])
  | c :: calls =>
    let '(st, d) := CheckAndReserve cfg (c_fault c) st (c_operation c) (c_metadata c) in
    let '(st, ds) := history cfg st calls in (st, d :: ds)
  end.

Definition allowed_run (run : string) (d : result limit_error Decision) : bool :=
  match d with Ok d => Allowed d && (RunID d =? run)%string | Err _ => false end.
Definition allowed_class (run class : string) (d : result limit_error Decision) : bool :=
  match d with Ok d => Allowed d && (RunID d =? run)%string && (Class_ d =? class)%string | Err _ => false end.

Definition count {A} (f : A → bool) (l : list A) : Z := Z.of_nat (length (List.filter f l)).

(** The limits are ints. *)
Definition limits_fit (cfg : MutationLimitsConfig) : Prop :=
  MaxNewObjectsPerRun cfg ≤ max_int64 ∧ ∀ class, count_of (ClassLimits cfg) class ≤ max_int64.

Lemma count_cons {A} (f : A → bool) x l : count f (x :: l) = (if f x then 1 else 0) + count f l.
Proof. unfold count. cbn. destruct (f x); cbn; lia. Qed.

Lemma run_of_insert st id rs id' :
  run_of (<[id := rs]> st) id' = if decide (id' = id) then rs else run_of st id'.
Proof.
  unfold run_of. destruct (decide (id' = id)) as [->|]; [by rewrite lookup_insert_eq|by rewrite lookup_insert_ne].
Qed.

Lemma count_of_insert m k v k' : count_of (<[k := v]> m) k' = if decide (k' = k) then v else count_of m k'.
Proof.
  unfold count_of. destruct (decide (k' = k)) as [->|]; [by rewrite lookup_insert_eq|by rewrite lookup_insert_ne].
Qed.

(** One call reserves for its own run and class, within both limits, or leaves the file as it was. *)
Lemma CheckAndReserve_cases cfg fl st operation metadata st' d :
  CheckAndReserve cfg fl st operation metadata = (st', d) →
  (st' = st ∧ ∀ run, run ≠ "" → allowed_run run d = false) ∨
  (∃ runID class, runID ≠ "" ∧ d = Ok (allow runID class) ∧ st' = <[runID := reserved (run_of st runID) class]> st ∧
     (0 < MaxNewObjectsPerRun cfg → Total (run_of st runID) < MaxNewObjectsPerRun cfg) ∧
     (0 < count_of (ClassLimits cfg) class → count_of (Classes (run_of st runID)) class < count_of (ClassLimits cfg) class)).
Proof.
  unfold CheckAndReserve. cbv zeta. intros E.
  assert (∀ run (d : Decision), run ≠ "" → RunID d = "" → allowed_run run (Ok d) = false) as Hno.
  { intros run x Hr Hx. cbn. rewrite Hx. apply andb_false_iff. right. by apply String.eqb_neq. }
  repeat match type of E with (if ?c then _ else _) = _ => destruct c eqn:?; [injection E as <- <-; left; split; [done|]; intros run Hrun; first [done|by apply Hno]|] end.
  injection E as <- <-. right. eexists _, _. bool_hyps.
  repeat match goal with H : (_ && _) = false |- _ => apply andb_false_iff in H end.
  split_and!; [done..|lia|lia].
Qed.

(** What the file counts for a run, against the decisions made so far. *)
Record counted (cfg : MutationLimitsConfig) (rs : runState) (n : Z) (m : string → Z) : Prop := {
  ct_total : 0 < MaxNewObjectsPerRun cfg → 0 ≤ Total rs ≤ MaxNewObjectsPerRun cfg ∧ Total rs = n;
  ct_class : ∀ class, 0 < count_of (ClassLimits cfg) class →
    0 ≤ count_of (Classes rs) class ≤ count_of (ClassLimits cfg) class ∧ count_of (Classes rs) class = m class }.

Lemma history_counted cfg calls st run n m :
  limits_fit cfg → run ≠ "" → counted cfg (run_of st run) n m →
  let '(st', ds) := history cfg st calls in
  counted cfg (run_of st' run) (n + count (allowed_run run) ds) (λ class, m class + count (allowed_class run class) ds).
Proof.
  intros [Hmax Hcls] Hrun. revert st n m. induction calls as [|c calls IH]; intros st n m Hc; cbn [history].
  { destruct Hc as [Ht Hm]. split; [intros H|intros class H]; unfold count; cbn; rewrite Z.add_0_r; auto. }
  destruct (CheckAndReserve cfg (c_fault c) st (c_operation c) (c_metadata c)) as [st1 d] eqn:E.
  set (n1 := n + if allowed_run run d then 1 else 0).
  set (m1 := λ class, m class + if allowed_class run class d then 1 else 0).
  assert (counted cfg (run_of st1 run) n1 m1) as Hc1.
  { apply CheckAndReserve_cases in E as [[-> Hno]|(runID & class & Hid & -> & -> & Ht & Hl)].
    - unfold n1, m1. rewrite Hno by done. destruct Hc as [Ht Hm]. split; [by rewrite Z.add_0_r|].
      intros class. assert (allowed_class run class d = false) as ->; [|rewrite Z.add_0_r; auto].
      specialize (Hno run Hrun). unfold allowed_run, allowed_class in *. destruct d; [|done]. by rewrite Hno.
    - destruct Hc as [Hct Hcc]. rewrite run_of_insert. unfold n1, m1, allowed_run, allowed_class. cbn.
      destruct (decide (run = runID)) as [->|Hne].
      + rewrite String.eqb_refl. cbn. split; cbn.
        * intros H. destruct (Hct H) as [? ->]. specialize (Ht H).
          rewrite wrap64_id by (unfold int64, min_int64; lia). lia.
        * intros class' H. rewrite count_of_insert. destruct (Hcc class' H) as [? He]. specialize (Hcls class').
          destruct (decide (class' = class)) as [->|Hn]; [rewrite String.eqb_refl|].
          -- specialize (Hl H). rewrite wrap64_id by (unfold int64, min_int64; lia). lia.
          -- rewrite (proj2 (String.eqb_neq class class')) by done. lia.
      + rewrite (proj2 (String.eqb_neq runID run)) by done. cbn. split; [intros H|intros class' H]; rewrite Z.add_0_r; auto. }
  specialize (IH st1 n1 m1 Hc1). destruct (history cfg st1 calls) as [st' ds].
  destruct IH as [It Im]. unfold n1, m1 in *. split; [intros H; destruct (It H)|intros class H; destruct (Im class H)];
    rewrite count_cons; lia.
Qed.

(** ** Properties *)

(** A run never creates more GitHub objects than its budget, in all and of
    each class, whatever is asked and whichever reads and writes of the file
    fail. *)
Theorem budget_bounded cfg calls run :
  limits_fit cfg → run ≠ "" →
  let ds := (history cfg ∅ calls).2 in
  (0 < MaxNewObjectsPerRun cfg → count (allowed_run run) ds ≤ MaxNewObjectsPerRun cfg) ∧
  (∀ class, 0 < count_of (ClassLimits cfg) class → count (allowed_class run class) ds ≤ count_of (ClassLimits cfg) class).
Proof.
  intros Hfit Hrun. assert (counted cfg (run_of ∅ run) 0 (λ _, 0)) as H0.
  { unfold run_of. rewrite lookup_empty. split; cbn; intros; unfold count_of in *; rewrite ?lookup_empty; cbn; lia. }
  pose proof (history_counted cfg calls ∅ run 0 (λ _, 0) Hfit Hrun H0) as H.
  destruct (history cfg ∅ calls) as [st ds]. destruct H as [Ht Hm]. cbn. split.
  - intros H. specialize (Ht H). lia.
  - intros class H. specialize (Hm class H). lia.
Qed.

Definition sample_limits : MutationLimitsConfig :=
  {| StatePath := "state.json"; RunMetadataField := ""; ActionMetadataField := "Action"; MaxNewObjectsPerRun := 2;
     ClassLimits := {["issue.create" := 1]}; OperationClasses := ∅ |}.
Definition sample_call (operation : string) : call :=
  {| c_fault := None; c_operation := operation; c_metadata := {["Run-Id" := "r1"]} |}.
Definition sample_calls : list call := map sample_call ["issue.create"; "issue.create"; "pull.create"; "pull.create"].

Lemma budget_bounded_witness :
  count (allowed_run "r1") (history sample_limits ∅ sample_calls).2 = 2 ∧ 2 ≤ 2.
Proof.
  split; [by vm_compute|].
  apply (budget_bounded sample_limits sample_calls "r1"); [|done|done].
  split; [by vm_compute|]. intros class.
  destruct (decide (class = "issue.create")) as [->|]; [by vm_compute|].
  unfold count_of, sample_limits. cbn [ClassLimits]. by rewrite lookup_singleton_ne.
Defined.
