(* ===== verification/SecurityScan.v ===== *)
(** * internal/securityscan: credential-shaped material in what leaves

    A text is searched for the patterns of credentials, and so is everything it
    decodes to (percent, hexadecimal and Base64 encodings inside it, up to two
    layers deep), in a breadth-first search with bounds on its size.  The
    patterns are those of the source.  HMAC-SHA256 and the registered
    fingerprints of effect tokens are arguments; a finding's fingerprint is what
    the registered handlers are called with. *)

From stdpp Require Import pretty.
From S2P Require Import Prelude GoStrings GoTime Regex Net.
Open Scope string_scope.
Open Scope list_scope.
Open Scope Z_scope.

Definition MaxFieldBytes : Z := 1048576.
Definition MaxStreamBytes : Z := 16777216.
Definition maxCanonicalBytes : Z := 67108864.
Definition maxCanonicalValues : nat := 256.
Definition maxCanonicalDepth : nat := 2.

Record Finding := { Code : string; Field : string; Fingerprint : string }.
Record Segment := { Name : string; Value : string }.

Definition slen (s : string) : Z := Z.of_nat (String.length s).

(** ** Searching for a pattern

    MatchString of a pattern that is not anchored, with a word boundary demanded
    before it ([lb]) or after it ([rb]). *)

Definition is_word (c : ascii) : bool := word alnum "_" c.
Definition word_at (c : option ascii) : bool := match c with Some c => is_word c | None => false end.
Definition boundary (prev next : option ascii) : bool := xorb (word_at prev) (word_at next).

Fixpoint match_from (rb : bool) (r : re) (prev : option ascii) (l : list ascii) : bool :=
  match r with
  | Nothing => false
  | _ => nullable r && (negb rb || boundary prev (head l)) ||
         match l with [] => false | c :: l => match_from rb (deriv c r) (Some c) l end
  end.

Fixpoint search_from (lb rb : bool) (r : re) (prev : option ascii) (l : list ascii) : bool :=
  (negb lb || boundary prev (head l)) && match_from rb r prev l ||
  match l with [] => false | c :: l => search_from lb rb r (Some c) l end.

Record detector := { d_code : string; d_left : bool; d_pattern : re; d_right : bool }.
Definition detects (d : detector) (s : string) : bool :=
  search_from (d_left d) (d_right d) (d_pattern d) None (chars s).

Fixpoint seqs (l : list re) : re :=
  match l with [] => Eps | [r] => r | r :: l => Seq r (seqs l) end.
Fixpoint alts (l : list re) : re :=
  match l with [] => Nothing | [r] => r | r :: l => Alt r (alts l) end.
Definition at_least (n : nat) (r : re) : re := Seq (repeat_re n r) (Star r).
(** (?i) of an ASCII literal without k and s *)
Fixpoint lit_fold (s : string) : re :=
  match s with
  | EmptyString => Eps
  | String c EmptyString => Cls (λ d, Ascii.eqb (lower_char c) (lower_char d))
  | String c s => Seq (Cls (λ d, Ascii.eqb (lower_char c) (lower_char d))) (lit_fold s)
  end.
Definition cls (p : ascii → bool) (extra : string) : re := Cls (word p extra).
(** (?i)[A-Za-z]: also U+017F and U+212A *)
Definition cls_fold (p : ascii → bool) (extra : string) : re :=
  alts [cls p extra; lit (str [197; 191]%nat); lit (str [226; 132; 170]%nat)].

Definition dash : re := cls (λ _, false) "_-".

Definition detectors : list detector :=
  [{| d_code := "credential_canary"; d_left := false; d_right := false;
      d_pattern := seqs [lit_fold "PR10"; dash; lit_fold "CREDENTIAL"; dash; lit_fold "CANARY";
                         alts [lit ":"; lit "="; dash]; at_least 6 (cls_fold alnum "._~+/-")] |};
   {| d_code := "github_token"; d_left := false; d_right := false;
      d_pattern := alts [Seq (lit "github_pat_") (at_least 20 (cls alnum "_"));
                         seqs [lit "gh"; cls (λ _, false) "pousr"; lit "_"; at_least 20 (cls alnum "")]] |};
   {| d_code := "openai_api_key"; d_left := true; d_right := true;
      d_pattern := Seq (lit "sk-") (at_least 20 (cls alnum "_-")) |};
   {| d_code := "jwt"; d_left := true; d_right := true;
      d_pattern := seqs [lit "eyJ"; at_least 8 (cls alnum "_-"); lit "."; at_least 8 (cls alnum "_-"); lit ".";
                         at_least 8 (cls alnum "_-")] |};
   {| d_code := "private_key"; d_left := false; d_right := false;
      d_pattern := seqs [lit "-----BEGIN "; alts [Eps; lit "RSA "; lit "EC "; lit "OPENSSH "];
                         lit "PRIVATE KEY-----"] |}].

(** ** Decodings *)

(** The maximal runs of a class of characters, each with the text after it. *)
Fixpoint runs (p : ascii → bool) (cur : list ascii) (l : list ascii) : list (list ascii * list ascii) :=
  match l with
  | [] => if is_nil cur then [] else [(reverse cur, [])]
  | c :: l' =>
    if p c then runs p (c :: cur) l'
    else (if is_nil cur then [] else [(reverse cur, l)]) ++ runs p [] l'
  end.

(** FindAllString of (?i)(?:[0-9a-f]{2}){12,}: the even beginnings of long runs. *)
Definition hex_matches (l : list ascii) : list (list ascii) :=
  List.filter (λ m, (24 <=? length m)%nat)
    (map (λ '(m, _), take (2 * (length m / 2)) m) (runs is_hex [] l)).

(** FindAllString of [A-Za-z0-9+/_-]{16,}={0,2} *)
Definition padding (rest : list ascii) : list ascii :=
  match rest with "="%char :: "="%char :: _ => ["="%char; "="%char] | "="%char :: _ => ["="%char] | _ => [] end.
Definition base64_matches (l : list ascii) : list (list ascii) :=
  map (λ '(m, rest), m ++ padding rest)
    (List.filter (λ m, (16 <=? length m.1)%nat) (runs (word alnum "+/_-") [] l)).

(** hex.DecodeString, of an even number of digits *)
Fixpoint hex_decode (l : list ascii) : option (list ascii) :=
  match l with
  | [] => Some []
  | a :: b :: l =>
    match hex_value a, hex_value b, hex_decode l with
    | Some x, Some y, Some l => Some (byte (x * 16 + y) :: l)
    | _, _, _ => None
    end
  | _ => None
  end.

(** The four decoders of encoding/base64: the URL alphabet has - and _ for + and /. *)
Definition from_url (l : list ascii) : option (list ascii) :=
  if existsb (one_of "+/") l then None
  else Some (map (λ c, if Ascii.eqb c "-" then "+"%char else if Ascii.eqb c "_" then "/"%char else c) l).
Definition pad_raw (l : list ascii) : option (list ascii) :=
  if existsb (Ascii.eqb "=") l then None else
  match (length l mod 4)%nat with
  | 0%nat => Some l | 2%nat => Some (l ++ ["="%char; "="%char]) | 3%nat => Some (l ++ ["="%char]) | _ => None
  end.
Definition StdEncoding (l : list ascii) : option (list ascii) := decode_quanta l.
Definition RawStdEncoding (l : list ascii) : option (list ascii) := pad_raw l ≫= decode_quanta.
Definition URLEncoding (l : list ascii) : option (list ascii) := from_url l ≫= decode_quanta.
Definition RawURLEncoding (l : list ascii) : option (list ascii) := (from_url l ≫= pad_raw) ≫= decode_quanta.

Definition options {A} (l : list (option A)) : list A := omap id l.

Definition hex_candidates (m : list ascii) : list (list ascii) :=
  omap (λ offset, if (24 <=? length m - offset)%nat
                  then let c := drop offset m in Some (take (2 * (length c / 2)) c) else None) [0; 1]%nat.

Definition base64_candidates (m : list ascii) : list (list ascii) :=
  flat_map (λ startTrim, omap (λ endTrim,
    if (length m - startTrim - endTrim <? 16)%nat then None
    else Some (drop startTrim (take (length m - endTrim) m))) [0; 1; 2; 3]%nat) [0; 1; 2; 3]%nat.

Definition too_long (m : list ascii) : bool := maxCanonicalBytes <? Z.of_nat (length m).

(** The decodings, or [None] when there are too many. *)
Definition canonicalDecodings (value : string) : option (list string) :=
  if maxCanonicalBytes <? slen value then None else
  let unescaped := match path_unescape value with
                   | Some d => if negb (d =? value)%string then [d] else []
                   | None => []
                   end in
  let hexes := hex_matches (chars value) in
  if (maxCanonicalValues <? length hexes)%nat || existsb too_long hexes then None else
  let bases := base64_matches (chars value) in
  if (maxCanonicalValues <? length bases)%nat || existsb too_long bases then None else
  Some (unescaped
        ++ map text (options (map hex_decode (flat_map hex_candidates hexes)))
        ++ map text (options (flat_map (λ c, map (λ dec, dec c)
             [StdEncoding; RawStdEncoding; URLEncoding; RawURLEncoding]) (flat_map base64_candidates bases)))).

(** ** Scanning *)

Section Scan.
Context {K : Type}.
(** The HMAC of a text under a key, in hexadecimal, and the registered effect tokens. *)
Variable hmac_hex : K → string → string.
Variable effectTokens : list (string * K).

(** FindAllString of (?i)\b[0-9a-f]{64}\b: words of 64 hexadecimal digits. *)
Definition effect_candidates (s : string) : list string :=
  map (λ '(m, _), text m)
    (List.filter (λ m, (length m.1 =? 64)%nat && forallb is_hex m.1) (runs is_word [] (chars s))).

Definition matchingEffectToken (s : string) : option string :=
  head (flat_map (λ candidate,
    map fst (List.filter (λ '(fingerprint, key), (fingerprint =? hmac_hex key candidate)%string) effectTokens))
    (effect_candidates s)).

(** What is found in one value. *)
Definition examine (field value : string) : option Finding :=
  match List.find (λ d, detects d value) detectors with
  | Some d => Some {| Code := d_code d; Field := field; Fingerprint := "" |}
  | None =>
    match matchingEffectToken value with
    | Some fp => if negb (fp =? "")%string
                 then Some {| Code := "effect_token_fingerprint"; Field := field; Fingerprint := fp |} else None
    | None => None
    end
  end.

Definition limited (code field : string) : Finding := {| Code := code; Field := field; Fingerprint := "" |}.

(** The loop over the decodings of [current], which is at [depth]: the queue,
    the values seen and their bytes, or [None] at a bound. *)
Fixpoint enqueue (current : string) (depth : nat) (decoded : list string)
    (queue : list (string * nat)) (seen : gset string) (total : Z)
    : option (list (string * nat) * gset string * Z) :=
  match decoded with
  | [] => Some (queue, seen, total)
  | next :: decoded =>
    if (next =? "")%string || (next =? current)%string then enqueue current depth decoded queue seen total
    else if bool_decide (next ∈ seen) then enqueue current depth decoded queue seen total
    else if (maxCanonicalValues <=? size seen)%nat || (maxCanonicalBytes - slen next <? total) then None
    else enqueue current depth decoded (queue ++ [(next, S depth)]) ({[next]} ∪ seen) (total + slen next)
  end.

(** [None]: out of fuel; [Some None]: nothing found. *)
Fixpoint scan_loop (fuel : nat) (field : string) (queue : list (string * nat)) (seen : gset string) (total : Z)
    : option (option Finding) :=
  match fuel with
  | O => None
  | S fuel =>
    match queue with
    | [] => Some None
    | (value, depth) :: queue =>
      match examine field value with
      | Some f => Some (Some f)
      | None =>
        if (maxCanonicalDepth <=? depth)%nat then scan_loop fuel field queue seen total else
        match canonicalDecodings value with
        | None => Some (Some (limited "canonical_scan_limit_exceeded" field))
        | Some decoded =>
          match enqueue value depth decoded queue seen total with
          | None => Some (Some (limited "canonical_scan_limit_exceeded" field))
          | Some (queue, seen, total) => scan_loop fuel field queue seen total
          end
        end
      end
    end
  end.

(** Every value is examined once, and at most [maxCanonicalValues] are seen. *)
Definition scan_fuel : nat := S maxCanonicalValues.

Definition scanValue (field value : string) (rawLimit : Z) : option (option Finding) :=
  if rawLimit <? slen value then Some (Some (limited "scan_limit_exceeded" field))
  else scan_loop scan_fuel field [(value, 0%nat)] {[value]} (slen value).

Fixpoint scan_segments (segments : list Segment) (combined : string) : option (option Finding) :=
  match segments with
  | [] => Some None
  | s :: segments =>
    match scanValue (Name s) (Value s) MaxFieldBytes with
    | Some None =>
      if MaxFieldBytes - slen (Value s) <? slen combined
      then Some (Some (limited "scan_limit_exceeded" "field_sequence"))
      else scan_segments segments (combined +:+ Value s)
    | r => r
    end
  end.

Definition combine (segments : list Segment) : string := String.concat "" (map Value segments).

Definition Sequence (segments : list Segment) : option (option Finding) :=
  match scan_segments segments "" with
  | Some None =>
    if (1 <? length segments)%nat then scanValue "field_sequence" (combine segments) MaxFieldBytes else Some None
  | r => r
  end.

Definition Fields (fields : gmap string string) : option (option Finding) :=
  Sequence (map (λ n, {| Name := n; Value := default "" (fields !! n) |})
              (merge_sort text_order (elements (dom fields)))).

Definition Strings (prefix : string) (values : list string) : option (option Finding) :=
  Fields (list_to_map (imap (λ i value, (trim_space prefix +:+ "[" +:+ pretty (Z.of_nat i) +:+ "]", value)) values)).

(** [read] is what the reader gives within the limit and one byte, [None] a read error. *)
Definition Reader (field : string) (maxBytes : Z) (read : Z → option string) : option (option Finding) :=
  let maxBytes := if (maxBytes <=? 0) || (MaxStreamBytes <? maxBytes) then MaxStreamBytes else maxBytes in
  match read (maxBytes + 1) with
  | None => Some (Some (limited "scan_limit_exceeded" field))
  | Some value => if maxBytes <? slen value then Some (Some (limited "scan_limit_exceeded" field))
                  else scanValue field value maxBytes
  end.
End Scan.

Example canary_found :
  Code <$> examine (λ (_ : unit) t, t) [] "f" "x PR10_credential-CANARY=abc.de1" = Some "credential_canary".
Proof. by vm_compute. Qed.
Example key_needs_boundary :
  (detects {| d_code := ""; d_left := true; d_right := true; d_pattern := Seq (lit "sk-") (at_least 20 (cls alnum "_-")) |} "task-abcdefghijklmnopqrstuvwx",
   detects {| d_code := ""; d_left := true; d_right := true; d_pattern := Seq (lit "sk-") (at_least 20 (cls alnum "_-")) |} "a sk-abcdefghijklmnopqrstuvwx") = (false, true).
Proof. by vm_compute. Qed.
(** ghp_ and 36 letters, in Base64 *)
Example encoded_token_found :
  option_map Code <$> scanValue (λ (_ : unit) t, t) [] "f" "Z2hwX2FiY2RlZmdoaWprbG1ub3BxcnN0dXZ3eHl6MDEyMzQ1Njc4OQ" 1000 = Some (Some "github_token").
Proof. by vm_compute. Qed.
Example escaped_token_found :
  option_map Code <$> scanValue (λ (_ : unit) t, t) [] "f" "%67hp_abcdefghijklmnopqrstuvwxyz" 1000 = Some (Some "github_token").
Proof. by vm_compute. Qed.

(** ** What a detector finds *)

Definition last_char (prev : option ascii) (l : list ascii) : option ascii :=
  match last l with Some c => Some c | None => prev end.

(** A word of the pattern occurs in the text, with the boundaries asked for. *)
Definition occurs (d : detector) (l : list ascii) : Prop :=
  ∃ pre mid post, l = pre ++ mid ++ post ∧ lang (d_pattern d) mid ∧
    (d_left d = true → boundary (last pre) (head (mid ++ post)) = true) ∧
    (d_right d = true → boundary (last (pre ++ mid)) (head post) = true).

Lemma last_char_cons prev c l : last_char prev (c :: l) = last_char (Some c) l.
Proof. unfold last_char. destruct l as [|d l]; [done|]. rewrite last_cons_cons. by destruct (last (d :: l)) eqn:E; [|apply last_None in E]. Qed.

Lemma last_char_app pre mid : last_char (last pre) mid = last (pre ++ mid).
Proof. unfold last_char. rewrite last_app. by destruct (last mid). Qed.

Lemma match_from_spec rb r prev l :
  match_from rb r prev l = true ↔
  ∃ mid post, l = mid ++ post ∧ lang r mid ∧ (rb = true → boundary (last_char prev mid) (head post) = true).
Proof.
  revert r prev. induction l as [|c l IH]; intros r prev.
  - transitivity (nullable r && (negb rb || boundary prev None) = true).
    { destruct r; cbn; rewrite ?orb_false_r; done. }
    rewrite andb_true_iff, nullable_spec, orb_true_iff, negb_true_iff. split.
    + intros [Hr Hb]. exists [], []. split_and!; [done..|]. cbn. intros ->. by destruct Hb.
    + intros (mid & post & E & Hr & Hb). symmetry in E. apply app_eq_nil in E as [-> ->]. split; [done|].
      destruct rb; [right; by apply Hb|by left].
  - transitivity (nullable r && (negb rb || boundary prev (Some c)) || match_from rb (deriv c r) (Some c) l = true).
    { destruct r; try done. cbn. split; [done|]. by destruct l. }
    rewrite orb_true_iff, andb_true_iff, nullable_spec, orb_true_iff, negb_true_iff, IH. split.
    + intros [[Hr Hb]|(mid & post & -> & Hr & Hb)].
      * exists [], (c :: l). split_and!; [done..|]. cbn. intros ->. by destruct Hb.
      * exists (c :: mid), post. split_and!; [done|by apply deriv_sound|]. by rewrite last_char_cons.
    + intros ([|c' mid] & post & E & Hr & Hb).
      * left. cbn in E. subst post. split; [done|]. destruct rb; [right; by apply Hb|by left].
      * right. injection E as <- ->. exists mid, post. split_and!; [done|by apply deriv_complete|].
        by rewrite last_char_cons in Hb.
Qed.

Lemma search_from_spec lb rb r prev l :
  search_from lb rb r prev l = true ↔
  ∃ pre mid post, l = pre ++ mid ++ post ∧ lang r mid ∧
    (lb = true → boundary (last_char prev pre) (head (mid ++ post)) = true) ∧
    (rb = true → boundary (last_char prev (pre ++ mid)) (head post) = true).
Proof.
  assert (∀ prev l, (negb lb || boundary prev (head l)) && match_from rb r prev l = true ↔
    ∃ mid post, l = mid ++ post ∧ lang r mid ∧ (lb = true → boundary prev (head (mid ++ post)) = true) ∧
      (rb = true → boundary (last_char prev mid) (head post) = true)) as Hhere.
  { intros p k. rewrite andb_true_iff, match_from_spec, orb_true_iff, negb_true_iff. split.
    - intros [Hl (mid & post & -> & ? & ?)]. exists mid, post. split_and!; [done..| |done]. intros ->. by destruct Hl.
    - intros (mid & post & -> & ? & Hl & ?). split; [|eauto]. destruct lb; [right; by apply Hl|by left]. }
  revert prev. induction l as [|c l IH]; intros prev; cbn [search_from].
  - rewrite orb_false_r, Hhere. split.
    + intros (mid & post & E & ? & ? & ?). exists [], mid, post. by split_and!.
    + intros (pre & mid & post & E & ? & ? & ?). symmetry in E. apply app_eq_nil in E as [-> E]. exists mid, post. by split_and!.
  - rewrite orb_true_iff, Hhere, IH. split.
    + intros [(mid & post & E & ? & ? & ?)|(pre & mid & post & -> & ? & ? & ?)].
      * exists [], mid, post. by split_and!.
      * exists (c :: pre), mid, post. cbn [app]. rewrite !last_char_cons. by split_and!.
    + intros ([|c' pre] & mid & post & E & ? & Hl & Hr).
      * left. exists mid, post. by split_and!.
      * right. injection E as <- ->. cbn [app] in Hr. rewrite last_char_cons in Hl, Hr. exists pre, mid, post. by split_and!.
Qed.

Lemma last_char_none l : last_char None l = last l.
Proof. unfold last_char. by destruct (last l). Qed.

Lemma detects_spec d s : detects d s = true ↔ occurs d (chars s).
Proof. unfold detects, occurs. rewrite search_from_spec. by setoid_rewrite last_char_none. Qed.

(** ** What the search reaches *)

(** One decoding, and the values up to [n] decodings away from [value]. *)
Definition decodes_to (v u : string) : Prop :=
  ∃ ds, canonicalDecodings v = Some ds ∧ u ∈ ds ∧ u ≠ "" ∧ u ≠ v.

Inductive reaches (value : string) : nat → string → Prop :=
| reach_self : reaches value 0 value
| reach_decoded n v u : reaches value n v → decodes_to v u → reaches value (S n) u.

Section Search.
Context {K : Type}.
Variable hmac_hex : K → string → string.
Variable effectTokens : list (string * K).
Implicit Types (queue visited : list (string * nat)) (seen : gset string).

(** RegisterEffectTokenFingerprint ignores empty fingerprints. *)
Hypothesis named : ∀ fp key, (fp, key) ∈ effectTokens → fp ≠ "".

(** Nothing in the value has the shape of a credential. *)
Definition clean (u : string) : Prop :=
  (∀ d, d ∈ detectors → ¬ occurs d (chars u)) ∧
  (∀ candidate fp key, candidate ∈ effect_candidates u → (fp, key) ∈ effectTokens → fp ≠ hmac_hex key candidate).

Lemma examine_clean field u : examine hmac_hex effectTokens field u = None ↔ clean u.
Proof using named.
  unfold examine, clean, matchingEffectToken.
  set (found := flat_map _ (effect_candidates u)).
  assert (∀ fp, fp ∈ found ↔ ∃ candidate key, candidate ∈ effect_candidates u ∧ (fp, key) ∈ effectTokens ∧
    fp = hmac_hex key candidate) as Hf.
  { intros fp. unfold found. rewrite list_elem_of_In, in_flat_map. split.
    - intros (c & Hc & ([fp' key] & <- & [Hk He]%filter_In)%in_map_iff). exists c, key.
      rewrite !list_elem_of_In. split_and!; [done..|]. by apply String.eqb_eq.
    - intros (c & key & Hc & Hk & E). exists c. split; [by apply list_elem_of_In|]. apply in_map_iff.
      exists (fp, key). split; [done|]. apply filter_In. split; [by apply list_elem_of_In|]. by apply String.eqb_eq. }
  destruct (List.find _ detectors) as [d|] eqn:Ed.
  { split; [done|]. intros [Hd _]. apply find_some_in in Ed as [Hin E]. exfalso. by apply (Hd d Hin), detects_spec. }
  assert (∀ d, d ∈ detectors → ¬ occurs d (chars u)) as Hd.
  { intros d Hin ?%detects_spec. pose proof (find_none_all _ _ d Ed Hin) as E. cbn in E. congruence. }
  destruct found as [|fp l] eqn:E; cbn [head].
  - split; [|done]. intros _. split; [done|]. intros c fp key ?? ->.
    assert (hmac_hex key c ∈ @nil string) as []%elem_of_nil. apply Hf. by exists c, key.
  - assert (fp ∈ fp :: l) as (c & key & Hc & Hk & He)%Hf by by left.
    rewrite (proj2 (String.eqb_neq fp "")) by by eapply named. split; [done|]. intros [_ Hn]. by destruct (Hn c fp key).
Qed.

(** What the loop over the decodings adds. *)
Lemma enqueue_spec current depth ds queue seen total queue' seen' total' :
  enqueue current depth ds queue seen total = Some (queue', seen', total') →
  ∃ new, queue' = queue ++ map (λ u, (u, S depth)) new ∧ seen' = list_to_set new ∪ seen ∧
    (size seen' = size seen + length new)%nat ∧ ((size seen ≤ maxCanonicalValues)%nat → (size seen' ≤ maxCanonicalValues)%nat) ∧
    (∀ u, u ∈ new → u ∈ ds ∧ u ≠ "" ∧ u ≠ current) ∧ (∀ u, u ∈ ds → u ≠ "" → u ≠ current → u ∈ seen').
Proof using Type.
  clear named.
  revert queue seen total. induction ds as [|d ds IH]; intros queue seen total; cbn [enqueue].
  { intros [= <- <- <-]. exists []. cbn. rewrite app_nil_r, union_empty_l_L. split_and!; [done|done|lia|done|by intros u ?%elem_of_nil..]. }
  destruct ((d =? "")%string || (d =? current)%string) eqn:E1.
  { intros (new & ? & ? & ? & ? & Hn & Hs)%IH. exists new. split_and!; try done.
    - intros u (? & ? & ?)%Hn. split_and!; [by right|done..].
    - intros u [->|Hu]%elem_of_cons ??; [|by apply Hs]. apply orb_true_iff in E1 as [E%String.eqb_eq|E%String.eqb_eq]; done. }
  bool_hyps. destruct (bool_decide (d ∈ seen)) eqn:E2.
  { apply bool_decide_eq_true in E2. intros (new & ? & Hseen & ? & ? & Hn & Hs)%IH. exists new. split_and!; try done.
    - intros u (? & ? & ?)%Hn. split_and!; [by right|done..].
    - intros u [->|Hu]%elem_of_cons ??; [|by apply Hs]. rewrite Hseen. set_solver. }
  apply bool_decide_eq_false in E2. destruct (_ || _) eqn:E3; [done|]. bool_hyps.
  intros (new & Hq & Hseen & Hsz & Hb & Hn & Hs)%IH.
  rewrite size_union, size_singleton in * by set_solver. exists (d :: new). split_and!.
  - rewrite Hq. cbn. by rewrite <- (assoc_L (++)).
  - rewrite Hseen. cbn. set_solver.
  - cbn. lia.
  - intros _. apply Hb. match goal with H : (_ <=? _)%nat = false |- _ => apply Nat.leb_gt in H end. lia.
  - intros u [->|(? & ? & ?)%Hn]%elem_of_cons; split_and!; try done; [by left|by right].
  - intros u [->|Hu]%elem_of_cons ??; [|by apply Hs]. rewrite Hseen. set_solver.
Qed.

(** The values seen are those visited and those queued; the queue is sorted by
    depth and spans at most two depths; what a visited value decodes to was seen. *)
Record explored (value : string) (lo : nat) visited queue seen : Prop := {
  ex_seen : ∀ u, u ∈ seen ↔ ∃ d, (u, d) ∈ visited ++ queue;
  ex_root : (value, 0%nat) ∈ visited ++ queue;
  ex_low : ∀ u d, (u, d) ∈ visited → (d ≤ lo)%nat;
  ex_queue : ∃ now next, queue = map (λ u, (u, lo)) now ++ map (λ u, (u, S lo)) next;
  ex_reach : ∀ u d, (u, d) ∈ queue → (d ≤ maxCanonicalDepth)%nat ∧ reaches value d u;
  ex_clean : ∀ u d, (u, d) ∈ visited → clean u;
  ex_next : ∀ v d u, (v, d) ∈ visited → (d < maxCanonicalDepth)%nat → decodes_to v u →
    ∃ d', (u, d') ∈ visited ++ queue ∧ (d' ≤ S d)%nat;
  ex_size : (size seen ≤ maxCanonicalValues)%nat }.

Lemma explored_level value lo visited queue seen v d :
  explored value lo visited ((v, d) :: queue) seen → explored value d visited ((v, d) :: queue) seen.
Proof using Type.
  clear named.
  intros []. destruct ex_queue0 as (now & next & E).
  destruct now as [|v' now]; [|injection E as -> -> E; split; try done; by exists (v' :: now), next; cbn; f_equal].
  destruct next as [|v' next]; [done|]. injection E as -> -> ->. split; try done.
  - intros u d ?%ex_low0. lia.
  - exists (v' :: next), []. cbn. by rewrite app_nil_r.
Qed.

Lemma elem_all (visited queue : list (string * nat)) vd x :
  x ∈ visited ++ vd :: queue ↔ x ∈ (visited ++ [vd]) ++ queue.
Proof using Type. by rewrite <- (assoc_L (++)). Qed.

(** A value that is visited at the last depth. *)
Lemma explored_leaf value lo visited queue seen v d :
  explored value lo visited ((v, d) :: queue) seen → clean v → (maxCanonicalDepth ≤ d)%nat →
  explored value d (visited ++ [(v, d)]) queue seen.
Proof using Type.
  clear named.
  intros Hx%explored_level Hc Hd. destruct Hx as [Hs Hroot Hlow (now & next & Eq) Hr Hcl Hn Hsz].
  assert (∃ now next, queue = map (λ u, (u, d)) now ++ map (λ u, (u, S d)) next) as Hq.
  { destruct now as [|v' now]; [|injection Eq as -> Eq; by exists now, next].
    destruct next as [|v' next]; [done|]. cbn in Eq. injection Eq as _ E _. lia. }
  split; [| | |done| | | |done].
  - intros u. rewrite Hs. by setoid_rewrite elem_all.
  - by apply elem_all.
  - intros u d' [Hu|Hu%list_elem_of_singleton]%elem_of_app; [by eapply Hlow|]. by injection Hu as -> ->.
  - intros u d' Hu. apply Hr. by right.
  - intros u d' [Hu|Hu%list_elem_of_singleton]%elem_of_app; [by eapply Hcl|]. by injection Hu as -> ->.
  - intros v' d' u [Hu|Hu%list_elem_of_singleton]%elem_of_app Hlt Hdec; [|injection Hu as -> ->; lia].
    setoid_rewrite <- elem_all. by eapply Hn.
Qed.

Lemma explored_node value lo visited queue seen total v d ds queue' seen' total' :
  explored value lo visited ((v, d) :: queue) seen → clean v → (d < maxCanonicalDepth)%nat →
  canonicalDecodings v = Some ds → enqueue v d ds queue seen total = Some (queue', seen', total') →
  explored value d (visited ++ [(v, d)]) queue' seen' ∧
  (length queue' + (maxCanonicalValues - size seen') = length queue + (maxCanonicalValues - size seen))%nat.
Proof using Type.
  clear named.
  intros Hx%explored_level Hc Hd Hds (new & -> & Eseen & Hlen & Hsz' & Hnew & Hall)%enqueue_spec.
  destruct Hx as [Hs Hroot Hlow (now & next & Eq) Hr Hcl Hn Hsz]. specialize (Hsz' Hsz).
  split; [|rewrite length_app, length_map; lia].
  assert (∃ now next, queue ++ map (λ u, (u, S d)) new = map (λ u, (u, d)) now ++ map (λ u, (u, S d)) next) as Hq.
  { destruct now as [|v' now].
    - destruct next as [|v' next]; [done|]. cbn in Eq. injection Eq as _ E _. lia.
    - injection Eq as -> Eq. exists now, (next ++ new). by rewrite Eq, map_app, (assoc_L (++)). }
  assert (∀ x, x ∈ visited ++ (v, d) :: queue → x ∈ (visited ++ [(v, d)]) ++ queue ++ map (λ u, (u, S d)) new) as Hmono.
  { intros x Hin%elem_all. rewrite (assoc_L (++)). apply elem_of_app. by left. }
  assert (∀ u, u ∈ new → (u, S d) ∈ (visited ++ [(v, d)]) ++ queue ++ map (λ u, (u, S d)) new) as Hadd.
  { intros u Hu. rewrite (assoc_L (++)). apply elem_of_app. right. by apply (list_elem_of_fmap_2 (λ u, (u, S d))). }
  split; [| | |done| | | |done].
  - intros u. rewrite Eseen, elem_of_union, elem_of_list_to_set, Hs. split.
    + intros [Hu|[d' Hu]]; [by exists (S d); apply Hadd|by exists d'; apply Hmono].
    + intros (d' & Hu). rewrite (assoc_L (++)) in Hu. apply elem_of_app in Hu as [Hu|Hu].
      * right. exists d'. by apply elem_all.
      * left. apply list_elem_of_fmap in Hu as (u' & [= -> ->] & Hu). done.
  - by apply Hmono.
  - intros u d' [Hu|Hu%list_elem_of_singleton]%elem_of_app; [by eapply Hlow|]. by injection Hu as -> ->.
  - intros u d' [Hu|Hu]%elem_of_app; [apply Hr; by right|].
    apply list_elem_of_fmap in Hu as (u' & [= -> ->] & Hu). split; [lia|]. apply (reach_decoded value d v).
    + apply Hr. by left.
    + destruct (Hnew u' Hu) as (? & ? & ?). by exists ds.
  - intros u d' [Hu|Hu%list_elem_of_singleton]%elem_of_app; [by eapply Hcl|]. by injection Hu as -> ->.
  - intros v' d' u [Hu|Hu%list_elem_of_singleton]%elem_of_app Hlt Hdec.
    + destruct (Hn v' d' u Hu Hlt Hdec) as (d'' & Hin & Hle). exists d''. split; [by apply Hmono|done].
    + injection Hu as -> ->. destruct Hdec as (ds' & E & Hin & Hne & Hnv). assert (ds' = ds) as -> by congruence.
      specialize (Hall u Hin Hne Hnv). rewrite Eseen in Hall. apply elem_of_union in Hall as [Hu%elem_of_list_to_set|Hu].
      * exists (S d). split; [by apply Hadd|done].
      * apply Hs in Hu as [d' Hu]. exists d'. split; [by apply Hmono|].
        apply elem_of_app in Hu as [Hu%Hlow|Hu]; [lia|]. rewrite Eq in Hu. apply elem_of_app in Hu as [Hu|Hu];
          apply list_elem_of_fmap in Hu as (u' & [= -> ->] & _); lia.
Qed.

(** A finding is at a limit, or of a value that the search reaches. *)
Definition justified (field value : string) (f : Finding) : Prop :=
  Code f = "canonical_scan_limit_exceeded" ∨
  ∃ n u, (n ≤ maxCanonicalDepth)%nat ∧ reaches value n u ∧ examine hmac_hex effectTokens field u = Some f.

Lemma scan_loop_spec fuel field value lo visited queue seen total :
  explored value lo visited queue seen → (length queue + (maxCanonicalValues - size seen) < fuel)%nat →
  ∃ r, scan_loop hmac_hex effectTokens fuel field queue seen total = Some r ∧
    (∀ f, r = Some f → justified field value f) ∧
    (r = None → ∃ lo visited' seen', explored value lo visited' [] seen').
Proof using named.
  revert lo visited queue seen total. induction fuel as [|fuel IH]; intros lo visited queue seen total Hx Hf; [lia|].
  destruct queue as [|[v d] queue]; cbn [scan_loop].
  { exists None. split_and!; [done..|]. intros _. by exists lo, visited, seen. }
  assert ((d ≤ maxCanonicalDepth)%nat ∧ reaches value d v) as [Hd Hv] by (eapply ex_reach; [done|by left]).
  destruct (examine hmac_hex effectTokens field v) as [f|] eqn:Ex.
  { exists (Some f). split_and!; [done| |done]. intros f' [= <-]. right. by exists d, v. }
  apply examine_clean in Ex.
  assert (∃ r, Some (Some (limited "canonical_scan_limit_exceeded" field)) = Some r ∧
    (∀ f, r = Some f → justified field value f) ∧ (r = None → ∃ lo visited' seen', explored value lo visited' [] seen')) as Hlim.
  { eexists. split_and!; [done| |done]. intros f [= <-]. by left. }
  cbn [length] in Hf. destruct (Nat.leb_spec maxCanonicalDepth d) as [Hge|Hlt].
  { eapply IH; [by eapply explored_leaf|lia]. }
  destruct (canonicalDecodings v) as [ds|] eqn:Eds; [|done].
  destruct (enqueue v d ds queue seen total) as [[[queue' seen'] total']|] eqn:Eq; [|done].
  destruct (explored_node _ _ _ _ _ _ _ _ _ _ _ _ Hx Ex Hlt Eds Eq) as [Hx' Hlen]. eapply IH; [done|lia].
Qed.

Lemma explored_start value : explored value 0 [] [(value, 0%nat)] {[value]}.
Proof using Type.
  clear named.
  split; cbn.
  - intros u. rewrite elem_of_singleton. split; [intros ->; exists 0%nat; by left|]. by intros (d & [= -> ->]%list_elem_of_singleton).
  - by left.
  - by intros u d ?%elem_of_nil.
  - by exists [value], [].
  - intros u d [= -> ->]%list_elem_of_singleton. split; [lia|constructor].
  - by intros u d ?%elem_of_nil.
  - by intros v d u ?%elem_of_nil.
  - rewrite size_singleton. unfold maxCanonicalValues. lia.
Qed.

Lemma explored_all value lo visited seen n u :
  explored value lo visited [] seen → (n ≤ maxCanonicalDepth)%nat → reaches value n u → clean u.
Proof using Type.
  clear named.
  intros [] Hn Hr. rewrite app_nil_r in *.
  assert (∃ d, (d ≤ n)%nat ∧ (u, d) ∈ visited) as (d & _ & Hin); [|by eapply ex_clean0].
  induction Hr as [|n v u Hr IH Hdec]; [by exists 0%nat|].
  destruct (IH ltac:(lia)) as (d & Hd & Hin). destruct (ex_next0 v d u Hin ltac:(lia) Hdec) as (d' & Hin' & ?).
  exists d'. split; [lia|done].
Qed.

(** What a scan of one value tells. *)
Lemma scanValue_spec field value limit :
  ∃ r, scanValue hmac_hex effectTokens field value limit = Some r ∧
    (∀ f, r = Some f → (Code f = "scan_limit_exceeded" ∧ limit < slen value) ∨ justified field value f) ∧
    (r = None → slen value ≤ limit ∧ ∀ n u, (n ≤ maxCanonicalDepth)%nat → reaches value n u → clean u).
Proof using named.
  unfold scanValue. destruct (Z.ltb_spec limit (slen value)).
  { eexists. split_and!; [done| |done]. intros f [= <-]. by left. }
  destruct (scan_loop_spec scan_fuel field value 0 [] [(value, 0%nat)] {[value]} (slen value) (explored_start value))
    as (r & -> & Hj & Hc).
  { rewrite size_singleton. unfold scan_fuel, maxCanonicalValues. cbn. lia. }
  exists r. split_and!; [done| |].
  - intros f Hf. right. auto.
  - intros (lo & visited & seen & Hx)%Hc. split; [done|]. intros n u. by eapply explored_all.
Qed.
End Search.

(** ** Properties *)

Lemma scan_loop_more {K} hmac_hex (effectTokens : list (string * K)) fuel fuel' field queue seen total r :
  scan_loop hmac_hex effectTokens fuel field queue seen total = Some r → (fuel ≤ fuel')%nat →
  scan_loop hmac_hex effectTokens fuel' field queue seen total = Some r.
Proof.
  revert fuel' queue seen total. induction fuel as [|fuel IH]; intros [|fuel'] queue seen total E Hle; try done; [lia|].
  cbn [scan_loop] in *. destruct queue as [|[v d] queue]; [done|]. destruct (examine _ _ field v); [done|].
  destruct (_ <=? _)%nat; [apply IH; [done|lia]|]. destruct (canonicalDecodings v); [|done].
  destruct (enqueue _ _ _ _ _ _) as [[[? ?] ?]|]; [|done]. apply IH; [done|lia].
Qed.

(** The search through the decodings of a value ends: it visits at most 256
    values, and allowing it more steps does not change its answer. *)
Theorem scan_terminates {K} (hmac_hex : K → string → string) effectTokens field value :
  (∀ fp key, (fp, key) ∈ effectTokens → fp ≠ "") →
  ∃ r, ∀ fuel, (257 ≤ fuel)%nat →
    scan_loop hmac_hex effectTokens fuel field [(value, 0%nat)] {[value]} (slen value) = Some r.
Proof.
  intros named.
  destruct (scan_loop_spec hmac_hex effectTokens named scan_fuel field value 0 [] [(value, 0%nat)] {[value]}
              (slen value) (explored_start _ _ value)) as (r & E & _).
  { rewrite size_singleton. unfold scan_fuel, maxCanonicalValues. cbn. lia. }
  exists r. intros fuel Hf. by eapply scan_loop_more.
Qed.

Definition at_limit (f : Finding) : Prop :=
  Code f = "scan_limit_exceeded" ∨ Code f = "canonical_scan_limit_exceeded".

(** A text the scanner looks at: a field, or the fields one after the other. *)
Definition scanned (segments : list Segment) (text : string) : Prop :=
  (∃ s, s ∈ segments ∧ text = Value s) ∨ (segments ≠ [] ∧ text = combine segments).

Definition all_clean {K} (hmac_hex : K → string → string) effectTokens (text : string) : Prop :=
  ∀ n u, (n ≤ 2)%nat → reaches text n u → clean hmac_hex effectTokens u.

Section Segments.
Context {K : Type}.
Variable hmac_hex : K → string → string.
Variable effectTokens : list (string * K).
Hypothesis named : ∀ fp key, (fp, key) ∈ effectTokens → fp ≠ "".

(** Why a text is refused. *)
Definition reason (text : string) (f : Finding) : Prop :=
  at_limit f ∨ ∃ n u, (n ≤ 2)%nat ∧ reaches text n u ∧ ¬ clean hmac_hex effectTokens u.

Lemma scanValue_reason field value :
  ∃ r, scanValue hmac_hex effectTokens field value MaxFieldBytes = Some r ∧
    (∀ f, r = Some f → reason value f) ∧ (r = None → all_clean hmac_hex effectTokens value).
Proof using named.
  destruct (scanValue_spec hmac_hex effectTokens named field value MaxFieldBytes) as (r & E & Hf & Hn).
  exists r. split_and!; [done| |].
  - intros f [[? _]|[?|(n & u & ? & ? & Ex)]]%Hf; [by left; left|by left; right|].
    right. exists n, u. split_and!; [done..|]. intros Hc%(examine_clean _ _ named field). congruence.
  - intros [_ ?]%Hn. done.
Qed.

Lemma scan_segments_spec segments combined :
  ∃ r, scan_segments hmac_hex effectTokens segments combined = Some r ∧
    (∀ f, r = Some f → at_limit f ∨ ∃ s, s ∈ segments ∧ reason (Value s) f) ∧
    (r = None → ∀ s, s ∈ segments → all_clean hmac_hex effectTokens (Value s)).
Proof using named.
  revert combined. induction segments as [|s segments IH]; intros combined; cbn [scan_segments].
  { exists None. split_and!; try done. by intros _ s ?%elem_of_nil. }
  destruct (scanValue_reason (Name s) (Value s)) as (r & -> & Hf & Hc). destruct r as [f|].
  { exists (Some f). split_and!; [done| |done]. intros f' [= <-]. right. exists s. split; [by left|auto]. }
  destruct (_ <? _). { eexists. split_and!; [done| |done]. intros f [= <-]. by left; left. }
  destruct (IH (combined +:+ Value s)) as (r & E & Hf' & Hc'). exists r. split_and!; [done| |].
  - intros f [?|(s' & ? & ?)]%Hf'; [by left|right]. exists s'. split; [by right|done].
  - intros Hr s' [->|Hs]%elem_of_cons; [by apply Hc|by apply Hc'].
Qed.

(** What the scan of a sequence of fields tells. *)
Lemma Sequence_spec segments :
  ∃ r, Sequence hmac_hex effectTokens segments = Some r ∧
    (r = None → ∀ text, scanned segments text → all_clean hmac_hex effectTokens text) ∧
    (∀ f, r = Some f → at_limit f ∨ ∃ text, scanned segments text ∧ reason text f).
Proof using named.
  unfold Sequence. destruct (scan_segments_spec segments "") as (r & -> & Hf & Hc). destruct r as [f|].
  { exists (Some f). split_and!; [done..|]. intros f' [= <-]. destruct (Hf f eq_refl) as [?|(s & ? & ?)]; [by left|].
    right. exists (Value s). split; [left; by exists s|done]. }
  specialize (Hc eq_refl). destruct (1 <? length segments)%nat eqn:El.
  - destruct (scanValue_reason "field_sequence" (combine segments)) as (r & -> & Hf' & Hc'). exists r. split_and!; [done| |].
    + intros Hr text [(s & Hs & ->)|[_ ->]]; auto.
    + intros f Hr. right. exists (combine segments). split; [right; split; [by intros ->|done]|auto].
  - exists None. split_and!; [done| |done]. intros _ text [(s & Hs & ->)|[Hne ->]]; [auto|].
    destruct segments as [|s [|]]; [done| |done]. apply (Hc s). by left.
Qed.

(** C31: the scanner always answers; it passes a sequence of fields only when
    neither a field nor their concatenation, nor anything up to two layers of
    percent, hexadecimal or Base64 decoding away from these, has the shape of a
    credential or is an effect token; and it refuses one only for such a value
    or at a size limit. *)
Theorem Sequence_sound segments :
  ∃ r, Sequence hmac_hex effectTokens segments = Some r ∧
    (r = None → ∀ text, scanned segments text → all_clean hmac_hex effectTokens text) ∧
    (∀ f, r = Some f → at_limit f ∨ ∃ text, scanned segments text ∧ reason text f).
Proof using named. apply Sequence_spec. Qed.
End Segments.

Lemma scan_terminates_witness :
  ∃ r, ∀ fuel, (257 ≤ fuel)%nat →
    scan_loop (λ (_ : unit) t, t) [("fp", ())] fuel "body" [("hello %41", 0%nat)] {["hello %41"]} 9 = Some r.
Proof.
  apply (scan_terminates (λ (_ : unit) t, t) [("fp", ())] "body" "hello %41").
  intros fp key [= -> ->]%list_elem_of_singleton. done.
Defined.

Definition split_token : list Segment :=
  [{| Name := "title"; Value := "ghp_abcdefghij" |}; {| Name := "body"; Value := "klmnopqrstuv" |}].

Lemma Sequence_sound_witness :
  option_map Code <$> Sequence (λ (_ : unit) t, t) [] split_token = Some (Some "github_token") ∧
  ∃ text, scanned split_token text ∧
    reason (λ (_ : unit) t, t) [] text {| Code := "github_token"; Field := "field_sequence"; Fingerprint := "" |}.
Proof.
  split; [by vm_compute|].
  destruct (Sequence_sound (λ (_ : unit) t, t) [] (λ fp key H, match not_elem_of_nil _ H with end) split_token) as (r & E & _ & Hf).
  assert (r = Some {| Code := "github_token"; Field := "field_sequence"; Fingerprint := "" |}) as Hr.
  { assert (Some r = Some (Some {| Code := "github_token"; Field := "field_sequence"; Fingerprint := "" |})) as [= ->]; [|done].
    rewrite <- E. by vm_compute. }
  destruct (Hf _ Hr) as [[?|?]|?]; done.
Defined.
