(* ===== verification/Mutations.v ===== *)
(** * The repository API: what changes GitHub (internal/server)

    The handlers that create pull requests, issues and comments, change labels,
    dismiss reviews and resolve review threads, whole: authentication, the
    request's own checks, the installation, policy, the egress scan, budgets,
    the idempotency record, the call of GitHub, the answer.  The state is the
    idempotency file with the correlation store (of PullCreate) and the budget
    file; clock, operation id, GitHub's answers and faults are the request's
    environment.  A handler gives the calls it made along with its answer.
    Audit records are left out. *)

From stdpp Require Import pretty.
From S2P Require Import Prelude GoStrings GoTime GoJson Net Http Policy GitTransport ReadAccess RepoApi.
From S2P Require Import GitHubApi PullCreate Idempotency Limits SecurityScan.
Open Scope string_scope.
Open Scope list_scope.
Open Scope Z_scope.

(** ** The server, its state, and what surrounds a request *)

Record server := {
  cfg : GitTransport.Config; path_set : bool; limits_cfg : MutationLimitsConfig; correlated : bool }.

Record state := { files : PullCreate.state; budgets : gmap string runState }.
Definition records (s : state) : gmap string (Record_ reply_body) := idem (files s).
Definition with_records (s : state) (r : gmap string (Record_ reply_body)) : state :=
  {| files := {| idem := r; corr := corr (files s) |}; budgets := budgets s |}.

Record request_env := {
  e_op : string; e_now : time;
  e_gh : github;
  e_mutate : mutation → option reply_body;
  e_comments : string → string → Z → Z → nat → option (list IssueComment);
  e_verify : string → option (Z * option (option verifiedCapability));
  e_get_pull : Z → option GitHubResult;
  e_list : nat → string → string → option (list OpenPull);
  e_budget : fault; e_load : fault; e_reserve : fault; e_store : fault; e_lookup : fault; e_record : fault }.

Inductive answer :=
| Refused (code : string)
| Done (r : reply_body)
| Stored (r : option reply_body)
| Nothing.

Definition outcome : Type := state * list mutation * response answer.
Definition say (st : Z) (a : answer) : response answer := {| status := st; reply := a |}.
Definition refuse (s : state) (st : Z) (code : string) : outcome := (s, [], say st (Refused code)).

(** What the body decodes to as each request type; [None]: not JSON. *)
Record decoded := {
  as_pull : option PullCreateRequest; as_issue : option IssueCreateRequest;
  as_comment : option CommentCreateRequest; as_labels : option IssueLabelsRequest;
  as_message : option MessageRequest }.

(** ** Labels and comments *)

Fixpoint cleanLabels_from (seen : list string) (labels : list string) : list string :=
  match labels with
  | [] => []
  | label :: labels =>
    let label := trim_space label in
    if (label =? "")%string || bool_decide (label ∈ seen) then cleanLabels_from seen labels
    else label :: cleanLabels_from (label :: seen) labels
  end.
Definition cleanLabels : list string → list string := cleanLabels_from [].

Example clean_labels_ex : cleanLabels [" a "; "b"; ""; "a"; "A"] = ["a"; "b"; "A"].
Proof. by vm_compute. Qed.

Definition issueCommentReconciliationPageLimit : nat := 10.
Definition issueCommentReconciliationClockSkew : Z := 120 * second.

(** Pages [page], [page]+1, ... with [more] of the limit. *)
Fixpoint list_pages (ListIssueComments : nat → option (list IssueComment)) (page more : nat)
    (comments : list IssueComment) : option (list IssueComment) :=
  match more with
  | O => None
  | S more =>
    match ListIssueComments page with
    | None => None
    | Some batch =>
      let comments := comments ++ batch in
      if (length batch <? 100)%nat then Some comments else list_pages ListIssueComments (S page) more comments
    end
  end.
Definition listIssueCommentsForReconciliation (ListIssueComments : nat → option (list IssueComment))
    : option (list IssueComment) :=
  list_pages ListIssueComments 1 issueCommentReconciliationPageLimit [].

Section Server.
Variable re_compile : string → option (string → bool).
Variable sha256_hex : string → string.
Variable parse_time : string → option time.
Context {K : Type}.
Variable hmac_hex : K → string → string.
Variable effectTokens : list (string * K).

(** Can the comment be one created under the reservation? *)
Definition comment_matches (body : string) (reservedAt : time) (c : IssueComment) : bool :=
  match parse_time (ic_CreatedAt c) with
  | None => false
  | Some createdAt =>
    if createdAt <? time_add reservedAt (- issueCommentReconciliationClockSkew) then false
    else (ic_Body c =? body)%string && negb (ic_Author c =? "")%string
  end.

Fixpoint find_comment (body : string) (reservedAt : time) (found : option IssueComment)
    (comments : list IssueComment) : result unit (option IssueComment) :=
  match comments with
  | [] => Ok found
  | c :: comments =>
    if comment_matches body reservedAt c then
      match found with
      | Some _ => Err ()
      | None => find_comment body reservedAt (Some c) comments
      end
    else find_comment body reservedAt found comments
  end.

Definition comment_result (c : IssueComment) : GitHubResult :=
  {| URL := ic_URL c; HTMLURL := ic_HTMLURL c; Number := 0; ID := ic_ID c; g_CreatedAt := ic_CreatedAt c |}.

Definition reconcilePendingComment (comments : list IssueComment) (body : string) (reservedAt : time)
    : result unit (option GitHubResult) :=
  match find_comment body reservedAt None comments with
  | Err e => Err e
  | Ok found => Ok (comment_result <$> found)
  end.

Definition commentRequestDigest (repo issue : string) (req : CommentCreateRequest) : string :=
  sha256_hex (json_object
    [("repo", json_string repo); ("issue", json_string issue);
     ("request", json_object ([("body", json_string (cc_Body req))]
        ++ when (negb (size (cc_Metadata req) =? 0)%nat) "metadata" (json_params (cc_Metadata req))
        ++ when (negb (is_nil (cc_Permissions req))) "permissions" (json_strings (cc_Permissions req))))]).

Definition comment_key (agentID repo issueNumber key : string) : string :=
  "issue.comment:" +:+ agentID +:+ ":" +:+ repo +:+ ":" +:+ issueNumber +:+ ":" +:+ idempotencyKeyDigest sha256_hex key.

(** ** The steps the handlers share *)

Section Steps.
Variable srv : server.
Variable e : request_env.
Variable h : gmap string (list string).

Definition with_number (s : state) (raw : string) (k : Z → outcome) : outcome :=
  match parsePositiveInt raw with None => refuse s 400 "invalid_request" | Some n => k n end.

Definition with_principal (s : state) (k : Agent → string → outcome) : outcome :=
  match AuthenticateAgent h (cfg srv) with
  | None => refuse s 401 "unauthorized"
  | Some (agent, id) => k agent id
  end.

Definition with_json {R} (s : state) (body : option R) (k : R → outcome) : outcome :=
  match body with None => refuse s 400 "invalid_json" | Some req => k req end.

Definition required (s : state) (text : string) (k : outcome) : outcome :=
  if (trim_space text =? "")%string then refuse s 400 "invalid_request" else k.

Definition with_installation (s : state) (agent : Agent) (repo : string) (k : Z → outcome) : outcome :=
  match InstallationIDForApp (cfg srv) (GitHubAppName agent) repo with
  | None => refuse s 403 "installation_not_configured"
  | Some inst => k inst
  end.

Definition permitted_request (agent : Agent) (id repo operation head base : string) (permissions : list string)
    (metadata : gmap string string) (locations : gmap string (gmap string string)) : Request :=
  {| req_Agent := policy_agent agent; req_AgentID := id; req_Repo := repo; req_Operation := operation;
     req_Branch := head; req_BaseBranch := base; req_Permissions := permissions; req_Metadata := metadata;
     req_Locations := locations |}.

Definition with_policy (s : state) (req : Request) (k : outcome) : outcome :=
  if negb (Policy.Allowed (Check re_compile req)) then refuse s 403 "policy_denied" else k.

Definition clean_egress (fields : list Segment) : bool :=
  match Sequence hmac_hex effectTokens fields with Some None => true | _ => false end.

Definition blockUnsafeEgress (s : state) (fields : list Segment) (k : outcome) : outcome :=
  if negb (clean_egress fields) then refuse s 422 "security_egress_blocked" else k.

Definition reserveMutation (s : state) (operation : string) (metadata : gmap string string) (k : state → outcome)
    : outcome :=
  let '(b, d) := CheckAndReserve (limits_cfg srv) (e_budget e) (budgets s) operation metadata in
  let s := {| files := files s; budgets := b |} in
  match d with
  | Err _ => refuse s 500 "mutation_limit_error"
  | Ok d => if Limits.Allowed d then k s else refuse s 429 "capacity_deferred"
  end.

Definition idempotencyHeader : string := trim_space (header_get h "Idempotency-Key").
Definition idempotencyKey (fallback : string) : string :=
  if negb (idempotencyHeader =? "")%string then idempotencyHeader else fallback.

Definition replayIdempotent (s : state) (key : string) (k : outcome) : outcome :=
  match Load (e_load e) (path_set srv) (records s) key with
  | Err _ => refuse s 500 "idempotency_error"
  | Ok (Some rec) => (s, [], say (Status rec) (Stored (Body rec)))
  | Ok None => k
  end.

(** writeIdempotentJSON and writeExactIdempotentJSON, after the calls [sent];
    the former leaves the digest empty. *)
Definition writeExactIdempotentJSON (s : state) (sent : list mutation) (key operation digest : string) (st : Z)
    (out : reply_body) : outcome :=
  let rec := {| CreatedAt := zero_time; Operation := operation; RequestDigest := digest; Status := st;
                Body := Some out; Pending := false; SemanticBody := "" |} in
  match Store (e_store e) (path_set srv) (e_now e) (records s) key rec with
  | (r, Err _) => (with_records s r, sent, say 500 (Refused "idempotency_error"))
  | (r, Ok _) => (with_records s r, sent, say st (Done out))
  end.
Definition writeIdempotentJSON (s : state) (sent : list mutation) (key operation : string) (st : Z)
    (out : reply_body) : outcome := writeExactIdempotentJSON s sent key operation "" st out.

Definition call_github (s : state) (m : mutation) (k : reply_body → outcome) : outcome :=
  match e_mutate e m with
  | None => (s, [m], say 502 (Refused "github_error"))
  | Some out => k out
  end.

(** The calls of the handlers whose only record is of the response. *)
Definition once_recorded (s : state) (key operation : string) (m : mutation) : outcome :=
  replayIdempotent s key
    (call_github s m (λ out, writeIdempotentJSON s [m] key operation 200 out)).

(** ** The handlers *)

Definition handlePullReviewDismiss (s : state) (repo rawNumber rawReviewID : string)
    (body : option MessageRequest) : outcome :=
  with_number s rawNumber (λ number,
  let reviewID := trim_space rawReviewID in
  if (reviewID =? "")%string then refuse s 400 "invalid_request" else
  with_principal s (λ agent id,
  with_json s body (λ req,
  required s (mr_Message req) (
  with_installation s agent repo (λ inst,
  with_policy s (permitted_request agent id repo "pull.review.dismiss" "" "" (mr_Permissions req) (mr_Metadata req)
                   {["request" := mr_Metadata req]}) (
  blockUnsafeEgress s [{| Name := "message"; Value := mr_Message req |}] (
  let appName := GitHubAppName agent in
  let key := idempotencyKey ("pull.review.dismiss:" +:+ repo +:+ ":" +:+ pretty number +:+ ":" +:+ reviewID) in
  once_recorded s key "pull.review.dismiss"
    (match Atoi reviewID with
     | Some numeric => if 0 <? numeric then DismissPullReview appName repo inst number numeric (mr_Message req)
                       else DismissPullReviewNode appName inst reviewID (mr_Message req)
     | None => DismissPullReviewNode appName inst reviewID (mr_Message req)
     end)))))))).

Definition handlePullReviewThreadResolve (s : state) (repo rawNumber threadID : string)
    (body : option MessageRequest) : outcome :=
  with_number s rawNumber (λ number,
  required s threadID (
  with_principal s (λ agent id,
  with_json s body (λ req,
  required s (mr_Message req) (
  with_installation s agent repo (λ inst,
  with_policy s (permitted_request agent id repo "pull.review_thread.resolve" "" "" (mr_Permissions req)
                   (mr_Metadata req) {["request" := mr_Metadata req]}) (
  blockUnsafeEgress s [{| Name := "message"; Value := mr_Message req |}] (
  let key := idempotencyKey ("pull.review_thread.resolve:" +:+ repo +:+ ":" +:+ pretty number +:+ ":" +:+ threadID) in
  once_recorded s key "pull.review_thread.resolve"
    (ResolvePullReviewThread (GitHubAppName agent) inst threadID (mr_Message req)))))))))).

Definition handleIssueLabelsAdd (s : state) (repo rawNumber : string) (body : option IssueLabelsRequest) : outcome :=
  with_number s rawNumber (λ number,
  with_principal s (λ agent id,
  with_json s body (λ req,
  let labels := cleanLabels (il_Labels req) in
  if is_nil labels then refuse s 400 "invalid_request" else
  with_installation s agent repo (λ inst,
  with_policy s (permitted_request agent id repo "issue.label.add" "" "" (il_Permissions req) (il_Metadata req)
                   {["request" := il_Metadata req]}) (
  let key := idempotencyKey ("issue.label.add:" +:+ repo +:+ ":" +:+ pretty number +:+ ":" +:+ join "," labels) in
  once_recorded s key "issue.label.add" (AddIssueLabels (GitHubAppName agent) repo inst number labels)))))).

Definition handleIssueLabelRemove (s : state) (repo rawNumber rawLabel : string) : outcome :=
  with_number s rawNumber (λ number,
  match path_unescape rawLabel with
  | None => refuse s 400 "invalid_request"
  | Some label =>
    required s label (
    let label := trim_space label in
    with_principal s (λ agent id,
    with_installation s agent repo (λ inst,
    with_policy s (permitted_request agent id repo "issue.label.remove" "" "" [] ∅ ∅) (
    let key := idempotencyKey ("issue.label.remove:" +:+ repo +:+ ":" +:+ pretty number +:+ ":" +:+ label) in
    once_recorded s key "issue.label.remove" (RemoveIssueLabel (GitHubAppName agent) repo inst number label)))))
  end).

Definition label_segments (labels : list string) : list Segment :=
  imap (λ i label, {| Name := "labels[" +:+ pretty (Z.of_nat i) +:+ "]"; Value := label |}) labels.

Definition handleIssueCreate (s : state) (repo : string) (body : option IssueCreateRequest) : outcome :=
  with_principal s (λ agent id,
  with_json s body (λ req,
  required s (is_Title req) (
  required s (is_Body req) (
  with_installation s agent repo (λ inst,
  let enriched := WithBrokerFields (is_Metadata req) id (e_op e) inst in
  with_policy s (permitted_request agent id repo "issue.create" "" "" (is_Permissions req) (is_Metadata req)
                   (<["request" := is_Metadata req]> {["issue_body" := enriched]})) (
  let text := is_Body req +:+ RenderBlock enriched in
  blockUnsafeEgress s ([{| Name := "title"; Value := is_Title req |}; {| Name := "body"; Value := text |}]
                       ++ label_segments (is_Labels req)) (
  reserveMutation s "issue.create" (is_Metadata req) (λ s,
  let m := CreateIssue (GitHubAppName agent) repo inst (is_Title req) text (is_Labels req) in
  call_github s m (λ out, (s, [m], say 201 (Done out))))))))))).

(** ** Pull requests *)

Definition the_result (r : option reply_body) : option GitHubResult :=
  match r with Some (RResult g) => Some g | _ => None end.

Definition answer_of (r : pc_reply) : answer :=
  match r with
  | PcError code => Refused code
  | PcPull g => Done (RResult g)
  | PcStored b => Stored b
  | PcEmpty => Nothing
  end.

(** The environment of pullCreateWithCorrelation; [create] is CreatePull of a body. *)
Definition attempt_of (create : string → mutation) : attempt_env :=
  {| ev_verify := e_verify e; ev_get_pull := e_get_pull e; ev_list := e_list e;
     ev_create := λ body, the_result (e_mutate e (create body)); ev_now := e_now e;
     ev_reserve := e_reserve e; ev_lookup := e_lookup e; ev_record := e_record e; ev_store := e_store e |}.

Definition guarded_branch (s : state) (agent : Agent) (inst : Z) (repo branch : string) (k : outcome) : outcome :=
  match checkBranchLifecycle (e_gh e) (GitHubAppName agent) inst repo branch "pull.create" agent with
  | Some guard => if negb (Policy.Allowed guard) then refuse s 403 "policy_denied" else k
  | None => k
  end.

Definition handlePullCreate (s : state) (repo : string) (body : option PullCreateRequest) : outcome :=
  with_principal s (λ agent id,
  with_json s body (λ req,
  with_installation s agent repo (λ inst,
  let enriched := WithBrokerFields (Metadata req) id (e_op e) inst in
  with_policy s (permitted_request agent id repo "pull.create" (Head req) (Base req) (Permissions req) (Metadata req)
                   (<["request" := Metadata req]> {["pr_body" := enriched]})) (
  let text := ReqBody req +:+ RenderBlock enriched in
  blockUnsafeEgress s [{| Name := "title"; Value := Title req |}; {| Name := "body"; Value := text |};
                       {| Name := "head"; Value := Head req |}; {| Name := "base"; Value := Base req |}] (
  guarded_branch s agent inst repo (Head req) (
  reserveMutation s "pull.create" (Metadata req) (λ s,
  let create body := CreatePull (GitHubAppName agent) repo inst (Title req) (Head req) (Base req) body (Draft req) in
  if correlated srv then
    let '(f, created, r) :=
      pullCreateWithCorrelation sha256_hex (attempt_of create) (path_set srv) (files s)
        {| c_AgentID := id; c_Request := req; c_Repo_ := repo; c_Inst := inst |}
        (header_get h "X-Agent-Capability") (header_get h "Idempotency-Key") in
    ({| files := f; budgets := budgets s |}, map create created, say (pc_status r) (answer_of (pc_reply_ r)))
  else
    call_github s (create text) (λ out, (s, [create text], say 201 (Done out)))))))))).

(** ** Comments *)

(** The last part: create and record. *)
Definition create_comment (s : state) (appName repo issueNumber : string) (inst : Z)
    (scopedKey digest body : string) : outcome :=
  let m := CreateIssueComment appName repo issueNumber inst body in
  call_github s m (λ out, writeExactIdempotentJSON s [m] scopedKey "issue.comment" digest 201 out).

Definition handleCommentCreate (s : state) (repo issueNumber : string) (body : option CommentCreateRequest) : outcome :=
  with_principal s (λ agent id,
  with_json s body (λ req,
  with_installation s agent repo (λ inst,
  with_policy s (permitted_request agent id repo "issue.comment" "" "" (cc_Permissions req) (cc_Metadata req)
                   (<["request" := cc_Metadata req]> {["comment_body" := cc_Metadata req]})) (
  let body := cc_Body req in
  blockUnsafeEgress s [{| Name := "body"; Value := body |}] (
  let key := idempotencyHeader in
  if (key =? "")%string then refuse s 400 "idempotency_key_required" else
  let requestDigest := commentRequestDigest repo issueNumber req in
  if (requestDigest =? "")%string then refuse s 400 "invalid_request" else
  let scopedKey := comment_key id repo issueNumber key in
  let appName := GitHubAppName agent in
  match ReserveExact (e_reserve e) (path_set srv) (e_now e) (records s) scopedKey "issue.comment" requestDigest body with
  | (r, Err _) => refuse (with_records s r) 500 "idempotency_error"
  | (r, Ok (rec, found, conflict)) =>
    let s := with_records s r in
    if conflict then refuse s 409 "idempotency_key_conflict" else
    match found, rec with
    | true, Some rec =>
      if negb (Pending rec) then (s, [], say (Status rec) (Stored (Body rec))) else
      let body := SemanticBody rec in
      match Atoi issueNumber with
      | None => refuse s 400 "invalid_request"
      | Some commentNumber =>
        if commentNumber <? 1 then refuse s 400 "invalid_request" else
        match listIssueCommentsForReconciliation (e_comments e appName repo inst commentNumber) with
        | None => refuse s 502 "github_error"
        | Some comments =>
          match reconcilePendingComment comments body (CreatedAt rec) with
          | Err _ => refuse s 409 "comment_reconciliation_ambiguous"
          | Ok (Some g) => writeExactIdempotentJSON s [] scopedKey "issue.comment" requestDigest 201 (RResult g)
          | Ok None => create_comment s appName repo issueNumber inst scopedKey requestDigest body
          end
        end
      end
    | _, _ => create_comment s appName repo issueNumber inst scopedKey requestDigest body
    end
  end))))).

(** ** Dispatch *)

(** [None]: the endpoints of RepoApi and CIStatus, which read. *)
Definition serve (s : state) (method path : string) (b : decoded) : option outcome :=
  match handleRepoAPI method path with
  | None => Some (refuse s 404 "not found")
  | Some (repo, ep) =>
    match ep with
    | RepoApi.PullCreate => Some (handlePullCreate s repo (as_pull b))
    | PullReviewDismiss n id => Some (handlePullReviewDismiss s repo n id (as_message b))
    | PullReviewThreadResolve n id => Some (handlePullReviewThreadResolve s repo n id (as_message b))
    | IssueCreate => Some (handleIssueCreate s repo (as_issue b))
    | CommentCreate n => Some (handleCommentCreate s repo n (as_comment b))
    | IssueLabelsAdd n => Some (handleIssueLabelsAdd s repo n (as_labels b))
    | IssueLabelRemove n l => Some (handleIssueLabelRemove s repo n l)
    | _ => None
    end
  end.
End Steps.
End Server.
