(* ===== verification/MutationGate.v ===== *)
(** * What reaches GitHub, and what a refusal leaves behind

    The handlers of Mutations send at most one call per request, and only after
    every gate; a refused request changes no record.  The clean texts of pending
    comments are an invariant of the idempotency file. *)

From stdpp Require Import pretty.
From S2P Require Import Prelude GoStrings GoTime Net Http Policy GitTransport ReadAccess RepoApi.
From S2P Require Import GitHubApi PullCreate Idempotency Limits SecurityScan Mutations.
Open Scope string_scope.
Open Scope list_scope.
Open Scope Z_scope.

(** ** The effects of the file's operations *)

Lemma Store_effect {B} fl ps now (st : gmap string (Record_ B)) key rec st' r :
  Store fl ps now st key rec = (st', r) →
  st' = st ∨ ∃ rec', st' = <[key := rec']> st ∧ Pending rec' = Pending rec ∧ Operation rec' = Operation rec.
Proof.
  unfold Store, writeState. destruct (negb ps || _); [intros [= <- _]; by left|].
  destruct (fails fl 0); [intros [= <- _]; by left|].
  destruct (fails fl 1); intros [= <- _]; [by left|right]. eexists. split; [done|]. by case_match.
Qed.

Lemma ReserveExact_effect {B} fl ps now (st : gmap string (Record_ B)) key op digest sb st' r :
  ReserveExact fl ps now st key op digest sb = (st', r) →
  st' = st ∨ (st !! key = None ∧ ∃ rec, r = Ok (Some rec, false, false) ∧ st' = <[key := rec]> st ∧
               Operation rec = op ∧ SemanticBody rec = sb ∧ CreatedAt rec = now).
Proof.
  unfold ReserveExact, writeState. destruct (negb ps || _); [intros [= <- _]; by left|].
  destruct (fails fl 0); [intros [= <- _]; by left|]. destruct (st !! key) as [rec|] eqn:E.
  - destruct (_ || _); intros [= <- _]; by left.
  - destruct (fails fl 1); intros [= <- <-]; [by left|right]. split; [done|]. by eexists.
Qed.

Lemma ReserveExact_found {B} fl ps now (st : gmap string (Record_ B)) key op digest sb st' rec conflict :
  ReserveExact fl ps now st key op digest sb = (st', Ok (Some rec, true, conflict)) →
  st' = st ∧ st !! key = Some rec ∧
  (conflict = false → Operation rec = op ∧ RequestDigest rec = digest ∧ ps = true ∧ key ≠ "").
Proof.
  unfold ReserveExact, writeState. destruct (negb ps || _) eqn:Ep; [done|].
  destruct (fails fl 0); [done|]. destruct (st !! key) as [rec'|] eqn:E; [|by destruct (fails fl 1)].
  destruct (_ || negb (RequestDigest _ =? _)%string) eqn:Eo; intros H; simplify_eq; (split; [done|]); (split; [done|]);
    [done|intros _].
  rewrite !orb_false_iff, !negb_false_iff in *.
  rewrite !String.eqb_eq, !String.eqb_neq in *. by destruct_and!.
Qed.

Lemma ReserveExact_new_or_found {B} fl ps now (st : gmap string (Record_ B)) key op digest sb st' rec found conflict :
  ReserveExact fl ps now st key op digest sb = (st', Ok (rec, found, conflict)) →
  (found = true ∧ ∃ rec', rec = Some rec') ∨ (found = false ∧ conflict = false).
Proof.
  unfold ReserveExact, writeState. destruct (negb ps || _); [intros [= _ <- <- <-]; by right|].
  destruct (fails fl 0); [done|]. destruct (st !! key) as [rec'|].
  - destruct (_ || _); intros [= <- <- <- <-]; left; eauto.
  - destruct (fails fl 1); [done|]. intros [= <- <- <- <-]. by right.
Qed.

(** ** Walking through a handler *)

Section Walk.
Variable re_compile : string → option (string → bool).
Context {K : Type}.
Variable hmac_hex : K → string → string.
Variable effectTokens : list (string * K).
Variables (srv : server) (e : request_env) (h : gmap string (list string)).
Variable Q : outcome → Prop.
Variable f : PullCreate.state.
Hypothesis Hrefuse : ∀ s st code, files s = f → Q (refuse s st code).
Variable s : state.
Hypothesis Hs : files s = f.

Lemma walk_number raw k : (∀ n, parsePositiveInt raw = Some n → Q (k n)) → Q (with_number s raw k).
Proof using Hrefuse Hs. unfold with_number. destruct (parsePositiveInt raw); auto. Qed.

Lemma walk_principal k :
  (∀ agent id, AuthenticateAgent h (cfg srv) = Some (agent, id) → Q (k agent id)) → Q (with_principal srv h s k).
Proof using Hrefuse Hs. unfold with_principal. destruct (AuthenticateAgent h (cfg srv)) as [[]|]; auto. Qed.

Lemma walk_json {R} (body : option R) k : (∀ req, body = Some req → Q (k req)) → Q (with_json s body k).
Proof using Hrefuse Hs. unfold with_json. destruct body; auto. Qed.

Lemma walk_required text k : Q k → Q (required s text k).
Proof using Hrefuse Hs. unfold required. case_match; auto. Qed.

Lemma walk_installation agent repo k :
  (∀ inst, InstallationIDForApp (cfg srv) (GitHubAppName agent) repo = Some inst → Q (k inst)) →
  Q (with_installation srv s agent repo k).
Proof using Hrefuse Hs. unfold with_installation. destruct (InstallationIDForApp _ _ _); auto. Qed.

Lemma walk_policy req k : (permitted re_compile req → Q k) → Q (with_policy re_compile s req k).
Proof using Hrefuse Hs.
  unfold with_policy. intros H. destruct (Policy.Allowed (Check re_compile req)) eqn:E; cbn [negb]; [|auto].
  apply H. by apply allowed_permitted.
Qed.

Lemma walk_egress fields k :
  (clean_egress hmac_hex effectTokens fields = true → Q k) → Q (blockUnsafeEgress hmac_hex effectTokens s fields k).
Proof using Hrefuse Hs. unfold blockUnsafeEgress. destruct (clean_egress _ _ _); cbn [negb]; auto. Qed.

Lemma walk_budget operation md k :
  (∀ b d, CheckAndReserve (limits_cfg srv) (e_budget e) (budgets s) operation md = (b, Ok d) → Limits.Allowed d = true →
     Q (k {| files := f; budgets := b |})) →
  Q (reserveMutation srv e s operation md k).
Proof using Hrefuse Hs.
  unfold reserveMutation. intros H. destruct (CheckAndReserve _ _ _ _ _) as [b [d|err]]; [|auto].
  destruct (Limits.Allowed d) eqn:E; [|auto]. rewrite Hs. by eapply H.
Qed.

Lemma walk_guard agent inst repo branch k : Q k → Q (guarded_branch e s agent inst repo branch k).
Proof using Hrefuse Hs. unfold guarded_branch. intros H. repeat case_match; auto. Qed.

Lemma walk_replay key k :
  (∀ rec, records s !! key = Some rec → Q (s, [], say (Status rec) (Stored (Body rec)))) → Q k →
  Q (replayIdempotent srv e s key k).
Proof using Hrefuse Hs.
  unfold replayIdempotent, Load. intros Hr Hk. destruct (negb (path_set srv) || _); [done|].
  destruct (fails (e_load e) 0); [auto|]. destruct (records s !! key) eqn:E; auto.
Qed.
End Walk.

(** One step of a handler: its condition holds, or the refusal is covered. *)
Ltac walk_by rule := eapply rule; [eassumption | reflexivity | cbv zeta; intros].
Ltac walk :=
  lazymatch goal with
  | |- _ (with_number _ _ _) => walk_by @walk_number
  | |- _ (with_principal _ _ _ _) => walk_by @walk_principal
  | |- _ (with_json _ _ _) => walk_by @walk_json
  | |- _ (required _ _ _) => walk_by @walk_required
  | |- _ (with_installation _ _ _ _ _) => walk_by @walk_installation
  | |- _ (with_policy _ _ _ _) => walk_by @walk_policy
  | |- _ (blockUnsafeEgress _ _ _ _ _) => walk_by @walk_egress
  | |- _ (reserveMutation _ _ _ _ _ _) => walk_by @walk_budget
  | |- _ (guarded_branch _ _ _ _ _ _ _) => walk_by @walk_guard
  end.

(** ** Attempts to create a correlated pull request *)

Lemma attempt_gate sha e ps s c capability key s' created resp :
  pullCreateWithCorrelation sha e ps s c capability key = (s', created, resp) →
  (created = [] ∨ created = [body_of c (operation_of sha c (trim_space key))]) ∧
  (∀ k rec, idem s' !! k = Some rec → idem s !! k = Some rec ∨ Operation rec = "pull.create") ∧
  (400 ≤ pc_status resp < 500 → created = [] ∧ s' = s).
Proof.
  intros H. apply attempt_cases in H as [(-> & -> & _)|(claims & _ & Hk & idem1 & rec & found & conflict & Er & H)].
  { split_and!; [by left|by left|done]. }
  assert (∀ k r, idem1 !! k = Some r → idem s !! k = Some r ∨ Operation r = "pull.create") as Hi.
  { intros k r. apply ReserveExact_effect in Er as [->|(_ & r' & _ & -> & Ho & _)]; [by left|].
    intros [[_ <-]|[_ ?]]%lookup_insert_Some; [by right|by left]. }
  assert (found = true → {| idem := idem1; corr := corr s |} = s) as Hsame.
  { intros ->. destruct rec as [rec|].
    - apply ReserveExact_found in Er as (-> & _). by destruct s.
    - apply ReserveExact_new_or_found in Er as [[_ [? ?]]|[? _]]; done. }
  cbv zeta in H. destruct H as [(-> & -> & -> & ->)|[(-> & rec' & -> & _ & _ & -> & -> & ->)|(-> & _ & r & Erec & H)]].
  - split_and!; [by left|done|]. intros _. split; [done|]. apply Hsame.
    by apply ReserveExact_new_or_found in Er as [[? _]|[_ ?]].
  - split_and!; [by left|done|]. intros _. by split; [|apply Hsame].
  - apply reconcile_spec in Erec as [Hc _]. split; [destruct Hc as [?|[? _]]; [by left|by right]|].
    destruct r as [[g b]|[]]; [|destruct H as [-> ->]; split; [done|cbn; lia]].
    unfold record_and_answer in H. destruct (Correlation.Record_ _ _ _ _ _ _) as [corr' [row|err]].
    + destruct (Store _ _ _ _ _ _) as [idem' u] eqn:Es. split.
      * intros k r Hr. assert (s' = {| idem := idem'; corr := corr' |}) as -> by (destruct u; congruence). cbn in Hr.
        apply Store_effect in Es as [->|(r' & -> & _ & Ho)]; [by apply Hi|].
        apply lookup_insert_Some in Hr as [[_ <-]|[_ Hr]]; [by right|by apply Hi].
      * destruct u; injection H as <- <-; cbn; lia.
    + injection H as <- <-. split; [done|]. cbn. lia.
Qed.

(** ** The gate *)

Definition operation_of_call (m : mutation) : string :=
  match m with
  | CreatePull _ _ _ _ _ _ _ _ => "pull.create"
  | GitHubApi.CreateIssue _ _ _ _ _ _ => "issue.create"
  | CreateIssueComment _ _ _ _ _ => "issue.comment"
  | AddIssueLabels _ _ _ _ _ => "issue.label.add"
  | RemoveIssueLabel _ _ _ _ _ => "issue.label.remove"
  | DismissPullReview _ _ _ _ _ _ | DismissPullReviewNode _ _ _ _ => "pull.review.dismiss"
  | ResolvePullReviewThread _ _ _ _ => "pull.review_thread.resolve"
  end.

(** The app and the installation whose token carries the call. *)
Definition addressed (m : mutation) : string * Z :=
  match m with
  | CreatePull a _ i _ _ _ _ _ | GitHubApi.CreateIssue a _ i _ _ _ | CreateIssueComment a _ _ i _
  | AddIssueLabels a _ i _ _ | RemoveIssueLabel a _ i _ _ | GitHubApi.DismissPullReview a _ i _ _ _
  | DismissPullReviewNode a i _ _ | ResolvePullReviewThread a i _ _ => (a, i)
  end.

(** The calls by node id name no repository. *)
Definition in_repo (repo : string) (m : mutation) : Prop :=
  match m with
  | CreatePull _ r _ _ _ _ _ _ | GitHubApi.CreateIssue _ r _ _ _ _ | CreateIssueComment _ r _ _ _
  | AddIssueLabels _ r _ _ _ | RemoveIssueLabel _ r _ _ _ | GitHubApi.DismissPullReview _ r _ _ _ _ => r = repo
  | DismissPullReviewNode _ _ _ _ | ResolvePullReviewThread _ _ _ _ => True
  end.

(** The texts of a call, a pull request's body and labels of an existing issue apart. *)
Definition texts (m : mutation) : list string :=
  match m with
  | CreatePull _ _ _ title head base _ _ => [title; head; base]
  | GitHubApi.CreateIssue _ _ _ title body labels => title :: body :: labels
  | CreateIssueComment _ _ _ _ body => [body]
  | GitHubApi.DismissPullReview _ _ _ _ _ message | DismissPullReviewNode _ _ _ message
  | ResolvePullReviewThread _ _ _ message => [message]
  | AddIssueLabels _ _ _ _ _ | RemoveIssueLabel _ _ _ _ _ => []
  end.

Definition creates (m : mutation) : bool :=
  match m with CreatePull _ _ _ _ _ _ _ _ | GitHubApi.CreateIssue _ _ _ _ _ _ => true | _ => false end.

Definition branches (m : mutation) : string * string :=
  match m with CreatePull _ _ _ _ head base _ _ => (head, base) | _ => ("", "") end.

Section Gate.
Variable re_compile : string → option (string → bool).
Context {K : Type}.
Variable hmac_hex : K → string → string.
Variable effectTokens : list (string * K).
Notation all_clean := (all_clean hmac_hex effectTokens).

(** A pull request's body is the caller's with the broker's block; it was
    scanned with the operation id of the request, and is sent with the stable
    one of the operation where correlation is enabled. *)
Definition body_scanned (id : string) (inst : Z) (m : mutation) : Prop :=
  match m with
  | CreatePull _ _ _ _ _ _ body _ =>
    ∃ text md op op', body = text +:+ RenderBlock (WithBrokerFields md id op inst) ∧
      all_clean (text +:+ RenderBlock (WithBrokerFields md id op' inst))
  | _ => True
  end.

Definition gated (srv : server) (e : request_env) (h : gmap string (list string)) (b : gmap string runState)
    (repo : string) (m : mutation) : Prop :=
  ∃ agent id inst req,
    AuthenticateAgent h (cfg srv) = Some (agent, id) ∧
    InstallationIDForApp (cfg srv) (GitHubAppName agent) repo = Some inst ∧
    addressed m = (GitHubAppName agent, inst) ∧ in_repo repo m ∧
    (req_Agent req = policy_agent agent ∧ req_AgentID req = id ∧ req_Repo req = repo ∧
     req_Operation req = operation_of_call m ∧ (req_Branch req, req_BaseBranch req) = branches m) ∧
    permitted re_compile req ∧
    (∀ text, text ∈ texts m → all_clean text) ∧ body_scanned id inst m ∧
    (creates m = true → ∃ b' d,
       CheckAndReserve (limits_cfg srv) (e_budget e) b (operation_of_call m) (req_Metadata req) = (b', Ok d) ∧
       Limits.Allowed d = true).

(** The texts of comments that wait for their creation are clean. *)
Definition reserved_clean (r : gmap string (Record_ reply_body)) : Prop :=
  ∀ k rec, r !! k = Some rec → Pending rec = true → Operation rec = "issue.comment" → all_clean (SemanticBody rec).

Hypothesis named : ∀ fp key, (fp, key) ∈ effectTokens → fp ≠ "".

Lemma clean_egress_texts fields text :
  clean_egress hmac_hex effectTokens fields = true → scanned fields text → all_clean text.
Proof using named.
  unfold clean_egress. destruct (Sequence_spec hmac_hex effectTokens named fields) as (r & -> & H & _).
  destruct r; [done|]. eauto.
Qed.

Lemma clean_egress_field fields s :
  clean_egress hmac_hex effectTokens fields = true → s ∈ fields → all_clean (Value s).
Proof using named. intros H Hs. eapply clean_egress_texts; [done|]. left. by exists s. Qed.

Lemma reserved_clean_insert r k rec :
  reserved_clean r → (Pending rec = true → Operation rec = "issue.comment" → all_clean (SemanticBody rec)) →
  reserved_clean (<[k := rec]> r).
Proof using Type.
  intros Hr Hrec k' rec'. destruct (decide (k' = k)) as [->|Hk].
  - rewrite lookup_insert_eq. by intros [= <-].
  - rewrite lookup_insert_ne by done. apply Hr.
Qed.

(** ** Every outcome of a handler *)

Section Outcomes.
Variables (srv : server) (e : request_env) (h : gmap string (list string)) (repo : string) (s0 : state).

Record sound (o : outcome) : Prop := {
  so_gated : ∀ m, m ∈ o.1.2 → gated srv e h (budgets s0) repo m;
  so_once : (length o.1.2 ≤ 1)%nat;
  so_clean : reserved_clean (records s0) → reserved_clean (records o.1.1);
  so_inert : 400 ≤ status o.2 < 500 → o.1.2 = [] ∧ files o.1.1 = files s0 }.

Lemma sound_refuse s st code : files s = files s0 → sound (refuse s st code).
Proof using Type.
  intros Hf. split; cbn; [by intros m ?%elem_of_nil|lia|unfold records; by rewrite Hf|done].
Qed.

Lemma sound_answer s st a : files s = files s0 → sound (s, [], say st a).
Proof using Type.
  intros Hf. split; cbn; [by intros m ?%elem_of_nil|lia|unfold records; by rewrite Hf|done].
Qed.

Lemma sound_sent s sent r :
  (∀ m, m ∈ sent → gated srv e h (budgets s0) repo m) → (length sent ≤ 1)%nat →
  (reserved_clean (records s0) → reserved_clean (records s)) → ¬ 400 ≤ status r < 500 → sound (s, sent, r).
Proof using Type. intros Hg Hl Hc Hn. by split. Qed.

Lemma sound_write s sent key operation digest st out :
  (∀ m, m ∈ sent → gated srv e h (budgets s0) repo m) → (length sent ≤ 1)%nat →
  (reserved_clean (records s0) → reserved_clean (records s)) → ¬ 400 ≤ st < 500 →
  sound (writeExactIdempotentJSON srv e s sent key operation digest st out).
Proof using Type.
  intros Hg Hl Hc Hn. unfold writeExactIdempotentJSON.
  destruct (Store _ _ _ _ _ _) as [r u] eqn:E.
  assert (reserved_clean (records s0) → reserved_clean (records (with_records s r))) as Hc'.
  { intros H0. specialize (Hc H0). unfold records, with_records in *. cbn.
    apply Store_effect in E as [->|(rec & -> & Hp & _)]; [done|]. apply reserved_clean_insert; [done|].
    cbn in Hp. congruence. }
  destruct u; apply sound_sent; auto. cbn. lia.
Qed.

Lemma sound_once s key operation m :
  s = s0 → gated srv e h (budgets s0) repo m → sound (once_recorded srv e s key operation m).
Proof using Type.
  intros -> Hm. unfold once_recorded.
  eapply (walk_replay srv e sound (files s0) sound_refuse); [done| |].
  { intros rec _. by apply sound_answer. }
  assert (∀ m', m' ∈ [m] → gated srv e h (budgets s0) repo m') as Hg.
  { intros m' ->%list_elem_of_singleton. done. }
  unfold call_github. destruct (e_mutate e m); [apply sound_write; cbn; auto; lia|].
  apply sound_sent; cbn; auto. lia.
Qed.
End Outcomes.

(** ** The handlers *)

Section Handlers.
Variable sha256_hex : string → string.
Variable parse_time : string → option time.
Variables (srv : server) (e : request_env) (h : gmap string (list string)) (repo : string) (s : state).
Notation sound := (sound srv e h repo s).

Ltac refusals := pose proof (sound_refuse srv e h repo s) as Hrefuse.
Ltac gated_by :=
  match goal with
  | Ha : AuthenticateAgent _ _ = Some (?agent, ?id), Hi : InstallationIDForApp _ _ _ = Some ?inst,
    Hp : permitted _ ?req |- _ => exists agent, id, inst, req; split_and!; try done
  end.

Lemma message_clean msg text :
  clean_egress hmac_hex effectTokens [{| Name := "message"; Value := msg |}] = true → text ∈ [msg] → all_clean text.
Proof using named.
  intros H ->%list_elem_of_singleton. by eapply (clean_egress_field _ {| Name := "message" |} H); left.
Qed.

Lemma dismiss_sound rawNumber rawReviewID body :
  sound (handlePullReviewDismiss re_compile hmac_hex effectTokens srv e h s repo rawNumber rawReviewID body).
Proof using named.
  unfold handlePullReviewDismiss. refusals. walk. case_match; [by apply Hrefuse|]. do 6 walk.
  apply sound_once; [done|]. pose proof (λ text, message_clean _ text ltac:(eassumption)) as Hclean.
  repeat case_match; gated_by.
Qed.

Lemma resolve_sound rawNumber threadID body :
  sound (handlePullReviewThreadResolve re_compile hmac_hex effectTokens srv e h s repo rawNumber threadID body).
Proof using named.
  unfold handlePullReviewThreadResolve. refusals. do 8 walk.
  apply sound_once; [done|]. pose proof (λ text, message_clean _ text ltac:(eassumption)) as Hclean.
  gated_by.
Qed.

Lemma labels_add_sound rawNumber body : sound (handleIssueLabelsAdd re_compile srv e h s repo rawNumber body).
Proof using Type.
  clear named. unfold handleIssueLabelsAdd. refusals. do 3 walk. case_match; [by apply Hrefuse|]. do 2 walk.
  apply sound_once; [done|].
  gated_by. by intros ? ?%elem_of_nil.
Qed.

Lemma label_remove_sound rawNumber rawLabel : sound (handleIssueLabelRemove re_compile srv e h s repo rawNumber rawLabel).
Proof using Type.
  clear named. unfold handleIssueLabelRemove. refusals. walk. case_match; [|by apply Hrefuse]. do 4 walk.
  apply sound_once; [done|].
  gated_by. by intros ? ?%elem_of_nil.
Qed.

Lemma label_segments_in labels l : l ∈ labels → ∃ seg, seg ∈ label_segments labels ∧ Value seg = l.
Proof using Type.
  intros [i Hi]%list_elem_of_lookup. exists {| Name := "labels[" +:+ pretty (Z.of_nat i) +:+ "]"; Value := l |}.
  split; [|done]. apply list_elem_of_lookup. exists i. unfold label_segments. by rewrite list_lookup_imap, Hi.
Qed.

Lemma issue_create_sound body :
  sound (handleIssueCreate re_compile hmac_hex effectTokens srv e h s repo body).
Proof using named.
  unfold handleIssueCreate. refusals. do 8 walk.
  match goal with |- _ (call_github _ _ ?m _) => assert (∀ m', m' ∈ [m] → gated srv e h (budgets s) repo m') as Hg end.
  { intros m' ->%list_elem_of_singleton. gated_by; [|by intros _; do 2 eexists].
    match goal with H : clean_egress _ _ ?fields = true |- _ => rename H into Hc; set (fs := fields) in Hc end.
    assert (∀ n v, {| Name := n; Value := v |} ∈ fs → all_clean v) as Hf.
    { intros n v Hin. apply (clean_egress_field fs {| Name := n; Value := v |} Hc Hin). }
    cbn [texts]. intros text [->|[->|[[n v] [Hseg <-]]%label_segments_in]%elem_of_cons]%elem_of_cons.
    - apply (Hf "title"). by left.
    - apply (Hf "body"). by right; left.
    - apply (Hf n). by do 2 right. }
  unfold call_github. destruct (e_mutate e _); apply sound_sent; cbn; auto; lia.
Qed.

Lemma pull_create_sound body :
  sound (handlePullCreate re_compile sha256_hex hmac_hex effectTokens srv e h s repo body).
Proof using named.
  unfold handlePullCreate. refusals. do 7 walk.
  match goal with H : clean_egress _ _ ?fields = true |- _ => rename H into Hc; set (fs := fields) in Hc end.
  assert (∀ n v, {| Name := n; Value := v |} ∈ fs → all_clean v) as Hf.
  { intros n v Hin. apply (clean_egress_field fs {| Name := n; Value := v |} Hc Hin). }
  set (create := λ body, CreatePull _ _ _ _ _ _ body _).
  assert (∀ op m, m ∈ [create (ReqBody req +:+ RenderBlock (WithBrokerFields (Metadata req) id op inst))] →
            gated srv e h (budgets s) repo m) as Hg.
  { intros op m ->%list_elem_of_singleton. gated_by.
    - cbn [texts create]. intros text [-> | [-> | [-> | Hn%elem_of_nil]%elem_of_cons]%elem_of_cons]%elem_of_cons; [| | |done].
      + apply (Hf "title"). by left.
      + apply (Hf "head"). by do 2 right; left.
      + apply (Hf "base"). by do 3 right; left.
    - do 4 eexists. split; [done|]. apply (Hf "body"). by right; left.
    - intros _. by do 2 eexists. }
  destruct (correlated srv).
  - destruct (pullCreateWithCorrelation _ _ _ _ _ _ _) as [[f created] r] eqn:E. cbn [files] in E.
    apply attempt_gate in E as (Hcr & Hi & Hs). split; cbn.
    + intros m Hm. destruct Hcr as [-> | ->]; [by apply elem_of_nil in Hm|]. by eapply Hg.
    + destruct Hcr as [-> | ->]; cbn; lia.
    + intros Hcl k rec Hr Hp Ho. destruct (Hi k rec Hr) as [?|?]; [by eapply Hcl|congruence].
    + intros Hst. destruct (Hs Hst) as [-> ->]. done.
  - unfold call_github. destruct (e_mutate e _); apply sound_sent; cbn; try lia; try done; apply Hg.
Qed.

Lemma comment_sound number body :
  reserved_clean (records s) →
  sound (handleCommentCreate re_compile sha256_hex parse_time hmac_hex effectTokens srv e h s repo number body).
Proof using named.
  intros Hclean0. unfold handleCommentCreate. refusals. do 5 walk. case_match; [by apply Hrefuse|].
  case_match; [by apply Hrefuse|].
  assert (all_clean (cc_Body req)) as Hbody.
  { match goal with H : clean_egress _ _ _ = true |- _ => apply (clean_egress_field _ {| Name := "body" |} H) end. by left. }
  assert (∀ b m, all_clean b → m ∈ [CreateIssueComment (GitHubAppName agent) repo number inst b] →
            gated srv e h (budgets s) repo m) as Hg.
  { intros b m Hb ->%list_elem_of_singleton. gated_by. by intros text ->%list_elem_of_singleton. }
  assert (∀ s1 key digest b, (reserved_clean (records s) → reserved_clean (records s1)) → all_clean b →
    sound (create_comment srv e s1 (GitHubAppName agent) repo number inst key digest b)) as Hcreate.
  { intros s1 key digest b Hs1 Hb. unfold create_comment, call_github.
    destruct (e_mutate e _); [apply sound_write|apply sound_sent]; cbn; try lia; try done; intros m; by apply Hg. }
  destruct (ReserveExact _ _ _ _ _ _ _ _) as [r res] eqn:Er.
  pose proof (ReserveExact_effect _ _ _ _ _ _ _ _ _ _ Er) as Heff.
  assert (reserved_clean (records s) → reserved_clean (records (with_records s r))) as Hs1.
  { intros Hcl. cbn. destruct Heff as [->|(_ & rec & _ & -> & _ & Hsb & _)]; [done|]. apply reserved_clean_insert; [done|].
    intros _ _. by rewrite Hsb. }
  destruct res as [[[rec found] conflict]|err].
  2: { apply sound_sent; cbn; try done; [by intros m ?%elem_of_nil|lia|lia]. }
  apply ReserveExact_new_or_found in Er as Hcase.
  assert (found = true → files (with_records s r) = files s) as Hfiles.
  { intros ->. destruct Hcase as [(_ & rec' & ->)|[? _]]; [|done]. apply ReserveExact_found in Er as (-> & _).
    unfold with_records, records. cbn. by destruct (files s). }
  destruct conflict.
  { destruct Hcase as [[-> _]|[_ ?]]; [|done]. by apply Hrefuse, Hfiles. }
  destruct found; [|by apply Hcreate]. specialize (Hfiles eq_refl). destruct Hcase as [(_ & rec' & ->)|[? _]]; [|done].
  destruct (Pending rec') eqn:Ep; cbn [negb]; [|by apply sound_answer].
  apply ReserveExact_found in Er as (-> & Hrec & Hop). destruct (Hop eq_refl) as (Ho & _).
  assert (all_clean (SemanticBody rec')) as Hsb by by eapply Hclean0.
  destruct (Atoi number) as [n|]; [|by apply Hrefuse]. destruct (n <? 1); [by apply Hrefuse|].
  destruct (listIssueCommentsForReconciliation _) as [comments|]; [|by apply Hrefuse].
  destruct (reconcilePendingComment _ _ _ _) as [[g|]|err]; [|by apply Hcreate|by apply Hrefuse].
  apply sound_write; cbn; try lia; [by intros m ?%elem_of_nil|done].
Qed.
End Handlers.

(** ** Dispatch and histories *)

Section Serve.
Variable sha256_hex : string → string.
Variable parse_time : string → option time.
Notation serve := (serve re_compile sha256_hex parse_time hmac_hex effectTokens).

Lemma serve_sound srv e h s method path b o repo :
  reserved_clean (records s) → serve srv e h s method path b = Some o →
  (∀ r ep, handleRepoAPI method path = Some (r, ep) → r = repo) →
  sound srv e h repo s o ∧ (o.1.2 ≠ [] → ∃ ep, handleRepoAPI method path = Some (repo, ep)).
Proof using named.
  intros Hc. unfold Mutations.serve. destruct (handleRepoAPI method path) as [[r ep]|].
  2: { intros [= <-] _. split; [by apply sound_refuse|done]. }
  intros Ho Hr. rewrite (Hr r ep eq_refl) in *. split; [|by exists ep].
  destruct ep; try done; injection Ho as <-.
  - apply pull_create_sound.
  - apply dismiss_sound.
  - apply resolve_sound.
  - apply issue_create_sound.
  - by apply comment_sound.
  - apply labels_add_sound.
  - apply label_remove_sound.
Qed.

Record http_request := {
  q_srv : server; q_env : request_env; q_headers : gmap string (list string);
  q_method : string; q_path : string; q_body : decoded }.

(** Requests one after the other, each with the state it found and its outcome;
    the endpoints that read leave the state alone. *)
Fixpoint served (s : state) (qs : list http_request) : list (http_request * state * outcome) :=
  match qs with
  | [] => []
  | q :: qs =>
    match serve (q_srv q) (q_env q) (q_headers q) s (q_method q) (q_path q) (q_body q) with
    | Some o => (q, s, o) :: served o.1.1 qs
    | None => served s qs
    end
  end.

Definition the_repo (q : http_request) : string :=
  match handleRepoAPI (q_method q) (q_path q) with Some (r, _) => r | None => "" end.

Lemma served_sound qs s q s' o :
  reserved_clean (records s) → (q, s', o) ∈ served s qs →
  sound (q_srv q) (q_env q) (q_headers q) (the_repo q) s' o ∧
  (o.1.2 ≠ [] → ∃ ep, handleRepoAPI (q_method q) (q_path q) = Some (the_repo q, ep)).
Proof using named.
  revert s. induction qs as [|q0 qs IH]; intros s Hc; cbn [served]; [by intros ?%elem_of_nil|].
  destruct (serve _ _ _ _ _ _ _) as [o0|] eqn:E; [|by apply IH].
  destruct (serve_sound _ _ _ _ _ _ _ _ (the_repo q0) Hc E) as [Hso Hro].
  { intros r ep Hr. unfold the_repo. by rewrite Hr. }
  intros [[= -> -> ->]|Hin]%elem_of_cons; [done|]. eapply IH; [|done]. by apply (so_clean _ _ _ _ _ _ Hso).
Qed.
End Serve.
End Gate.

(** ** Properties *)

Definition fresh : state := {| files := PullCreate.initial; budgets := ∅ |}.

Lemma fresh_clean {K} (hmac_hex : K → string → string) effectTokens :
  reserved_clean hmac_hex effectTokens (records fresh).
Proof. by intros k rec. Qed.

(** C3: a request makes at most one call that changes GitHub, and only when its
    agent is authenticated, the installation of the agent's app covers the
    repository of the path, the call goes out as that app and installation and
    names that repository (a review thread, and a review given by its node id,
    name none), and policy permits the agent that operation on that repository
    and the branches of a pull request.  The titles, branches, bodies, messages
    and a new issue's labels that the call carries are not credential-shaped
    within two layers of decoding; a pull request's body was scanned with the
    broker's block under the request's operation id, and may be sent with another
    id in it; the labels of existing issues are not scanned.  A call that creates
    a pull request or an issue was reserved in the run's mutation budget; comments,
    labels, dismissals and resolutions are under no budget.  This holds in any
    history of requests, whatever GitHub answers and whichever accesses to the
    files fail, so also for comments that a later request completes. *)
Theorem mutation_gated re_compile {K} (hmac_hex : K → string → string) effectTokens sha256_hex parse_time qs q s o :
  (∀ fp key, (fp, key) ∈ effectTokens → fp ≠ "") →
  (q, s, o) ∈ served re_compile hmac_hex effectTokens sha256_hex parse_time fresh qs →
  (length o.1.2 ≤ 1)%nat ∧
  ∀ m, m ∈ o.1.2 → ∃ repo ep, handleRepoAPI (q_method q) (q_path q) = Some (repo, ep) ∧
    gated re_compile hmac_hex effectTokens (q_srv q) (q_env q) (q_headers q) (budgets s) repo m.
Proof.
  intros named Hin. destruct (served_sound _ _ _ named _ _ _ _ _ _ _ (fresh_clean _ _) Hin) as [[Hg Hl _ _] Hr].
  split; [done|]. intros m Hm. destruct Hr as [ep Hep]; [by intros E; rewrite E in Hm; apply elem_of_nil in Hm|].
  exists (the_repo q), ep. eauto.
Qed.

(** C32: a refused request (a 4xx answer) has called nothing that changes
    GitHub, and has left the idempotency records, the correlations and the
    outbox as they were. *)
Theorem refusal_inert re_compile {K} (hmac_hex : K → string → string) effectTokens sha256_hex parse_time qs q s o :
  (∀ fp key, (fp, key) ∈ effectTokens → fp ≠ "") →
  (q, s, o) ∈ served re_compile hmac_hex effectTokens sha256_hex parse_time fresh qs →
  400 ≤ status o.2 < 500 → o.1.2 = [] ∧ files o.1.1 = files s.
Proof.
  intros named Hin. destruct (served_sound _ _ _ named _ _ _ _ _ _ _ (fresh_clean _ _) Hin) as [[_ _ _ Hi] _]. exact Hi.
Qed.

(** ** A broker with two agents *)

Definition all_operations : list string :=
  ["pull.create"; "issue.create"; "issue.comment"; "issue.label.add"; "issue.label.remove";
   "pull.review.dismiss"; "pull.review_thread.resolve"].

Definition agent_of (id secret : string) (repos : list string) : Agent :=
  {| policy_agent := {| ag_ID := id; ag_Enabled := true; ag_Repositories := repos; ag_Operations := all_operations;
       ag_BranchPatterns := ["^agent/"]; ag_BaseBranches := ["main"]; ag_Permissions := [];
       ag_MetadataAssertions := ∅ |};
     Secret := secret; GitHubApp := ""; GitReceivePack := ""; BranchGuard := {| Mode := ""; StalePRStates := []; Operations := [] |} |}.

Definition agent_prefix : string → option (string → bool) :=
  λ p, if (p =? "^agent/")%string then Some (has_prefix "agent/") else None.

Definition two_agents (limit : Z) (correlated : bool) : server :=
  {| cfg := {| Agents := [agent_of "a1" "s1" ["o/r"]; agent_of "a2" "s2" ["o/s"]]; AdminSecret := ""; GitBaseURL := "";
       DefaultApp := {| AppID := 7; PrivateKeyPath := "key.pem"; Installations := [("o/*", 42)] |}; Apps := ∅ |};
     path_set := true;
     limits_cfg := {| StatePath := "limits.json"; RunMetadataField := ""; ActionMetadataField := "";
       MaxNewObjectsPerRun := limit; ClassLimits := ∅; OperationClasses := ∅ |};
     Mutations.correlated := correlated |}.

(** GitHub accepts everything. *)
Definition willing (m : mutation) : option reply_body :=
  Some (match m with
        | AddIssueLabels _ _ _ _ labels => RLabels labels
        | RemoveIssueLabel _ _ _ _ _ => RLabels []
        | DismissPullReview _ _ _ _ _ _ | DismissPullReviewNode _ _ _ _ =>
          RReview {| pr_ID := "R"; pr_DatabaseID := 1; pr_State := "DISMISSED"; pr_Body := ""; pr_Author := None;
                     pr_CommitID := ""; pr_SubmittedAt := ""; pr_HTMLURL := "" |}
        | ResolvePullReviewThread _ _ thread _ => RThread {| rt_ID := thread; rt_IsResolved := true |}
        | _ => RResult (pull_number 7)
        end).

Definition quiet_env (op : string) : request_env :=
  {| e_op := op; e_now := second; e_gh := sample_github; e_mutate := willing; e_comments := λ _ _ _ _ _, Some [];
     e_verify := λ h, if (h =? "cap")%string then Some (200, Some (Some sample_claims)) else Some (404, Some None);
     e_get_pull := λ k, Some (pull_number k); e_list := λ _ _ _, Some [];
     e_budget := None; e_load := None; e_reserve := None; e_store := None; e_lookup := None; e_record := None |}.

Definition headers_of (id secret key : string) : gmap string (list string) :=
  {["X-Agent-Id" := [id]; "X-Agent-Secret" := [secret]; "Idempotency-Key" := [key]; "X-Agent-Capability" := ["cap"]]}.

Definition no_body : decoded :=
  {| as_pull := None; as_issue := None; as_comment := None; as_labels := None; as_message := None |}.
Definition labels_body (labels : list string) : decoded :=
  {| as_pull := None; as_issue := None; as_comment := None; as_message := None;
     as_labels := Some {| il_Labels := labels; il_Metadata := ∅; il_Permissions := [] |} |}.
Definition message_body (message : string) : decoded :=
  {| as_pull := None; as_issue := None; as_comment := None; as_labels := None;
     as_message := Some {| mr_Message := message; mr_Metadata := ∅; mr_Permissions := [] |} |}.
Definition comment_body (body : string) : decoded :=
  {| as_pull := None; as_issue := None; as_labels := None; as_message := None;
     as_comment := Some {| cc_Body := body; cc_Metadata := ∅; cc_Permissions := [] |} |}.
Definition pull_body : decoded :=
  {| as_issue := None; as_comment := None; as_labels := None; as_message := None;
     as_pull := Some {| Title := "T"; Head := "agent/x"; Base := "main"; ReqBody := "B"; Draft := false;
                        Metadata := {["Run-Id" := "r1"]}; Permissions := [] |} |}.

Definition asks (srv : server) (id secret key method path : string) (b : decoded) : http_request :=
  {| q_srv := srv; q_env := quiet_env "op_1"; q_headers := headers_of id secret key; q_method := method;
     q_path := path; q_body := b |}.

(** The calls and answers of a list of requests. *)
Definition run (qs : list http_request) : list (list mutation * response answer) :=
  map (λ '(_, _, o), (o.1.2, o.2))
    (served agent_prefix (λ (_ : unit) t, t) [] no_hash (λ _, Some 0) fresh qs).

Definition plain := two_agents 0 false.

(** The key of a caller is not bound to the caller: the second agent, which asks
    for something else elsewhere under the same key, gets the first one's answer
    and nothing is done for it. *)
Lemma replay_crosses_agents :
  run [asks plain "a1" "s1" "k" "POST" "/v1/repos/o/r/issues/7/labels" (labels_body ["bug"]);
       asks plain "a2" "s2" "k" "PUT" "/v1/repos/o/s/pulls/9/reviews/5/dismissal" (message_body "outdated")] =
  [([AddIssueLabels "default" "o/r" 42 7 ["bug"]], say 200 (Done (RLabels ["bug"])));
   ([], say 200 (Stored (Some (RLabels ["bug"]))))].
Proof. by vm_compute. Qed.

(** Without a key the record of the first addition answers every later one, though
    the label was removed in between. *)
Lemma relabel_not_executed :
  let add := asks plain "a1" "s1" "" "POST" "/v1/repos/o/r/issues/7/labels" (labels_body ["bug"]) in
  let remove := asks plain "a1" "s1" "" "DELETE" "/v1/repos/o/r/issues/7/labels/bug" no_body in
  run [add; remove; add] =
  [([AddIssueLabels "default" "o/r" 42 7 ["bug"]], say 200 (Done (RLabels ["bug"])));
   ([RemoveIssueLabel "default" "o/r" 42 7 "bug"], say 200 (Done (RLabels [])));
   ([], say 200 (Stored (Some (RLabels ["bug"]))))].
Proof. by vm_compute. Qed.

(** An agent that may act on o/r alone has any review thread of the installation
    resolved, and any review given by its node id dismissed: the calls name
    neither the repository nor the pull request. *)
Lemma node_ids_not_confined :
  run [asks plain "a1" "s1" "k1" "PUT" "/v1/repos/o/r/pulls/1/review-threads/PRRT_of_o_s/resolve" (message_body "done");
       asks plain "a1" "s1" "k2" "PUT" "/v1/repos/o/r/pulls/1/reviews/PRR_of_o_s/dismissal" (message_body "done")] =
  [([ResolvePullReviewThread "default" 42 "PRRT_of_o_s" "done"],
     say 200 (Done (RThread {| rt_ID := "PRRT_of_o_s"; rt_IsResolved := true |})));
   ([DismissPullReviewNode "default" 42 "PRR_of_o_s" "done"],
     say 200 (Done (default (RLabels []) (willing (DismissPullReviewNode "default" 42 "" "")))))].
Proof. by vm_compute. Qed.

(** The issue of a comment is not checked to be a number before the comment is
    created, and the path of the call is cut at a fragment. *)
Lemma issue_segment_unchecked :
  map fst (run [asks plain "a1" "s1" "k" "POST" "/v1/repos/o/r/issues/7#/comments" (comment_body "text")]) =
    [[CreateIssueComment "default" "o/r" "7#" 42 "text"]] ∧
  cut "#" (issue_comments_path "o/r" "7#") = Some ("/repos/o/r/issues/7", "/comments").
Proof. by vm_compute. Qed.

(** A retry is charged before its record is looked up: with a budget of one, the
    retry of a request that was completed is refused instead of replayed. *)
Lemma replay_spends_budget :
  let q limit := asks (two_agents limit true) "a1" "s1" "k" "POST" "/v1/repos/o/r/pulls" pull_body in
  map snd (run [q 2; q 2]) = [say 201 (Done (RResult (pull_number 7))); say 201 (Stored (Some (RResult (pull_number 7))))] ∧
  map snd (run [q 1; q 1]) = [say 201 (Done (RResult (pull_number 7))); say 429 (Refused "capacity_deferred")].
Proof. by vm_compute. Qed.

Notation sample_serve q :=
  (serve agent_prefix no_hash (λ _, Some 0) (λ (_ : unit) t, t) [] (q_srv q) (q_env q) (q_headers q) fresh
     (q_method q) (q_path q) (q_body q)).
Notation sample_served qs := (served agent_prefix (λ (_ : unit) t, t) [] no_hash (λ _, Some 0) fresh qs).

Definition outcome_of (q : http_request) : outcome := default (refuse fresh 0 "") (sample_serve q).

Lemma served_first q :
  match sample_serve q with Some _ => true | None => false end = true → (q, fresh, outcome_of q) ∈ sample_served [q].
Proof. unfold outcome_of. cbn [served]. destruct (sample_serve q) as [o|]; [|done]. intros _. by left. Qed.

Definition no_tokens {K : Type} (fp : string) (key : K) (H : (fp, key) ∈ []) : fp ≠ "" :=
  match not_elem_of_nil _ H with end.

Definition comment_request : http_request :=
  asks plain "a1" "s1" "k" "POST" "/v1/repos/o/r/issues/7/comments" (comment_body "text").
Definition denied_request : http_request :=
  asks plain "a1" "s1" "k" "POST" "/v1/repos/o/s/issues/7/comments" (comment_body "text").

Lemma mutation_gated_witness :
  ∃ repo ep, handleRepoAPI "POST" "/v1/repos/o/r/issues/7/comments" = Some (repo, ep) ∧
    gated agent_prefix (λ (_ : unit) t, t) [] plain (quiet_env "op_1") (headers_of "a1" "s1" "k") ∅ repo
      (CreateIssueComment "default" "o/r" "7" 42 "text").
Proof.
  assert (CreateIssueComment "default" "o/r" "7" 42 "text" ∈ (outcome_of comment_request).1.2) as Hm.
  { assert ((outcome_of comment_request).1.2 = [CreateIssueComment "default" "o/r" "7" 42 "text"]) as ->;
      [by vm_compute|by left]. }
  exact (proj2 (@mutation_gated agent_prefix unit (λ _ t, t) [] no_hash (λ _, Some 0) [comment_request] comment_request
    fresh (outcome_of comment_request) no_tokens (served_first comment_request ltac:(by vm_compute))) _ Hm).
Defined.

Lemma refusal_inert_witness :
  status (outcome_of denied_request).2 = 403 ∧ (outcome_of denied_request).1.2 = [] ∧
  files (outcome_of denied_request).1.1 = files fresh.
Proof.
  assert (status (outcome_of denied_request).2 = 403) as Hst by by vm_compute. split; [exact Hst|].
  apply (@refusal_inert agent_prefix unit (λ _ t, t) [] no_hash (λ _, Some 0) [denied_request] denied_request
    fresh (outcome_of denied_request) no_tokens (served_first denied_request ltac:(by vm_compute))).
  rewrite Hst. lia.
Defined.
