(* ===== verification/CommentOnce.v ===== *)
(** * Issue comments are created once (handleCommentCreate of internal/server)

    An attempt may be lost before it reaches GitHub, lose GitHub's answer, or die
    before its response is stored; the client then tries again under the same
    key.  The steps of an issue's history are such attempts, by any agents and
    under any keys, with a path for the idempotency records, and whatever else
    changes the broker's files but the records of this issue's comments; GitHub
    keeps the comments made and lists them. *)

From S2P Require Import Prelude GoStrings GoTime Net Http Policy GitTransport ReadAccess RepoApi.
From S2P Require Import GitHubApi PullCreate Idempotency Limits SecurityScan Mutations MutationGate.
Open Scope string_scope.
Open Scope list_scope.
Open Scope Z_scope.

(** ** The loops *)

Lemma list_pages_spec list_page page more acc comments :
  list_pages list_page page more acc = Some comments →
  (∀ c, c ∈ acc → c ∈ comments) ∧
  ∃ last, (page ≤ last)%nat ∧ (∃ batch, list_page last = Some batch ∧ (length batch < 100)%nat) ∧
    ∀ p batch c, (page ≤ p ≤ last)%nat → list_page p = Some batch → c ∈ batch → c ∈ comments.
Proof.
  revert page acc. induction more as [|more IH]; intros page acc; cbn [list_pages]; [done|].
  destruct (list_page page) as [batch|] eqn:Eb; [|done]. destruct (Nat.ltb_spec (length batch) 100).
  - intros [= <-]. split; [intros c Hc; apply elem_of_app; by left|]. exists page.
    split; [done|]. split; [by exists batch|]. intros p b c Hp Hb Hc. assert (p = page) as -> by lia.
    assert (b = batch) as -> by congruence. apply elem_of_app. by right.
  - intros [Hacc (last & Hle & Hshort & Hin)]%IH. split; [intros c Hc; apply Hacc, elem_of_app; by left|].
    exists last. split; [lia|]. split; [done|]. intros p b c Hp Hb Hc. destruct (decide (p = page)) as [->|].
    + apply Hacc, elem_of_app. right. congruence.
    + apply (Hin p b c); [lia|done..].
Qed.

(** A listing, page by page, has the comment: on a page before which all are full. *)
Definition lists_comment (list_page : nat → option (list IssueComment)) (c : IssueComment) : Prop :=
  ∃ p, (1 ≤ p)%nat ∧ (∀ j batch, (1 ≤ j < p)%nat → list_page j = Some batch → (100 ≤ length batch)%nat) ∧
    ∀ batch, list_page p = Some batch → c ∈ batch.

Lemma list_pages_answered list_page page more acc comments p :
  list_pages list_page page more acc = Some comments → (page ≤ p)%nat →
  (∀ j batch, (page ≤ j < p)%nat → list_page j = Some batch → (100 ≤ length batch)%nat) → is_Some (list_page p).
Proof.
  revert page acc. induction more as [|more IH]; intros page acc; cbn [list_pages]; [done|].
  destruct (list_page page) as [batch|] eqn:Eb; [|done]. intros H Hle Hfull.
  destruct (decide (page = p)) as [<-|]; [by rewrite Eb|].
  assert (100 ≤ length batch)%nat by (eapply (Hfull page); [lia|done]).
  destruct (Nat.ltb_spec (length batch) 100); [lia|]. eapply IH; [done|lia|]. intros j b Hj. apply Hfull. lia.
Qed.

Lemma listing_complete list_page comments c :
  listIssueCommentsForReconciliation list_page = Some comments → lists_comment list_page c → c ∈ comments.
Proof.
  unfold listIssueCommentsForReconciliation. intros H (p & Hp & Hfull & Hc).
  destruct (list_pages_answered _ _ _ _ _ p H Hp Hfull) as [batch Hb].
  apply list_pages_spec in H as [_ (last & Hl & (short & Hs & Hlen) & Hin)].
  assert (p ≤ last)%nat.
  { destruct (decide (p ≤ last)%nat); [done|]. assert (100 ≤ length short)%nat; [|lia]. eapply (Hfull last); [lia|done]. }
  apply (Hin p batch c); [lia|done|by apply Hc].
Qed.

Lemma ReserveExact_new {B} fl now (st : gmap string (Record_ B)) key op digest sb st' rec conflict :
  key ≠ "" → ReserveExact fl true now st key op digest sb = (st', Ok (rec, false, conflict)) →
  st !! key = None ∧ ∃ rec', conflict = false ∧ st' = <[key := rec']> st ∧ SemanticBody rec' = sb ∧ CreatedAt rec' = now.
Proof.
  intros Hk%String.eqb_neq. unfold ReserveExact, writeState. rewrite Hk. cbn [negb orb].
  destruct (fails fl 0); [done|]. destruct (st !! key); [by destruct (_ || _)|].
  destruct (fails fl 1); [done|]. intros [= <- <- <-]. split; [done|]. by eexists.
Qed.

Section Comments.
Variable re_compile : string → option (string → bool).
Variable sha256_hex : string → string.
Variable parse_time : string → option time.
Context {K : Type}.
Variable hmac_hex : K → string → string.
Variable effectTokens : list (string * K).

Lemma find_comment_kept body at_ f comments : find_comment parse_time body at_ (Some f) comments ≠ Ok None.
Proof using Type.
  induction comments as [|c comments IH]; cbn [find_comment]; [done|].
  by destruct (comment_matches parse_time body at_ c).
Qed.

Lemma find_comment_none body at_ comments c :
  find_comment parse_time body at_ None comments = Ok None → c ∈ comments →
  comment_matches parse_time body at_ c = false.
Proof using Type.
  induction comments as [|x comments IH]; cbn [find_comment]; [by intros _ ?%elem_of_nil|].
  destruct (comment_matches parse_time body at_ x) eqn:Em; [by intros ?%find_comment_kept|].
  by intros H [->|Hc]%elem_of_cons; [|apply IH].
Qed.

(** ** An attempt *)

Variables (repo issueNumber : string).

(** The key an attempt is recorded under. *)
Definition attempt_key (srv : server) (h : gmap string (list string)) : string :=
  match AuthenticateAgent h (cfg srv) with
  | Some (_, id) => comment_key sha256_hex id repo issueNumber (idempotencyHeader h)
  | None => ""
  end.

Section Effect.
Variables (srv : server) (e : request_env) (h : gmap string (list string)) (s : state).
Notation key := (attempt_key srv h).

(** A comment is created for a key that has no record, or for one that waits and
    of which GitHub's listing shows no comment. *)
Definition may_create (app : string) (inst : Z) (b : string) : Prop :=
  records s !! key = None ∨
  ∃ rec n comments, records s !! key = Some rec ∧ Pending rec = true ∧ SemanticBody rec = b ∧ Atoi issueNumber = Some n ∧
    listIssueCommentsForReconciliation (e_comments e app repo inst n) = Some comments ∧
    reconcilePendingComment parse_time comments b (CreatedAt rec) = Ok None.

Record effect (o : outcome) : Prop := {
  ef_other : ∀ k, k ≠ key → records o.1.1 !! k = records s !! k;
  ef_kept : ∀ rec, records s !! key = Some rec →
    ∃ rec', records o.1.1 !! key = Some rec' ∧ (Pending rec' = true → rec' = rec);
  ef_time : ∀ rec, records o.1.1 !! key = Some rec → Pending rec = true →
    records s !! key = Some rec ∨ CreatedAt rec = e_now e;
  ef_sent : o.1.2 = [] ∨ ∃ app inst b rec, o.1.2 = [CreateIssueComment app repo issueNumber inst b] ∧ may_create app inst b ∧
    records o.1.1 !! key = Some rec ∧ (Pending rec = true → SemanticBody rec = b) }.

Lemma effect_same s' r : files s' = files s → effect (s', [], r).
Proof using Type.
  intros Hf. assert (records s' = records s) as Hr by (unfold records; by rewrite Hf).
  split; cbn; rewrite ?Hr; [done|eauto|by left|by left].
Qed.

(** The record under the key after the reservation. *)
Record reserved_as (s' : state) (rec : Record_ reply_body) : Prop := {
  ra_other : ∀ k, k ≠ key → records s' !! k = records s !! k;
  ra_rec : records s' !! key = Some rec;
  ra_kept : ∀ rec0, records s !! key = Some rec0 → rec = rec0;
  ra_time : records s !! key = None → CreatedAt rec = e_now e }.

Lemma effect_write s' rec sent digest out st :
  reserved_as s' rec →
  (sent = [] ∨ ∃ app inst b, sent = [CreateIssueComment app repo issueNumber inst b] ∧ may_create app inst b ∧ SemanticBody rec = b) →
  effect (writeExactIdempotentJSON srv e s' sent key "issue.comment" digest st out).
Proof using Type.
  intros [Ho Hr Hk Ht] Hsent. unfold writeExactIdempotentJSON. destruct (Store _ _ _ _ _ _) as [r u] eqn:E.
  assert ((∀ k, k ≠ key → r !! k = records s !! k) ∧ ∃ rec', r !! key = Some rec' ∧ (Pending rec' = true → rec' = rec)) as [Hother (rec' & Hrec' & Hp')].
  { apply Store_effect in E as [->|(rec' & -> & Hp & _)].
    - split; [done|]. by exists rec.
    - split; [intros k Hkey; rewrite lookup_insert_ne by done; by apply Ho|].
      exists rec'. split; [apply lookup_insert_eq|]. cbn in Hp. congruence. }
  assert (∀ a, effect (with_records s' r, sent, a)) as H; [|by destruct u].
  intros a. split; cbn.
  - exact Hother.
  - intros rec0 Hrec0. exists rec'. split; [done|]. intros Hp. rewrite (Hp' Hp). by apply Hk.
  - intros rec1 Hrec1 Hp. simplify_eq. rewrite (Hp' Hp). destruct (records s !! key) as [rec0|] eqn:E0; [left|right; auto].
    f_equal. symmetry. by apply Hk.
  - destruct Hsent as [?|(app & inst & b & ? & Hm & Hb)]; [by left|right]. exists app, inst, b, rec'. split_and!; try done.
    intros Hp. by rewrite (Hp' Hp).
Qed.

Lemma effect_create s' rec app inst digest :
  reserved_as s' rec → may_create app inst (SemanticBody rec) →
  effect (create_comment srv e s' app repo issueNumber inst key digest (SemanticBody rec)).
Proof using Type.
  intros Hres Hm. unfold create_comment, call_github. destruct (e_mutate e _).
  - eapply effect_write; [done|]. right. by do 3 eexists.
  - destruct Hres as [Ho Hr Hk Ht]. split; cbn.
    + done.
    + intros rec0 H0. exists rec. split; [done|]. intros _. by apply Hk.
    + intros rec1 H1 _. simplify_eq. destruct (records s !! key) as [rec0|] eqn:E0; [left; f_equal; symmetry; by apply Hk|right; auto].
    + right. by do 4 eexists.
Qed.

Lemma comment_effect body :
  path_set srv = true →
  effect (handleCommentCreate re_compile sha256_hex parse_time hmac_hex effectTokens srv e h s repo issueNumber body).
Proof using Type.
  intros Hps. unfold handleCommentCreate.
  assert (∀ s' st code, files s' = files s → effect (refuse s' st code)) as Hrefuse by (intros; by apply effect_same).
  do 5 walk. case_match; [by apply Hrefuse|]. case_match; [by apply Hrefuse|].
  assert (comment_key sha256_hex id repo issueNumber (idempotencyHeader h) = key) as ->.
  { unfold attempt_key. by destruct (AuthenticateAgent h (cfg srv)) as [[]|]; simplify_eq. }
  assert (key ≠ "") as Hkey.
  { unfold attempt_key. destruct (AuthenticateAgent h (cfg srv)) as [[]|]; simplify_eq. by unfold comment_key. }
  assert (∀ s', records s' = records s → files (with_records s (records s')) = files s) as Hsame.
  { intros s' ->. unfold with_records, records. by destruct (files s). }
  destruct (ReserveExact _ _ _ _ _ _ _ _) as [r [[[rec found] conflict]|err]] eqn:Er.
  2: { apply Hrefuse. unfold ReserveExact, writeState in Er.
       repeat case_match; simplify_eq; unfold with_records, records; by destruct (files s). }
  destruct found.
  - apply ReserveExact_new_or_found in Er as Hcase. destruct Hcase as [(_ & rec0 & ->)|[? _]]; [|done].
    apply ReserveExact_found in Er as (-> & Hrec0 & _).
    assert (files (with_records s (records s)) = files s) as Hf by by apply (Hsame s).
    destruct conflict; [by apply Hrefuse|]. destruct (Pending rec0) eqn:Ep; cbn [negb]; [|by apply effect_same].
    destruct (Atoi issueNumber) as [n|] eqn:En; [|by apply Hrefuse]. destruct (n <? 1); [by apply Hrefuse|].
    destruct (listIssueCommentsForReconciliation _) as [comments|] eqn:El; [|by apply Hrefuse].
    assert (reserved_as (with_records s (records s)) rec0) as Hres.
    { split; [done|done| |]; intros; unfold records in *; congruence. }
    destruct (reconcilePendingComment _ _ _ _) as [[g|]|err] eqn:Erec; [|apply effect_create; [done|]|by apply Hrefuse].
    + eapply effect_write; [done|by left].
    + right. by exists rec0, n, comments.
  - rewrite Hps in Er. apply ReserveExact_new in Er as (Hnone & rec0 & -> & -> & <- & Ht); [|done..].
    apply effect_create; [|by left]. split; cbn.
    + intros k Hk. by rewrite lookup_insert_ne.
    + apply lookup_insert_eq.
    + congruence.
    + done.
Qed.
End Effect.

(** ** The history of an issue *)

(** What GitHub makes of a creation: the body as sent, an author, and a time
    that its clock and the broker's agree on to two minutes. *)
Definition comment_of (b : string) (now : time) (c : IssueComment) : Prop :=
  ic_Body c = b ∧ ic_Author c ≠ "" ∧
  ∃ t, parse_time (ic_CreatedAt c) = Some t ∧ now - issueCommentReconciliationClockSkew ≤ t.

(** The broker's state, the comments made under each key, the last clock reading. *)
Record world := { w_state : state; w_made : list (string * IssueComment); w_now : time }.

Definition attempt (srv : server) (e : request_env) (h : gmap string (list string)) (s : state)
    (body : option CommentCreateRequest) : outcome :=
  handleCommentCreate re_compile sha256_hex parse_time hmac_hex effectTokens srv e h s repo issueNumber body.

(** [made]: the comment GitHub makes if the call reaches it. *)
Definition made_by (srv : server) (h : gmap string (list string)) (o : outcome) (made : option IssueComment)
    : list (string * IssueComment) :=
  match o.1.2, made with
  | _ :: _, Some c => [(attempt_key srv h, c)]
  | _, _ => []
  end.

Inductive step : world → world → Prop :=
| attempted srv e h body made w :
  path_set srv = true → w_now w ≤ e_now e →
  (∀ app inst n k c, Atoi issueNumber = Some n → (k, c) ∈ w_made w → lists_comment (e_comments e app repo inst n) c) →
  (∀ app inst b c, (attempt srv e h (w_state w) body).1.2 = [CreateIssueComment app repo issueNumber inst b] →
     made = Some c → comment_of b (e_now e) c) →
  step w {| w_state := (attempt srv e h (w_state w) body).1.1;
            w_made := w_made w ++ made_by srv h (attempt srv e h (w_state w) body) made; w_now := e_now e |}
| elsewhere s w :
  (∀ id key, records s !! comment_key sha256_hex id repo issueNumber key =
             records (w_state w) !! comment_key sha256_hex id repo issueNumber key) →
  step w {| w_state := s; w_made := w_made w; w_now := w_now w |}.

Definition issue_key (k : string) : Prop := ∃ id key, k = comment_key sha256_hex id repo issueNumber key.

Record once (w : world) : Prop := {
  on_nodup : NoDup (map fst (w_made w));
  on_made : ∀ k c, (k, c) ∈ w_made w → issue_key k ∧
    ∃ rec, records (w_state w) !! k = Some rec ∧ (Pending rec = true → comment_of (SemanticBody rec) (CreatedAt rec) c);
  on_time : ∀ k rec, issue_key k → records (w_state w) !! k = Some rec → Pending rec = true → CreatedAt rec ≤ w_now w }.

Lemma comment_of_matches b now c : comment_of b now c → comment_matches parse_time b now c = true.
Proof using Type.
  intros (Hb & Ha & t & Ht & Hle). unfold comment_matches, time_add. rewrite Ht.
  destruct (Z.ltb_spec t (now + - issueCommentReconciliationClockSkew)); [lia|].
  by rewrite (proj2 (String.eqb_eq _ _) Hb), (proj2 (String.eqb_neq _ _) Ha).
Qed.

Lemma comment_of_earlier b now now' c : comment_of b now c → now' ≤ now → comment_of b now' c.
Proof using Type. intros (Hb & Ha & t & Ht & Hle) Hn. split_and!; [done..|]. exists t. split; [done|lia]. Qed.

Lemma attempt_key_issue srv e h s body :
  (attempt srv e h s body).1.2 ≠ [] → issue_key (attempt_key srv h).
Proof using Type.
  unfold attempt, handleCommentCreate, with_principal, attempt_key, issue_key.
  destruct (AuthenticateAgent h (cfg srv)) as [[agent id]|]; [eauto|done].
Qed.

(** A comment made before keeps an attempt from making another. *)
Lemma not_made_again srv e h w app inst b :
  once w → (∀ n k c, Atoi issueNumber = Some n → (k, c) ∈ w_made w → lists_comment (e_comments e app repo inst n) c) →
  may_create srv e h (w_state w) app inst b → attempt_key srv h ∉ map fst (w_made w).
Proof using Type.
  intros Hon Hlist Hmay ([k c] & Ek & Hin)%list_elem_of_fmap. cbn in Ek. unfold may_create in Hmay. rewrite Ek in Hmay.
  destruct (on_made w Hon _ _ Hin) as (_ & rec & Hrec & Hpend).
  destruct Hmay as [Hn|(rec' & n & comments & Hrec' & Hp & Hb & Hn & Hl & Hr)]; simpl in *; [congruence|].
  assert (rec' = rec) as -> by congruence. specialize (Hpend Hp).
  pose proof (listing_complete _ _ _ Hl (Hlist n k c Hn Hin)) as Hc. unfold reconcilePendingComment in Hr.
  destruct (find_comment _ _ _ _ _) as [[f|]|] eqn:Ef; [done| |done].
  pose proof (find_comment_none _ _ _ _ Ef Hc) as Hm. rewrite <- Hb in Hm.
  rewrite (comment_of_matches _ _ _ Hpend) in Hm. done.
Qed.

Lemma step_once w w' : step w w' → once w → once w'.
Proof using Type.
  intros Hstep Hon. destruct Hstep as [srv e h body made w Hps Hnow Hlist Hmade|s w Hkeep].
  2: { destruct Hon as [Hd Hm Ht]. split; cbn; [done| |].
       - intros k c Hin. destruct (Hm k c Hin) as [[id [key ->]] Hrec]. split; [by exists id, key|]. by rewrite Hkeep.
       - intros k rec [id [key ->]]. rewrite Hkeep. apply Ht. by exists id, key. }
  pose proof (comment_effect srv e h (w_state w) body Hps) as Hef. fold (attempt srv e h (w_state w) body) in Hef.
  set (o := attempt srv e h (w_state w) body) in *.
  assert (∀ k rec, issue_key k → records o.1.1 !! k = Some rec → Pending rec = true → CreatedAt rec ≤ e_now e) as Htime.
  { intros k rec Hk Hrec Hp. destruct (decide (k = attempt_key srv h)) as [->|Hne].
    - destruct (ef_time _ _ _ _ _ Hef rec Hrec Hp) as [H|H]; [|lia]. pose proof (on_time w Hon _ _ Hk H Hp). lia.
    - rewrite (ef_other _ _ _ _ _ Hef k Hne) in Hrec. pose proof (on_time w Hon _ _ Hk Hrec Hp). lia. }
  assert (∀ k c, (k, c) ∈ w_made w → issue_key k ∧ ∃ rec, records o.1.1 !! k = Some rec ∧
            (Pending rec = true → comment_of (SemanticBody rec) (CreatedAt rec) c)) as Hold.
  { intros k c Hin. destruct (on_made w Hon k c Hin) as (Hk & rec & Hrec & Hp). split; [done|].
    destruct (decide (k = attempt_key srv h)) as [->|Hne].
    - destruct (ef_kept _ _ _ _ _ Hef rec Hrec) as (rec' & Hrec' & Hp'). exists rec'. split; [done|].
      intros Hpend. assert (rec' = rec) as -> by auto. auto.
    - exists rec. by rewrite (ef_other _ _ _ _ _ Hef k Hne). }
  assert (made_by srv h o made = [] ∨ ∃ app inst b c rec, made_by srv h o made = [(attempt_key srv h, c)] ∧
            may_create srv e h (w_state w) app inst b ∧ records o.1.1 !! attempt_key srv h = Some rec ∧
            (Pending rec = true → SemanticBody rec = b) ∧ comment_of b (e_now e) c ∧ issue_key (attempt_key srv h)) as Hnew.
  { unfold made_by. destruct (ef_sent _ _ _ _ _ Hef) as [->|(app & inst & b & rec & Hs & Hm & Hrec & Hb)]; [by left|].
    destruct made as [c|]; [|left; by destruct (o.1.2)]. right. exists app, inst, b, c, rec. rewrite Hs.
    split_and!; try done; [by eapply Hmade|]. apply (attempt_key_issue srv e h (w_state w) body). fold o. by rewrite Hs. }
  split; cbn [w_made w_state w_now].
  - rewrite map_app. destruct Hnew as [->|(app & inst & b & c & rec & -> & Hm & _)]; [rewrite app_nil_r; apply (on_nodup w Hon)|].
    apply NoDup_app. split_and!; [apply (on_nodup w Hon)| |apply NoDup_singleton].
    intros k Hk ->%list_elem_of_singleton. revert Hk. eapply not_made_again; [done| |done]. intros n k c'. apply Hlist.
  - intros k c [Hin|Hin]%elem_of_app; [by apply Hold|].
    destruct Hnew as [E|(app & inst & b & c' & rec & E & _ & Hrec & Hb & Hc & Hk)]; rewrite E in Hin; [by apply elem_of_nil in Hin|].
    apply list_elem_of_singleton in Hin as [= -> ->]. split; [done|]. exists rec. split; [done|]. intros Hp.
    rewrite (Hb Hp). eapply comment_of_earlier; [done|]. by apply (Htime _ _ Hk Hrec Hp).
  - exact Htime.
Qed.

Definition opened (now : time) : world := {| w_state := fresh; w_made := []; w_now := now |}.

Lemma reachable_once now w : rtc step (opened now) w → once w.
Proof using Type.
  assert (once (opened now)) as H0 by (split; cbn; [constructor|by intros k c ?%elem_of_nil|done]).
  intros H. induction H as [w|w w1 w2 Hs _ IH] in H0 |- *; [done|]. apply IH. by eapply step_once.
Qed.
End Comments.

(** ** Properties *)

(** C4: where idempotency.state_path is set (it has no default, and without it
    every retry comments again), for every issue, whatever agents attempt to
    comment under whatever keys, and however attempts are interrupted (before the
    call, after it, before the response is stored) and retried, no two comments
    are made under one key.  What else writes the broker's files meanwhile is
    arbitrary but for the records under this issue's comment keys, which only
    attempts to comment on it change.  Attempts do not overlap (issueCommentMutationMu is held
    from the reservation of the key to the answer), and GitHub lists the comments
    it made, whole pages first, with their authors and times within two minutes
    of the broker's clock. *)
Theorem comment_created_once re_compile sha256_hex parse_time {K} (hmac_hex : K → string → string) effectTokens
    repo issueNumber now w :
  rtc (step re_compile sha256_hex parse_time hmac_hex effectTokens repo issueNumber) (opened now) w →
  NoDup (map fst (w_made w)).
Proof. intros H. by eapply on_nodup, reachable_once. Qed.

(** A comment whose creation GitHub accepts while its answer is lost, and the retry. *)
Definition made_comment : IssueComment :=
  {| ic_ID := 11; ic_Body := "text"; ic_Author := "bot"; ic_URL := ""; ic_HTMLURL := ""; ic_CreatedAt := "t";
     ic_UpdatedAt := "" |}.
Definition sample_clock (s : string) : option time := if (s =? "t")%string then Some second else None.
Definition with_github (mutate : mutation → option reply_body) (listed : list IssueComment) : request_env :=
  let e := quiet_env "op_1" in
  {| e_op := e_op e; e_now := second; e_gh := e_gh e; e_mutate := mutate;
     e_comments := λ _ _ _ _ page, Some (if (page =? 1)%nat then listed else []);
     e_verify := e_verify e; e_get_pull := e_get_pull e; e_list := e_list e; e_budget := None; e_load := None;
     e_reserve := None; e_store := None; e_lookup := None; e_record := None |}.
Definition lost : request_env := with_github (λ _, None) [].
Definition retried : request_env := with_github willing [made_comment].

Notation tries e s :=
  (attempt agent_prefix no_hash sample_clock (λ (_ : unit) t, t) [] "o/r" "7" plain e (headers_of "a1" "s1" "k") s
     (as_comment (comment_body "text"))).

Definition after_loss : world :=
  {| w_state := (tries lost fresh).1.1; w_now := second;
     w_made := [] ++ made_by no_hash "o/r" "7" plain (headers_of "a1" "s1" "k") (tries lost fresh) (Some made_comment) |}.
Definition after_retry : world :=
  {| w_state := (tries retried (w_state after_loss)).1.1; w_now := second;
     w_made := w_made after_loss ++ made_by no_hash "o/r" "7" plain (headers_of "a1" "s1" "k")
                 (tries retried (w_state after_loss)) (Some made_comment) |}.

(** The retry finds the comment and answers with it. *)
Lemma retry_reconciles :
  (tries lost fresh).1.2 = [CreateIssueComment "default" "o/r" "7" 42 "text"] ∧
  (tries lost fresh).2 = say 502 (Refused "github_error") ∧
  (tries retried (w_state after_loss)).1.2 = [] ∧
  (tries retried (w_state after_loss)).2 = say 201 (Done (RResult (comment_result made_comment))).
Proof. by vm_compute. Qed.

Lemma comment_created_once_witness :
  length (w_made after_retry) = 1%nat ∧ NoDup (map fst (w_made after_retry)).
Proof.
  split; [by vm_compute|].
  apply (@comment_created_once agent_prefix no_hash sample_clock unit (λ _ t, t) [] "o/r" "7" second after_retry).
  destruct retry_reconciles as (E1 & _ & E2 & _).
  eapply rtc_l; [|eapply rtc_l; [|apply rtc_refl]].
  - apply (attempted agent_prefix no_hash sample_clock (λ (_ : unit) t, t) [] "o/r" "7" plain lost
      (headers_of "a1" "s1" "k") (as_comment (comment_body "text")) (Some made_comment) (opened second)).
    + reflexivity.
    + reflexivity.
    + intros app inst n k c _ Hin. destruct (not_elem_of_nil _ Hin).
    + cbn [w_state opened]. rewrite E1. intros app inst b c [= <- <- <-] [= <-]. split_and!; [done..|].
      exists second. split; [done|by vm_compute].
  - apply (attempted agent_prefix no_hash sample_clock (λ (_ : unit) t, t) [] "o/r" "7" plain retried
      (headers_of "a1" "s1" "k") (as_comment (comment_body "text")) (Some made_comment) after_loss).
    + reflexivity.
    + reflexivity.
    + intros app inst n k c _ Hin. exists 1%nat. split; [done|]. split; [intros j batch ?; lia|].
      intros batch [= <-]. apply list_elem_of_singleton.
      assert (map snd (w_made after_loss) = [made_comment]) as Em.
      { unfold after_loss, made_by. cbn [w_made]. rewrite E1. reflexivity. }
      assert (c ∈ map snd (w_made after_loss)) as Hc.
      { apply list_elem_of_fmap. exists (k, c). split; [reflexivity|exact Hin]. }
      rewrite Em in Hc. by apply list_elem_of_singleton in Hc.
    + rewrite E2. done.
Defined.
