(* ===== verification/Sandbox.v ===== *)
(** * Sandbox launches: selection, specification, capability claims

    internal/sandbox decides whether and as what a worker container may be
    launched: [selectLaunchTemplate] validates a request against its template
    and pins the image, [runtimeSpec] builds the container's specification,
    [deriveCapabilityClaims] the claims of its capability.  Profiles with a
    Codex workflow are not modelled, nor are error texts and redaction.  A JSON
    parameter is kept as its text; the operator's regular expressions, random
    bytes and the release registry's answer are arguments. *)

From stdpp Require Import pretty.
From S2P Require Import Prelude GoStrings GoTime GoJson Regex Capability.
Open Scope string_scope.
Open Scope list_scope.
Open Scope Z_scope.

(** ** Configuration *)

Record Resources := { CPUShares : Z; MemoryMB : Z; PidsLimit : Z }.

Record BranchPolicy := {
  AllowedPatterns : list string; BaseBranches : list string; GeneratePrefix : string }.

Record ExtraMount := { em_SourcePath : string; em_MountPath : string; em_ReadOnly : bool }.

Record CapabilityPolicy := {
  Mode : string; ModelAccess : bool; pol_AllowedModels : list string; CallBudget : Z; TokenBudget : Z }.

Record NetworkPolicy := { Network : string; NoNetwork : bool }.

(** The fields the launch path reads. *)
Record CredentialBundle := { SourcePath : string; MountPath : string; AllowedTemplates : list string }.

Record Template := {
  Image : string; AgentType : string; Entrypoint : list string; Command : list string; User : string;
  tmpl_Resources : Resources; tmpl_NetworkPolicy : string; MaxRuntimeMinutes : Z;
  BrokerAgentID : string; BrokerAgentSecret : string; tmpl_BranchPolicy : BranchPolicy;
  tmpl_CredentialBundle : string; tmpl_Deliverables : list string; Environment : gmap string string;
  ExtraMounts : list ExtraMount; StorageLimitMB : Z; Tmpfs : gmap string Z;
  tmpl_Capability : option CapabilityPolicy }.

Record Config := {
  RunsDir : string; BrokerURL : string; Repositories : list string;
  Networks : gmap string NetworkPolicy; Bundles : gmap string CredentialBundle;
  Templates : gmap string Template; MaxConcurrentRuns : gmap string Z;
  MaxTaskBytes : Z; ConfigVersion : string }.

(** ** A launch request and the run it becomes *)

Record LaunchAgentInput := {
  in_Template : string; in_Task : string; in_VerificationTask : string; in_Repo : string;
  in_BaseBranch : string; in_Branch : string; in_MaxRuntimeMinutes : Z; in_MaxRuntimeSeconds : Z;
  in_Deliverables : list string; in_Focus : string; in_Parameters : gmap string string;
  in_Profile : string; in_WorkItem : string }.

Definition StatusPending := "pending".
Definition StatusRunning := "running".
Definition StatusWaitingExternal := "waiting_external".
Definition StatusCompleted := "completed".
Definition StatusStopped := "stopped".
Definition StatusFailed := "failed".
Definition StatusTimedOut := "timed_out".
Definition StatusCancelled := "cancelled".
Definition StatusCleaned := "cleaned".

Definition isTerminalStatus (status : string) : bool :=
  existsb (String.eqb status)
    [StatusCompleted; StatusStopped; StatusFailed; StatusTimedOut; StatusCancelled; StatusCleaned].

(** What a launch fixes about a run. *)
Record RunIdentity := {
  RunID : string; WorkItemID : string; Profile : string; Principal : string;
  IdempotencyKeyDigest : string; RequestFingerprint : string; LaunchConfigVersion : string;
  run_Template : string; Repo : string; BaseBranch : string; Branch : string; Task : string;
  VerificationTask : string; Focus : string; WorkerAgentID : string; run_BrokerAgentID : string;
  run_CredentialBundle : string; run_Image : string; ResolvedReleaseGeneration : Z;
  Deliverables : list string; Parameters : gmap string string; StartedAt : time; Deadline : time }.

(** RunMetadata without the fields of the Codex workflow and the error text. *)
Record RunMetadata := {
  m_run : RunIdentity; m_ContainerID : string; m_ImageDigest : string; m_Status : string;
  m_ExitCode : option Z; m_FinalizeReason : string; m_TerminalSource : string; m_EndedAt : time }.

Definition m_RunID (m : RunMetadata) : string := RunID (m_run m).

Record ResolvedRelease := { Generation : Z; ImageReference : string; ImageDigest : string }.

(** ** Validation *)

Inductive launch_error :=
| LUnknownTemplate | LRepoMalformed | LRepoNotAllowed | LTaskRequired | LTaskTooLong
| LVerificationTaskTooLong | LBaseBranchRequired | LBaseBranchNotAllowed | LRandom | LBranchUnsafe
| LBranchNotAllowed | LRuntimeBoth | LRuntimeNotPositive | LRuntimeTooLong | LRuntimeOutOfRange
| LNoRegistry | LNoRelease | LContractTooLong.

Definition minute : Z := 60 * second.

Fixpoint contains (items : list string) (want : string) : bool :=
  match items with
  | [] => false
  | item :: items => if (item =? want)%string then true else contains items want
  end.

Fixpoint containsFold (items : list string) (want : string) : bool :=
  match items with
  | [] => false
  | item :: items => if equal_fold item want then true else containsFold items want
  end.

(** strings.ContainsAny, of ASCII characters *)
Definition contains_any (s set : string) : bool := existsb (one_of set) (chars s).

Definition has_suffix (p s : string) : bool := has_prefix (String.rev p) (String.rev s).

(** strings.Split(s, "/") and strings.TrimRight(s, "/") *)
Fixpoint split_slash (s : string) : list string :=
  match s with
  | EmptyString => [""]
  | String c s =>
    if Ascii.eqb c "/" then "" :: split_slash s else
    match split_slash s with
    | part :: parts => String c part :: parts
    | [] => [String c ""]
    end
  end.

Fixpoint trim_left_slash (s : string) : string :=
  match s with String c s' => if Ascii.eqb c "/" then trim_left_slash s' else s | EmptyString => s end.
Definition trim_right_slash (s : string) : string := String.rev (trim_left_slash (String.rev s)).

Definition repo_part (part : string) : bool :=
  negb ((part =? "")%string || GoStrings.contains part ".git" || contains_any part "\:")
  && negb (GoStrings.contains part "..").

Definition validRepo (repo : string) : bool :=
  match split_slash repo with
  | [a; b] => repo_part a && repo_part b
  | _ => false
  end.

Definition safeBranch (branch : string) : bool :=
  negb ((branch =? "")%string || has_prefix "/" branch || has_suffix "/" branch
        || GoStrings.contains branch ".." || GoStrings.contains branch "\" || contains_any branch " ~^:?*["
        || has_suffix ".lock" branch || GoStrings.contains branch "//" || GoStrings.contains branch "@{").

Definition safeRunID_re : re := plus (Cls (word alnum "_.:-")).
Definition safeRunID (id : string) : bool :=
  negb ((id =? "")%string || GoStrings.contains id "/" || GoStrings.contains id "..")
  && matches safeRunID_re id.

Definition safeEnvKey_re : re :=
  Seq (Cls (word is_upper "_")) (Star (Cls (word (λ c, is_upper c || is_digit c) "_"))).
Definition safeEnvKey (key : string) : bool :=
  matches safeEnvKey_re key && negb (GoStrings.contains key "SECRET")
  && negb (GoStrings.contains key "TOKEN") && negb (key =? "PATH")%string.

(** A Duration is an int64 of nanoseconds. *)
Definition runtimeLimit (i : LaunchAgentInput) (tmpl : Template) : result launch_error Z :=
  let maxRuntime := wrap64 (MaxRuntimeMinutes tmpl * minute) in
  fail_if negb (in_MaxRuntimeMinutes i =? 0) && negb (in_MaxRuntimeSeconds i =? 0) with LRuntimeBoth ;;
  if negb (in_MaxRuntimeSeconds i =? 0) then
    fail_if in_MaxRuntimeSeconds i <? 1 with LRuntimeNotPositive ;;
    let limit := wrap64 (in_MaxRuntimeSeconds i * second) in
    fail_if maxRuntime <? limit with LRuntimeTooLong ;;
    Ok limit
  else
    let runtimeMinutes := if in_MaxRuntimeMinutes i =? 0 then MaxRuntimeMinutes tmpl else in_MaxRuntimeMinutes i in
    fail_if (runtimeMinutes <? 1) || (MaxRuntimeMinutes tmpl <? runtimeMinutes) with LRuntimeOutOfRange ;;
    Ok (wrap64 (runtimeMinutes * minute)).

(** ** Selection *)

(** time.Format("20060102T150405Z") *)
Definition compact_stamp (sec : Z) : string :=
  let '(year, yday) := civil_year (sec / 86400) in
  let '(month, day) := month_day (month_lengths (is_leap year)) 1 yday in
  let s := sec mod 86400 in
  format_year year +:+ pad 2 month +:+ pad 2 day +:+ "T" +:+
  pad 2 (s / 3600) +:+ pad 2 (s / 60 mod 60) +:+ pad 2 (s mod 60) +:+ "Z".

(** hex.EncodeToString *)
Fixpoint hex_text (s : string) : string :=
  match s with
  | EmptyString => EmptyString
  | String c s => String (hex_digit (code c / 16)) (String (hex_digit (code c mod 16)) (hex_text s))
  end.

(** [raw] is what rand.Read gives, [None] an error. *)
Definition newRunID (now : time) (raw : option string) : option string :=
  (λ b, compact_stamp (unix_sec now) +:+ "-" +:+ hex_text b) <$> raw.

Definition workerAgentID (tmpl : Template) (runID : string) : string :=
  BrokerAgentID tmpl +:+ ":" +:+ runID.

Fixpoint dedup (seen items : list string) : list string :=
  match items with
  | [] => []
  | item :: items =>
    let item := trim_space item in
    if (item =? "")%string || contains seen item then dedup seen items
    else item :: dedup (item :: seen) items
  end.
Definition deliverables (requested defaults : list string) : list string := dedup [] (defaults ++ requested).

Section Select.
Context {R : Type}.
Variable re_compile : string → option R.
Variable re_match : R → string → bool.

Fixpoint matchesAny (patterns : list string) (value : string) : bool :=
  match patterns with
  | [] => false
  | pattern :: patterns =>
    match re_compile pattern with
    | Some re => if re_match re value then true else matchesAny patterns value
    | None => matchesAny patterns value
    end
  end.

Definition launch_branch (i : LaunchAgentInput) (tmpl : Template) (runID : string) : string :=
  let branch := trim_space (in_Branch i) in
  if (branch =? "")%string then
    let prefix := GeneratePrefix (tmpl_BranchPolicy tmpl) in
    let prefix := if (prefix =? "")%string then "agent" else prefix in
    trim_right_slash prefix +:+ "/" +:+ BrokerAgentID tmpl +:+ "/" +:+ runID
  else branch.

Definition validateLaunch (cfg : Config) (i : LaunchAgentInput) (now : time) (raw : option string)
    : result launch_error (Template * string * string * Z) :=
  match Templates cfg !! in_Template i with
  | None => Err LUnknownTemplate
  | Some tmpl =>
    let pol := tmpl_BranchPolicy tmpl in
    fail_if negb (validRepo (in_Repo i)) with LRepoMalformed ;;
    fail_if negb (containsFold (Repositories cfg) (in_Repo i)) with LRepoNotAllowed ;;
    fail_if (trim_space (in_Task i) =? "")%string with LTaskRequired ;;
    fail_if MaxTaskBytes cfg <? Z.of_nat (String.length (in_Task i)) with LTaskTooLong ;;
    fail_if MaxTaskBytes cfg <? Z.of_nat (String.length (in_VerificationTask i)) with LVerificationTaskTooLong ;;
    fail_if (trim_space (in_BaseBranch i) =? "")%string with LBaseBranchRequired ;;
    fail_if negb (is_nil (BaseBranches pol)) && negb (contains (BaseBranches pol) (in_BaseBranch i))
      with LBaseBranchNotAllowed ;;
    match newRunID now raw with
    | None => Err LRandom
    | Some runID =>
      let branch := launch_branch i tmpl runID in
      fail_if negb (safeBranch branch) with LBranchUnsafe ;;
      fail_if negb (is_nil (AllowedPatterns pol)) && negb (matchesAny (AllowedPatterns pol) branch)
        with LBranchNotAllowed ;;
      limit ← runtimeLimit i tmpl;
      Ok (tmpl, runID, branch, limit)
    end
  end.

Definition with_image (tmpl : Template) (image : string) : Template :=
  {| Image := image; AgentType := AgentType tmpl; Entrypoint := Entrypoint tmpl; Command := Command tmpl;
     User := User tmpl; tmpl_Resources := tmpl_Resources tmpl; tmpl_NetworkPolicy := tmpl_NetworkPolicy tmpl;
     MaxRuntimeMinutes := MaxRuntimeMinutes tmpl; BrokerAgentID := BrokerAgentID tmpl;
     BrokerAgentSecret := BrokerAgentSecret tmpl; tmpl_BranchPolicy := tmpl_BranchPolicy tmpl;
     tmpl_CredentialBundle := tmpl_CredentialBundle tmpl; tmpl_Deliverables := tmpl_Deliverables tmpl;
     Environment := Environment tmpl; ExtraMounts := ExtraMounts tmpl; StorageLimitMB := StorageLimitMB tmpl;
     Tmpfs := Tmpfs tmpl; tmpl_Capability := tmpl_Capability tmpl |}.

(** [resolver] is the release registry, if one is configured: the runnable
    release of an agent type, [None] when there is none. *)
Definition selectLaunchTemplate (cfg : Config) (resolver : option (string → option ResolvedRelease))
    (i : LaunchAgentInput) (now : time) (raw : option string)
    : result launch_error (Template * string * string * Z * option ResolvedRelease) :=
  '(tmpl, runID, branch, limit) ← validateLaunch cfg i now raw;
  if (AgentType tmpl =? "")%string then Ok (tmpl, runID, branch, limit, None) else
  match resolver with
  | None => Err LNoRegistry
  | Some resolve =>
    match resolve (AgentType tmpl) with
    | None => Err LNoRelease
    | Some r =>
      let image := if has_prefix "local.agent/" (ImageReference r) then ImageDigest r else ImageReference r in
      Ok (with_image tmpl image, runID, branch, limit, Some r)
    end
  end.
End Select.

Definition applyResolvedRelease (m : RunMetadata) (release : option ResolvedRelease) : RunMetadata :=
  match release with
  | None => m
  | Some r =>
    let i := m_run m in
    {| m_run := {| RunID := RunID i; WorkItemID := WorkItemID i; Profile := Profile i; Principal := Principal i;
                   IdempotencyKeyDigest := IdempotencyKeyDigest i; RequestFingerprint := RequestFingerprint i;
                   LaunchConfigVersion := LaunchConfigVersion i; run_Template := run_Template i; Repo := Repo i;
                   BaseBranch := BaseBranch i; Branch := Branch i; Task := Task i;
                   VerificationTask := VerificationTask i; Focus := Focus i; WorkerAgentID := WorkerAgentID i;
                   run_BrokerAgentID := run_BrokerAgentID i; run_CredentialBundle := run_CredentialBundle i;
                   run_Image := run_Image i; ResolvedReleaseGeneration := Generation r;
                   Deliverables := Deliverables i; Parameters := Parameters i; StartedAt := StartedAt i;
                   Deadline := Deadline i |};
       m_ContainerID := m_ContainerID m; m_ImageDigest := ImageDigest r; m_Status := m_Status m;
       m_ExitCode := m_ExitCode m; m_FinalizeReason := m_FinalizeReason m;
       m_TerminalSource := m_TerminalSource m; m_EndedAt := m_EndedAt m |}
  end.

(** ** The task contract *)

(** json.Marshal of taskContract; the field tags say omitempty for the optional ones. *)
Definition taskContract (cfg : Config) (i : RunIdentity) : string :=
  json_object (
    [("run_id", json_string (RunID i)); ("task", json_string (Task i))]
    ++ when (negb (VerificationTask i =? "")%string) "verification_task" (json_string (VerificationTask i))
    ++ when (negb (Focus i =? "")%string) "focus" (json_string (Focus i))
    ++ [("repo", json_string (Repo i)); ("base_branch", json_string (BaseBranch i));
        ("branch", json_string (Branch i)); ("worker_agent_id", json_string (WorkerAgentID i));
        ("broker_remote_url",
           json_string (trim_right_slash (BrokerURL cfg) +:+ "/git/" +:+ Repo i +:+ ".git"))]
    ++ when (negb (is_nil (Deliverables i))) "deliverables" (json_strings (Deliverables i))
    ++ when (negb (bool_decide (Parameters i = ∅))) "parameters" (json_params (Parameters i))).

Definition validateTaskContract (cfg : Config) (contract : string) : result launch_error unit :=
  fail_if MaxTaskBytes cfg <? Z.of_nat (String.length contract) with LContractTooLong ;; Ok ().

(** The metadata LaunchProfile starts a run with. *)
Definition launch_metadata (cfg : Config) (principal profile digest fingerprint : string)
    (i : LaunchAgentInput) (tmpl : Template) (runID branch : string) (limit : Z)
    (release : option ResolvedRelease) (now : time) : RunMetadata :=
  applyResolvedRelease
    {| m_run := {| RunID := runID; WorkItemID := in_WorkItem i; Profile := profile; Principal := principal;
                   IdempotencyKeyDigest := digest; RequestFingerprint := fingerprint;
                   LaunchConfigVersion := ConfigVersion cfg; run_Template := in_Template i; Repo := in_Repo i;
                   BaseBranch := in_BaseBranch i; Branch := branch; Task := in_Task i;
                   VerificationTask := in_VerificationTask i; Focus := in_Focus i;
                   WorkerAgentID := workerAgentID tmpl runID; run_BrokerAgentID := BrokerAgentID tmpl;
                   run_CredentialBundle := tmpl_CredentialBundle tmpl; run_Image := Image tmpl;
                   ResolvedReleaseGeneration := 0;
                   Deliverables := deliverables (in_Deliverables i) (tmpl_Deliverables tmpl);
                   Parameters := in_Parameters i; StartedAt := now; Deadline := time_add now limit |};
       m_ContainerID := ""; m_ImageDigest := ""; m_Status := StatusPending; m_ExitCode := None;
       m_FinalizeReason := ""; m_TerminalSource := ""; m_EndedAt := zero_time |} release.

(** ** The container's specification *)

Record Mount := { mnt_Source : string; mnt_Target : string; mnt_ReadOnly : bool }.

Record RuntimeSpec := {
  sp_RunID : string; sp_Image : string; sp_Entrypoint : list string; sp_Command : list string;
  sp_User : string; sp_Env : gmap string string; sp_Labels : gmap string string; sp_Mounts : list Mount;
  sp_Network : NetworkPolicy; sp_Resources : Resources; sp_WorkingDir : string; sp_Timeout : Z;
  sp_Tmpfs : gmap string Z; sp_StorageLimitMB : Z }.

Definition capabilityEnvKey := "AGENT_CAPABILITY_TOKEN".

(** [runDir] is filepath.Join of the cleaned runs directory and the run's id;
    the configured directory is taken to be clean. *)
Definition runDir (cfg : Config) (runID : string) : string := RunsDir cfg +:+ "/" +:+ runID.

Definition insert_all (kvs : list (string * string)) (m : gmap string string) : gmap string string :=
  foldl (λ m '(k, v), <[k := v]> m) m kvs.

Definition worker_env (cfg : Config) (i : RunIdentity) (tmpl : Template) (capabilityHandle : string)
    : gmap string string :=
  let env := insert_all
    [("SANDBOX_RUN_ID", RunID i); ("SANDBOX_REPO", Repo i); ("SANDBOX_BRANCH", Branch i);
     ("SANDBOX_BASE_BRANCH", BaseBranch i); ("HOME", "/work/home"); ("HERMES_HOME", "/work/hermes")] ∅ in
  let env :=
    if negb (BrokerAgentID tmpl =? "")%string && negb (BrokerAgentSecret tmpl =? "")%string
    then insert_all [("BROKER_URL", BrokerURL cfg); ("BROKER_AGENT_ID", BrokerAgentID tmpl);
                     ("BROKER_AGENT_SECRET", BrokerAgentSecret tmpl)] env
    else env in
  let env := filter (λ kv, safeEnvKey kv.1 = true) (Environment tmpl) ∪ env in
  let env := insert_all
    [("AGENT_RUN_ID", RunID i); ("AGENT_REPO", Repo i); ("AGENT_BASE_BRANCH", BaseBranch i);
     ("AGENT_BRANCH", Branch i); ("AGENT_TASK", Task i); ("AGENT_VERIFY_TASK", VerificationTask i)] env in
  if (capabilityHandle =? "")%string then env else <[capabilityEnvKey := capabilityHandle]> env.

(** [None] is the refusal of a credential bundle that does not allow the template. *)
Definition runtimeSpec (cfg : Config) (i : RunIdentity) (tmpl : Template) (capabilityHandle : string)
    : option RuntimeSpec :=
  let dir := runDir cfg (RunID i) in
  let bundle := default {| SourcePath := ""; MountPath := ""; AllowedTemplates := [] |}
                  (Bundles cfg !! tmpl_CredentialBundle tmpl) in
  let has_bundle := negb (tmpl_CredentialBundle tmpl =? "")%string in
  if has_bundle && negb (contains (AllowedTemplates bundle) (run_Template i)) then None else
  let mounts :=
    [{| mnt_Source := dir +:+ "/input"; mnt_Target := "/input"; mnt_ReadOnly := true |};
     {| mnt_Source := dir +:+ "/work"; mnt_Target := "/work"; mnt_ReadOnly := false |};
     {| mnt_Source := dir +:+ "/output"; mnt_Target := "/output"; mnt_ReadOnly := false |};
     {| mnt_Source := dir +:+ "/lessons"; mnt_Target := "/lessons"; mnt_ReadOnly := false |}]
    ++ (if has_bundle
        then [{| mnt_Source := SourcePath bundle; mnt_Target := MountPath bundle; mnt_ReadOnly := true |}]
        else [])
    ++ map (λ m, {| mnt_Source := em_SourcePath m; mnt_Target := em_MountPath m;
                    mnt_ReadOnly := em_ReadOnly m |}) (ExtraMounts tmpl) in
  Some {| sp_RunID := RunID i;
          sp_Image := if (run_Image i =? "")%string then Image tmpl else run_Image i;
          sp_Entrypoint := Entrypoint tmpl; sp_Command := Command tmpl; sp_User := User tmpl;
          sp_Env := worker_env cfg i tmpl capabilityHandle;
          sp_Labels := insert_all [("gh-agent-broker.sandbox", "true"); ("gh-agent-broker.run_id", RunID i);
                                   ("gh-agent-broker.template", run_Template i)] ∅;
          sp_Mounts := mounts;
          sp_Network := default {| Network := ""; NoNetwork := false |} (Networks cfg !! tmpl_NetworkPolicy tmpl);
          sp_Resources := tmpl_Resources tmpl; sp_WorkingDir := "/work";
          sp_Timeout := time_sub (Deadline i) (StartedAt i); sp_Tmpfs := Tmpfs tmpl;
          sp_StorageLimitMB := StorageLimitMB tmpl |}.

Definition launch_spec_label := "gh-agent-broker.launch_spec".

Definition with_labels (spec : RuntimeSpec) (labels : gmap string string) : RuntimeSpec :=
  {| sp_RunID := sp_RunID spec; sp_Image := sp_Image spec; sp_Entrypoint := sp_Entrypoint spec;
     sp_Command := sp_Command spec; sp_User := sp_User spec; sp_Env := sp_Env spec; sp_Labels := labels;
     sp_Mounts := sp_Mounts spec; sp_Network := sp_Network spec; sp_Resources := sp_Resources spec;
     sp_WorkingDir := sp_WorkingDir spec; sp_Timeout := sp_Timeout spec; sp_Tmpfs := sp_Tmpfs spec;
     sp_StorageLimitMB := sp_StorageLimitMB spec |}.

(** [json_spec] is json.Marshal of a specification. *)
Definition runtimeSpecDigest (sha256_hex : string → string) (json_spec : RuntimeSpec → string)
    (spec : RuntimeSpec) : string :=
  "v1:" +:+ sha256_hex (json_spec (with_labels spec (delete launch_spec_label (sp_Labels spec)))).

(** ** The capability of a run *)

Definition mintsCapability (tmpl : Template) : bool :=
  negb (AgentType tmpl =? "")%string && bool_decide (is_Some (tmpl_Capability tmpl)).

Inductive derive_error :=
| DNoAgentType | DNoPolicy | DNoRunID | DNoWorkItem | DWorkItemIsRun | DNoDeadline | DClaims (e : cap_error).

Definition deriveCapabilityClaims (tmpl : Template) (i : RunIdentity) : result derive_error Claims :=
  fail_if (AgentType tmpl =? "")%string with DNoAgentType ;;
  match tmpl_Capability tmpl with
  | None => Err DNoPolicy
  | Some pol =>
    fail_if (RunID i =? "")%string with DNoRunID ;;
    fail_if (trim_space (WorkItemID i) =? "")%string with DNoWorkItem ;;
    fail_if (WorkItemID i =? RunID i)%string with DWorkItemIsRun ;;
    fail_if is_zero (Deadline i) with DNoDeadline ;;
    match NewClaims {| in_AgentType := AgentType tmpl; in_Mode := Mode pol; in_RunID := RunID i;
                       in_WorkItemID := WorkItemID i;
                       in_AllowedModels := if ModelAccess pol then pol_AllowedModels pol else [];
                       in_CallBudget := CallBudget pol; in_TokenBudget := TokenBudget pol;
                       in_Expiry := Deadline i |} with
    | Ok c => Ok c
    | Err e => Err (DClaims e)
    end
  end.

(** ** What selection admits *)

Lemma contains_elem items want : contains items want = true ↔ want ∈ items.
Proof.
  induction items as [|item items IH]; cbn; [split; [done|by intros ?%elem_of_nil]|].
  rewrite elem_of_cons. destruct (String.eqb_spec item want) as [->|Hn]; [tauto|].
  rewrite IH. split; [auto|intros [?|?]; congruence || done].
Qed.

Lemma containsFold_elem items want :
  containsFold items want = true ↔ ∃ item, item ∈ items ∧ equal_fold item want = true.
Proof.
  induction items as [|item items IH]; cbn; [by rewrite elem_exists_nil|].
  rewrite elem_exists_cons, <- IH. destruct (equal_fold item want); naive_solver.
Qed.

(** A request says nothing, minutes or seconds, and gets what it said. *)
Definition runtime_spec (i : LaunchAgentInput) (tmpl : Template) (limit : Z) : Prop :=
  let max := MaxRuntimeMinutes tmpl in
  (in_MaxRuntimeSeconds i = 0 ∧ in_MaxRuntimeMinutes i = 0 ∧ 1 ≤ max ∧ limit = max * minute) ∨
  (in_MaxRuntimeSeconds i = 0 ∧ 1 ≤ in_MaxRuntimeMinutes i ≤ max ∧ limit = in_MaxRuntimeMinutes i * minute) ∨
  (in_MaxRuntimeMinutes i = 0 ∧ 1 ≤ in_MaxRuntimeSeconds i ∧ in_MaxRuntimeSeconds i * second ≤ max * minute ∧
   limit = in_MaxRuntimeSeconds i * second).

(** The range in which no product of the computation overflows: about 292 years. *)
Definition runtime_range (i : LaunchAgentInput) (tmpl : Template) : Prop :=
  -9223372036 ≤ in_MaxRuntimeSeconds i ≤ 9223372036 ∧
  -153722867 ≤ MaxRuntimeMinutes tmpl ≤ 153722867.

Lemma runtimeLimit_spec i tmpl limit :
  runtime_range i tmpl → runtimeLimit i tmpl = Ok limit ↔ runtime_spec i tmpl limit.
Proof.
  intros [Hs Hm]. unfold runtimeLimit, runtime_spec. cbv zeta. unfold minute, second in *.
  assert (∀ z, -9223372036000000000 ≤ z ≤ 9223372036000000000 → wrap64 z = z) as Hw.
  { intros z Hz. apply wrap64_id. unfold int64, min_int64, max_int64. lia. }
  rewrite (Hw (MaxRuntimeMinutes tmpl * _)), (Hw (in_MaxRuntimeSeconds i * _)) by lia.
  destruct (Z.eqb_spec (in_MaxRuntimeMinutes i) 0) as [E|E], (Z.eqb_spec (in_MaxRuntimeSeconds i) 0) as [F|F]; cbn.
  - destruct (Z.ltb_spec (MaxRuntimeMinutes tmpl) 1); cbn; [split; [done|lia]|].
    rewrite Z.ltb_irrefl, Hw by lia. split; [intros [= <-]; by left|intros; f_equal; lia].
  - destruct (Z.ltb_spec (in_MaxRuntimeSeconds i) 1); [split; [done|lia]|].
    destruct (Z.ltb_spec (MaxRuntimeMinutes tmpl * (60 * 1000000000)) (in_MaxRuntimeSeconds i * 1000000000)).
    + split; [done|lia].
    + split; [intros [= <-]; by right; right|intros; f_equal; lia].
  - destruct (Z.ltb_spec (in_MaxRuntimeMinutes i) 1), (Z.ltb_spec (MaxRuntimeMinutes tmpl) (in_MaxRuntimeMinutes i));
      cbn; try (split; [done|lia]).
    rewrite Hw by lia. split; [intros [= <-]; right; left; lia|intros; f_equal; lia].
  - split; [done|lia].
Qed.

Section SelectSpec.
Context {R : Type}.
Variable re_compile : string → option R.
Variable re_match : R → string → bool.

Lemma matchesAny_elem patterns value :
  matchesAny re_compile re_match patterns value = true ↔
  ∃ pattern, pattern ∈ patterns ∧ ∃ re, re_compile pattern = Some re ∧ re_match re value = true.
Proof.
  induction patterns as [|p ps IH]; cbn; [by rewrite elem_exists_nil|].
  rewrite elem_exists_cons, <- IH. destruct (re_compile p) as [re|].
  2: { split; [by right|by intros [(? & ? & _)|?]]. }
  destruct (re_match re value) eqn:E.
  - split; [|done]. intros _. left. by exists re.
  - split; [by right|]. intros [(? & [= <-] & ?)|?]; [congruence|done].
Qed.

(** The operator's policy for a request. *)
Record admitted (cfg : Config) (i : LaunchAgentInput) (tmpl : Template) (runID branch : string) (limit : Z) : Prop := {
  am_template : Templates cfg !! in_Template i = Some tmpl;
  am_repo : validRepo (in_Repo i) = true ∧ ∃ repo, repo ∈ Repositories cfg ∧ equal_fold repo (in_Repo i) = true;
  am_task : trim_space (in_Task i) ≠ "" ∧ Z.of_nat (String.length (in_Task i)) ≤ MaxTaskBytes cfg;
  am_verification : Z.of_nat (String.length (in_VerificationTask i)) ≤ MaxTaskBytes cfg;
  am_base : trim_space (in_BaseBranch i) ≠ "" ∧
    (BaseBranches (tmpl_BranchPolicy tmpl) = [] ∨ in_BaseBranch i ∈ BaseBranches (tmpl_BranchPolicy tmpl));
  am_branch : branch = launch_branch i tmpl runID ∧ safeBranch branch = true ∧
    (AllowedPatterns (tmpl_BranchPolicy tmpl) = [] ∨ ∃ pattern, pattern ∈ AllowedPatterns (tmpl_BranchPolicy tmpl) ∧
       ∃ re, re_compile pattern = Some re ∧ re_match re branch = true);
  am_runtime : runtime_spec i tmpl limit }.

(** The image a launch runs: the template's, or what the registry pinned. *)
Definition pinned (resolver : option (string → option ResolvedRelease)) (tmpl : Template)
    (tmpl' : Template) (release : option ResolvedRelease) : Prop :=
  if (AgentType tmpl =? "")%string then tmpl' = tmpl ∧ release = None
  else ∃ resolve r, resolver = Some resolve ∧ resolve (AgentType tmpl) = Some r ∧ release = Some r ∧
    tmpl' = with_image tmpl (if has_prefix "local.agent/" (ImageReference r) then ImageDigest r else ImageReference r).

Lemma optional_list {A} (l : list A) b : negb (is_nil l) && negb b = false ↔ l = [] ∨ b = true.
Proof. rewrite andb_false_iff, !negb_false_iff, is_nil_true. done. Qed.

Lemma validateLaunch_spec cfg i now raw tmpl runID branch limit :
  runtime_range i tmpl →
  validateLaunch re_compile re_match cfg i now raw = Ok (tmpl, runID, branch, limit) ↔
  newRunID now raw = Some runID ∧ admitted cfg i tmpl runID branch limit.
Proof.
  intros Hr. unfold validateLaunch. destruct (Templates cfg !! in_Template i) as [tmpl'|] eqn:Et.
  2: { split; [done|]. intros [_ []]. congruence. }
  cbv zeta. rewrite !fail_if_ok. destruct (newRunID now raw) as [id|].
  2: { split; [naive_solver|by intros [? _]]. }
  rewrite !fail_if_ok. setoid_rewrite bind_ok_iff.
  rewrite !optional_list, !negb_false_iff, !String.eqb_neq, !Z.ltb_ge, containsFold_elem, contains_elem, matchesAny_elem.
  split.
  - intros (? & ? & ? & ? & ? & ? & ? & ? & ? & l & Hl & [= <- <- <- <-]).
    split; [done|]. by split; [| | | | | |apply runtimeLimit_spec].
  - intros [[= ->] [Ht [? ?] [? ?] ? [? ?] (-> & ? & ?) ?]]. rewrite Et in Ht. injection Ht as ->.
    split_and!; try done. exists limit. by split; [apply runtimeLimit_spec|].
Qed.

(** A launch is selected exactly when the operator's policy admits the
    request; the run gets a new identifier, the admitted branch and runtime, and
    the image the release registry pins for the template's agent type. *)
Theorem selectLaunchTemplate_ok_iff cfg resolver i now raw tmpl' runID branch limit release :
  (∀ tmpl, Templates cfg !! in_Template i = Some tmpl → runtime_range i tmpl) →
  selectLaunchTemplate re_compile re_match cfg resolver i now raw = Ok (tmpl', runID, branch, limit, release) ↔
  ∃ tmpl, newRunID now raw = Some runID ∧ admitted cfg i tmpl runID branch limit ∧ pinned resolver tmpl tmpl' release.
Proof.
  intros Hr. unfold selectLaunchTemplate, pinned. rewrite bind_ok_iff. split.
  - intros ([[[tmpl id] br] l] & Hv & Hsel). exists tmpl.
    assert (Templates cfg !! in_Template i = Some tmpl) as Ht.
    { unfold validateLaunch in Hv. destruct (Templates cfg !! _) as [x|]; [|done]. cbv zeta in Hv. peel Hv.
      destruct (newRunID _ _); [|done]. peel Hv. by apply bind_ok in Hv as (? & _ & [= -> _ _ _]). }
    apply validateLaunch_spec in Hv as [Hid Ha]; [|by apply Hr].
    destruct (AgentType tmpl =? "")%string; [by simplify_eq|].
    destruct resolver as [resolve|]; [|done]. destruct (resolve (AgentType tmpl)) as [r|] eqn:Er; [|done]. simplify_eq.
    split_and!; [done..|]. by exists resolve, r.
  - intros (tmpl & Hid & Ha & Hp). exists (tmpl, runID, branch, limit).
    split; [apply validateLaunch_spec; [apply Hr, Ha|done]|].
    destruct (AgentType tmpl =? "")%string; [by destruct Hp as [-> ->]|].
    by destruct Hp as (resolve & r & -> & -> & -> & ->).
Qed.
End SelectSpec.

(** ** A sample configuration and request *)

Definition sample_template : Template :=
  {| Image := "worker:1"; AgentType := "codex"; Entrypoint := ["/run"]; Command := []; User := "1000:1000";
     tmpl_Resources := {| CPUShares := 0; MemoryMB := 512; PidsLimit := 64 |}; tmpl_NetworkPolicy := "none";
     MaxRuntimeMinutes := 30; BrokerAgentID := "worker"; BrokerAgentSecret := "";
     tmpl_BranchPolicy := {| AllowedPatterns := []; BaseBranches := ["main"]; GeneratePrefix := "" |};
     tmpl_CredentialBundle := ""; tmpl_Deliverables := []; Environment := ∅; ExtraMounts := [];
     StorageLimitMB := 0; Tmpfs := ∅;
     tmpl_Capability := Some {| Mode := "implementation"; ModelAccess := false; pol_AllowedModels := [];
                                CallBudget := 0; TokenBudget := 0 |} |}.

Definition sample_config : Config :=
  {| RunsDir := "/runs"; BrokerURL := "http://broker"; Repositories := ["octo/app"];
     Networks := {["none" := {| Network := ""; NoNetwork := true |}]}; Bundles := ∅;
     Templates := {["worker" := sample_template]}; MaxConcurrentRuns := {["builder" := 2]};
     MaxTaskBytes := 4096; ConfigVersion := "v1" |}.

Definition sample_input : LaunchAgentInput :=
  {| in_Template := "worker"; in_Task := "fix it"; in_VerificationTask := ""; in_Repo := "octo/app";
     in_BaseBranch := "main"; in_Branch := ""; in_MaxRuntimeMinutes := 0; in_MaxRuntimeSeconds := 0;
     in_Deliverables := []; in_Focus := ""; in_Parameters := ∅; in_Profile := "builder"; in_WorkItem := "issue-7" |}.

Definition in_seconds (s : Z) : LaunchAgentInput :=
  {| in_Template := "worker"; in_Task := "fix it"; in_VerificationTask := ""; in_Repo := "octo/app";
     in_BaseBranch := "main"; in_Branch := ""; in_MaxRuntimeMinutes := 0; in_MaxRuntimeSeconds := s;
     in_Deliverables := []; in_Focus := ""; in_Parameters := ∅; in_Profile := "builder"; in_WorkItem := "issue-7" |}.

(** Beyond the range the product of seconds wraps around: a request for 292
    years is admitted by a template of 30 minutes, with a deadline in the past. *)
Example runtime_overflow : runtimeLimit (in_seconds 9223372037) sample_template = Ok (-9223372036709551616).
Proof. reflexivity. Qed.

Definition sample_release : ResolvedRelease :=
  {| Generation := 1; ImageReference := "registry/worker@sha256:1"; ImageDigest := "sha256:1" |}.

Lemma selectLaunchTemplate_ok_iff_witness :
  ∃ tmpl, newRunID 0 (Some "x") = Some "19700101T000000Z-78" ∧
    admitted (λ _, None : option unit) (λ _ _, false) sample_config sample_input tmpl "19700101T000000Z-78"
      "agent/worker/19700101T000000Z-78" (30 * minute) ∧
    pinned (Some (λ _, Some sample_release)) tmpl (with_image sample_template "registry/worker@sha256:1")
      (Some sample_release).
Proof.
  apply (selectLaunchTemplate_ok_iff (λ _, None : option unit) (λ _ _, false) sample_config
           (Some (λ _, Some sample_release)) sample_input 0 (Some "x")).
  - intros tmpl Ht. assert (Some tmpl = Some sample_template) as [= ->] by by rewrite <- Ht.
    unfold runtime_range. cbn. lia.
  - by vm_compute.
Defined.
