(* ===== verification/Parameters.v ===== *)
(** * Launch profiles' parameters (internal/sandbox/config.go)

    A profile declares typed parameters; a launch submits values from JSON, which
    are checked, and completed with the declared defaults.  Patterns are the
    operator's regular expressions, an argument. *)

From stdpp Require Import pretty.
From S2P Require Import Prelude GoStrings GoJson Regex Sandbox.
Open Scope string_scope.
Open Scope list_scope.
Open Scope Z_scope.

(** A value of Go's [any], as YAML and JSON decode: a float by the integer it
    equals, if there is one; [VStrings] is a []string. *)
Inductive value :=
| VNull
| VString (s : string)
| VInt (n : Z)
| VFloat (exact : option Z)
| VBool (b : bool)
| VList (l : list value)
| VStrings (l : list string)
| VObject.

Record ParameterDeclaration := {
  Type_ : string; Required : bool; Default : value; Min : option Z; Max : option Z;
  MaxLength : Z; MaxItems : Z; Pattern : string }.

Inductive param_error :=
| PNotString | PTooLong | PPatternInvalid | PNoMatch | PNotList | PTooManyItems | PNotBool
| PNotInteger | PBelowMin | PAboveMax | PUnsupportedType | PNotAllowed | PUnknown (name : string)
| PMissing (name : string) | PTogether.

Definition safeParameterName_re : re := Seq (Cls (word (λ c, is_lower c || is_upper c) "_")) (Star (Cls (word alnum "_"))).
Definition safeParameterName (name : string) : bool :=
  if (String.length name =? 0)%nat || (64 <? String.length name)%nat then false
  else matches safeParameterName_re name.

Fixpoint all_strings (l : list value) : option (list string) :=
  match l with
  | [] => Some []
  | VString s :: l => cons s <$> all_strings l
  | _ => None
  end.

Definition stringListValue (v : value) : option (list string) :=
  match v with
  | VStrings l => Some l
  | VList l => all_strings l
  | _ => None
  end.

(** int64 and int32 values fit an int; a float must be the integer it converts to.
    Go leaves the conversion of a float that is no int64 to the implementation:
    on amd64 it gives the least int64, and every such float is refused, as here;
    where it saturates, as on arm64, 2^63 would be taken as 2^63-1. *)
Definition integerValue (v : value) : option Z :=
  match v with
  | VInt n => Some n
  | VFloat (Some n) => if (min_int64 <=? n) && (n <=? max_int64) then Some n else None
  | _ => None
  end.

Section Parameters.
Variable re_compile : string → option (string → bool).

Definition validateParameterString (decl : ParameterDeclaration) (v : string) : result param_error unit :=
  fail_if MaxLength decl <? Z.of_nat (String.length v) with PTooLong ;;
  if negb (Pattern decl =? "")%string then
    match re_compile (Pattern decl) with
    | None => Err PPatternInvalid
    | Some re => fail_if negb (re v) with PNoMatch ;; Ok ()
    end
  else Ok ().

Fixpoint validate_items (decl : ParameterDeclaration) (items : list string) : result param_error unit :=
  match items with
  | [] => Ok ()
  | item :: items => _ ← validateParameterString decl item; validate_items decl items
  end.

Definition below (min : option Z) (n : Z) : bool := match min with Some m => n <? m | None => false end.
Definition above (max : option Z) (n : Z) : bool := match max with Some m => m <? n | None => false end.

Definition normalizeParameterValue (decl : ParameterDeclaration) (v : value) : result param_error value :=
  if (Type_ decl =? "string")%string then
    match v with
    | VString s => _ ← validateParameterString decl s; Ok (VString s)
    | _ => Err PNotString
    end
  else if (Type_ decl =? "string_list")%string then
    match stringListValue v with
    | None => Err PNotList
    | Some values =>
      fail_if MaxItems decl <? Z.of_nat (length values) with PTooManyItems ;;
      _ ← validate_items decl values;
      Ok (VStrings values)
    end
  else if (Type_ decl =? "boolean")%string then
    match v with VBool b => Ok (VBool b) | _ => Err PNotBool end
  else if (Type_ decl =? "integer")%string then
    match integerValue v with
    | None => Err PNotInteger
    | Some n =>
      fail_if below (Min decl) n with PBelowMin ;;
      fail_if above (Max decl) n with PAboveMax ;;
      Ok (VInt n)
    end
  else Err PUnsupportedType.

(** The value a parameter gets: an explicit null is not replaced by the default. *)
Definition effective (submitted : gmap string value) (name : string) (decl : ParameterDeclaration) : value :=
  match submitted !! name with Some v => v | None => Default decl end.

Fixpoint resolve_declared (decls : list (string * ParameterDeclaration)) (submitted out : gmap string value)
    : result param_error (gmap string value) :=
  match decls with
  | [] => Ok out
  | (name, decl) :: decls =>
    match effective submitted name decl with
    | VNull => if Required decl then Err (PMissing name) else resolve_declared decls submitted out
    | v =>
      normalized ← normalizeParameterValue decl v;
      resolve_declared decls submitted (<[name := normalized]> out)
    end
  end.

Fixpoint first_unknown (parameters : gmap string ParameterDeclaration) (names : list string) : option string :=
  match names with
  | [] => None
  | name :: names =>
    match parameters !! name with Some _ => first_unknown parameters names | None => Some name end
  end.

(** [codex]: the profile has a Codex workflow. *)
Definition resolveProfileParameters (parameters : gmap string ParameterDeclaration) (codex : bool)
    (submitted : gmap string value) : result param_error (gmap string value) :=
  fail_if negb (bool_decide (submitted = ∅)) && bool_decide (parameters = ∅) with PNotAllowed ;;
  match first_unknown parameters (map fst (map_to_list submitted)) with
  | Some name => Err (PUnknown name)
  | None =>
    if bool_decide (parameters = ∅) then Ok ∅ else
    out ← resolve_declared (map_to_list parameters) submitted ∅;
    if codex && xorb (bool_decide (is_Some (out !! "repair_pr_number")))
                     (bool_decide (is_Some (out !! "expected_head_sha")))
    then Err PTogether else Ok out
  end.

Definition validateParameterDeclaration (name : string) (decl : ParameterDeclaration) : list string :=
  let err (c : bool) (what : string) := if c then [what] else [] in
  err (negb (safeParameterName name)) "parameter has invalid name"
  ++ (if (Type_ decl =? "string")%string then err (MaxLength decl <? 1) "parameter max_length must be positive"
      else if (Type_ decl =? "string_list")%string then
        err (MaxItems decl <? 1) "parameter max_items must be positive"
        ++ err (MaxLength decl <? 1) "parameter max_length must be positive"
      else if (Type_ decl =? "boolean")%string then []
      else if (Type_ decl =? "integer")%string then
        err (match Min decl, Max decl with Some m, Some x => x <? m | _, _ => false end)
          "parameter min must not exceed max"
      else ["parameter has unsupported type"])
  ++ err (negb (Pattern decl =? "")%string && match re_compile (Pattern decl) with None => true | _ => false end)
       "parameter has invalid pattern"
  ++ match Default decl with
     | VNull => []
     | v => match normalizeParameterValue decl v with Err _ => ["parameter default is invalid"] | Ok _ => [] end
     end.

(** ** The types of the declarations *)

Definition allowed_string (decl : ParameterDeclaration) (s : string) : Prop :=
  Z.of_nat (String.length s) ≤ MaxLength decl ∧
  (Pattern decl ≠ "" → ∃ re, re_compile (Pattern decl) = Some re ∧ re s = true).

Definition in_bounds (decl : ParameterDeclaration) (n : Z) : Prop :=
  (∀ m, Min decl = Some m → m ≤ n) ∧ (∀ m, Max decl = Some m → n ≤ m).

Inductive has_type (decl : ParameterDeclaration) : value → Prop :=
| typed_string s : Type_ decl = "string" → allowed_string decl s → has_type decl (VString s)
| typed_list l : Type_ decl = "string_list" → Z.of_nat (length l) ≤ MaxItems decl →
    (∀ s, s ∈ l → allowed_string decl s) → has_type decl (VStrings l)
| typed_bool b : Type_ decl = "boolean" → has_type decl (VBool b)
| typed_int n : Type_ decl = "integer" → in_bounds decl n → has_type decl (VInt n).

Lemma validateParameterString_ok decl s u : validateParameterString decl s = Ok u ↔ allowed_string decl s.
Proof using Type.
  unfold validateParameterString, allowed_string. rewrite fail_if_ok. destruct u.
  destruct (String.eqb_spec (Pattern decl) "") as [->|Hp]; cbn [negb].
  { split; [intros [? _]; split; [lia|done]|intros [? _]; split; [lia|done]]. }
  destruct (re_compile (Pattern decl)) as [re|].
  - rewrite fail_if_ok. split.
    + intros (? & Hre & _). split; [lia|]. intros _. exists re. split; [done|]. by destruct (re s).
    + intros [? H]. destruct (H Hp) as (re' & [= <-] & ->). split_and!; [lia|done|done].
  - split; [by intros [_ ?]|]. intros [_ H]. destruct (H Hp) as (? & [=] & _).
Qed.

Lemma validate_items_ok decl items u :
  validate_items decl items = Ok u ↔ ∀ s, s ∈ items → allowed_string decl s.
Proof using Type.
  destruct u. induction items as [|item items IH]; cbn [validate_items].
  { split; [by intros _ s ?%elem_of_nil|done]. }
  rewrite bind_ok_iff. setoid_rewrite validateParameterString_ok. setoid_rewrite IH. split.
  - intros ([] & Hi & H) s [->|Hs]%elem_of_cons; auto.
  - intros H. exists (). split; [apply H; by left|]. intros s Hs. apply H. by right.
Qed.

(** What an accepted value is: of the declared type, and its own normal form. *)
Lemma normalize_spec decl v n : normalizeParameterValue decl v = Ok n → has_type decl n.
Proof using Type.
  unfold normalizeParameterValue.
  destruct (String.eqb_spec (Type_ decl) "string").
  { destruct v; try done. intros ([] & Hv & [= <-])%bind_ok_iff. apply validateParameterString_ok in Hv. by constructor. }
  destruct (String.eqb_spec (Type_ decl) "string_list").
  { destruct (stringListValue v) as [l|]; [|done]. rewrite fail_if_ok. intros [Hn ([] & Hv & [= <-])%bind_ok_iff].
    pose proof (proj1 (validate_items_ok decl l ()) Hv). constructor; [done|lia|done]. }
  destruct (String.eqb_spec (Type_ decl) "boolean"). { destruct v; try done. intros [= <-]. by constructor. }
  destruct (String.eqb_spec (Type_ decl) "integer"); [|done].
  destruct (integerValue v) as [k|]; [|done]. rewrite !fail_if_ok. intros (Hb & Ha & [= <-]).
  constructor; [done|]. split; intros m E; rewrite E in *; cbn in *; lia.
Qed.

Lemma normalize_typed decl n : has_type decl n → normalizeParameterValue decl n = Ok n.
Proof using Type.
  unfold normalizeParameterValue. intros [s Ht Hs|l Ht Hl Hs|b Ht|k Ht [Hmin Hmax]]; rewrite Ht; cbn.
  - apply (validateParameterString_ok decl s ()) in Hs. by rewrite Hs.
  - apply (validate_items_ok decl l ()) in Hs. rewrite Hs. destruct (Z.ltb_spec (MaxItems decl) (Z.of_nat (length l))); [lia|done].
  - done.
  - destruct (Min decl) as [m|]; cbn; [specialize (Hmin m eq_refl); destruct (Z.ltb_spec k m); [lia|]|];
      (destruct (Max decl) as [x|]; cbn; [specialize (Hmax x eq_refl); destruct (Z.ltb_spec x k); [lia|]|]); done.
Qed.

(** ** Resolution, whatever the order of the declarations *)

(** What resolution makes of one declaration, against the map it gives. *)
Definition resolved_one (submitted out : gmap string value) (name : string) (decl : ParameterDeclaration) : Prop :=
  match effective submitted name decl with
  | VNull => Required decl = false ∧ out !! name = None
  | v => ∃ n, normalizeParameterValue decl v = Ok n ∧ out !! name = Some n
  end.

Lemma resolved_one_out submitted out out' name decl :
  out !! name = out' !! name → resolved_one submitted out name decl ↔ resolved_one submitted out' name decl.
Proof using Type. unfold resolved_one. intros ->. done. Qed.

Lemma resolve_declared_ok decls submitted acc out :
  NoDup (map fst decls) → (∀ name, name ∈ map fst decls → acc !! name = None) →
  resolve_declared decls submitted acc = Ok out ↔
  (∀ name decl, (name, decl) ∈ decls → resolved_one submitted out name decl) ∧
  (∀ name, name ∉ map fst decls → out !! name = acc !! name).
Proof using Type.
  revert acc. induction decls as [|[name decl] decls IH]; intros acc; cbn [resolve_declared map].
  { intros _ _. split.
    - intros [= ->]. split; [by intros ? ? ?%elem_of_nil|done].
    - intros [_ H]. f_equal. apply map_eq. intros k. symmetry. apply H. by intros ?%elem_of_nil. }
  cbn [fst]. rewrite NoDup_cons. intros [Hname Hnd] Hacc.
  assert (∀ k d, (k, d) ∈ decls → k ∈ map fst decls) as Hin.
  { intros k d Hk. apply list_elem_of_fmap. by exists (k, d). }
  assert (∀ acc', (∀ k, k ≠ name → acc' !! k = acc !! k) →
            resolve_declared decls submitted acc' = Ok out ↔
            (∀ k d, (k, d) ∈ decls → resolved_one submitted out k d) ∧
            (∀ k, k ∉ map fst decls → out !! k = acc' !! k)) as IH'.
  { intros acc' Hacc'. apply IH; [done|]. intros k Hk. rewrite Hacc' by (by intros ->). apply Hacc. by right. }
  assert (∀ v n, effective submitted name decl = v → v ≠ VNull →
    (normalizeParameterValue decl v = Ok n ∧ resolve_declared decls submitted (<[name := n]> acc) = Ok out) ↔
    normalizeParameterValue decl v = Ok n ∧ out !! name = Some n ∧
    (∀ k d, (k, d) ∈ decls → resolved_one submitted out k d) ∧
    (∀ k, k ∉ name :: map fst decls → out !! k = acc !! k)) as Hstep.
  { intros v n _ _. rewrite IH' by (intros k Hk; by rewrite lookup_insert_ne). split.
    - intros (Hn & Hd & Ho). split_and!; [done| |done|].
      + rewrite Ho by done. apply lookup_insert_eq.
      + intros k [Hk Hk']%not_elem_of_cons. rewrite Ho by done. by rewrite lookup_insert_ne.
    - intros (Hn & He & Hd & Ho). split_and!; [done|done|]. intros k Hk.
      destruct (decide (k = name)) as [->|Hne]; [by rewrite lookup_insert_eq|].
      rewrite lookup_insert_ne by done. apply Ho. by apply not_elem_of_cons. }
  assert (∀ P : Prop, ((∀ k d, (k, d) ∈ (name, decl) :: decls → resolved_one submitted out k d) ∧ P) ↔
            (resolved_one submitted out name decl ∧ (∀ k d, (k, d) ∈ decls → resolved_one submitted out k d) ∧ P)) as Hcons.
  { intros P. split.
    - intros [H HP]. split_and!; [apply H; by left| |done]. intros k d Hk. apply H. by right.
    - intros (H1 & H2 & HP). split; [|done]. intros k d [[= -> ->]|Hk]%elem_of_cons; auto. }
  rewrite Hcons. unfold resolved_one at 1. destruct (effective submitted name decl) as [|s|k|k|b|l|l|] eqn:Ee.
  1: { destruct (Required decl); [by split; [|intros [[? _] _]]|]. rewrite (IH' acc) by done. split.
       - intros [Hd Ho]. split_and!; [done| |done|].
         + rewrite Ho by done. apply Hacc. by left.
         + intros k [_ Hk]%not_elem_of_cons. by apply Ho.
       - intros [[_ Hn] [Hd Ho]]. split; [done|]. intros k Hk. destruct (decide (k = name)) as [->|Hne].
         + rewrite Hn. symmetry. apply Hacc. by left.
         + apply Ho. by apply not_elem_of_cons. }
  all: rewrite bind_ok_iff; split;
    [intros (n & Hn & Hr); destruct (proj1 (Hstep _ n eq_refl ltac:(done)) (conj Hn Hr)) as (? & ? & ? & ?); eauto
    |intros ((n & Hn & Ho) & Hd & Hk); exists n; apply (Hstep _ n eq_refl); done].
Qed.

Lemma first_unknown_none (parameters : gmap string ParameterDeclaration) names :
  first_unknown parameters names = None ↔ ∀ name, name ∈ names → is_Some (parameters !! name).
Proof using Type.
  induction names as [|name names IH]; cbn [first_unknown]; [by split; [intros _ ? ?%elem_of_nil|]|].
  destruct (parameters !! name) eqn:E.
  - rewrite IH. split; [intros H k [->|Hk]%elem_of_cons; [by rewrite E|auto]|intros H k Hk; apply H; by right].
  - split; [done|]. intros H. destruct (H name) as [? ?]; [by left|congruence].
Qed.

Definition declared_only {A} (parameters : gmap string ParameterDeclaration) (m : gmap string A) : Prop :=
  ∀ name, is_Some (m !! name) → is_Some (parameters !! name).

Lemma declared_only_empty {A} (m : gmap string A) : declared_only ∅ m → m = ∅.
Proof using Type.
  intros H. apply map_eq. intros k. rewrite lookup_empty. apply eq_None_not_Some. intros Hk.
  destruct (H k Hk) as [? E]. by rewrite lookup_empty in E.
Qed.

Definition together (codex : bool) (out : gmap string value) : Prop :=
  codex = true → (is_Some (out !! "repair_pr_number") ↔ is_Some (out !! "expected_head_sha")).

(** Resolution against its declarations, without an order. *)
Lemma resolve_ok_iff parameters codex submitted out :
  resolveProfileParameters parameters codex submitted = Ok out ↔
  declared_only parameters submitted ∧ declared_only parameters out ∧
  (∀ name decl, parameters !! name = Some decl → resolved_one submitted out name decl) ∧ together codex out.
Proof using Type.
  unfold resolveProfileParameters. rewrite fail_if_ok.
  assert (first_unknown parameters (map fst (map_to_list submitted)) = None ↔ declared_only parameters submitted) as Hunk.
  { rewrite first_unknown_none. split.
    - intros H name [v Hv]. apply H, list_elem_of_fmap. exists (name, v). split; [done|]. by apply elem_of_map_to_list.
    - intros H name ([k v] & -> & Hin)%list_elem_of_fmap. apply elem_of_map_to_list in Hin. apply H. by exists v. }
  destruct (first_unknown _ _) as [name|].
  { split; [by intros [_ ?]|]. intros [H _]. apply Hunk in H. done. }
  assert (declared_only parameters submitted) as Hsub by by apply Hunk.
  destruct (bool_decide_reflect (parameters = ∅)) as [->|Hne].
  - pose proof (declared_only_empty _ Hsub) as ->. split.
    + intros [_ [= <-]]. split_and!; [done..| |].
      * intros name decl E. by rewrite lookup_empty in E.
      * intros _. rewrite !lookup_empty. done.
    + intros (_ & H & _). pose proof (declared_only_empty _ H) as ->. done.
  - rewrite andb_false_r. rewrite bind_ok_iff.
    assert (∀ o, resolve_declared (map_to_list parameters) submitted ∅ = Ok o ↔
      (∀ name decl, parameters !! name = Some decl → resolved_one submitted o name decl) ∧ declared_only parameters o) as Hres.
    { intros o. rewrite resolve_declared_ok; [|apply NoDup_fst_map_to_list|intros; apply lookup_empty].
      setoid_rewrite elem_of_map_to_list. apply and_iff_compat_l. split.
      - intros H name Hn. destruct (decide (is_Some (parameters !! name))) as [|E]; [done|]. exfalso.
        assert (o !! name = None) as En; [|rewrite En in Hn; by destruct Hn].
        rewrite H; [apply lookup_empty|]. intros ([k d] & -> & Hin)%list_elem_of_fmap.
        apply elem_of_map_to_list in Hin. apply E. by exists d.
      - intros H name Hn. rewrite lookup_empty. apply eq_None_not_Some. intros Hs. destruct Hn, (H name Hs) as [decl Hd].
        apply list_elem_of_fmap. exists (name, decl). split; [done|]. by apply elem_of_map_to_list. }
    assert (∀ o, (if codex && xorb (bool_decide (is_Some (o !! "repair_pr_number"))) (bool_decide (is_Some (o !! "expected_head_sha")))
                  then Err PTogether else Ok o : result param_error _) = Ok out ↔ o = out ∧ together codex o) as Htog.
    { intros o. unfold together. destruct codex; cbn [andb]; [|split; [by intros [= ->]|by intros [-> _]]].
      destruct (bool_decide_reflect (is_Some (o !! "repair_pr_number"))),
        (bool_decide_reflect (is_Some (o !! "expected_head_sha"))); cbn [xorb];
        (split; [first [done|intros [= ->]; split; [done|tauto]]|intros [-> H]; first [done|specialize (H eq_refl); tauto]]). }
    split.
    + intros [_ (o & [Hone Hdec]%Hres & [-> Ht]%Htog)]. by split_and!.
    + intros (_ & Hdec & Hone & Ht). split; [done|]. exists out. split; [by apply Hres|by apply Htog].
Qed.
End Parameters.

(** ** Properties *)

(** C34: whatever is submitted, the resolved parameters are of their declared types
    and within their bounds and patterns; every required one is there and nothing
    undeclared is; each is the normal form of the submitted value, or of the
    default where nothing was submitted; and the outcome does not depend on the
    order in which the declarations are visited. *)
Theorem parameters_typed re_compile parameters codex submitted out :
  resolveProfileParameters re_compile parameters codex submitted = Ok out →
  (∀ name v, out !! name = Some v → ∃ decl, parameters !! name = Some decl ∧ has_type re_compile decl v ∧
     normalizeParameterValue re_compile decl (effective submitted name decl) = Ok v) ∧
  (∀ name decl, parameters !! name = Some decl → Required decl = true → is_Some (out !! name)) ∧
  declared_only parameters submitted ∧
  (∀ decls, NoDup (map fst decls) → list_to_map decls = parameters →
     resolve_declared re_compile decls submitted ∅ = Ok out).
Proof.
  intros (Hs & Ho & Hone & _)%resolve_ok_iff. split_and!; [| |done|].
  - intros name v Hv. destruct (Ho name) as [decl Hd]; [by exists v|]. specialize (Hone name decl Hd).
    exists decl. unfold resolved_one in Hone. destruct (effective submitted name decl) eqn:Ee; [destruct Hone; congruence|..].
    all: destruct Hone as (w & Hn & Hout); assert (w = v) as -> by congruence; split_and!; try done; by eapply normalize_spec.
  - intros name decl Hd Hr. specialize (Hone name decl Hd). unfold resolved_one in Hone.
    destruct (effective submitted name decl); [destruct Hone; congruence|..]; destruct Hone as (w & _ & ->); by eexists.
  - intros decls Hnd Heq. apply resolve_declared_ok; [done|intros; apply lookup_empty|]. split.
    + intros name decl Hin. apply Hone. rewrite <- Heq. by apply elem_of_list_to_map_1.
    + intros name Hn. rewrite lookup_empty. apply eq_None_not_Some. intros Hsome. destruct (Ho name Hsome) as [decl Hd].
      rewrite <- Heq in Hd. apply elem_of_list_to_map_2 in Hd. apply Hn, list_elem_of_fmap. by exists (name, decl).
Qed.

Definition issue_parameter : ParameterDeclaration :=
  {| Type_ := "integer"; Required := true; Default := VNull; Min := Some 1; Max := None; MaxLength := 0; MaxItems := 0;
     Pattern := "" |}.
Definition labels_parameter : ParameterDeclaration :=
  {| Type_ := "string_list"; Required := false; Default := VList [VString "bug"]; Min := None; Max := None;
     MaxLength := 8; MaxItems := 2; Pattern := "" |}.
Definition sample_parameters : gmap string ParameterDeclaration :=
  {["issue_number" := issue_parameter; "labels" := labels_parameter]}.

(** JSON numbers are floats; an explicit null keeps the default away. *)
Example resolve_ex :
  resolveProfileParameters (λ _, None) sample_parameters false {["issue_number" := VFloat (Some 12)]} =
    Ok {["issue_number" := VInt 12; "labels" := VStrings ["bug"]]} ∧
  resolveProfileParameters (λ _, None) sample_parameters false
    {["issue_number" := VFloat (Some 12); "labels" := VNull]} = Ok {["issue_number" := VInt 12]} ∧
  resolveProfileParameters (λ _, None) sample_parameters false {["issue_number" := VFloat None]} = Err PNotInteger ∧
  resolveProfileParameters (λ _, None) sample_parameters false ∅ = Err (PMissing "issue_number").
Proof. split_and!; vm_compute; reflexivity. Qed.

Lemma parameters_typed_witness :
  ∃ decl, sample_parameters !! "issue_number" = Some decl ∧ has_type (λ _, None) decl (VInt 12) ∧
    normalizeParameterValue (λ _, None) decl (effective {["issue_number" := VFloat (Some 12)]} "issue_number" decl) = Ok (VInt 12).
Proof.
  apply (proj1 (parameters_typed (λ _, None) sample_parameters false {["issue_number" := VFloat (Some 12)]}
    {["issue_number" := VInt 12; "labels" := VStrings ["bug"]]} (proj1 resolve_ex))).
  reflexivity.
Defined.
