(* ===== verification/Paths.v ===== *)
(** * path/filepath, as far as the configuration uses it

    Cleaning and containment of slash-separated paths, by their elements, with
    the facts that relate them to the textual tests the code makes. *)

From S2P Require Import Prelude GoStrings Sandbox.
Open Scope string_scope.
Open Scope list_scope.
Open Scope Z_scope.

Definition IsAbs (p : string) : bool := has_prefix "/" p.

(** The elements of a path, cleaned, from the last to the first. *)
Fixpoint clean_elements (rooted : bool) (acc : list string) (l : list string) : list string :=
  match l with
  | [] => acc
  | c :: l =>
    if (c =? "")%string || (c =? ".")%string then clean_elements rooted acc l
    else if (c =? "..")%string then
      clean_elements rooted
        (match acc with
         | [] => if rooted then [] else [".."]
         | x :: rest => if (x =? "..")%string then ".." :: acc else rest
         end) l
    else clean_elements rooted (c :: acc) l
  end.
Definition elements_of (p : string) : list string := reverse (clean_elements (IsAbs p) [] (split_slash p)).

Definition Clean (p : string) : string :=
  let body := join "/" (elements_of p) in
  if IsAbs p then "/" +:+ body else if (body =? "")%string then "." else body.

Example clean_ex :
  map Clean [""; "/"; "//a//b/"; "/a/../../b"; "a/./../.."; "./x"] = ["."; "/"; "/a/b"; "/b"; ".."; "x"].
Proof. by vm_compute. Qed.

Fixpoint strip_elements (base path : list string) : option (list string) :=
  match base, path with
  | [], _ => Some path
  | b :: base, p :: path => if (b =? p)%string then strip_elements base path else None
  | _ :: _, [] => None
  end.

(** filepath.Rel(base, path) exists and does not climb. *)
Definition pathWithin (path base : string) : bool :=
  if negb (Bool.eqb (IsAbs base) (IsAbs path)) then false else
  match strip_elements (elements_of base) (elements_of path) with
  | Some (e :: _) => negb (e =? "..")%string
  | Some [] => true
  | None => false
  end.

Example path_within_ex :
  (pathWithin "/a/b" "/a", pathWithin "/ab" "/a", pathWithin "/a" "/a/b", pathWithin "/a/../b" "/b", pathWithin "b" "/") =
  (true, false, false, true, false).
Proof. by vm_compute. Qed.

(** ** Elements *)

Definition slash_free (e : string) : bool := forallb (λ c, negb (Ascii.eqb c "/")) (chars e).
Definition plain (e : string) : Prop := e ≠ "" ∧ e ≠ "." ∧ e ≠ ".." ∧ slash_free e = true.

Lemma split_slash_plain e : slash_free e = true → split_slash e = [e].
Proof.
  induction e as [|a e IH]; [done|]. cbn. intros [Ha He]%andb_true_iff. apply negb_true_iff in Ha.
  rewrite Ha. by rewrite (IH He).
Qed.

Lemma split_slash_ne s : split_slash s ≠ [].
Proof. destruct s as [|a s]; cbn; [done|]. destruct (Ascii.eqb a "/"); [done|]. by destruct (split_slash s). Qed.

Lemma split_slash_app a b : split_slash (a +:+ String "/" b) = split_slash a ++ split_slash b.
Proof.
  induction a as [|x a IH]; [done|]. rewrite sapp_cons. cbn [split_slash].
  destruct (Ascii.eqb x "/"); [by rewrite IH|]. rewrite IH.
  pose proof (split_slash_ne a). by destruct (split_slash a).
Qed.

Lemma split_slash_free s : Forall (λ e, slash_free e = true) (split_slash s).
Proof.
  induction s as [|a s IH]; cbn [split_slash]; [by repeat constructor|].
  destruct (Ascii.eqb a "/") eqn:E; [by constructor|].
  destruct (split_slash s) as [|e l]; [constructor; [|done]; cbn; by rewrite E|].
  apply Forall_cons in IH as [He Hl]. constructor; [|done]. cbn. by rewrite E.
Qed.

Lemma clean_elements_app rooted acc l1 l2 :
  clean_elements rooted acc (l1 ++ l2) = clean_elements rooted (clean_elements rooted acc l1) l2.
Proof. revert acc. induction l1 as [|e l1 IH]; intros acc; cbn; [done|]. repeat case_match; apply IH. Qed.

Lemma clean_elements_plain rooted acc l : Forall plain l → clean_elements rooted acc l = reverse l ++ acc.
Proof.
  revert acc. induction l as [|e l IH]; intros acc; [done|]. intros [(H1 & H2 & H3 & _) Hl]%Forall_cons. cbn [clean_elements].
  rewrite (proj2 (String.eqb_neq _ _) H1), (proj2 (String.eqb_neq _ _) H2), (proj2 (String.eqb_neq _ _) H3). cbn [orb].
  rewrite (IH _ Hl), reverse_cons. by rewrite <- app_assoc.
Qed.

Lemma clean_elements_rooted acc l :
  Forall plain acc → Forall (λ e, slash_free e = true) l → Forall plain (clean_elements true acc l).
Proof.
  revert acc. induction l as [|e l IH]; intros acc Hacc; [done|]. intros [He Hl]%Forall_cons. cbn.
  destruct (String.eqb_spec e ""), (String.eqb_spec e "."); cbn; try by apply IH.
  destruct (String.eqb_spec e ".."); apply IH; try done.
  - destruct acc as [|x acc]; [done|]. apply Forall_cons in Hacc as [Hx Hacc].
    destruct (String.eqb_spec x ".."); [|done]. by destruct Hx as (_ & _ & ? & _).
  - by constructor.
Qed.

Lemma elements_plain p : IsAbs p = true → Forall plain (elements_of p).
Proof.
  intros Hp. unfold elements_of. rewrite Hp. apply Forall_reverse, clean_elements_rooted; [done|]. apply split_slash_free.
Qed.

Lemma IsAbs_app a b : IsAbs a = true → IsAbs (a +:+ b) = true.
Proof. unfold IsAbs. destruct a as [|x a]; [done|]. rewrite sapp_cons. cbn. by rewrite !andb_true_r. Qed.

Lemma elements_child p l : IsAbs p = true → l ≠ [] → Forall plain l →
  elements_of (p +:+ String "/" (join "/" l)) = elements_of p ++ l.
Proof.
  intros Hp Hne Hl. unfold elements_of. rewrite IsAbs_app by done. rewrite Hp, split_slash_app, clean_elements_app.
  assert (split_slash (join "/" l) = l) as ->.
  { destruct l as [|e l]; [done|]. clear Hne. revert e Hl. induction l as [|e' l IH]; intros e [He Hl]%Forall_cons.
    - apply split_slash_plain, He.
    - change (join "/" (e :: e' :: l)) with (e +:+ String "/" (join "/" (e' :: l))).
      rewrite split_slash_app, (IH _ Hl). by rewrite split_slash_plain by apply He. }
  rewrite clean_elements_plain by done. by rewrite reverse_app, reverse_involutive.
Qed.

(** A clean rooted path spells its elements, and cleaning it changes nothing. *)
Lemma elements_Clean p : IsAbs p = true → elements_of (Clean p) = elements_of p.
Proof.
  intros Hp. pose proof (elements_plain p Hp) as Hl. unfold Clean. rewrite Hp.
  destruct (elements_of p) as [|e l] eqn:E; [done|].
  pose proof (elements_child "/" (e :: l) eq_refl ltac:(done) Hl) as H.
  revert H. unfold elements_of at 1 3. change ("/" +:+ String "/" (join "/" (e :: l))) with (String "/" ("/" +:+ join "/" (e :: l))).
  change (IsAbs (String "/" _)) with true. change (split_slash (String "/" ?x)) with ("" :: split_slash x). cbn [clean_elements orb].
  intros H. unfold elements_of. change (IsAbs ("/" +:+ _)) with true. exact H.
Qed.

Lemma IsAbs_Clean p : IsAbs p = true → IsAbs (Clean p) = true.
Proof. intros Hp. unfold Clean. by rewrite Hp. Qed.

Lemma pathWithin_Clean_l p base : IsAbs p = true → pathWithin (Clean p) base = pathWithin p base.
Proof. intros Hp. unfold pathWithin. by rewrite IsAbs_Clean, elements_Clean, Hp. Qed.

Lemma pathWithin_Clean_r p base : IsAbs base = true → pathWithin p (Clean base) = pathWithin p base.
Proof. intros Hp. unfold pathWithin. by rewrite IsAbs_Clean, elements_Clean, Hp. Qed.

(** ** Containment *)

Lemma strip_elements_spec base path rest : strip_elements base path = Some rest ↔ path = base ++ rest.
Proof.
  revert path. induction base as [|b base IH]; intros path; [by split; [intros [= ->]|intros ->]|].
  destruct path as [|x path]; cbn; [done|]. destruct (String.eqb_spec b x) as [->|Hne].
  - rewrite IH. split; [by intros ->|by intros [= ->]].
  - split; [done|]. by intros [= -> _].
Qed.

(** Between rooted paths, containment is being a prefix, element by element. *)
Lemma pathWithin_spec path base : IsAbs path = true → IsAbs base = true →
  pathWithin path base = true ↔ ∃ rest, elements_of path = elements_of base ++ rest.
Proof.
  intros Hp Hb. unfold pathWithin. rewrite Hp, Hb. cbn [Bool.eqb negb].
  pose proof (elements_plain path Hp) as Hl.
  destruct (strip_elements (elements_of base) (elements_of path)) as [rest|] eqn:E.
  - apply strip_elements_spec in E. rewrite E in Hl. apply Forall_app in Hl as [_ Hr].
    split; [by exists rest|]. intros _. destruct rest as [|x rest]; [done|].
    apply Forall_cons in Hr as [(_ & _ & Hx & _) _]. by apply negb_true_iff, String.eqb_neq.
  - split; [done|]. intros (rest & Hrest). apply strip_elements_spec in Hrest. congruence.
Qed.

Lemma pathWithin_trans a b base : IsAbs a = true → IsAbs b = true → IsAbs base = true →
  pathWithin a b = true → pathWithin b base = true → pathWithin a base = true.
Proof.
  intros Ha Hb Hc (r & Hr)%pathWithin_spec (r' & Hr')%pathWithin_spec; try done.
  apply pathWithin_spec; [done..|]. exists (r' ++ r). by rewrite Hr, Hr', app_assoc.
Qed.

(** The textual test on cleaned paths catches whatever lies within. *)
Lemma within_textual path l : IsAbs path = true → l ≠ [] → Forall plain l →
  (∃ rest, elements_of path = l ++ rest) →
  let base := "/" +:+ join "/" l in
  Clean path = base ∨ has_prefix (base +:+ "/") (Clean path) = true.
Proof.
  intros Hp Hne Hl (rest & Hr). cbv zeta. unfold Clean. rewrite Hp, Hr.
  destruct rest as [|x rest]; [left; by rewrite app_nil_r|right].
  assert (join "/" (l ++ x :: rest) = join "/" l +:+ "/" +:+ join "/" (x :: rest)) as ->.
  { clear Hr Hl. destruct l as [|e l]; [done|]. clear Hne. revert e. induction l as [|e' l IH]; intros e; [done|].
    change (join "/" ((e :: e' :: l) ++ x :: rest)) with (e +:+ "/" +:+ join "/" ((e' :: l) ++ x :: rest)).
    rewrite IH. change (join "/" (e :: e' :: l)) with (e +:+ "/" +:+ join "/" (e' :: l)). by rewrite !sapp_assoc. }
  assert (∀ u v, has_prefix u (u +:+ v) = true) as Hpre.
  { intros u v. induction u as [|c u IH]; [done|]. rewrite sapp_cons. cbn. by rewrite Ascii.eqb_refl, IH. }
  rewrite sapp_assoc. rewrite <- (sapp_assoc (join "/" l) "/"), <- (sapp_assoc "/" (join "/" l +:+ "/")). apply Hpre.
Qed.

Lemma not_within path l : IsAbs path = true → l ≠ [] → Forall plain l →
  let base := "/" +:+ join "/" l in
  elements_of base = l →
  Clean path ≠ base → has_prefix (base +:+ "/") (Clean path) = false → pathWithin path base = false.
Proof.
  intros Hp Hne Hl base Hb H1 H2. apply not_true_is_false. intros Hw. apply pathWithin_spec in Hw; [|done|done].
  rewrite Hb in Hw. destruct (within_textual path l Hp Hne Hl Hw) as [?|Hpre]; [by apply H1|].
  fold base in Hpre. congruence.
Qed.
