(* ===== verification/SandboxConfig.v ===== *)
(** * The sandbox broker's configuration (internal/sandbox/config.go)

    The declarations a deployment makes, their defaults, and [Validate], which a
    configuration must pass before the service starts.  A refusal is the list of
    what is wrong, without the names the messages interpolate.  Decoding YAML and
    reading the environment are arguments; [service_config] is the part that
    launches read (Sandbox). *)

From S2P Require Import Prelude GoStrings GoTime Regex Sandbox Parameters Paths.
Open Scope string_scope.
Open Scope list_scope.
Open Scope Z_scope.

Definition safeRelativePath (p : string) : bool :=
  if (p =? "")%string || IsAbs p then false else
  let clean := Clean p in
  negb (clean =? ".")%string && (clean =? p)%string && negb (has_prefix "../" clean) && negb (clean =? "..")%string.

(** ** Declarations *)

Record NetworkDecl := {
  nd : NetworkPolicy; PrivateBroker : bool; EgressProxy : string; AllowedTLSHosts : list string;
  CodexRelay : bool; AllowGeneralDNS : bool; AllowInternet : bool }.

Record BundleDecl := {
  bd : CredentialBundle; bd_ReadOnly : bool; SecretFiles : list string; RedactFiles : list string }.

Record TemplateDecl := {
  td : Template; BrokerSecretEnv : string; KnowledgeSnapshots : list string; CompletionStatusPath : string;
  WorkItemInputPath : string }.

Record CodexIssueWorkflow := {
  PreparationTemplate : string; ExecutionTemplate : string; RecoveryTemplate : string; DeliveryTemplate : string;
  w_ModelPolicy : string; ModelProfile : string; PromptRevision : string }.

Record LaunchProfile := {
  lp_input : LaunchAgentInput; AllowOverrides : list string; lp_Parameters : gmap string ParameterDeclaration;
  lp_MaxConcurrentRuns : Z; RequireIdempotencyKey : bool; lp_Codex : option CodexIssueWorkflow }.

Record ModelMapping := { Model : string; Effort : string }.
Record ModelPolicy := { Version : string; Mappings : gmap string ModelMapping }.
Record AgentReleasePolicy := { ProvenanceFields : list string; Platforms : list string }.
Record CodexHolderConfig := { MasterAuthPath : string; IssuanceRoot : string }.

Record OperatorPrincipal := {
  Token : string; TokenEnv : string; AllowedProfiles : list string; AllowedActions : list string; RunScope : string }.

Record config := {
  Listen : string; MCPPath : string; AuthToken : string; AuthTokenEnv : string; c_RunsDir : string;
  LaunchIntentStore : string; ReleaseStore : string; CapabilityStore : string; CapabilityAPIToken : string;
  CapabilityAPITokenEnv : string; c_BrokerURL : string; Production : bool; c_Repositories : list string;
  c_Networks : gmap string NetworkDecl; c_Bundles : gmap string BundleDecl; c_Templates : gmap string TemplateDecl;
  LaunchProfiles : gmap string LaunchProfile; ModelPolicies : gmap string ModelPolicy; CodexHolder : CodexHolderConfig;
  OperatorPrincipals : gmap string OperatorPrincipal; AgentReleasePolicies : gmap string AgentReleasePolicy;
  c_MaxTaskBytes : Z; MaxParameterBytes : Z; LogByteLimit : Z; TerminalResultByteLimit : Z;
  ReleaseArtifactByteLimit : Z; StopGrace : Z; c_ConfigVersion : string }.

(** What launches read of a configuration. *)
Definition service_config (c : config) : Config :=
  {| RunsDir := c_RunsDir c; BrokerURL := c_BrokerURL c; Repositories := c_Repositories c;
     Networks := nd <$> c_Networks c; Bundles := bd <$> c_Bundles c; Templates := td <$> c_Templates c;
     MaxConcurrentRuns := lp_MaxConcurrentRuns <$> LaunchProfiles c; MaxTaskBytes := c_MaxTaskBytes c;
     ConfigVersion := c_ConfigVersion c |}.

(** ** Refusals *)

Definition err (c : bool) (what : string) : list string := if c then [what] else [].
Definition blank (s : string) : bool := (trim_space s =? "")%string.

(** In a map, in some order. *)
Definition each {A} (f : string → A → list string) (m : gmap string A) : list string :=
  flat_map (λ '(k, v), f k v) (map_to_list m).

(** ^[a-z0-9]+(-[a-z0-9]+)*$ *)
Definition agentTypePattern : re :=
  Seq (plus (Cls lower_alnum)) (Star (Seq (lit "-") (plus (Cls lower_alnum)))).

Definition docker_socket : string := "/var/run/docker.sock".
Definition managed : list string := ["/input"; "/work"; "/output"; "/lessons"].

(** strings.ToUpper, as far as the result can be compared with ASCII text: the
    dotless i and the long s have ASCII upper cases. *)
Definition upper_char (c : ascii) : ascii := if is_lower c then ascii_of_nat (code c - 32) else c.
Fixpoint to_upper (s : string) : string :=
  match s with
  | EmptyString => EmptyString
  | String a ((String b s) as rest) =>
    if (code a =? 196)%nat && (code b =? 177)%nat then String "I" (to_upper s)
    else if (code a =? 197)%nat && (code b =? 191)%nat then String "S" (to_upper s)
    else String (upper_char a) (to_upper rest)
  | String a EmptyString => String (upper_char a) EmptyString
  end.

Definition validateExtraMount (m : ExtraMount) : list string :=
  let source := Clean (em_SourcePath m) in
  let target := Clean (em_MountPath m) in
  err (negb (IsAbs (em_SourcePath m))) "extra mount source_path must be absolute"
  ++ err (negb (IsAbs (em_MountPath m))) "extra mount mount_path must be absolute"
  ++ err ((source =? "/")%string || (source =? docker_socket)%string || has_prefix (docker_socket +:+ "/") source)
       "extra mount source_path is not allowed"
  ++ err ((target =? "/")%string || existsb (String.eqb target) managed
          || existsb (λ dir, has_prefix (dir +:+ "/") target) managed)
       "extra mount mount_path conflicts with sandbox-managed paths".

Definition validateCompletionStatusPath (t : TemplateDecl) : list string :=
  let statusPath := Clean (CompletionStatusPath t) in
  if negb (IsAbs (CompletionStatusPath t)) then ["completion_status_path must be absolute"]
  else if existsb (λ m, negb (em_ReadOnly m) &&
                        (let target := Clean (em_MountPath m) in
                         (statusPath =? target)%string || has_prefix (target +:+ "/") statusPath)) (ExtraMounts (td t))
  then [] else ["completion_status_path must be under a writable extra_mounts target"].

Definition validateBundle (name : string) (b : BundleDecl) : list string :=
  let source := SourcePath (bd b) in
  let target := MountPath (bd b) in
  err (name =? "")%string "credential bundle name is required"
  ++ err (negb (IsAbs source)) "credential bundle source_path must be absolute"
  ++ err (negb (IsAbs target)) "credential bundle mount_path must be absolute"
  ++ err (negb (bd_ReadOnly b)) "credential bundle readonly must be true"
  ++ err ((Clean source =? docker_socket)%string || has_prefix (docker_socket +:+ "/") (Clean source))
       "credential bundle cannot mount Docker socket"
  ++ err ((target =? "/")%string || existsb (λ dir, has_prefix dir target) managed)
       "credential bundle mount_path conflicts with sandbox paths"
  ++ flat_map (λ p, err (negb (safeRelativePath p)) "credential bundle redaction path is unsafe")
       (SecretFiles b ++ RedactFiles b).

Definition validateNetwork (name : string) (n : NetworkDecl) : list string :=
  let network := Network (nd n) in
  err (name =? "")%string "network policy name is required"
  ++ err (NoNetwork (nd n) && negb (network =? "")%string) "network policy cannot set both none and network"
  ++ err (negb (NoNetwork (nd n)) && (network =? "")%string) "network policy must set network or none"
  ++ err (equal_fold network "host" || has_prefix "container:" network)
       "network policy cannot use host or container network namespace"
  ++ err (AllowGeneralDNS n || AllowInternet n) "network policy cannot allow general DNS or internet"
  ++ err (negb (EgressProxy n =? "")%string && negb (has_prefix "http://" (EgressProxy n)))
       "network policy egress_proxy must be an internal http URL".

Definition validateCapabilityPolicy (pol : CapabilityPolicy) : list string :=
  err (blank (Mode pol)) "capability policy mode is required"
  ++ err ((CallBudget pol <? 0) || (TokenBudget pol <? 0)) "capability budgets must not be negative"
  ++ err (existsb blank (pol_AllowedModels pol)) "capability allowed_models contains a blank entry"
  ++ if ModelAccess pol then
       err (is_nil (pol_AllowedModels pol)) "capability policy enables model access but declares no allowed_models"
       ++ err ((CallBudget pol <=? 0) || (TokenBudget pol <=? 0))
            "capability policy enables model access but a budget is not positive"
     else
       err (negb (is_nil (pol_AllowedModels pol))) "capability policy is model-disabled but declares allowed_models"
       ++ err (negb (CallBudget pol =? 0) || negb (TokenBudget pol =? 0))
            "capability policy is model-disabled but a budget is non-zero".

Definition isCodexCredentialFreeTemplate (c : config) (name : string) : bool :=
  existsb (λ '(_, p), match lp_Codex p with
                      | Some w => (ExecutionTemplate w =? name)%string || (RecoveryTemplate w =? name)%string
                      | None => false
                      end) (map_to_list (LaunchProfiles c)).


Definition hasCodexWorkflow (profiles : gmap string LaunchProfile) : bool :=
  existsb (λ '(_, p), bool_decide (is_Some (lp_Codex p))) (map_to_list profiles).

(** A missing key of a map of structures gives the zero structure. *)
Definition no_network : NetworkDecl :=
  {| nd := {| Network := ""; NoNetwork := false |}; PrivateBroker := false; EgressProxy := ""; AllowedTLSHosts := [];
     CodexRelay := false; AllowGeneralDNS := false; AllowInternet := false |}.
Definition network_of (c : config) (t : TemplateDecl) : NetworkDecl :=
  default no_network (c_Networks c !! tmpl_NetworkPolicy (td t)).

(** *** Codex templates *)

Definition forbidden_env (recovery : bool) (key : string) : bool :=
  let upper := to_upper key in
  has_prefix "OPENAI_" upper || has_prefix "CODEX_" upper || (recovery && has_prefix "BROKER_" upper)
  || existsb (String.eqb upper) ["HTTP_PROXY"; "HTTPS_PROXY"; "ALL_PROXY"; "NO_PROXY"].
Definition forbidden_targets : list string := ["/credentials"; "/run/codex-issuance"; "/dev/shm"].

Definition validateCodexTemplateSurface (recovery : bool) (t : TemplateDecl) : list string :=
  each (λ key _, err (forbidden_env recovery key) "template cannot configure credential or proxy environment")
    (Environment (td t))
  ++ flat_map (λ m, flat_map (λ forbidden, err (pathWithin (Clean (em_MountPath m)) forbidden)
                                             "template cannot configure mount target") forbidden_targets)
       (ExtraMounts (td t)).

Definition quiet_network (n : NetworkDecl) : bool := (EgressProxy n =? "")%string && is_nil (AllowedTLSHosts n).
Definition has_broker_agent (t : TemplateDecl) : bool :=
  negb (BrokerAgentID (td t) =? "")%string && negb (BrokerAgentSecret (td t) =? "")%string.
Definition no_broker_agent (t : TemplateDecl) : bool :=
  (BrokerAgentID (td t) =? "")%string && (BrokerAgentSecret (td t) =? "")%string.
Definition no_bundle (t : TemplateDecl) : bool := (tmpl_CredentialBundle (td t) =? "")%string.

Definition found {A} (o : option A) (f : A → list string) : list string :=
  match o with Some a => f a | None => [] end.

Definition validateDelivery (phase : string) (c : config) (t : TemplateDecl) : list string :=
  let n := network_of c t in
  err (negb (no_bundle t && has_broker_agent t && PrivateBroker n && negb (CodexRelay n) && quiet_network n))
    (phase +:+ " template must use private broker credentials only")
  ++ validateCodexTemplateSurface false t.

Definition validateExecution (c : config) (t : TemplateDecl) : list string :=
  let n := network_of c t in
  err (negb (no_bundle t && no_broker_agent t && negb (PrivateBroker n) && CodexRelay n && quiet_network n))
    "execution template must have no broker agent credential and use the Codex subscription relay only"
  ++ err ((default 0 (Tmpfs (td t) !! "/dev/shm") <? 1) || (StorageLimitMB (td t) <? 1))
       "execution template requires bounded /dev/shm tmpfs and storage"
  ++ validateCodexTemplateSurface false t.

Definition validateRecovery (c : config) (t : TemplateDecl) : list string :=
  let n := network_of c t in
  err (negb (no_bundle t && no_broker_agent t && negb (PrivateBroker n) && negb (CodexRelay n) && quiet_network n))
    "recovery template must be credential-free with no broker or Codex network"
  ++ validateCodexTemplateSurface true t
  ++ err (negb (is_nil (ExtraMounts (td t)))) "recovery template must not configure extra_mounts".

Definition typed_parameter (p : LaunchProfile) (name type : string) : bool :=
  match lp_Parameters p !! name with Some d => (Type_ d =? type)%string | None => false end.

Definition is_null (v : value) : bool := match v with VNull => true | _ => false end.
Definition optional_positive (d : ParameterDeclaration) : bool :=
  (Type_ d =? "integer")%string && negb (Required d) && is_null (Default d)
  && match Min d with Some m => m =? 1 | None => false end.
Definition optional_sha (d : ParameterDeclaration) : bool :=
  (Type_ d =? "string")%string && negb (Required d) && is_null (Default d) && (MaxLength d =? 40)
  && (Pattern d =? "^[a-f0-9]{40}$")%string.
Definition declares (p : LaunchProfile) (name : string) (good : ParameterDeclaration → bool) : bool :=
  match lp_Parameters p !! name with Some d => good d | None => false end.

Definition distinct_phases (w : CodexIssueWorkflow) : bool :=
  negb ((PreparationTemplate w =? ExecutionTemplate w)%string || (PreparationTemplate w =? DeliveryTemplate w)%string
        || (ExecutionTemplate w =? DeliveryTemplate w)%string || (RecoveryTemplate w =? PreparationTemplate w)%string
        || (RecoveryTemplate w =? ExecutionTemplate w)%string || (RecoveryTemplate w =? DeliveryTemplate w)%string).

Definition reviewed_profile := "terra-medium-v1".

Definition validateCodexIssueWorkflow (c : config) (name : string) (p : LaunchProfile) (w : CodexIssueWorkflow)
    : list string :=
  let template name := c_Templates c !! name in
  let unknown name what := err (negb (bool_decide (is_Some (template name)))) what in
  err (negb (RequireIdempotencyKey p)) "codex_issue_workflow requires idempotency"
  ++ err (negb (lp_MaxConcurrentRuns p =? 1)) "codex_issue_workflow requires max_concurrent_runs: 1"
  ++ unknown (PreparationTemplate w) "references unknown preparation_template"
  ++ unknown (ExecutionTemplate w) "references unknown execution_template"
  ++ unknown (DeliveryTemplate w) "references unknown delivery_template"
  ++ unknown (RecoveryTemplate w) "references unknown recovery_template"
  ++ err (negb (distinct_phases w)) "requires distinct preparation, execution, recovery, and delivery templates"
  ++ err (negb (in_Template (lp_input p) =? ExecutionTemplate w)%string) "template must equal its execution_template"
  ++ match ModelPolicies c !! w_ModelPolicy w with
     | None => ["references unknown model_policy"]
     | Some policy => err (negb (bool_decide (is_Some (Mappings policy !! ModelProfile w))))
                        "model_profile is not in its reviewed policy"
     end
  ++ err (negb (name =? reviewed_profile)%string || negb (ModelProfile w =? reviewed_profile)%string)
       "the only enabled reviewed launch profile is terra-medium-v1"
  ++ err (PromptRevision w =? "")%string "prompt_revision is required"
  ++ err (blank (in_VerificationTask (lp_input p))) "codex_issue_workflow requires a verification_task"
  ++ found (template (PreparationTemplate w)) (validateDelivery "preparation" c)
  ++ found (template (ExecutionTemplate w)) (validateExecution c)
  ++ found (template (DeliveryTemplate w)) (validateDelivery "delivery" c)
  ++ found (template (RecoveryTemplate w)) (validateRecovery c)
  ++ err (negb (typed_parameter p "issue_number" "integer")) "requires typed parameter issue_number"
  ++ err (negb (typed_parameter p "source_delivery_id" "string")) "requires typed parameter source_delivery_id"
  ++ err (negb (declares p "repair_pr_number" optional_positive)) "requires optional positive-integer parameter"
  ++ err (negb (declares p "expected_head_sha" optional_sha)) "requires optional lowercase-SHA parameter"
  ++ err (negb (bool_decide (AllowOverrides p = ["max_runtime_seconds"])))
       "must allow only the max_runtime_seconds deadline override".

Definition expected_mappings : gmap string ModelMapping :=
  {["luna-medium-v1" := {| Model := "gpt-5.6-luna"; Effort := "medium" |};
    "luna-high-v1" := {| Model := "gpt-5.6-luna"; Effort := "high" |};
    "terra-medium-v1" := {| Model := "gpt-5.6-terra"; Effort := "medium" |};
    "terra-high-v1" := {| Model := "gpt-5.6-terra"; Effort := "high" |};
    "sol-high-v1" := {| Model := "gpt-5.6-sol"; Effort := "high" |}]}.

Definition same_mapping (want : ModelMapping) (got : option ModelMapping) : bool :=
  match got with Some m => (Model m =? Model want)%string && (Effort m =? Effort want)%string | None => false end.

Definition validateModelPolicy (name : string) (policy : ModelPolicy) : list string :=
  err ((name =? "")%string || negb (Version policy =? "codex-model-policy/v1")%string)
    "model policy must use version codex-model-policy/v1"
  ++ err (negb (size (Mappings policy) =? size expected_mappings)%nat)
       "model policy must contain exactly the current reviewed Codex policy mappings"
  ++ each (λ profile want, err (negb (same_mapping want (Mappings policy !! profile)))
                             "model policy mapping must resolve exactly") expected_mappings
  ++ each (λ profile _, err (negb (bool_decide (is_Some (expected_mappings !! profile))))
                          "model policy contains unsupported mapping") (Mappings policy).

(** *** Operators *)

Definition validOperatorAction (action : string) : bool :=
  existsb (String.eqb action)
    ["launch"; "dry_run"; "status"; "logs"; "artifacts"; "terminal_result"; "stop"; "cleanup";
     "release.publish"; "release.promote"; "release.rollback"].

Definition principalRequiresLaunchProfiles (actions : list string) : bool :=
  existsb (λ action, negb (has_prefix "release." action)) actions.

Definition launchOverrideFieldAllowed (field : string) : bool :=
  existsb (String.eqb field)
    ["task"; "focus"; "deliverables"; "max_runtime_minutes"; "max_runtime_seconds"; "branch"; "base_branch"; "repo";
     "template"].

Definition only_action (p : OperatorPrincipal) (action : string) : bool :=
  contains (AllowedActions p) action && negb (length (AllowedActions p) =? 1)%nat.

Definition validateOperatorPrincipal (c : config) (name : string) (p : OperatorPrincipal) : list string :=
  err (name =? "")%string "operator principal name is required"
  ++ err (blank (Token p)) "operator principal token or token_env is required"
  ++ err (principalRequiresLaunchProfiles (AllowedActions p) && is_nil (AllowedProfiles p))
       "operator principal allowed_profiles must not be empty"
  ++ flat_map (λ profile, err (negb (bool_decide (is_Some (LaunchProfiles c !! profile))))
                            "operator principal references unknown launch profile") (AllowedProfiles p)
  ++ err (is_nil (AllowedActions p)) "operator principal allowed_actions must not be empty"
  ++ flat_map (λ action, err (negb (validOperatorAction action)) "operator principal has unsupported action")
       (AllowedActions p)
  ++ err (only_action p "release.promote") "operator principal must grant release.promote and no other action"
  ++ err (only_action p "release.publish") "operator principal must grant release.publish and no other action"
  ++ err (negb (RunScope p =? "")%string && negb (RunScope p =? "owned")%string && negb (RunScope p =? "profile")%string)
       "operator principal run_scope must be owned or profile".

(** ** Templates, profiles and the whole configuration *)

Section Validate.
(** regexp.Compile and MatchString *)
Variable re_compile : string → option (string → bool).

Definition validateTemplate (c : config) (name : string) (t : TemplateDecl) : list string :=
  let tmpl := td t in
  let image := trim_space (Image tmpl) in
  err (name =? "")%string "template name is required"
  ++ err ((image =? "")%string && (AgentType tmpl =? "")%string) "template image is required when agent_type is not set"
  ++ err (Production c && negb (image =? "")%string && negb (GoStrings.contains image "@sha256:"))
       "template image must be pinned by digest in production mode"
  ++ (if negb (AgentType tmpl =? "")%string then
        err (negb (matches agentTypePattern (AgentType tmpl))) "template agent_type must be kebab-case"
        ++ err (blank (ReleaseStore c)) "template sets agent_type but release_store_path is not configured"
      else [])
  ++ found (tmpl_Capability tmpl) (λ pol,
        err (AgentType tmpl =? "")%string "template declares a capability policy without agent_type"
        ++ err (blank (CapabilityStore c)) "template declares a capability policy but capability_store_path is not configured"
        ++ validateCapabilityPolicy pol)
  ++ err (is_nil (Command tmpl)) "template command is required"
  ++ err (blank (User tmpl) || (User tmpl =? "0")%string || (User tmpl =? "root")%string)
       "template must set a non-root user"
  ++ (if (tmpl_NetworkPolicy tmpl =? "")%string then ["template network_policy is required"]
      else err (negb (bool_decide (is_Some (c_Networks c !! tmpl_NetworkPolicy tmpl))))
             "template references unknown network_policy")
  ++ err (MaxRuntimeMinutes tmpl <? 1) "template max_runtime_minutes must be positive"
  ++ err (blank (BrokerAgentID tmpl) && negb (isCodexCredentialFreeTemplate c name)) "template broker_agent_id is required"
  ++ err ((BrokerAgentSecret tmpl =? "")%string && negb (isCodexCredentialFreeTemplate c name))
       "template broker_agent_secret or broker_agent_secret_env is required"
  ++ (if negb (tmpl_CredentialBundle tmpl =? "")%string then
        match c_Bundles c !! tmpl_CredentialBundle tmpl with
        | None => ["template references unknown credential_bundle"]
        | Some b => err (negb (contains (AllowedTemplates (bd b)) name)) "credential_bundle does not allow template"
        end
      else [])
  ++ flat_map (λ pattern, err (negb (bool_decide (is_Some (re_compile pattern)))) "template has invalid branch pattern")
       (AllowedPatterns (tmpl_BranchPolicy tmpl))
  ++ flat_map (λ path, err (negb (IsAbs path)) "template knowledge snapshot must be absolute") (KnowledgeSnapshots t)
  ++ flat_map validateExtraMount (ExtraMounts tmpl)
  ++ (if negb (CompletionStatusPath t =? "")%string then validateCompletionStatusPath t else [])
  ++ err (negb (WorkItemInputPath t =? "")%string && negb (WorkItemInputPath t =? "/input/work-item.json")%string)
       "template work_item_input_path must be /input/work-item.json"
  ++ err (StorageLimitMB tmpl <? 0) "template storage_limit_mb must not be negative"
  ++ each (λ target sizeMB, err (negb (IsAbs target) || (target =? "/")%string || (sizeMB <? 1))
                              "template tmpfs entry must be an absolute non-root path with a positive MiB bound")
       (Tmpfs tmpl).

Definition validateLaunchProfile (c : config) (name : string) (p : LaunchProfile) : list string :=
  let i := lp_input p in
  let tmpl := c_Templates c !! in_Template i in
  err (name =? "")%string "launch profile name is required"
  ++ (if blank (in_Template i) then ["launch profile template is required"]
      else err (negb (bool_decide (is_Some tmpl))) "launch profile references unknown template")
  ++ (if negb (validRepo (in_Repo i)) then ["launch profile repo must be owner/repo"]
      else err (negb (containsFold (c_Repositories c) (in_Repo i))) "launch profile repo is not allowed")
  ++ (if blank (in_Task i) then ["launch profile task is required"]
      else err (c_MaxTaskBytes c <? Z.of_nat (String.length (in_Task i))) "launch profile task exceeds max_task_bytes")
  ++ err (c_MaxTaskBytes c <? Z.of_nat (String.length (in_VerificationTask i)))
       "launch profile verification_task exceeds max_task_bytes"
  ++ err (blank (in_BaseBranch i)) "launch profile base_branch is required"
  ++ err (lp_MaxConcurrentRuns p <? 0) "launch profile max_concurrent_runs must not be negative"
  ++ found tmpl (λ t,
       let pol := tmpl_BranchPolicy (td t) in
       let max := MaxRuntimeMinutes (td t) in
       err (negb (is_nil (BaseBranches pol)) && negb (contains (BaseBranches pol) (in_BaseBranch i)))
         "launch profile base_branch is not allowed by template"
       ++ (if negb (in_Branch i =? "")%string then
             if negb (safeBranch (in_Branch i)) then ["launch profile branch is unsafe"]
             else err (negb (is_nil (AllowedPatterns pol))
                       && negb (matchesAny re_compile (λ re s, re s) (AllowedPatterns pol) (in_Branch i)))
                    "launch profile branch does not match template branch policy"
           else [])
       ++ err (negb (in_MaxRuntimeMinutes i =? 0) && negb (in_MaxRuntimeSeconds i =? 0))
            "launch profile must set only one of max_runtime_minutes or max_runtime_seconds"
       ++ err ((in_MaxRuntimeMinutes i <? 0) || (max <? in_MaxRuntimeMinutes i))
            "launch profile max_runtime_minutes out of range"
       ++ err ((in_MaxRuntimeSeconds i <? 0)
               || (wrap64 (max * minute) <? wrap64 (in_MaxRuntimeSeconds i * second)))
            "launch profile max_runtime_seconds must not exceed template max_runtime_minutes")
  ++ flat_map (λ field, err (negb (launchOverrideFieldAllowed field)) "launch profile allow_overrides contains unsupported field")
       (AllowOverrides p)
  ++ each (validateParameterDeclaration re_compile) (lp_Parameters p)
  ++ found (lp_Codex p) (validateCodexIssueWorkflow c name p).

(** The Codex credentials' directories against everything that is mounted. *)
Definition overlap (a b : string) : bool := pathWithin a b || pathWithin b a.

Definition validateHolder (c : config) : list string :=
  let master := Clean (MasterAuthPath (CodexHolder c)) in
  let issuance := Clean (IssuanceRoot (CodexHolder c)) in
  let runs := Clean (c_RunsDir c) in
  err (negb (IsAbs (MasterAuthPath (CodexHolder c))) || negb (IsAbs (IssuanceRoot (CodexHolder c))))
    "codex_holder master_auth_path and issuance_root must be absolute"
  ++ err (pathWithin master runs || pathWithin issuance runs || pathWithin master issuance || pathWithin issuance master)
       "codex_holder master, issuance, and runs paths must be strictly separated"
  ++ each (λ _ b, err (overlap master (Clean (SourcePath (bd b))))
                    "credential bundle cannot expose the Codex master lineage") (c_Bundles c)
  ++ each (λ _ t, flat_map (λ m, let source := Clean (em_SourcePath m) in
                                 err (overlap master source || overlap issuance source)
                                   "template extra_mounts cannot expose Codex holder paths") (ExtraMounts (td t)))
       (c_Templates c).

Definition Validate (c : config) : list string :=
  err (blank (AuthToken c)) "auth_token or auth_token_env is required"
  ++ err (blank (c_BrokerURL c)) "broker_url is required"
  ++ err (negb (IsAbs (c_RunsDir c))) "runs_dir must be an absolute path"
  ++ err (negb (LaunchIntentStore c =? "")%string && negb (IsAbs (LaunchIntentStore c)))
       "launch_intent_store_path must be an absolute path"
  ++ err (negb (ReleaseStore c =? "")%string && negb (IsAbs (ReleaseStore c)))
       "release_store_path must be an absolute path"
  ++ (if negb (CapabilityStore c =? "")%string then
        err (negb (IsAbs (CapabilityStore c))) "capability_store_path must be an absolute path"
        ++ err (blank (CapabilityAPIToken c)) "capability_store_path requires capability_api_token"
      else [])
  ++ err (c_MaxTaskBytes c <? 1) "max_task_bytes must be positive"
  ++ err (MaxParameterBytes c <? 1) "max_parameter_bytes must be positive"
  ++ err (LogByteLimit c <? 1) "log_byte_limit must be positive"
  ++ err (ReleaseArtifactByteLimit c <? 0) "release_artifact_byte_limit must not be negative"
  ++ each (λ agentType policy,
             err (negb (matches agentTypePattern agentType)) "agent_release_policy must use a kebab-case agent type"
             ++ err (is_nil (Platforms policy)) "agent_release_policy must declare at least one platform")
       (AgentReleasePolicies c)
  ++ err (is_nil (c_Repositories c)) "repositories must not be empty"
  ++ flat_map (λ repo, err (negb (validRepo repo)) "repository must be owner/repo") (c_Repositories c)
  ++ err (bool_decide (c_Networks c = ∅)) "network_policies must not be empty"
  ++ each validateNetwork (c_Networks c)
  ++ each validateBundle (c_Bundles c)
  ++ err (bool_decide (c_Templates c = ∅)) "templates must not be empty"
  ++ each (validateTemplate c) (c_Templates c)
  ++ each (validateLaunchProfile c) (LaunchProfiles c)
  ++ each validateModelPolicy (ModelPolicies c)
  ++ (if hasCodexWorkflow (LaunchProfiles c) then validateHolder c else [])
  ++ each (validateOperatorPrincipal c) (OperatorPrincipals c).
End Validate.


(** ** Loading *)

Definition or_default (s dflt : string) : string := if (s =? "")%string then dflt else s.
Definition or_default_Z (n dflt : Z) : Z := if n =? 0 then dflt else n.

Definition ApplyDefaults (c : config) : config :=
  let runs := or_default (c_RunsDir c) "/srv/hermes-sandbox-broker/runs" in
  {| Listen := or_default (Listen c) "127.0.0.1:8091"; MCPPath := or_default (MCPPath c) "/mcp"; AuthToken :=
     AuthToken c; AuthTokenEnv := AuthTokenEnv c; c_RunsDir := runs; LaunchIntentStore := or_default
     (LaunchIntentStore c) (Clean (runs +:+ "/launch-intents.sqlite")); ReleaseStore := ReleaseStore c;
     CapabilityStore := CapabilityStore c; CapabilityAPIToken := CapabilityAPIToken c; CapabilityAPITokenEnv :=
     CapabilityAPITokenEnv c; c_BrokerURL := c_BrokerURL c; Production := Production c; c_Repositories :=
     c_Repositories c; c_Networks := c_Networks c; c_Bundles := c_Bundles c; c_Templates := c_Templates c;
     LaunchProfiles := LaunchProfiles c; ModelPolicies := ModelPolicies c; CodexHolder := CodexHolder c;
     OperatorPrincipals := OperatorPrincipals c; AgentReleasePolicies := AgentReleasePolicies c; c_MaxTaskBytes :=
     or_default_Z (c_MaxTaskBytes c) (64 * 1024); MaxParameterBytes := or_default_Z (MaxParameterBytes c) (16 *
     1024); LogByteLimit := or_default_Z (LogByteLimit c) (128 * 1024); TerminalResultByteLimit := or_default_Z
     (TerminalResultByteLimit c) (32 * 1024); ReleaseArtifactByteLimit := or_default_Z (ReleaseArtifactByteLimit c)
     (256 * 1024 * 1024); StopGrace := or_default_Z (StopGrace c) (10 * second); c_ConfigVersion := c_ConfigVersion c |}.

Section Load.
(** os.Getenv *)
Variable getenv : string → string.

(** A configured secret, or the one in the named variable. *)
Definition secret_or_env (secret env : string) : string :=
  if (secret =? "")%string && negb (env =? "")%string then getenv env else secret.

Definition resolve_template (t : TemplateDecl) : TemplateDecl :=
  let secret := secret_or_env (BrokerAgentSecret (td t)) (BrokerSecretEnv t) in
  {| td :=
        {| Image := Image (td t); AgentType := AgentType (td t); Entrypoint := Entrypoint (td t); Command := Command
           (td t); User := User (td t); tmpl_Resources := tmpl_Resources (td t); tmpl_NetworkPolicy :=
           tmpl_NetworkPolicy (td t); MaxRuntimeMinutes := MaxRuntimeMinutes (td t); BrokerAgentID := BrokerAgentID
           (td t); BrokerAgentSecret := secret; tmpl_BranchPolicy := tmpl_BranchPolicy (td t); tmpl_CredentialBundle
           := tmpl_CredentialBundle (td t); tmpl_Deliverables := tmpl_Deliverables (td t); Environment := Environment
           (td t); ExtraMounts := ExtraMounts (td t); StorageLimitMB := StorageLimitMB (td t); Tmpfs := Tmpfs (td t);
           tmpl_Capability := tmpl_Capability (td t) |};
     BrokerSecretEnv := BrokerSecretEnv t; KnowledgeSnapshots := KnowledgeSnapshots t;
     CompletionStatusPath := CompletionStatusPath t; WorkItemInputPath := WorkItemInputPath t |}.

Definition resolve_principal (p : OperatorPrincipal) : OperatorPrincipal :=
  {| Token := secret_or_env (Token p) (TokenEnv p); TokenEnv := TokenEnv p; AllowedProfiles := AllowedProfiles p;
     AllowedActions := AllowedActions p; RunScope := RunScope p |}.

Definition ResolveSecrets (c : config) : config :=
  {| Listen := Listen c; MCPPath := MCPPath c; AuthToken := secret_or_env (AuthToken c) (AuthTokenEnv c);
     AuthTokenEnv := AuthTokenEnv c; c_RunsDir := c_RunsDir c; LaunchIntentStore := LaunchIntentStore c; ReleaseStore
     := ReleaseStore c; CapabilityStore := CapabilityStore c; CapabilityAPIToken := secret_or_env (CapabilityAPIToken
     c) (CapabilityAPITokenEnv c); CapabilityAPITokenEnv := CapabilityAPITokenEnv c; c_BrokerURL := c_BrokerURL c;
     Production := Production c; c_Repositories := c_Repositories c; c_Networks := c_Networks c; c_Bundles :=
     c_Bundles c; c_Templates := resolve_template <$> c_Templates c; LaunchProfiles := LaunchProfiles c;
     ModelPolicies := ModelPolicies c; CodexHolder := CodexHolder c; OperatorPrincipals := resolve_principal <$>
     OperatorPrincipals c; AgentReleasePolicies := AgentReleasePolicies c; c_MaxTaskBytes := c_MaxTaskBytes c;
     MaxParameterBytes := MaxParameterBytes c; LogByteLimit := LogByteLimit c; TerminalResultByteLimit :=
     TerminalResultByteLimit c; ReleaseArtifactByteLimit := ReleaseArtifactByteLimit c; StopGrace := StopGrace c;
     c_ConfigVersion := c_ConfigVersion c |}.

Variable re_compile : string → option (string → bool).
(** json.Marshal and SHA-256 of the public part of the configuration. *)
Variable versionDigest : config → string.

Definition StampLoaded (c : config) : config :=
  {| Listen := Listen c; MCPPath := MCPPath c; AuthToken := AuthToken c; AuthTokenEnv := AuthTokenEnv c; c_RunsDir :=
     c_RunsDir c; LaunchIntentStore := LaunchIntentStore c; ReleaseStore := ReleaseStore c; CapabilityStore :=
     CapabilityStore c; CapabilityAPIToken := CapabilityAPIToken c; CapabilityAPITokenEnv := CapabilityAPITokenEnv c;
     c_BrokerURL := c_BrokerURL c; Production := Production c; c_Repositories := c_Repositories c; c_Networks :=
     c_Networks c; c_Bundles := c_Bundles c; c_Templates := c_Templates c; LaunchProfiles := LaunchProfiles c;
     ModelPolicies := ModelPolicies c; CodexHolder := CodexHolder c; OperatorPrincipals := OperatorPrincipals c;
     AgentReleasePolicies := AgentReleasePolicies c; c_MaxTaskBytes := c_MaxTaskBytes c; MaxParameterBytes :=
     MaxParameterBytes c; LogByteLimit := LogByteLimit c; TerminalResultByteLimit := TerminalResultByteLimit c;
     ReleaseArtifactByteLimit := ReleaseArtifactByteLimit c; StopGrace := StopGrace c; c_ConfigVersion :=
     versionDigest c |}.

(** [decoded] is the file's content, [None] when it cannot be read or decoded. *)
Definition Load (decoded : option config) : option config :=
  match decoded with
  | None => None
  | Some c =>
    let c := ResolveSecrets (ApplyDefaults c) in
    if is_nil (Validate re_compile c) then Some (StampLoaded c) else None
  end.
End Load.
