(* ===== verification/ConfigSafety.v ===== *)
(** * What a valid configuration guarantees

    [Validate] (SandboxConfig) against the launches it is checked for (Sandbox):
    every container a launch specifies from a valid configuration has what the
    configuration declares and nothing else, and the Codex credentials are apart
    from every container. *)

From S2P Require Import Prelude GoStrings GoTime Regex Sandbox Parameters Paths SandboxConfig.
Open Scope string_scope.
Open Scope list_scope.
Open Scope Z_scope.

(** ** No refusal *)

Lemma err_nil c what : err c what = [] ↔ c = false.
Proof. by destruct c. Qed.

Lemma each_nil {A} (f : string → A → list string) m : each f m = [] ↔ ∀ k v, m !! k = Some v → f k v = [].
Proof.
  unfold each. rewrite flat_map_nil. split.
  - intros H k v Hk. apply (H (k, v)). by apply elem_of_map_to_list.
  - intros H [k v] Hin. apply H. by apply elem_of_map_to_list.
Qed.

Lemma found_nil {A} (o : option A) f : found o f = [] ↔ ∀ a, o = Some a → f a = [].
Proof. destruct o; cbn; naive_solver. Qed.

Lemma known_true {A} (o : option A) : negb (bool_decide (is_Some o)) = false ↔ is_Some o.
Proof. rewrite negb_false_iff. apply bool_decide_eq_true. Qed.

(** Splits "nothing is wrong" into its rules. *)
Ltac valid H := repeat (rewrite ?app_nil, ?err_nil, ?flat_map_nil, ?each_nil, ?found_nil, ?known_true in H).

(** Passes over one rule; keeps one rule. *)
Ltac skip_rule H := apply app_nil in H as [_ H].
Ltac take_rule H R := apply app_nil in H as [R H].


(** The sandbox's own directories, and a path outside of them. *)
Definition outside_managed (p : string) : Prop := Clean p ≠ "/" ∧ ∀ dir, dir ∈ managed → pathWithin p dir = false.

Lemma managed_plain dir : dir ∈ managed → ∃ e, dir = "/" +:+ e ∧ plain e.
Proof.
  unfold managed. rewrite !elem_of_cons, elem_of_nil.
  intros [->|[->|[->|[->|[]]]]]; [exists "input"|exists "work"|exists "output"|exists "lessons"]; done.
Qed.

Lemma elements_one e : plain e → elements_of ("/" +:+ e) = [e].
Proof. intros He. apply (elements_child "/" [e] eq_refl); [done|by constructor]. Qed.

Lemma existsb_none {A} (p : A → bool) l : existsb p l = false ↔ ∀ x, x ∈ l → p x = false.
Proof.
  split; [|apply existsb_false]. intros H x Hx. destruct (p x) eqn:E; [|done].
  assert (existsb p l = true) by (apply existsb_elem_of; by exists x). congruence.
Qed.

Lemma docker_plain : Forall plain ["var"; "run"; "docker.sock"].
Proof. by repeat constructor. Qed.

Lemma docker_outside p : IsAbs p = true →
  (Clean p =? docker_socket)%string || has_prefix (docker_socket +:+ "/") (Clean p) = false →
  pathWithin p docker_socket = false.
Proof.
  intros Hp [H1 H2]%orb_false_iff. apply String.eqb_neq in H1.
  exact (not_within p ["var"; "run"; "docker.sock"] Hp ltac:(done) docker_plain eq_refl H1 H2).
Qed.

Lemma validExtraMount_ok m : validateExtraMount m = [] →
  IsAbs (em_SourcePath m) = true ∧ IsAbs (em_MountPath m) = true ∧ Clean (em_SourcePath m) ≠ "/" ∧
  pathWithin (em_SourcePath m) docker_socket = false ∧ outside_managed (em_MountPath m).
Proof.
  unfold validateExtraMount. cbv zeta. intros H. valid H. rewrite !negb_false_iff in H.
  destruct H as (Hs & Ht & Hsrc & Htgt). rewrite <- orb_assoc in Hsrc, Htgt.
  apply orb_false_iff in Hsrc as [Hroot Hsock]. apply orb_false_iff in Htgt as [Htroot [Heq Hpre]%orb_false_iff].
  apply String.eqb_neq in Hroot, Htroot. split_and!; try done; [by apply docker_outside|]. split; [done|].
  intros dir Hdir. rewrite existsb_none in Heq, Hpre. specialize (Heq dir Hdir). specialize (Hpre dir Hdir).
  apply String.eqb_neq in Heq. destruct (managed_plain dir Hdir) as (e & -> & He).
  apply (not_within (em_MountPath m) [e] Ht); [done|by constructor|by apply elements_one|done|done].
Qed.

Lemma validBundle_ok name b : validateBundle name b = [] →
  IsAbs (SourcePath (bd b)) = true ∧ IsAbs (MountPath (bd b)) = true ∧
  pathWithin (SourcePath (bd b)) docker_socket = false ∧
  MountPath (bd b) ≠ "/" ∧ ∀ dir, dir ∈ managed → has_prefix dir (MountPath (bd b)) = false.
Proof.
  unfold validateBundle. cbv zeta. intros H. valid H. rewrite !negb_false_iff in H.
  destruct H as (_ & Hs & Ht & _ & Hsock & [Hroot Hpre]%orb_false_iff & _). apply String.eqb_neq in Hroot.
  rewrite existsb_none in Hpre. split_and!; try done. by apply docker_outside.
Qed.

(** ** The environment *)

Definition sandbox_env : list string :=
  ["SANDBOX_RUN_ID"; "SANDBOX_REPO"; "SANDBOX_BRANCH"; "SANDBOX_BASE_BRANCH"; "HOME"; "HERMES_HOME"].
Definition agent_env : list string :=
  ["AGENT_RUN_ID"; "AGENT_REPO"; "AGENT_BASE_BRANCH"; "AGENT_BRANCH"; "AGENT_TASK"; "AGENT_VERIFY_TASK"].
Definition fixed_env : list string := capabilityEnvKey :: agent_env ++ sandbox_env.
Definition broker_env : list string := ["BROKER_URL"; "BROKER_AGENT_ID"; "BROKER_AGENT_SECRET"].

Lemma insert_all_keys kvs m k : is_Some (insert_all kvs m !! k) → k ∈ map fst kvs ∨ is_Some (m !! k).
Proof.
  revert m. induction kvs as [|[k' v] kvs IH]; intros m; [by right|]. intros H.
  apply (IH (<[k' := v]> m)) in H as [H|H]; [left; by right|]. cbn [map fst].
  destruct (decide (k' = k)) as [->|Hne]; [by left; left|]. rewrite lookup_insert_ne in H by done. by right.
Qed.

(** Where a worker's variables come from. *)
Lemma worker_env_keys cfg i tmpl handle k : is_Some (worker_env cfg i tmpl handle !! k) →
  k ∈ fixed_env ∨ (BrokerAgentID tmpl ≠ "" ∧ k ∈ broker_env) ∨ (is_Some (Environment tmpl !! k) ∧ safeEnvKey k = true).
Proof.
  assert (k ∈ agent_env → k ∈ fixed_env) as Hagent by (intros; right; apply elem_of_app; by left).
  assert (k ∈ sandbox_env → k ∈ fixed_env) as Hsandbox by (intros; right; apply elem_of_app; by right).
  unfold worker_env. cbv zeta. intros H.
  match type of H with is_Some ((if _ then ?e else _) !! _) => assert (k ∈ fixed_env ∨ is_Some (e !! k)) as [|H'] end.
  { destruct (handle =? "")%string; [by right|]. destruct (decide (k = capabilityEnvKey)) as [->|Hne]; [left; by left|].
    right. by rewrite lookup_insert_ne in H by done. }
  { by left. }
  clear H. apply insert_all_keys in H' as [Hk|H]; [left; by apply Hagent|].
  apply lookup_union_is_Some in H as [[v Hv]|H].
  { right; right. apply map_lookup_filter_Some in Hv as [Hv Hs]. split; [by exists v|done]. }
  assert (∀ kvs, map fst kvs = sandbox_env → is_Some (insert_all kvs ∅ !! k) → k ∈ fixed_env) as Hs.
  { intros kvs Hk [Hin|Hin]%insert_all_keys; [rewrite Hk in Hin; by apply Hsandbox|]. rewrite lookup_empty in Hin. by destruct Hin. }
  destruct (String.eqb_spec (BrokerAgentID tmpl) "") as [E|E]; cbn [negb andb] in H.
  { left. by eapply Hs in H. }
  destruct (String.eqb (BrokerAgentSecret tmpl) ""); cbn [negb] in H; [left; by eapply Hs in H|].
  apply insert_all_keys in H as [Hk|Hk]; [by right; left|left; by eapply Hs in Hk].
Qed.

(** ** What a container gets *)



Section Valid.
Variable re_compile : string → option (string → bool).
Variable c : config.
Hypothesis Hvalid : Validate re_compile c = [].

Lemma valid_parts :
  (∀ name n, c_Networks c !! name = Some n → validateNetwork name n = []) ∧
  (∀ name b, c_Bundles c !! name = Some b → validateBundle name b = []) ∧
  (∀ name t, c_Templates c !! name = Some t → validateTemplate re_compile c name t = []) ∧
  (∀ name p, LaunchProfiles c !! name = Some p → validateLaunchProfile re_compile c name p = []) ∧
  (hasCodexWorkflow (LaunchProfiles c) = true → validateHolder c = []) ∧
  (∀ name p, OperatorPrincipals c !! name = Some p → validateOperatorPrincipal c name p = []) ∧
  IsAbs (c_RunsDir c) = true.
Proof using Hvalid.
  pose proof Hvalid as H. unfold Validate in H.
  do 2 skip_rule H. take_rule H Hr. do 11 skip_rule H. take_rule H Hn. take_rule H Hb. skip_rule H. take_rule H Ht.
  take_rule H Hp. skip_rule H. take_rule H Hc. rename H into Ho.
  rewrite each_nil in Hn. rewrite each_nil in Hb. rewrite each_nil in Ht. rewrite each_nil in Hp. rewrite each_nil in Ho. apply err_nil, negb_false_iff in Hr.
  split_and!; try done. intros E. by rewrite E in Hc.
Qed.
(** What the rules for a template say of a container made from it. *)
Record sound_template (name : string) (t : TemplateDecl) : Prop := {
  st_user : trim_space (User (td t)) ≠ "" ∧ User (td t) ≠ "0" ∧ User (td t) ≠ "root";
  st_network : is_Some (c_Networks c !! tmpl_NetworkPolicy (td t));
  st_bundle : tmpl_CredentialBundle (td t) ≠ "" →
    ∃ b, c_Bundles c !! tmpl_CredentialBundle (td t) = Some b ∧ name ∈ AllowedTemplates (bd b);
  st_mounts : ∀ m, m ∈ ExtraMounts (td t) → validateExtraMount m = [];
  st_tmpfs : ∀ target size, Tmpfs (td t) !! target = Some size → IsAbs target = true ∧ target ≠ "/" ∧ 1 ≤ size;
  st_storage : 0 ≤ StorageLimitMB (td t);
  st_command : Command (td t) ≠ [];
  st_image : AgentType (td t) = "" → trim_space (Image (td t)) ≠ "" ∧
    (Production c = true → GoStrings.contains (trim_space (Image (td t))) "@sha256:" = true) }.

Lemma template_sound name t : validateTemplate re_compile c name t = [] → sound_template name t.
Proof using Type.
  unfold validateTemplate. cbv zeta. intros H. skip_rule H. take_rule H Himg. take_rule H Hpin. do 2 skip_rule H.
  take_rule H Hcmd. take_rule H Huser. take_rule H Hnet. do 3 skip_rule H. take_rule H Hbundle. do 2 skip_rule H.
  take_rule H Hmounts. do 2 skip_rule H. take_rule H Hstore. rename H into Htmpfs.
  apply err_nil in Himg, Hpin, Hcmd, Huser, Hstore.
  unfold blank in Huser. apply orb_false_iff in Huser as [[H1 H2]%orb_false_iff H3]. apply String.eqb_neq in H1, H2, H3.
  split; try done.
  - destruct (tmpl_NetworkPolicy (td t) =? "")%string; [done|]. by apply err_nil, known_true in Hnet.
  - intros Hne. rewrite (proj2 (String.eqb_neq _ _) Hne) in Hbundle. cbn in Hbundle.
    destruct (c_Bundles c !! _) as [b|]; [|done]. apply err_nil, negb_false_iff, contains_elem in Hbundle. by exists b.
  - by apply flat_map_nil.
  - intros target size Hl. pose proof (proj1 (each_nil _ _) Htmpfs target size Hl) as H. apply err_nil in H.
    apply orb_false_iff in H as [[Ha%negb_false_iff Hb%String.eqb_neq]%orb_false_iff Hc%Z.ltb_ge]. done.
  - by apply Z.ltb_ge in Hstore.
  - by apply is_nil_false in Hcmd.
  - intros Ea. rewrite Ea in Himg. cbn in Himg. rewrite andb_true_r in Himg. apply String.eqb_neq in Himg.
    split; [done|]. intros Hp. rewrite Hp, (proj2 (String.eqb_neq _ _) Himg) in Hpin. cbn in Hpin.
    by apply negb_false_iff in Hpin.
Qed.

End Valid.


(** ** Properties *)


(** ** Codex phases *)

Lemma fixed_env_allowed k recovery : k ∈ fixed_env → forbidden_env recovery k = false ∧ k ≠ "BROKER_AGENT_SECRET".
Proof.
  assert (forallb (λ k, negb (forbidden_env recovery k) && negb (k =? "BROKER_AGENT_SECRET")%string) fixed_env = true) as H.
  { by destruct recovery; vm_compute. }
  intros Hk. rewrite forallb_forall in H. apply list_elem_of_In in Hk. specialize (H k Hk).
  apply andb_true_iff in H as [H1%negb_true_iff H2%negb_true_iff%String.eqb_neq]. done.
Qed.

Lemma broker_env_allowed k : k ∈ broker_env → forbidden_env false k = false.
Proof.
  assert (forallb (λ k, negb (forbidden_env false k)) broker_env = true) as H by by vm_compute.
  intros Hk. rewrite forallb_forall in H. apply list_elem_of_In in Hk. by apply negb_true_iff, H.
Qed.

Lemma surface_ok recovery t k v : validateCodexTemplateSurface recovery t = [] →
  Environment (td t) !! k = Some v → forbidden_env recovery k = false.
Proof. intros H Hk. unfold validateCodexTemplateSurface in H. take_rule H He. rewrite each_nil in He. apply He in Hk. by apply err_nil in Hk. Qed.

(** What a worker of a checked phase may see. *)
Lemma phase_env recovery cfg i t image handle k :
  validateCodexTemplateSurface recovery t = [] →
  (recovery = true → BrokerAgentID (td t) = "") →
  is_Some (worker_env cfg i (with_image (td t) image) handle !! k) → forbidden_env recovery k = false.
Proof.
  intros Hs Hr [Hk|[[Hne Hk]|[[v Hv] _]]]%worker_env_keys.
  - by apply fixed_env_allowed.
  - destruct recovery; [by exfalso; apply Hne, Hr|]. by apply broker_env_allowed.
  - by eapply surface_ok.
Qed.

Lemma free_env cfg i t image handle : BrokerAgentID (td t) = "" →
  worker_env cfg i (with_image (td t) image) handle !! "BROKER_AGENT_SECRET" = None.
Proof.
  intros E. apply eq_None_not_Some. intros [Hk|[[Hne _]|[_ Hk]]]%worker_env_keys; [|by apply Hne|by vm_compute in Hk].
  by apply (fixed_env_allowed _ false) in Hk as [_ ?].
Qed.

Lemma hasCodexWorkflow_true profiles name p w :
  profiles !! name = Some p → lp_Codex p = Some w → hasCodexWorkflow profiles = true.
Proof.
  intros Hp Hw. unfold hasCodexWorkflow. apply existsb_exists. exists (name, p).
  split; [by apply list_elem_of_In, elem_of_map_to_list|]. rewrite Hw. by apply bool_decide_eq_true.
Qed.

(** The four templates of a workflow, checked. *)
Lemma workflow_ok c name p w : validateCodexIssueWorkflow c name p w = [] →
  (∀ t, c_Templates c !! PreparationTemplate w = Some t → validateDelivery "preparation" c t = []) ∧
  (∀ t, c_Templates c !! ExecutionTemplate w = Some t → validateExecution c t = []) ∧
  (∀ t, c_Templates c !! DeliveryTemplate w = Some t → validateDelivery "delivery" c t = []) ∧
  (∀ t, c_Templates c !! RecoveryTemplate w = Some t → validateRecovery c t = []).
Proof.
  unfold validateCodexIssueWorkflow. cbv zeta. intros H. do 12 skip_rule H. take_rule H H1. take_rule H H2.
  take_rule H H3. take_rule H H4. split_and!; by apply found_nil.
Qed.

Lemma delivery_ok phase c t : validateDelivery phase c t = [] → validateCodexTemplateSurface false t = [].
Proof. unfold validateDelivery. cbv zeta. intros H. by skip_rule H. Qed.

(** Neither a broker identity nor a bundle. *)
Definition credential_free (c : config) (t : TemplateDecl) : Prop :=
  BrokerAgentID (td t) = "" ∧ tmpl_CredentialBundle (td t) = "" ∧ PrivateBroker (network_of c t) = false.

Lemma execution_ok c t : validateExecution c t = [] → credential_free c t ∧ validateCodexTemplateSurface false t = [].
Proof.
  unfold validateExecution, no_bundle, no_broker_agent, credential_free. cbv zeta. intros H. take_rule H H1. skip_rule H.
  apply err_nil, negb_false_iff in H1.
  apply andb_true_iff in H1 as [[[[Hb [Ha _]%andb_true_iff]%andb_true_iff Hp]%andb_true_iff _]%andb_true_iff _].
  apply String.eqb_eq in Hb, Ha. by apply negb_true_iff in Hp.
Qed.

Lemma recovery_ok c t : validateRecovery c t = [] → credential_free c t ∧ validateCodexTemplateSurface true t = [].
Proof.
  unfold validateRecovery, no_bundle, no_broker_agent, credential_free. cbv zeta. intros H. take_rule H H1. take_rule H H2.
  apply err_nil, negb_false_iff in H1.
  apply andb_true_iff in H1 as [[[[Hb [Ha _]%andb_true_iff]%andb_true_iff Hp]%andb_true_iff _]%andb_true_iff _].
  apply String.eqb_eq in Hb, Ha. by apply negb_true_iff in Hp.
Qed.

(** ** The Codex credentials *)

Section Holder.
Variable re_compile : string → option (string → bool).
Variable c : config.
Hypothesis Hvalid : Validate re_compile c = [].
Hypothesis Hcodex : hasCodexWorkflow (LaunchProfiles c) = true.

Let master := MasterAuthPath (CodexHolder c).
Let issuance := IssuanceRoot (CodexHolder c).

Lemma holder_apart :
  IsAbs master = true ∧ IsAbs issuance = true ∧
  pathWithin master (c_RunsDir c) = false ∧ pathWithin issuance (c_RunsDir c) = false ∧
  (∀ name b, c_Bundles c !! name = Some b → pathWithin master (SourcePath (bd b)) = false) ∧
  (∀ name t m, c_Templates c !! name = Some t → m ∈ ExtraMounts (td t) →
     pathWithin master (em_SourcePath m) = false ∧ pathWithin issuance (em_SourcePath m) = false).
Proof using Hvalid Hcodex.
  destruct (valid_parts re_compile c Hvalid) as (_ & Hb & Ht & _ & Hh & _ & Hruns).
  specialize (Hh Hcodex). unfold validateHolder in Hh. cbv zeta in Hh. fold master issuance in Hh.
  take_rule Hh Habs. take_rule Hh Hsep. take_rule Hh Hbundles. rename Hh into Hmounts.
  apply err_nil, orb_false_iff in Habs as [Hm%negb_false_iff Hi%negb_false_iff].
  apply err_nil, orb_false_iff in Hsep as [[[H1 H2]%orb_false_iff _]%orb_false_iff _].
  rewrite !pathWithin_Clean_l, !pathWithin_Clean_r in H1, H2 by done.
  split_and!; try done.
  - intros name b Hlk. destruct (validBundle_ok name b (Hb name b Hlk)) as (Habs & _).
    rewrite each_nil in Hbundles. specialize (Hbundles name b Hlk). apply err_nil, orb_false_iff in Hbundles as [H _].
    by rewrite pathWithin_Clean_l, pathWithin_Clean_r in H.
  - intros name t m Hlk Hin. pose proof (template_sound re_compile c name t (Ht name t Hlk)) as S.
    destruct (validExtraMount_ok m (st_mounts _ _ _ S m Hin)) as (Habs & _).
    rewrite each_nil in Hmounts. specialize (Hmounts name t Hlk). rewrite flat_map_nil in Hmounts.
    specialize (Hmounts m Hin). cbv zeta in Hmounts.
    apply err_nil, orb_false_iff in Hmounts as [[HA _]%orb_false_iff [HB _]%orb_false_iff].
    rewrite pathWithin_Clean_l, pathWithin_Clean_r in HA, HB by done. done.
Qed.

(** What lies outside of the runs directory is in no directory of a run. *)
Lemma run_dir_apart p runID sub : IsAbs p = true → plain runID → plain sub →
  pathWithin p (c_RunsDir c) = false → pathWithin p (runDir (service_config c) runID +:+ "/" +:+ sub) = false.
Proof using Hvalid.
  intros Hp Hid Hsub Hno. destruct (valid_parts re_compile c Hvalid) as (_ & _ & _ & _ & _ & _ & Hruns).
  apply not_true_is_false. intros Hin. unfold runDir in Hin. cbn [service_config RunsDir] in Hin.
  assert ((c_RunsDir c +:+ "/" +:+ runID) +:+ "/" +:+ sub = c_RunsDir c +:+ String "/" (join "/" [runID; sub])) as E.
  { rewrite !sapp_assoc. reflexivity. }
  rewrite E in Hin. apply pathWithin_spec in Hin as (rest & Hr); [|done|by apply IsAbs_app].
  assert (Forall plain [runID; sub]) as Hpl by (constructor; [done|by constructor]).
  rewrite elements_child in Hr by done. rewrite <- app_assoc in Hr.
  assert (pathWithin p (c_RunsDir c) = true); [|congruence]. apply pathWithin_spec; [done..|]. by eexists.
Qed.

Lemma mount_sources i t image handle spec m :
  runtimeSpec (service_config c) i (with_image (td t) image) handle = Some spec → m ∈ sp_Mounts spec →
  (∃ sub, plain sub ∧ mnt_Source m = runDir (service_config c) (RunID i) +:+ "/" +:+ sub) ∨
  (tmpl_CredentialBundle (td t) ≠ "" ∧ ∃ b, c_Bundles c !! tmpl_CredentialBundle (td t) = Some b ∧ mnt_Source m = SourcePath (bd b)) ∨
  (∃ e, e ∈ ExtraMounts (td t) ∧ mnt_Source m = em_SourcePath e).
Proof using Type.
  unfold runtimeSpec. cbv zeta. cbn [with_image tmpl_CredentialBundle service_config Bundles ExtraMounts]. rewrite lookup_fmap.
  destruct (_ && _) eqn:E; [done|]. intros [= <-]. cbn [sp_Mounts]. intros Hm.
  apply elem_of_cons in Hm as [-> | Hm]; [left; exists "input"; by split|].
  apply elem_of_cons in Hm as [-> | Hm]; [left; exists "work"; by split|].
  apply elem_of_cons in Hm as [-> | Hm]; [left; exists "output"; by split|].
  apply elem_of_cons in Hm as [-> | Hm]; [left; exists "lessons"; by split|].
  right. apply elem_of_app in Hm as [Hm|Hm].
  - left. destruct (String.eqb_spec (tmpl_CredentialBundle (td t)) "") as [Eb|Eb]; [by apply elem_of_nil in Hm|].
    split; [done|]. apply list_elem_of_singleton in Hm as ->. cbn [negb andb] in E.
    destruct (c_Bundles c !! _) as [b|]; [by exists b|]. done.
  - right. apply list_elem_of_fmap in Hm as (e & -> & He). by exists e.
Qed.

(** No container holds the credential lineage, nor, without a bundle, the issued ones. *)
Lemma mounts_apart name i t image handle spec m :
  c_Templates c !! name = Some t → plain (RunID i) →
  runtimeSpec (service_config c) i (with_image (td t) image) handle = Some spec → m ∈ sp_Mounts spec →
  pathWithin master (mnt_Source m) = false ∧
  (tmpl_CredentialBundle (td t) = "" → pathWithin issuance (mnt_Source m) = false).
Proof using Hvalid Hcodex.
  intros Ht Hid Hs Hm. destruct holder_apart as (Hma & Hia & Hmr & Hir & Hb & Hx).
  destruct (mount_sources i t image handle spec m Hs Hm) as [(sub & Hsub & ->)|[(Hne & b & Hlk & ->)|(e & He & ->)]].
  - split; [|intros _]; by apply run_dir_apart.
  - split; [by eapply Hb|by intros ?].
  - destruct (Hx name t e Ht He). done.
Qed.
End Holder.

(** In a valid configuration with a Codex workflow no container of any template
    holds the master credential among what it mounts, and one without a credential
    bundle not the issued credentials either; the workflow's execution and recovery
    containers get no broker identity: no secret in the environment, no bundle, no
    private broker network; and none of the four phases' containers has a variable
    that would configure credentials or a proxy. *)
Theorem codex_credentials_apart re_compile c pname p w name t i image handle spec :
  Validate re_compile c = [] → LaunchProfiles c !! pname = Some p → lp_Codex p = Some w →
  c_Templates c !! name = Some t → plain (RunID i) →
  runtimeSpec (service_config c) i (with_image (td t) image) handle = Some spec →
  (∀ m, m ∈ sp_Mounts spec →
     pathWithin (MasterAuthPath (CodexHolder c)) (mnt_Source m) = false ∧
     (tmpl_CredentialBundle (td t) = "" → pathWithin (IssuanceRoot (CodexHolder c)) (mnt_Source m) = false)) ∧
  (name = ExecutionTemplate w ∨ name = RecoveryTemplate w →
     sp_Env spec !! "BROKER_AGENT_SECRET" = None ∧ credential_free c t) ∧
  (∀ k, name ∈ [PreparationTemplate w; ExecutionTemplate w; DeliveryTemplate w; RecoveryTemplate w] →
     is_Some (sp_Env spec !! k) → forbidden_env (name =? RecoveryTemplate w)%string k = false).
Proof.
  intros Hv Hp Hw Ht Hid Hs.
  pose proof (hasCodexWorkflow_true _ _ _ _ Hp Hw) as Hc.
  assert (sp_Env spec = worker_env (service_config c) i (with_image (td t) image) handle) as Eenv.
  { revert Hs. unfold runtimeSpec. cbv zeta. destruct (_ && _); [done|]. by intros [= <-]. }
  rewrite Eenv. destruct (valid_parts re_compile c Hv) as (_ & _ & _ & Hps & _). specialize (Hps pname p Hp).
  unfold validateLaunchProfile in Hps. cbv zeta in Hps. do 10 skip_rule Hps. rewrite found_nil in Hps.
  destruct (workflow_ok c pname p w (Hps w Hw)) as (Hpre & Hexe & Hdel & Hrec).
  split_and!.
  - intros m Hm. by eapply mounts_apart.
  - intros Hname. assert (credential_free c t) as Hf.
    { destruct Hname as [->| ->]; [apply (execution_ok c t (Hexe t Ht))|apply (recovery_ok c t (Hrec t Ht))]. }
    split; [apply free_env, Hf|done].
  - intros k Hname Hk. destruct (String.eqb_spec name (RecoveryTemplate w)) as [->|Hne].
    + destruct (recovery_ok c t (Hrec t Ht)) as [(Ha & _) Hsf]. by eapply phase_env.
    + assert (validateCodexTemplateSurface false t = []) as Hsf; [|by eapply phase_env].
      rewrite !elem_of_cons, elem_of_nil in Hname. destruct Hname as [->|[->|[->|[->|[]]]]].
      * by eapply delivery_ok, Hpre.
      * apply (execution_ok c t (Hexe t Ht)).
      * by eapply delivery_ok, Hdel.
      * done.
Qed.

(** ** A deployment *)

Definition phase_template (agent secret network : string) : TemplateDecl :=
  {| td := {| Image := "worker@sha256:1"; AgentType := ""; Entrypoint := []; Command := ["/run"]; User := "1000:1000";
              tmpl_Resources := {| CPUShares := 0; MemoryMB := 512; PidsLimit := 64 |}; tmpl_NetworkPolicy := network;
              MaxRuntimeMinutes := 30; BrokerAgentID := agent; BrokerAgentSecret := secret;
              tmpl_BranchPolicy := {| AllowedPatterns := []; BaseBranches := ["main"]; GeneratePrefix := "" |};
              tmpl_CredentialBundle := ""; tmpl_Deliverables := []; Environment := {["LANG" := "C"]};
              ExtraMounts := []; StorageLimitMB := 64; Tmpfs := {["/dev/shm" := 64]}; tmpl_Capability := None |};
     BrokerSecretEnv := ""; KnowledgeSnapshots := []; CompletionStatusPath := ""; WorkItemInputPath := "" |}.

Definition deployed_network (network : string) (private relay : bool) : NetworkDecl :=
  {| nd := {| Network := network; NoNetwork := (network =? "")%string |}; PrivateBroker := private; EgressProxy := "";
     AllowedTLSHosts := []; CodexRelay := relay; AllowGeneralDNS := false; AllowInternet := false |}.

Definition parameter (type pattern : string) (min : option Z) (max_length : Z) : ParameterDeclaration :=
  {| Type_ := type; Required := false; Default := VNull; Min := min; Max := None; MaxLength := max_length; MaxItems := 0;
     Pattern := pattern |}.

Definition terra_workflow : CodexIssueWorkflow :=
  {| PreparationTemplate := "prepare"; ExecutionTemplate := "execute"; RecoveryTemplate := "recover";
     DeliveryTemplate := "deliver"; w_ModelPolicy := "codex"; ModelProfile := "terra-medium-v1"; PromptRevision := "1" |}.

Definition terra_profile : LaunchProfile :=
  {| lp_input := {| in_Template := "execute"; in_Task := "fix it"; in_VerificationTask := "make test";
                    in_Repo := "octo/app"; in_BaseBranch := "main"; in_Branch := ""; in_MaxRuntimeMinutes := 0;
                    in_MaxRuntimeSeconds := 0; in_Deliverables := []; in_Focus := ""; in_Parameters := ∅;
                    in_Profile := ""; in_WorkItem := "" |};
     AllowOverrides := ["max_runtime_seconds"];
     lp_Parameters := {["issue_number" := parameter "integer" "" (Some 1) 0;
                        "source_delivery_id" := parameter "string" "" None 64;
                        "repair_pr_number" := parameter "integer" "" (Some 1) 0;
                        "expected_head_sha" := parameter "string" "^[a-f0-9]{40}$" None 40]};
     lp_MaxConcurrentRuns := 1; RequireIdempotencyKey := true; lp_Codex := Some terra_workflow |}.

Definition deployment (extra : list ExtraMount) (bundles : gmap string BundleDecl) (user bundle : string) : config :=
  let execute := phase_template "" "" "relay" in
  let worker := phase_template "worker" "s3cret" "broker" in
  {| Listen := ""; MCPPath := ""; AuthToken := "t"; AuthTokenEnv := ""; c_RunsDir := "/srv/runs"; LaunchIntentStore := "";
     ReleaseStore := ""; CapabilityStore := ""; CapabilityAPIToken := ""; CapabilityAPITokenEnv := "";
     c_BrokerURL := "http://broker"; Production := true; c_Repositories := ["octo/app"];
     c_Networks := {["none" := deployed_network "" false false; "broker" := deployed_network "broker" true false;
                     "relay" := deployed_network "relay" false true]};
     c_Bundles := bundles;
     c_Templates := {["prepare" := phase_template "prep" "s1" "broker"; "execute" := execute;
                      "recover" := phase_template "" "" "none"; "deliver" := phase_template "deliver" "s2" "broker";
                      "worker" := {| td := {| Image := Image (td worker); AgentType := ""; Entrypoint := [];
                                              Command := ["/run"]; User := user;
                                              tmpl_Resources := tmpl_Resources (td worker);
                                              tmpl_NetworkPolicy := "broker"; MaxRuntimeMinutes := 30;
                                              BrokerAgentID := "worker"; BrokerAgentSecret := "s3";
                                              tmpl_BranchPolicy := tmpl_BranchPolicy (td worker);
                                              tmpl_CredentialBundle := bundle; tmpl_Deliverables := [];
                                              Environment := ∅; ExtraMounts := extra; StorageLimitMB := 0; Tmpfs := ∅;
                                              tmpl_Capability := None |};
                                     BrokerSecretEnv := ""; KnowledgeSnapshots := []; CompletionStatusPath := "";
                                     WorkItemInputPath := "" |}]};
     LaunchProfiles := {["terra-medium-v1" := terra_profile]};
     ModelPolicies := {["codex" := {| Version := "codex-model-policy/v1"; Mappings := expected_mappings |}]};
     CodexHolder := {| MasterAuthPath := "/srv/codex/auth.json"; IssuanceRoot := "/srv/issued" |};
     OperatorPrincipals := {["ops" := {| Token := "op"; TokenEnv := ""; AllowedProfiles := ["terra-medium-v1"];
                                         AllowedActions := ["launch"; "status"]; RunScope := "owned" |}]};
     AgentReleasePolicies := ∅; c_MaxTaskBytes := 4096; MaxParameterBytes := 4096; LogByteLimit := 4096;
     TerminalResultByteLimit := 4096; ReleaseArtifactByteLimit := 0; StopGrace := 0; c_ConfigVersion := "v1" |}.

Definition any_pattern : string → option (string → bool) := λ _, Some (λ _, true).
Definition tools : ExtraMount := {| em_SourcePath := "/opt/tools"; em_MountPath := "/tools"; em_ReadOnly := true |}.
Definition sample_deployment : config := deployment [tools] ∅ "1000:1000" "".

Lemma sample_deployment_valid : Validate any_pattern sample_deployment = [].
Proof. vm_compute. reflexivity. Qed.



Definition execution_run : RunIdentity :=
  m_run (launch_metadata (service_config sample_deployment) "ops" "terra-medium-v1" "" "" (lp_input terra_profile)
           (td (phase_template "" "" "relay")) "run-1" "agent/x" (30 * minute) None 0).

Definition execution_spec : RuntimeSpec :=
  default {| sp_RunID := ""; sp_Image := ""; sp_Entrypoint := []; sp_Command := []; sp_User := ""; sp_Env := ∅;
             sp_Labels := ∅; sp_Mounts := []; sp_Network := {| Network := ""; NoNetwork := false |};
             sp_Resources := {| CPUShares := 0; MemoryMB := 0; PidsLimit := 0 |}; sp_WorkingDir := ""; sp_Timeout := 0;
             sp_Tmpfs := ∅; sp_StorageLimitMB := 0 |}
    (runtimeSpec (service_config sample_deployment) execution_run
       (with_image (td (phase_template "" "" "relay")) "worker@sha256:1") "").

Lemma codex_credentials_apart_witness :
  (length (sp_Mounts execution_spec) = 4)%nat ∧ sp_Env execution_spec !! "LANG" = Some "C" ∧
  (∀ m, m ∈ sp_Mounts execution_spec →
     pathWithin (MasterAuthPath (CodexHolder sample_deployment)) (mnt_Source m) = false ∧
     (tmpl_CredentialBundle (td (phase_template "" "" "relay")) = "" →
      pathWithin (IssuanceRoot (CodexHolder sample_deployment)) (mnt_Source m) = false)).
Proof.
  split; [vm_compute; reflexivity|]. split; [vm_compute; reflexivity|].
  refine (proj1 (codex_credentials_apart any_pattern sample_deployment "terra-medium-v1" terra_profile terra_workflow
                   "execute" (phase_template "" "" "relay") execution_run "worker@sha256:1" "" execution_spec
                   sample_deployment_valid _ _ _ _ _)); [vm_compute; reflexivity..| |vm_compute; reflexivity].
  split_and!; [discriminate..|vm_compute; reflexivity].
Defined.

(** ** What validation lets through

    Only the user names "0" and "root" are refused: Docker also takes a group
    with the user, and any spelling of the number. *)
Example root_user_accepted :
  Validate any_pattern (deployment [tools] ∅ "0:0" "") = [] ∧ Validate any_pattern (deployment [tools] ∅ "root:root" "") = [] ∧
  Validate any_pattern (deployment [tools] ∅ "0" "") ≠ [].
Proof. split_and!; vm_compute; [reflexivity..|discriminate]. Qed.

(** Only one spelling of the Docker socket is refused, and its directory is not. *)
Example docker_socket_mountable :
  Validate any_pattern (deployment [{| em_SourcePath := "/run/docker.sock"; em_MountPath := "/d"; em_ReadOnly := false |};
                                    {| em_SourcePath := "/var/run"; em_MountPath := "/e"; em_ReadOnly := false |}]
                          ∅ "1000" "") = [].
Proof. vm_compute. reflexivity. Qed.

Definition issued_bundle (target : string) : BundleDecl :=
  {| bd := {| SourcePath := "/srv/issued"; MountPath := target; AllowedTemplates := ["worker"] |}; bd_ReadOnly := true;
     SecretFiles := []; RedactFiles := [] |}.

(** A bundle's target is compared as written, so one that cleans to a run
    directory passes; and a bundle is only held against the master credential, so
    it may mount the directory of the issued ones. *)
Example bundle_accepted :
  Validate any_pattern (deployment [] {["auth" := issued_bundle "/tmp/../work"]} "1000" "auth") = [] ∧
  Clean "/tmp/../work" = "/work" ∧
  Validate any_pattern (deployment [] {["auth" := issued_bundle "/workers"]} "1000" "auth") ≠ [].
Proof. split_and!; vm_compute; [reflexivity..|discriminate]. Qed.

Definition forever_profile : LaunchProfile :=
  {| lp_input := in_seconds 9223372037; AllowOverrides := []; lp_Parameters := ∅; lp_MaxConcurrentRuns := 0;
     RequireIdempotencyKey := false; lp_Codex := None |}.

(** A profile of 292 years passes against a template of 30 minutes. *)
Example profile_overflow : validateLaunchProfile any_pattern sample_deployment "long" forever_profile = [].
Proof. vm_compute. reflexivity. Qed.
