(* ===== verification/LaunchIntents.v ===== *)
(** * internal/sandbox/launch_intents.go: the durable index of launches

    The [launch_intents] table is the list of its rows in insertion order, with
    (principal, profile, key_digest) as primary key and run_id unique.  Every
    operation is one statement or one transaction; [fl] is its failing database
    call.  A JSON column is the value it decodes to, [None] when it does not;
    of a stored request the fields tagged out of the JSON are lost. *)

From S2P Require Import Prelude GoStrings GoTime Sandbox.
Open Scope string_scope.
Open Scope list_scope.
Open Scope Z_scope.

(** ** Data *)

Definition intentStateCreated := "intent_created".
Definition intentStateCreatePending := "create_pending".
Definition intentStateContainerMade := "container_created".
Definition intentStateStartPending := "start_pending".
Definition intentStateRunning := "running".
Definition intentStateWaitingExternal := "waiting_external".
Definition intentStateTerminal := "terminal".

Record launchIntentPlan := {
  pl_Version : Z; pl_ConfigVersion : string; pl_Request : LaunchAgentInput; pl_RuntimeSeconds : Z;
  pl_Metadata : RunMetadata }.

Record launchIntent := {
  it_Principal : string; it_Profile : string; it_KeyDigest : string; it_RequestFingerprint : string;
  it_RunID : string; it_State : string; it_Plan : launchIntentPlan; it_Metadata : RunMetadata }.

Record intent_row := {
  r_principal : string; r_profile : string; r_key_digest : string; r_request_fingerprint : string;
  r_run_id : string; r_state : string; r_plan : option launchIntentPlan; r_metadata : option RunMetadata;
  r_created_at : time; r_updated_at : time }.

Inductive intent_error :=
| IDatabase | IDecodePlan | IDecodeMetadata | IMalformed | IBusy | IRowsAffected (rows : nat)
| IRestoreConflict (runID : string).

(** ** The columns *)

(** Profile and WorkItemID of a request are tagged json:"-". *)
Definition stored_request (i : LaunchAgentInput) : LaunchAgentInput :=
  {| in_Template := in_Template i; in_Task := in_Task i; in_VerificationTask := in_VerificationTask i;
     in_Repo := in_Repo i; in_BaseBranch := in_BaseBranch i; in_Branch := in_Branch i;
     in_MaxRuntimeMinutes := in_MaxRuntimeMinutes i; in_MaxRuntimeSeconds := in_MaxRuntimeSeconds i;
     in_Deliverables := in_Deliverables i; in_Focus := in_Focus i; in_Parameters := in_Parameters i;
     in_Profile := ""; in_WorkItem := "" |}.

Definition stored_plan (p : launchIntentPlan) : launchIntentPlan :=
  {| pl_Version := pl_Version p; pl_ConfigVersion := pl_ConfigVersion p;
     pl_Request := stored_request (pl_Request p); pl_RuntimeSeconds := pl_RuntimeSeconds p;
     pl_Metadata := pl_Metadata p |}.

Definition decodeLaunchIntent (r : intent_row) : result intent_error launchIntent :=
  match r_plan r with
  | None => Err IDecodePlan
  | Some plan =>
    match r_metadata r with
    | None => Err IDecodeMetadata
    | Some metadata =>
      fail_if negb (pl_Version plan =? 1) || (r_run_id r =? "")%string
              || negb (m_RunID metadata =? r_run_id r)%string
              || negb (m_RunID (pl_Metadata plan) =? r_run_id r)%string with IMalformed ;;
      Ok {| it_Principal := r_principal r; it_Profile := r_profile r; it_KeyDigest := r_key_digest r;
            it_RequestFingerprint := r_request_fingerprint r; it_RunID := r_run_id r;
            it_State := r_state r; it_Plan := plan; it_Metadata := metadata |}
    end
  end.

(** The row a query found, if any. *)
Definition scanLaunchIntent (r : option intent_row) : result intent_error (option launchIntent) :=
  match r with
  | None => Ok None
  | Some r => i ← decodeLaunchIntent r; Ok (Some i)
  end.

Definition has_key (principal profile digest : string) (r : intent_row) : bool :=
  (r_principal r =? principal)%string && (r_profile r =? profile)%string && (r_key_digest r =? digest)%string.
Definition has_run (runID : string) (r : intent_row) : bool := (r_run_id r =? runID)%string.
Definition nonterminal (r : intent_row) : bool := negb (r_state r =? intentStateTerminal)%string.
Definition active_in (profile : string) (r : intent_row) : bool := (r_profile r =? profile)%string && nonterminal r.

(** ** Operations *)

Definition Lookup (fl : fault) (t : list intent_row) (principal profile digest : string)
    : result intent_error (option launchIntent) :=
  fail_if fails fl 0 with IDatabase ;;
  scanLaunchIntent (List.find (has_key principal profile digest) t).

Definition LookupRun (fl : fault) (t : list intent_row) (runID : string)
    : result intent_error (option launchIntent) :=
  fail_if fails fl 0 with IDatabase ;;
  scanLaunchIntent (List.find (has_run runID) t).

Definition count_active (profile : string) (t : list intent_row) : nat :=
  length (List.filter (active_in profile) t).

Definition row_of (i : launchIntent) (now : time) : intent_row :=
  {| r_principal := it_Principal i; r_profile := it_Profile i; r_key_digest := it_KeyDigest i;
     r_request_fingerprint := it_RequestFingerprint i; r_run_id := it_RunID i; r_state := it_State i;
     r_plan := Some (stored_plan (it_Plan i)); r_metadata := Some (it_Metadata i);
     r_created_at := now; r_updated_at := now |}.

(** The stored intent with whether it was created. *)
Definition Create (fl : fault) (t : list intent_row) (i : launchIntent) (maxConcurrent : Z) (now : time)
    : list intent_row * result intent_error (launchIntent * bool) :=
  atomically t (
    fail_if fails fl 0 with IDatabase ;;
    fail_if fails fl 1 with IDatabase ;;
    existing ← scanLaunchIntent (List.find (has_key (it_Principal i) (it_Profile i) (it_KeyDigest i)) t);
    match existing with
    | Some e => Ok (t, (e, false))
    | None =>
      fail_if (0 <? maxConcurrent) && fails fl 2 with IDatabase ;;
      fail_if (0 <? maxConcurrent) && (maxConcurrent <=? Z.of_nat (count_active (it_Profile i) t)) with IBusy ;;
      fail_if fails fl 3 with IDatabase ;;
      fail_if existsb (has_run (it_RunID i)) t with IDatabase ;;
      fail_if fails fl 4 with IDatabase ;;
      Ok (t ++ [row_of i now], (i, true))
    end).

Definition update_run (runID : string) (f : intent_row → intent_row) (t : list intent_row) : list intent_row :=
  map (λ r, if has_run runID r then f r else r) t.

Definition set_saved (i : launchIntent) (now : time) (r : intent_row) : intent_row :=
  {| r_principal := r_principal r; r_profile := r_profile r; r_key_digest := r_key_digest r;
     r_request_fingerprint := r_request_fingerprint r; r_run_id := r_run_id r; r_state := it_State i;
     r_plan := Some (stored_plan (it_Plan i)); r_metadata := Some (it_Metadata i);
     r_created_at := r_created_at r; r_updated_at := now |}.

Definition Save (fl : fault) (t : list intent_row) (i : launchIntent) (now : time)
    : list intent_row * result intent_error unit :=
  if fails fl 0 then (t, Err IDatabase) else
  let rows := length (List.filter (has_run (it_RunID i)) t) in
  (update_run (it_RunID i) (set_saved i now) t, if (rows =? 1)%nat then Ok () else Err (IRowsAffected rows)).

Definition metadata_state (m : RunMetadata) : string :=
  if isTerminalStatus (m_Status m) then intentStateTerminal
  else if (m_Status m =? StatusWaitingExternal)%string then intentStateWaitingExternal
  else intentStateRunning.

Definition set_metadata (m : RunMetadata) (now : time) (r : intent_row) : intent_row :=
  {| r_principal := r_principal r; r_profile := r_profile r; r_key_digest := r_key_digest r;
     r_request_fingerprint := r_request_fingerprint r; r_run_id := r_run_id r; r_state := metadata_state m;
     r_plan := r_plan r; r_metadata := Some m; r_created_at := r_created_at r; r_updated_at := now |}.

Definition SaveMetadata (fl : fault) (t : list intent_row) (m : RunMetadata) (now : time)
    : list intent_row * result intent_error unit :=
  if fails fl 0 then (t, Err IDatabase) else (update_run (m_RunID m) (set_metadata m now) t, Ok ()).

(** ORDER BY created_at compares the texts. *)
Definition created_order : relation intent_row :=
  λ a b, text_order (formatTime (r_created_at a)) (formatTime (r_created_at b)).
#[export] Instance created_order_dec : RelDecision created_order.
Proof. intros a b. unfold created_order. apply _. Defined.

Fixpoint decode_all (rows : list intent_row) : result intent_error (list launchIntent) :=
  match rows with
  | [] => Ok []
  | r :: rows => i ← decodeLaunchIntent r; l ← decode_all rows; Ok (i :: l)
  end.

Definition Nonterminal (fl : fault) (t : list intent_row) : result intent_error (list launchIntent) :=
  fail_if fails fl 0 with IDatabase ;;
  decode_all (merge_sort created_order (List.filter nonterminal t)).

Definition IsNonterminalRun (fl : fault) (t : list intent_row) (runID : string) : result intent_error bool :=
  fail_if fails fl 0 with IDatabase ;;
  Ok (existsb (λ r, has_run runID r && nonterminal r) t).

(** ** Restoring an intent from the metadata of a run *)

Definition restorable (m : RunMetadata) : bool :=
  let i := m_run m in
  negb ((Principal i =? "")%string || (Profile i =? "")%string || (IdempotencyKeyDigest i =? "")%string
        || (RequestFingerprint i =? "")%string || (LaunchConfigVersion i =? "")%string).

Definition restored_state (m : RunMetadata) : string :=
  if isTerminalStatus (m_Status m) then intentStateTerminal
  else if (m_Status m =? StatusRunning)%string then intentStateRunning
  else if (m_Status m =? StatusWaitingExternal)%string then intentStateWaitingExternal
  else if negb (m_ContainerID m =? "")%string then intentStateStartPending
  else intentStateCreated.

Definition restored_intent (m : RunMetadata) : launchIntent :=
  let i := m_run m in
  let runtimeSeconds := Z.quot (time_sub (Deadline i) (StartedAt i)) second in
  {| it_Principal := Principal i; it_Profile := Profile i; it_KeyDigest := IdempotencyKeyDigest i;
     it_RequestFingerprint := RequestFingerprint i; it_RunID := RunID i; it_State := restored_state m;
     it_Plan := {| pl_Version := 1; pl_ConfigVersion := LaunchConfigVersion i;
                   pl_Request := {| in_Template := run_Template i; in_Task := Task i; in_VerificationTask := "";
                                    in_Repo := Repo i; in_BaseBranch := BaseBranch i; in_Branch := Branch i;
                                    in_MaxRuntimeMinutes := 0; in_MaxRuntimeSeconds := runtimeSeconds;
                                    in_Deliverables := Deliverables i; in_Focus := Focus i;
                                    in_Parameters := Parameters i; in_Profile := Profile i; in_WorkItem := "" |};
                   pl_RuntimeSeconds := runtimeSeconds; pl_Metadata := m |};
     it_Metadata := m |}.

Definition RestoreMetadata (fl : fault) (t : list intent_row) (m : RunMetadata) (now : time)
    : list intent_row * result intent_error unit :=
  if negb (restorable m) then (t, Ok ()) else
  match Create fl t (restored_intent m) 0 now with
  | (t, Err e) => (t, Err e)
  | (t, Ok (existing, created)) =>
    (t, fail_if negb created && (negb (it_RunID existing =? RunID (m_run m))%string
                 || negb (it_RequestFingerprint existing =? RequestFingerprint (m_run m))%string)
          with IRestoreConflict (it_RunID existing) ;; Ok ())
  end.

(** ** Lemmas *)

Lemma scan_none o : scanLaunchIntent o = Ok None → o = None.
Proof. destruct o as [r|]; [|done]. cbn. by destruct (decodeLaunchIntent r). Qed.

(** Create fails without effect, finds the intent of its key, or adds its own. *)
Lemma Create_cases fl t i max now t' res :
  Create fl t i max now = (t', res) →
  let found := List.find (has_key (it_Principal i) (it_Profile i) (it_KeyDigest i)) t in
  (t' = t ∧ ∃ e, res = Err e) ∨
  (t' = t ∧ ∃ e, res = Ok (e, false) ∧ scanLaunchIntent found = Ok (Some e)) ∨
  (t' = t ++ [row_of i now] ∧ res = Ok (i, true) ∧ found = None ∧ existsb (has_run (it_RunID i)) t = false ∧
   (0 < max → Z.of_nat (count_active (it_Profile i) t) < max)).
Proof.
  intros E. cbv zeta. destruct res as [[e b]|e].
  - apply atomically_ok in E. peel E. apply bind_ok in E as ([y|] & Hf & E).
    + right; left. simplify_eq. split; [done|]. by exists e.
    + right; right. peel E. simplify_eq. apply scan_none in Hf. split_and!; [done..|]. intros Hmax.
      match goal with H : (0 <? max) && (max <=? _) = false |- _ => apply andb_false_iff in H end. lia.
  - apply atomically_err in E as [-> _]. left. split; [done|]. by exists e.
Qed.
