(* ===== verification/Process.v ===== *)
(** * Processes that may die: a program logic for durable workflows

    A handler of a long-lived service performs effects (database statements,
    file writes, calls to other services) one after the other, and the process
    may die before any of them.  A program here is a function of the number of
    effects performed so far and of the world; [dies k] says that the process
    dies instead of performing effect [k].  [wp I m Q w] says that [m], started
    in [w], keeps the world within [I] wherever it dies, and ends with a value
    and a world in [Q] otherwise. *)

From S2P Require Import Prelude.

Section Process.
Context {W : Type}.
Variable dies : nat → bool.

(** The next effect's number, the world, and the value unless the process died. *)
Definition prog (A : Type) : Type := nat → W → nat * W * option A.

Definition done {A} (a : A) : prog A := λ k w, (k, w, Some a).

Definition andThen {A B} (m : prog A) (f : A → prog B) : prog B := λ k w,
  match m k w with
  | (k, w, Some a) => f a k w
  | (k, w, None) => (k, w, None)
  end.

(** An effect on the world outside the process's memory. *)
Definition effect {A} (f : nat → W → W * A) : prog A := λ k w,
  if dies k then (S k, w, None) else let '(w', a) := f k w in (S k, w', Some a).

(** Memory is read and written at no risk: it is lost with the process. *)
Definition peek {A} (f : W → A) : prog A := λ k w, (k, w, Some (f w)).
Definition poke (f : W → W) : prog unit := λ k w, (k, f w, Some ()).

Definition wp {A} (I : W → Prop) (m : prog A) (Q : A → W → Prop) (w : W) : Prop :=
  ∀ k, match m k w with
       | (_, w', Some a) => Q a w'
       | (_, w', None) => I w'
       end.

Lemma wp_done {A} I (a : A) (Q : A → W → Prop) w : Q a w → wp I (done a) Q w.
Proof. by intros H k. Qed.

Lemma wp_andThen {A B} I (m : prog A) (f : A → prog B) Q w :
  wp I m (λ a w', wp I (f a) Q w') w → wp I (andThen m f) Q w.
Proof. intros H k. specialize (H k). unfold andThen. destruct (m k w) as [[k' w'] [a|]]; [apply H|done]. Qed.

Lemma wp_effect {A} I (f : nat → W → W * A) Q w :
  I w → (∀ k, Q (f k w).2 (f k w).1) → wp I (effect f) Q w.
Proof.
  intros Hi Hq k. unfold effect. destruct (dies k); [done|]. specialize (Hq k). by destruct (f k w).
Qed.

Lemma wp_peek {A} I (f : W → A) Q w : Q (f w) w → wp I (peek f) Q w.
Proof. by intros H k. Qed.

Lemma wp_poke I (f : W → W) Q w : Q () (f w) → wp I (poke f) Q w.
Proof. by intros H k. Qed.

Lemma wp_mono {A} (I I' : W → Prop) (m : prog A) (Q Q' : A → W → Prop) w :
  wp I m Q w → (∀ w', I w' → I' w') → (∀ a w', Q a w' → Q' a w') → wp I' m Q' w.
Proof. intros H Hi Hq k. specialize (H k). destruct (m k w) as [[k' w'] [a|]]; auto. Qed.

Lemma wp_conj {A} (I I' : W → Prop) (m : prog A) (Q Q' : A → W → Prop) w :
  wp I m Q w → wp I' m Q' w → wp (λ w', I w' ∧ I' w') m (λ a w', Q a w' ∧ Q' a w') w.
Proof. intros H H' k. specialize (H k). specialize (H' k). destruct (m k w) as [[k' w'] [a|]]; auto. Qed.

(** What a run that did not die shows. *)
Lemma wp_run {A} I (m : prog A) Q w k k' w' a : wp I m Q w → m k w = (k', w', Some a) → Q a w'.
Proof. intros H E. specialize (H k). by rewrite E in H. Qed.

(** Where a run ends, dead or alive. *)
Lemma wp_end {A} I (m : prog A) w : wp I m (λ _, I) w → ∀ k, I (m k w).1.2.
Proof. intros H k. specialize (H k). by destruct (m k w) as [[k' w'] [a|]]. Qed.
End Process.
Arguments prog W A : clear implicits.

Notation "x <-! m ;; k" := (andThen m (λ x, k))
  (at level 100, m at next level, right associativity) : go_scope.
Notation "' x <-! m ;; k" := (andThen m (λ x, k))
  (at level 100, x pattern, m at next level, right associativity) : go_scope.

(** A program on a part of the world. *)
Definition zoom {W V A} (get : W → V) (set : V → W → W) (m : prog V A) : prog W A := λ k w,
  let '(k, v, o) := m k (get w) in (k, set v w, o).

Lemma wp_zoom {W V A} (I : W → Prop) (get : W → V) (set : V → W → W) (m : prog V A) Q w :
  wp (λ v, I (set v w)) m (λ a v, Q a (set v w)) (get w) → wp I (zoom get set m) Q w.
Proof. intros H k. specialize (H k). unfold zoom. by destruct (m k (get w)) as [[k' v] [a|]]. Qed.

(** [r <-? m ;; k] returns the error of a fallible program at once. *)
Definition try {W E A B} (m : prog W (result E A)) (f : A → prog W (result E B)) : prog W (result E B) :=
  andThen m (λ r, match r with Ok a => f a | Err e => done (Err e) end).
Notation "x <-? m ;; k" := (try m (λ x, k))
  (at level 100, m at next level, right associativity) : go_scope.
Notation "' x <-? m ;; k" := (try m (λ x, k))
  (at level 100, x pattern, m at next level, right associativity) : go_scope.

Lemma wp_try {W E A B} (I : W → Prop) (m : prog W (result E A)) (f : A → prog W (result E B))
    (Q : result E B → W → Prop) w :
  wp I m (λ r w', match r with Ok a => wp I (f a) Q w' | Err e => Q (Err e) w' end) w → wp I (try m f) Q w.
Proof.
  intros H. apply wp_andThen. apply (wp_mono I I _ _ _ _ H); [done|]. intros [a|e] w' H'; [done|]. by apply wp_done.
Qed.
