(* ===== verification/Url.v ===== *)
(** * net/url, as the GitHub client builds and reads URLs

    url.PathEscape, url.Values.Encode, and url.Parse with URL.Hostname.  An IPv6
    address in brackets is not looked into. *)

From S2P Require Import Prelude GoStrings GoTime Net.
Open Scope string_scope.
Open Scope list_scope.

(** ** Escaping *)

Definition upper_hex (n : nat) : ascii := ascii_of_nat (if (n <? 10)%nat then 48 + n else 55 + n).
Definition percent (c : ascii) : string :=
  String "%" (String (upper_hex (code c / 16)) (String (upper_hex (code c mod 16)) "")).

Definition one_of (set : string) (c : ascii) : bool := existsb (Ascii.eqb c) (chars set).
Definition unreserved (c : ascii) : bool := is_lower c || is_upper c || is_digit c || one_of "-_.~" c.

Definition escape (keep : ascii → bool) (s : string) : string :=
  String.concat "" (map (λ c, if keep c then String c "" else percent c) (chars s)).

Definition PathEscape : string → string := escape (λ c, unreserved c || one_of "$&+:=@" c).
Definition QueryEscape (s : string) : string :=
  String.concat "" (map (λ c, if Ascii.eqb c " " then "+" else if unreserved c then String c "" else percent c) (chars s)).

Definition Encode (q : gmap string (list string)) : string :=
  GoStrings.join "&" (flat_map (λ k, map (λ v, QueryEscape k +:+ "=" +:+ QueryEscape v) (default [] (q !! k)))
    (merge_sort text_order (elements (dom q)))).

(** ** url.Parse *)

Record URL := {
  u_Scheme : string; u_Opaque : string; u_User : bool; u_Host : string; u_Path : string; u_RawQuery : string;
  u_Fragment : string }.

Definition is_control (c : ascii) : bool := (code c <? 32)%nat || (code c =? 127)%nat.

(** Every percent sign begins an escape that [allowed] accepts. *)
Fixpoint escapes_ok (allowed : ascii → ascii → bool) (s : string) : bool :=
  match s with
  | EmptyString => true
  | String "%" s =>
    match s with
    | String a (String b s') => is_hex a && is_hex b && allowed a b && escapes_ok allowed s'
    | _ => false
    end
  | String _ s => escapes_ok allowed s
  end.

(** The scheme and what follows it: [None] when it is missing, no scheme otherwise. *)
Fixpoint scheme_from (seen s : string) : option (option (string * string)) :=
  match s with
  | EmptyString => Some None
  | String c s =>
    if is_lower c || is_upper c then scheme_from (seen +:+ String c "") s
    else if is_digit c || one_of "+-." c
    then if (seen =? "")%string then Some None else scheme_from (seen +:+ String c "") s
    else if Ascii.eqb c ":" then if (seen =? "")%string then None else Some (Some (seen, s))
    else Some None
  end.
Definition getScheme (s : string) : option (string * string) :=
  match scheme_from "" s with
  | None => None
  | Some None => Some ("", s)
  | Some (Some (scheme, rest)) => Some (to_lower scheme, rest)
  end.

Definition validOptionalPort (port : string) : bool :=
  match port with
  | EmptyString => true
  | String c digits => Ascii.eqb c ":" && all_chars is_digit digits
  end.

Definition validUserinfo (s : string) : bool :=
  all_chars (λ c, is_lower c || is_upper c || is_digit c || one_of "-._:~!$&'()*+,;=%@" c) s.

(** The last occurrence of a byte: what is before and after it. *)
Definition cut_last (sep : ascii) (s : string) : option (string * string) :=
  let rev s := text (reverse (chars s)) in
  match cut sep (rev s) with Some (b, a) => Some (rev a, rev b) | None => None end.

(** Bytes a host may hold as they are; escapes stand for bytes outside ASCII only. *)
Definition host_byte (c : ascii) : bool :=
  unreserved c || (128 <=? code c)%nat || one_of "!$&'()*+,;=:[]<>%" c || (code c =? 34)%nat.
Definition high_escape (a b : ascii) : bool :=
  match hex_value a with Some v => (8 <=? v)%Z || (Ascii.eqb a "2" && Ascii.eqb b "5") | None => false end.

(** The escapes are well formed by then. *)
Fixpoint unescape_host (s : string) : string :=
  match s with
  | EmptyString => ""
  | String c s =>
    match s with
    | String a (String b s') =>
      if Ascii.eqb c "%" then String (byte (default 0%Z (hex_value a) * 16 + default 0%Z (hex_value b))) (unescape_host s')
      else String c (unescape_host s)
    | _ => String c (unescape_host s)
    end
  end.
Definition plain_host (host : string) : option string :=
  if all_chars host_byte host && escapes_ok high_escape host then Some (unescape_host host) else None.

Definition parseHost (host : string) : option string :=
  if has_prefix "[" host then
    match cut_last "]" host with
    | Some (_, port) => if validOptionalPort port then Some host else None
    | None => None
    end
  else
    match cut_last ":" host with
    | Some (_, port) => if validOptionalPort (":" +:+ port) then plain_host host else None
    | None => plain_host host
    end.

(** Whether there is a user, and the host. *)
Definition parseAuthority (authority : string) : option (bool * string) :=
  match cut_last "@" authority with
  | None => pair false <$> parseHost authority
  | Some (userinfo, host) =>
    if validUserinfo userinfo && escapes_ok (λ _ _, true) userinfo then pair true <$> parseHost host else None
  end.

Definition plain_url (scheme opaque : string) (user : bool) (host path query fragment : string) : URL :=
  {| u_Scheme := scheme; u_Opaque := opaque; u_User := user; u_Host := host; u_Path := path; u_RawQuery := query;
     u_Fragment := fragment |}.

Definition parse_rest (scheme rest query fragment : string) : option URL :=
  if negb (has_prefix "/" rest) then
    if negb (scheme =? "")%string then Some (plain_url scheme rest false "" "" query fragment) else
    if GoStrings.contains (match cut "/" rest with Some (first, _) => first | None => rest end) ":" then None else
    if escapes_ok (λ _ _, true) rest then Some (plain_url "" "" false "" rest query fragment) else None
  else if (negb (scheme =? "")%string || negb (has_prefix "///" rest)) && has_prefix "//" rest then
    let '(authority, path) := match cut "/" (sdrop 2 rest) with Some (a, p) => (a, "/" +:+ p) | None => (sdrop 2 rest, "") end in
    match parseAuthority authority with
    | None => None
    | Some (user, host) =>
      if escapes_ok (λ _ _, true) path then Some (plain_url scheme "" user host path query fragment) else None
    end
  else if escapes_ok (λ _ _, true) rest then Some (plain_url scheme "" false "" rest query fragment) else None.

Definition Parse (raw : string) : option URL :=
  let '(u, fragment) := match cut "#" raw with Some p => p | None => (raw, "") end in
  if negb (all_chars (λ c, negb (is_control c)) u) || negb (escapes_ok (λ _ _, true) fragment) then None else
  if (u =? "*")%string then Some (plain_url "" "" false "" "*" "" fragment) else
  match getScheme u with
  | None => None
  | Some (scheme, rest) =>
    let '(rest, query) := match cut "?" rest with Some p => p | None => (rest, "") end in
    parse_rest scheme rest query fragment
  end.

(** URL.Hostname *)
Definition Hostname (u : URL) : string :=
  let host := match cut_last ":" (u_Host u) with
              | Some (h, port) => if validOptionalPort (":" +:+ port) then h else u_Host u
              | None => u_Host u
              end in
  if has_prefix "[" host && match cut_last "]" host with Some (_, "") => true | _ => false end
  then stake (String.length host - 2) (sdrop 1 host) else host.

(** ** Examples *)

Example parse_ex :
  (λ u, (u_Scheme u, Hostname u, u_Path u, u_RawQuery u)) <$> Parse "HTTPS://u:p@Example.com:8443/a%20b?x=1#f" =
  Some ("https", "Example.com", "/a%20b", "x=1").
Proof. reflexivity. Qed.
Example parse_refuses :
  map Parse ["https://host%20name/"; "https://host:80x/"; "http://h/%zz"; ":x"; "a:b c" +:+ String "127" ""; "https://[::1/"] =
  repeat None 6.
Proof. reflexivity. Qed.
Example escape_ex :
  (PathEscape "a/b c:d", Encode (<["q" := ["x y"; "&"]]> {["a" := ["1"]]})) = ("a%2Fb%20c:d", "a=1&q=x+y&q=%26").
Proof. reflexivity. Qed.
