(* ===== verification/GitHubClient.v ===== *)
(** * internal/githubapp/client.go: tokens and requests

    The client exchanges a JWT signed with an app's key for a token of one
    installation, keeps the token until a minute before it expires, and sends
    every request with such a token.  GitHub's answers, GraphQL's included, are
    arguments, by the number of the effect that asks for them; what net/http does
    with redirects is part of the answer.  [g_log] is not part of the program: it
    records the exchanges, the requests and the answers, newest first. *)

From stdpp Require Import pretty.
From S2P Require Import Prelude GoStrings GoTime GoJson Net Url Process ReadAccess.
Open Scope string_scope.
Open Scope list_scope.
Open Scope Z_scope.

(** ** The network *)

(** A body ends with the limit of its reader, or with an error. *)
Record http_response := { h_Status : Z; h_Location : string; h_Body : result read_error string }.

(** Of the headers, those that carry a secret; [None] without a body. *)
Record http_request := { q_Method : string; q_URL : string; q_Authorization : string; q_Body : option string }.

Record jwt_claims := { Issuer : string; IssuedAt : time; ExpiresAt : time }.

(** The configuration; the network, which answers with a response, [TimeoutError]
    or [OtherError]; the signature of the app's key; the clock; the decoder of
    tokenResponse. *)
Class GitHub := {
  APIBaseURL : string; apps : gmap string Z;
  http : nat → http_request → result read_error http_response;
  sign : string → jwt_claims → option string;
  clock : nat → time; gh_dies : nat → bool;
  parse_token : string → option (string * time) }.

(** ** State *)

Record cachedToken := { Token : string; ExpireAt : time }.

Inductive gh_event :=
| Exchanged (app : string) (inst : Z) (claims : jwt_claims)
| Issued (app : string) (inst : Z) (token : string) (expires : time)
| Called (app : string) (inst : Z) (token : string) (at_ : time) (req : http_request)
| Fetched (url : URL)
| Got (path body : string).

Record client := { g_tokens : gmap (string * Z) cachedToken; g_log : list gh_event }.

Definition log (e : gh_event) (w : client) : client := {| g_tokens := g_tokens w; g_log := e :: g_log w |}.
Definition keep_token (app : string) (inst : Z) (token : string) (expires : time) (w : client) : client :=
  {| g_tokens := <[(app, inst) := {| Token := token; ExpireAt := expires |}]> (g_tokens w);
     g_log := Issued app inst token expires :: g_log w |}.

Section Client.
Context `{G : GitHub}.

Notation M := (prog client).

Definition gh_now : M time := λ k w, (k, w, Some (clock k)).
Definition other {A} (what : string) : result read_error A := Err (OtherError what).

(** io.LimitReader *)
Definition limited (limit : Z) (body : string) : string :=
  if Z.of_nat (String.length body) <=? limit then body else stake (Z.to_nat limit) body.

(** The body of a response that says success. *)
Definition successful (limit : Z) (r : http_response) : result read_error string :=
  match h_Body r with
  | Err e => Err e
  | Ok body =>
    let body := limited limit body in
    if (h_Status r <? 200) || (300 <=? h_Status r) then Err (APIError (h_Status r) body) else Ok body
  end.

(** http.NewRequest refuses what url.Parse does. *)
Definition is_url (url : string) : bool := bool_decide (is_Some (Parse url)).

(** ** InstallationToken *)

Definition app_name (name : string) : string := if (name =? "")%string then "default" else name.

Definition claims_at (id : Z) (t : time) : jwt_claims :=
  {| Issuer := pretty id; IssuedAt := time_add t (-30 * second); ExpiresAt := time_add t (9 * 60 * second) |}.

Definition token_url (inst : Z) : string :=
  trim_right_slash APIBaseURL +:+ "/app/installations/" +:+ pretty inst +:+ "/access_tokens".

Definition exchange (app : string) (id inst : Z) : M (result read_error string) :=
  t <-! gh_now ;;
  let claims := claims_at id t in
  match sign app claims with
  | None => done (other "sign")
  | Some j =>
    if negb (is_url (token_url inst)) then done (other "url") else
    r <-? effect gh_dies (λ k w, (log (Exchanged app inst claims) w,
      http k {| q_Method := "POST"; q_URL := token_url inst; q_Authorization := "Bearer " +:+ j; q_Body := None |})) ;;
    match successful (Z.shiftl 1 20) r with
    | Err e => done (Err e)
    | Ok body =>
      match parse_token body with
      | None => done (other "json")
      | Some (token, expires) =>
        if (token =? "")%string then done (other "empty token") else
        _ <-! poke (keep_token app inst token expires) ;;
        done (Ok token)
      end
    end
  end.

Definition InstallationToken (appName : string) (inst : Z) : M (result read_error string) :=
  let app := app_name appName in
  match apps !! app with
  | None => done (other "app")
  | Some id =>
    t <-! gh_now ;;
    tokens <-! peek g_tokens ;;
    match tokens !! (app, inst) with
    | Some tok => if t <? time_add (ExpireAt tok) (-60 * second) then done (Ok (Token tok)) else exchange app id inst
    | None => exchange app id inst
    end
  end.

(** ** Requests with a token *)

Definition authorized (appName : string) (inst : Z) (method url : string) (in_ : option string)
    : M (result read_error http_response) :=
  token <-? InstallationToken appName inst ;;
  if negb (is_url url) then done (other "url") else
  effect gh_dies (λ k w,
    let req := {| q_Method := method; q_URL := url; q_Authorization := "Bearer " +:+ token; q_Body := in_ |} in
    (log (Called (app_name appName) inst token (clock k) req) w, http k req)).

Definition api_url (path : string) : string := trim_right_slash APIBaseURL +:+ path.

Definition has_suffix (suffix s : string) : bool :=
  (String.length suffix <=? String.length s)%nat && (sdrop (String.length s - String.length suffix) s =? suffix)%string.

Definition graphQLURL : string :=
  let base := trim_right_slash APIBaseURL in
  if has_suffix "/api/v3" base then stake (String.length base - 7) base +:+ "/api/graphql" else base +:+ "/graphql".

(** The status is 0 without a response. *)
Definition doJSONStatus (appName method path : string) (inst : Z) (in_ : option string)
    : M (Z * result read_error string) :=
  r <-! authorized appName inst method (api_url path) in_ ;;
  match r with
  | Err e => done (0, Err e)
  | Ok resp =>
    let body := successful (Z.shiftl 4 20) resp in
    _ <-! (match body with Ok b => poke (log (Got path b)) | Err _ => done () end) ;;
    done (h_Status resp, body)
  end.

(** json.Unmarshal into the type of the answer. *)
Definition decode {A} (parse : string → option A) (r : result read_error string) : result read_error A :=
  match r with
  | Err e => Err e
  | Ok body => match parse body with Some a => Ok a | None => other "json" end
  end.

Definition doJSON {A} (parse : string → option A) (appName method path : string) (inst : Z) (in_ : option string)
    : M (result read_error A) :=
  '(_, r) <-! doJSONStatus appName method path inst in_ ;; done (decode parse r).

(** The messages of the errors, and the data; a status of failure is no APIError here. *)
Definition doGraphQL {A} (parse_graphql : string → option (list string * string)) (parse : string → option A)
    (appName : string) (inst : Z) (query variables : string) : M (result read_error A) :=
  resp <-? authorized appName inst "POST" graphQLURL
             (Some (json_object [("query", json_string query); ("variables", variables)])) ;;
  done match h_Body resp with
       | Err e => Err e
       | Ok body =>
         if (h_Status resp <? 200) || (300 <=? h_Status resp) then other "graphql" else
         match decode parse_graphql (Ok (limited (Z.shiftl 4 20) body)) with
         | Err e => Err e
         | Ok (message :: _, _) => other message
         | Ok ([], data) => decode parse (Ok data)
         end
       end.
End Client.
