(* ===== verification/GitHubCalls.v ===== *)
(** * internal/githubapp/client.go: the calls

    What GitHub answers, what the broker keeps of it, and the calls.  A decoder
    is json.Unmarshal into the type of an answer. *)

From stdpp Require Import pretty.
From S2P Require Import Prelude GoStrings GoTime GoJson Net Url Process ReadAccess GitHubApi RepoApi GitHubClient.
Open Scope string_scope.
Open Scope list_scope.
Open Scope Z_scope.

(** ** GitHub's records *)

Record githubBranchRef := { ref_Ref : string; ref_SHA : string }.

(** Users and labels are their login and name. *)
Record githubPull := {
  gp_ID : Z; gp_Number : Z; gp_State : string; gp_Title : string; gp_Body : string; gp_Head : githubBranchRef;
  gp_Base : githubBranchRef; gp_Merged : bool; gp_MergedAt : string; gp_Mergeable : option bool; gp_User : string;
  gp_Labels : list string; gp_URL : string; gp_HTMLURL : string; gp_Comments : Z; gp_ReviewComments : Z }.

Record githubIssue := {
  gi_ID : Z; gi_Number : Z; gi_State : string; gi_Title : string; gi_Body : string; gi_User : string;
  gi_Assignees : list string; gi_Labels : list string; gi_URL : string; gi_HTMLURL : string; gi_PullRequest : bool }.

Record githubIssueComment := {
  gc_ID : Z; gc_Body : string; gc_User : string; gc_URL : string; gc_HTMLURL : string; gc_CreatedAt : string;
  gc_UpdatedAt : string }.

Record githubReview := {
  gr_ID : Z; gr_NodeID : string; gr_State : string; gr_Body : string; gr_User : string; gr_CommitID : string;
  gr_SubmittedAt : string; gr_HTMLURL : string }.

Record githubReviewComment := {
  grc_ID : Z; grc_NodeID : string; grc_Body : string; grc_User : string; grc_Path : string; grc_Line : Z;
  grc_CommitID : string; grc_HTMLURL : string; grc_CreatedAt : string; grc_UpdatedAt : string }.

Record graphqlReview := {
  qr_ID : string; qr_DatabaseID : Z; qr_State : string; qr_Body : string; qr_URL : string; qr_SubmittedAt : string;
  qr_Author : string }.

Record graphqlReviewComment := {
  qc_ID : string; qc_DatabaseID : Z; qc_Body : string; qc_Author : string; qc_Path : string; qc_Line : Z;
  qc_URL : string; qc_CreatedAt : string; qc_UpdatedAt : string }.

Record graphqlReviewThread := {
  qt_ID : string; qt_IsResolved : bool; qt_Path : string; qt_Line : Z; qt_Comments : list graphqlReviewComment }.

(** ** The broker's records *)

Record PullSummary := {
  sm_ID : Z; sm_Number : Z; sm_State : string; sm_Title : string; sm_Body : string; sm_HeadRef : string;
  sm_HeadSHA : string; sm_BaseRef : string; sm_Merged : bool; sm_MergedAt : string; sm_Mergeable : option bool;
  sm_Author : string; sm_Labels : list string; sm_URL : string; sm_HTMLURL : string; sm_Comments : Z;
  sm_ReviewComments : Z }.

Record issue_summary := {
  si_ID : Z; si_Number : Z; si_State : string; si_Title : string; si_Body : string; si_Author : string;
  si_Assignees : list string; si_Labels : list string; si_URL : string; si_HTMLURL : string; si_IsPullRequest : bool }.

Record PullFile := {
  pf_Filename : string; pf_Status : string; pf_SHA : string; pf_Additions : Z; pf_Deletions : Z; pf_Changes : Z;
  pf_Patch : string }.

Record PullReviewComment := {
  rc_ID : string; rc_DatabaseID : Z; rc_Body : string; rc_Author : option string; rc_Path : string; rc_Line : Z;
  rc_CommitID : string; rc_HTMLURL : string; rc_CreatedAt : string; rc_UpdatedAt : string }.

Record PullReviewThread := {
  th_ID : string; th_IsResolved : option bool; UnresolvedStateAvailable : bool; Resolvable : bool; th_Path : string;
  th_Line : Z; th_Comments : list PullReviewComment }.

Record status_context := { sx_Context : string; sx_State : string; sx_Description : string; sx_TargetURL : string }.
Record CommitStatus := { st_State : string; st_SHA : string; st_TotalCount : Z; st_Statuses : list status_context }.

Record CheckAnnotation := {
  an_Path : string; an_StartLine : Z; an_EndLine : Z; an_Level : string; an_Message : string }.
Record CheckOutput := { out_Title : string; out_Summary : string; out_Annotations : list CheckAnnotation }.
Record check_run := {
  cr_ID : Z; cr_Name : string; cr_Status : string; cr_Conclusion : string; cr_HTMLURL : string; cr_StartedAt : string;
  cr_CompletedAt : string; cr_Output : option CheckOutput; cr_App : option Z }.
Record CheckRuns := { cs_TotalCount : Z; cs_CheckRuns : list check_run }.

(** Of workflow runs, what nothing here reads is [X]. *)
Record WorkflowJob := {
  job_RunID : Z; job_ID : Z; job_Name : string; job_Status : string; job_Conclusion : string; job_HeadSHA : string;
  job_HTMLURL : string; job_StartedAt : string; job_CompletedAt : string }.

Record ActionsJobLog := { log_JobID : Z; SizeBytes : Z; log_SHA256 : string; ByteLimit : Z; log_Text : string }.

(** ** From one to the other *)

Definition mapPull (p : githubPull) : PullSummary :=
  {| sm_ID := gp_ID p; sm_Number := gp_Number p; sm_State := gp_State p; sm_Title := gp_Title p; sm_Body := gp_Body p;
     sm_HeadRef := ref_Ref (gp_Head p); sm_HeadSHA := ref_SHA (gp_Head p); sm_BaseRef := ref_Ref (gp_Base p);
     sm_Merged := gp_Merged p || negb (gp_MergedAt p =? "")%string; sm_MergedAt := gp_MergedAt p;
     sm_Mergeable := gp_Mergeable p; sm_Author := gp_User p; sm_Labels := gp_Labels p; sm_URL := gp_URL p;
     sm_HTMLURL := gp_HTMLURL p; sm_Comments := gp_Comments p; sm_ReviewComments := gp_ReviewComments p |}.

Definition mapIssue (i : githubIssue) : issue_summary :=
  {| si_ID := gi_ID i; si_Number := gi_Number i; si_State := gi_State i; si_Title := gi_Title i; si_Body := gi_Body i;
     si_Author := gi_User i; si_Assignees := gi_Assignees i; si_Labels := gi_Labels i; si_URL := gi_URL i;
     si_HTMLURL := gi_HTMLURL i; si_IsPullRequest := gi_PullRequest i |}.

Definition mapIssueComment (c : githubIssueComment) : IssueComment :=
  {| ic_ID := gc_ID c; ic_Body := gc_Body c; ic_Author := gc_User c; ic_URL := gc_URL c; ic_HTMLURL := gc_HTMLURL c;
     ic_CreatedAt := gc_CreatedAt c; ic_UpdatedAt := gc_UpdatedAt c |}.

Definition userRef (login : string) : option string := if (login =? "")%string then None else Some login.

Definition id_of (node : string) (id : Z) : string :=
  if (node =? "")%string && negb (id =? 0) then pretty id else node.

Definition mapReview (r : githubReview) : PullReview :=
  {| pr_ID := id_of (gr_NodeID r) (gr_ID r); pr_DatabaseID := gr_ID r; pr_State := gr_State r; pr_Body := gr_Body r;
     pr_Author := userRef (gr_User r); pr_CommitID := gr_CommitID r; pr_SubmittedAt := gr_SubmittedAt r;
     pr_HTMLURL := gr_HTMLURL r |}.

Definition mapGraphQLReview (r : graphqlReview) : PullReview :=
  {| pr_ID := qr_ID r; pr_DatabaseID := qr_DatabaseID r; pr_State := qr_State r; pr_Body := qr_Body r;
     pr_Author := userRef (qr_Author r); pr_CommitID := ""; pr_SubmittedAt := qr_SubmittedAt r; pr_HTMLURL := qr_URL r |}.

Definition mapReviewComment (c : githubReviewComment) : PullReviewComment :=
  {| rc_ID := id_of (grc_NodeID c) (grc_ID c); rc_DatabaseID := grc_ID c; rc_Body := grc_Body c;
     rc_Author := userRef (grc_User c); rc_Path := grc_Path c; rc_Line := grc_Line c; rc_CommitID := grc_CommitID c;
     rc_HTMLURL := grc_HTMLURL c; rc_CreatedAt := grc_CreatedAt c; rc_UpdatedAt := grc_UpdatedAt c |}.

Definition mapGraphQLReviewThread (t : graphqlReviewThread) : PullReviewThread :=
  {| th_ID := qt_ID t; th_IsResolved := Some (qt_IsResolved t); UnresolvedStateAvailable := true; Resolvable := true;
     th_Path := qt_Path t; th_Line := qt_Line t;
     th_Comments := map (λ c,
       {| rc_ID := qc_ID c; rc_DatabaseID := qc_DatabaseID c; rc_Body := qc_Body c; rc_Author := userRef (qc_Author c);
          rc_Path := qc_Path c; rc_Line := qc_Line c; rc_CommitID := ""; rc_HTMLURL := qc_URL c;
          rc_CreatedAt := qc_CreatedAt c; rc_UpdatedAt := qc_UpdatedAt c |}) (qt_Comments t) |}.

(** A thread of one comment, when GraphQL does not answer. *)
Definition lone_thread (c : PullReviewComment) : PullReviewThread :=
  {| th_ID := rc_ID c; th_IsResolved := None; UnresolvedStateAvailable := false; Resolvable := false; th_Path := "";
     th_Line := 0; th_Comments := [c] |}.

(** ** Decoders

    [B], [P] and [R]: branch rules, legacy protection and workflow runs, which
    the client passes on. *)
Class Decoders (B P R : Type) := {
  d_ref : string → option string;
  d_repo : string → option GitHubResult; d_created : string → option GitHubResult; d_comment : string → option GitHubResult;
  d_review : string → option githubReview; d_reviews : string → option (list githubReview);
  d_labels : string → option (list string);
  d_pull : string → option githubPull; d_pulls : string → option (list githubPull);
  d_files : string → option (list PullFile);
  d_review_comments : string → option (list githubReviewComment);
  d_issue : string → option githubIssue; d_issues : string → option (list githubIssue);
  d_comments : string → option (list githubIssueComment);
  d_status : string → option CommitStatus; d_checks : string → option CheckRuns;
  d_annotations : string → option (list CheckAnnotation);
  d_runs : string → option (Z * list R); d_jobs : string → option (Z * list WorkflowJob);
  d_rules : string → option B; no_rules : B; d_protection : string → option P; no_protection : P;
  d_graphql : string → option (list string * string);
  q_dismiss : string → option graphqlReview; q_review : string → option graphqlReview;
  q_resolve : string → option (string * bool); q_reply : string → option string;
  q_thread : string → option graphqlReviewThread; q_threads : string → option (list graphqlReviewThread);
  sha256_text : string → string }.

Section Calls.
Context `{G : GitHub} {B P R : Type} `{Dec : Decoders B P R}.

Notation M := (prog client).
Notation answer A := (M (result read_error A)).

(** [m >>> f]: what is made of the answer. *)
Definition fmap_answer {A C} (f : A → C) (m : answer A) : answer C := a <-? m ;; done (Ok (f a)).

Definition repo_path (repo : string) : string := "/repos/" +:+ repo.
Definition get {A} (parse : string → option A) (app path : string) (inst : Z) : answer A :=
  doJSON parse app "GET" path inst None.
Definition not_found (e : read_error) : bool := match e with APIError code _ => code =? 404 | _ => false end.

(** ** Refs and repositories *)

Definition is_sha (s : string) : bool := (String.length s =? 40)%nat && all_chars is_lower_hex s.

(** [None] for a ref that does not exist. *)
Definition GetRef (app repo ref : string) (inst : Z) : answer (option string) :=
  if negb (has_prefix "refs/heads/" ref) then done (other "unsupported ref namespace") else
  let parts := map PathEscape (split_at "/" (trim_prefix "refs/" ref)) in
  r <-! get d_ref app (repo_path repo +:+ "/git/ref/" +:+ GoStrings.join "/" parts) inst ;;
  done match r with
       | Ok sha => if is_sha sha then Ok (Some sha) else other "invalid object sha"
       | Err e => if not_found e then Ok None else Err e
       end.

(** Of an answer, the fields a function declares. *)
Definition repo_result (g : GitHubResult) : GitHubResult :=
  {| URL := URL g; HTMLURL := HTMLURL g; Number := 0; ID := ID g; g_CreatedAt := "" |}.
Definition created_result (g : GitHubResult) : GitHubResult :=
  {| URL := URL g; HTMLURL := HTMLURL g; Number := Number g; ID := ID g; g_CreatedAt := "" |}.
Definition comment_result (g : GitHubResult) : GitHubResult :=
  {| URL := URL g; HTMLURL := HTMLURL g; Number := 0; ID := ID g; g_CreatedAt := g_CreatedAt g |}.

Definition GetRepo (app repo : string) (inst : Z) : answer GitHubResult :=
  fmap_answer repo_result (get d_repo app (repo_path repo) inst).

(** ** Pull requests and issues: creation *)

Definition json_bool (b : bool) : string := if b then "true" else "false".

Definition CreatePull (app repo : string) (inst : Z) (title head base body : string) (draft : bool) : answer GitHubResult :=
  fmap_answer created_result (doJSON d_created app "POST" (repo_path repo +:+ "/pulls") inst
    (Some (json_object [("base", json_string base); ("body", json_string body); ("draft", json_bool draft);
                        ("head", json_string head); ("title", json_string title)]))).

Definition CreateIssue (app repo : string) (inst : Z) (title body : string) (labels : list string) : answer GitHubResult :=
  fmap_answer created_result (doJSON d_created app "POST" (repo_path repo +:+ "/issues") inst
    (Some (json_object ([("body", json_string body)] ++ when (negb (is_nil labels)) "labels" (json_strings labels) ++
                        [("title", json_string title)])))).

Definition CreateIssueComment (app repo issueNumber : string) (inst : Z) (body : string) : answer GitHubResult :=
  fmap_answer comment_result (doJSON d_comment app "POST" (repo_path repo +:+ "/issues/" +:+ issueNumber +:+ "/comments") inst
    (Some (json_object [("body", json_string body)]))).

(** ** Reviews *)

Definition review_path (repo : string) (number reviewID : Z) : string :=
  repo_path repo +:+ "/pulls/" +:+ pretty number +:+ "/reviews/" +:+ pretty reviewID.

Definition GetPullReview (app repo : string) (inst number reviewID : Z) : answer PullReview :=
  fmap_answer mapReview (get d_review app (review_path repo number reviewID) inst).

Definition dismissed (r : result read_error PullReview) : option PullReview :=
  match r with Ok v => if equal_fold (pr_State v) "DISMISSED" then Some v else None | Err _ => None end.

Definition DismissPullReview (app repo : string) (inst number reviewID : Z) (message : string) : answer PullReview :=
  current <-! GetPullReview app repo inst number reviewID ;;
  match dismissed current with
  | Some v => done (Ok v)
  | None =>
    fmap_answer mapReview (doJSON d_review app "PUT" (review_path repo number reviewID +:+ "/dismissals") inst
      (Some (json_object [("message", json_string message)])))
  end.

Definition text_lines (l : list string) : string := GoStrings.join (str [10%nat]) l.
Definition review_fields := "id databaseId state body url submittedAt author { login }".

Definition GetPullReviewNode (app : string) (inst : Z) (reviewNodeID : string) : answer PullReview :=
  node <-? doGraphQL d_graphql q_review app inst
    (text_lines ["query($reviewID: ID!) {"; "  node(id: $reviewID) {";
                 "    ... on PullRequestReview { " +:+ review_fields +:+ " }"; "  }"; "}"])
    (json_object [("reviewID", json_string reviewNodeID)]) ;;
  done (if (qr_ID node =? "")%string then other "no pull request review" else Ok (mapGraphQLReview node)).

Definition DismissPullReviewNode (app : string) (inst : Z) (reviewNodeID message : string) : answer PullReview :=
  current <-! GetPullReviewNode app inst reviewNodeID ;;
  match dismissed current with
  | Some v => done (Ok v)
  | None =>
    fmap_answer mapGraphQLReview (doGraphQL d_graphql q_dismiss app inst
      (text_lines ["mutation($reviewID: ID!, $message: String!) {";
                   "  dismissPullRequestReview(input: {pullRequestReviewId: $reviewID, message: $message}) {";
                   "    pullRequestReview { " +:+ review_fields +:+ " }"; "  }"; "}"])
      (json_object [("message", json_string message); ("reviewID", json_string reviewNodeID)]))
  end.

(** ** Labels *)

Definition labels_path (repo : string) (number : Z) : string := repo_path repo +:+ "/issues/" +:+ pretty number +:+ "/labels".

Definition AddIssueLabels (app repo : string) (inst number : Z) (labels : list string) : answer (list string) :=
  doJSON d_labels app "POST" (labels_path repo number) inst (Some (json_object [("labels", json_strings labels)])).

Definition ListIssueLabels (app repo : string) (inst number : Z) : answer (list string) :=
  get d_labels app (labels_path repo number) inst.

Definition RemoveIssueLabel (app repo : string) (inst number : Z) (label : string) : answer (list string) :=
  '(status, r) <-! doJSONStatus app "DELETE" (labels_path repo number +:+ "/" +:+ PathEscape label) inst None ;;
  match decode d_labels r with
  | Ok l => done (Ok l)
  | Err e => if status =? 404 then ListIssueLabels app repo inst number else done (Err e)
  end.

(** ** Lists *)

Definition queried (path : string) (query : gmap string (list string)) : string := path +:+ "?" +:+ Encode query.
Definition pull_path (repo : string) (number : Z) : string := repo_path repo +:+ "/pulls/" +:+ pretty number.

Definition ListPulls (app repo : string) (inst : Z) (query : gmap string (list string)) : answer (list PullSummary) :=
  fmap_answer (map mapPull) (get d_pulls app (queried (repo_path repo +:+ "/pulls") query) inst).
Definition GetPull (app repo : string) (inst number : Z) : answer PullSummary :=
  fmap_answer mapPull (get d_pull app (pull_path repo number) inst).
Definition ListPullFiles (app repo : string) (inst number : Z) (query : gmap string (list string)) : answer (list PullFile) :=
  get d_files app (queried (pull_path repo number +:+ "/files") query) inst.
Definition ListPullReviews (app repo : string) (inst number : Z) (query : gmap string (list string)) : answer (list PullReview) :=
  fmap_answer (map mapReview) (get d_reviews app (queried (pull_path repo number +:+ "/reviews") query) inst).
Definition ListPullReviewComments (app repo : string) (inst number : Z) (query : gmap string (list string))
    : answer (list PullReviewComment) :=
  fmap_answer (map mapReviewComment) (get d_review_comments app (queried (pull_path repo number +:+ "/comments") query) inst).
Definition ListIssueComments (app repo : string) (inst number : Z) (query : gmap string (list string))
    : answer (list IssueComment) :=
  fmap_answer (map mapIssueComment)
    (get d_comments app (queried (repo_path repo +:+ "/issues/" +:+ pretty number +:+ "/comments") query) inst).
Definition GetIssue (app repo : string) (inst number : Z) : answer issue_summary :=
  fmap_answer mapIssue (get d_issue app (repo_path repo +:+ "/issues/" +:+ pretty number) inst).
Definition ListIssues (app repo : string) (inst : Z) (query : gmap string (list string)) : answer (list issue_summary) :=
  fmap_answer (map mapIssue) (get d_issues app (queried (repo_path repo +:+ "/issues") query) inst).

(** ** Review threads *)

Definition thread_fields (indent : string) : list string :=
  map (λ l, indent +:+ l)
    ["id"; "isResolved"; "path"; "line"; "comments(first: 20) {"; "  nodes {"; "    id"; "    databaseId"; "    body";
     "    author { login }"; "    path"; "    line"; "    url"; "    createdAt"; "    updatedAt"; "  }"; "}"].

Definition GetPullReviewThread (app : string) (inst : Z) (threadID : string) : answer PullReviewThread :=
  node <-? doGraphQL d_graphql q_thread app inst
    (text_lines (["query($threadID: ID!) {"; "  node(id: $threadID) {"; "    ... on PullRequestReviewThread {"] ++
                 thread_fields "      " ++ ["    }"; "  }"; "}"]))
    (json_object [("threadID", json_string threadID)]) ;;
  done (if (qt_ID node =? "")%string then other "no review thread" else Ok (mapGraphQLReviewThread node)).

Definition AddPullReviewThreadReply (app : string) (inst : Z) (threadID body : string) : answer unit :=
  fmap_answer (λ _, ()) (doGraphQL d_graphql q_reply app inst
    (text_lines ["mutation($threadID: ID!, $body: String!) {";
                 "  addPullRequestReviewThreadReply(input: {pullRequestReviewThreadId: $threadID, body: $body}) {";
                 "    comment { id }"; "  }"; "}"])
    (json_object [("body", json_string body); ("threadID", json_string threadID)])).

Definition ResolvePullReviewThread (app : string) (inst : Z) (threadID message : string)
    : answer PullReviewThreadResolveResult :=
  current <-! GetPullReviewThread app inst threadID ;;
  match current with
  | Ok {| th_ID := id; th_IsResolved := Some true |} => done (Ok {| rt_ID := id; rt_IsResolved := true |})
  | _ =>
    _ <-? (if (trim_space message =? "")%string then done (Ok ()) else AddPullReviewThreadReply app inst threadID message) ;;
    fmap_answer (λ '(id, resolved), {| rt_ID := id; rt_IsResolved := resolved |})
      (doGraphQL d_graphql q_resolve app inst
        (text_lines ["mutation($threadID: ID!) {"; "  resolveReviewThread(input: {threadId: $threadID}) {";
                     "    thread { id isResolved }"; "  }"; "}"])
        (json_object [("threadID", json_string threadID)]))
  end.

Definition first_of (query : gmap string (list string)) : Z :=
  let raw := Get query "per_page" in
  let first := if (raw =? "")%string then 30 else match Atoi raw with Some n => if 0 <? n then n else 30 | None => 30 end in
  if 100 <? first then 100 else first.

Definition listPullReviewThreadsGraphQL (app repo : string) (inst number : Z) (query : gmap string (list string))
    : answer (list PullReviewThread) :=
  match cut "/" repo with
  | None => done (other "repo must be owner/repo")
  | Some (owner, name) =>
    if (owner =? "")%string || (name =? "")%string then done (other "repo must be owner/repo") else
    fmap_answer (map mapGraphQLReviewThread) (doGraphQL d_graphql q_threads app inst
      (text_lines (["query($owner: String!, $repo: String!, $number: Int!, $first: Int!) {";
                    "  repository(owner: $owner, name: $repo) {"; "    pullRequest(number: $number) {";
                    "      reviewThreads(first: $first) {"; "        nodes {"] ++
                   thread_fields "          " ++ ["        }"; "      }"; "    }"; "  }"; "}"]))
      (json_object [("first", pretty (first_of query)); ("number", pretty number); ("owner", json_string owner);
                    ("repo", json_string name)]))
  end.

Definition ListPullReviewThreads (app repo : string) (inst number : Z) (query : gmap string (list string))
    : answer (list PullReviewThread) :=
  threads <-! listPullReviewThreadsGraphQL app repo inst number query ;;
  match threads with
  | Ok l => done (Ok l)
  | Err _ => fmap_answer (map lone_thread) (ListPullReviewComments app repo inst number query)
  end.

(** ** Evidence of CI *)

Definition commit_path (repo sha : string) : string := repo_path repo +:+ "/commits/" +:+ PathEscape sha.
Definition len {A} (l : list A) : Z := Z.of_nat (length l).

Definition GetCommitStatus (app repo : string) (inst : Z) (sha : string) : answer CommitStatus :=
  out <-? get d_status app (commit_path repo sha +:+ "/status?per_page=100") inst ;;
  done (if len (st_Statuses out) <? st_TotalCount out then other "paginated beyond the broker bound" else Ok out).

(** json.Marshal of an annotation: empty fields are left out. *)
Definition marshal_annotation (a : CheckAnnotation) : string :=
  let text k v := when (negb (v =? "")%string) k (json_string v) in
  let int k v := when (negb (v =? 0)) k (json_int v) in
  json_object (text "path" (an_Path a) ++ int "start_line" (an_StartLine a) ++ int "end_line" (an_EndLine a) ++
               text "annotation_level" (an_Level a) ++ text "message" (an_Message a)).

(** The loop over a page: bytes used and annotations so far. *)
Fixpoint collect (maxItems maxBytes used : Z) (all batch : list CheckAnnotation) : option (Z * list CheckAnnotation) :=
  match batch with
  | [] => Some (used, all)
  | a :: batch =>
    let used := used + Z.of_nat (String.length (marshal_annotation a)) in
    if (len all =? maxItems) || (maxBytes <? used) then None else collect maxItems maxBytes used (all ++ [a]) batch
  end.

Definition annotations_path (repo : string) (runID page : Z) : string :=
  queried (repo_path repo +:+ "/check-runs/" +:+ pretty runID +:+ "/annotations")
    (<["per_page" := ["100"]]> {["page" := [pretty page]]}).

Fixpoint annotations_from (fuel : nat) (app repo : string) (inst runID maxItems maxBytes page used : Z)
    (all : list CheckAnnotation) : answer (list CheckAnnotation) :=
  match fuel with
  | O => done (other "out of fuel")
  | S fuel =>
    batch <-? get d_annotations app (annotations_path repo runID page) inst ;;
    match collect maxItems maxBytes used all batch with
    | None => done (other "annotations exceed broker bounds")
    | Some (used, all) =>
      if len batch <? 100 then done (Ok all)
      else annotations_from fuel app repo inst runID maxItems maxBytes (page + 1) used all
    end
  end.

(** A page with others after it has a hundred annotations. *)
Definition pages (maxItems : Z) : nat := Z.to_nat (maxItems / 100) + 1.

Definition ListCheckRunAnnotations (app repo : string) (inst runID maxItems maxBytes : Z)
    : answer (list CheckAnnotation) :=
  if (runID <? 1) || (maxItems <? 1) || (maxBytes <? 1) then done (other "invalid check annotation bound")
  else annotations_from (pages maxItems) app repo inst runID maxItems maxBytes 1 0 [].

Definition with_annotations (r : check_run) (l : list CheckAnnotation) : check_run :=
  if is_nil l then r else
  let out := default {| out_Title := ""; out_Summary := ""; out_Annotations := [] |} (cr_Output r) in
  {| cr_ID := cr_ID r; cr_Name := cr_Name r; cr_Status := cr_Status r; cr_Conclusion := cr_Conclusion r;
     cr_HTMLURL := cr_HTMLURL r; cr_StartedAt := cr_StartedAt r; cr_CompletedAt := cr_CompletedAt r;
     cr_Output := Some {| out_Title := out_Title out; out_Summary := out_Summary out; out_Annotations := l |};
     cr_App := cr_App r |}.

Definition failed_check (r : check_run) : bool :=
  equal_fold (cr_Conclusion r) "failure" || equal_fold (cr_Conclusion r) "timed_out"
  || equal_fold (cr_Conclusion r) "startup_failure".

Fixpoint annotate (app repo : string) (inst : Z) (runs : list check_run) : answer (list check_run) :=
  match runs with
  | [] => done (Ok [])
  | r :: runs =>
    r <-? (if failed_check r then
             l <-? ListCheckRunAnnotations app repo inst (cr_ID r) 100 (256 * 1024) ;; done (Ok (with_annotations r l))
           else done (Ok r)) ;;
    runs <-? annotate app repo inst runs ;;
    done (Ok (r :: runs))
  end.

Definition ListCheckRuns (app repo : string) (inst : Z) (sha : string) (query : gmap string (list string))
    : answer CheckRuns :=
  out <-? get d_checks app (queried (commit_path repo sha +:+ "/check-runs") query) inst ;;
  if len (cs_CheckRuns out) <? cs_TotalCount out then done (other "paginated beyond the broker bound") else
  runs <-? annotate app repo inst (cs_CheckRuns out) ;;
  done (Ok {| cs_TotalCount := cs_TotalCount out; cs_CheckRuns := runs |}).

Definition ListWorkflowRuns (app repo : string) (inst : Z) (sha : string) : answer (list R) :=
  '(total, runs) <-? get d_runs app (queried (repo_path repo +:+ "/actions/runs")
                       (<["head_sha" := [sha]]> {["per_page" := ["100"]]})) inst ;;
  done (if len runs <? total then other "paginated beyond the broker bound" else Ok runs).

Definition of_run (runID : Z) (j : WorkflowJob) : WorkflowJob :=
  {| job_RunID := runID; job_ID := job_ID j; job_Name := job_Name j; job_Status := job_Status j;
     job_Conclusion := job_Conclusion j; job_HeadSHA := job_HeadSHA j; job_HTMLURL := job_HTMLURL j;
     job_StartedAt := job_StartedAt j; job_CompletedAt := job_CompletedAt j |}.

Definition ListWorkflowJobs (app repo : string) (inst runID : Z) : answer (list WorkflowJob) :=
  '(total, jobs) <-? get d_jobs app (repo_path repo +:+ "/actions/runs/" +:+ pretty runID +:+ "/jobs?per_page=100") inst ;;
  done (if len jobs <? total then other "paginated beyond the broker bound" else Ok (map (of_run runID) jobs)).

(** A response 404 gives no rules, and no protection. *)
Definition or_none {A} (none : A) (r : result read_error A) : result read_error A :=
  match r with Err e => if not_found e then Ok none else Err e | Ok _ => r end.

Definition BranchRules (app repo branch : string) (inst : Z) : answer B :=
  r <-! get d_rules app (repo_path repo +:+ "/rules/branches/" +:+ PathEscape branch) inst ;; done (or_none no_rules r).
Definition BranchProtection (app repo branch : string) (inst : Z) : answer P :=
  r <-! get d_protection app (repo_path repo +:+ "/branches/" +:+ PathEscape branch +:+ "/protection") inst ;;
  done (or_none no_protection r).

(** ** Logs of jobs *)

Definition trim_suffix_dot (s : string) : string := if has_suffix "." s then stake (String.length s - 1) s else s.
Definition log_hosts : list string :=
  ["results-receiver.actions.githubusercontent.com"; "pipelines.actions.githubusercontent.com"].
Definition safeActionsLogHost (host : string) : bool :=
  existsb (String.eqb (to_lower (trim_suffix_dot host))) log_hosts.

(** What is told of a response that is no success. *)
Definition unexpected {A} (r : http_response) : result read_error A :=
  match h_Body r with Err e => Err e | Ok body => Err (APIError (h_Status r) (limited (Z.shiftl 1 20) body)) end.

Definition job_log (jobID maxBytes : Z) (r : http_response) : result read_error ActionsJobLog :=
  if negb (h_Status r =? 200) then unexpected r else
  match h_Body r with
  | Err e => Err e
  | Ok body =>
    let body := limited (maxBytes + 1) body in
    if maxBytes <? Z.of_nat (String.length body) then other "actions job log exceeds the broker limit" else
    if negb (valid_utf8 body) then other "actions job log is not valid UTF-8" else
    Ok {| log_JobID := jobID; SizeBytes := Z.of_nat (String.length body); log_SHA256 := sha256_text body;
          ByteLimit := maxBytes; log_Text := body |}
  end.

(** The second request is for the URL of the first response, and carries no token. *)
Definition GetWorkflowJobLog (app repo : string) (inst jobID maxBytes : Z) : answer ActionsJobLog :=
  if maxBytes <? 1 then done (other "actions log byte limit must be positive") else
  r <-? authorized app inst "GET" (api_url (repo_path repo +:+ "/actions/jobs/" +:+ pretty jobID +:+ "/logs")) None ;;
  if (h_Status r <? 300) || (400 <=? h_Status r) then done (unexpected r) else
  match Parse (h_Location r) with
  | None => done (other "redirect is not an approved HTTPS host")
  | Some url =>
    if negb (u_Scheme url =? "https")%string || negb (safeActionsLogHost (Hostname url))
    then done (other "redirect is not an approved HTTPS host") else
    r <-? effect gh_dies (λ k w, (log (Fetched url) w,
            http k {| q_Method := "GET"; q_URL := h_Location r; q_Authorization := ""; q_Body := None |})) ;;
    done (job_log jobID maxBytes r)
  end.

(** ** The calls of the server *)

(** What reads give, beside pull requests and issues. *)
Inductive client_data :=
| DRepo (r : GitHubResult) | DPull (p : PullSummary) | DFiles (l : list PullFile) | DComments (l : list IssueComment)
| DReviews (l : list PullReview) | DReviewComments (l : list PullReviewComment) | DThreads (l : list PullReviewThread)
| DIssue (i : issue_summary) | DStatus (s : CommitStatus) | DChecks (c : CheckRuns) | DLog (l : ActionsJobLog)
| DJobs (l : list WorkflowJob).

Definition pull_data (p : PullSummary) : PullSummary_ client_data :=
  {| ps_Body := sm_Body p; ps_HeadRef := sm_HeadRef p; ps_rest := DPull p |}.
Definition issue_data (i : issue_summary) : IssueSummary client_data := {| iss_Body := si_Body i; iss_rest := DIssue i |}.

Definition perform_read (app : string) (inst : Z) (c : read_call) : answer (@read_data client_data) :=
  match c with
  | RepoApi.GetRepo repo => fmap_answer (λ r, Data (DRepo r)) (GetRepo app repo inst)
  | RepoApi.ListPulls repo q => fmap_answer (λ l, Pulls (map pull_data l)) (ListPulls app repo inst q)
  | RepoApi.GetPull repo n => fmap_answer (λ p, Data (DPull p)) (GetPull app repo inst n)
  | RepoApi.ListPullFiles repo n q => fmap_answer (λ l, Data (DFiles l)) (ListPullFiles app repo inst n q)
  | RepoApi.ListIssueComments repo n q => fmap_answer (λ l, Data (DComments l)) (ListIssueComments app repo inst n q)
  | RepoApi.ListPullReviews repo n q => fmap_answer (λ l, Data (DReviews l)) (ListPullReviews app repo inst n q)
  | RepoApi.ListPullReviewComments repo n q =>
      fmap_answer (λ l, Data (DReviewComments l)) (ListPullReviewComments app repo inst n q)
  | RepoApi.ListPullReviewThreads repo n q => fmap_answer (λ l, Data (DThreads l)) (ListPullReviewThreads app repo inst n q)
  | RepoApi.ListIssues repo q => fmap_answer (λ l, Issues (map issue_data l)) (ListIssues app repo inst q)
  | RepoApi.GetIssue repo n => fmap_answer (λ i, Data (DIssue i)) (GetIssue app repo inst n)
  | RepoApi.GetCommitStatus repo sha => fmap_answer (λ s, Data (DStatus s)) (GetCommitStatus app repo inst sha)
  | RepoApi.ListCheckRuns repo sha q => fmap_answer (λ c, Data (DChecks c)) (ListCheckRuns app repo inst sha q)
  | RepoApi.GetWorkflowJobLog repo id maxBytes => fmap_answer (λ l, Data (DLog l)) (GetWorkflowJobLog app repo inst id maxBytes)
  | RepoApi.ListWorkflowJobs repo id => fmap_answer (λ l, Data (DJobs l)) (ListWorkflowJobs app repo inst id)
  end.

Definition perform (m : mutation) : answer reply_body :=
  match m with
  | GitHubApi.CreatePull app repo inst title head base body draft =>
      fmap_answer RResult (CreatePull app repo inst title head base body draft)
  | GitHubApi.CreateIssue app repo inst title body labels => fmap_answer RResult (CreateIssue app repo inst title body labels)
  | GitHubApi.CreateIssueComment app repo n inst body => fmap_answer RResult (CreateIssueComment app repo n inst body)
  | GitHubApi.AddIssueLabels app repo inst n labels => fmap_answer RLabels (AddIssueLabels app repo inst n labels)
  | GitHubApi.RemoveIssueLabel app repo inst n label => fmap_answer RLabels (RemoveIssueLabel app repo inst n label)
  | GitHubApi.DismissPullReview app repo inst n id message => fmap_answer RReview (DismissPullReview app repo inst n id message)
  | GitHubApi.DismissPullReviewNode app inst id message => fmap_answer RReview (DismissPullReviewNode app inst id message)
  | GitHubApi.ResolvePullReviewThread app inst id message => fmap_answer RThread (ResolvePullReviewThread app inst id message)
  end.
End Calls.
