(* ===== verification/GitHubMaterial.v ===== *)
(** * internal/githubapp/client.go: PushTripwireMaterial

    What the detector of pushed secrets is given: every commit of the push with
    its message, and every blob side that differs from its first parent.  The
    answer is complete, or it is empty with a reason. *)

From stdpp Require Import pretty.
From S2P Require Import Prelude GoStrings GoTime Net Url Process ReadAccess PushTripwire GitHubApi RepoApi GitHubClient GitHubCalls.
Open Scope string_scope.
Open Scope list_scope.
Open Scope Z_scope.

(** ** base64.StdEncoding.EncodeToString *)

Definition sextet_char (n : Z) : ascii :=
  ascii_of_nat (Z.to_nat (if n <? 26 then 65 + n else if n <? 52 then 71 + n else if n <? 62 then n - 4
                          else if n =? 62 then 43 else 47)).
Definition byte_of (c : ascii) : Z := Z.of_nat (code c).

Fixpoint encode_quanta (l : list ascii) : list ascii :=
  match l with
  | [] => []
  | [a] => let x := byte_of a in [sextet_char (x / 4); sextet_char (x mod 4 * 16); "="; "="]%char
  | [a; b] =>
    let x := byte_of a in let y := byte_of b in
    [sextet_char (x / 4); sextet_char (x mod 4 * 16 + y / 16); sextet_char (y mod 16 * 4); "="]%char
  | a :: b :: c :: rest =>
    let x := byte_of a in let y := byte_of b in let z := byte_of c in
    sextet_char (x / 4) :: sextet_char (x mod 4 * 16 + y / 16) :: sextet_char (y mod 16 * 4 + z / 64)
      :: sextet_char (z mod 64) :: encode_quanta rest
  end.
Definition base64_encode (s : string) : string := text (encode_quanta (chars s)).

(** ** Data *)

Record PushTripwireBounds := {
  MaxCommits : Z; MaxPaths : Z; MaxCommitMessageBytes : Z; MaxBlobBytes : Z; MaxTotalBytes : Z }.

Record Commit := { c_SHA : string; c_Message : string }.
Record File := {
  f_CommitSHA : string; f_Path : string; f_Side : string; f_Status : string; f_BlobSHA : string; f_Size : Z;
  ContentBase64 : string }.
Record MaterialBounds := { CommitCount : Z; PathCount : Z; TotalBytes : Z }.
Record MaterialResponse := {
  mt_Request : MaterialRequest; Complete : bool; mt_ReasonCode : string; mt_Bounds : MaterialBounds;
  Commits : list Commit; Files : list File }.

(** GitHub's answers. *)
Record comparison := { TotalCommits : Z; cmp_Status : string; cmp_Commits : list string }.
Record treeNode := { n_Path : string; n_Type : string; n_SHA : string }.
Record tree := { Truncated : bool; Nodes : list treeNode }.
Record commit := { k_SHA : string; k_Message : string; k_Tree : string; k_Parents : list string }.
Record blob := { b_Content : string; b_Encoding : string; b_Size : Z }.

Class MaterialDecoders := {
  d_compare : string → option comparison; d_tree : string → option tree; d_commit : string → option commit;
  d_parent : string → option string; d_blob : string → option blob }.

(** What the loops keep. *)
Record scan := {
  s_trees : gmap string (gmap string treeNode); s_blobs : gmap string (string * Z); s_total : Z; s_changed : Z;
  s_commits : list Commit; s_files : list File }.
Definition no_scan : scan :=
  {| s_trees := ∅; s_blobs := ∅; s_total := 0; s_changed := 0; s_commits := []; s_files := [] |}.

Definition cache_tree (sha : string) (t : gmap string treeNode) (s : scan) : scan :=
  {| s_trees := <[sha := t]> (s_trees s); s_blobs := s_blobs s; s_total := s_total s; s_changed := s_changed s;
     s_commits := s_commits s; s_files := s_files s |}.
Definition cache_blob (sha : string) (b : string * Z) (s : scan) : scan :=
  {| s_trees := s_trees s; s_blobs := <[sha := b]> (s_blobs s); s_total := s_total s; s_changed := s_changed s;
     s_commits := s_commits s; s_files := s_files s |}.
Definition add_commit (c : Commit) (s : scan) : scan :=
  {| s_trees := s_trees s; s_blobs := s_blobs s; s_total := s_total s + Z.of_nat (String.length (c_Message c));
     s_changed := s_changed s; s_commits := s_commits s ++ [c]; s_files := s_files s |}.
Definition add_file (f : File) (s : scan) : scan :=
  {| s_trees := s_trees s; s_blobs := s_blobs s; s_total := s_total s + f_Size f; s_changed := s_changed s + 1;
     s_commits := s_commits s; s_files := s_files s ++ [f] |}.

Definition nul : ascii := ascii_of_nat 0.
Definition valid_node (n : treeNode) : bool :=
  negb ((n_Path n =? "")%string || (4096 <? String.length (n_Path n))%nat || existsb (Ascii.eqb nul) (chars (n_Path n))
        || negb ((n_Type n =? "blob")%string || (n_Type n =? "tree")%string || (n_Type n =? "commit")%string)).
Definition tree_map (nodes : list treeNode) : gmap string treeNode := fold_left (λ t n, <[n_Path n := n]> t) nodes ∅.

Definition without_newlines (s : string) : string := text (List.filter (λ c, negb (code c =? 10)%nat) (chars s)).

(** A blob's content, decoded and encoded again, with its size. *)
Definition blob_content (limit : Z) (b : blob) : result string (string * Z) :=
  if negb (b_Encoding b =? "base64")%string || (b_Size b <? 0) || (limit <? b_Size b) then Err "blob_limit_exceeded" else
  match base64_decode (without_newlines (b_Content b)) with
  | None => Err "invalid_blob_material"
  | Some bytes =>
    if negb (Z.of_nat (String.length bytes) =? b_Size b) then Err "invalid_blob_material"
    else Ok (base64_encode bytes, Z.of_nat (String.length bytes))
  end.

(** ** PushTripwireMaterial *)

Section Material.
Context `{G : GitHub} {B P R : Type} `{Dec : Decoders B P R} `{MD : MaterialDecoders}.
Variables (app : string) (inst : Z) (bounds : PushTripwireBounds) (req : MaterialRequest).

Notation M := (prog client).
Notation step A := (M (result string A)).

Definition object_path (kind sha : string) : string := "/repos/" +:+ m_Repository req +:+ "/" +:+ kind +:+ "/" +:+ sha.
Definition compare_path (before : string) : string :=
  object_path "compare" (before +:+ "..." +:+ m_After req +:+ "?per_page=" +:+ pretty (MaxCommits bounds)).
Definition tree_path (sha : string) : string := object_path "git/trees" (sha +:+ "?recursive=1").
Definition blob_path (sha : string) : string := object_path "git/blobs" sha.
Definition commit_path (sha : string) : string := object_path "commits" sha.

(** A call that fails for any reason. *)
Definition material {A} (parse : string → option A) (path : string) : step A :=
  r <-! get parse app path inst ;;
  done match r with Ok a => Ok a | Err _ => Err "github_material_unavailable" end.

Definition loadTree (sha : string) (s : scan) : step (gmap string treeNode * scan) :=
  match s_trees s !! sha with
  | Some t => done (Ok (t, s))
  | None =>
    if negb (is_sha sha) then done (Err "invalid_tree_material") else
    t <-? material d_tree (tree_path sha) ;;
    done (if Truncated t then Err "tree_material_incomplete" else
          if negb (forallb valid_node (Nodes t)) then Err "invalid_tree_material" else
          let t := tree_map (Nodes t) in Ok (t, cache_tree sha t s))
  end.

Definition loadBlob (sha : string) (s : scan) : step (string * Z * scan) :=
  match s_blobs s !! sha with
  | Some b => done (Ok (b, s))
  | None =>
    if negb (is_sha sha) then done (Err "invalid_blob_material") else
    b <-? material d_blob (blob_path sha) ;;
    done match blob_content (MaxBlobBytes bounds) b with Ok b => Ok (b, cache_blob sha b s) | Err code => Err code end
  end.

(** One side of a changed path. *)
Definition side_of (commitSHA path side status : string) (node : option treeNode) (s : scan) : step scan :=
  match node with
  | None => done (Ok s)
  | Some n =>
    if MaxPaths bounds <? s_changed s + 1 then done (Err "path_limit_exceeded") else
    '(content, size, s) <-? loadBlob (n_SHA n) s ;;
    if MaxTotalBytes bounds <? s_total s + size then done (Err "total_byte_limit_exceeded") else
    done (Ok (add_file {| f_CommitSHA := commitSHA; f_Path := path; f_Side := side; f_Status := status;
                          f_BlobSHA := n_SHA n; f_Size := size; ContentBase64 := content |} s))
  end.

Definition same_node (a b : treeNode) : bool := (n_SHA a =? n_SHA b)%string && (n_Type a =? n_Type b)%string.
Definition not_blob (n : option treeNode) : bool := match n with Some n => negb (n_Type n =? "blob")%string | None => false end.

Definition path_status (before after : option treeNode) : string :=
  match after with None => "deleted" | Some _ => match before with None => "added" | Some _ => "modified" end end.

Definition unchanged (before after : option treeNode) : bool :=
  match before, after with Some a, Some b => same_node a b | _, _ => false end.

Definition scan_path (commitSHA : string) (t0 t1 : gmap string treeNode) (path : string) (s : scan) : step scan :=
  let before := t0 !! path in
  let after := t1 !! path in
  if unchanged before after then done (Ok s) else
  if not_blob before || not_blob after then done (Err "unsupported_tree_material") else
  let status := path_status before after in
  s <-? side_of commitSHA path "before" status before s ;;
  side_of commitSHA path "after" status after s.

Fixpoint fold_step {A} (f : A → scan → step scan) (l : list A) (s : scan) : step scan :=
  match l with [] => done (Ok s) | a :: l => s <-? f a s ;; fold_step f l s end.

Definition all_paths (t0 t1 : gmap string treeNode) : list string :=
  merge_sort text_order (elements (dom t0 ∪ dom t1)).

Definition scan_commit (listed : string) (s : scan) : step scan :=
  if negb (is_sha listed) then done (Err "commit_history_incomplete") else
  k <-? material d_commit (commit_path listed) ;;
  match k_Parents k with
  | [] => done (Err "commit_history_incomplete")
  | parent :: _ =>
    if negb (k_SHA k =? listed)%string || (MaxCommitMessageBytes bounds <? Z.of_nat (String.length (k_Message k)))
    then done (Err "commit_history_incomplete") else
    if MaxTotalBytes bounds <? s_total s + Z.of_nat (String.length (k_Message k))
    then done (Err "total_byte_limit_exceeded") else
    let s := add_commit {| c_SHA := k_SHA k; c_Message := k_Message k |} s in
    parent_tree <-? material d_parent (commit_path parent) ;;
    '(t0, s) <-? loadTree parent_tree s ;;
    '(t1, s) <-? loadTree (k_Tree k) s ;;
    fold_step (scan_path (k_SHA k) t0 t1) (all_paths t0 t1) s
  end.

Definition created : bool := (m_Before req =? zero_sha)%string.

Definition check_comparison (c : comparison) : result string (list string) :=
  let n := Z.of_nat (length (cmp_Commits c)) in
  fail_if (MaxCommits bounds <? TotalCommits c) || (MaxCommits bounds <? n) with "commit_limit_exceeded" ;;
  fail_if negb (TotalCommits c =? n) with "commit_history_incomplete" ;;
  fail_if negb ((cmp_Status c =? "ahead")%string || created && (cmp_Status c =? "diverged")%string)
          || (TotalCommits c =? 0) || negb (bool_decide (last (cmp_Commits c) = Some (m_After req)))
     with "commit_history_incomplete" ;;
  Ok (cmp_Commits c).

Definition base_of (baseRef : string) : step string :=
  if negb created then done (Ok (m_Before req)) else
  r <-! GetRef app (m_Repository req) baseRef inst ;;
  done match r with Ok (Some sha) => Ok sha | _ => Err "base_ref_unavailable" end.

Definition scan_push (baseRef : string) : step scan :=
  before <-? base_of baseRef ;;
  cmp <-? material d_compare (compare_path before) ;;
  match check_comparison cmp with
  | Err code => done (Err code)
  | Ok commits => fold_step scan_commit commits no_scan
  end.

(** The answer names the push, under the version of the broker. *)
Definition about : MaterialRequest :=
  {| m_Version := Version; m_DeliveryID := m_DeliveryID req; m_Repository := m_Repository req; m_Ref := m_Ref req;
     m_Before := m_Before req; m_After := m_After req |}.

Definition no_bounds : MaterialBounds := {| CommitCount := 0; PathCount := 0; TotalBytes := 0 |}.

Definition PushTripwireMaterial (baseRef : string) : M MaterialResponse :=
  r <-! scan_push baseRef ;;
  done match r with
       | Err code =>
         {| mt_Request := about; Complete := false; mt_ReasonCode := code; mt_Bounds := no_bounds; Commits := []; Files := [] |}
       | Ok s =>
         {| mt_Request := about; Complete := true; mt_ReasonCode := "";
            mt_Bounds := {| CommitCount := Z.of_nat (length (s_commits s)); PathCount := s_changed s; TotalBytes := s_total s |};
            Commits := s_commits s; Files := s_files s |}
       end.
End Material.
