(* ===== verification/GitHubOrder.v ===== *)
(** * Tokens and requests of the GitHub client

    Over every history of the client's calls, whatever GitHub answers and the
    clock says: a request carries a token that GitHub issued for its app and
    installation and that has another minute, or has just been issued; and the
    only requests elsewhere are those for logs, on the two hosts for logs,
    without a token. *)

From S2P Require Import Prelude GoStrings GoTime GoJson Net Url Process ReadAccess PushTripwire GitHubApi RepoApi GitHubClient GitHubCalls GitHubMaterial.
Open Scope string_scope.
Open Scope list_scope.
Open Scope Z_scope.

Section Order.
Context `{G : GitHub}.

(** ** What a log may hold *)

Definition for_api (req : http_request) : Prop :=
  (∃ path, q_URL req = api_url path) ∨ q_URL req = graphQLURL.

(** [e] may happen after the events [l]. *)
Definition allowed (e : gh_event) (l : list gh_event) : Prop :=
  match e with
  | Exchanged app inst c => is_Some (apps !! app) ∧ ExpiresAt c - IssuedAt c ≤ 600 * second
  | Issued app inst token _ => token ≠ "" ∧ ∃ c l', l = Exchanged app inst c :: l'
  | Called app inst token at_ req =>
      q_Authorization req = "Bearer " +:+ token ∧ for_api req ∧
      ∃ expires, Issued app inst token expires ∈ l ∧
        (at_ < expires - 60 * second ∨ ∃ l', l = Issued app inst token expires :: l')
  | Fetched url => u_Scheme url = "https" ∧ safeActionsLogHost (Hostname url) = true
  | Got _ _ => True
  end.

Fixpoint ordered (l : list gh_event) : Prop :=
  match l with [] => True | e :: l => allowed e l ∧ ordered l end.

Definition Inv (w : client) : Prop :=
  ordered (g_log w) ∧
  ∀ app inst tok, g_tokens w !! (app, inst) = Some tok → Issued app inst (Token tok) (ExpireAt tok) ∈ g_log w.

Definition grows (w w' : client) : Prop := ∃ l, g_log w' = l ++ g_log w.

Lemma log_refl w : grows w w.
Proof. by exists []. Qed.
Lemma log_trans w1 w2 w3 : grows w1 w2 → grows w2 w3 → grows w1 w3.
Proof. intros [l1 E1] [l2 E2]. exists (l2 ++ l1). by rewrite E2, E1, app_assoc. Qed.
Lemma grows_in e w w' : grows w w' → e ∈ g_log w → e ∈ g_log w'.
Proof. intros [l E] He. rewrite E. apply elem_of_app. by right. Qed.

Lemma grows_log e w : grows w (log e w).
Proof. by exists [e]. Qed.
Lemma grows_keep app inst token expires w : grows w (keep_token app inst token expires w).
Proof. by exists [Issued app inst token expires]. Qed.

Lemma inv_log e w : Inv w → allowed e (g_log w) → Inv (log e w).
Proof. intros [Ho Hc] He. split; [done|]. intros app inst tok Ht. right. by apply Hc. Qed.

Lemma inv_keep app inst token expires w :
  Inv w → allowed (Issued app inst token expires) (g_log w) → Inv (keep_token app inst token expires w).
Proof.
  intros [Ho Hc] He. split; [done|].
  intros app' inst' tok. cbn. intros [[[= -> ->] <-]|[_ Ht]]%lookup_insert_Some; [by left|]. right. by apply Hc.
Qed.

(** ** Programs that keep to it *)

Definition good {A} (m : prog client A) : Prop := ∀ k w,
  let '(_, w', _) := m k w in grows w w' ∧ (Inv w → Inv w').

Lemma good_done {A} (a : A) : good (done a).
Proof. intros k w. split; [apply log_refl|done]. Qed.
Lemma good_andThen {A C} (m : prog client A) (f : A → prog client C) : good m → (∀ a, good (f a)) → good (andThen m f).
Proof.
  intros Hm Hf k w. unfold andThen. specialize (Hm k w). destruct (m k w) as [[k1 w1] [a|]]; [|done].
  destruct Hm as [Hg1 Hi1]. specialize (Hf a k1 w1). destruct (f a k1 w1) as [[k2 w2] o].
  destruct Hf as [Hg2 Hi2]. split; [by eapply log_trans|auto].
Qed.
Lemma good_try {A C} (m : prog client (result read_error A)) (f : A → prog client (result read_error C)) :
  good m → (∀ a, good (f a)) → good (try m f).
Proof. intros Hm Hf. apply good_andThen; [done|]. intros [a|e]; [apply Hf|apply good_done]. Qed.
Lemma good_step {A C} (m : prog client (result string A)) (f : A → prog client (result string C)) :
  good m → (∀ a, good (f a)) → good (try m f).
Proof. intros Hm Hf. apply good_andThen; [done|]. intros [a|e]; [apply Hf|apply good_done]. Qed.
Lemma good_if {A} (b : bool) (m m' : prog client A) : good m → good m' → good (if b then m else m').
Proof. by destruct b. Qed.
Lemma good_got path body : good (poke (log (Got path body))).
Proof. intros k w. split; [apply grows_log|]. intros Hi. by apply inv_log. Qed.

(** A token, and the effect number at which the clock was read. *)
Definition usable (app : string) (inst : Z) (t : string) (k : nat) (w : client) : Prop :=
  ∃ expires, Issued app inst t expires ∈ g_log w ∧
    (clock k < expires - 60 * second ∨ ∃ l', g_log w = Issued app inst t expires :: l').

Lemma claims_short id t : ExpiresAt (claims_at id t) - IssuedAt (claims_at id t) ≤ 600 * second.
Proof. cbn. unfold time_add, second. lia. Qed.

Lemma exchange_run app id inst k w : apps !! app = Some id →
  let '(k', w', o) := exchange app id inst k w in
  grows w w' ∧ (Inv w → Inv w' ∧ ∀ t, o = Some (Ok t) → usable app inst t k' w').
Proof.
  intros Ha. unfold exchange, andThen, try, gh_now, done, effect, poke. cbv zeta.
  destruct (sign app _) as [j|]; [|by split; [apply log_refl|]]. destruct (is_url _); cbn [negb]; [|by split; [apply log_refl|]].
  unfold andThen. destruct (gh_dies k); [by split; [apply log_refl|]|].
  set (w1 := log _ w). assert (grows w w1) as Hg1 by apply grows_log.
  assert (Inv w → Inv w1) as Hi1 by (intros Hi; apply inv_log; [done|split; [by eexists|apply claims_short]]).
  destruct (http _ _) as [r|e]; [|by split; [|intros Hi; split; [apply Hi1|]]].
  destruct (successful _ r) as [body|e]; [|by split; [|intros Hi; split; [apply Hi1|]]]. destruct (parse_token body) as [[token expires]|]; [|by split; [|intros Hi; split; [apply Hi1|]]].
  destruct (String.eqb_spec token ""); [by split; [|intros Hi; split; [apply Hi1|]]|]. unfold andThen. cbn [fst snd].
  split; [by eapply log_trans, grows_keep|]. intros Hi. split.
  - apply inv_keep; [by apply Hi1|]. split; [done|by eexists _, _].
  - intros t [= <-]. exists expires. split; [by left|]. right. by eexists.
Qed.

Lemma token_run appName inst k w :
  let '(k', w', o) := InstallationToken appName inst k w in
  grows w w' ∧ (Inv w → Inv w' ∧ ∀ t, o = Some (Ok t) → usable (app_name appName) inst t k' w').
Proof.
  unfold InstallationToken. cbv zeta. destruct (apps !! app_name appName) as [id|] eqn:Ea; [|by split; [apply log_refl|]].
  unfold andThen at 1 2. cbn [gh_now peek]. destruct (g_tokens w !! _) as [tok|] eqn:Et; [|by apply exchange_run].
  destruct (Z.ltb_spec (clock k) (time_add (ExpireAt tok) (-60 * second))) as [Hlt|]; [|by apply exchange_run].
  split; [apply log_refl|]. intros Hi. split; [done|].
  intros t [= <-]. exists (ExpireAt tok). split; [by apply Hi|]. left. unfold time_add in Hlt. lia.
Qed.

Lemma good_authorized app inst method url in_ :
  ((∃ path, url = api_url path) ∨ url = graphQLURL) → good (authorized app inst method url in_).
Proof.
  intros Hurl k w. unfold authorized, try, andThen. pose proof (token_run app inst k w) as Ht.
  destruct (InstallationToken app inst k w) as [[k1 w1] [[t|e]|]]; destruct Ht as (Hg1 & Ht);
    [|by split; [|intros Hi; apply Ht]|by split; [|intros Hi; apply Ht]].
  destruct (is_url url); cbn [negb]; [|by split; [|intros Hi; apply Ht]].
  unfold effect. destruct (gh_dies k1); [by split; [|intros Hi; apply Ht]|].
  split; [by eapply log_trans, grows_log|]. intros Hi. destruct (Ht Hi) as [Hi1 Hu].
  destruct (Hu t eq_refl) as (expires & Hin & Hok). apply inv_log; [done|]. split_and!; [done|done|]. by exists expires.
Qed.

Lemma good_status app method path inst in_ : good (doJSONStatus app method path inst in_).
Proof.
  apply good_andThen; [apply good_authorized; left; by eexists|]. intros [resp|e]; [|apply good_done].
  apply good_andThen; [|intros; apply good_done]. destruct (successful _ _); [apply good_got|apply good_done].
Qed.

Lemma good_json {A} (parse : string → option A) app method path inst in_ : good (doJSON parse app method path inst in_).
Proof. apply good_andThen; [apply good_status|]. intros [status r]. apply good_done. Qed.

Lemma good_graphql {A} g (parse : string → option A) app inst query variables :
  good (doGraphQL g parse app inst query variables).
Proof. apply good_try; [apply good_authorized; by right|]. intros; apply good_done. Qed.

Lemma good_fmap {A C} (f : A → C) m : good m → good (fmap_answer f m).
Proof. intros Hm. apply good_try; [done|]. intros; apply good_done. Qed.

Lemma good_get {A} (parse : string → option A) app path inst : good (get parse app path inst).
Proof. apply good_json. Qed.
End Order.

Create HintDb good.
#[export] Hint Resolve good_done good_andThen good_try good_step good_if good_status good_json good_graphql good_fmap good_get : good.
#[export] Hint Extern 1 (good (authorized _ _ _ (api_url _) _)) => apply good_authorized; left; by eexists : good.

(** ** Every call *)

Section Calls.
Context `{G : GitHub} {B P R : Type} `{Dec : Decoders B P R}.

Ltac good_tac :=
  repeat (auto with good;
          match goal with
          | |- good (match ?x with _ => _ end) => destruct x
          | |- good (andThen _ _) => apply good_andThen; intros
          | |- good (try _ _) => first [apply good_try | apply good_step]; intros
          | |- good (fmap_answer _ _) => apply good_fmap
          end); auto with good.

Lemma good_ref app repo ref inst : good (GetRef app repo ref inst).
Proof. unfold GetRef. good_tac. Qed.

Lemma good_review app repo inst n id message : good (DismissPullReview app repo inst n id message).
Proof. unfold DismissPullReview, GetPullReview. good_tac. Qed.
Lemma good_node app inst id message : good (DismissPullReviewNode app inst id message).
Proof. unfold DismissPullReviewNode, GetPullReviewNode. good_tac. Qed.
Lemma good_label app repo inst n label : good (RemoveIssueLabel app repo inst n label).
Proof. unfold RemoveIssueLabel, ListIssueLabels. good_tac. Qed.
Lemma good_thread app inst id message : good (ResolvePullReviewThread app inst id message).
Proof. unfold ResolvePullReviewThread, GetPullReviewThread, AddPullReviewThreadReply. good_tac. Qed.
Lemma good_threads app repo inst n q : good (ListPullReviewThreads app repo inst n q).
Proof. unfold ListPullReviewThreads, listPullReviewThreadsGraphQL, ListPullReviewComments. good_tac. Qed.

Lemma good_annotations app repo inst runID maxItems maxBytes : good (ListCheckRunAnnotations app repo inst runID maxItems maxBytes).
Proof.
  unfold ListCheckRunAnnotations. apply good_if; [apply good_done|]. generalize 1 at 1, 0, (@nil CheckAnnotation).
  induction (pages maxItems) as [|fuel IH]; intros page used all; cbn [annotations_from]; [apply good_done|].
  apply good_try; [apply good_get|]. intros batch. destruct (collect _ _ _ _ _) as [[used' all']|]; [|apply good_done].
  apply good_if; [apply good_done|apply IH].
Qed.

Lemma good_annotate app repo inst runs : good (annotate app repo inst runs).
Proof.
  induction runs as [|r runs IH]; cbn [annotate]; [apply good_done|].
  apply good_try; [|intros; apply good_try; [done|intros; apply good_done]].
  apply good_if; [|apply good_done]. apply good_try; [apply good_annotations|intros; apply good_done].
Qed.

Lemma good_checks app repo inst sha q : good (ListCheckRuns app repo inst sha q).
Proof.
  unfold ListCheckRuns. apply good_try; [apply good_get|]. intros out. apply good_if; [apply good_done|].
  apply good_try; [apply good_annotate|]. intros; apply good_done.
Qed.

Lemma good_log app repo inst id maxBytes : good (GetWorkflowJobLog app repo inst id maxBytes).
Proof.
  unfold GetWorkflowJobLog. apply good_if; [apply good_done|]. apply good_try; [auto with good|]. intros r.
  apply good_if; [apply good_done|]. destruct (Parse _) as [url|]; [|apply good_done].
  destruct (String.eqb_spec (u_Scheme url) "https"); cbn [negb orb]; [|apply good_done].
  destruct (safeActionsLogHost (Hostname url)) eqn:Eh; cbn [negb]; [|apply good_done].
  apply good_try; [|intros; apply good_done]. intros k w. unfold effect. destruct (gh_dies k); [split; [apply log_refl|done]|].
  split; [apply grows_log|]. intros Hi. by apply inv_log.
Qed.

Lemma good_read app inst c : good (perform_read app inst c).
Proof.
  destruct c; cbn [perform_read]; apply good_fmap; unfold GetRepo, ListPulls, GetPull, ListPullFiles, ListIssueComments,
    ListPullReviews, ListPullReviewComments, ListIssues, GetIssue, GetCommitStatus, ListWorkflowJobs;
    first [apply good_threads | apply good_checks | apply good_log | good_tac].
Qed.

Lemma good_perform m : good (perform m).
Proof.
  destruct m; cbn [perform]; apply good_fmap; unfold CreatePull, CreateIssue, CreateIssueComment, AddIssueLabels;
    first [apply good_review | apply good_node | apply good_label | apply good_thread | auto with good].
Qed.
End Calls.

Section Material.
Context `{G : GitHub} {B P R : Type} `{Dec : Decoders B P R} `{MD : MaterialDecoders}.
Variables (app : string) (inst : Z) (bounds : PushTripwireBounds) (req : MaterialRequest).

Lemma good_material {A} (parse : string → option A) path : good (material app inst parse path).
Proof. apply good_andThen; [apply good_get|intros; apply good_done]. Qed.

Lemma good_tree sha s : good (loadTree app inst req sha s).
Proof.
  unfold loadTree. destruct (_ !! sha); [apply good_done|]. apply good_if; [apply good_done|].
  apply good_step; [apply good_material|intros; apply good_done].
Qed.
Lemma good_blob sha s : good (loadBlob app inst bounds req sha s).
Proof.
  unfold loadBlob. destruct (_ !! sha); [apply good_done|]. apply good_if; [apply good_done|].
  apply good_step; [apply good_material|intros; apply good_done].
Qed.
Lemma good_side c path side status node s : good (side_of app inst bounds req c path side status node s).
Proof.
  unfold side_of. destruct node; [|apply good_done]. apply good_if; [apply good_done|].
  apply good_step; [apply good_blob|]. intros [[content size] s']. apply good_if; apply good_done.
Qed.
Lemma good_fold {A} (f : A → scan → prog client (result string scan)) l :
  (∀ a s, good (f a s)) → ∀ s, good (fold_step f l s).
Proof.
  intros Hf. induction l as [|a l IH]; intros s; cbn; [apply good_done|]. apply good_step; [apply Hf|apply IH].
Qed.
Lemma good_commit listed s : good (scan_commit app inst bounds req listed s).
Proof.
  unfold scan_commit. apply good_if; [apply good_done|]. apply good_step; [apply good_material|]. intros k.
  destruct (k_Parents k); [apply good_done|]. apply good_if; [apply good_done|]. apply good_if; [apply good_done|].
  apply good_step; [apply good_material|]. intros t. apply good_step; [apply good_tree|]. intros [t0 sa].
  apply good_step; [apply good_tree|]. intros [t1 sb]. apply good_fold. intros path sc. unfold scan_path.
  apply good_if; [apply good_done|]. apply good_if; [apply good_done|]. apply good_step; [apply good_side|].
  intros sd. apply good_side.
Qed.
Lemma good_push baseRef : good (PushTripwireMaterial app inst bounds req baseRef).
Proof.
  apply good_andThen; [|intros; apply good_done]. unfold scan_push. apply good_step.
  { unfold base_of. apply good_if; [apply good_done|]. apply good_andThen; [apply good_ref|intros; apply good_done]. }
  intros before. apply good_step; [apply good_material|]. intros cmp. destruct (check_comparison _ _ _); [|apply good_done].
  apply good_fold. apply good_commit.
Qed.
End Material.

(** ** Histories *)

Inductive github_call :=
| Reads (app : string) (inst : Z) (c : read_call) | Changes (m : mutation) | Refs (app repo ref : string) (inst : Z)
| Runs (app repo : string) (inst : Z) (sha : string) | Rules (app repo branch : string) (inst : Z)
| Protection (app repo branch : string) (inst : Z)
| PushMaterial (app : string) (inst : Z) (bounds : PushTripwireBounds) (req : MaterialRequest) (baseRef : string).

Section Histories.
Context `{G : GitHub} {B P R : Type} `{Dec : Decoders B P R} `{MD : MaterialDecoders}.

Definition forget_answer {A} (m : prog client A) : prog client unit := _ <-! m ;; done ().

Definition run_call (c : github_call) : prog client unit :=
  match c with
  | Reads app inst c => forget_answer (perform_read app inst c)
  | Changes m => forget_answer (perform m)
  | Refs app repo ref inst => forget_answer (GetRef app repo ref inst)
  | Runs app repo inst sha => forget_answer (ListWorkflowRuns app repo inst sha)
  | Rules app repo branch inst => forget_answer (BranchRules app repo branch inst)
  | Protection app repo branch inst => forget_answer (BranchProtection app repo branch inst)
  | PushMaterial app inst bounds req baseRef => forget_answer (PushTripwireMaterial app inst bounds req baseRef)
  end.

Definition new_client : client := {| g_tokens := ∅; g_log := [] |}.

(** A process that dies loses its tokens. *)
Fixpoint history (k : nat) (w : client) (cs : list github_call) : nat * client :=
  match cs with
  | [] => (k, w)
  | c :: cs =>
    match run_call c k w with
    | (k, w, Some _) => history k w cs
    | (k, w, None) => history k {| g_tokens := ∅; g_log := g_log w |} cs
    end
  end.

Lemma good_call c : good (run_call c).
Proof.
  destruct c; cbn [run_call]; (apply good_andThen; [|intros; apply good_done]);
    [apply good_read|apply good_perform|apply good_ref| | | |apply good_push].
  - apply good_try; [apply good_get|]. intros [total runs]. apply good_done.
  - apply good_andThen; [apply good_get|intros; apply good_done].
  - apply good_andThen; [apply good_get|intros; apply good_done].
Qed.

Lemma client_history_inv cs k w : Inv w → Inv (history k w cs).2.
Proof.
  revert k w. induction cs as [|c cs IH]; intros k w Hi; cbn; [done|].
  pose proof (good_call c k w) as Hc. destruct (run_call c k w) as [[k' w'] [[]|]]; destruct Hc as [_ Hc]; apply IH; [by apply Hc|].
  by split; [apply Hc|].
Qed.
End Histories.

(** C6: over every history of the client's calls, whatever GitHub answers, the
    clock says and whenever the process dies: every exchange is for a configured
    app, with a JWT of at most ten minutes; every request of the API goes to the
    configured base URL and carries a token that GitHub issued for its very app
    and installation, and that was good for another minute at that time or had
    been issued just before; and every request for a log goes over https to a
    host that the check of hosts accepts. *)
Theorem tokens_confined `{G : GitHub} {B P R : Type} `{Dec : Decoders B P R} `{MD : MaterialDecoders} k cs :
  ordered (g_log (history k new_client cs).2).
Proof. apply client_history_inv. by split. Qed.
