(* ===== verification/GitHubPush.v ===== *)
(** * The material of a push is complete, or empty with a reason

    What PushTripwireMaterial answers is compared with a reference: the changes
    of each listed commit against its first parent, computed from the trees that
    GitHub gave, in the order of their paths. *)

From S2P Require Import Prelude GoStrings GoTime Net Url Process ReadAccess PushTripwire GitHubApi RepoApi GitHubClient GitHubCalls GitHubMaterial GitHubOrder.
Open Scope string_scope.
Open Scope list_scope.
Open Scope Z_scope.

(** ** base64 *)

Lemma sextet_char_ok n : 0 ≤ n < 64 →
  sextet (sextet_char n) = Some n ∧ Ascii.eqb (sextet_char n) "=" = false ∧ is_newline (sextet_char n) = false.
Proof.
  intros Hn. assert (n ∈ seqZ 0 64) as Hin by (apply elem_of_seqZ; lia).
  assert (forallb (λ n, bool_decide (sextet (sextet_char n) = Some n) && negb (Ascii.eqb (sextet_char n) "=")
    && negb (is_newline (sextet_char n))) (seqZ 0 64) = true) as H by (by vm_compute).
  rewrite forallb_forall in H. specialize (H n (proj1 (list_elem_of_In _ _) Hin)).
  rewrite !andb_true_iff, bool_decide_eq_true, !negb_true_iff in H. tauto.
Qed.

(** A byte in two parts. *)
Lemma byte_parts c n m : 0 < n → n * m = 256 →
  let x := Z.of_nat (code c) in x = x / n * n + x mod n ∧ 0 ≤ x / n < m ∧ 0 ≤ x mod n < n.
Proof.
  intros Hn Hm x. assert (0 ≤ x < 256) as Hx by (subst x; unfold code; pose proof (nat_ascii_bounded c); lia).
  pose proof (Z.div_mod x n). pose proof (Z.mod_pos_bound x n). split_and!; [lia|apply Z.div_pos; lia|apply Z.div_lt_upper_bound; lia|lia|lia].
Qed.

Lemma div_join a b n : 0 ≤ b < n → (a * n + b) / n = a.
Proof. intros Hb. rewrite Z.div_add_l, Z.div_small; lia. Qed.

Lemma byte_back c a : byte (a * 256 + Z.of_nat (code c)) = c.
Proof.
  pose proof (nat_ascii_bounded c) as Hc. unfold byte, code. rewrite Z.add_comm, Z_mod_plus_full, Z.mod_small by lia.
  rewrite Nat2Z.id. apply ascii_nat_embedding.
Qed.

(** The bytes that a quantum's sextets give back. *)
Lemma first_byte a s : 0 ≤ s < 16 →
  byte (byte_of a / 4 * 4 + (byte_of a mod 4 * 16 + s) / 16) = a.
Proof.
  intros Hs. unfold byte_of. destruct (byte_parts a 4 64) as (E & _ & _); [done|done|]. rewrite div_join, <- E by done. apply (byte_back a 0).
Qed.
Lemma second_byte b r s : 0 ≤ s < 4 →
  byte ((r * 16 + byte_of b / 16) * 16 + (byte_of b mod 16 * 4 + s) / 4) = b.
Proof.
  intros Hs. unfold byte_of. destruct (byte_parts b 16 16) as (E & _ & _); [done|done|]. rewrite div_join by done.
  rewrite <- (byte_back b r) at 3. f_equal. lia.
Qed.
Lemma third_byte c r : byte ((r * 4 + byte_of c / 64) * 64 + byte_of c mod 64) = c.
Proof.
  unfold byte_of. destruct (byte_parts c 64 4) as (E & _ & _); [done|done|]. rewrite <- (byte_back c r) at 3. f_equal. lia.
Qed.

Lemma decode_encode l :
  decode_quanta (encode_quanta l) = Some l ∧
  List.filter (λ c, negb (is_newline c)) (encode_quanta l) = encode_quanta l.
Proof.
  induction l as [l IH] using (induction_ltof1 _ (@length ascii)); unfold ltof in IH.
  destruct l as [|a l]; [done|]. destruct (byte_parts a 4 64) as (_ & Ha & Ha'); [done..|]. fold (byte_of a) in Ha, Ha'.
  destruct (sextet_char_ok (byte_of a / 4)) as (E1 & N1 & F1); [done|].
  destruct l as [|b l].
  { destruct (sextet_char_ok (byte_of a mod 4 * 16)) as (E2 & N2 & F2); [lia|].
    cbn [encode_quanta decode_quanta List.filter]. rewrite E1, E2, F1, F2. cbn. split; [|done].
    do 2 f_equal. rewrite <- (Z.add_0_r (byte_of a mod 4 * 16)). by apply first_byte. }
  destruct (byte_parts b 16 16) as (_ & Hb & Hb'); [done..|]. fold (byte_of b) in Hb, Hb'.
  destruct (sextet_char_ok (byte_of a mod 4 * 16 + byte_of b / 16)) as (E2 & N2 & F2); [lia|].
  destruct l as [|c l].
  { destruct (sextet_char_ok (byte_of b mod 16 * 4)) as (E3 & N3 & F3); [lia|].
    cbn [encode_quanta decode_quanta List.filter]. rewrite E1, E2, E3, N3, F1, F2, F3. cbn. split; [|done].
    rewrite first_byte by done. do 3 f_equal. rewrite <- (Z.add_0_r (byte_of b mod 16 * 4)). by apply second_byte. }
  destruct (byte_parts c 64 4) as (_ & Hc & Hc'); [done..|]. fold (byte_of c) in Hc, Hc'.
  destruct (sextet_char_ok (byte_of b mod 16 * 4 + byte_of c / 64)) as (E3 & N3 & F3); [lia|].
  destruct (sextet_char_ok (byte_of c mod 64)) as (E4 & N4 & F4); [done|]. destruct (IH l) as [IHd IHf]; [cbn; lia|].
  cbn [encode_quanta decode_quanta List.filter]. rewrite E1, E2, E3, E4, N3, N4, F1, F2, F3, F4, IHd, IHf. cbn. split; [|done].
  by rewrite first_byte, second_byte, third_byte.
Qed.

Lemma base64_roundtrip s : base64_decode (base64_encode s) = Some s.
Proof.
  unfold base64_decode, base64_encode, text, chars. rewrite String.list_ascii_of_string_of_list_ascii.
  destruct (decode_encode (String.list_ascii_of_string s)) as [Hd ->]. rewrite Hd. cbn. by rewrite String.string_of_list_ascii_of_string.
Qed.

(** ** The reference *)

(** The sides of a path that differ: commit, path, side, status and blob. *)
Definition side := (string * string * string * string * string)%type.
Definition side_of_file (f : File) : side := (f_CommitSHA f, f_Path f, f_Side f, f_Status f, f_BlobSHA f).

Definition node_side (commit path name status : string) (node : option treeNode) : list side :=
  match node with Some n => [(commit, path, name, status, n_SHA n)] | None => [] end.

Definition sides (commit : string) (t0 t1 : gmap string treeNode) (path : string) : list side :=
  let before := t0 !! path in
  let after := t1 !! path in
  let status := path_status before after in
  if unchanged before after then []
  else node_side commit path "before" status before ++ node_side commit path "after" status after.

Definition changes (commit : string) (t0 t1 : gmap string treeNode) : list side :=
  flat_map (sides commit t0 t1) (all_paths t0 t1).

(** Every change is that of a blob. *)
Definition only_blobs (t0 t1 : gmap string treeNode) (path : string) : Prop :=
  unchanged (t0 !! path) (t1 !! path) = true ∨ not_blob (t0 !! path) = false ∧ not_blob (t1 !! path) = false.

Fixpoint sum_Z (l : list Z) : Z := match l with [] => 0 | x :: l => x + sum_Z l end.
Definition message_bytes (c : Commit) : Z := Z.of_nat (String.length (c_Message c)).
Definition weight (commits : list Commit) (files : list File) : Z :=
  sum_Z (map message_bytes commits) + sum_Z (map f_Size files).

Lemma sum_app l l' : sum_Z (l ++ l') = sum_Z l + sum_Z l'.
Proof. induction l as [|x l IH]; cbn; [done|]. rewrite IH. lia. Qed.
Lemma weight_commit cs fs c : weight (cs ++ [c]) fs = weight cs fs + message_bytes c.
Proof. unfold weight. rewrite map_app, sum_app. cbn. lia. Qed.
Lemma weight_file cs fs f : weight cs (fs ++ [f]) = weight cs fs + f_Size f.
Proof. unfold weight. rewrite map_app, sum_app. cbn. lia. Qed.

Section Push.
Context `{G : GitHub} {B P R : Type} `{Dec : Decoders B P R} `{MD : MaterialDecoders}.
Variables (app : string) (inst : Z) (bounds : PushTripwireBounds) (req : MaterialRequest).
Implicit Types (l : list gh_event) (w : client).

(** What GitHub said a tree and a blob are. *)
Definition read_tree l (sha : string) (t : gmap string treeNode) : Prop := ∃ body tr,
  Got (tree_path req sha) body ∈ l ∧ d_tree body = Some tr ∧ Truncated tr = false ∧
  forallb valid_node (Nodes tr) = true ∧ t = tree_map (Nodes tr).

Definition read_blob l (sha content : string) (size : Z) : Prop := ∃ body b bytes,
  Got (blob_path req sha) body ∈ l ∧ d_blob body = Some b ∧ b_Encoding b = "base64" ∧
  base64_decode (without_newlines (b_Content b)) = Some bytes ∧ content = base64_encode bytes ∧ base64_decode content = Some bytes ∧
  size = Z.of_nat (String.length bytes) ∧ b_Size b = size ∧ size ≤ MaxBlobBytes bounds.

Definition file_read l (f : File) : Prop := read_blob l (f_BlobSHA f) (ContentBase64 f) (f_Size f).

(** A listed commit, its message, and all that it changed. *)
Definition explained l (listed : string) (c : Commit) (files : list File) : Prop := ∃ body k parent rest pbody ptree t0 t1,
  Got (commit_path req listed) body ∈ l ∧ d_commit body = Some k ∧ k_SHA k = listed ∧ k_Parents k = parent :: rest ∧
  Got (commit_path req parent) pbody ∈ l ∧ d_parent pbody = Some ptree ∧
  read_tree l ptree t0 ∧ read_tree l (k_Tree k) t1 ∧
  c = {| c_SHA := listed; c_Message := k_Message k |} ∧ message_bytes c ≤ MaxCommitMessageBytes bounds ∧
  map side_of_file files = changes listed t0 t1 ∧ Forall (file_read l) files ∧
  Forall (only_blobs t0 t1) (all_paths t0 t1).

Definition whole l (baseRef : string) (out : MaterialResponse) : Prop := ∃ before cbody cmp parts,
  (if created req then ∃ path rbody, Got path rbody ∈ l ∧ d_ref rbody = Some before else before = m_Before req) ∧
  Got (compare_path bounds req before) cbody ∈ l ∧ d_compare cbody = Some cmp ∧
  TotalCommits cmp = Z.of_nat (length (cmp_Commits cmp)) ∧ last (cmp_Commits cmp) = Some (m_After req) ∧
  Forall2 (λ listed part, explained l listed part.1 part.2) (cmp_Commits cmp) parts ∧
  Commits out = map fst parts ∧ Files out = concat (map snd parts) ∧
  mt_Bounds out = {| CommitCount := Z.of_nat (length (Commits out)); PathCount := Z.of_nat (length (Files out));
                     TotalBytes := weight (Commits out) (Files out) |} ∧
  CommitCount (mt_Bounds out) ≤ MaxCommits bounds ∧ PathCount (mt_Bounds out) ≤ Z.max 0 (MaxPaths bounds) ∧
  TotalBytes (mt_Bounds out) ≤ Z.max 0 (MaxTotalBytes bounds).

(** ** Growing logs *)

Definition within l l' : Prop := ∀ e, e ∈ l → e ∈ l'.
Lemma grows_within w w' : grows w w' → within (g_log w) (g_log w').
Proof. intros Hg e. by apply grows_in. Qed.

Lemma read_tree_mono l l' sha t : within l l' → read_tree l sha t → read_tree l' sha t.
Proof. intros Hw (body & tr & Hin & ?). exists body, tr. split; [by apply Hw|done]. Qed.
Lemma read_blob_mono l l' sha c n : within l l' → read_blob l sha c n → read_blob l' sha c n.
Proof. intros Hw (body & b & bytes & Hin & ?). exists body, b, bytes. split; [by apply Hw|done]. Qed.
Lemma files_mono l l' fs : within l l' → Forall (file_read l) fs → Forall (file_read l') fs.
Proof. intros Hw Hf. eapply Forall_impl; [exact Hf|]. intros f. by apply read_blob_mono. Qed.
Lemma explained_mono l l' listed c fs : within l l' → explained l listed c fs → explained l' listed c fs.
Proof.
  intros Hw (body & k & parent & rest & pbody & ptree & t0 & t1 & H1 & H2 & H3 & H4 & H5 & H6 & H7 & H8 & H9 & H10 & H11 & H12 & H13).
  exists body, k, parent, rest, pbody, ptree, t0, t1.
  split_and!; first [done | by apply Hw | by eapply read_tree_mono | by eapply files_mono].
Qed.

(** ** Steps *)

(** A step ends with a reason or with what [Q] says, and only adds to the log. *)
Definition leads {A} (m : prog client (result string A)) (Q : A → client → Prop) (w : client) : Prop :=
  wp (λ _, True) m (λ r w', grows w w' ∧ match r with Ok a => Q a w' | Err code => code ≠ "" end) w.

Lemma leads_ok {A} (a : A) (Q : A → client → Prop) w : Q a w → leads (done (Ok a)) Q w.
Proof. intros H. apply wp_done. split; [apply log_refl|done]. Qed.
Lemma leads_err {A} code (Q : A → client → Prop) w : code ≠ "" → leads (done (Err code)) Q w.
Proof. intros H. apply wp_done. split; [apply log_refl|done]. Qed.
Lemma leads_try {A C} (m : prog client (result string A)) (f : A → prog client (result string C)) Q Q' w :
  leads m Q w → (∀ a w', grows w w' → Q a w' → leads (f a) Q' w') → leads (try m f) Q' w.
Proof.
  intros Hm Hf. apply wp_try. eapply wp_mono; [exact Hm|done|]. intros [a|code] w1 [Hg HQ]; [|done].
  eapply wp_mono; [by apply (Hf a w1)|done|]. intros r w2 [Hg2 H2]. split; [by eapply log_trans|done].
Qed.
Lemma leads_mono {A} (m : prog client (result string A)) (Q Q' : A → client → Prop) w :
  leads m Q w → (∀ a w', grows w w' → Q a w' → Q' a w') → leads m Q' w.
Proof.
  intros Hm HQ. eapply wp_mono; [exact Hm|done|]. intros [a|code] w' [Hg H]; split; auto.
Qed.

(** ** Calls *)

Lemma leads_get {A} (parse : string → option A) path w :
  leads (material app inst parse path) (λ a w', ∃ body, Got path body ∈ g_log w' ∧ parse body = Some a) w.
Proof.
  intros k. unfold material, get, doJSON, doJSONStatus.
  pose proof (good_authorized app inst "GET" (api_url path) None (or_introl (ex_intro _ path eq_refl)) k w) as Hg.
  unfold andThen. destruct (authorized _ _ _ _ _ k w) as [[k1 w1] [[resp|e]|]]; destruct Hg as [Hg _]; [|by split|done].
  destruct (successful _ resp) as [body|e]; cbn; [|by split].
  assert (grows w (log (Got path body) w1)) by (by eapply log_trans, grows_log).
  destruct (parse body) as [a|] eqn:E; split; try done. exists body. split; [by left|done].
Qed.

(** GetRef's answer, when the push creates the branch. *)
Lemma leads_base baseRef w :
  leads (base_of app inst req baseRef) (λ before w',
    if created req then ∃ path body, Got path body ∈ g_log w' ∧ d_ref body = Some before else before = m_Before req) w.
Proof.
  unfold base_of. destruct (created req); cbn [negb]; [|by apply leads_ok].
  intros k. unfold GetRef. destruct (negb _); [by split; [apply log_refl|]|].
  unfold andThen, try, get, doJSON, doJSONStatus.
  set (path := repo_path _ +:+ _).
  pose proof (good_authorized app inst "GET" (api_url path) None (or_introl (ex_intro _ path eq_refl)) k w) as Hg.
  unfold andThen. destruct (authorized _ _ _ _ _ k w) as [[k1 w1] [[resp|e]|]]; destruct Hg as [Hg _];
    [|by cbn; destruct (not_found e)|done].
  destruct (successful _ resp) as [body|e]; cbn; [|by destruct (not_found e)].
  assert (grows w (log (Got path body) w1)) by (by eapply log_trans, grows_log).
  destruct (d_ref body) as [sha|] eqn:E; [|by split]. cbn. destruct (is_sha sha); [|by split].
  split; [done|]. exists path, body. split; [by left|done].
Qed.

(** ** What the loops keep *)

Record kept (commits : list Commit) (files : list File) (s : scan) (w : client) : Prop := {
  kp_commits : s_commits s = commits;
  kp_files : s_files s = files;
  kp_changed : s_changed s = Z.of_nat (length files);
  kp_total : s_total s = weight commits files;
  kp_paths : Z.of_nat (length files) ≤ Z.max 0 (MaxPaths bounds);
  kp_bytes : weight commits files ≤ Z.max 0 (MaxTotalBytes bounds);
  kp_trees : ∀ sha t, s_trees s !! sha = Some t → read_tree (g_log w) sha t;
  kp_blobs : ∀ sha c n, s_blobs s !! sha = Some (c, n) → read_blob (g_log w) sha c n }.

Lemma kept_mono cs fs s w w' : grows w w' → kept cs fs s w → kept cs fs s w'.
Proof.
  intros Hg []. pose proof (grows_within w w' Hg) as Hw.
  split; try done; intros; [eapply read_tree_mono|eapply read_blob_mono]; eauto.
Qed.

Lemma leads_tree sha cs fs s w : kept cs fs s w →
  leads (loadTree app inst req sha s) (λ r w', kept cs fs r.2 w' ∧ read_tree (g_log w') sha r.1) w.
Proof.
  intros Hk. unfold loadTree. destruct (s_trees s !! sha) as [t|] eqn:E.
  { apply leads_ok. split; [done|]. by apply Hk. }
  destruct (is_sha sha); cbn [negb]; [|by apply leads_err]. eapply leads_try; [apply leads_get|]. cbn.
  intros tr w1 Hg (body & Hin & Hd). destruct (Truncated tr) eqn:Et; [by apply leads_err|].
  destruct (forallb valid_node (Nodes tr)) eqn:Ev; cbn [negb]; [|by apply leads_err]. apply leads_ok. cbn.
  assert (read_tree (g_log w1) sha (tree_map (Nodes tr))) as Hr by (exists body, tr; by split_and!).
  split; [|done]. apply (kept_mono _ _ _ w w1 Hg) in Hk. destruct Hk. split; try done.
  intros sha' t. cbn. by intros [[<- <-]|[_ Ht]]%lookup_insert_Some; [|apply kp_trees0].
Qed.

Lemma leads_blob sha cs fs s w : kept cs fs s w →
  leads (loadBlob app inst bounds req sha s) (λ r w', kept cs fs r.2 w' ∧ read_blob (g_log w') sha r.1.1 r.1.2) w.
Proof.
  intros Hk. unfold loadBlob. destruct (s_blobs s !! sha) as [[c n]|] eqn:E.
  { apply leads_ok. split; [done|]. by apply Hk. }
  destruct (is_sha sha); cbn [negb]; [|by apply leads_err]. eapply leads_try; [apply leads_get|]. cbn.
  intros b w1 Hg (body & Hin & Hd). unfold blob_content.
  destruct (_ || _ || _) eqn:El; [by apply leads_err|]. bool_hyps.
  destruct (base64_decode _) as [bytes|] eqn:Eb; [|by apply leads_err].
  destruct (Z.eqb_spec (Z.of_nat (String.length bytes)) (b_Size b)) as [Es|]; cbn [negb]; [|by apply leads_err].
  apply leads_ok. cbn. assert (read_blob (g_log w1) sha (base64_encode bytes) (Z.of_nat (String.length bytes))) as Hr.
  { exists body, b, bytes. split_and!; first [done | lia | apply base64_roundtrip]. }
  split; [|done]. apply (kept_mono _ _ _ w w1 Hg) in Hk. destruct Hk. split; try done.
  intros sha' c n. cbn. by intros [[<- [= <- <-]]|[_ Ht]]%lookup_insert_Some; [|apply kp_blobs0].
Qed.

(** Files added to [fs]: the sides [keys], with contents as GitHub gave them. *)
Definition added (cs : list Commit) (fs : list File) (keys : list side) (s : scan) (w : client) : Prop := ∃ new,
  kept cs (fs ++ new) s w ∧ map side_of_file new = keys ∧ Forall (file_read (g_log w)) new.

Lemma added_nil cs fs s w : kept cs fs s w → added cs fs [] s w.
Proof. intros Hk. exists []. by rewrite app_nil_r. Qed.

(** A step that adds to what was added. *)
Lemma leads_added {A} (m : prog client (result string scan)) (f : scan → prog client (result string A)) cs fs k1 Q w :
  leads m (added cs fs k1) w →
  (∀ new s w', grows w w' → kept cs (fs ++ new) s w' → map side_of_file new = k1 → Forall (file_read (g_log w')) new →
    leads (f s) Q w') → leads (try m f) Q w.
Proof. intros Hm Hf. eapply leads_try; [exact Hm|]. intros s w' Hg (new & Hk & Hm' & Hr). by eapply Hf. Qed.

Lemma added_trans cs fs n1 keys s w w' :
  grows w w' → Forall (file_read (g_log w)) n1 → added cs (fs ++ n1) keys s w' →
  added cs fs (map side_of_file n1 ++ keys) s w'.
Proof.
  intros Hg Hr (n2 & Hk & Hm & Hr2). exists (n1 ++ n2). rewrite app_assoc, map_app, Hm. split_and!; [done|done|].
  apply Forall_app. split; [|done]. eapply files_mono; [by apply grows_within|done].
Qed.

Lemma leads_side c path name status node cs fs s w : kept cs fs s w →
  leads (side_of app inst bounds req c path name status node s)
    (added cs fs (node_side c path name status node)) w.
Proof.
  intros Hk. unfold side_of, node_side. destruct node as [n|]; [|by apply leads_ok, added_nil].
  destruct (Z.ltb_spec (MaxPaths bounds) (s_changed s + 1)); [by apply leads_err|].
  eapply leads_try; [by apply leads_blob|]. intros [[content size] s'] w1 Hg [Hk' Hr]. cbn in Hk', Hr |- *.
  destruct (Z.ltb_spec (MaxTotalBytes bounds) (s_total s' + size)); [by apply leads_err|]. apply leads_ok.
  set (file := {| f_CommitSHA := c; f_Path := path; f_Side := name; f_Status := status; f_BlobSHA := n_SHA n;
                  f_Size := size; ContentBase64 := content |}).
  exists [file]. split_and!; [|done|by apply Forall_singleton].
  pose proof (kp_changed _ _ _ _ Hk) as Hc. destruct Hk'.
  split; cbn; rewrite ?length_app, ?weight_file; cbn; try done; [by rewrite kp_files0|lia|by rewrite kp_total0|lia|lia].
Qed.

Lemma leads_path c t0 t1 path cs fs s w : kept cs fs s w →
  leads (scan_path app inst bounds req c t0 t1 path s)
    (λ s' w', added cs fs (sides c t0 t1 path) s' w' ∧ only_blobs t0 t1 path) w.
Proof.
  intros Hk. unfold scan_path, sides, only_blobs. cbv zeta. destruct (unchanged _ _).
  { apply leads_ok. split; [by apply added_nil|by left]. }
  destruct (not_blob (t0 !! path)) eqn:E0; [by apply leads_err|]. destruct (not_blob (t1 !! path)) eqn:E1; [by apply leads_err|]. cbn [orb].
  eapply leads_added; [by apply leads_side|]. intros new s1 w1 Hg Hk1 Hm Hr.
  eapply leads_mono; [by apply leads_side|]. intros s2 w2 Hg2 Ha. split; [|by right].
  rewrite <- Hm. by eapply added_trans.
Qed.

Lemma leads_paths c t0 t1 paths cs fs s w : kept cs fs s w →
  leads (fold_step (scan_path app inst bounds req c t0 t1) paths s)
    (λ s' w', added cs fs (flat_map (sides c t0 t1) paths) s' w' ∧ Forall (only_blobs t0 t1) paths) w.
Proof.
  revert fs s w. induction paths as [|path paths IH]; intros fs s w Hk; cbn.
  { apply leads_ok. split; [by apply added_nil|done]. }
  eapply leads_try; [by apply leads_path|]. intros s1 w1 Hg [(new & Hk1 & Hm & Hr) Hb].
  eapply leads_mono; [by apply IH|]. intros s2 w2 Hg2 [Ha Hbs]. split; [|by constructor].
  rewrite <- Hm. by eapply added_trans.
Qed.

Lemma kept_commit cs fs s w c : kept cs fs s w →
  weight cs fs + message_bytes c ≤ MaxTotalBytes bounds → kept (cs ++ [c]) fs (add_commit c s) w.
Proof.
  intros [] Hb. split; cbn; try done; [by rewrite kp_commits0| |]; rewrite weight_commit; [by rewrite kp_total0|lia].
Qed.

Lemma leads_commit listed cs fs s w : kept cs fs s w →
  leads (scan_commit app inst bounds req listed s)
    (λ s' w', ∃ c new, kept (cs ++ [c]) (fs ++ new) s' w' ∧ explained (g_log w') listed c new) w.
Proof.
  intros Hk. unfold scan_commit. destruct (is_sha listed); cbn [negb]; [|by apply leads_err].
  eapply leads_try; [apply leads_get|]. cbn. intros k w1 Hg1 (body & Hin & Hd).
  destruct (k_Parents k) as [|parent rest] eqn:Ep; [by apply leads_err|].
  destruct (String.eqb_spec (k_SHA k) listed) as [El|]; cbn [negb orb]; [|by apply leads_err].
  destruct (Z.ltb_spec (MaxCommitMessageBytes bounds) (Z.of_nat (String.length (k_Message k)))); [by apply leads_err|].
  rewrite (kp_total _ _ _ _ Hk). destruct (Z.ltb_spec (MaxTotalBytes bounds) (weight cs fs + Z.of_nat (String.length (k_Message k)))); [by apply leads_err|].
  set (c := {| c_SHA := k_SHA k; c_Message := k_Message k |}).
  assert (kept (cs ++ [c]) fs (add_commit c s) w1) as Hk1 by (apply kept_commit; [by eapply kept_mono|done]).
  eapply leads_try; [apply leads_get|]. cbn. intros ptree w2 Hg2 (pbody & Hpin & Hpd).
  eapply leads_try; [apply leads_tree, (kept_mono _ _ _ w1 w2 Hg2 Hk1)|]. intros [t0 sa] w3 Hg3 [Hk3 Ht0].
  eapply leads_try; [by apply leads_tree|]. intros [t1 sb] w4 Hg4 [Hk4 Ht1]. cbn in Hk3, Ht0, Hk4, Ht1.
  eapply leads_mono; [by apply leads_paths|]. intros s' w5 Hg5 [(new & Hk5 & Hm & Hr) Hb]. exists c, new. split; [done|].
  assert (within (g_log w1) (g_log w5)) as Hw1 by (apply grows_within; eauto using log_trans).
  assert (within (g_log w2) (g_log w5)) as Hw2 by (apply grows_within; eauto using log_trans).
  assert (within (g_log w3) (g_log w5)) as Hw3 by (apply grows_within; eauto using log_trans).
  exists body, k, parent, rest, pbody, ptree, t0, t1. unfold c, changes. rewrite El in Hm |- *.
  split_and!; first [done | by apply Hw1 | by apply Hw2 | by eapply read_tree_mono, Ht0 | by eapply read_tree_mono, Ht1; apply grows_within].
Qed.

Definition explained_by l (listed : string) (part : Commit * list File) : Prop := explained l listed part.1 part.2.

Lemma leads_commits commits parts0 s w :
  kept (map fst parts0) (concat (map snd parts0)) s w →
  leads (fold_step (scan_commit app inst bounds req) commits s) (λ s' w', ∃ parts,
    kept (map fst (parts0 ++ parts)) (concat (map snd (parts0 ++ parts))) s' w' ∧
    Forall2 (explained_by (g_log w')) commits parts) w.
Proof.
  revert parts0 s w. induction commits as [|listed commits IH]; intros parts0 s w Hk; cbn [fold_step].
  { apply leads_ok. exists []. by rewrite app_nil_r. }
  eapply leads_try; [by apply leads_commit|]. intros s1 w1 Hg (c & new & Hk1 & He).
  eapply leads_mono; [apply (IH (parts0 ++ [(c, new)]))|].
  { rewrite !map_app, concat_app. cbn. by rewrite app_nil_r. }
  intros s2 w2 Hg2 (parts & Hk2 & Hf). exists ((c, new) :: parts). rewrite <- app_assoc in Hk2. split; [done|].
  constructor; [|done]. eapply explained_mono; [by apply grows_within|done].
Qed.

Lemma kept_start w : kept [] [] no_scan w.
Proof. split; try done; unfold weight; cbn; lia. Qed.

Lemma check_comparison_ok cmp commits : check_comparison bounds req cmp = Ok commits →
  commits = cmp_Commits cmp ∧ TotalCommits cmp = Z.of_nat (length commits) ∧ last commits = Some (m_After req) ∧
  Z.of_nat (length commits) ≤ MaxCommits bounds.
Proof.
  unfold check_comparison. cbv zeta. rewrite !fail_if_ok. intros (H1 & H2 & H3 & [= <-]).
  apply orb_false_iff in H1 as [_ H1%Z.ltb_ge]. apply negb_false_iff, Z.eqb_eq in H2. apply orb_false_iff in H3 as [_ H3].
  split_and!; [done|done| |done]. by apply negb_false_iff, bool_decide_eq_true in H3.
Qed.

Lemma check_comparison_reason cmp code : check_comparison bounds req cmp = Err code → code ≠ "".
Proof. unfold check_comparison. cbv zeta. repeat (destruct (_ : bool); [by intros [= <-]|]). done. Qed.

Lemma leads_push baseRef w :
  leads (scan_push app inst bounds req baseRef) (λ s w', ∃ before cbody cmp parts,
    (if created req then ∃ path body, Got path body ∈ g_log w' ∧ d_ref body = Some before else before = m_Before req) ∧
    Got (compare_path bounds req before) cbody ∈ g_log w' ∧ d_compare cbody = Some cmp ∧
    check_comparison bounds req cmp = Ok (cmp_Commits cmp) ∧
    kept (map fst parts) (concat (map snd parts)) s w' ∧ Forall2 (explained_by (g_log w')) (cmp_Commits cmp) parts) w.
Proof.
  unfold scan_push. eapply leads_try; [apply leads_base|]. intros before w1 Hg1 Hb.
  eapply leads_try; [apply leads_get|]. cbn. intros cmp w2 Hg2 (cbody & Hin & Hd).
  destruct (check_comparison bounds req cmp) as [commits|code] eqn:Ec; [|by apply leads_err, (check_comparison_reason cmp)].
  destruct (check_comparison_ok _ _ Ec) as (-> & _).
  eapply leads_mono; [apply (leads_commits _ []), kept_start|]. intros s w3 Hg3 (parts & Hk & Hf).
  exists before, cbody, cmp, parts. split_and!; try done; [|by eapply grows_in].
  destruct (created req); [|done]. destruct Hb as (path & body & Hin' & ?). exists path, body.
  split; [|done]. eapply grows_in; [|done]. by eapply log_trans.
Qed.

(** C25: whatever GitHub answers, the material of a push is either empty, with
    a reason and no counts, or complete: its commits are those of GitHub's
    comparison up to the pushed commit, all of them, in order, and its files are,
    commit by commit, every side of every path that differs between the trees
    GitHub gave for the commit and its first parent, each with the content GitHub
    gave for its blob; the counts are those of what is emitted, and within the
    bounds. *)
Theorem material_faithful baseRef w :
  wp (λ _, True) (PushTripwireMaterial app inst bounds req baseRef) (λ out w',
    mt_Request out = about req ∧
    if Complete out then mt_ReasonCode out = "" ∧ whole (g_log w') baseRef out
    else mt_ReasonCode out ≠ "" ∧ mt_Bounds out = no_bounds ∧ Commits out = [] ∧ Files out = []) w.
Proof.
  apply wp_andThen. eapply wp_mono; [apply leads_push|done|]. intros [s|code] w1 [Hg H]; apply wp_done; [|done].
  destruct H as (before & cbody & cmp & parts & Hb & Hin & Hd & Hc & Hk & Hf).
  destruct (check_comparison_ok _ _ Hc) as (_ & Ht & Hl & Hn). split; [done|]. split; [done|].
  exists before, cbody, cmp, parts. pose proof (Forall2_length _ _ _ Hf) as Hlen. destruct Hk. cbn.
  rewrite kp_commits0, kp_files0, kp_changed0, kp_total0, length_map. split_and!; try done; lia.
Qed.
End Push.
