(* ===== verification/GitHubEvidence.v ===== *)
(** * Pages of annotations

    ListCheckRunAnnotations asks for page after page until one is not full.  Its
    fuel is enough, and what it answers is every annotation of every page it was
    given, within the bounds: never a part of them. *)

From S2P Require Import Prelude GoStrings GoTime Net Url Process ReadAccess GitHubApi RepoApi GitHubClient GitHubCalls GitHubMaterial GitHubOrder.
Open Scope string_scope.
Open Scope list_scope.
Open Scope Z_scope.

Fixpoint annotation_bytes (l : list CheckAnnotation) : Z :=
  match l with [] => 0 | a :: l => Z.of_nat (String.length (marshal_annotation a)) + annotation_bytes l end.

Lemma collect_ok maxItems maxBytes used all batch used' all' :
  0 ≤ used ≤ maxBytes → len all ≤ maxItems → collect maxItems maxBytes used all batch = Some (used', all') →
  all' = all ++ batch ∧ used' = used + annotation_bytes batch ∧ 0 ≤ used' ≤ maxBytes ∧ len all' ≤ maxItems.
Proof.
  revert used all. induction batch as [|a batch IH]; intros used all Hu Hl; cbn [collect annotation_bytes].
  { intros [= <- <-]. rewrite app_nil_r. split_and!; [done|lia|lia|lia|done]. }
  destruct (Z.eqb_spec (len all) maxItems); cbn [orb]; [done|].
  destruct (Z.ltb_spec maxBytes (used + Z.of_nat (String.length (marshal_annotation a)))); [done|]. intros Hc.
  apply IH in Hc as (-> & -> & ? & ?); [|lia|unfold len in *; rewrite length_app; cbn; lia].
  rewrite <- app_assoc in *. split_and!; [done|lia..|done].
Qed.

Section Annotations.
Context `{G : GitHub} {B P R : Type} `{Dec : Decoders B P R}.
Variables (app repo : string) (inst runID maxItems maxBytes : Z).

Notation from fuel := (annotations_from fuel app repo inst runID maxItems maxBytes).

Lemma andThen_ext {A C} (m : prog client A) (f g : A → prog client C) k w :
  (∀ a k w, f a k w = g a k w) → andThen m f k w = andThen m g k w.
Proof. intros H. unfold andThen. destruct (m k w) as [[k' w'] [a|]]; [apply H|done]. Qed.

Lemma more_fuel fuel extra page used all k w :
  0 ≤ used ≤ maxBytes → len all ≤ maxItems → maxItems - len all < 100 * Z.of_nat fuel →
  from (fuel + extra) page used all k w = from fuel page used all k w.
Proof.
  revert page used all k w. induction fuel as [|fuel IH]; intros page used all k w Hu Hl Hf; [lia|].
  cbn [annotations_from Nat.add]. unfold try. apply andThen_ext. intros [batch|e] k1 w1; [|done].
  destruct (collect _ _ _ _ _) as [[used' all']|] eqn:Ec; [|done]. destruct (Z.ltb_spec (len batch) 100); [done|].
  apply collect_ok in Ec as (-> & -> & ? & Hl'); [|done..]. apply IH; [done|done|].
  unfold len in *. rewrite length_app in *. lia.
Qed.

(** The pages [batches] from [page] on, as GitHub gave them. *)
Definition paged (l : list gh_event) (page : Z) (batches : list (list CheckAnnotation)) : Prop :=
  ∀ i batch, batches !! i = Some batch → ∃ body,
    Got (annotations_path repo runID (page + Z.of_nat i)) body ∈ l ∧ d_annotations body = Some batch.

Definition full_but_last (batches : list (list CheckAnnotation)) : Prop := ∃ init final,
  batches = init ++ [final] ∧ Forall (λ b, 100 ≤ len b) init ∧ len final < 100.

Lemma wp_get {A} (parse : string → option A) path w :
  wp (λ _, True) (get parse app path inst)
    (λ r w', grows w w' ∧ ∀ a, r = Ok a → ∃ body, Got path body ∈ g_log w' ∧ parse body = Some a) w.
Proof.
  intros k. unfold get, doJSON, doJSONStatus.
  pose proof (good_authorized app inst "GET" (api_url path) None (or_introl (ex_intro _ path eq_refl)) k w) as Hg.
  unfold andThen. destruct (authorized _ _ _ _ _ k w) as [[k1 w1] [[resp|e]|]]; destruct Hg as [Hg _]; [|by split|done].
  destruct (successful _ resp) as [body|e]; cbn; [|by split].
  split; [by eapply log_trans, grows_log|]. intros a. destruct (parse body) as [b|] eqn:E; [|done]. intros [= ->].
  exists body. split; [by left|done].
Qed.

Lemma wp_pages fuel page used all w :
  0 ≤ used ≤ maxBytes → len all ≤ maxItems → used = annotation_bytes all →
  wp (λ _, True) (from fuel page used all)
    (λ r w', grows w w' ∧ ∀ l, r = Ok l → ∃ batches, l = all ++ concat batches ∧ paged (g_log w') page batches ∧
       full_but_last batches ∧ len l ≤ maxItems ∧ annotation_bytes l ≤ maxBytes) w.
Proof.
  revert page used all w. induction fuel as [|fuel IH]; intros page used all w Hu Hl Hb; cbn [annotations_from].
  { apply wp_done. split; [apply log_refl|done]. }
  apply wp_try. eapply wp_mono; [apply wp_get|done|]. intros [batch|e] w1 [Hg Hgot]; [|by split].
  destruct (Hgot batch eq_refl) as (body & Hin & Hd).
  destruct (collect _ _ _ _ _) as [[used' all']|] eqn:Ec; [|by apply wp_done].
  apply collect_ok in Ec as (-> & -> & Hu' & Hl'); [|done..].
  assert (used + annotation_bytes batch = annotation_bytes (all ++ batch)) as Hb'.
  { rewrite Hb. clear. induction all as [|a all IH]; cbn; lia. }
  destruct (Z.ltb_spec (len batch) 100).
  - apply wp_done. split; [done|]. intros l [= <-]. exists [batch]. cbn. rewrite app_nil_r. split_and!; [done| | |done|lia].
    + intros [|i] b; [|done]. intros [= <-]. exists body. by rewrite Z.add_0_r.
    + by exists [], batch.
  - eapply wp_mono; [by apply (IH (page + 1))|done|]. intros r w2 [Hg2 H2]. split; [by eapply log_trans|].
    intros l E. destruct (H2 l E) as (batches & -> & Hp & (init & final & -> & Hfull & Hlast) & ? & ?).
    exists (batch :: init ++ [final]). cbn. rewrite <- app_assoc. split_and!; [done| | |by rewrite app_assoc|by rewrite app_assoc].
    + intros [|i] b; cbn.
      * intros [= <-]. exists body. rewrite Z.add_0_r. split; [by eapply grows_in|done].
      * intros Hi. destruct (Hp i b Hi) as (body' & ? & ?). exists body'. split; [|done].
        by replace (page + Z.of_nat (S i)) with (page + 1 + Z.of_nat i) by lia.
    + exists (batch :: init), final. split_and!; [done|by constructor|done].
Qed.

(** C36: the annotations of a check run: the loop ends within its fuel, since
    more of it changes nothing, whatever GitHub answers; and an answer is what
    the pages from the first on hold, in order, all full but the last one, which
    is not: at most [maxItems] annotations of at most [maxBytes] bytes. *)
Theorem annotations_whole extra k w :
  1 ≤ maxItems → 1 ≤ maxBytes →
  from (pages maxItems + extra) 1 0 [] k w = from (pages maxItems) 1 0 [] k w ∧
  let '(_, w', o) := ListCheckRunAnnotations app repo inst runID maxItems maxBytes k w in
  ∀ l, o = Some (Ok l) → ∃ batches, l = concat batches ∧ paged (g_log w') 1 batches ∧ full_but_last batches ∧
    len l ≤ maxItems ∧ annotation_bytes l ≤ maxBytes.
Proof.
  intros Hi Hb. split.
  - apply more_fuel; [lia|unfold len; cbn; lia|]. unfold pages, len. cbn. pose proof (Z.div_mod maxItems 100).
    pose proof (Z.mod_pos_bound maxItems 100). pose proof (Z.div_pos maxItems 100). lia.
  - unfold ListCheckRunAnnotations. destruct (_ || _ || _); [done|].
    pose proof (wp_pages (pages maxItems) 1 0 [] w) as H. destruct (from _ _ _ _ k w) as [[k' w'] [r|]] eqn:E; [|done].
    intros l [= ->]. eapply wp_run in E; [|apply H; [lia|unfold len; cbn; lia|done]]. by destruct E as [_ E]; apply E.
Qed.
End Annotations.
