(* ===== verification/GitHubSim.v ===== *)
(** * The GitHub client at work

    A small GitHub: what it answers to a request is a table by the end of the
    URL, a body is the name of what a decoder gives for it. *)

From S2P Require Import Prelude GoStrings GoTime Net Url Process ReadAccess PushTripwire GitHubApi RepoApi GitHubClient GitHubCalls GitHubMaterial GitHubOrder GitHubPush GitHubEvidence.
Open Scope string_scope.
Open Scope list_scope.
Open Scope Z_scope.

Definition page_of (status : Z) (body : string) : result read_error http_response :=
  Ok {| h_Status := status; h_Location := ""; h_Body := Ok body |}.

(** GitHub, with a clock that ticks every [tick] at every effect. *)
Definition small_github (tick : Z) (answers : http_request → result read_error http_response) : GitHub :=
  {| APIBaseURL := "https://api.github.com/"; apps := {["default" := 7]};
     http := λ _ q, if has_suffix "/access_tokens" (q_URL q) then page_of 201 "token" else answers q;
     sign := λ app _, Some ("jwt of " +:+ app); clock := λ k, Z.of_nat k * tick; gh_dies := λ _, false;
     parse_token := λ _, Some ("secret", 3600 * second) |}.

Definition all_404 (q : http_request) : result read_error http_response := page_of 404 "Not Found".

(** By the end of the URL. *)
Definition table (l : list (string * string)) (q : http_request) : result read_error http_response :=
  match List.find (λ row, has_suffix row.1 (q_URL q)) l with Some row => page_of 200 row.2 | None => all_404 q end.

Definition annotation (path message : string) : CheckAnnotation :=
  {| an_Path := path; an_StartLine := 1; an_EndLine := 1; an_Level := "failure"; an_Message := message |}.
Definition full_page : list CheckAnnotation := replicate 100 (annotation "a.go" "x").
Definition thread_node : graphqlReviewThread :=
  {| qt_ID := "T1"; qt_IsResolved := false; qt_Path := "a.go"; qt_Line := 3; qt_Comments := [] |}.

#[local] Instance decoders : Decoders (list string) unit unit :=
  {| d_ref := Some; d_repo := λ _, None; d_created := λ _, None; d_comment := λ _, None; d_review := λ _, None;
     d_reviews := λ _, None; d_labels := λ _, None; d_pull := λ _, None; d_pulls := λ _, None; d_files := λ _, None;
     d_review_comments := λ _, None; d_issue := λ _, None; d_issues := λ _, None; d_comments := λ _, None;
     d_status := λ _, None; d_checks := λ _, None;
     d_annotations := λ b, if (b =? "full")%string then Some full_page else Some [annotation "b.go" b];
     d_runs := λ _, None; d_jobs := λ _, None; d_rules := λ b, Some [b]; no_rules := []; d_protection := λ _, None;
     no_protection := (); d_graphql := λ b, Some ([], b); q_dismiss := λ _, None; q_review := λ _, None;
     q_resolve := λ _, Some ("T1", true); q_reply := Some; q_thread := λ _, Some thread_node; q_threads := λ _, None;
     sha256_text := λ s, s |}.

(** ** Tokens *)

(** The three requests of a client share one token. *)
Example token_reused :
  let G := small_github second (table [("/a", "1"); ("/b", "2")]) in
  let '(_, w, _) := (_ <-! get Some "" "/a" 1 ;; _ <-! get Some "" "/b" 1 ;; get Some "" "/a" 1)%string 0%nat new_client in
  map (λ e, match e with Exchanged _ _ _ => 0 | Issued _ _ _ _ => 1 | Called _ _ _ _ _ => 2 | _ => 3 end) (g_log w)
  = [3; 2; 3; 2; 3; 2; 1; 0].
Proof. vm_compute. reflexivity. Qed.

(** Within the last minute of a token the next request exchanges again. *)
Example token_renewed :
  let G := small_github (3570 * second) (table [("/a", "1"); ("/b", "2")]) in
  let '(_, w, _) := (_ <-! get Some "" "/a" 1 ;; get Some "" "/b" 1) 0%nat new_client in
  map (λ e, match e with Exchanged _ _ _ => 0 | Issued _ _ _ _ => 1 | Called _ _ _ _ _ => 2 | _ => 3 end) (g_log w)
  = [3; 2; 1; 0; 3; 2; 1; 0].
Proof. vm_compute. reflexivity. Qed.

(** ** Annotations *)

Definition two_pages : http_request → result read_error http_response := table [("page=1&per_page=100", "full"); ("page=2&per_page=100", "last")].

Example annotations_ex :
  let G := small_github second two_pages in
  (ListCheckRunAnnotations "" "acme/app" 1 9 150 1000000 0%nat new_client).2 = Some (Ok (full_page ++ [annotation "b.go" "last"])).
Proof. vm_compute. reflexivity. Qed.

(** One more than the bound is an error, never a part of the annotations. *)
Example annotations_bound_ex :
  let G := small_github second two_pages in
  (ListCheckRunAnnotations "" "acme/app" 1 9 100 1000000 0%nat new_client).2 = Some (other "annotations exceed broker bounds").
Proof. vm_compute. reflexivity. Qed.

Lemma annotations_whole_witness :
  let G := small_github second two_pages in
  (1 ≤ 150 ∧ 1 ≤ 1000000) ∧
  annotations_from (pages 150 + 5) "" "acme/app" 1 9 150 1000000 1 0 [] 0%nat new_client
  = annotations_from (pages 150) "" "acme/app" 1 9 150 1000000 1 0 [] 0%nat new_client.
Proof.
  intros G. split; [lia|].
  exact (proj1 (annotations_whole "" "acme/app" 1 9 150 1000000 5%nat 0%nat new_client ltac:(lia) ltac:(lia))).
Defined.

(** ** Pushes *)

Definition sha_of (c : ascii) : string := String.string_of_list_ascii (replicate 40 c).
Definition before_sha := sha_of "1".
Definition after_sha := sha_of "2".

Definition node (path type_ sha : string) : treeNode := {| n_Path := path; n_Type := type_; n_SHA := sha |}.
Definition content (text_ : string) : blob :=
  {| b_Content := base64_encode text_; b_Encoding := "base64"; b_Size := Z.of_nat (String.length text_) |}.

(** One commit that changes [changed] from the first nodes to the second. *)
Definition one_commit (t0 t1 : list treeNode) : MaterialDecoders :=
  {| d_compare := λ _, Some {| TotalCommits := 1; cmp_Status := "ahead"; cmp_Commits := [after_sha] |};
     d_tree := λ b, Some {| Truncated := false; Nodes := if (b =? "old tree")%string then t0 else t1 |};
     d_commit := λ _, Some {| k_SHA := after_sha; k_Message := "change"; k_Tree := sha_of "b"; k_Parents := [before_sha] |};
     d_parent := λ _, Some (sha_of "a");
     d_blob := λ b, Some (content b) |}.

Definition push_answers : http_request → result read_error http_response :=
  table [("?per_page=10", "compare"); (after_sha, "commit"); (before_sha, "parent");
         ("/git/trees/" +:+ sha_of "a" +:+ "?recursive=1", "old tree"); ("/git/trees/" +:+ sha_of "b" +:+ "?recursive=1", "new tree");
         ("/git/blobs/" +:+ sha_of "c", "hello"); ("/git/blobs/" +:+ sha_of "d", "hello, world")].

Definition push_request : MaterialRequest :=
  {| m_Version := Version; m_DeliveryID := "d1"; m_Repository := "acme/app"; m_Ref := "refs/heads/x"; m_Before := before_sha;
     m_After := after_sha |}.
Definition push_bounds : PushTripwireBounds :=
  {| MaxCommits := 10; MaxPaths := 10; MaxCommitMessageBytes := 100; MaxBlobBytes := 100; MaxTotalBytes := 1000 |}.

Definition pushed (t0 t1 : list treeNode) : option MaterialResponse :=
  let G := small_github second push_answers in let MD := one_commit t0 t1 in
  (PushTripwireMaterial "" 1 push_bounds push_request "refs/heads/main" 0%nat new_client).2.

Definition file (path side status sha text_ : string) : File :=
  {| f_CommitSHA := after_sha; f_Path := path; f_Side := side; f_Status := status; f_BlobSHA := sha;
     f_Size := Z.of_nat (String.length text_); ContentBase64 := base64_encode text_ |}.

(** Both sides of a file that changed, the one side of a new one. *)
Example push_ex :
  pushed [node "a.txt" "blob" (sha_of "c"); node "same" "blob" (sha_of "e")]
         [node "same" "blob" (sha_of "e"); node "a.txt" "blob" (sha_of "d"); node "new" "blob" (sha_of "c")] =
  Some {| mt_Request := push_request; Complete := true; mt_ReasonCode := "";
          mt_Bounds := {| CommitCount := 1; PathCount := 3; TotalBytes := 28 |};
          Commits := [{| c_SHA := after_sha; c_Message := "change" |}];
          Files := [file "a.txt" "before" "modified" (sha_of "c") "hello"; file "a.txt" "after" "modified" (sha_of "d") "hello, world";
                    file "new" "after" "added" (sha_of "c") "hello"] |}.
Proof. vm_compute. reflexivity. Qed.

(** GitHub lists the directories of a recursive tree too, and a directory has
    another SHA when a file in it has: the change of a file that is not at the
    root is never complete. *)
Example nested_push_incomplete :
  pushed [node "src" "tree" (sha_of "3"); node "src/a.txt" "blob" (sha_of "c")]
         [node "src" "tree" (sha_of "4"); node "src/a.txt" "blob" (sha_of "d")] =
  Some {| mt_Request := push_request; Complete := false; mt_ReasonCode := "unsupported_tree_material";
          mt_Bounds := no_bounds; Commits := []; Files := [] |}.
Proof. vm_compute. reflexivity. Qed.

(** ** Hosts, rules and threads *)

Definition dotted_I : string := str [196; 176]%nat.

(** A host of another domain whose lower case is an approved one. *)
Example lookalike_host :
  (λ u, safeActionsLogHost (Hostname u)) <$> Parse ("https://results-receiver.actions.g%C4%B0thubusercontent.com/log") = Some true ∧
  Hostname <$> Parse ("https://results-receiver.actions.g%C4%B0thubusercontent.com/log")
  = Some ("results-receiver.actions.g" +:+ dotted_I +:+ "thubusercontent.com").
Proof. vm_compute. done. Qed.

(** No answer about rules is the answer that there are none. *)
Example missing_rules_none :
  let G := small_github second all_404 in (BranchRules "" "acme/app" "main" 1 0%nat new_client).2 = Some (Ok []).
Proof. vm_compute. reflexivity. Qed.

(** Half of a thread's resolution: the reply is posted, the thread is not resolved. *)
Definition half_resolving (q : http_request) : result read_error http_response :=
  if contains (default "" (q_Body q)) "resolveReviewThread(" then page_of 502 "Bad Gateway" else page_of 200 "{}".

Definition replies (w : client) : nat :=
  length (List.filter (λ e, match e with
    | Called _ _ _ _ q => contains (default "" (q_Body q)) "addPullRequestReviewThreadReply("
    | _ => false end) (g_log w)).

Example reply_repeated :
  let G := small_github second half_resolving in
  let '(_, w, r) := (_ <-! ResolvePullReviewThread "" 1 "T1" "fixed" ;; ResolvePullReviewThread "" 1 "T1" "fixed") 0%nat new_client in
  replies w = 2%nat ∧ r = Some (other "graphql").
Proof. vm_compute. done. Qed.

(** A rate limit is an APIError of the REST calls, and none of the GraphQL ones. *)
Example graphql_rate_limit :
  let G := small_github second (λ _, page_of 429 "rate limit") in
  (ResolvePullReviewThread "" 1 "T1" "" 0%nat new_client).2 = Some (other "graphql") ∧
  (GetPull "" "acme/app" 1 5 0%nat new_client).2 = Some (Err (APIError 429 "rate limit")).
Proof. vm_compute. done. Qed.
