(* ===== verification/Reporter.v ===== *)
(** * internal/reporter: reports of issues through the broker

    The service that agents without credentials of the broker report issues and
    read them through.  It sends at most one request to the broker for a call, with
    its own agent's credentials: an operation gives the requests it sent and its
    answer, over a network that answers anything. *)

From stdpp Require Import pretty.
From S2P Require Import Prelude GoStrings GoTime GoJson Net Url ReadAccess GitHubApi GitHubClient GitHubCalls GitHubMaterial.
Open Scope string_scope.
Open Scope list_scope.
Open Scope Z_scope.

(** ** Configuration *)

Record Config := {
  Listen : string; MCPPath : string; BrokerURL : string; BrokerAgentID : string; BrokerAgentSecret : string;
  BrokerAgentSecretEnv : string; Repositories : list string; DefaultLabel : string; AllowedLabels : list string;
  MaxTitleLength : Z; MaxBodyLength : Z }.

Definition text_or (default_ s : string) : string := if (s =? "")%string then default_ else s.
Definition int_or (default_ n : Z) : Z := if n =? 0 then default_ else n.

Definition ApplyDefaults (c : Config) : Config :=
  {| Listen := text_or "127.0.0.1:8090" (Listen c); MCPPath := text_or "/mcp" (MCPPath c); BrokerURL := BrokerURL c;
     BrokerAgentID := BrokerAgentID c; BrokerAgentSecret := BrokerAgentSecret c;
     BrokerAgentSecretEnv := BrokerAgentSecretEnv c; Repositories := Repositories c;
     DefaultLabel := text_or "agent-reported" (DefaultLabel c); AllowedLabels := AllowedLabels c;
     MaxTitleLength := int_or 256 (MaxTitleLength c); MaxBodyLength := int_or 20000 (MaxBodyLength c) |}.

Definition ResolveSecrets (getenv : string → string) (c : Config) : Config :=
  if (BrokerAgentSecret c =? "")%string && negb (BrokerAgentSecretEnv c =? "")%string then
    {| Listen := Listen c; MCPPath := MCPPath c; BrokerURL := BrokerURL c; BrokerAgentID := BrokerAgentID c;
       BrokerAgentSecret := getenv (BrokerAgentSecretEnv c); BrokerAgentSecretEnv := BrokerAgentSecretEnv c;
       Repositories := Repositories c; DefaultLabel := DefaultLabel c; AllowedLabels := AllowedLabels c;
       MaxTitleLength := MaxTitleLength c; MaxBodyLength := MaxBodyLength c |}
  else c.

Definition problem (c : bool) (what : string) : list string := if c then [what] else [].

(** The problems, none for a valid configuration. *)
Definition Validate (c : Config) : list string :=
  problem (trim_space (BrokerURL c) =? "")%string "broker_url is required" ++
  problem (trim_space (BrokerAgentID c) =? "")%string "broker_agent_id is required" ++
  problem (BrokerAgentSecret c =? "")%string "broker_agent_secret or broker_agent_secret_env is required" ++
  problem (is_nil (Repositories c)) "repositories must not be empty" ++
  problem (MaxTitleLength c <? 1) "max_title_length must be positive" ++
  problem (MaxBodyLength c <? 1) "max_body_length must be positive".

(** The content of the file, unless it cannot be read, and its decoder. *)
Definition Load (parse_yaml : string → option Config) (getenv : string → string) (file : option string)
    : option Config :=
  content ← file;
  cfg ← parse_yaml content;
  let cfg := ResolveSecrets getenv (ApplyDefaults cfg) in
  if is_nil (Validate cfg) then Some cfg else None.

(** ** Data *)

Record ReportIssueInput := {
  in_Repo : string; in_Title : string; in_Body : string; DedupeKey : string; in_Labels : list string;
  SourceAgentID : string; SourceRunID : string }.
Record ReportIssueOutput := { o_URL : string; o_HTMLURL : string; o_Number : Z; o_ID : Z }.
Record CapabilitiesOutput := {
  AllowedRepositories : list string; AllowedOptionalLabels : list string; ForcedLabels : list string;
  co_MaxTitleLength : Z; co_MaxBodyLength : Z; DedupeKeyRequired : bool; DedupeBehavior : string;
  ReadSupport : list string }.
Record SearchIssuesInput := {
  q_Repo : string; q_State : string; q_Labels : list string; q_Assignee : string; q_BodyMarker : string }.

Inductive report_error :=
| NotAllowed (repo : string) | Missing (field : string) | TooLong (field : string) | LabelNotAllowed (label : string)
| NotPositive | BadRepo | BadURL | Network (e : read_error) | Failed (status : Z) (body : string) | BadJSON.

(** ** The operations *)

Section Service.
Variables (cfg : Config) (net : http_request → result read_error http_response).

Notation "'sends' A" := (list http_request * result report_error A)%type (at level 10).

Definition refuse {A} (e : report_error) : sends A := ([], Err e).

Definition Capabilities : CapabilitiesOutput :=
  {| AllowedRepositories := Repositories cfg; AllowedOptionalLabels := AllowedLabels cfg;
     ForcedLabels := if (trim_space (DefaultLabel cfg) =? "")%string then [] else [trim_space (DefaultLabel cfg)];
     co_MaxTitleLength := MaxTitleLength cfg; co_MaxBodyLength := MaxBodyLength cfg; DedupeKeyRequired := true;
     DedupeBehavior := "dedupe_key is passed to the broker as issue metadata; the reporter does not suppress duplicate reports";
     ReadSupport := ["broker_get_issue"; "broker_search_issues"; "broker_list_issue_comments"] |}.

Definition allowedRepo (allowed : list string) (repo : string) : bool := existsb (λ item, equal_fold item repo) allowed.
Definition containsString (items : list string) (want : string) : bool := existsb (λ item, (item =? want)%string) items.

(** The labels so far have been seen. *)
Definition add_label (out : list string) (label : string) : list string :=
  let label := trim_space label in
  if (label =? "")%string || containsString out label then out else out ++ [label].

Fixpoint labels_from (requested out : list string) : result report_error (list string) :=
  match requested with
  | [] => Ok out
  | label :: requested =>
    let label := trim_space label in
    if (label =? "")%string || (label =? DefaultLabel cfg)%string then labels_from requested out else
    if negb (containsString (AllowedLabels cfg) label) then Err (LabelNotAllowed label) else
    labels_from requested (add_label out label)
  end.
Definition labels (requested : list string) : result report_error (list string) :=
  labels_from requested (add_label [] (DefaultLabel cfg)).

Definition validateRepo (repo : string) : bool :=
  match cut "/" repo with
  | None => false
  | Some (owner, name) => negb ((owner =? "")%string || (name =? "")%string || GoStrings.contains name "/")
  end.

Definition issueListPath (repo : string) : string :=
  match cut "/" repo with
  | None => "/v1/repos//issues"
  | Some (owner, name) => "/v1/repos/" +:+ PathEscape owner +:+ "/" +:+ PathEscape name +:+ "/issues"
  end.
Definition issuePath (repo : string) : result report_error string :=
  if validateRepo repo then Ok (issueListPath repo) else Err BadRepo.
Definition issueNumberPath (repo : string) (number : Z) : string := issueListPath repo +:+ "/" +:+ pretty number.

(** http.Request.SetBasicAuth *)
Definition basic : string := "Basic " +:+ base64_encode (BrokerAgentID cfg +:+ ":" +:+ BrokerAgentSecret cfg).

(** The request, and what is made of its answer. *)
Definition exchange {A} (parse : string → option A) (method path : string) (body : option string) : sends A :=
  let url := trim_right_slash (BrokerURL cfg) +:+ path in
  if negb (is_url url) then refuse BadURL else
  let req := {| q_Method := method; q_URL := url; q_Authorization := basic; q_Body := body |} in
  ([req],
   match net req with
   | Err e => Err (Network e)
   | Ok resp =>
     match h_Body resp with
     | Err e => Err (Network e)
     | Ok b =>
       let b := limited (Z.shiftl 1 20) b in
       if (h_Status resp <? 200) || (300 <=? h_Status resp) then Err (Failed (h_Status resp) b) else
       match parse b with Some a => Ok a | None => Err BadJSON end
     end
   end).

Definition marshal_issue (r : IssueCreateRequest) : string :=
  json_object ([("title", json_string (is_Title r)); ("body", json_string (is_Body r))] ++
    when (negb (is_nil (is_Labels r))) "labels" (json_strings (is_Labels r)) ++
    when (bool_decide (is_Metadata r ≠ ∅)) "metadata" (json_params (is_Metadata r)) ++
    when (negb (is_nil (is_Permissions r))) "permissions" (json_strings (is_Permissions r))).

Definition postIssue {A} (parse : string → option A) (repo : string) (body : IssueCreateRequest) : sends A :=
  match issuePath repo with
  | Err e => refuse e
  | Ok path => exchange parse "POST" path (Some (marshal_issue body))
  end.
Definition getJSON {A} (parse : string → option A) (path : string) : sends A := exchange parse "GET" path None.

Definition metadata (in_ : ReportIssueInput) (dedupeKey : string) : gmap string string :=
  let m := <["Dedupe-Key" := dedupeKey]> {["Agent-Id" := BrokerAgentID cfg]} in
  let m := if (SourceAgentID in_ =? "")%string then m else <["Source-Agent-Id" := SourceAgentID in_]> m in
  if (SourceRunID in_ =? "")%string then m else <["Source-Run-Id" := SourceRunID in_]> m.

(** The request to the broker that a report stands for. *)
Definition report (in_ : ReportIssueInput) : result report_error (string * IssueCreateRequest) :=
  let repo := trim_space (in_Repo in_) in
  let title := trim_space (in_Title in_) in
  let body := trim_space (in_Body in_) in
  let dedupeKey := trim_space (DedupeKey in_) in
  fail_if negb (allowedRepo (Repositories cfg) repo) with NotAllowed repo ;;
  fail_if (title =? "")%string with Missing "title" ;;
  fail_if MaxTitleLength cfg <? Z.of_nat (String.length title) with TooLong "title" ;;
  fail_if (body =? "")%string with Missing "body" ;;
  fail_if MaxBodyLength cfg <? Z.of_nat (String.length body) with TooLong "body" ;;
  fail_if (dedupeKey =? "")%string with Missing "dedupe_key" ;;
  labels (in_Labels in_) ≫= λ labels,
  Ok (repo, {| is_Title := title; is_Body := body; is_Labels := labels; is_Metadata := metadata in_ dedupeKey;
               is_Permissions := ["issues:write"] |}).

Definition issue_output (g : GitHubResult) : ReportIssueOutput :=
  {| o_URL := URL g; o_HTMLURL := HTMLURL g; o_Number := Number g; o_ID := ID g |}.

Definition ReportIssue (d_result : string → option GitHubResult) (in_ : ReportIssueInput) : sends ReportIssueOutput :=
  match report in_ with
  | Err e => refuse e
  | Ok (repo, req) =>
    let '(sent, r) := postIssue d_result repo req in
    (sent, match r with Ok g => Ok (issue_output g) | Err e => Err e end)
  end.

Definition numbered {A} (repo : string) (number : Z) (k : string → sends A) : sends A :=
  let repo := trim_space repo in
  if negb (allowedRepo (Repositories cfg) repo) then refuse (NotAllowed repo) else
  if number <? 1 then refuse NotPositive else k repo.

Definition GetIssue {A} (d_issue : string → option A) (repo : string) (number : Z) : sends A :=
  numbered repo number (λ repo, getJSON d_issue (issueNumberPath repo number)).
Definition ListIssueComments {A} (d_comments : string → option A) (repo : string) (number : Z) : sends A :=
  numbered repo number (λ repo, getJSON d_comments (issueNumberPath repo number +:+ "/comments")).

Definition bad_label (label : string) : bool :=
  negb (trim_space label =? "")%string
  && negb (label =? DefaultLabel cfg)%string && negb (containsString (AllowedLabels cfg) label).

Definition set_text (k v : string) (q : gmap string (list string)) : gmap string (list string) :=
  if (v =? "")%string then q else <[k := [v]]> q.

Definition search_query (in_ : SearchIssuesInput) : gmap string (list string) :=
  let q : gmap string (list string) := {["state" := [text_or "open" (q_State in_)]]} in
  let q := if is_nil (q_Labels in_) then q else <["labels" := [GoStrings.join "," (q_Labels in_)]]> q in
  set_text "body_marker" (q_BodyMarker in_) (set_text "assignee" (q_Assignee in_) q).

Definition SearchIssues {A} (d_issues : string → option A) (in_ : SearchIssuesInput) : sends A :=
  let repo := trim_space (q_Repo in_) in
  if negb (allowedRepo (Repositories cfg) repo) then refuse (NotAllowed repo) else
  match List.find bad_label (q_Labels in_) with
  | Some label => refuse (LabelNotAllowed label)
  | None => getJSON d_issues (issueListPath repo +:+ "?" +:+ Encode (search_query in_))
  end.
End Service.
