(* ===== verification/ReporterReach.v ===== *)
(** * What the broker reads of the reporter's requests

    The reporter writes a URL and an Authorization header; the broker's net/http
    and router read them back.  They agree: the broker sees the agent, the
    repository, the endpoint and the query that the reporter meant. *)

From stdpp Require Import pretty.
From S2P Require Import Prelude GoStrings GoTime GoJson Net Url Policy ReadAccess GitTransport GitHubApi RepoApi GitHubClient GitHubCalls GitHubMaterial GitHubPush Reporter.
Open Scope string_scope.
Open Scope list_scope.
Open Scope Z_scope.

(** ** Escapes *)

Lemma percent_back c : ∃ a b x y, percent c = String "%" (String a (String b "")) ∧ hex_value a = Some x ∧
  hex_value b = Some y ∧ byte (x * 16 + y) = c.
Proof.
  exists (upper_hex (code c / 16)), (upper_hex (code c mod 16)), (Z.of_nat (code c / 16)), (Z.of_nat (code c mod 16)).
  destruct c as [[] [] [] [] [] [] [] []]; split_and!; vm_compute; reflexivity.
Qed.

(** What a byte is escaped to begins no other escape. *)
Definition escaped (c : ascii) (piece : string) : Prop :=
  piece = percent c ∨ (piece = String c "" ∧ c ≠ "%"%char).

Lemma path_unescape_step c piece s : escaped c piece → path_unescape (piece +:+ s) = String c <$> path_unescape s.
Proof.
  intros [->|[-> Hc]].
  - destruct (percent_back c) as (a & b & x & y & -> & Ha & Hb & Hy). rewrite !sapp_cons, sapp_nil. cbn [path_unescape].
    cbn. rewrite Ha, Hb. destruct (path_unescape s); cbn; by rewrite ?Hy.
  - rewrite sapp_cons, sapp_nil. cbn [path_unescape]. by rewrite (proj2 (Ascii.eqb_neq c "%") Hc).
Qed.

Lemma sconcat_cons a l : String.concat "" (a :: l) = a +:+ String.concat "" l.
Proof. destruct l; cbn; [by rewrite sapp_nil_r|done]. Qed.

Lemma unreserved_plain c : unreserved c || one_of "$&+:=@" c = true → c ≠ "%"%char ∧ c ≠ "/"%char ∧ c ≠ "?"%char.
Proof. destruct c as [[] [] [] [] [] [] [] []]; intros H; vm_compute in H; try discriminate; by split_and!. Qed.

Lemma path_unescape_escape s t : path_unescape (PathEscape s +:+ t) = (λ u, s +:+ u) <$> path_unescape t.
Proof.
  unfold PathEscape, escape. induction s as [|c s IH].
  { rewrite sapp_nil. destruct (path_unescape t); cbn; by rewrite ?sapp_nil. }
  change (chars (String c s)) with (c :: chars s). cbn [map]. rewrite sconcat_cons, sapp_assoc, (path_unescape_step c).
  - rewrite IH. destruct (path_unescape t); cbn; by rewrite ?sapp_cons.
  - destruct (_ || _) eqn:E; [|by left]. right. split; [done|]. by apply unreserved_plain.
Qed.

Lemma path_unescape_plain p t : all_chars (λ c, negb (Ascii.eqb c "%")) p = true →
  path_unescape (p +:+ t) = (λ u, p +:+ u) <$> path_unescape t.
Proof.
  induction p as [|c p IH]; [intros _; rewrite sapp_nil; destruct (path_unescape t); cbn; by rewrite ?sapp_nil|]. rewrite all_chars_cons. intros [Hc Hp]%andb_true_iff.
  rewrite sapp_cons. cbn [path_unescape]. apply negb_true_iff in Hc. rewrite Hc, IH by done. destruct (path_unescape t); cbn; by rewrite ?sapp_cons.
Qed.

Definition query_plain (c : ascii) : bool := negb (one_of "&=;" c).

Lemma query_escape_plain s : all_chars query_plain (QueryEscape s) = true.
Proof.
  unfold QueryEscape. induction s as [|c s IH]; [done|]. change (chars (String c s)) with (c :: chars s); cbn [map].
  rewrite sconcat_cons, all_chars_app. apply andb_true_iff. split; [|exact IH]. clear.
  destruct c as [[] [] [] [] [] [] [] []]; vm_compute; reflexivity.
Qed.

Lemma unescape_escape s : unescape (QueryEscape s) = Some s.
Proof.
  unfold QueryEscape. induction s as [|c s IH]; [done|]. change (chars (String c s)) with (c :: chars s); cbn [map]. rewrite sconcat_cons.
  set (rest := String.concat "" _) in *. clearbody rest.
  enough (unescape ((if Ascii.eqb c " " then "+" else if unreserved c then String c "" else percent c) +:+ rest) = String c <$> unescape rest) as ->
    by (by rewrite IH).
  clear IH s. destruct (Ascii.eqb_spec c " ") as [->|]; [done|]. destruct (unreserved c) eqn:E.
  - rewrite sapp_cons, sapp_nil. assert (Ascii.eqb c "%" = false ∧ Ascii.eqb c "+" = false) as [E1 E2].
    { destruct c as [[] [] [] [] [] [] [] []]; vm_compute in E; try discriminate; by split. }
    cbn [unescape]. by rewrite E1, E2.
  - destruct (percent_back c) as (a & b & x & y & -> & Ha & Hb & Hy). rewrite !sapp_cons, sapp_nil. cbn.
    rewrite Ha, Hb. destruct (unescape rest); cbn; by rewrite ?Hy.
Qed.

(** ** Queries *)

Lemma contains_none d s : all_chars (λ c, negb (Ascii.eqb c d)) s = true → GoStrings.contains s (String d "") = false.
Proof.
  unfold GoStrings.contains. induction s as [|c s IH]; [done|]. rewrite all_chars_cons. intros [Hc Hs]%andb_true_iff.
  cbn [index_of has_prefix]. rewrite Ascii.eqb_sym. apply negb_true_iff in Hc. rewrite Hc. cbn [andb].
  specialize (IH Hs). by destruct (index_of _ s).
Qed.

Definition no_amp (s : string) : Prop := all_chars (λ c, negb (Ascii.eqb c "&")) s = true.

Definition pair_text (kv : string * string) : string := QueryEscape kv.1 +:+ "=" +:+ QueryEscape kv.2.

Lemma plain_without d s : one_of "&=;" d = true → all_chars query_plain s = true → all_chars (λ c, negb (Ascii.eqb c d)) s = true.
Proof.
  intros Hd. apply all_chars_impl. intros c Hc. destruct (Ascii.eqb_spec c d) as [->|]; [|done].
  unfold query_plain in Hc. by rewrite Hd in Hc.
Qed.

Lemma pair_text_without d kv : one_of "&;" d = true → all_chars (λ c, negb (Ascii.eqb c d)) (pair_text kv) = true.
Proof.
  intros Hd. assert (one_of "&=;" d = true) as Hd'.
  { unfold one_of in *. cbn in *. destruct (Ascii.eqb d "&"), (Ascii.eqb d ";"); cbn in *; by rewrite ?orb_true_r. }
  unfold pair_text. rewrite !all_chars_app, (plain_without d (QueryEscape kv.1)), (plain_without d (QueryEscape kv.2)) by (done || apply query_escape_plain).
  rewrite all_chars_cons. destruct (Ascii.eqb_spec "=" d) as [<-|]; done.
Qed.

Lemma query_pair_text kv : query_pair (pair_text kv) = Some (Some kv).
Proof.
  unfold query_pair. rewrite contains_none by by apply pair_text_without.
  destruct kv as [k v]. unfold pair_text. cbn [fst snd].
  assert (QueryEscape k +:+ "=" +:+ QueryEscape v = QueryEscape k +:+ String "=" (QueryEscape v)) as -> by done.
  assert (all_chars (λ c, negb (Ascii.eqb c "=")) (QueryEscape k) = true) as Hk by (apply plain_without; [done|apply query_escape_plain]).
  destruct (String.eqb_spec (QueryEscape k +:+ String "=" (QueryEscape v)) "") as [E|_].
  - apply (f_equal String.length) in E. rewrite length_sapp in E. cbn in E. lia.
  - rewrite cut_app by done. cbn. by rewrite !unescape_escape.
Qed.

Lemma query_pairs_text l : query_pairs (map pair_text l) = Some l.
Proof. induction l as [|kv l IH]; [done|]. cbn [map query_pairs]. by rewrite query_pair_text, IH. Qed.

Definition values_of (q : gmap string (list string)) (k : string) : list (string * string) := map (pair k) (default [] (q !! k)).
Definition prepend : string * string → gmap string (list string) → gmap string (list string) :=
  λ '(k, v) m, <[k := v :: default [] (m !! k)]> m.

Lemma prepend_all k vs m : foldr prepend m (map (pair k) vs) = if is_nil vs then m else <[k := vs ++ default [] (m !! k)]> m.
Proof.
  induction vs as [|v vs IH]; [done|]. cbn [map foldr is_nil]. rewrite IH. unfold prepend.
  destruct vs as [|v' vs]; [done|]. cbn [is_nil]. by rewrite lookup_insert_eq, insert_insert_eq.
Qed.

Lemma gathered q ks k : NoDup ks → (∀ k, q !! k ≠ Some []) →
  foldr prepend ∅ (flat_map (values_of q) ks) !! k = if decide (k ∈ ks) then q !! k else None.
Proof.
  intros Hn Hq. induction Hn as [|k0 ks Hk Hn IH]; [cbn; rewrite lookup_empty; case_decide; [set_solver|done]|]. cbn [flat_map].
  rewrite foldr_app. unfold values_of at 2. rewrite prepend_all. set (m := foldr prepend ∅ _) in *.
  destruct (decide (k = k0)) as [->|Hne].
  - rewrite decide_True by left. rewrite decide_False in IH by done.
    specialize (Hq k0). destruct (q !! k0) as [[|v vs]|]; cbn; [done| |by rewrite IH].
    by rewrite lookup_insert_eq, IH, app_nil_r.
  - rewrite (decide_ext _ (k ∈ ks)) by set_solver. destruct (is_nil _); [done|]. by rewrite lookup_insert_ne.
Qed.

(** url.ParseQuery of what url.Values.Encode writes. *)
Lemma ParseQuery_Encode q : (∀ k, q !! k ≠ Some []) → ParseQuery (Encode q) = Some q.
Proof.
  intros Hq. unfold ParseQuery, Encode. set (ks := merge_sort text_order (elements (dom q))).
  assert (flat_map (λ k, map (λ v, QueryEscape k +:+ "=" +:+ QueryEscape v) (default [] (q !! k))) ks
          = map pair_text (flat_map (values_of q) ks)) as ->.
  { induction ks as [|k ks IH]; [done|]. cbn [flat_map]. rewrite map_app, <- IH. f_equal. unfold values_of. by rewrite map_map. }
  assert (NoDup ks ∧ ∀ k, k ∈ ks ↔ is_Some (q !! k)) as [Hn Hks].
  { unfold ks. split; [rewrite (merge_sort_Permutation text_order); apply NoDup_elements|].
    intros k. rewrite (merge_sort_Permutation text_order). by rewrite elem_of_elements, elem_of_dom. }
  transitivity (foldr prepend ∅ <$> Some (flat_map (values_of q) ks)).
  - destruct (flat_map (values_of q) ks) as [|kv l] eqn:E; [done|]. rewrite split_join; [by rewrite query_pairs_text|done|].
    apply Forall_map, Forall_true. intros kv'. by apply pair_text_without.
  - cbn. f_equal. apply map_eq. intros k. rewrite gathered by done. destruct (decide (k ∈ ks)) as [Hk|Hk]; [done|].
    destruct (q !! k) eqn:E; [|done]. exfalso. apply Hk, Hks. by rewrite E.
Qed.

(** ** Paths *)

Definition plain_path (s : string) : Prop :=
  all_chars (λ c, negb (Ascii.eqb c "?") && negb (Ascii.eqb c "%")) s = true.

Lemma plain_path_parts s : plain_path s →
  all_chars (λ c, negb (Ascii.eqb c "?")) s = true ∧ all_chars (λ c, negb (Ascii.eqb c "%")) s = true.
Proof. intros H. split; (eapply all_chars_impl; [|exact H]); by intros c [? ?]%andb_true_iff. Qed.

Lemma escape_no_question s : all_chars (λ c, negb (Ascii.eqb c "?")) (PathEscape s) = true.
Proof.
  unfold PathEscape, escape. induction s as [|c s IH]; [done|]. change (chars (String c s)) with (c :: chars s); cbn [map].
  rewrite sconcat_cons, all_chars_app, IH, andb_true_r. clear. destruct c as [[] [] [] [] [] [] [] []]; vm_compute; reflexivity.
Qed.

Lemma pretty_char_digit m : is_digit (pretty_N_char m) = true.
Proof. unfold pretty_N_char. by repeat case_match. Qed.

Lemma pretty_N_go_digits x s : all_chars is_digit s = true → all_chars is_digit (pretty_N_go x s) = true.
Proof.
  revert s. induction (N.lt_wf_0 x) as [x _ IH]; intros s Hs. destruct (decide (x = 0)%N) as [->|Hx]; [done|].
  rewrite pretty_N_go_step by lia. apply IH; [apply N.div_lt; lia|]. by rewrite all_chars_cons, pretty_char_digit.
Qed.

Lemma pretty_pos_digits n : 1 ≤ n → all_chars is_digit (pretty n) = true.
Proof. intros H. destruct n as [|p|p]; try lia. exact (pretty_N_go_digits (N.pos p) "" eq_refl). Qed.

Lemma digits_without d s : is_digit d = false → all_chars is_digit s = true → all_chars (λ c, negb (Ascii.eqb c d)) s = true.
Proof. intros Hd. apply all_chars_impl. intros c Hc. destruct (Ascii.eqb_spec c d) as [->|]; [congruence|done]. Qed.

Lemma validateRepo_parts repo : validateRepo repo = true → ∃ owner name, repo = owner +:+ "/" +:+ name ∧
  cut "/" repo = Some (owner, name) ∧ all_chars (λ c, negb (Ascii.eqb c "/")) owner = true ∧
  all_chars (λ c, negb (Ascii.eqb c "/")) name = true.
Proof.
  unfold validateRepo. destruct (cut "/" repo) as [[owner name]|] eqn:E; [|done]. intros H. exists owner, name.
  pose proof (cut_spec _ _ _ _ E) as Hr. split_and!; [done|done| |].
  - clear H Hr. revert repo owner E. intros repo. induction repo as [|c repo IH]; intros owner E; cbn in E; [done|].
    destruct (Ascii.eqb c "/") eqn:Ec; [by simplify_eq|]. destruct (cut "/" repo) as [[a b]|]; [|done]. simplify_eq.
    rewrite all_chars_cons, Ec. by apply IH.
  - apply negb_true_iff in H. apply orb_false_iff in H as [_ H]. clear -H. induction name as [|c name IH]; [done|].
    unfold GoStrings.contains in *. cbn [index_of has_prefix] in H. rewrite all_chars_cons, Ascii.eqb_sym.
    destruct (Ascii.eqb "/" c); cbn [andb] in H; [done|]. apply IH. by destruct (index_of _ name).
Qed.

Lemma listed_unescaped repo t : validateRepo repo = true → plain_path t →
  path_unescape (issueListPath repo +:+ t) = Some ("/v1/repos/" +:+ repo +:+ "/issues" +:+ t).
Proof.
  intros Hr Ht. destruct (validateRepo_parts repo Hr) as (owner & name & -> & Hc & _ & _). unfold issueListPath. rewrite Hc.
  rewrite !sapp_assoc, (path_unescape_plain "/v1/repos/") by done. rewrite path_unescape_escape.
  rewrite (path_unescape_plain "/") by done. rewrite path_unescape_escape, (path_unescape_plain "/issues") by done.
  rewrite <- (sapp_nil_r t) at 1. rewrite path_unescape_plain by by apply plain_path_parts. cbn. by rewrite sapp_nil_r.
Qed.

Lemma listed_no_question repo : validateRepo repo = true → all_chars (λ c, negb (Ascii.eqb c "?")) (issueListPath repo) = true.
Proof.
  intros Hr. destruct (validateRepo_parts repo Hr) as (owner & name & _ & Hc & _ & _). unfold issueListPath. rewrite Hc.
  by rewrite !all_chars_app, !escape_no_question.
Qed.

Lemma split_repo repo t : validateRepo repo = true →
  ∃ owner name, repo = owner +:+ "/" +:+ name ∧
    split_at "/" (trim_prefix "/v1/repos/" ("/v1/repos/" +:+ repo +:+ "/issues" +:+ t)) = owner :: name :: split_at "/" ("issues" +:+ t).
Proof.
  intros Hr. destruct (validateRepo_parts repo Hr) as (owner & name & -> & _ & Ho & Hn). exists owner, name. split; [done|].
  rewrite (trim_prefix_app "/v1/repos/"). rewrite !sapp_assoc.
  change (split_at "/" (owner +:+ String "/" (name +:+ String "/" ("issues" +:+ t))) = owner :: name :: split_at "/" ("issues" +:+ t)).
  by rewrite !split_app.
Qed.

(** ** The requests *)

Lemma has_prefix_app p s : has_prefix p (p +:+ s) = true.
Proof. induction p as [|c p IH]; [by rewrite sapp_nil; destruct s|]. rewrite sapp_cons. cbn. by rewrite Ascii.eqb_refl. Qed.

(** The path and the query of a URL under [base], unescaped, and where the router sends them. *)
Definition broker_reads (base : string) (q : http_request) : option (string * endpoint * gmap string (list string)) :=
  if has_prefix base (q_URL q) then
    let target := sdrop (String.length base) (q_URL q) in
    let '(path, raw) := default (target, "") (cut "?" target) in
    path ← path_unescape path;
    query ← ParseQuery raw;
    route ← handleRepoAPI (q_Method q) path;
    Some (route, query)
  else None.

Inductive op :=
| Report (i : ReportIssueInput) | Read (repo : string) (number : Z) | Search (i : SearchIssuesInput)
| Comments (repo : string) (number : Z).

Definition repo_of (o : op) : string :=
  trim_space match o with Report i => in_Repo i | Read repo _ | Comments repo _ => repo | Search i => q_Repo i end.
Definition endpoint_of (o : op) : endpoint :=
  match o with
  | Report _ => IssueCreate | Read _ n => IssueGet (pretty n) | Search _ => IssueList | Comments _ n => IssueComments (pretty n)
  end.
Definition query_of (o : op) : gmap string (list string) := match o with Search i => search_query i | _ => ∅ end.

Lemma reads_plain base method repo t ep query raw auth body :
  validateRepo repo = true → plain_path t → ParseQuery raw = Some query →
  (∀ owner name, repo = owner +:+ "/" +:+ name →
     handleRepoAPI method ("/v1/repos/" +:+ repo +:+ "/issues" +:+ t) = Some (repo, ep)) →
  ∀ tail, (tail = "" ∧ raw = "" ∨ tail = "?" +:+ raw) →
  broker_reads base {| q_Method := method; q_URL := base +:+ issueListPath repo +:+ t +:+ tail; q_Authorization := auth; q_Body := body |}
  = Some (repo, ep, query).
Proof.
  intros Hr Ht Hq Hh tail Htail. unfold broker_reads. cbn [q_URL q_Method].
  assert (has_prefix base (base +:+ issueListPath repo +:+ t +:+ tail) = true) as -> by apply has_prefix_app.
  rewrite sdrop_app by done.
  assert (default (issueListPath repo +:+ t +:+ tail, "") (cut "?" (issueListPath repo +:+ t +:+ tail)) = (issueListPath repo +:+ t, raw)) as ->.
  { assert (all_chars (λ c, negb (Ascii.eqb c "?")) (issueListPath repo +:+ t) = true) as Hn.
    { rewrite all_chars_app, listed_no_question by done. by apply plain_path_parts. }
    destruct Htail as [[-> ->]| ->].
    - rewrite sapp_nil_r. by rewrite cut_none.
    - rewrite <- sapp_assoc. change ("?" +:+ raw) with (String "?" raw). by rewrite cut_app. }
  rewrite listed_unescaped by done. cbn. rewrite Hq. cbn.
  destruct (validateRepo_parts repo Hr) as (owner & name & E & _). by rewrite (Hh owner name E).
Qed.

Section Reports.
Variables (cfg : Config) (net : http_request → result read_error http_response).
Context {A B C : Type} (d_result : string → option GitHubResult) (d_issue : string → option A) (d_issues : string → option B)
  (d_comments : string → option C).

Definition requests (o : op) : list http_request :=
  match o with
  | Report i => (ReportIssue cfg net d_result i).1
  | Read repo n => (GetIssue cfg net d_issue repo n).1
  | Search i => (SearchIssues cfg net d_issues i).1
  | Comments repo n => (ListIssueComments cfg net d_comments repo n).1
  end.

Definition base : string := trim_right_slash (BrokerURL cfg).

(** A label that a report may carry. *)
Definition permitted_label (l : string) : Prop :=
  l ≠ "" ∧ ∃ a, l = trim_space a ∧ (a = DefaultLabel cfg ∨ a ∈ AllowedLabels cfg).

(** What a report asks the broker to create. *)
Definition proper (r : IssueCreateRequest) : Prop :=
  is_Title r ≠ "" ∧ Z.of_nat (String.length (is_Title r)) ≤ MaxTitleLength cfg ∧
  is_Body r ≠ "" ∧ Z.of_nat (String.length (is_Body r)) ≤ MaxBodyLength cfg ∧
  NoDup (is_Labels r) ∧ Forall permitted_label (is_Labels r) ∧
  (trim_space (DefaultLabel cfg) ≠ "" → trim_space (DefaultLabel cfg) ∈ is_Labels r) ∧
  is_Metadata r !! "Agent-Id" = Some (BrokerAgentID cfg) ∧ (∃ key, key ≠ "" ∧ is_Metadata r !! "Dedupe-Key" = Some key).

Lemma containsString_spec l x : containsString l x = true ↔ x ∈ l.
Proof.
  unfold containsString. induction l as [|y l IH]; cbn; [split; [done|by intros ?%not_elem_of_nil]|].
  rewrite orb_true_iff, IH, elem_of_cons, String.eqb_eq. naive_solver.
Qed.

Lemma add_label_ok out l : NoDup out → Forall permitted_label out → (l = DefaultLabel cfg ∨ l ∈ AllowedLabels cfg) →
  NoDup (add_label out l) ∧ Forall permitted_label (add_label out l) ∧ out ⊆ add_label out l ∧
  (trim_space l ≠ "" → trim_space l ∈ add_label out l).
Proof.
  intros Hn Hf Hl. unfold add_label. cbv zeta. destruct (String.eqb_spec (trim_space l) "") as [E|E]; [by split_and!|].
  destruct (containsString out (trim_space l)) eqn:Ec; cbn [orb].
  { apply containsString_spec in Ec. by split_and!. }
  assert (trim_space l ∉ out) by by rewrite <- containsString_spec, Ec.
  split_and!; [| |set_solver|set_solver].
  - apply NoDup_app. split_and!; [done|set_solver|by apply NoDup_singleton].
  - apply Forall_app. split; [done|]. apply Forall_singleton. split; [done|]. by exists l.
Qed.

Lemma labels_from_ok requested out r : NoDup out → Forall permitted_label out → labels_from cfg requested out = Ok r →
  NoDup r ∧ Forall permitted_label r ∧ out ⊆ r.
Proof.
  revert out. induction requested as [|l requested IH]; intros out Hn Hf; cbn [labels_from].
  { by intros [= <-]. }
  destruct (String.eqb_spec (trim_space l) "") as [|Hl]; cbn [orb]; [by apply IH|].
  destruct (trim_space l =? DefaultLabel cfg)%string; [by apply IH|].
  destruct (containsString (AllowedLabels cfg) (trim_space l)) eqn:Ec; cbn [negb]; [|done]. apply containsString_spec in Ec.
  destruct (add_label_ok out (trim_space l)) as (Hn' & Hf' & Hs & _); [done|done|by right|].
  intros H. destruct (IH _ Hn' Hf' H) as (? & ? & ?). split_and!; [done|done|set_solver].
Qed.

Lemma metadata_agent i key : metadata cfg i key !! "Agent-Id" = Some (BrokerAgentID cfg) ∧ metadata cfg i key !! "Dedupe-Key" = Some key.
Proof. unfold metadata. repeat case_match; by split; simplify_map_eq. Qed.

Lemma reported_ok i repo r : report cfg i = Ok (repo, r) →
  repo = trim_space (in_Repo i) ∧ allowedRepo (Repositories cfg) repo = true ∧ proper r.
Proof.
  unfold report. cbv zeta. rewrite !fail_if_ok. intros (H1 & H2 & H3 & H4 & H5 & H6 & (ls & Hl & [= <- <-])%bind_ok).
  bool_hyps. unfold labels in Hl.
  destruct (add_label_ok [] (DefaultLabel cfg)) as (Hn & Hf & _ & Hin); [apply NoDup_nil_2|done|by left|].
  destruct (labels_from_ok _ _ _ Hn Hf Hl) as (? & ? & Hs). destruct (metadata_agent i (trim_space (DedupeKey i))).
  split; [done|]. split; [done|]. split_and!; cbn; try done; try lia; eauto.
Qed.

Lemma exchange_sent {D} (parse : string → option D) method path body q : q ∈ (exchange cfg net parse method path body).1 →
  (exchange cfg net parse method path body).1 = [q] ∧
  q = {| q_Method := method; q_URL := base +:+ path; q_Authorization := basic cfg; q_Body := body |}.
Proof. unfold exchange. destruct (negb _); [by intros ?%not_elem_of_nil|]. cbn. by intros ->%list_elem_of_singleton. Qed.

Lemma numbered_sent {D} repo n (k : string → list http_request * result report_error D) q : q ∈ (numbered cfg repo n k).1 →
  numbered cfg repo n k = k (trim_space repo) ∧ allowedRepo (Repositories cfg) (trim_space repo) = true ∧ 1 ≤ n.
Proof.
  unfold numbered. destruct (allowedRepo _ _); cbn [negb]; [|by intros ?%not_elem_of_nil].
  destruct (Z.ltb_spec n 1); [by intros ?%not_elem_of_nil|]. done.
Qed.

Lemma allowed_item repo : allowedRepo (Repositories cfg) repo = true → ∃ item, item ∈ Repositories cfg ∧ equal_fold item repo = true.
Proof. unfold allowedRepo. intros (x & Hin & ?)%existsb_exists. exists x. by rewrite list_elem_of_In. Qed.

(** The broker's agent for the reporter; its ID has no colon and no space around it. *)
Definition registered (bcfg : GitTransport.Config) (agent : Agent) : Prop :=
  AgentByID bcfg (BrokerAgentID cfg) = Some agent ∧ ag_Enabled (policy_agent agent) = true ∧
  Secret agent = BrokerAgentSecret cfg ∧ BrokerAgentSecret cfg ≠ "" ∧ BrokerAgentID cfg ≠ "" ∧
  trim_space (BrokerAgentID cfg) = BrokerAgentID cfg ∧ all_chars (λ c, negb (Ascii.eqb c ":")) (BrokerAgentID cfg) = true.

Lemma auth_reads bcfg agent : registered bcfg agent →
  AuthenticateAgent {["Authorization" := [basic cfg]]} bcfg = Some (agent, BrokerAgentID cfg).
Proof.
  intros (Ha & He & Hs & Hne & Hid & Ht & Hc). unfold AuthenticateAgent, BasicAuth, header_get.
  rewrite !lookup_singleton_ne, lookup_singleton_eq by done. cbn [orb String.eqb].
  unfold basic. rewrite (stake_app 6 "Basic ") by done. rewrite (sdrop_app 6 "Basic ") by done.
  change (ascii_equal_fold "Basic " "Basic ") with true. cbn iota. rewrite base64_roundtrip.
  change (":" +:+ BrokerAgentSecret cfg) with (String ":" (BrokerAgentSecret cfg)). rewrite cut_app by done. cbn.
  rewrite Ht, Ha, He, Hs, String.eqb_refl. by rewrite !(proj2 (String.eqb_neq _ "")) by done.
Qed.

Lemma reads_numbered method repo n rest ep auth body : 1 ≤ n → validateRepo repo = true → rest = "" ∨ rest = "/comments" →
  handleRepoAPI method ("/v1/repos/" +:+ repo +:+ "/issues" +:+ "/" +:+ pretty n +:+ rest) = Some (repo, ep) →
  broker_reads base {| q_Method := method; q_URL := base +:+ issueNumberPath repo n +:+ rest; q_Authorization := auth; q_Body := body |}
  = Some (repo, ep, ∅).
Proof.
  intros Hn Hr Hrest Hh.
  replace (base +:+ issueNumberPath repo n +:+ rest) with (base +:+ issueListPath repo +:+ ("/" +:+ pretty n +:+ rest) +:+ "").
  2: { unfold issueNumberPath. by rewrite !sapp_assoc, sapp_nil_r. }
  apply (reads_plain _ _ _ _ _ _ ""); [done| |done|done|by left].
  unfold plain_path. rewrite !all_chars_app.
  assert (all_chars (λ c, negb (Ascii.eqb c "?") && negb (Ascii.eqb c "%")) (pretty n) = true) as ->.
  { eapply all_chars_impl; [|by apply pretty_pos_digits]. intros c Hc. destruct (Ascii.eqb_spec c "?") as [->|]; [done|].
    by destruct (Ascii.eqb_spec c "%") as [->|]. }
  by destruct Hrest as [-> | ->].
Qed.

Lemma route_of o : validateRepo (repo_of o) = true → match o with Read _ n | Comments _ n => 1 ≤ n | _ => True end →
  handleRepoAPI (match o with Report _ => "POST" | _ => "GET" end)
    ("/v1/repos/" +:+ repo_of o +:+ "/issues" +:+
       match o with Read _ n => "/" +:+ pretty n +:+ "" | Comments _ n => "/" +:+ pretty n +:+ "/comments" | _ => "" end)
  = Some (repo_of o, endpoint_of o).
Proof.
  intros Hr Hn. unfold handleRepoAPI. set (t := match o with Read _ _ => _ | _ => _ end).
  destruct (split_repo (repo_of o) t Hr) as (owner & name & E & ->). rewrite E. unfold t. destruct o; cbn [endpoint_of].
  - done.
  - change ("issues" +:+ "/" +:+ pretty number +:+ "") with ("issues" +:+ String "/" (pretty number +:+ "")).
    rewrite sapp_nil_r, split_app, split_none by (done || by apply digits_without, pretty_pos_digits). done.
  - done.
  - change ("issues" +:+ "/" +:+ pretty number +:+ "/comments") with ("issues" +:+ String "/" (pretty number +:+ String "/" "comments")).
    rewrite !split_app by (done || by apply digits_without, pretty_pos_digits). done.
Qed.

Lemma search_query_full i k : search_query i !! k ≠ Some [].
Proof.
  unfold search_query, set_text. repeat case_match; intros E; repeat (apply lookup_insert_Some in E as [[_ ?]|[_ E]]; [done|]);
    by apply lookup_singleton_Some in E as [_ ?].
Qed.

Lemma requests_read o q : q ∈ requests o →
  requests o = [q] ∧ allowedRepo (Repositories cfg) (repo_of o) = true ∧ q_Authorization q = basic cfg ∧
  (validateRepo (repo_of o) = true → broker_reads base q = Some (repo_of o, endpoint_of o, query_of o)) ∧
  match o with Report _ => ∃ r, q_Body q = Some (marshal_issue r) ∧ proper r | _ => q_Body q = None end.
Proof.
  destruct o as [i|repo n|i|repo n]; cbn [requests].
  - unfold ReportIssue. destruct (report cfg i) as [[repo r]|] eqn:E; [|by intros ?%not_elem_of_nil].
    apply reported_ok in E as (-> & Ha & Hp). unfold postIssue, issuePath.
    destruct (validateRepo (trim_space (in_Repo i))) eqn:Hr; [|by intros ?%not_elem_of_nil].
    pose proof (λ q, exchange_sent d_result "POST" (issueListPath (trim_space (in_Repo i))) (Some (marshal_issue r)) q) as He.
    destruct (exchange _ _ _ _ _ _) as [sent res]. cbn in *. intros [-> ->]%He. split_and!; [done|done|done| |by exists r].
    intros _. rewrite <- (sapp_nil_r (issueListPath _)).
    apply (reads_plain base "POST" _ "" IssueCreate ∅ ""); [done|done|done| |by left]. intros. by apply (route_of (Report i)).
  - intros Hq. pose proof (numbered_sent _ _ _ _ Hq) as (E & Ha & Hn). unfold GetIssue in *. rewrite E in Hq |- *.
    unfold getJSON in *. apply exchange_sent in Hq as [-> ->]. split_and!; [done|done|done| |done]. intros Hr.
    rewrite <- (sapp_nil_r (issueNumberPath _ _)). apply reads_numbered; [done|done|by left|by apply (route_of (Read repo n))].
  - unfold SearchIssues. cbv zeta. destruct (allowedRepo _ _) eqn:Ha; cbn [negb]; [|by intros ?%not_elem_of_nil].
    destruct (List.find _ _); [by intros ?%not_elem_of_nil|]. unfold getJSON. intros [-> ->]%exchange_sent.
    split_and!; [done|done|done| |done]. intros Hr. cbn [repo_of] in *.
    apply (reads_plain base "GET" _ "" IssueList (search_query i) (Encode (search_query i))); [done|done| | |by right].
    + apply ParseQuery_Encode, search_query_full.
    + intros. by apply (route_of (Search i)).
  - intros Hq. pose proof (numbered_sent _ _ _ _ Hq) as (E & Ha & Hn). unfold ListIssueComments in *. rewrite E in Hq |- *.
    unfold getJSON in *. apply exchange_sent in Hq as [-> ->]. split_and!; [done|done|done| |done]. intros Hr.
    apply reads_numbered; [done|done|by right|by apply (route_of (Comments repo n))].
Qed.

(** C37: whatever the broker answers, a call of the reporter sends at most one
    request, and only for a repository of its configuration.  The broker's
    router and its parsers of paths, queries and credentials read back from it
    exactly what the reporter meant: the endpoint, the repository, the query and
    the reporter's own agent.  A report's title and body are within the bounds,
    its labels are distinct and configured ones, the forced label among them, and
    it carries the agent and a key. *)
Theorem reports_understood o q : q ∈ requests o →
  requests o = [q] ∧ (∃ item, item ∈ Repositories cfg ∧ equal_fold item (repo_of o) = true) ∧
  (validateRepo (repo_of o) = true → broker_reads base q = Some (repo_of o, endpoint_of o, query_of o)) ∧
  (∀ bcfg agent, registered bcfg agent →
     AuthenticateAgent {["Authorization" := [q_Authorization q]]} bcfg = Some (agent, BrokerAgentID cfg)) ∧
  match o with Report _ => ∃ r, q_Body q = Some (marshal_issue r) ∧ proper r | _ => q_Body q = None end.
Proof.
  intros Hq. destruct (requests_read o q Hq) as (? & Ha & -> & ? & ?). split_and!; try done; [by apply allowed_item|].
  intros. by apply auth_reads.
Qed.
End Reports.

(** ** Examples *)

Definition sample (default_label : string) : Config :=
  {| Listen := ""; MCPPath := ""; BrokerURL := "http://broker:8080/"; BrokerAgentID := "reporter"; BrokerAgentSecret := "s3:cret";
     BrokerAgentSecretEnv := ""; Repositories := ["Acme/App"]; DefaultLabel := default_label; AllowedLabels := ["bug"];
     MaxTitleLength := 0; MaxBodyLength := 0 |}.
Definition loaded (default_label : string) : Config := ApplyDefaults (sample default_label).
Definition created_net (q : http_request) : result read_error http_response :=
  Ok {| h_Status := 201; h_Location := ""; h_Body := Ok "created" |}.
Definition created_issue (b : string) : option GitHubResult :=
  Some {| URL := ""; HTMLURL := ""; Number := 12; ID := 5; g_CreatedAt := b |}.
Definition a_report (labels : list string) : ReportIssueInput :=
  {| in_Repo := " acme/app "; in_Title := "It breaks"; in_Body := "when started"; DedupeKey := "k1"; in_Labels := labels;
     SourceAgentID := "agent-7"; SourceRunID := "" |}.
Definition a_search (labels : list string) : SearchIssuesInput :=
  {| q_Repo := "acme/app"; q_State := ""; q_Labels := labels; q_Assignee := "a&b=c"; q_BodyMarker := "50% + 1" |}.

Example load_ex :
  Load (λ _, Some (sample "")) (λ _, "") (Some "yaml") = Some (loaded "agent-reported") ∧
  Load (λ _, Some (sample "")) (λ _, "") None = None.
Proof. vm_compute. done. Qed.

Example report_ex :
  let '(sent, r) := ReportIssue (loaded "") created_net created_issue (a_report ["bug"; " bug"; ""]) in
  map q_URL sent = ["http://broker:8080/v1/repos/acme/app/issues"] ∧ (o_Number <$> (match r with Ok o => Some o | Err _ => None end)) = Some 12 ∧
  ((λ r, is_Labels r.2) <$> (match report (loaded "") (a_report ["bug"; " bug"; ""]) with Ok x => Some x | Err _ => None end)) = Some ["agent-reported"; "bug"].
Proof. vm_compute. done. Qed.

(** Labels that are forced, under the name the capabilities give them, are
    refused when the configuration has a space around them. *)
Example forced_label_refused :
  ForcedLabels (Capabilities (loaded " triage")) = ["triage"] ∧
  (ReportIssue (loaded " triage") created_net created_issue (a_report ["triage"])).2 = Err (LabelNotAllowed "triage") ∧
  (SearchIssues (loaded " triage") created_net created_issue (a_search ["triage"])).2 = Err (LabelNotAllowed "triage").
Proof. vm_compute. done. Qed.

Definition search_request : http_request :=
  {| q_Method := "GET"; q_URL := "http://broker:8080/v1/repos/acme/app/issues?assignee=a%26b%3Dc&body_marker=50%25+%2B+1&labels=bug&state=open";
     q_Authorization := basic (loaded ""); q_Body := None |}.

Lemma reports_understood_witness :
  search_request ∈ requests (loaded "") created_net created_issue created_issue created_issue created_issue (Search (a_search ["bug"])) ∧
  broker_reads (base (loaded "")) search_request = Some ("acme/app", IssueList, search_query (a_search ["bug"])).
Proof.
  assert (search_request ∈ requests (loaded "") created_net created_issue created_issue created_issue created_issue (Search (a_search ["bug"]))) as H.
  { vm_compute. left. }
  split; [exact H|].
  refine (proj1 (proj2 (proj2 (reports_understood (loaded "") created_net created_issue created_issue created_issue created_issue
    (Search (a_search ["bug"])) search_request H))) eq_refl).
Defined.
