(* ===== verification/CodexRelay.v ===== *)
(** * internal/codexrelay: the relay of the Codex API

    Execution containers reach the ChatGPT subscription API through a relay that
    forwards three endpoints of one origin and nothing else.  The upstream's
    answer is an argument, its body the chunks that reading it gives. *)

From S2P Require Import Prelude GoStrings Net Url.
Open Scope string_scope.
Open Scope list_scope.
Open Scope Z_scope.

#[local] Notation headers := (gmap string (list string)).

Definition CodexVersion := "0.146.0".
Definition Origin := "https://chatgpt.com".
Definition maxRequestBody : Z := 16 * 1024 * 1024.
Definition maxResponseBody : Z := 64 * 1024 * 1024.
Definition maxHeaderValue : Z := 16 * 1024.

Definition allowed (path : string) : option string :=
  if (path =? "/backend-api/codex/models")%string then Some "GET"
  else if (path =? "/backend-api/codex/responses")%string then Some "POST"
  else if (path =? "/backend-api/codex/responses/compact")%string then Some "POST"
  else None.

(** ** Requests and responses *)

(** [rq_Path] is decoded; [rq_RawPath] is set when its encoding is not the
    default one.  [rq_Body]: what reading all of it gives. *)
Record request := {
  rq_Method : string; rq_Path : string; rq_RawPath : string; rq_RawQuery : string; rq_IsAbs : bool; rq_Host : string;
  rq_Header : headers; rq_ContentLength : Z; rq_Body : option string }.

Record upstream_request := { up_Method : string; up_URL : string; up_Header : headers; up_Body : string }.
Record upstream_response := { ur_Status : Z; ur_Header : headers; ur_Chunks : list string }.

(** What is written before the client is gone: all of it when it stays. *)
Record outcome := {
  o_Sent : option upstream_request; o_Status : Z; o_Header : headers; o_Written : list string }.

Definition http_error (sent : option upstream_request) (code : Z) (what : string) : outcome :=
  {| o_Sent := sent; o_Status := code; o_Header := ∅; o_Written := [what] |}.

(** ** Queries *)

(** url.URL.Query: malformed pairs are dropped. *)
Definition Query (raw : string) : gmap string (list string) :=
  foldr (λ '(k, v) m, <[k := v :: default [] (m !! k)]> m) ∅
    (omap (λ part, match query_pair part with Some (Some kv) => Some kv | _ => None end) (split_at "&" raw)).

Definition validQuery (r : request) : bool :=
  let query := Query (rq_RawQuery r) in
  if (rq_Path r =? "/backend-api/codex/models")%string then
    (rq_RawQuery r =? "client_version=" +:+ CodexVersion)%string &&
    bool_decide (query = {["client_version" := [CodexVersion]]})
  else bool_decide (query = ∅).

(** ** Bodies *)

Definition readRequestBody (r : request) : option string :=
  if (rq_Method r =? "GET")%string then
    match rq_Body r with Some "" => Some "" | _ => None end
  else if maxRequestBody <? rq_ContentLength r then None
  else match rq_Body r with
       | Some body => if maxRequestBody <? Z.of_nat (String.length body) then None else Some body
       | None => None
       end.

(** The chunks that are written: the first one that would pass the bound ends the answer. *)
Fixpoint streamBounded (written : Z) (chunks : list string) : list string :=
  match chunks with
  | [] => []
  | c :: chunks =>
    let n := Z.of_nat (String.length c) in
    if maxResponseBody <? written + n then [] else c :: streamBounded (written + n) chunks
  end.

(** ** Headers *)

(** Under their canonical names. *)
Definition other_headers : list string :=
  ["Accept"; "Content-Type"; "User-Agent"; "Originator"; "Chatgpt-Account-Id"; "Openai-Beta"; "X-Codex-Turn-Metadata"].
Definition request_headers : list string := "Authorization" :: other_headers.
Definition response_headers : list string := ["Content-Type"; "Cache-Control"; "X-Request-Id"; "Openai-Processing-Ms"].

Definition is_line_break (c : ascii) : bool := (code c =? 10)%nat || (code c =? 13)%nat.
Definition long (v : string) : bool := maxHeaderValue <? Z.of_nat (String.length v).

Fixpoint copyRequestHeaders (names : list string) (src dst : headers) : option headers :=
  match names with
  | [] => Some dst
  | name :: names =>
    match default [] (src !! name) with
    | [] => copyRequestHeaders names src dst
    | [v] => if long v || existsb is_line_break (chars v) then None else copyRequestHeaders names src (<[name := [v]]> dst)
    | _ => None
    end
  end.

Definition copyResponseHeaders (src : headers) : headers :=
  fold_left (λ dst name, let v := header_get src name in
    if (v =? "")%string || long v then dst else <[name := [v]]> dst) response_headers ∅.

(** ** ServeHTTP *)

Definition target (r : request) : string :=
  Origin +:+ rq_Path r +:+ (if (rq_RawQuery r =? "")%string then "" else "?" +:+ rq_RawQuery r).

Definition is_url (url : string) : bool := bool_decide (is_Some (Parse url)).

Definition admitted (r : request) : bool :=
  bool_decide (allowed (rq_Path r) = Some (rq_Method r)) && (rq_RawPath r =? "")%string && negb (rq_IsAbs r) &&
  (rq_Host r =? "")%string && validQuery r &&
  negb (header_get (rq_Header r) "Authorization" =? "")%string && negb (long (header_get (rq_Header r) "Authorization")) &&
  has_prefix "Bearer " (header_get (rq_Header r) "Authorization") &&
  negb ((rq_Method r =? "POST")%string && negb (header_get (rq_Header r) "Content-Type" =? "application/json")%string).

Definition ServeHTTP (Do : upstream_request → option upstream_response) (r : request) : outcome :=
  if negb (admitted r) then http_error None 403 "denied" else
  match readRequestBody r with
  | None => http_error None 413 "request body exceeds limit"
  | Some body =>
    if negb (is_url (target r)) then http_error None 502 "upstream request failed" else
    match copyRequestHeaders request_headers (rq_Header r) ∅ with
    | None => http_error None 403 "denied"
    | Some h =>
      let req := {| up_Method := rq_Method r; up_URL := target r; up_Header := h; up_Body := body |} in
      match Do req with
      | None => http_error (Some req) 502 "upstream request failed"
      | Some resp =>
        if (300 <=? ur_Status resp) && (ur_Status resp <? 400) then http_error (Some req) 502 "upstream redirect denied" else
        {| o_Sent := Some req; o_Status := ur_Status resp; o_Header := copyResponseHeaders (ur_Header resp);
           o_Written := streamBounded 0 (ur_Chunks resp) |}
      end
    end
  end.

(** ** What reaches the origin *)

Definition total (l : list string) : Z := foldr (λ c n, Z.of_nat (String.length c) + n) 0 l.

Lemma total_cons c l : total (c :: l) = Z.of_nat (String.length c) + total l.
Proof. done. Qed.

Lemma total_pos l : 0 ≤ total l.
Proof. induction l as [|c l IH]; [done|]. rewrite total_cons. lia. Qed.

Lemma streamBounded_prefix written chunks : 0 ≤ written ≤ maxResponseBody →
  (∃ rest, chunks = streamBounded written chunks ++ rest) ∧ written + total (streamBounded written chunks) ≤ maxResponseBody.
Proof.
  revert written. induction chunks as [|c chunks IH]; intros written Hw; cbn [streamBounded]; [by split; [exists []|change (total []) with 0; lia]|].
  destruct (Z.ltb_spec maxResponseBody (written + Z.of_nat (String.length c))); [by split; [exists (c :: chunks)|change (total []) with 0; lia]|].
  destruct (IH (written + Z.of_nat (String.length c))) as [[rest E] ?]; [lia|].
  split; [exists rest; cbn; by f_equal|rewrite total_cons; lia].
Qed.

(** A body within the bound is streamed whole. *)
Lemma streamBounded_all written chunks : written + total chunks ≤ maxResponseBody → streamBounded written chunks = chunks.
Proof.
  revert written. induction chunks as [|c chunks IH]; intros written Hw; [done|]. rewrite total_cons in Hw. cbn [streamBounded].
  pose proof (total_pos chunks).
  destruct (Z.ltb_spec maxResponseBody (written + Z.of_nat (String.length c))); [lia|]. f_equal. apply IH. lia.
Qed.

(** One value each, none too long or broken. *)
Definition clean_headers (names : list string) (h : headers) : Prop :=
  ∀ name vs, h !! name = Some vs → name ∈ names ∧ ∃ v, vs = [v] ∧ long v = false ∧ existsb is_line_break (chars v) = false.

Lemma copied names all src dst h : names ⊆ all → clean_headers all dst → copyRequestHeaders names src dst = Some h →
  clean_headers all h ∧ ∀ name, name ∉ names → h !! name = dst !! name.
Proof.
  revert dst. induction names as [|name names IH]; intros dst Hs Hd; cbn; [by intros [= <-]|].
  assert (names ⊆ all) as Hs' by set_solver. destruct (default [] (src !! name)) as [|v [|]]; [| |done].
  - intros H. destruct (IH _ Hs' Hd H) as [? Hk]. split; [done|]. intros k Hn. apply Hk. set_solver.
  - destruct (long v || _) eqn:E; [done|]. apply orb_false_iff in E as [El Eb]. intros H.
    destruct (IH (<[name := [v]]> dst) Hs') as [? Hk]; [|done|].
    + intros k vs. rewrite lookup_insert_Some. intros [[<- <-]|[_ Hv]]; [|by apply Hd].
      split; [set_solver|by exists v].
    + split; [done|]. intros k Hn. rewrite Hk, lookup_insert_ne; set_solver.
Qed.

Lemma copied_authorization src h : copyRequestHeaders request_headers src ∅ = Some h → header_get src "Authorization" ≠ "" →
  h !! "Authorization" = Some [header_get src "Authorization"].
Proof.
  unfold header_get. change (copyRequestHeaders request_headers src ∅) with (match default [] (src !! "Authorization") with
    | [] => copyRequestHeaders other_headers src ∅
    | [v] => if long v || existsb is_line_break (chars v) then None else copyRequestHeaders other_headers src (<["Authorization" := [v]]> ∅)
    | _ => None end).
  destruct (src !! "Authorization") as [[|v [|]]|]; [done| |done|done]. cbn [default id from_option].
  destruct (long v || _) eqn:E; [done|]. intros H _.
  assert (other_headers ⊆ request_headers ∧ "Authorization" ∉ other_headers) as [Ht Hn] by (by split; apply (bool_decide_unpack _); vm_compute).
  apply (copied other_headers request_headers) in H as [_ H]; [by rewrite H, lookup_insert_eq|done|].
  intros k vs. rewrite lookup_insert_Some, lookup_empty. intros [[<- <-]|[_ ?]]; [|done].
  apply orb_false_iff in E as [? ?]. split; [left|by exists v].
Qed.

Lemma cut_skip sep p s : all_chars (λ c, negb (Ascii.eqb c sep)) p = true →
  cut sep (p +:+ s) = match cut sep s with Some (a, b) => Some (p +:+ a, b) | None => None end.
Proof.
  induction p as [|c p IH]; [rewrite sapp_nil; destruct (cut sep s) as [[a b]|]; by rewrite ?sapp_nil|].
  rewrite all_chars_cons. intros [Hc Hp]%andb_true_iff. rewrite sapp_cons. cbn [cut]. apply negb_true_iff in Hc.
  rewrite Hc, IH by done. destruct (cut sep s) as [[a b]|]; by rewrite ?sapp_cons.
Qed.

Definition query_part (t : string) : Prop := t = "" ∨ ∃ q, t = "?" +:+ q.

Lemma cut_fragment p t : all_chars (λ c, negb (Ascii.eqb c "#")) p = true → query_part t →
  ∃ t' fragment, query_part t' ∧ (match cut "#" (p +:+ t) with Some x => x | None => (p +:+ t, "") end) = (p +:+ t', fragment).
Proof.
  intros Hp Ht. rewrite cut_skip by done. destruct Ht as [->|[q ->]]; [by exists "", ""; split; [left|]|].
  rewrite (cut_skip "#" "?") by done. destruct (cut "#" q) as [[a b]|].
  - exists ("?" +:+ a), b. split; [by right; exists a|done].
  - exists ("?" +:+ q), "". split; [by right; exists q|done].
Qed.

Definition of_origin (path : string) (u : URL) : Prop :=
  u_Scheme u = "https" ∧ Hostname u = "chatgpt.com" ∧ u_User u = false ∧ u_Path u = path.

Lemma scheme_https rest : getScheme ("https:" +:+ rest) = Some ("https", rest).
Proof. reflexivity. Qed.

Lemma target_origin path method t u : allowed path = Some method → query_part t →
  Parse (Origin +:+ path +:+ t) = Some u → of_origin path u.
Proof.
  intros Ha Ht. rewrite <- sapp_assoc. unfold Parse.
  assert (path = "/backend-api/codex/models" ∨ path = "/backend-api/codex/responses" ∨ path = "/backend-api/codex/responses/compact") as Hin.
  { unfold allowed in Ha. destruct (String.eqb_spec path "/backend-api/codex/models"); [by left|right].
    destruct (String.eqb_spec path "/backend-api/codex/responses"); [by left|right].
    by destruct (String.eqb_spec path "/backend-api/codex/responses/compact"). }
  assert (all_chars (λ c, negb (Ascii.eqb c "#")) (Origin +:+ path) = true) as Hp by (destruct Hin as [->|[->| ->]]; reflexivity).
  destruct (cut_fragment (Origin +:+ path) t Hp Ht) as (t' & fragment & Ht' & ->).
  destruct (negb _ || negb _); [done|].
  assert ((Origin +:+ path) +:+ t' = "https:" +:+ (("//chatgpt.com" +:+ path) +:+ t')) as ->
    by by rewrite !sapp_assoc.
  rewrite scheme_https. destruct ("https:" +:+ _ =? "*")%string eqn:E; [done|].
  assert (∃ query, (match cut "?" (("//chatgpt.com" +:+ path) +:+ t') with Some p => p | None => (("//chatgpt.com" +:+ path) +:+ t', "") end)
                   = ("//chatgpt.com" +:+ path, query)) as [query ->].
  { assert (all_chars (λ c, negb (Ascii.eqb c "?")) ("//chatgpt.com" +:+ path) = true) as Hq by (destruct Hin as [->|[->| ->]]; reflexivity).
    destruct Ht' as [->|[q ->]]; [exists ""; by rewrite sapp_nil_r, cut_none|exists q]. change ("?" +:+ q) with (String "?" q). by rewrite cut_app. }
  destruct Hin as [->|[->| ->]]; intros [= <-]; by split_and!.
Qed.

(** What the request to the origin may be, from the client's. *)
Definition confined (r : request) (q : upstream_request) : Prop :=
  allowed (rq_Path r) = Some (up_Method q) ∧
  (∃ u, Parse (up_URL q) = Some u ∧ of_origin (rq_Path r) u) ∧
  (if (rq_Path r =? "/backend-api/codex/models")%string
   then up_URL q = "https://chatgpt.com/backend-api/codex/models?client_version=0.146.0"
   else Query (rq_RawQuery r) = ∅) ∧
  clean_headers request_headers (up_Header q) ∧
  (∃ token, header_get (rq_Header r) "Authorization" = "Bearer " +:+ token ∧ up_Header q !! "Authorization" = Some ["Bearer " +:+ token]) ∧
  Z.of_nat (String.length (up_Body q)) ≤ maxRequestBody ∧ (up_Method q = "GET" → up_Body q = "").

Lemma target_query r : query_part (if (rq_RawQuery r =? "")%string then "" else "?" +:+ rq_RawQuery r).
Proof. destruct (_ =? _)%string; [by left|right; eauto]. Qed.

Lemma body_ok r body : readRequestBody r = Some body →
  Z.of_nat (String.length body) ≤ maxRequestBody ∧ (rq_Method r = "GET" → body = "").
Proof.
  unfold readRequestBody. destruct (String.eqb_spec (rq_Method r) "GET") as [E|E].
  - destruct (rq_Body r) as [[|]|]; [|done|done]. intros [= <-]. by split.
  - destruct (_ <? _); [done|]. destruct (rq_Body r) as [b|]; [|done]. destruct (Z.ltb_spec maxRequestBody (Z.of_nat (String.length b))); [done|].
    intros [= <-]. by split.
Qed.

Lemma sent_confined r body h : admitted r = true → readRequestBody r = Some body → is_url (target r) = true →
  copyRequestHeaders request_headers (rq_Header r) ∅ = Some h →
  confined r {| up_Method := rq_Method r; up_URL := target r; up_Header := h; up_Body := body |}.
Proof.
  unfold admitted. intros Ha Hb [u Hu]%bool_decide_eq_true Hh. rewrite !andb_true_iff in Ha.
  destruct Ha as [[[[[[[[Hm%bool_decide_eq_true _] _] _] Hq] Hne] _] Hbearer] _].
  apply negb_true_iff, String.eqb_neq in Hne. destruct (body_ok r body Hb) as [? ?].
  assert (header_get (rq_Header r) "Authorization" = "Bearer " +:+ sdrop 7 (header_get (rq_Header r) "Authorization")) as Ht
    by by apply has_prefix_drop.
  split_and!; cbn [up_Method up_URL up_Header up_Body]; try done.
  - exists u. split; [done|]. eapply target_origin; [done|apply target_query|exact Hu].
  - unfold validQuery in Hq. unfold target. destruct (String.eqb_spec (rq_Path r) "/backend-api/codex/models") as [E|E].
    + apply andb_true_iff in Hq as [Hq%String.eqb_eq _]. by rewrite E, Hq.
    + by apply bool_decide_eq_true in Hq.
  - eapply copied; [done| |exact Hh]. by intros ? ? ?%lookup_empty_Some.
  - eexists. split; [exact Ht|]. rewrite <- Ht. by apply copied_authorization.
Qed.

(** C38: whatever the client sends and the origin answers: what the relay sends
    is one of the three requests of its table, parsed by net/url as an https URL
    of the one origin, with the pinned query or none that is well formed, the
    client's bearer token, and single, bounded values of the listed headers; and
    what it answers is a beginning of the origin's body, all of it within the
    bound, with listed headers; a redirect is never passed on.  Without a request
    the answer does not depend on the origin. *)
Theorem relay_confined Do r :
  let out := ServeHTTP Do r in
  match o_Sent out with
  | None => ∀ Do', ServeHTTP Do' r = out
  | Some q => confined r q ∧
    match Do q with
    | None => o_Status out = 502
    | Some resp =>
      if (300 <=? ur_Status resp) && (ur_Status resp <? 400) then o_Status out = 502 ∧ o_Header out = ∅ else
      o_Status out = ur_Status resp ∧ (∃ rest, ur_Chunks resp = o_Written out ++ rest) ∧ total (o_Written out) ≤ maxResponseBody ∧
      (total (ur_Chunks resp) ≤ maxResponseBody → o_Written out = ur_Chunks resp)
    end
  end.
Proof.
  unfold ServeHTTP. destruct (admitted r) eqn:Ha; cbn [negb]; [|done].
  destruct (readRequestBody r) as [body|] eqn:Hb; [|done]. destruct (is_url (target r)) eqn:Hu; cbn [negb]; [|done].
  destruct (copyRequestHeaders _ _ _) as [h|] eqn:Hh; [|done]. pose proof (sent_confined r body h Ha Hb Hu Hh).
  cbv zeta. destruct (Do _) as [resp|] eqn:Ed; cbn [o_Sent http_error]; [|by rewrite Ed].
  destruct (_ && _) eqn:Er; cbn [o_Sent http_error]; rewrite Ed, Er; [done|]. cbn [o_Status o_Written]. split; [done|].
  pose proof (streamBounded_prefix 0 (ur_Chunks resp)) as [? ?]; [done|]. split_and!; [done|done|lia|]. intros. apply streamBounded_all. lia.
Qed.

(** ** Examples *)

Definition ask (method path query : string) : request :=
  {| rq_Method := method; rq_Path := path; rq_RawPath := ""; rq_RawQuery := query; rq_IsAbs := false; rq_Host := "";
     rq_Header := <["Content-Type" := ["application/json"]]> (<["Cookie" := ["c"]]> {["Authorization" := ["Bearer t"]]});
     rq_ContentLength := 2; rq_Body := Some (if (method =? "GET")%string then "" else "{}") |}.
Definition answer_ok (q : upstream_request) : option upstream_response :=
  Some {| ur_Status := 200; ur_Header := <["Set-Cookie" := ["s"]]> {["Content-Type" := ["text/event-stream"]]};
          ur_Chunks := ["data: 1"; "data: 2"] |}.

Example relay_ex :
  let out := ServeHTTP answer_ok (ask "POST" "/backend-api/codex/responses" "") in
  (o_Status out, o_Written out) = (200, ["data: 1"; "data: 2"]) ∧ map_to_list (o_Header out) = [("Content-Type", ["text/event-stream"])] ∧
  (elements ∘ dom ∘ up_Header) <$> o_Sent out = Some ["Content-Type"; "Authorization"].
Proof. split_and!; vm_compute; reflexivity. Qed.

Example relay_denies :
  map (λ r, o_Status (ServeHTTP answer_ok r))
    [ask "GET" "/backend-api/codex/models" ""; ask "GET" "/backend-api/codex/responses" ""; ask "POST" "/backend-api/me" "";
     ask "POST" "/backend-api/codex/responses" "x=1"] = [403; 403; 403; 403].
Proof. vm_compute. reflexivity. Qed.

(** A query that net/url drops as malformed counts as none, and is passed on. *)
Example malformed_query_passed :
  (up_URL <$> o_Sent (ServeHTTP answer_ok (ask "POST" "/backend-api/codex/responses" "store=1;stream=0&a=%zz")))
  = Some "https://chatgpt.com/backend-api/codex/responses?store=1;stream=0&a=%zz".
Proof. vm_compute. reflexivity. Qed.
