(* ===== verification/BrokerConfig.v ===== *)
(** * internal/config and the life of the server's configuration

    The broker's configuration, its defaults, secrets from the environment and
    [Validate]; how a server is built from it ([New]) and reloads it ([Reload]).
    What handlers read of it are the records of GitTransport and PushTripwire,
    which [transport] and [tripwire] project, and that of Limits. *)

From S2P Require Import Prelude GoStrings Net Policy GitTransport PushTripwire GitHubClient GitHubMaterial Limits.
Open Scope string_scope.
Open Scope list_scope.
Open Scope Z_scope.

(** ** Data *)

Record OutboxAPIConfig := { ConsumerToken : string; ConsumerTokenEnv : string; ClaimTTLSeconds : Z; MaxClaimBatch : Z }.
Record CorrelationConfig := {
  StorePath : string; CapabilityAPIURL : string; CapabilityAPIToken : string; CapabilityAPITokenEnv : string;
  Outbox : OutboxAPIConfig }.

#[export] Instance outbox_eq_dec : EqDecision OutboxAPIConfig.
Proof. solve_decision. Defined.

Record TripwireRepository := { tr_GitHubApp : string; BaseRef : string; tr_RefPatterns : list string }.
Record TripwireConfig := {
  tw_Enabled : bool; ScannerID : string; tw_ScannerSecret : string; ScannerSecretEnv : string; StatePath : string;
  tw_Repositories : gmap string TripwireRepository; tw_ResponseProfiles : gmap string PushTripwireResponseProfile;
  Bounds : PushTripwireBounds }.

Record ServerConfig := {
  Listen : string; srv_AdminSecret : string; AdminSecretEnv : string; LocalSandboxOnly : bool; Production : bool }.
Record GitHubConfig := {
  Legacy : GitHubAppConfig; gh_APIBaseURL : string; gh_GitBaseURL : string; gh_Apps : gmap string GitHubAppConfig }.
Record AgentConfig := { ac_Agent : Agent; SecretEnv : string }.

Record Config := {
  Server : ServerConfig; AuditPath : string; Hub : GitHubConfig; MutationLimits : MutationLimitsConfig; IdempotencyPath : string;
  PushTripwire : TripwireConfig;
  Correlation : CorrelationConfig; AgentConfigs : list AgentConfig }.

(** What the handlers read. *)
Definition transport (c : Config) : GitTransport.Config :=
  {| Agents := map ac_Agent (AgentConfigs c); AdminSecret := srv_AdminSecret (Server c); GitBaseURL := gh_GitBaseURL (Hub c);
     DefaultApp := Legacy (Hub c); Apps := gh_Apps (Hub c) |}.
Definition tripwire (c : Config) : PushTripwireConfig :=
  {| Enabled := tw_Enabled (PushTripwire c); ScannerSecret := tw_ScannerSecret (PushTripwire c);
     Repositories := (λ r, {| RefPatterns := tr_RefPatterns r |}) <$> tw_Repositories (PushTripwire c);
     ResponseProfiles := tw_ResponseProfiles (PushTripwire c) |}.

(** ** Defaults *)

Definition text_or (default_ s : string) : string := if (s =? "")%string then default_ else s.
Definition int_or (default_ n : Z) : Z := if n =? 0 then default_ else n.

Definition guard_defaults (g : BranchLifecycleGuard) : BranchLifecycleGuard :=
  let mode := if (trim_space (Mode g) =? "")%string then "off" else Mode g in
  if equal_fold mode "off" then {| Mode := mode; StalePRStates := StalePRStates g; Operations := Operations g |} else
  {| Mode := mode; StalePRStates := if is_nil (StalePRStates g) then ["closed"] else StalePRStates g;
     Operations := if is_nil (Operations g) then ["git.receive-pack"; "pull.create"] else Operations g |}.

Definition GitReceivePackAllowOpaque := "allow_opaque".

Definition agent_defaults (a : AgentConfig) : AgentConfig :=
  let a' := ac_Agent a in
  {| ac_Agent := {| policy_agent := policy_agent a'; Secret := Secret a'; GitHubApp := GitHubApp a';
                    GitReceivePack := text_or GitReceivePackAllowOpaque (GitReceivePack a');
                    BranchGuard := guard_defaults (BranchGuard a') |}; SecretEnv := SecretEnv a |}.

Definition bounds_defaults (b : PushTripwireBounds) : PushTripwireBounds :=
  {| MaxCommits := int_or 100 (MaxCommits b); MaxPaths := int_or 300 (MaxPaths b);
     MaxCommitMessageBytes := int_or (Z.shiftl 64 10) (MaxCommitMessageBytes b);
     MaxBlobBytes := int_or (Z.shiftl 1 20) (MaxBlobBytes b); MaxTotalBytes := int_or (Z.shiftl 16 20) (MaxTotalBytes b) |}.

Definition applyDefaults (c : Config) : Config :=
  let s := Server c in let h := Hub c in let t := PushTripwire c in
  {| Server := {| Listen := text_or "127.0.0.1:8080" (Listen s); srv_AdminSecret := srv_AdminSecret s;
                  AdminSecretEnv := AdminSecretEnv s; LocalSandboxOnly := LocalSandboxOnly s; Production := Production s |};
     AuditPath := AuditPath c;
     Hub := {| Legacy := Legacy h; gh_APIBaseURL := text_or "https://api.github.com" (gh_APIBaseURL h);
               gh_GitBaseURL := text_or "https://github.com" (gh_GitBaseURL h); gh_Apps := gh_Apps h |};
     MutationLimits := MutationLimits c; IdempotencyPath := IdempotencyPath c;
     PushTripwire := {| tw_Enabled := tw_Enabled t; ScannerID := ScannerID t; tw_ScannerSecret := tw_ScannerSecret t;
                        ScannerSecretEnv := ScannerSecretEnv t; StatePath := StatePath t; tw_Repositories := tw_Repositories t;
                        tw_ResponseProfiles := tw_ResponseProfiles t; Bounds := bounds_defaults (Bounds t) |};
     Correlation := Correlation c; AgentConfigs := map agent_defaults (AgentConfigs c) |}.

(** ** Secrets *)

Section Secrets.
Variable getenv : string → string.

Definition secret_or (secret env : string) : string :=
  if (secret =? "")%string && negb (env =? "")%string then getenv env else secret.

Definition agent_secret (a : AgentConfig) : AgentConfig :=
  let a' := ac_Agent a in
  {| ac_Agent := {| policy_agent := policy_agent a'; Secret := secret_or (Secret a') (SecretEnv a); GitHubApp := GitHubApp a';
                    GitReceivePack := GitReceivePack a'; BranchGuard := BranchGuard a' |}; SecretEnv := SecretEnv a |}.

Definition resolveSecrets (c : Config) : Config :=
  let s := Server c in let t := PushTripwire c in let r := Correlation c in let o := Outbox r in
  {| Server := {| Listen := Listen s; srv_AdminSecret := secret_or (srv_AdminSecret s) (AdminSecretEnv s);
                  AdminSecretEnv := AdminSecretEnv s; LocalSandboxOnly := LocalSandboxOnly s; Production := Production s |};
     AuditPath := AuditPath c; Hub := Hub c; MutationLimits := MutationLimits c; IdempotencyPath := IdempotencyPath c;
     PushTripwire := {| tw_Enabled := tw_Enabled t; ScannerID := ScannerID t;
                        tw_ScannerSecret := secret_or (tw_ScannerSecret t) (ScannerSecretEnv t);
                        ScannerSecretEnv := ScannerSecretEnv t; StatePath := StatePath t; tw_Repositories := tw_Repositories t;
                        tw_ResponseProfiles := tw_ResponseProfiles t; Bounds := Bounds t |};
     Correlation := {| StorePath := StorePath r; CapabilityAPIURL := CapabilityAPIURL r;
                       CapabilityAPIToken := secret_or (CapabilityAPIToken r) (CapabilityAPITokenEnv r);
                       CapabilityAPITokenEnv := CapabilityAPITokenEnv r;
                       Outbox := {| ConsumerToken := secret_or (ConsumerToken o) (ConsumerTokenEnv o);
                                    ConsumerTokenEnv := ConsumerTokenEnv o; ClaimTTLSeconds := ClaimTTLSeconds o;
                                    MaxClaimBatch := MaxClaimBatch o |} |};
     AgentConfigs := map agent_secret (AgentConfigs c) |}.
End Secrets.

(** ** Correlation *)

Definition DefaultOutboxClaimTTLSeconds : Z := 300.
Definition minOutboxClaimTTLSeconds : Z := 30.
Definition maxOutboxClaimTTLSeconds : Z := 3600.
Definition DefaultOutboxMaxClaimBatch : Z := 100.
Definition maxOutboxMaxClaimBatch : Z := 1000.

Definition set (s : string) : bool := negb (trim_space s =? "")%string.

Definition OutboxEnabled (c : CorrelationConfig) : bool := set (StorePath c) && set (ConsumerToken (Outbox c)).
Definition CorrelationEnabled (c : CorrelationConfig) : bool :=
  set (StorePath c) && set (CapabilityAPIURL c) && set (CapabilityAPIToken c).
Definition OutboxClaimTTLSeconds (c : CorrelationConfig) : Z :=
  if ClaimTTLSeconds (Outbox c) <=? 0 then DefaultOutboxClaimTTLSeconds else ClaimTTLSeconds (Outbox c).
Definition OutboxMaxClaimBatch (c : CorrelationConfig) : Z :=
  if MaxClaimBatch (Outbox c) <=? 0 then DefaultOutboxMaxClaimBatch else MaxClaimBatch (Outbox c).

Definition problem (c : bool) (what : string) : list string := if c then [what] else [].

Definition outboxValidationErrors (c : CorrelationConfig) : list string :=
  let o := Outbox c in
  if negb (set (ConsumerToken o) || set (ConsumerTokenEnv o) || negb (ClaimTTLSeconds o =? 0) || negb (MaxClaimBatch o =? 0))
  then [] else
  problem (negb (set (ConsumerToken o))) "correlation.outbox requires a consumer token" ++
  problem (negb (set (StorePath c))) "correlation.outbox is set without correlation.store_path" ++
  problem (negb (ClaimTTLSeconds o =? 0) && ((ClaimTTLSeconds o <? minOutboxClaimTTLSeconds) || (maxOutboxClaimTTLSeconds <? ClaimTTLSeconds o)))
    "correlation.outbox.claim_ttl_seconds" ++
  problem (negb (MaxClaimBatch o =? 0) && ((MaxClaimBatch o <? 1) || (maxOutboxMaxClaimBatch <? MaxClaimBatch o)))
    "correlation.outbox.max_claim_batch".

Definition correlationErrors (c : CorrelationConfig) : list string :=
  if negb (set (StorePath c) || set (CapabilityAPIURL c) || set (CapabilityAPIToken c) || set (CapabilityAPITokenEnv c)) then [] else
  problem (set (StorePath c) && negb (has_prefix "/" (trim_space (StorePath c)))) "correlation.store_path must be absolute" ++
  problem (negb (set (StorePath c))) "correlation.capability_api_* is set without correlation.store_path" ++
  (if negb (set (CapabilityAPIURL c)) then ["correlation requires correlation.capability_api_url"] else
   problem (negb (has_prefix "http://" (trim_space (CapabilityAPIURL c))) && negb (has_prefix "https://" (trim_space (CapabilityAPIURL c))))
     "correlation.capability_api_url must be an http(s) URL") ++
  problem (negb (set (CapabilityAPIToken c))) "correlation requires a capability API token" ++
  outboxValidationErrors c.

(** ** Validate *)

Definition guardErrors (g : BranchLifecycleGuard) : list string :=
  let mode := to_lower (trim_space (Mode g)) in
  if negb (existsb (String.eqb (if (mode =? "")%string then "off" else mode)) ["off"; "warn"; "enforce"]) then ["mode"] else
  if negb (forallb (λ s, (to_lower (trim_space s) =? "closed")%string) (StalePRStates g)) then ["stale_pr_states"] else
  problem (negb (forallb (λ o, existsb (String.eqb (trim_space o)) ["git.receive-pack"; "pull.create"]) (Operations g))) "operations".

Definition app_errors (app : GitHubAppConfig) : list string :=
  problem (AppID app =? 0) "app_id is required" ++ problem (PrivateKeyPath app =? "")%string "private_key_path is required" ++
  problem (is_nil (Installations app)) "installations must not be empty".

Definition binding_ok (b : Binding) : bool :=
  negb ((WorkerID b =? "")%string || (LogicalSessionID b =? "")%string || (SessionLineageID b =? "")%string
        || (WorkerStorageLineageID b =? "")%string || (WorkerFenceEpoch b <? 1)).

Definition profile_errors (profile : string) (p : PushTripwireResponseProfile) : list string :=
  problem ((profile =? "")%string || (Generation p <? 1) || (negb (AllowHalt p) && negb (AllowFence p))) "response profile" ++
  problem (AllowFence p && is_nil (Bindings p)) "fencing without reviewed bindings" ++
  problem (negb (forallb binding_ok (Bindings p))) "incomplete binding".

Definition bounds_ok (b : PushTripwireBounds) : bool :=
  negb ((MaxCommits b <? 1) || (1000 <? MaxCommits b) || (MaxPaths b <? 1) || (3000 <? MaxPaths b)
        || (MaxCommitMessageBytes b <? 1) || (Z.shiftl 1 20 <? MaxCommitMessageBytes b)
        || (MaxBlobBytes b <? 1) || (Z.shiftl 10 20 <? MaxBlobBytes b) || (MaxTotalBytes b <? 1) || (Z.shiftl 64 20 <? MaxTotalBytes b)).

Section Validate.
Variable re_compile : string → option (string → bool).

Definition repository_errors (c : Config) (repo : string) (r : TripwireRepository) : list string :=
  if negb (count_char "/" repo =? 1)%nat || negb (to_lower repo =? repo)%string then ["lowercase owner/repo"] else
  problem (negb (bool_decide (is_Some (InstallationIDForApp (transport c) (text_or "default" (tr_GitHubApp r)) repo)))) "not covered" ++
  problem (negb (has_prefix "refs/heads/" (BaseRef r)) || (240 <? String.length (BaseRef r))%nat) "base_ref" ++
  problem (is_nil (tr_RefPatterns r)) "ref_patterns" ++
  flat_map (λ p, if negb (has_prefix "^" p) || negb (has_suffix "$" p) then ["ref pattern must be anchored"]
                 else problem (negb (bool_decide (is_Some (re_compile p)))) "invalid ref pattern") (tr_RefPatterns r).

Definition tripwire_errors (c : Config) : list string :=
  let t := PushTripwire c in
  if negb (tw_Enabled t) then [] else
  problem (ScannerID t =? "")%string "scanner_id is required" ++
  problem (tw_ScannerSecret t =? "")%string "scanner_secret is required" ++
  problem (StatePath t =? "")%string "state_path is required" ++
  problem (bool_decide (tw_Repositories t = ∅)) "repositories must not be empty" ++
  problem (bool_decide (tw_ResponseProfiles t = ∅)) "response_profiles must not be empty" ++
  flat_map (λ '(name, p), profile_errors name p) (map_to_list (tw_ResponseProfiles t)) ++
  problem (negb (bounds_ok (Bounds t))) "bounds" ++
  flat_map (λ '(repo, r), repository_errors c repo r) (map_to_list (tw_Repositories t)).

Definition agent_errors (c : Config) (seen : list string) (a : Agent) : list string :=
  problem (ID a =? "")%string "agent id is required" ++
  problem (existsb (String.eqb (ID a)) seen) "duplicate agent id" ++
  problem (negb (GitReceivePack a =? "")%string && negb (GitReceivePack a =? GitReceivePackAllowOpaque)%string
           && negb (GitReceivePack a =? GitReceivePackDenyOpaque)%string) "git_receive_pack_policy" ++
  problem (ag_Enabled (policy_agent a) && (Secret a =? "")%string) "no secret" ++
  (if negb (bool_decide (is_Some (AppContexts (transport c) !! GitHubAppName a))) then ["unknown github_app"] else
   problem (ag_Enabled (policy_agent a) &&
     negb (forallb (λ repo, (repo =? "")%string || bool_decide (is_Some (InstallationIDForApp (transport c) (GitHubAppName a) repo)))
             (ag_Repositories (policy_agent a)))) "repository is not covered") ++
  guardErrors (BranchGuard a).

Fixpoint agents_errors (c : Config) (seen : list string) (l : list Agent) : list string :=
  match l with [] => [] | a :: l => agent_errors c seen a ++ agents_errors c (ID a :: seen) l end.

(** The problems, in some order of the maps; the problems of several
    repositories or bindings under one name count once here. *)
Definition Validate (c : Config) : list string :=
  let apps := AppContexts (transport c) in
  (if LocalSandboxOnly (Server c) then
     problem (Production (Server c)) "local_sandbox_only in production" ++
     problem (negb (bool_decide (apps = ∅))) "local_sandbox_only must not configure github apps" ++
     problem (negb (is_nil (AgentConfigs c))) "local_sandbox_only must not configure broker agents"
   else problem (bool_decide (apps = ∅)) "github app context is required") ++
  flat_map (λ '(_, app), app_errors app) (map_to_list apps) ++
  tripwire_errors c ++
  agents_errors c [] (Agents (transport c)) ++
  correlationErrors (Correlation c).

(** The content of the file and its decoder. *)
Definition Load (parse_yaml : string → option Config) (getenv : string → string) (file : option string) : option Config :=
  content ← file;
  c ← parse_yaml content;
  let c := resolveSecrets getenv (applyDefaults c) in
  if is_nil (Validate c) then Some c else None.
End Validate.

(** ** The server: New and Reload of internal/server/server.go

    [sv_client]: the configuration the GitHub client was made from.  Databases
    are named by their paths. *)

Record server := {
  sv_cfg : Config; sv_client : GitHubConfig; sv_tripwire : option string; sv_corr : option string;
  sv_capVerify : option (string * string); sv_outbox : option (string * Z * Z) }.

Section Server.
(** Which databases open, and which keys githubapp.New can read. *)
Variables (opens : string → bool) (client_ok : GitHubConfig → bool).

Definition New (cfg : Config) : option server :=
  let r := Correlation cfg in
  let t := PushTripwire cfg in
  if tw_Enabled t && negb (opens (StatePath t)) then None else
  let store := if tw_Enabled t then Some (StatePath t) else None in
  if CorrelationEnabled r then
    if negb (opens (StorePath r)) then None else
    Some {| sv_cfg := cfg; sv_client := Hub cfg; sv_tripwire := store; sv_corr := Some (StorePath r);
            sv_capVerify := Some (CapabilityAPIURL r, CapabilityAPIToken r);
            sv_outbox := if OutboxEnabled r then Some (ConsumerToken (Outbox r), OutboxClaimTTLSeconds r, OutboxMaxClaimBatch r)
                         else None |}
  else Some {| sv_cfg := cfg; sv_client := Hub cfg; sv_tripwire := store; sv_corr := None; sv_capVerify := None; sv_outbox := None |}.

(** What may change while the server runs. *)
Definition reloadable (old new : Config) : bool :=
  let r := Correlation old in let r' := Correlation new in
  Bool.eqb (tw_Enabled (PushTripwire new)) (tw_Enabled (PushTripwire old))
  && (StatePath (PushTripwire new) =? StatePath (PushTripwire old))%string
  && Bool.eqb (CorrelationEnabled r') (CorrelationEnabled r)
  && (StorePath r' =? StorePath r)%string && (CapabilityAPIURL r' =? CapabilityAPIURL r)%string
  && (CapabilityAPIToken r' =? CapabilityAPIToken r)%string
  && Bool.eqb (OutboxEnabled r') (OutboxEnabled r) && bool_decide (Outbox r' = Outbox r).

(** [loaded]: what config.Load gives. *)
Definition Reload (s : server) (loaded : option Config) : server * bool :=
  match loaded with
  | None => (s, false)
  | Some cfg =>
    if negb (client_ok (Hub cfg)) then (s, false) else
    if negb (reloadable (sv_cfg s) cfg) then (s, false) else
    ({| sv_cfg := cfg; sv_client := Hub cfg; sv_tripwire := sv_tripwire s; sv_corr := sv_corr s;
        sv_capVerify := sv_capVerify s; sv_outbox := sv_outbox s |}, true)
  end.
End Server.

(** ** What a running server's configuration guarantees *)

(** An enabled agent is the one its ID finds, has a secret, and every repository
    it is given has an installation. *)
Definition agent_served (c : Config) (a : Agent) : Prop :=
  ID a ≠ "" ∧ AgentByID (transport c) (ID a) = Some a ∧ Secret a ≠ "" ∧
  ∀ repo, repo ∈ ag_Repositories (policy_agent a) → repo ≠ "" →
    is_Some (InstallationIDForApp (transport c) (GitHubAppName a) repo).

Definition in_bounds (b : PushTripwireBounds) : Prop :=
  1 ≤ MaxCommits b ≤ 1000 ∧ 1 ≤ MaxPaths b ≤ 3000 ∧ 1 ≤ MaxCommitMessageBytes b ≤ Z.shiftl 1 20 ∧
  1 ≤ MaxBlobBytes b ≤ Z.shiftl 10 20 ∧ 1 ≤ MaxTotalBytes b ≤ Z.shiftl 64 20.

Definition guaranteed (re_compile : string → option (string → bool)) (c : Config) : Prop :=
  let r := Correlation c in
  (∀ a, a ∈ Agents (transport c) → ag_Enabled (policy_agent a) = true → agent_served c a) ∧
  (LocalSandboxOnly (Server c) = true → AppContexts (transport c) = ∅ ∧ Agents (transport c) = [] ∧ Production (Server c) = false) ∧
  (CorrelationEnabled r = true ∨ set (StorePath r) = false ∧ set (CapabilityAPIURL r) = false ∧ set (CapabilityAPIToken r) = false) ∧
  (OutboxEnabled r = true → CorrelationEnabled r = true ∧ minOutboxClaimTTLSeconds ≤ OutboxClaimTTLSeconds r ≤ maxOutboxClaimTTLSeconds ∧
     1 ≤ OutboxMaxClaimBatch r ≤ maxOutboxMaxClaimBatch) ∧
  (Enabled (tripwire c) = true → ScannerSecret (tripwire c) ≠ "" ∧ in_bounds (Bounds (PushTripwire c)) ∧
     ∀ repo t, tw_Repositories (PushTripwire c) !! repo = Some t →
       is_Some (InstallationIDForApp (transport c) (text_or "default" (tr_GitHubApp t)) repo) ∧
       has_prefix "refs/heads/" (BaseRef t) = true ∧ tr_RefPatterns t ≠ [] ∧
       ∀ p, p ∈ tr_RefPatterns t → is_Some (re_compile p)).

(** What was opened is what the configuration in force says. *)
Definition coherent (s : server) : Prop :=
  let c := sv_cfg s in let r := Correlation c in
  sv_client s = Hub c ∧
  sv_tripwire s = (if Enabled (tripwire c) then Some (StatePath (PushTripwire c)) else None) ∧
  sv_corr s = (if CorrelationEnabled r then Some (StorePath r) else None) ∧
  sv_capVerify s = (if CorrelationEnabled r then Some (CapabilityAPIURL r, CapabilityAPIToken r) else None) ∧
  sv_outbox s = (if CorrelationEnabled r && OutboxEnabled r
                 then Some (ConsumerToken (Outbox r), OutboxClaimTTLSeconds r, OutboxMaxClaimBatch r) else None).

(** ** Proofs *)

Lemma problem_nil c what : problem c what = [] ↔ c = false.
Proof. unfold problem. by destruct c. Qed.

Lemma find_by_id l a : NoDup (map ID l) → a ∈ l → List.find (λ b, (ID b =? ID a)%string) l = Some a.
Proof.
  induction l as [|b l IH]; [by intros _ []%elem_of_nil|]. cbn [map List.find]. intros [Hb Hn]%NoDup_cons Ha.
  apply elem_of_cons in Ha as [->|Ha]; [by rewrite String.eqb_refl|].
  destruct (String.eqb_spec (ID b) (ID a)) as [E|]; [|by apply IH]. destruct Hb. rewrite E. by apply list_elem_of_fmap_2.
Qed.

Lemma agents_ok c seen l : agents_errors c seen l = [] →
  NoDup (map ID l) ∧ (∀ a, a ∈ l → ID a ∉ seen) ∧ (∀ a, a ∈ l → ∃ seen', agent_errors c seen' a = []).
Proof.
  revert seen. induction l as [|a l IH]; intros seen; cbn [agents_errors map].
  { intros _. split_and!; [constructor|by intros ? []%elem_of_nil..]. }
  rewrite app_nil. intros [Ha (Hn & Hs & He)%IH]. split_and!.
  - constructor; [|done]. intros (b & E & Hb)%list_elem_of_fmap_1. destruct (Hs b Hb). rewrite <- E. left.
  - intros b [->|Hb]%elem_of_cons; [|by intros ?; destruct (Hs b Hb); right]. unfold agent_errors in Ha.
    rewrite !app_nil, !problem_nil in Ha. destruct Ha as (_ & Hseen & _). intros Hin.
    assert (existsb (String.eqb (ID a)) seen = true); [|congruence]. apply existsb_exists. exists (ID a).
    by rewrite <- list_elem_of_In, String.eqb_refl.
  - intros b [->|Hb]%elem_of_cons; [by exists seen|by apply He].
Qed.

Lemma agent_ok c seen a : agent_errors c seen a = [] → ag_Enabled (policy_agent a) = true →
  ID a ≠ "" ∧ Secret a ≠ "" ∧
  ∀ repo, repo ∈ ag_Repositories (policy_agent a) → repo ≠ "" → is_Some (InstallationIDForApp (transport c) (GitHubAppName a) repo).
Proof.
  unfold agent_errors. rewrite !app_nil, !problem_nil. intros (Hid & _ & _ & Hs & Hr & _) He. rewrite He in Hs, Hr.
  apply String.eqb_neq in Hid. apply String.eqb_neq in Hs. split_and!; [done|done|]. intros repo Hin Hne.
  destruct (negb _); [done|]. cbn [andb] in Hr. apply problem_nil, negb_false_iff in Hr.
  rewrite forallb_elem_of in Hr. apply Hr, orb_true_iff in Hin as [Hin%String.eqb_eq|Hin%bool_decide_eq_true]; done.
Qed.

Lemma correlation_ok r : correlationErrors r = [] →
  (CorrelationEnabled r = true ∨ set (StorePath r) = false ∧ set (CapabilityAPIURL r) = false ∧ set (CapabilityAPIToken r) = false) ∧
  (OutboxEnabled r = true → CorrelationEnabled r = true ∧ minOutboxClaimTTLSeconds ≤ OutboxClaimTTLSeconds r ≤ maxOutboxClaimTTLSeconds ∧
     1 ≤ OutboxMaxClaimBatch r ≤ maxOutboxMaxClaimBatch).
Proof.
  unfold correlationErrors, CorrelationEnabled, OutboxEnabled.
  destruct (set (StorePath r)) eqn:E1; cbn [orb negb andb].
  2: { destruct (set (CapabilityAPIURL r)) eqn:E2, (set (CapabilityAPIToken r)) eqn:E3; cbn [orb negb andb problem app]; try done.
       by split; [right|]. }
  rewrite !app_nil. intros (_ & _ & Hu & Ht & Ho). apply problem_nil, negb_false_iff in Ht. rewrite Ht.
  destruct (set (CapabilityAPIURL r)); [|done]. split; [by left|]. intros Hc. split; [done|].
  unfold outboxValidationErrors in Ho. rewrite Hc, E1 in Ho. cbn [orb negb] in Ho. rewrite !app_nil, !problem_nil in Ho.
  destruct Ho as (_ & _ & Httl & Hb). unfold OutboxClaimTTLSeconds, OutboxMaxClaimBatch, DefaultOutboxClaimTTLSeconds,
    DefaultOutboxMaxClaimBatch, minOutboxClaimTTLSeconds, maxOutboxClaimTTLSeconds, maxOutboxMaxClaimBatch in *.
  destruct (Z.eqb_spec (ClaimTTLSeconds (Outbox r)) 0), (Z.eqb_spec (MaxClaimBatch (Outbox r)) 0); cbn [negb andb] in *; bool_hyps;
    destruct (Z.leb_spec (ClaimTTLSeconds (Outbox r)) 0), (Z.leb_spec (MaxClaimBatch (Outbox r)) 0); lia.
Qed.

Lemma bounds_ok_spec b : bounds_ok b = true → in_bounds b.
Proof. unfold bounds_ok, in_bounds. intros H%negb_true_iff. bool_hyps. lia. Qed.

Lemma tripwire_ok re_compile c : tripwire_errors re_compile c = [] → Enabled (tripwire c) = true →
  ScannerSecret (tripwire c) ≠ "" ∧ in_bounds (Bounds (PushTripwire c)) ∧
  ∀ repo t, tw_Repositories (PushTripwire c) !! repo = Some t →
    is_Some (InstallationIDForApp (transport c) (text_or "default" (tr_GitHubApp t)) repo) ∧
    has_prefix "refs/heads/" (BaseRef t) = true ∧ tr_RefPatterns t ≠ [] ∧ ∀ p, p ∈ tr_RefPatterns t → is_Some (re_compile p).
Proof.
  intros H He. unfold tripwire_errors in H. cbv zeta in H. change (tw_Enabled (PushTripwire c)) with (Enabled (tripwire c)) in H.
  rewrite He in H. cbn [negb] in H. rewrite !app_nil, !problem_nil in H. destruct H as (_ & Hs & _ & _ & _ & _ & Hb & Hr).
  split; [by apply String.eqb_neq|]. split; [by apply bounds_ok_spec, negb_false_iff|]. intros repo t Ht.
  rewrite flat_map_nil in Hr. specialize (Hr (repo, t)). cbn in Hr. rewrite elem_of_map_to_list in Hr. specialize (Hr Ht).
  unfold repository_errors in Hr. destruct (negb _ || negb _); [done|]. rewrite !app_nil, !problem_nil in Hr.
  destruct Hr as (Hi & Hbase & Hp & Hre). bool_hyps. rewrite flat_map_nil in Hre. split_and!; try done.
  - intros p Hin. specialize (Hre p Hin). destruct (_ || _) in Hre; [done|]. by apply problem_nil, negb_false_iff, bool_decide_eq_true in Hre.
Qed.

Lemma validated re_compile c : Validate re_compile c = [] → guaranteed re_compile c.
Proof.
  unfold Validate. cbv zeta. rewrite !app_nil. intros (Hs & _ & Ht & Ha & Hc). destruct (correlation_ok _ Hc). unfold guaranteed. cbv zeta.
  split_and!; try done.
  - intros a Hin He. destruct (agents_ok _ _ _ Ha) as (Hn & _ & Hok). destruct (Hok a Hin) as [seen Hok'].
    destruct (agent_ok _ _ _ Hok' He) as (? & ? & ?). split_and!; try done. by apply find_by_id.
  - intros Hl. rewrite Hl in Hs. rewrite !app_nil, !problem_nil in Hs. destruct Hs as (? & Happs & Hag). split_and!; [| |done].
    + by apply negb_false_iff, bool_decide_eq_true in Happs.
    + cbn. by apply negb_false_iff, is_nil_true in Hag as ->.
  - by apply tripwire_ok.
Qed.

Lemma loaded_ok re_compile parse_yaml getenv file c : Load re_compile parse_yaml getenv file = Some c → guaranteed re_compile c.
Proof.
  unfold Load. destruct file as [content|]; [|done]. cbn. destruct (parse_yaml content) as [c0|]; [|done]. cbn.
  destruct (is_nil _) eqn:E; [|done]. intros [= <-]. by apply validated, is_nil_true.
Qed.

Lemma New_coherent opens c s : New opens c = Some s → coherent s ∧ sv_cfg s = c.
Proof.
  unfold New, coherent. cbv zeta. change (tw_Enabled (PushTripwire c)) with (Enabled (tripwire c)). destruct (_ && _); [done|].
  destruct (CorrelationEnabled (Correlation c)) eqn:E; [destruct (negb _); [done|]|]; intros [= <-]; cbn; by rewrite E.
Qed.

Lemma Reload_coherent client_ok s cfg : coherent s → coherent (Reload client_ok s (Some cfg)).1.
Proof.
  intros (Hg & Ht & Hc & Hv & Ho). unfold Reload. destruct (negb _); [done|]. destruct (reloadable (sv_cfg s) cfg) eqn:E; cbn [negb]; [|done].
  unfold reloadable in E. rewrite !andb_true_iff in E. destruct E as [[[[[[[E1 E2] E3] E4] E5] E6] E7] E8].
  apply Bool.eqb_prop in E1, E3, E7. apply String.eqb_eq in E2, E4, E5, E6. apply bool_decide_eq_true in E8.
  unfold coherent. cbn [sv_cfg sv_client sv_tripwire sv_corr sv_capVerify sv_outbox fst]. cbv zeta.
  unfold OutboxClaimTTLSeconds, OutboxMaxClaimBatch in *. cbn [Enabled tripwire] in *. rewrite E1, E2, E3, E4, E5, E6, E7, E8. by split_and!.
Qed.

Section History.
Variables (re_compile : string → option (string → bool)) (parse_yaml : string → option Config)
  (opens : string → bool) (client_ok : GitHubConfig → bool).

(** The file and the environment at each reload. *)
Definition reloads (s : server) (l : list (option string * (string → string))) : server :=
  fold_left (λ s '(file, getenv), (Reload client_ok s (Load re_compile parse_yaml getenv file)).1) l s.

Lemma reloads_inv l s : coherent s → guaranteed re_compile (sv_cfg s) →
  coherent (reloads s l) ∧ guaranteed re_compile (sv_cfg (reloads s l)) ∧ sv_tripwire (reloads s l) = sv_tripwire s ∧
  sv_corr (reloads s l) = sv_corr s ∧ sv_capVerify (reloads s l) = sv_capVerify s ∧ sv_outbox (reloads s l) = sv_outbox s.
Proof.
  revert s. induction l as [|[file getenv] l IH]; intros s Hc Hg; [done|]. cbn [reloads fold_left].
  destruct (Load re_compile parse_yaml getenv file) as [cfg|] eqn:E; [|by apply IH].
  pose proof (Reload_coherent client_ok s cfg Hc) as Hc'. unfold Reload in *. destruct (negb (client_ok _)); [by apply IH|].
  destruct (negb (reloadable _ _)); [by apply IH|]. cbn [fst] in *. apply loaded_ok in E.
  destruct (IH _ Hc' E) as (? & ? & ? & ? & ? & ?). by split_and!.
Qed.

(** C16: from its start on and over every history of reloads, whatever the file
    and the environment hold then, the server runs a configuration in which every
    enabled agent is found by its ID, has a secret and an installation for each of
    its repositories, correlation is either whole or off, the outbox's lease and
    batch are within their limits, the tripwire's bounds and repositories are
    usable; and the stores, the verifier and the outbox that were opened at the
    start are those the configuration in force names. *)
Theorem configuration_coherent getenv file cfg s l :
  Load re_compile parse_yaml getenv file = Some cfg → New opens cfg = Some s →
  let s' := reloads s l in
  coherent s' ∧ guaranteed re_compile (sv_cfg s') ∧ sv_tripwire s' = sv_tripwire s ∧ sv_corr s' = sv_corr s ∧
  sv_capVerify s' = sv_capVerify s ∧ sv_outbox s' = sv_outbox s.
Proof.
  intros Hl Hn. destruct (New_coherent _ _ _ Hn) as [Hc E]. apply reloads_inv; [done|]. rewrite E. by eapply loaded_ok.
Qed.
End History.

(** ** Examples *)

Definition no_guard : BranchLifecycleGuard := {| Mode := ""; StalePRStates := []; Operations := [] |}.
Definition sample_agent (id secret_env : string) : AgentConfig :=
  {| ac_Agent := {| policy_agent := {| ag_ID := id; ag_Enabled := true; ag_Repositories := ["acme/app"]; ag_Operations := [];
                                       ag_BranchPatterns := []; ag_BaseBranches := []; ag_Permissions := [];
                                       ag_MetadataAssertions := ∅ |};
                    Secret := ""; GitHubApp := ""; GitReceivePack := ""; BranchGuard := no_guard |}; SecretEnv := secret_env |}.
Definition no_limits : MutationLimitsConfig :=
  {| Limits.StatePath := ""; RunMetadataField := ""; ActionMetadataField := ""; MaxNewObjectsPerRun := 0; ClassLimits := ∅;
     OperationClasses := ∅ |}.
Definition no_tripwire : TripwireConfig :=
  {| tw_Enabled := false; ScannerID := ""; tw_ScannerSecret := ""; ScannerSecretEnv := ""; StatePath := ""; tw_Repositories := ∅;
     tw_ResponseProfiles := ∅;
     Bounds := {| MaxCommits := 0; MaxPaths := 0; MaxCommitMessageBytes := 0; MaxBlobBytes := 0; MaxTotalBytes := 0 |} |}.
Definition correlation (store url token consumer : string) (ttl : Z) : CorrelationConfig :=
  {| StorePath := store; CapabilityAPIURL := url; CapabilityAPIToken := token; CapabilityAPITokenEnv := "";
     Outbox := {| ConsumerToken := consumer; ConsumerTokenEnv := ""; ClaimTTLSeconds := ttl; MaxClaimBatch := 0 |} |}.
Definition sample_config (agents : list AgentConfig) (r : CorrelationConfig) : Config :=
  {| Server := {| Listen := ""; srv_AdminSecret := ""; AdminSecretEnv := ""; LocalSandboxOnly := false; Production := false |};
     AuditPath := ""; MutationLimits := no_limits; IdempotencyPath := "";
     Hub := {| Legacy := {| AppID := 7; PrivateKeyPath := "/key.pem"; Installations := [("Acme/*", 42)] |};
               gh_APIBaseURL := ""; gh_GitBaseURL := ""; gh_Apps := ∅ |};
     PushTripwire := no_tripwire; Correlation := r; AgentConfigs := agents |}.
Definition env (name : string) : string := if (name =? "A1_SECRET")%string then "s1" else "".
Definition no_regexp (p : string) : option (string → bool) := None.

Definition whole := correlation "/var/lib/corr.db" "http://sandbox:9000" "t" "consumer" 60.
Definition parse_one (s : string) : option Config :=
  if (s =? "with outbox")%string then Some (sample_config [sample_agent "a1" "A1_SECRET"] whole)
  else if (s =? "two agents")%string then Some (sample_config [sample_agent "a1" "A1_SECRET"; sample_agent "a2" "A1_SECRET"] whole)
  else if (s =? "duplicate")%string then Some (sample_config [sample_agent "a1" "A1_SECRET"; sample_agent "a1" "A1_SECRET"] whole)
  else if (s =? "other lease")%string then Some (sample_config [sample_agent "a1" "A1_SECRET"] (correlation "/var/lib/corr.db" "http://sandbox:9000" "t" "consumer" 90))
  else None.

Definition load_text (s : string) : option Config := Load no_regexp parse_one env (Some s).

(** A second agent is reloaded; a duplicate one, a new lease of the outbox or a broken file is refused. *)
Example reload_ex :
  (λ c, (map ID (Agents (transport c)), map Secret (Agents (transport c)))) <$> load_text "with outbox" = Some (["a1"], ["s1"]) ∧
  is_Some (load_text "two agents") ∧ load_text "duplicate" = None ∧ is_Some (load_text "other lease") ∧
  (cfg ← load_text "with outbox"; s ← New (λ _, true) cfg;
   Some (map (λ f, (Reload (λ _, true) s (load_text f)).2) ["two agents"; "duplicate"; "other lease"; "broken"]))
  = Some [true; false; false; false].
Proof. vm_compute. split_and!; by try eexists. Qed.

(** An outbox without a store is accepted, whatever its lease, and stays off. *)
Definition outbox_alone : Config := sample_config [] (correlation "" "" "" "consumer" 5).
Example outbox_alone_accepted :
  Validate no_regexp (resolveSecrets env (applyDefaults outbox_alone)) = [] ∧ OutboxEnabled (Correlation outbox_alone) = false ∧
  length (Validate no_regexp (sample_config [] (correlation "/var/lib/corr.db" "http://s" "t" "consumer" 5))) = 1%nat.
Proof. vm_compute. done. Qed.

Definition running_config : Config := resolveSecrets env (applyDefaults (sample_config [sample_agent "a1" "A1_SECRET"] whole)).
Definition running_server : server :=
  {| sv_cfg := running_config; sv_client := Hub running_config; sv_tripwire := None; sv_corr := Some "/var/lib/corr.db";
     sv_capVerify := Some ("http://sandbox:9000", "t"); sv_outbox := Some ("consumer", 60, 100) |}.

Lemma configuration_coherent_witness :
  Load no_regexp parse_one env (Some "with outbox") = Some running_config ∧ New (λ _, true) running_config = Some running_server ∧
  coherent (reloads no_regexp parse_one (λ _, true) running_server [(Some "two agents", env); (Some "broken", env)]).
Proof.
  assert (Load no_regexp parse_one env (Some "with outbox") = Some running_config) as Hl by (vm_compute; reflexivity).
  assert (New (λ _, true) running_config = Some running_server) as Hn by (vm_compute; reflexivity).
  split; [exact Hl|]. split; [exact Hn|].
  exact (proj1 (configuration_coherent no_regexp parse_one (λ _, true) (λ _, true) env (Some "with outbox") running_config running_server
    [(Some "two agents", env); (Some "broken", env)] Hl Hn)).
Defined.
