(* ===== verification/PushMaterialApi.v ===== *)
(** * internal/server: the route of the push tripwire's material

    handlePushTripwireMaterial over the configuration of the broker and the
    GitHub client.  The body is what the strict decoder gives.  The client gives no
    errors here, only incomplete material, so the handler's 502 has no case. *)

From S2P Require Import Prelude GoStrings Http Net Policy GitTransport PushTripwire Process ReadAccess GitHubApi RepoApi GitHubClient GitHubCalls GitHubMaterial BrokerConfig.
Open Scope string_scope.
Open Scope list_scope.
Open Scope Z_scope.

Section Api.
Context `{G : GitHub} {B P R : Type} `{Dec : Decoders B P R} `{MD : MaterialDecoders}.
Variable re_compile : string → option (string → bool).

Inductive material_reply := Refused (what : string) | NoBody | Material (m : MaterialResponse).
Definition respond (st : Z) (r : material_reply) : response material_reply := {| status := st; reply := r |}.

Notation M := (prog client).

(** [mounted]: the store is open. *)
Definition handlePushTripwireMaterial (cfg : Config) (mounted : bool) (r : request (body MaterialRequest))
    : M (response material_reply) :=
  if negb (r_Method r =? "POST")%string then done (respond 405 NoBody) else
  if negb (Enabled (tripwire cfg)) || negb mounted then done (respond 404 NoBody) else
  if negb (Authenticate (r_Authorization r) (ScannerSecret (tripwire cfg)))
  then done (respond 401 (Refused "scanner authentication failed")) else
  match r_Body r with
  | Json req =>
    if negb (ValidateMaterial req) then done (respond 400 (Refused "invalid push tripwire material request")) else
    match tw_Repositories (PushTripwire cfg) !! m_Repository req with
    | None => done (respond 403 (Refused "repository is not configured for scanning"))
    | Some repo =>
      if negb (tripwireRefAllowed re_compile (tr_RefPatterns repo) (m_Ref req))
      then done (respond 403 (Refused "ref is not configured for scanning")) else
      let appName := text_or "default" (tr_GitHubApp repo) in
      match InstallationIDForApp (transport cfg) appName (m_Repository req) with
      | None => done (respond 403 (Refused "repository installation is not configured"))
      | Some inst =>
        out <-! PushTripwireMaterial appName inst (Bounds (PushTripwire cfg)) req (BaseRef repo) ;;
        done (respond 200 (Material out))
      end
    end
  | _ => done (respond 400 (Refused "invalid push tripwire material request"))
  end.

(** What the handler does with a request, when it asks GitHub. *)
Definition asks (cfg : Config) (mounted : bool) (r : request (body MaterialRequest)) (req : MaterialRequest)
    (repo : TripwireRepository) (inst : Z) : Prop :=
  r_Method r = "POST" ∧ Enabled (tripwire cfg) = true ∧ mounted = true ∧ ScannerSecret (tripwire cfg) ≠ "" ∧
  r_Authorization r = "Bearer " +:+ ScannerSecret (tripwire cfg) ∧ r_Body r = Json req ∧ ValidateMaterial req = true ∧
  tw_Repositories (PushTripwire cfg) !! m_Repository req = Some repo ∧
  tripwireRefAllowed re_compile (tr_RefPatterns repo) (m_Ref req) = true ∧
  InstallationIDForApp (transport cfg) (text_or "default" (tr_GitHubApp repo)) (m_Repository req) = Some inst.

(** A request either gets a refusal and asks GitHub nothing, or passes every gate
    and gets the material of its repository, with the configured application,
    base and bounds. *)
Lemma material_gated cfg mounted r :
  (∃ st what, (what = NoBody ∨ ∃ text, what = Refused text) ∧ handlePushTripwireMaterial cfg mounted r = done (respond st what)) ∨
  ∃ req repo inst, asks cfg mounted r req repo inst ∧
    handlePushTripwireMaterial cfg mounted r =
      (out <-! PushTripwireMaterial (text_or "default" (tr_GitHubApp repo)) inst (Bounds (PushTripwire cfg)) req (BaseRef repo) ;;
       done (respond 200 (Material out))).
Proof.
  unfold handlePushTripwireMaterial. destruct (String.eqb_spec (r_Method r) "POST"); cbn [negb]; [|left; eexists _, NoBody; split; [by left|done]].
  destruct (Enabled (tripwire cfg)) eqn:E1; cbn [negb orb]; [|left; eexists _, NoBody; split; [by left|done]].
  destruct mounted eqn:E2; cbn [negb orb]; [|left; eexists _, NoBody; split; [by left|done]].
  destruct (Authenticate _ _) eqn:E3; cbn [negb]; [|left; eexists _, (Refused _); split; [right; by eexists|done]].
  destruct (r_Body r) as [| | |req] eqn:E4; try (left; eexists _, (Refused _); split; [right; by eexists|done]).
  destruct (ValidateMaterial req) eqn:E5; cbn [negb]; [|left; eexists _, (Refused _); split; [right; by eexists|done]].
  destruct (_ !! _) as [repo|] eqn:E6; [|left; eexists _, (Refused _); split; [right; by eexists|done]].
  destruct (tripwireRefAllowed _ _ _) eqn:E7; cbn [negb]; [|left; eexists _, (Refused _); split; [right; by eexists|done]].
  cbv zeta. destruct (InstallationIDForApp _ _ _) as [inst|] eqn:E8; [|left; eexists _, (Refused _); split; [right; by eexists|done]].
  right. exists req, repo, inst. split; [|done]. unfold Authenticate in E3. destruct (has_prefix "Bearer " _) eqn:E9; [|done].
  destruct (String.eqb_spec (ScannerSecret (tripwire cfg)) ""); [done|]. cbn [negb orb] in E3. apply String.eqb_eq in E3.
  split_and!; try done. rewrite <- E3. unfold trim_prefix. rewrite E9. by apply has_prefix_drop.
Qed.
End Api.
