(* ===== verification/BrokerApi.v ===== *)
(** * internal/server: the routes of the broker, administration and dry runs

    ServeHTTP's table, the handlers of the server itself (whoami, reload, dry
    run), and what a dry run says about the operation it stands for.  The
    handlers behind the other routes have files of their own. *)

From S2P Require Import Prelude GoStrings GoTime Net Http Policy GitTransport ReadAccess RepoApi GitHubApi Idempotency Limits PullCreate Mutations MutationGate BrokerConfig.
Open Scope string_scope.
Open Scope list_scope.
Open Scope Z_scope.

(** ** Routing *)

Inductive destination :=
| Discovery | Docs | Operations | OpenAPI | Whoami | Healthz | Readyz | AdminReload | TripwireMaterial | TripwireRespond
| PolicyDryRun | Repo (repo : string) (ep : endpoint) | Outbox | Git | NotFound | MethodNotAllowed.

Definition outboxPathPrefix := "/v1/correlation/outbox/".

(** The method a handler demands of every request. *)
Definition only (want method : string) (d : destination) : destination :=
  if (method =? want)%string then d else MethodNotAllowed.

Definition ServeHTTP (method path : string) : destination :=
  if (path =? "/")%string then only "GET" method Discovery
  else if (path =? "/docs")%string then only "GET" method Docs
  else if (path =? "/operations")%string || (path =? "/api/operations")%string then only "GET" method Operations
  else if (path =? "/openapi.json")%string then only "GET" method OpenAPI
  else if (path =? "/whoami")%string || (path =? "/api/whoami")%string then only "GET" method Whoami
  else if (path =? "/healthz")%string then Healthz
  else if (path =? "/readyz")%string then Readyz
  else if (path =? "/v1/admin/reload")%string then only "POST" method AdminReload
  else if (path =? "/v1/security/push-tripwire/material")%string then only "POST" method TripwireMaterial
  else if (path =? "/v1/security/push-tripwire/respond")%string then only "POST" method TripwireRespond
  else if (path =? "/v1/policy/dry-run")%string then only "POST" method PolicyDryRun
  else if has_prefix "/v1/repos/" path then
    match handleRepoAPI method path with Some (repo, ep) => Repo repo ep | None => NotFound end
  else if has_prefix outboxPathPrefix path then Outbox
  else if has_prefix "/git/" path then Git
  else NotFound.

(** ** Answers *)

Record whoami := {
  w_AgentID : string; w_Agent : Policy.Agent; w_Guard : BranchLifecycleGuard }.

Record DryRunRequest := {
  dr_AgentID : string; dr_Owner : string; dr_Repo : string; dr_Repository : string; dr_Operation : string;
  dr_Branch : string; dr_BaseBranch : string; dr_Permissions : list string; dr_Metadata : gmap string string }.

Inductive admin_reply := AError (code : string) | AEmpty | AWhoami (w : whoami) | AReloaded | ADryRun (opID : string) (r : Result).
Definition reply_with (st : Z) (r : admin_reply) : response admin_reply := {| status := st; reply := r |}.

Definition statusFor (r : Result) : Z := if Policy.Allowed r then 200 else 403.

Section Handlers.
Variable re_compile : string → option (string → bool).

Definition handleWhoami (cfg : GitTransport.Config) (method : string) (h : gmap string (list string)) : response admin_reply :=
  if negb (method =? "GET")%string then reply_with 405 AEmpty else
  match AuthenticateAgent h cfg with
  | None => reply_with 401 (AError "unauthorized")
  | Some (agent, id) => reply_with 200 (AWhoami {| w_AgentID := id; w_Agent := policy_agent agent; w_Guard := BranchGuard agent |})
  end.

(** [loaded]: what config.Load gives now. *)
Definition handleReload (client_ok : GitHubConfig → bool) (s : BrokerConfig.server) (method : string)
    (h : gmap string (list string)) (loaded : option Config) : BrokerConfig.server * response admin_reply :=
  if negb (method =? "POST")%string then (s, reply_with 405 AEmpty) else
  if negb (AuthenticateAdmin h (transport (sv_cfg s))) then (s, reply_with 401 (AError "unauthorized")) else
  let '(s, ok) := Reload client_ok s loaded in
  (s, if ok then reply_with 200 AReloaded else reply_with 400 (AError "reload")).

(** ** Dry runs *)

Definition dryRunRepo (req : DryRunRequest) : string :=
  if negb (dr_Repository req =? "")%string then dr_Repository req
  else if negb (dr_Owner req =? "")%string && negb (dr_Repo req =? "")%string && negb (GoStrings.contains (dr_Repo req) "/")
  then dr_Owner req +:+ "/" +:+ dr_Repo req
  else dr_Repo req.

Definition dry_run_request (cfg : GitTransport.Config) (agent : Agent) (id opID : string) (req : DryRunRequest) : Request :=
  let repo := dryRunRepo req in
  let installationID := default 0 (InstallationIDForApp cfg (GitHubAppName agent) repo) in
  let enriched := WithBrokerFields (dr_Metadata req) id opID installationID in
  permitted_request agent id repo (dr_Operation req) (dr_Branch req) (dr_BaseBranch req) (dr_Permissions req) (dr_Metadata req)
    (<["request" := dr_Metadata req]> (<["pr_body" := enriched]> {["comment_body" := enriched]})).

Definition handleDryRun (cfg : GitTransport.Config) (opID : string) (method : string) (h : gmap string (list string))
    (body : option DryRunRequest) : response admin_reply :=
  if negb (method =? "POST")%string then reply_with 405 AEmpty else
  match AuthenticateAgent h cfg with
  | None => reply_with 401 (AError "unauthorized")
  | Some (agent, id) =>
    match body with
    | None => reply_with 400 (AError "invalid_json")
    | Some req =>
      if negb (dr_AgentID req =? "")%string && negb (dr_AgentID req =? id)%string then reply_with 403 (AError "agent_mismatch") else
      let result := Check re_compile (dry_run_request cfg agent id opID req) in
      reply_with (statusFor result) (ADryRun opID result)
    end
  end.
End Handlers.

Definition ValidateListenAddress (addr : string) : bool :=
  negb (has_prefix "0.0.0.0:" addr || has_prefix ":" addr).

(** ** What a dry run says

    The operation behind a request of the repository API: its name, what policy
    is asked about it, and the location of the metadata beside the request. *)

Inductive place := NoPlace | Enriched (location : string) | Verbatim (location : string).
Record asked := {
  as_Operation : string; as_Branch : string; as_BaseBranch : string; as_Permissions : list string;
  as_Metadata : gmap string string; as_Place : place }.

Definition asked_of (ep : endpoint) (b : decoded) : option asked :=
  let ask op branch base perms md place :=
    {| as_Operation := op; as_Branch := branch; as_BaseBranch := base; as_Permissions := perms; as_Metadata := md; as_Place := place |} in
  let message op := (λ q, ask op "" "" (mr_Permissions q) (mr_Metadata q) NoPlace) <$> as_message b in
  match ep with
  | RepoApi.PullCreate => (λ q, ask "pull.create" (Head q) (Base q) (Permissions q) (Metadata q) (Enriched "pr_body")) <$> as_pull b
  | PullReviewDismiss _ _ => message "pull.review.dismiss"
  | PullReviewThreadResolve _ _ => message "pull.review_thread.resolve"
  | IssueCreate => (λ q, ask "issue.create" "" "" (is_Permissions q) (is_Metadata q) (Enriched "issue_body")) <$> as_issue b
  | CommentCreate _ => (λ q, ask "issue.comment" "" "" (cc_Permissions q) (cc_Metadata q) (Verbatim "comment_body")) <$> as_comment b
  | IssueLabelsAdd _ => (λ q, ask "issue.label.add" "" "" (il_Permissions q) (il_Metadata q) NoPlace) <$> as_labels b
  | IssueLabelRemove _ _ => Some (ask "issue.label.remove" "" "" [] ∅ NoPlace)
  | _ => None
  end.

(** The request that the operation's handler puts to policy. *)
Definition checked (agent : Agent) (id opID : string) (inst : Z) (repo : string) (a : asked) : Request :=
  permitted_request agent id repo (as_Operation a) (as_Branch a) (as_BaseBranch a) (as_Permissions a) (as_Metadata a)
    match as_Place a with
    | NoPlace => if (as_Operation a =? "issue.label.remove")%string then ∅ else {["request" := as_Metadata a]}
    | Enriched l => <["request" := as_Metadata a]> {[l := WithBrokerFields (as_Metadata a) id opID inst]}
    | Verbatim l => <["request" := as_Metadata a]> {[l := as_Metadata a]}
    end.

(** A dry run of that operation. *)
Definition stands_for (dry : DryRunRequest) (id repo : string) (a : asked) : Prop :=
  (dr_AgentID dry = "" ∨ dr_AgentID dry = id) ∧ dryRunRepo dry = repo ∧ dr_Operation dry = as_Operation a ∧
  dr_Branch dry = as_Branch a ∧ dr_BaseBranch dry = as_BaseBranch a ∧ dr_Permissions dry = as_Permissions a ∧
  dr_Metadata dry = as_Metadata a.

(** The agent's assertions look at the request, or at the body of a pull request
    for a field that is not the operation's ID. *)
Definition foreseeable (agent : Policy.Agent) (a : asked) : Prop :=
  ∀ ap f loc, ap ∈ assertionPolicies (ag_MetadataAssertions agent) (as_Operation a) → f ∈ ap_Fields ap → loc ∈ field_locations f →
    loc = "request" ∨ loc = "" ∨ (loc = "pr_body" ∧ as_Place a = Enriched "pr_body" ∧ f_Name f ≠ "Broker-Operation-Id").

Section Predict.
Variable re_compile : string → option (string → bool).

(** Requests that agree but for their locations. *)
Definition alike (r r' : Request) : Prop :=
  req_Agent r = req_Agent r' ∧ req_AgentID r = req_AgentID r' ∧ req_Repo r = req_Repo r' ∧ req_Operation r = req_Operation r' ∧
  req_Branch r = req_Branch r' ∧ req_BaseBranch r = req_BaseBranch r' ∧ req_Permissions r = req_Permissions r' ∧
  req_Metadata r = req_Metadata r'.

Lemma checkLocations_congr f r r' locations :
  (∀ loc, loc ∈ locations → valuesForLocation loc r !! f_Name f = valuesForLocation loc r' !! f_Name f) →
  checkLocations re_compile f r locations = checkLocations re_compile f r' locations.
Proof using Type.
  induction locations as [|loc l IH]; intros H; cbn [checkLocations]; [done|].
  assert (checkFieldAt re_compile f r loc = checkFieldAt re_compile f r' loc) as ->.
  { unfold checkFieldAt. rewrite (H loc) by left. done. }
  rewrite IH; [done|]. intros x Hx. apply H. by right.
Qed.

Lemma checkFields_congr mode r r' fields res :
  (∀ f loc, f ∈ fields → loc ∈ field_locations f → valuesForLocation loc r !! f_Name f = valuesForLocation loc r' !! f_Name f) →
  checkFields re_compile mode r fields res = checkFields re_compile mode r' fields res.
Proof using Type.
  revert res. induction fields as [|f l IH]; intros res H; cbn [checkFields]; [done|].
  assert (checkField re_compile f r = checkField re_compile f r') as ->.
  { unfold checkField. destruct (f_Name f =? "")%string; [done|]. apply checkLocations_congr. intros loc Hl. apply H; [by left|done]. }
  apply IH. intros g loc Hg. apply H. by right.
Qed.

Lemma checkPolicies_congr r r' policies res :
  (∀ ap f loc, ap ∈ policies → f ∈ ap_Fields ap → loc ∈ field_locations f →
     valuesForLocation loc r !! f_Name f = valuesForLocation loc r' !! f_Name f) →
  checkPolicies re_compile r policies res = checkPolicies re_compile r' policies res.
Proof using Type.
  revert res. induction policies as [|ap l IH]; intros res H; cbn [checkPolicies]; [done|].
  assert (∀ res, checkPolicies re_compile r l res = checkPolicies re_compile r' l res) as IH'.
  { intros res'. apply IH. intros ap' f loc Hap. apply H. by right. }
  cbv zeta. destruct (_ =? "off")%string; [done|]. rewrite IH'. f_equal. apply checkFields_congr. intros f loc. apply H. by left.
Qed.

(** Policy looks at the locations only for the fields of the assertions. *)
Lemma Check_congr r r' : alike r r' →
  (∀ ap f loc, ap ∈ assertionPolicies (ag_MetadataAssertions (req_Agent r)) (req_Operation r) → f ∈ ap_Fields ap →
     loc ∈ field_locations f → valuesForLocation loc r !! f_Name f = valuesForLocation loc r' !! f_Name f) →
  Check re_compile r = Check re_compile r'.
Proof using Type.
  intros (E1 & E2 & E3 & E4 & E5 & E6 & E7 & E8) H. unfold Check.
  assert (checkAssertions re_compile r = checkAssertions re_compile r') as ->.
  { unfold checkAssertions. rewrite <- E1, <- E4. by apply checkPolicies_congr. }
  by rewrite E1, E2, E3, E4, E5, E6, E7.
Qed.

Lemma WithBrokerFields_id md id opID opID' inst k : k ≠ "Broker-Operation-Id" →
  WithBrokerFields md id opID inst !! k = WithBrokerFields md id opID' inst !! k.
Proof using Type.
  intros Hk. unfold WithBrokerFields.
  assert (∀ (c : bool) (m m' : gmap string string) x y, m !! k = m' !! k → set_if c x y m !! k = set_if c x y m' !! k) as Hsame.
  { intros [] m m' x y H; cbn [set_if]; [|done]. by destruct (decide (x = k)) as [->|]; rewrite ?lookup_insert_eq, ?lookup_insert_ne. }
  apply Hsame. unfold set_if at 1 3. repeat case_match; by rewrite ?lookup_insert_ne.
Qed.

Lemma dry_run_alike cfg agent id opID opID' inst repo dry a : stands_for dry id repo a →
  InstallationIDForApp cfg (GitHubAppName agent) repo = Some inst → foreseeable (policy_agent agent) a →
  Check re_compile (dry_run_request cfg agent id opID dry) = Check re_compile (checked agent id opID' inst repo a).
Proof using Type.
  intros (_ & Hr & Ho & Hb & Hbb & Hp & Hm) Hi Hf. apply Check_congr.
  { unfold dry_run_request, checked, alike, permitted_request. cbn. rewrite Hr. by split_and!. }
  intros ap f loc Hap Hin Hloc. unfold dry_run_request, checked, permitted_request in *. cbn [req_Agent req_Operation] in Hap.
  rewrite Ho in Hap. rewrite Hr, Hi, Hm. cbn [default].
  destruct (Hf ap f loc Hap Hin Hloc) as [->|[->|(-> & Hplace & Hname)]]; [done|done|].
  unfold valuesForLocation. cbn [req_Metadata req_Locations]. rewrite Hplace. cbn [String.eqb Ascii.eqb Bool.eqb orb].
  rewrite lookup_insert_ne by done. rewrite lookup_insert_eq. rewrite lookup_insert_ne by done.
  rewrite lookup_singleton_eq. by apply WithBrokerFields_id.
Qed.
End Predict.

Section Serve.
Variable re_compile : string → option (string → bool).
Variable sha256_hex : string → string.
Variable parse_time : string → option time.
Context {K : Type}.
Variable hmac_hex : K → string → string.
Variable effectTokens : list (string * K).
Variables (srv : Mutations.server) (e : request_env) (h : gmap string (list string)).

Definition serve_ := serve re_compile sha256_hex parse_time hmac_hex effectTokens srv e h.
Definition refused_ (s : state) (out : outcome) : Prop := ∃ st code, out = refuse s st code ∧ 400 ≤ st.

(** An operation that policy does not allow is refused, in one way or another. *)
Lemma serve_denied s method path b out repo ep a agent id inst :
  serve_ s method path b = Some out → handleRepoAPI method path = Some (repo, ep) → asked_of ep b = Some a →
  AuthenticateAgent h (cfg srv) = Some (agent, id) → InstallationIDForApp (cfg srv) (GitHubAppName agent) repo = Some inst →
  Policy.Allowed (Check re_compile (checked agent id (e_op e) inst repo a)) = false → refused_ s out.
Proof using Type.
  unfold serve_, serve. intros Hs Hr Ha Hau Hi Hd. rewrite Hr in Hs.
  assert (∀ st code, 400 ≤ st → refused_ s (refuse s st code)) as Hno by (intros st code; by exists st, code).
  assert (∀ t k, refused_ s k → refused_ s (required s t k)) as Hreq.
  { intros t k Hk. unfold required. destruct (_ =? _)%string; [by apply Hno|done]. }
  assert (∀ n k, (∀ i, refused_ s (k i)) → refused_ s (with_number s n k)) as Hnum.
  { intros n k Hk. unfold with_number. destruct (parsePositiveInt n); [apply Hk|by apply Hno]. }
  assert (∀ k, refused_ s (k agent id) → refused_ s (with_principal srv h s k)) as Hpr.
  { intros k Hk. unfold with_principal. by rewrite Hau. }
  assert (∀ k, refused_ s (k inst) → refused_ s (with_installation srv s agent repo k)) as Hin.
  { intros k Hk. unfold with_installation. by rewrite Hi. }
  assert (∀ k, refused_ s (with_policy re_compile s (checked agent id (e_op e) inst repo a) k)) as Hpol.
  { intros k. unfold with_policy. rewrite Hd. by apply Hno. }
  destruct ep; cbn [asked_of] in Ha; try discriminate Ha; injection Hs as <-.
  - destruct (as_pull b) as [q|] eqn:E; [|done]. injection Ha as <-. unfold handlePullCreate.
    apply Hpr. unfold with_json. apply Hin. exact (Hpol _).
  - destruct (as_message b) as [q|] eqn:E; [|done]. injection Ha as <-. unfold handlePullReviewDismiss.
    apply Hnum. intros i. cbv zeta. destruct (_ =? _)%string; [by apply Hno|]. apply Hpr. unfold with_json. apply Hreq, Hin. exact (Hpol _).
  - destruct (as_message b) as [q|] eqn:E; [|done]. injection Ha as <-. unfold handlePullReviewThreadResolve.
    apply Hnum. intros i. apply Hreq, Hpr. unfold with_json. apply Hreq, Hin. exact (Hpol _).
  - destruct (as_issue b) as [q|] eqn:E; [|done]. injection Ha as <-. unfold handleIssueCreate.
    apply Hpr. unfold with_json. apply Hreq, Hreq, Hin. exact (Hpol _).
  - destruct (as_comment b) as [q|] eqn:E; [|done]. injection Ha as <-. unfold handleCommentCreate.
    apply Hpr. unfold with_json. apply Hin. exact (Hpol _).
  - destruct (as_labels b) as [q|] eqn:E; [|done]. injection Ha as <-. unfold handleIssueLabelsAdd.
    apply Hnum. intros i. apply Hpr. unfold with_json. cbv zeta. destruct (is_nil _); [by apply Hno|]. apply Hin. exact (Hpol _).
  - injection Ha as <-. unfold handleIssueLabelRemove. apply Hnum. intros i. destruct (path_unescape _); [|by apply Hno].
    apply Hreq. cbv zeta. apply Hpr, Hin. exact (Hpol _).
Qed.

(** The answers that are not a denial by policy. *)
Definition unforbidden (out : outcome) : Prop := out.2 ≠ say 403 (Refused "policy_denied").

Lemma unforbidden_call s m k : (∀ r, unforbidden (k r)) → unforbidden (call_github e s m k).
Proof using Type. intros Hk. unfold call_github. by destruct (e_mutate e m). Qed.

Lemma unforbidden_write s sent key op digest st out : unforbidden (writeExactIdempotentJSON srv e s sent key op digest st out).
Proof using Type. unfold writeExactIdempotentJSON. by destruct (Idempotency.Store _ _ _ _ _ _) as [r [[]|]]. Qed.

Lemma unforbidden_once s key op m : unforbidden (once_recorded srv e s key op m).
Proof using Type.
  unfold once_recorded, replayIdempotent. destruct (Idempotency.Load _ _ _ _) as [[rec|]|]; [done| |done].
  apply unforbidden_call. intros r. apply unforbidden_write.
Qed.

Lemma unforbidden_block s fields k : unforbidden k → unforbidden (blockUnsafeEgress hmac_hex effectTokens s fields k).
Proof using Type. unfold blockUnsafeEgress. by destruct (negb _). Qed.

Lemma unforbidden_reserve s op md k : (∀ s, unforbidden (k s)) → unforbidden (reserveMutation srv e s op md k).
Proof using Type.
  intros Hk. unfold reserveMutation. destruct (CheckAndReserve _ _ _ _ _) as [b' [d|]]; [|done]. by destruct (Limits.Allowed d).
Qed.

Lemma unforbidden_create s app repo n inst key digest body : unforbidden (create_comment srv e s app repo n inst key digest body).
Proof using Type. apply unforbidden_call. intros r. apply unforbidden_write. Qed.

(** The creation of a correlated pull request has refusals of its own. *)
Lemma pull_not_denied ev ps f c capability key f' created r :
  pullCreateWithCorrelation sha256_hex ev ps f c capability key = (f', created, r) →
  pc_reply_ r ≠ PcError "policy_denied".
Proof using Type.
  unfold pullCreateWithCorrelation. cbv zeta. intros H.
  destruct (trim_space capability =? "")%string; [by simplify_eq|].
  destruct (PullCreate.verify _) as [claims|err]; [|destruct err; cbn in H; by simplify_eq].
  destruct (negb _); [by simplify_eq|]. destruct (trim_space key =? "")%string; [by simplify_eq|].
  destruct (ReserveExact _ _ _ _ _ _ _ _) as [idem1 [[[rec found] conflict]|x]]; [|by simplify_eq].
  destruct conflict; [by simplify_eq|]. destruct (found && _); [by simplify_eq|].
  destruct (reconcileOrCreatePull _ _ _ _ _ _) as [sent [[g b]|x]]; [|by simplify_eq].
  destruct (record_and_answer _ _ _ _ _ _ _ _ _) as [s1 r1] eqn:Er. simplify_eq. unfold record_and_answer in Er.
  destruct (Correlation.Record_ _ _ _ _ _ _) as [corr1 [row|x]]; [|by simplify_eq].
  cbv zeta in Er. by destruct (Store _ _ _ _ _ _) as [idem2 [u|x]]; simplify_eq.
Qed.

(** The guard of the branch of a pull request denies it. *)
Definition guard_denies (agent : Agent) (inst : Z) (repo : string) (a : asked) : Prop :=
  ∃ guard, checkBranchLifecycle (e_gh e) (GitHubAppName agent) inst repo (as_Branch a) "pull.create" agent = Some guard ∧
    Policy.Allowed guard = false.

Lemma denied_pull s repo b a agent id inst :
  asked_of RepoApi.PullCreate b = Some a →
  AuthenticateAgent h (cfg srv) = Some (agent, id) → InstallationIDForApp (cfg srv) (GitHubAppName agent) repo = Some inst →
  Policy.Allowed (Check re_compile (checked agent id (e_op e) inst repo a)) = true →
  (handlePullCreate re_compile sha256_hex hmac_hex effectTokens srv e h s repo (as_pull b)).2 = say 403 (Refused "policy_denied") →
  guard_denies agent inst repo a.
Proof using Type.
  intros Ha Hau Hi Hd. cbn [asked_of] in Ha. destruct (as_pull b) as [q|] eqn:E; [|done]. injection Ha as <-.
  unfold handlePullCreate, with_principal. rewrite Hau. unfold with_json, with_installation. rewrite Hi.
  unfold with_policy. unfold checked in Hd. cbn [as_Operation as_Branch as_BaseBranch as_Permissions as_Metadata as_Place] in Hd.
  cbv zeta. rewrite Hd. cbn [negb]. unfold blockUnsafeEgress. destruct (negb _); [done|].
  unfold guarded_branch, guard_denies. cbn [as_Branch].
  assert (∀ k, unforbidden k → k.2 = say 403 (Refused "policy_denied") →
    ∃ guard, checkBranchLifecycle (e_gh e) (GitHubAppName agent) inst repo (Head q) "pull.create" agent = Some guard ∧
      Policy.Allowed guard = false) as Hno by (intros k Hk Hk'; by destruct Hk).
  assert (∀ s, unforbidden (
    let create body := CreatePull (GitHubAppName agent) repo inst (Title q) (Head q) (Base q) body (Draft q) in
    if correlated srv then
      let '(f, created, r) :=
        pullCreateWithCorrelation sha256_hex (attempt_of e create) (path_set srv) (files s)
          {| c_AgentID := id; c_Request := q; c_Repo_ := repo; c_Inst := inst |}
          (header_get h "X-Agent-Capability") (header_get h "Idempotency-Key") in
      ({| files := f; budgets := budgets s |}, map create created, say (pc_status r) (answer_of (pc_reply_ r)))
    else
      let text := ReqBody q +:+ RenderBlock (WithBrokerFields (Metadata q) id (e_op e) inst) in
      call_github e s (create text) (λ out, (s, [create text], say 201 (Done out))))) as Hlast.
  { intros s'. cbv zeta. destruct (correlated srv); [|by apply unforbidden_call].
    destruct (pullCreateWithCorrelation _ _ _ _ _ _ _) as [[f created] r] eqn:Er. apply pull_not_denied in Er.
    unfold unforbidden. cbn [snd]. intros [= _ Hc]. by destruct (pc_reply_ r); simplify_eq/=. }
  destruct (checkBranchLifecycle _ _ _ _ _ _ _) as [guard|] eqn:Eg; [destruct (Policy.Allowed guard) eqn:Ea|]; cbn [negb].
  - apply Hno, unforbidden_reserve, Hlast.
  - intros _. by exists guard.
  - apply Hno, unforbidden_reserve, Hlast.
Qed.

(** An operation that policy allows is not denied by it; the creation of a pull
    request may still be denied by the guard of its branch. *)
Lemma serve_admitted s method path b out repo ep a agent id inst :
  serve_ s method path b = Some out → handleRepoAPI method path = Some (repo, ep) → asked_of ep b = Some a →
  AuthenticateAgent h (cfg srv) = Some (agent, id) → InstallationIDForApp (cfg srv) (GitHubAppName agent) repo = Some inst →
  Policy.Allowed (Check re_compile (checked agent id (e_op e) inst repo a)) = true → ep ≠ RepoApi.PullCreate → unforbidden out.
Proof using Type.
  unfold serve_, serve. intros Hs Hr Ha Hau Hi Hd Hne. rewrite Hr in Hs.
  assert (∀ t k, unforbidden k → unforbidden (required s t k)) as Hreq.
  { intros t k Hk. unfold required. by destruct (_ =? _)%string. }
  assert (∀ n k, (∀ i, unforbidden (k i)) → unforbidden (with_number s n k)) as Hnum.
  { intros n k Hk. unfold with_number. by destruct (parsePositiveInt n). }
  assert (∀ k, unforbidden (k agent id) → unforbidden (with_principal srv h s k)) as Hpr.
  { intros k Hk. unfold with_principal. by rewrite Hau. }
  assert (∀ k, unforbidden (k inst) → unforbidden (with_installation srv s agent repo k)) as Hin.
  { intros k Hk. unfold with_installation. by rewrite Hi. }
  assert (∀ k, unforbidden k → unforbidden (with_policy re_compile s (checked agent id (e_op e) inst repo a) k)) as Hpol.
  { intros k Hk. unfold with_policy. by rewrite Hd. }
  destruct ep; cbn [asked_of] in Ha; try discriminate Ha; injection Hs as <-; [done|..].
  - destruct (as_message b) as [q|] eqn:E; [|done]. injection Ha as <-. unfold handlePullReviewDismiss.
    apply Hnum. intros i. cbv zeta. destruct (_ =? _)%string; [done|]. apply Hpr. unfold with_json. apply Hreq, Hin, (Hpol _).
    apply unforbidden_block, unforbidden_once.
  - destruct (as_message b) as [q|] eqn:E; [|done]. injection Ha as <-. unfold handlePullReviewThreadResolve.
    apply Hnum. intros i. apply Hreq, Hpr. unfold with_json. apply Hreq, Hin, (Hpol _). apply unforbidden_block, unforbidden_once.
  - destruct (as_issue b) as [q|] eqn:E; [|done]. injection Ha as <-. unfold handleIssueCreate.
    apply Hpr. unfold with_json. apply Hreq, Hreq, Hin, (Hpol _). apply unforbidden_block, unforbidden_reserve.
    intros s'. by apply unforbidden_call.
  - destruct (as_comment b) as [q|] eqn:E; [|done]. injection Ha as <-. unfold handleCommentCreate.
    apply Hpr. unfold with_json. apply Hin, (Hpol _). apply unforbidden_block. cbv zeta.
    destruct (_ =? _)%string; [done|]. destruct (_ =? _)%string; [done|].
    destruct (ReserveExact _ _ _ _ _ _ _ _) as [r0 [[[rec found] conflict]|]]; [|done].
    destruct conflict; [done|]. destruct found, rec as [rec|]; try apply unforbidden_create.
    destruct (Pending rec); [|done]. cbn [negb]. destruct (Atoi _); [|done]. destruct (_ <? 1); [done|].
    destruct (listIssueCommentsForReconciliation _); [|done]. destruct (reconcilePendingComment _ _ _ _) as [[g|]|];
      [apply unforbidden_write|apply unforbidden_create|done].
  - destruct (as_labels b) as [q|] eqn:E; [|done]. injection Ha as <-. unfold handleIssueLabelsAdd.
    apply Hnum. intros i. apply Hpr. unfold with_json. cbv zeta. destruct (is_nil _); [done|]. apply Hin, (Hpol _).
    apply unforbidden_once.
  - injection Ha as <-. unfold handleIssueLabelRemove. apply Hnum. intros i. destruct (path_unescape _); [|done].
    apply Hreq. cbv zeta. apply Hpr, Hin, (Hpol _). apply unforbidden_once.
Qed.

(** C8: a dry run says what policy will say: for an operation of the repository
    API of an agent whose app has an installation that covers the repository, and
    whose assertions for the operation look at the request alone, or, for
    pull.create, at the pull request's body for a field other than
    Broker-Operation-Id, the dry run's answer is the decision that the
    operation's own handler asks for.  When it denies, the operation is refused
    and changes neither GitHub nor the broker's state; when it allows, the
    operation is not denied by policy, except that pull.create is where the guard
    of its branch denies it, which no dry run consults. *)
Theorem dry_run_predicts s method path b out repo ep a agent id inst dry opID :
  serve_ s method path b = Some out → handleRepoAPI method path = Some (repo, ep) → asked_of ep b = Some a →
  AuthenticateAgent h (cfg srv) = Some (agent, id) → InstallationIDForApp (cfg srv) (GitHubAppName agent) repo = Some inst →
  stands_for dry id repo a → foreseeable (policy_agent agent) a →
  let r := handleDryRun re_compile (cfg srv) opID "POST" h (Some dry) in
  r = reply_with (status r) (ADryRun opID (Check re_compile (checked agent id (e_op e) inst repo a))) ∧
  (status r = 403 → ∃ st code, out = refuse s st code ∧ 400 ≤ st) ∧
  (status r = 200 → out.2 = say 403 (Refused "policy_denied") → ep = RepoApi.PullCreate ∧ guard_denies agent inst repo a) ∧
  (status r = 200 ∨ status r = 403).
Proof using Type.
  intros Hs Hr Ha Hau Hi Hst Hf r.
  assert (r = reply_with (statusFor (Check re_compile (checked agent id (e_op e) inst repo a)))
                (ADryRun opID (Check re_compile (checked agent id (e_op e) inst repo a)))) as ->.
  { unfold r, handleDryRun. cbn [negb String.eqb Ascii.eqb Bool.eqb]. rewrite Hau.
    assert (negb (dr_AgentID dry =? "")%string && negb (dr_AgentID dry =? id)%string = false) as ->.
    { destruct Hst as ([->| ->] & _); [done|]. rewrite String.eqb_refl. apply andb_false_r. }
    by rewrite (dry_run_alike _ _ _ _ _ (e_op e) _ _ _ _ Hst Hi Hf). }
  cbn [status reply_with]. unfold statusFor. destruct (Policy.Allowed _) eqn:E.
  - split_and!; [done|done| |by left]. intros _ Hout. assert (ep = RepoApi.PullCreate ∨ ep ≠ RepoApi.PullCreate) as [->|Hne] by (destruct ep; auto).
    + split; [done|]. unfold serve_, serve in Hs. rewrite Hr in Hs. injection Hs as <-. by eapply denied_pull.
    + assert (unforbidden out) as Hno by (by eapply serve_admitted). by destruct Hno.
  - split_and!; [done| |done|by right]. intros _. by eapply serve_denied.
Qed.
End Serve.

(** ** Examples *)

Definition asserted (location : string) : AssertionPolicy :=
  {| ap_Mode := "enforce"; ap_Fields :=
       [{| f_Name := "Agent-Id"; f_Required := true; f_Pattern := ""; f_Value := ""; f_Locations := [location] |}] |}.

(** An agent whose operation asserts that its ID is in a location of the body. *)
Definition asserting (operation location : string) : Agent :=
  {| policy_agent := {| ag_ID := "a1"; ag_Enabled := true; ag_Repositories := ["o/r"]; ag_Operations := all_operations;
       ag_BranchPatterns := []; ag_BaseBranches := []; ag_Permissions := [];
       ag_MetadataAssertions := {[operation := asserted location]} |};
     Secret := "s1"; GitHubApp := ""; GitReceivePack := ""; BranchGuard := no_guard |}.
Definition asserting_server (operation location : string) : Mutations.server :=
  {| cfg := {| Agents := [asserting operation location]; GitTransport.AdminSecret := ""; GitBaseURL := "";
       DefaultApp := {| AppID := 7; PrivateKeyPath := "key.pem"; Installations := [("o/*", 42)] |}; Apps := ∅ |};
     path_set := true; limits_cfg := limits_cfg plain; correlated := false |}.

Definition dry_of (operation : string) : DryRunRequest :=
  {| dr_AgentID := ""; dr_Owner := "o"; dr_Repo := "r"; dr_Repository := ""; dr_Operation := operation; dr_Branch := "";
     dr_BaseBranch := ""; dr_Permissions := []; dr_Metadata := ∅ |}.
Definition issue_body : decoded :=
  {| as_pull := None; as_comment := None; as_labels := None; as_message := None;
     as_issue := Some {| is_Title := "T"; is_Body := "B"; is_Labels := []; is_Metadata := ∅; is_Permissions := [] |} |}.

Definition dry_status (srv : Mutations.server) (operation : string) : Z :=
  status (handleDryRun (λ _, None) (cfg srv) "op" "POST" (headers_of "a1" "s1" "k") (Some (dry_of operation))).
Definition sample_run (srv : Mutations.server) (path : string) (b : decoded) : option outcome :=
  serve_ (λ _, None) no_hash (λ _, Some 0) (λ (_ : unit) t, t) [] srv (quiet_env "op_1") (headers_of "a1" "s1" "k") fresh "POST" path b.

(** The configuration examples assert fields of an issue's body, a location that
    no dry run has: each dry run of issue.create is denied, whatever is sent,
    while the broker's own fields let the operation pass. *)
Example dry_run_denies_issue :
  let srv := asserting_server "issue.create" "issue_body" in
  dry_status srv "issue.create" = 403 ∧
  status ∘ snd <$> sample_run srv "/v1/repos/o/r/issues" issue_body = Some 201.
Proof. split; vm_compute; reflexivity. Qed.

(** A dry run adds the broker's fields to a comment, the operation does not. *)
Example dry_run_allows_comment :
  let srv := asserting_server "issue.comment" "comment_body" in
  dry_status srv "issue.comment" = 200 ∧
  snd <$> sample_run srv "/v1/repos/o/r/issues/7/comments" (comment_body "text") = Some (say 403 (Mutations.Refused "policy_denied")).
Proof. split; vm_compute; reflexivity. Qed.

(** Every address of IPv6 is a wildcard that is not noticed. *)
Example wildcard_listened : ValidateListenAddress "[::]:8080" = true ∧ ValidateListenAddress ":8080" = false.
Proof. by vm_compute. Qed.

Lemma dry_run_predicts_witness :
  let srv := asserting_server "issue.label.add" "request" in
  let r := handleDryRun (λ _, None) (cfg srv) "op" "POST" (headers_of "a1" "s1" "k") (Some (dry_of "issue.label.add")) in
  status r = 403 ∧ ∃ st code, sample_run srv "/v1/repos/o/r/issues/7/labels" (labels_body ["bug"]) = Some (refuse fresh st code).
Proof.
  cbv zeta. set (srv := asserting_server "issue.label.add" "request").
  assert (∃ out, sample_run srv "/v1/repos/o/r/issues/7/labels" (labels_body ["bug"]) = Some out) as [out Hout] by (eexists; vm_compute; reflexivity).
  assert (AuthenticateAgent (headers_of "a1" "s1" "k") (cfg srv) = Some (asserting "issue.label.add" "request", "a1")) as Ha
    by reflexivity.
  assert (status (handleDryRun (λ _, None) (cfg srv) "op" "POST" (headers_of "a1" "s1" "k") (Some (dry_of "issue.label.add"))) = 403)
    as Hst by (vm_compute; reflexivity).
  split; [exact Hst|].
  destruct (dry_run_predicts (λ _, None) no_hash (λ _, Some 0) (λ (_ : unit) t, t) [] srv (quiet_env "op_1")
    (headers_of "a1" "s1" "k") fresh "POST" "/v1/repos/o/r/issues/7/labels" (labels_body ["bug"]) out "o/r" (IssueLabelsAdd "7")
    {| as_Operation := "issue.label.add"; as_Branch := ""; as_BaseBranch := ""; as_Permissions := []; as_Metadata := ∅;
       as_Place := NoPlace |} (asserting "issue.label.add" "request") "a1" 42 (dry_of "issue.label.add") "op")
    as (_ & Hdeny & _).
  - exact Hout.
  - vm_compute; reflexivity.
  - reflexivity.
  - exact Ha.
  - vm_compute; reflexivity.
  - repeat split; try reflexivity. by left.
  - intros ap f loc Hap Hf Hloc. left.
    change (ap ∈ [asserted "request"]) in Hap. apply list_elem_of_singleton in Hap as ->.
    apply list_elem_of_singleton in Hf as ->. apply list_elem_of_singleton in Hloc as ->. reflexivity.
  - destruct (Hdeny Hst) as (st & code & -> & _). exists st, code. exact Hout.
Defined.
