(* ===== verification/ApiDocs.v ===== *)
(** * internal/server: the documents that describe the broker's routes

    The discovery document, the list of operations, the text of /docs and the
    OpenAPI document, as they are served; what they say is compared with the
    routes of BrokerApi.  A JSON document is a tree whose objects list their
    fields in the order of the source. *)

From S2P Require Import Prelude GoStrings Net Http CIStatus Policy GitTransport ReadAccess RepoApi BrokerApi.
Open Scope string_scope.
Open Scope list_scope.

(** ** Documents *)

Inductive doc := T (s : string) | B (b : bool) | L (l : list doc) | O (fields : list (string * doc)).

Fixpoint get (fields : list (string * doc)) (k : string) : option doc :=
  match fields with [] => None | (k', d) :: l => if (k' =? k)%string then Some d else get l k end.
Definition field (d : doc) (k : string) : option doc := match d with O fields => get fields k | _ => None end.
Definition fields_of (d : doc) : list (string * doc) := match d with O fields => fields | _ => [] end.

Definition discovery : doc := O [
  ("name", T "gh-agent-broker");
  ("description", T "GitHub Agent Access Broker");
  ("version", T "v1");
  ("links", O [("health", T "/healthz"); ("ready", T "/readyz"); ("operations", T "/operations"); ("openapi", T "/openapi.json")]);
  ("git_remote_template", T "/git/{owner}/{repo}.git");
  ("auth", T "agent operations use HTTP basic auth with broker agent ID and broker agent secret")].

(** [op_Metadata]: the entry says to send the configured metadata in the body. *)
Record operation_doc := {
  op_Name : string; op_Method : string; op_Path : string; op_Auth : string; op_Metadata : bool; op_Description : string }.

Definition operations : list operation_doc := [
   {| op_Name := "repo.probe"; op_Method := "GET"; op_Path := "/v1/repos/{owner}/{repo}/probe"; op_Auth := "agent"; op_Metadata := false;
      op_Description := "Probe configured repository access through the broker." |};
   {| op_Name := "pull.create"; op_Method := "POST"; op_Path := "/v1/repos/{owner}/{repo}/pulls"; op_Auth := "agent"; op_Metadata := true;
      op_Description := "Create a pull request through the broker." |};
   {| op_Name := "pull.read"; op_Method := "GET"; op_Path := "/v1/repos/{owner}/{repo}/pulls"; op_Auth := "agent"; op_Metadata := false;
      op_Description := "List or get pull requests through the broker." |};
   {| op_Name := "pull.files.read"; op_Method := "GET"; op_Path := "/v1/repos/{owner}/{repo}/pulls/{number}/files"; op_Auth := "agent"; op_Metadata := false;
      op_Description := "List files changed by a pull request." |};
   {| op_Name := "pull.reviews.read"; op_Method := "GET"; op_Path := "/v1/repos/{owner}/{repo}/pulls/{number}/reviews"; op_Auth := "agent"; op_Metadata := false;
      op_Description := "List pull request reviews, review comments, or review threads." |};
   {| op_Name := "pull.review.dismiss"; op_Method := "PUT"; op_Path := "/v1/repos/{owner}/{repo}/pulls/{number}/reviews/{review_id}/dismissal"; op_Auth := "agent"; op_Metadata := true;
      op_Description := "Dismiss a pull request review through the broker." |};
   {| op_Name := "pull.review_thread.resolve"; op_Method := "PUT"; op_Path := "/v1/repos/{owner}/{repo}/pulls/{number}/review-threads/{thread_id}/resolve"; op_Auth := "agent"; op_Metadata := true;
      op_Description := "Resolve a pull request review thread through the broker." |};
   {| op_Name := "issue.comment"; op_Method := "POST"; op_Path := "/v1/repos/{owner}/{repo}/issues/{number}/comments"; op_Auth := "agent"; op_Metadata := true;
      op_Description := "Create an issue or pull request comment through the broker." |};
   {| op_Name := "issue.label.add"; op_Method := "POST"; op_Path := "/v1/repos/{owner}/{repo}/issues/{number}/labels"; op_Auth := "agent"; op_Metadata := true;
      op_Description := "Add labels to an issue or pull request through the broker." |};
   {| op_Name := "issue.label.remove"; op_Method := "DELETE"; op_Path := "/v1/repos/{owner}/{repo}/issues/{number}/labels/{label}"; op_Auth := "agent"; op_Metadata := true;
      op_Description := "Remove a label from an issue or pull request through the broker." |};
   {| op_Name := "issue.read"; op_Method := "GET"; op_Path := "/v1/repos/{owner}/{repo}/issues"; op_Auth := "agent"; op_Metadata := false;
      op_Description := "List or get issues through the broker." |};
   {| op_Name := "issue.comments.read"; op_Method := "GET"; op_Path := "/v1/repos/{owner}/{repo}/issues/{number}/comments"; op_Auth := "agent"; op_Metadata := false;
      op_Description := "List issue or pull request conversation comments through the broker." |};
   {| op_Name := "status.read"; op_Method := "GET"; op_Path := "/v1/repos/{owner}/{repo}/commits/{sha}/status"; op_Auth := "agent"; op_Metadata := false;
      op_Description := "Read combined commit status through the broker." |};
   {| op_Name := "checks.read"; op_Method := "GET"; op_Path := "/v1/repos/{owner}/{repo}/commits/{sha}/check-runs"; op_Auth := "agent"; op_Metadata := false;
      op_Description := "Read commit check runs through the broker." |};
   {| op_Name := "issue.create"; op_Method := "POST"; op_Path := "/v1/repos/{owner}/{repo}/issues"; op_Auth := "agent"; op_Metadata := true;
      op_Description := "Create an issue through the broker." |};
   {| op_Name := "policy.dry-run"; op_Method := "POST"; op_Path := "/v1/policy/dry-run"; op_Auth := "agent"; op_Metadata := false;
      op_Description := "Evaluate broker policy without performing the requested operation." |};
   {| op_Name := "git.upload-pack"; op_Method := "GET/POST"; op_Path := "/git/{owner}/{repo}.git"; op_Auth := "git basic auth"; op_Metadata := false;
      op_Description := "Brokered Git clone/fetch smart-HTTP endpoint." |};
   {| op_Name := "git.receive-pack"; op_Method := "GET/POST"; op_Path := "/git/{owner}/{repo}.git"; op_Auth := "git basic auth"; op_Metadata := false;
      op_Description := "Brokered Git push smart-HTTP endpoint." |}].

Definition docs_lines : list string := [
  "gh-agent-broker REST routes";
  "";
  "Authentication:";
  "- Agent operations use HTTP basic auth with broker agent ID and broker agent secret.";
  "- Do not use GitHub tokens with the broker.";
  "";
  "Discovery:";
  "- GET /operations";
  "- GET /openapi.json";
  "- GET /whoami";
  "";
  "Operations:";
  "- GET  /v1/repos/{owner}/{repo}/probe";
  "- POST /v1/policy/dry-run";
  "- GET  /v1/repos/{owner}/{repo}/pulls";
  "- GET  /v1/repos/{owner}/{repo}/pulls/{number}";
  "- GET  /v1/repos/{owner}/{repo}/pulls/{number}/files";
  "- GET  /v1/repos/{owner}/{repo}/pulls/{number}/comments";
  "- GET  /v1/repos/{owner}/{repo}/pulls/{number}/reviews";
  "- GET  /v1/repos/{owner}/{repo}/pulls/{number}/review-comments";
  "- GET  /v1/repos/{owner}/{repo}/pulls/{number}/review-threads";
  "- GET  /v1/repos/{owner}/{repo}/pulls/{number}/ci-observation";
  "- PUT  /v1/repos/{owner}/{repo}/pulls/{number}/reviews/{review_id}/dismissal";
  "- PUT  /v1/repos/{owner}/{repo}/pulls/{number}/review-threads/{thread_id}/resolve";
  "- POST /v1/repos/{owner}/{repo}/pulls";
  "- GET  /v1/repos/{owner}/{repo}/issues";
  "- GET  /v1/repos/{owner}/{repo}/issues/{number}";
  "- GET  /v1/repos/{owner}/{repo}/issues/{number}/comments";
  "- POST /v1/repos/{owner}/{repo}/issues";
  "- POST /v1/repos/{owner}/{repo}/issues/{number}/comments";
  "- POST /v1/repos/{owner}/{repo}/issues/{number}/labels";
  "- DELETE /v1/repos/{owner}/{repo}/issues/{number}/labels/{label}";
  "- GET  /v1/repos/{owner}/{repo}/commits/{sha}/status";
  "- GET  /v1/repos/{owner}/{repo}/commits/{sha}/check-runs";
  "- GET  /v1/repos/{owner}/{repo}/actions/jobs/{job_id}/log";
  "";
  "Git smart HTTP:";
  "- /git/{owner}/{repo}.git"].

Definition repoPathParams : list doc := [O [("name", T "owner"); ("in", T "path"); ("required", B true); ("schema", O [("type", T "string")])];
  O [("name", T "repo"); ("in", T "path"); ("required", B true); ("schema", O [("type", T "string")])]].

Definition jsonContentRef (ref : string) : doc :=
  O [("application/json", O [("schema", O [("$ref", T ref)])])].
Definition jsonRequestRef (ref : string) : doc := O [("required", B true); ("content", jsonContentRef ref)].

Definition errorResponse_schema : doc := O [
    ("type", T "object");
    ("properties", O [
        ("code", O [("type", T "string")]);
        ("message", O [("type", T "string")]);
        ("operation_id", O [("type", T "string")]);
        ("decision", O [("type", T "string")]);
        ("failed_checks", O [("type", T "array"); ("items", O [("type", T "object")])]);
        ("required_changes", O [("type", T "array"); ("items", O [("type", T "object")])]);
        ("warnings", O [("type", T "array"); ("items", O [("type", T "object")])])])].

Definition schemas : doc := O [
    ("Metadata", O [
        ("type", T "object");
        ("additionalProperties", O [("type", T "string")]);
        ("example", O [("Agent-Id", T "hermes-coder-01"); ("Hermes-Run-Id", T "run-123")])]);
    ("DryRunRequest", O [
        ("type", T "object");
        ("required", L [T "operation"]);
        ("properties", O [
            ("agent_id", O [("type", T "string")]);
            ("repo", O [("type", T "string"); ("description", T "owner/repo, or repo name when owner is also supplied")]);
            ("repository", O [("type", T "string"); ("description", T "owner/repo alias accepted for dry-run")]);
            ("owner", O [("type", T "string"); ("description", T "repository owner, used with repo name")]);
            ("operation", O [("type", T "string")]);
            ("branch", O [("type", T "string")]);
            ("base_branch", O [("type", T "string")]);
            ("permissions", O [("type", T "array"); ("items", O [("type", T "string")])]);
            ("metadata", O [("$ref", T "#/components/schemas/Metadata")])]);
        ("examples", O [
            ("pullCreate", O [
                ("value", O [
                    ("repo", T "OWNER/REPO");
                    ("operation", T "pull.create");
                    ("branch", T "agent/hermes-coder-01/run-123");
                    ("base_branch", T "main");
                    ("metadata", O [("Agent-Id", T "hermes-coder-01"); ("Hermes-Run-Id", T "run-123")])])])])]);
    ("DryRunResponse", O [
        ("type", T "object");
        ("properties", O [
            ("operation_id", O [("type", T "string")]);
            ("allowed", O [("type", T "boolean")]);
            ("decision", O [("type", T "string")]);
            ("failed_checks", O [("type", T "array"); ("items", O [("type", T "object")])]);
            ("warnings", O [("type", T "array"); ("items", O [("type", T "object")])]);
            ("required_changes", O [("type", T "array"); ("items", O [("type", T "object")])])])]);
    ("PullCreateRequest", O [
        ("type", T "object");
        ("required", L [T "title"; T "head"; T "base"]);
        ("properties", O [
            ("title", O [("type", T "string")]);
            ("head", O [("type", T "string")]);
            ("base", O [("type", T "string")]);
            ("body", O [("type", T "string")]);
            ("draft", O [("type", T "boolean")]);
            ("metadata", O [("$ref", T "#/components/schemas/Metadata")]);
            ("permissions", O [("type", T "array"); ("items", O [("type", T "string")])])]);
        ("example", O [
            ("title", T "Hermes agent change");
            ("head", T "agent/hermes-coder-01/run-123");
            ("base", T "main");
            ("body", T "Implemented requested change.");
            ("metadata", O [("Agent-Id", T "hermes-coder-01"); ("Hermes-Run-Id", T "run-123")])])]);
    ("CommentCreateRequest", O [
        ("type", T "object");
        ("required", L [T "body"]);
        ("properties", O [
            ("body", O [("type", T "string")]);
            ("metadata", O [("$ref", T "#/components/schemas/Metadata")]);
            ("permissions", O [("type", T "array"); ("items", O [("type", T "string")])])]);
        ("example", O [
            ("body", T "Hermes finished this run.");
            ("metadata", O [("Agent-Id", T "hermes-coder-01"); ("Hermes-Run-Id", T "run-123")])])]);
    ("IssueCreateRequest", O [
        ("type", T "object");
        ("required", L [T "title"; T "body"]);
        ("properties", O [
            ("title", O [("type", T "string")]);
            ("body", O [("type", T "string")]);
            ("labels", O [("type", T "array"); ("items", O [("type", T "string")])]);
            ("metadata", O [("$ref", T "#/components/schemas/Metadata")]);
            ("permissions", O [("type", T "array"); ("items", O [("type", T "string")])])]);
        ("example", O [
            ("title", T "Agent-reported issue");
            ("body", T "Observed behavior...");
            ("labels", L [T "agent-reported"]);
            ("metadata", O [("Agent-Id", T "broker-reporter-01"); ("Dedupe-Key", T "repo:path:summary")])])]);
    ("IssueLabelsRequest", O [
        ("type", T "object");
        ("required", L [T "labels"]);
        ("properties", O [
            ("labels", O [("type", T "array"); ("items", O [("type", T "string")])]);
            ("metadata", O [("$ref", T "#/components/schemas/Metadata")]);
            ("permissions", O [("type", T "array"); ("items", O [("type", T "string")])])])]);
    ("PullReviewDismissRequest", O [
        ("type", T "object");
        ("required", L [T "message"]);
        ("properties", O [
            ("message", O [("type", T "string")]);
            ("metadata", O [("$ref", T "#/components/schemas/Metadata")]);
            ("permissions", O [("type", T "array"); ("items", O [("type", T "string")])])])]);
    ("PullReviewThreadResolveRequest", O [
        ("type", T "object");
        ("required", L [T "message"]);
        ("properties", O [
            ("message", O [("type", T "string")]);
            ("metadata", O [("$ref", T "#/components/schemas/Metadata")]);
            ("permissions", O [("type", T "array"); ("items", O [("type", T "string")])])])]);
    ("GitHubResult", O [
        ("type", T "object");
        ("properties", O [
            ("url", O [("type", T "string")]);
            ("html_url", O [("type", T "string")]);
            ("number", O [("type", T "integer")]);
            ("id", O [("type", T "integer")])])]);
    ("ErrorResponse", errorResponse_schema)].

Definition paths : doc := O [
    ("/healthz", O [
        ("get", O [
            ("summary", T "Health check");
            ("security", L []);
            ("responses", O [("200", O [("description", T "healthy")])])])]);
    ("/readyz", O [
        ("get", O [
            ("summary", T "Readiness check");
            ("security", L []);
            ("responses", O [("200", O [("description", T "ready")])])])]);
    ("/v1/policy/dry-run", O [
        ("post", O [
            ("summary", T "Evaluate policy without performing an operation");
            ("requestBody", jsonRequestRef "#/components/schemas/DryRunRequest");
            ("responses", O [
                ("200", O [
                    ("description", T "allowed or warning decision");
                    ("content", jsonContentRef "#/components/schemas/DryRunResponse")]);
                ("403", O [("description", T "denied"); ("content", jsonContentRef "#/components/schemas/ErrorResponse")])])])]);
    ("/v1/repos/{owner}/{repo}/probe", O [
        ("get", O [
            ("summary", T "Probe repository access");
            ("parameters", L repoPathParams);
            ("responses", O [
                ("200", O [
                    ("description", T "repository probe result");
                    ("content", jsonContentRef "#/components/schemas/GitHubResult")]);
                ("403", O [("description", T "denied"); ("content", jsonContentRef "#/components/schemas/ErrorResponse")])])])]);
    ("/v1/repos/{owner}/{repo}/pulls", O [
        ("post", O [
            ("summary", T "Create pull request");
            ("parameters", L repoPathParams);
            ("requestBody", jsonRequestRef "#/components/schemas/PullCreateRequest");
            ("responses", O [
                ("201", O [
                    ("description", T "pull request created");
                    ("content", jsonContentRef "#/components/schemas/GitHubResult")]);
                ("403", O [("description", T "denied"); ("content", jsonContentRef "#/components/schemas/ErrorResponse")])])])]);
    ("/v1/repos/{owner}/{repo}/issues/{number}/comments", O [
        ("post", O [
            ("summary", T "Create issue or pull request comment");
            ("parameters", L (repoPathParams ++ [
                O [("name", T "number"); ("in", T "path"); ("required", B true); ("schema", O [("type", T "string")])]]));
            ("requestBody", jsonRequestRef "#/components/schemas/CommentCreateRequest");
            ("responses", O [
                ("201", O [
                    ("description", T "comment created");
                    ("content", jsonContentRef "#/components/schemas/GitHubResult")]);
                ("403", O [("description", T "denied"); ("content", jsonContentRef "#/components/schemas/ErrorResponse")])])])]);
    ("/v1/repos/{owner}/{repo}/issues/{number}/labels", O [
        ("post", O [
            ("summary", T "Add issue or pull request labels");
            ("parameters", L (repoPathParams ++ [
                O [("name", T "number"); ("in", T "path"); ("required", B true); ("schema", O [("type", T "string")])]]));
            ("requestBody", jsonRequestRef "#/components/schemas/IssueLabelsRequest");
            ("responses", O [
                ("200", O [("description", T "resulting labels")]);
                ("403", O [("description", T "denied"); ("content", jsonContentRef "#/components/schemas/ErrorResponse")])])])]);
    ("/v1/repos/{owner}/{repo}/issues/{number}/labels/{label}", O [
        ("delete", O [
            ("summary", T "Remove issue or pull request label");
            ("parameters", L (repoPathParams ++ [
                O [("name", T "number"); ("in", T "path"); ("required", B true); ("schema", O [("type", T "string")])];
                O [("name", T "label"); ("in", T "path"); ("required", B true); ("schema", O [("type", T "string")])]]));
            ("responses", O [
                ("200", O [("description", T "resulting labels")]);
                ("403", O [("description", T "denied"); ("content", jsonContentRef "#/components/schemas/ErrorResponse")])])])]);
    ("/v1/repos/{owner}/{repo}/issues", O [
        ("post", O [
            ("summary", T "Create issue");
            ("parameters", L repoPathParams);
            ("requestBody", jsonRequestRef "#/components/schemas/IssueCreateRequest");
            ("responses", O [
                ("201", O [
                    ("description", T "issue created");
                    ("content", jsonContentRef "#/components/schemas/GitHubResult")]);
                ("403", O [("description", T "denied"); ("content", jsonContentRef "#/components/schemas/ErrorResponse")])])])]);
    ("/v1/repos/{owner}/{repo}/pulls/{number}/reviews/{review_id}/dismissal", O [
        ("put", O [
            ("summary", T "Dismiss pull request review");
            ("parameters", L (repoPathParams ++ [
                O [
                  ("name", T "number");
                  ("in", T "path");
                  ("required", B true);
                  ("schema", O [("type", T "integer")])];
                O [
                  ("name", T "review_id");
                  ("in", T "path");
                  ("required", B true);
                  ("schema", O [("type", T "integer")])]]));
            ("requestBody", jsonRequestRef "#/components/schemas/PullReviewDismissRequest");
            ("responses", O [
                ("200", O [("description", T "review dismissed")]);
                ("403", O [("description", T "denied"); ("content", jsonContentRef "#/components/schemas/ErrorResponse")])])])]);
    ("/v1/repos/{owner}/{repo}/pulls/{number}/review-threads/{thread_id}/resolve", O [
        ("put", O [
            ("summary", T "Resolve pull request review thread");
            ("parameters", L (repoPathParams ++ [
                O [
                  ("name", T "number");
                  ("in", T "path");
                  ("required", B true);
                  ("schema", O [("type", T "integer")])];
                O [
                  ("name", T "thread_id");
                  ("in", T "path");
                  ("required", B true);
                  ("schema", O [("type", T "string")])]]));
            ("requestBody", jsonRequestRef "#/components/schemas/PullReviewThreadResolveRequest");
            ("responses", O [
                ("200", O [("description", T "thread resolved")]);
                ("403", O [("description", T "denied"); ("content", jsonContentRef "#/components/schemas/ErrorResponse")])])])])].

Definition openAPISpec : doc := O [
  ("openapi", T "3.1.0");
  ("info", O [("title", T "GitHub Agent Access Broker"); ("version", T "v1")]);
  ("security", L [O [("agentBasicAuth", L [])]]);
  ("components", O [
    ("securitySchemes", O [("agentBasicAuth", O [("type", T "http"); ("scheme", T "basic")])]);
    ("schemas", schemas)]);
  ("paths", paths)].
(** The answer of a document's route. *)
Inductive page := PDoc (d : doc) | POperations (l : list operation_doc) | PText (lines : list string) | PStatus (text : string).
Definition page_of (d : destination) : option page :=
  match d with
  | Discovery => Some (PDoc discovery)
  | Operations => Some (POperations operations)
  | Docs => Some (PText docs_lines)
  | OpenAPI => Some (PDoc openAPISpec)
  | Healthz => Some (PStatus "ok")
  | Readyz => Some (PStatus "ready")
  | _ => None
  end.

(** ** Templates of paths *)

(** A segment with its placeholders replaced by the values of [v]. *)
Fixpoint fill_segment (v : string → string) (name : option string) (s : string) : string :=
  match s with
  | EmptyString => ""
  | String c s =>
    match name with
    | None => if Ascii.eqb c "{" then fill_segment v (Some "") s else String c (fill_segment v None s)
    | Some n => if Ascii.eqb c "}" then v n +:+ fill_segment v None s else fill_segment v (Some (n +:+ String c "")) s
    end
  end.
Definition fill (v : string → string) (template : string) : string :=
  join "/" (map (fill_segment v None) (split_at "/" template)).

Fixpoint placeholders (name : option string) (s : string) : list string :=
  match s with
  | EmptyString => []
  | String c s =>
    match name with
    | None => placeholders (if Ascii.eqb c "{" then Some "" else None) s
    | Some n => if Ascii.eqb c "}" then n :: placeholders None s else placeholders (Some (n +:+ String c "")) s
    end
  end.

Definition sample_values (name : string) : string := if (name =? "owner")%string then "acme" else if (name =? "repo")%string then "app" else "7".
Example fill_ex :
  fill sample_values "/v1/repos/{owner}/{repo}/pulls/{number}/files" = "/v1/repos/acme/app/pulls/7/files" ∧
  fill sample_values "/git/{owner}/{repo}.git" = "/git/acme/app.git" ∧
  placeholders None "/v1/repos/{owner}/{repo}/pulls/{number}" = ["owner"; "repo"; "number"].
Proof. by vm_compute. Qed.

(** ** The routes a document speaks of *)

Definition methods : list string := ["GET"; "POST"; "PUT"; "DELETE"].

(** A line of the text that gives a method and a path. *)
Definition route_of_line (line : string) : option (string * string) :=
  if negb (has_prefix "- " line) then None else
  match cut " " (sdrop 2 line) with
  | Some (m, path) => if existsb (String.eqb m) methods then Some (m, trim_left_space path) else None
  | None => None
  end.
Definition docs_routes : list (string * string) := omap route_of_line docs_lines.

(** Of the OpenAPI document: the method, the path and the operation. *)
Definition method_of (key : string) : string :=
  if (key =? "get")%string then "GET" else if (key =? "post")%string then "POST"
  else if (key =? "put")%string then "PUT" else if (key =? "delete")%string then "DELETE" else key.
Definition openapi_routes : list (string * string * doc) :=
  flat_map (λ '(path, item), map (λ '(key, op), (method_of key, path, op)) (fields_of item)) (fields_of paths).

(** ** Consistency of the OpenAPI document *)

Fixpoint refs (d : doc) : list string :=
  match d with
  | T _ | B _ => []
  | L l => flat_map refs l
  | O fields => flat_map (λ '(k, d), match d with T s => if (k =? "$ref")%string then [s] else [] | _ => refs d end) fields
  end.

Definition schema_prefix := "#/components/schemas/".
Definition resolves (ref : string) : bool :=
  has_prefix schema_prefix ref && bool_decide (is_Some (field schemas (trim_prefix schema_prefix ref))).

Definition parameter_names (op : doc) : list string :=
  match field op "parameters" with
  | Some (L l) => omap (λ p, match field p "name", field p "in" with Some (T n), Some (T "path") => Some n | _, _ => None end) l
  | _ => []
  end.

(** The parameters are the path's placeholders, a body is asked for where the
    method has one, and every route needs the agent's credentials except the
    two that tell the server's health. *)
Definition operation_consistent (route : string * string * doc) : bool :=
  let '(method, path, op) := route in
  bool_decide (parameter_names op = placeholders None path)
  && Bool.eqb (bool_decide (is_Some (field op "requestBody"))) ((method =? "POST")%string || (method =? "PUT")%string)
  && Bool.eqb (bool_decide (is_Some (field op "security"))) ((path =? "/healthz")%string || (path =? "/readyz")%string).

Definition openapi_consistent : bool :=
  forallb resolves (refs openAPISpec) && forallb operation_consistent openapi_routes
  && bool_decide (is_Some (field openAPISpec "security")).

(** ** The operations behind the routes *)

(** What policy is asked for; the lemmas below hold it against the handlers. *)
Definition endpoint_operation (ep : endpoint) : string :=
  match ep with
  | Probe => "repo.probe"
  | PullList | PullGet _ => "pull.read"
  | PullCreate => "pull.create"
  | PullFiles _ => "pull.files.read"
  | PullIssueComments _ | IssueComments _ => "issue.comments.read"
  | PullReviews _ | PullReviewComments _ | PullReviewThreads _ => "pull.reviews.read"
  | CIObservation _ => "ci.read"
  | PullReviewDismiss _ _ => "pull.review.dismiss"
  | PullReviewThreadResolve _ _ => "pull.review_thread.resolve"
  | IssueCreate => "issue.create"
  | IssueList | IssueGet _ => "issue.read"
  | CommentCreate _ => "issue.comment"
  | IssueLabelsAdd _ => "issue.label.add"
  | IssueLabelRemove _ _ => "issue.label.remove"
  | CommitStatus _ => "status.read"
  | CheckRuns _ => "checks.read"
  | ActionsJobLog _ => "actions.logs.read"
  | ActionsRunJobs _ => "actions.read"
  end.

(** An endpoint that reads answers only if policy permits its operation. *)
Lemma read_operation {X} re_compile cfg (gh : string → Z → read_call → result read_error (@read_data X)) h q method path out repo ep :
  serve_read re_compile cfg gh h q method path = Some {| status := 200; reply := ReadOk out |} →
  handleRepoAPI method path = Some (repo, ep) →
  ∃ app inst, may_read re_compile cfg h repo (endpoint_operation ep) "" app inst.
Proof.
  unfold serve_read. intros H Hr. rewrite Hr in H.
  destruct ep; try discriminate H; apply (inj Some) in H.
  all: unfold handlePullList, handlePullGet, handlePullFiles, handlePullIssueComments, handlePullReviews,
    handlePullReviewComments, handlePullReviewThreads, handleIssueList, handleIssueGet, handleIssueComments,
    handleCommitStatus, handleCheckRuns, handleActionsJobLog, handleActionsRunJobs in H.
  all: lazymatch type of H with
       | handleProbe _ _ _ _ _ = _ => idtac
       | numbered _ _ = _ => apply numbered_ok in H as (n' & _ & H); apply withReadAccess_iff in H as (app & inst & H & _); by exists app, inst
       | _ => apply withReadAccess_iff in H as (app & inst & H & _); by exists app, inst
       end.
  cbn [endpoint_operation].
  unfold handleProbe in H. destruct (AuthenticateAgent h cfg) as [[agent id]|] eqn:Ea; [|done].
  destruct (InstallationIDForApp cfg (GitHubAppName agent) repo) as [i|] eqn:Ei; [|done].
  destruct (Policy.Allowed _) eqn:Ep; [|done]. exists (GitHubAppName agent), i, agent, id. split_and!; [done..|by apply allowed_permitted].
Qed.

Lemma ci_operation re_compile cfg gh h repo number raw head_sha o :
  handleCIObservation re_compile cfg gh h repo number head_sha = {| status := 200; reply := ReadOk o |} →
  ∃ app inst, may_read re_compile cfg h repo (endpoint_operation (CIObservation raw)) "" app inst.
Proof.
  unfold handleCIObservation. destruct number as [n|]; [|done].  destruct (n <? 1)%Z; [done|]. destruct (negb _); [done|].
  intros (app & inst & H & _)%withReadAccess_iff. by exists app, inst.
Qed.

(** An endpoint that writes asks policy for its operation ([asked_of], which
    serve_admitted and serve_denied of BrokerApi hold against the handlers). *)
Lemma write_operation ep b a : asked_of ep b = Some a → as_Operation a = endpoint_operation ep.
Proof.
  destruct ep; cbn [asked_of]; try done; [destruct (Mutations.as_pull b)|destruct (Mutations.as_message b)|destruct (Mutations.as_message b)
    |destruct (Mutations.as_issue b)|destruct (Mutations.as_comment b)|destruct (Mutations.as_labels b)|]; try done; by intros [= <-].
Qed.

(** The route documents give for an endpoint. *)
Definition endpoint_route (ep : endpoint) : string * string :=
  let r path := "/v1/repos/{owner}/{repo}/" +:+ path in
  match ep with
  | Probe => ("GET", r "probe") | PullList => ("GET", r "pulls") | PullCreate => ("POST", r "pulls")
  | PullGet _ => ("GET", r "pulls/{number}") | PullFiles _ => ("GET", r "pulls/{number}/files")
  | PullIssueComments _ => ("GET", r "pulls/{number}/comments") | PullReviews _ => ("GET", r "pulls/{number}/reviews")
  | PullReviewComments _ => ("GET", r "pulls/{number}/review-comments")
  | PullReviewThreads _ => ("GET", r "pulls/{number}/review-threads")
  | CIObservation _ => ("GET", r "pulls/{number}/ci-observation")
  | PullReviewDismiss _ _ => ("PUT", r "pulls/{number}/reviews/{review_id}/dismissal")
  | PullReviewThreadResolve _ _ => ("PUT", r "pulls/{number}/review-threads/{thread_id}/resolve")
  | IssueCreate => ("POST", r "issues") | IssueList => ("GET", r "issues") | IssueGet _ => ("GET", r "issues/{number}")
  | IssueComments _ => ("GET", r "issues/{number}/comments") | CommentCreate _ => ("POST", r "issues/{number}/comments")
  | IssueLabelsAdd _ => ("POST", r "issues/{number}/labels")
  | IssueLabelRemove _ _ => ("DELETE", r "issues/{number}/labels/{label}")
  | CommitStatus _ => ("GET", r "commits/{sha}/status") | CheckRuns _ => ("GET", r "commits/{sha}/check-runs")
  | ActionsJobLog _ => ("GET", r "actions/jobs/{job_id}/log") | ActionsRunJobs _ => ("GET", r "actions/runs/{run_id}/jobs")
  end.

(** The endpoint with the values of the placeholders as its arguments. *)
Definition with_values (v : string → string) (ep : endpoint) : endpoint :=
  match ep with
  | PullGet _ => PullGet (v "number") | PullFiles _ => PullFiles (v "number") | PullIssueComments _ => PullIssueComments (v "number")
  | PullReviews _ => PullReviews (v "number") | PullReviewComments _ => PullReviewComments (v "number")
  | PullReviewThreads _ => PullReviewThreads (v "number") | CIObservation _ => CIObservation (v "number")
  | PullReviewDismiss _ _ => PullReviewDismiss (v "number") (v "review_id")
  | PullReviewThreadResolve _ _ => PullReviewThreadResolve (v "number") (v "thread_id")
  | IssueGet _ => IssueGet (v "number") | IssueComments _ => IssueComments (v "number") | CommentCreate _ => CommentCreate (v "number")
  | IssueLabelsAdd _ => IssueLabelsAdd (v "number") | IssueLabelRemove _ _ => IssueLabelRemove (v "number") (v "label")
  | CommitStatus _ => CommitStatus (v "sha") | CheckRuns _ => CheckRuns (v "sha")
  | ActionsJobLog _ => ActionsJobLog (v "job_id") | ActionsRunJobs _ => ActionsRunJobs (v "run_id")
  | ep => ep
  end.

(** A destination that is the operation of that name, on the repository of the path. *)
Definition carries_out (v : string → string) (name : string) (d : destination) : Prop :=
  match d with
  | Repo repo ep => repo = v "owner" +:+ "/" +:+ v "repo" ∧ endpoint_operation ep = name ∧ ep = with_values v ep
  | PolicyDryRun => name = "policy.dry-run"
  | Git => name = "git.upload-pack" ∨ name = "git.receive-pack"
  | _ => False
  end.

Definition answered (d : destination) : Prop := match d with NotFound | MethodNotAllowed => False | _ => True end.

(** ** Proofs *)

Section Routes.
Variable v : string → string.
Hypothesis plain : ∀ name, free_of "/" (v name).

(** The segments after the repository. *)
Definition rest_of (ep : endpoint) : list string :=
  match ep with
  | Probe => ["probe"] | PullList | PullCreate => ["pulls"] | PullGet _ => ["pulls"; v "number"]
  | PullFiles _ => ["pulls"; v "number"; "files"] | PullIssueComments _ => ["pulls"; v "number"; "comments"]
  | PullReviews _ => ["pulls"; v "number"; "reviews"] | PullReviewComments _ => ["pulls"; v "number"; "review-comments"]
  | PullReviewThreads _ => ["pulls"; v "number"; "review-threads"] | CIObservation _ => ["pulls"; v "number"; "ci-observation"]
  | PullReviewDismiss _ _ => ["pulls"; v "number"; "reviews"; v "review_id"; "dismissal"]
  | PullReviewThreadResolve _ _ => ["pulls"; v "number"; "review-threads"; v "thread_id"; "resolve"]
  | IssueCreate | IssueList => ["issues"] | IssueGet _ => ["issues"; v "number"]
  | IssueComments _ | CommentCreate _ => ["issues"; v "number"; "comments"] | IssueLabelsAdd _ => ["issues"; v "number"; "labels"]
  | IssueLabelRemove _ _ => ["issues"; v "number"; "labels"; v "label"]
  | CommitStatus _ => ["commits"; v "sha"; "status"] | CheckRuns _ => ["commits"; v "sha"; "check-runs"]
  | ActionsJobLog _ => ["actions"; "jobs"; v "job_id"; "log"] | ActionsRunJobs _ => ["actions"; "runs"; v "run_id"; "jobs"]
  end.

Lemma fill_endpoint ep :
  fill v (endpoint_route ep).2 = "/v1/repos/" +:+ join "/" (v "owner" :: v "repo" :: rest_of ep).
Proof using Type.
  assert (map (fill_segment v None) (split_at "/" (endpoint_route ep).2) =
    "" :: "v1" :: "repos" :: v "owner" :: v "repo" :: rest_of ep) as E
    by (destruct ep; cbv; repeat (apply (f_equal2 cons); [apply sapp_nil_r || reflexivity|]); reflexivity).
  unfold fill. by rewrite E.
Qed.

Lemma rest_plain ep : Forall (free_of "/") (rest_of ep).
Proof using plain. destruct ep; repeat constructor; apply plain. Qed.

(** Every endpoint is reached by its route, with the values in their places. *)
Lemma endpoint_served ep :
  ServeHTTP (endpoint_route ep).1 (fill v (endpoint_route ep).2) = Repo (v "owner" +:+ "/" +:+ v "repo") (with_values v ep).
Proof using plain.
  rewrite fill_endpoint. set (l := v "owner" :: v "repo" :: rest_of ep).
  assert (split_at "/" (trim_prefix "/v1/repos/" ("/v1/repos/" +:+ join "/" l)) = l) as E.
  { change (trim_prefix "/v1/repos/" ("/v1/repos/" +:+ join "/" l)) with (join "/" l). apply (split_join "/"); [done|].
    unfold l. constructor; [apply plain|]. constructor; [apply plain|]. apply rest_plain. }
  change (ServeHTTP (endpoint_route ep).1 ("/v1/repos/" +:+ join "/" l)) with
    (match handleRepoAPI (endpoint_route ep).1 ("/v1/repos/" +:+ join "/" l) with Some (repo, ep) => Repo repo ep | None => NotFound end).
  unfold handleRepoAPI. rewrite E. unfold l. by destruct ep.
Qed.

Lemma endpoint_carried_out m path name : (∃ ep, (m, path) = endpoint_route ep ∧ name = endpoint_operation ep) →
  carries_out v name (ServeHTTP m (fill v path)).
Proof using plain.
  intros (ep & E & ->). apply (f_equal fst) in E as Em. apply (f_equal snd) in E as Ep. cbn [fst snd] in Em, Ep. rewrite Em, Ep, endpoint_served.
  split; [done|]. by destruct ep.
Qed.

(** A documented route is checked against the endpoints by computation; the
    others are listed with their paths. *)
Definition endpoints : list endpoint := [
  Probe; PullList; PullCreate; PullGet ""; PullFiles ""; PullIssueComments ""; PullReviews ""; PullReviewComments "";
  PullReviewThreads ""; CIObservation ""; PullReviewDismiss "" ""; PullReviewThreadResolve "" ""; IssueCreate; IssueList;
  IssueGet ""; IssueComments ""; CommentCreate ""; IssueLabelsAdd ""; IssueLabelRemove "" ""; CommitStatus ""; CheckRuns "";
  ActionsJobLog ""; ActionsRunJobs ""].
Definition is_endpoint (t : string * string) : bool := existsb (λ ep, bool_decide (endpoint_route ep = t)) endpoints.
Definition implements (t : string * string * string) : bool :=
  existsb (λ ep, bool_decide (endpoint_route ep = t.1) && (endpoint_operation ep =? t.2)%string) endpoints.

Lemma implements_spec m path name : implements (m, path, name) = true → carries_out v name (ServeHTTP m (fill v path)).
Proof using plain.
  intros (ep & _ & [E%bool_decide_eq_true En%String.eqb_eq]%andb_true_iff)%existsb_exists.
  apply endpoint_carried_out. by exists ep.
Qed.

Lemma is_endpoint_answered m path : is_endpoint (m, path) = true → answered (ServeHTTP m (fill v path)).
Proof using plain.
  intros (ep & _ & E%bool_decide_eq_true)%existsb_exists.
  assert (carries_out v (endpoint_operation ep) (ServeHTTP m (fill v path))) as H by (apply endpoint_carried_out; by exists ep).
  by destruct (ServeHTTP m (fill v path)).
Qed.

(** The routes of a list are answered when those that are no endpoint are. *)
Lemma all_answered l t : Forall (λ t, answered (ServeHTTP t.1 (fill v t.2))) (filter (λ t, is_endpoint t = false) l) →
  t ∈ l → answered (ServeHTTP t.1 (fill v t.2)).
Proof using plain.
  intros Hl Ht. destruct (is_endpoint t) eqn:E; [destruct t; by apply is_endpoint_answered|].
  rewrite Forall_forall in Hl. apply Hl. by apply list_elem_of_filter.
Qed.

(** What /operations asks of the routes: a method, a path and the name of an operation. *)
Definition announced : list (string * string * string) :=
  flat_map (λ o, map (λ m, (m, op_Path o, op_Name o)) (split_at "/" (op_Method o))) operations.

Lemma all_announced t : Forall (λ t, carries_out v t.2 (ServeHTTP t.1.1 (fill v t.1.2))) (filter (λ t, implements t = false) announced) →
  t ∈ announced → carries_out v t.2 (ServeHTTP t.1.1 (fill v t.1.2)).
Proof using plain.
  intros Hl Ht. destruct (implements t) eqn:E; [destruct t as [[]]; by apply implements_spec|].
  rewrite Forall_forall in Hl. apply Hl. by apply list_elem_of_filter.
Qed.
End Routes.

(** C39: the documents describe the routes.  Whatever values without a slash
    stand in its placeholders, every operation of /operations is carried out at
    its method and path, on the repository of the path and with the values as
    arguments, and every route of /docs and of the OpenAPI document is answered;
    every endpoint of the repository API but one (the jobs of a workflow run)
    has a route in /docs that leads to it; and the OpenAPI document is
    consistent: its references resolve, its parameters are the placeholders of
    its paths, and only the health checks are open. *)
Theorem documents_describe (v : string → string) : (∀ name, free_of "/" (v name)) →
  (∀ o m, o ∈ operations → m ∈ split_at "/" (op_Method o) → carries_out v (op_Name o) (ServeHTTP m (fill v (op_Path o)))) ∧
  (∀ m path, (m, path) ∈ docs_routes → answered (ServeHTTP m (fill v path))) ∧
  (∀ m path op, (m, path, op) ∈ openapi_routes → answered (ServeHTTP m (fill v path))) ∧
  (∀ ep, (∀ id, ep ≠ ActionsRunJobs id) → endpoint_route ep ∈ docs_routes ∧
     ServeHTTP (endpoint_route ep).1 (fill v (endpoint_route ep).2) = Repo (v "owner" +:+ "/" +:+ v "repo") (with_values v ep)) ∧
  openapi_consistent = true.
Proof.
  intros plain. split_and!.
  - intros o m Ho Hm. apply (all_announced v plain (m, op_Path o, op_Name o)); [vm_compute; repeat (apply Forall_cons_2; [by auto|]); constructor|].
    apply list_elem_of_In, in_flat_map. exists o. split; apply list_elem_of_In; [done|]. by apply (list_elem_of_fmap_2 (λ m, (m, op_Path o, op_Name o))).
  - intros m path. apply (all_answered v plain docs_routes (m, path)). vm_compute. repeat constructor.
  - intros m path op Hin. apply (all_answered v plain (map fst openapi_routes) (m, path)); [vm_compute; repeat constructor|].
    by apply (list_elem_of_fmap_2 fst _ (m, path, op)).
  - intros ep Hep. split; [|by apply endpoint_served].
    destruct ep; try (apply (bool_decide_unpack _); vm_compute; exact I). by destruct (Hep runID).
  - vm_compute. reflexivity.
Qed.

Lemma documents_describe_witness :
  (∀ o m, o ∈ operations → m ∈ split_at "/" (op_Method o) → carries_out (λ _, "7") (op_Name o) (ServeHTTP m (fill (λ _, "7") (op_Path o)))) ∧
  endpoint_route (PullGet "") ∈ docs_routes.
Proof.
  destruct (documents_describe (λ _, "7")) as (H & _ & _ & H4 & _); [intros name; by vm_compute|].
  split; [exact H|]. apply (H4 (PullGet "")). discriminate.
Defined.

(** ** What the documents leave out *)

(** No document tells of the jobs of a workflow run, and /operations does not
    name the reads of the actions and of the observation. *)
Example jobs_undocumented : endpoint_route (ActionsRunJobs "") ∉ docs_routes ∧
  forallb (λ name, negb (existsb (λ o, op_Name o =? name)%string operations)) ["actions.read"; "actions.logs.read"; "ci.read"] = true.
Proof. split; [apply (bool_decide_unpack _)|]; by vm_compute. Qed.

(** The OpenAPI document lists one read of the repository API, the probe. *)
Example openapi_reads : filter (λ t, t.1 = "GET") (map fst openapi_routes) =
  [("GET", "/healthz"); ("GET", "/readyz"); ("GET", "/v1/repos/{owner}/{repo}/probe")].
Proof. by vm_compute. Qed.
