(* ===== verification/ReleaseArtifact.v ===== *)
(** * internal/sandbox/release_artifact.go: images published as archives

    The identity of an image is derived from the archive that a publisher sends:
    the digest of its configuration, or of its manifest when the archive has an
    OCI index.  The entries that archive/tar reads, the JSON decoders and SHA-256
    are arguments. *)

From S2P Require Import Prelude GoStrings Regex Net Paths GitHubClient Release.
Open Scope string_scope.
Open Scope list_scope.
Open Scope Z_scope.

Definition releasePublishProtocol := "docker-archive/v1".
Definition ociIndexMediaType := "application/vnd.oci.image.index.v1+json".
Definition ociManifestMediaType := "application/vnd.oci.image.manifest.v1+json".

Definition hex_digest : re := repeat_re 64 (Cls is_lower_hex).
Definition dockerConfigPath : re := Alt (Seq hex_digest (lit ".json")) (Seq (lit "blobs/sha256/") hex_digest).
Definition sha256Digest : re := Release.digest_re.

Record ociPlatform := { OS : string; Architecture : string }.
Record ociDescriptor := { d_MediaType : string; d_Digest : string; d_Size : Z; d_Platform : ociPlatform }.
Record dockerArchiveIndex := { ix_SchemaVersion : Z; ix_MediaType : string; ix_Manifests : list ociDescriptor }.
Record ociImageManifest := { im_SchemaVersion : Z; im_MediaType : string; im_Config : ociDescriptor }.

(** Of a Docker manifest, the configuration's path. *)
Record Json := {
  j_manifests : string → option (list string); j_config : string → option ociPlatform;
  j_index : string → option dockerArchiveIndex; j_image : string → option ociImageManifest }.

(** ** Archives *)

Inductive kind := Regular | Directory | Special.
(** [None]: the content cannot be read. *)
Record tar_entry := { t_Name : string; t_Kind : kind; t_Content : option string }.
(** The entries, and whether the archive ends well. *)
Record archive := { entries : list tar_entry; ends : bool }.

Inductive artifact_error :=
| BadArchive | BadPath (name : string) | NotRegular (name : string) | Duplicate (name : string) | BadMetadata (name : string)
| Invalid (what : string).

Definition trim_suffix (suffix s : string) : string :=
  if has_suffix suffix s then stake (String.length s - String.length suffix) s else s.

Definition metadata_limit : Z := 1024 * 1024.

Definition bad_path (header_name : string) : bool :=
  let name := trim_suffix "/" header_name in
  (name =? "")%string || has_prefix "/" header_name || negb (Clean name =? name)%string || has_prefix "../" name.

Fixpoint read_entries (target : string) (found : option string) (l : list tar_entry) : result artifact_error (option string) :=
  match l with
  | [] => Ok found
  | e :: l =>
    let name := trim_suffix "/" (t_Name e) in
    if bad_path (t_Name e) then Err (BadPath (t_Name e)) else
    match t_Kind e with
    | Directory => read_entries target found l
    | Special => Err (NotRegular (t_Name e))
    | Regular =>
      if negb (name =? target)%string then read_entries target found l else
      match found with
      | Some _ => Err (Duplicate name)
      | None =>
        match t_Content e with
        | Some c => if metadata_limit <? Z.of_nat (String.length c) then Err (BadMetadata name) else read_entries target (Some c) l
        | None => Err (BadMetadata name)
        end
      end
    end
  end.

Definition readDockerArchiveEntry (data : archive) (target : string) : result artifact_error (option string) :=
  found ← read_entries target None (entries data);
  fail_if negb (ends data) with BadArchive ;;
  Ok found.

(** ** The identity of an image *)

Section Artifact.
Variables (json : Json) (sha256_hex : string → string).

Definition digestBytes (data : string) : string := "sha256:" +:+ sha256_hex data.

(** strings.Trim(os+"/"+architecture, "/") *)
Definition platform_of (p : ociPlatform) : string :=
  let fix go l := match l with c :: l' => if Ascii.eqb c "/" then go l' else l | [] => [] end in
  trim_right_slash (text (go (chars (OS p +:+ "/" +:+ Architecture p)))).

Definition invalid {A} (what : string) : result artifact_error A := Err (Invalid what).

Definition validateBuildxImageIdentity (data : archive) (indexBytes configID expectedPlatform : string)
    : result artifact_error string :=
  match j_index json indexBytes with
  | Some {| ix_SchemaVersion := v; ix_MediaType := m; ix_Manifests := [descriptor] |} =>
    fail_if negb (v =? 2) || negb (m =? ociIndexMediaType)%string with Invalid "index" ;;
    fail_if negb (d_MediaType descriptor =? ociManifestMediaType)%string || negb (matches sha256Digest (d_Digest descriptor))
       with Invalid "index image manifest identity" ;;
    fail_if negb (platform_of (d_Platform descriptor) =? expectedPlatform)%string with Invalid "index platform" ;;
    found ← readDockerArchiveEntry data ("blobs/sha256/" +:+ trim_prefix "sha256:" (d_Digest descriptor));
    match found with
    | None => invalid "indexed image manifest is missing"
    | Some manifestBytes =>
      fail_if negb (d_Size descriptor =? Z.of_nat (String.length manifestBytes)) || negb (digestBytes manifestBytes =? d_Digest descriptor)%string
         with Invalid "indexed image manifest digest or size" ;;
      match j_image json manifestBytes with
      | Some manifest =>
        fail_if negb (im_SchemaVersion manifest =? 2) || negb (im_MediaType manifest =? ociManifestMediaType)%string
                || negb (d_Digest (im_Config manifest) =? configID)%string with Invalid "indexed image manifest config identity" ;;
        Ok (d_Digest descriptor)
      | None => invalid "indexed image manifest config identity"
      end
    end
  | _ => invalid "index"
  end.

Definition config_digest (path : string) : string := trim_suffix ".json" (trim_prefix "blobs/sha256/" path).

Definition validateDockerArtifact (data : archive) (expectedPlatform : string) : result artifact_error string :=
  found ← readDockerArchiveEntry data "manifest.json";
  match found ≫= j_manifests json with
  | Some [config_path] =>
    fail_if negb (matches dockerConfigPath config_path) with Invalid "config identity" ;;
    found ← readDockerArchiveEntry data config_path;
    match found with
    | None => invalid "config is missing"
    | Some configBytes =>
      fail_if negb (sha256_hex configBytes =? config_digest config_path)%string with Invalid "config digest" ;;
      match j_config json configBytes with
      | None => invalid "config"
      | Some config =>
        fail_if negb (platform_of config =? expectedPlatform)%string with Invalid "platform" ;;
        let legacyImageID := "sha256:" +:+ config_digest config_path in
        index ← readDockerArchiveEntry data "index.json";
        match index with
        | None => Ok legacyImageID
        | Some indexBytes => validateBuildxImageIdentity data indexBytes legacyImageID expectedPlatform
        end
      end
    end
  | _ => invalid "exactly one image manifest"
  end.

(** ** What a valid artifact is *)

(** The one regular entry of that name, and its content. *)
Definition holds (data : archive) (name content : string) : Prop := readDockerArchiveEntry data name = Ok (Some content).

(** The image's configuration, and its manifest when it has an index: each is
    stored under the digest of its content, and the identity is the last one's. *)
Definition identifies (data : archive) (expectedPlatform id : string) : Prop :=
  ∃ manifestBytes config_path configBytes config,
    holds data "manifest.json" manifestBytes ∧ j_manifests json manifestBytes = Some [config_path] ∧
    holds data config_path configBytes ∧ j_config json configBytes = Some config ∧ platform_of config = expectedPlatform ∧
    sha256_hex configBytes = config_digest config_path ∧
    ((readDockerArchiveEntry data "index.json" = Ok None ∧ id = digestBytes configBytes) ∨
     ∃ indexBytes descriptor imageBytes image,
       holds data "index.json" indexBytes ∧ (∃ ix, j_index json indexBytes = Some ix ∧ ix_Manifests ix = [descriptor]) ∧
       platform_of (d_Platform descriptor) = expectedPlatform ∧
       holds data ("blobs/sha256/" +:+ trim_prefix "sha256:" (d_Digest descriptor)) imageBytes ∧
       id = digestBytes imageBytes ∧ d_Size descriptor = Z.of_nat (String.length imageBytes) ∧
       j_image json imageBytes = Some image ∧ d_Digest (im_Config image) = digestBytes configBytes).

Lemma validateDockerArtifact_ok data expectedPlatform id :
  validateDockerArtifact data expectedPlatform = Ok id → identifies data expectedPlatform id.
Proof.
  unfold validateDockerArtifact. intros ([manifestBytes|] & Hm & H)%bind_ok; [|done]. cbn in H.
  destruct (j_manifests json manifestBytes) as [[|config_path [|]]|] eqn:Ej; try done.
  apply fail_if_ok in H as [_ H]. apply bind_ok in H as ([configBytes|] & Hc & H); [|done].
  apply fail_if_ok in H as [Hs H]. destruct (j_config json configBytes) as [config|] eqn:Ec; [|done].
  apply fail_if_ok in H as [Hp H]. apply bind_ok in H as (index & Hi & H). bool_hyps.
  exists manifestBytes, config_path, configBytes, config. split_and!; try done.
  assert ("sha256:" +:+ config_digest config_path = digestBytes configBytes) as E by (unfold digestBytes; congruence).
  rewrite E in H. destruct index as [indexBytes|]; [right|left; by simplify_eq]. unfold validateBuildxImageIdentity in H.
  destruct (j_index json indexBytes) as [[v m [|descriptor [|]]]|] eqn:Ex; try done.
  apply fail_if_ok in H as [_ H]. apply fail_if_ok in H as [_ H]. apply fail_if_ok in H as [Hpl H].
  apply bind_ok in H as ([imageBytes|] & Hb & H); [|done]. apply fail_if_ok in H as [Hd H].
  destruct (j_image json imageBytes) as [image|] eqn:Ei; [|done]. apply fail_if_ok in H as [Hcfg [= <-]]. bool_hyps.
  exists indexBytes, descriptor, imageBytes, image. split_and!; try done. by eexists.
Qed.

End Artifact.

(** ** Reading an archive *)

Definition named (target : string) (e : tar_entry) : bool :=
  match t_Kind e with Regular => (trim_suffix "/" (t_Name e) =? target)%string | _ => false end.

Lemma read_entries_ok target found l r : read_entries target found l = Ok r →
  Forall (λ e, bad_path (t_Name e) = false ∧ t_Kind e ≠ Special) l ∧
  match found with
  | Some c => r = Some c ∧ List.filter (named target) l = []
  | None => match r with
            | Some c => ∃ e, List.filter (named target) l = [e] ∧ t_Content e = Some c
            | None => List.filter (named target) l = []
            end
  end.
Proof.
  revert found. induction l as [|e l IH]; intros found; cbn [read_entries List.filter]; [intros [= <-]; split; [constructor|by destruct found]|].
  destruct (bad_path (t_Name e)) eqn:Eb; [done|].
  assert (∀ P, (Forall (λ e, bad_path (t_Name e) = false ∧ t_Kind e ≠ Special) l ∧ P) → t_Kind e ≠ Special →
    Forall (λ e, bad_path (t_Name e) = false ∧ t_Kind e ≠ Special) (e :: l) ∧ P) as Hcons.
  { intros P [? ?] ?. split; [by constructor|done]. }
  destruct (t_Kind e) eqn:Ek; [| |done].
  2: { assert (named target e = false) as -> by (unfold named; by rewrite Ek). intros H. apply Hcons; [by apply IH|done]. }
  assert (named target e = (trim_suffix "/" (t_Name e) =? target)%string) as -> by (unfold named; by rewrite Ek).
  destruct (trim_suffix "/" (t_Name e) =? target)%string; cbn [negb]; [|intros H; apply Hcons; [by apply IH|done]].
  destruct found as [c|]; [done|]. destruct (t_Content e) as [c|] eqn:Ec; [|done]. destruct (_ <? _); [done|].
  intros H. apply IH in H as [? [-> Hf]]. apply Hcons; [|done]. split; [done|]. exists e. by rewrite Hf.
Qed.

(** What [holds] says: one regular entry of the name has the content, all paths
    are relative and clean, and nothing is a link or a device. *)
Lemma holds_entry data name c : holds data name c →
  ends data = true ∧ (∃ e, List.filter (named name) (entries data) = [e] ∧ t_Content e = Some c) ∧
  Forall (λ e, bad_path (t_Name e) = false ∧ t_Kind e ≠ Special) (entries data).
Proof.
  unfold holds, readDockerArchiveEntry. intros (r & Hr & H)%bind_ok. apply fail_if_ok in H as [He [= ->]].
  apply read_entries_ok in Hr as [? ?]. split; [by apply negb_false_iff|done].
Qed.
