(* ===== verification/CodexHolder.v ===== *)
(** * internal/codexauth/holder.go: the shared Codex credential

    The holder keeps the subscription's credential in one file, the master,
    rotates it with the provider, and issues to each run, once, a projection of
    it without the refresh token.  The world is the master file, the runs'
    issuance records, the temporary files that writes left behind, and the
    refresh tokens that were shown to the provider.  A write makes, fills, syncs
    and renames a temporary file, and syncs the directory; each of these may fail.
    Operations exclude each other (a mutex, and between processes a file lock);
    the number of an effect selects its fault, and the process may die before
    each (Process).  A JSON object is a map of its fields, with keys in their
    exact case; json.Marshal's text of a file is an argument. *)

From S2P Require Import Prelude GoStrings GoTime Process.
Open Scope string_scope.
Open Scope list_scope.
Open Scope Z_scope.

(** ** Credential files *)

(** A field: null, a string, or the text of anything else. *)
Inductive json := JNull | JString (s : string) | JOther (text : string).
Notation object := (gmap string json).

Record authTokens := {
  IDToken : string; AccessToken : string; RefreshToken : string; AccountID : string; tok_Extra : object }.
Record authFile := { Tokens : authTokens; LastRefresh : string; Extra : object }.

(** The file's JSON: its tokens ([None] if absent or null, [Some None] if not an object), its other fields. *)
Record auth_json := { j_tokens : option (option object); j_fields : object }.

Definition string_of (o : object) (key : string) : option string :=
  match o !! key with
  | None | Some JNull => Some ""
  | Some (JString s) => Some s
  | Some (JOther _) => None
  end.

Definition token_keys : list string := ["id_token"; "access_token"; "refresh_token"; "account_id"].
Definition without (keys : list string) (o : object) : object := foldr delete o keys.

(** The UnmarshalJSON methods. *)
Definition decodeTokens (o : object) : option authTokens :=
  id ← string_of o "id_token";
  access ← string_of o "access_token";
  refresh ← string_of o "refresh_token";
  account ← string_of o "account_id";
  Some {| IDToken := id; AccessToken := access; RefreshToken := refresh; AccountID := account;
          tok_Extra := without token_keys o |}.

Definition decodeFile (j : auth_json) : option authFile :=
  tokens ← match j_tokens j with
           | None => Some {| IDToken := ""; AccessToken := ""; RefreshToken := ""; AccountID := ""; tok_Extra := ∅ |}
           | Some None => None
           | Some (Some o) => decodeTokens o
           end;
  last ← string_of (j_fields j) "last_refresh";
  Some {| Tokens := tokens; LastRefresh := last; Extra := delete "last_refresh" (j_fields j) |}.

(** The MarshalJSON methods. *)
Definition put_field (key value : string) (optional : bool) (o : object) : object :=
  if optional && (value =? "")%string then o else <[key := JString value]> o.

Definition encodeTokens (a : authTokens) : object :=
  put_field "id_token" (IDToken a) true (put_field "access_token" (AccessToken a) false
    (put_field "refresh_token" (RefreshToken a) false (put_field "account_id" (AccountID a) true (tok_Extra a)))).

Definition encodeFile (a : authFile) : auth_json :=
  {| j_tokens := Some (Some (encodeTokens (Tokens a)));
     j_fields := put_field "last_refresh" (LastRefresh a) true (Extra a) |}.

(** ** The world *)

Record issuanceRecord := { rec_RunID : string; rec_Key : string; IssuedAt : time; ConsumedAt : time }.

(** What a temporary file holds once it is written whole. *)
Inductive content := Master (j : auth_json) | Issued (r : issuanceRecord).

(** [w_master]: the mode-0600 regular file or another, and its content if it is
    JSON; [w_records]: [None] for a record that does not decode; [w_temps]:
    temporary files, [None] for one that is not whole. *)
Record world := {
  w_master : option (bool * option auth_json); w_records : gmap string (option issuanceRecord); w_shown : list string;
  w_temps : list (option content) }.

Definition set_master (j : auth_json) (w : world) : world :=
  {| w_master := Some (true, Some j); w_records := w_records w; w_shown := w_shown w; w_temps := w_temps w |}.
Definition set_record (id : string) (r : issuanceRecord) (w : world) : world :=
  {| w_master := w_master w; w_records := <[id := Some r]> (w_records w); w_shown := w_shown w;
     w_temps := w_temps w |}.
Definition show (token : string) (w : world) : world :=
  {| w_master := w_master w; w_records := w_records w; w_shown := w_shown w ++ [token]; w_temps := w_temps w |}.
Definition with_temps (l : list (option content)) (w : world) : world :=
  {| w_master := w_master w; w_records := w_records w; w_shown := w_shown w; w_temps := l |}.

Inductive error :=
| EIdentity | ERecord | EState | EConsumed | EMaster | EMode | EDecode | EIncomplete | EWrite | ETooLarge
| ENoRefreshToken | EProvider.

Record refreshResponse := { r_ID : string; r_Access : string; r_Refresh : string }.

(** The provider's answer: status, and the body if it is read, within the limit, and JSON. *)
Record oauth_answer := { o_Status : Z; o_Body : option refreshResponse }.

Definition defaultResponseLimit : Z := 64 * 1024.

Definition safe_char (c : ascii) : bool := is_lower c || is_upper c || is_digit c || GoStrings.contains "._:-" (String c "").
Definition safeRunID (id : string) : bool :=
  if (id =? "")%string || (160 <? String.length id)%nat || (id =? ".")%string || (id =? "..")%string then false
  else all_chars safe_char id.

Section Holder.
Variable dies : nat → bool.
Variable read_fails : nat → bool.
(** A call to the file system of a write fails. *)
Variable write_fails : nat → bool.
Variable now : nat → time.
(** The provider's answer to a refresh token, [None] without an answer. *)
Variable oauth : nat → string → option oauth_answer.
Variable marshal : auth_json → string.

Notation M := (prog world).

Definition readMaster : M (result error authFile) :=
  effect dies (λ k w, (w,
    if read_fails k then Err EMaster else
    match w_master w with
    | None => Err EMaster
    | Some (false, _) => Err EMode
    | Some (true, None) => Err EDecode
    | Some (true, Some j) =>
      match decodeFile j with
      | None => Err EDecode
      | Some a =>
        fail_if (IDToken (Tokens a) =? "")%string || (AccessToken (Tokens a) =? "")%string
                || (RefreshToken (Tokens a) =? "")%string with EIncomplete ;;
        Ok a
      end
    end)).

Definition file_call (f : world → world) : M (result error unit) :=
  effect dies (λ k w, if write_fails k then (w, Err EWrite) else (f w, Ok ())).

(** The last of the temporary files is the write's own. *)
Definition make_temp (w : world) : world := with_temps (w_temps w ++ [None]) w.
Definition fill_temp (c : content) (w : world) : world := with_temps (removelast (w_temps w) ++ [Some c]) w.
Definition drop_temp (w : world) : world := with_temps (removelast (w_temps w)) w.

(** [put] is what renaming a file of that content does to its target. *)
Definition writeJSONAtomic (c : content) (put : world → world) : M (result error unit) :=
  _ <-? file_call id ;;
  _ <-? file_call make_temp ;;
  r <-! (_ <-? file_call id ;;
         _ <-? file_call (fill_temp c) ;;
         _ <-? file_call id ;;
         _ <-? file_call id ;;
         file_call (λ w, put (drop_temp w))) ;;
  match r with
  | Err e => _ <-! file_call drop_temp ;; done (Err e)
  | Ok _ => _ <-? file_call id ;; file_call id
  end.

Definition write_master (j : auth_json) : M (result error unit) := writeJSONAtomic (Master j) (set_master j).
Definition write_record (runID : string) (r : issuanceRecord) : M (result error unit) :=
  writeJSONAtomic (Issued r) (set_record runID r).

Definition readRecord (runID : string) : M (result error (option issuanceRecord)) :=
  effect dies (λ k w, (w,
    if read_fails k then Err ERecord else
    match w_records w !! runID with
    | None => Ok None
    | Some None => Err ERecord
    | Some (Some r) => Ok (Some r)
    end)).

Definition refresh (refreshToken : string) : M (result error refreshResponse) :=
  if (trim_space refreshToken =? "")%string then done (Err ENoRefreshToken) else
  effect dies (λ k w, (show refreshToken w,
    match oauth k refreshToken with
    | None => Err EProvider
    | Some a =>
      fail_if (o_Status a <? 200) || (300 <=? o_Status a) with EProvider ;;
      match o_Body a with
      | None => Err EProvider
      | Some out => fail_if (r_Access out =? "")%string with EProvider ;; Ok out
      end
    end)).

(** The master after the provider's answer. *)
Definition refreshed (a : authFile) (out : refreshResponse) (at_ : time) : authFile :=
  {| Tokens :=
       {| IDToken := if negb (r_ID out =? "")%string then r_ID out else IDToken (Tokens a);
          AccessToken := r_Access out;
          RefreshToken := if (r_Refresh out =? "")%string then RefreshToken (Tokens a) else r_Refresh out;
          AccountID := AccountID (Tokens a); tok_Extra := tok_Extra (Tokens a) |};
     LastRefresh := formatTime at_; Extra := Extra a |}.

Definition Refresh : M (result error unit) :=
  master <-? readMaster ;;
  out <-? refresh (RefreshToken (Tokens master)) ;;
  t <-! (λ k w, (k, w, Some (now k))) ;;
  write_master (encodeFile (refreshed master out t)).

Definition projection (a : authFile) : authFile :=
  {| Tokens := {| IDToken := IDToken (Tokens a); AccessToken := AccessToken (Tokens a); RefreshToken := "";
                  AccountID := AccountID (Tokens a); tok_Extra := ∅ |};
     LastRefresh := LastRefresh a; Extra := ∅ |}.

Definition newline : string := String "010" "".

Definition check_record (runID key : string) (found : option issuanceRecord) : result error unit :=
  match found with
  | None => Ok ()
  | Some r =>
    fail_if negb (rec_RunID r =? runID)%string || negb (rec_Key r =? key)%string || is_zero (IssuedAt r) with EState ;;
    fail_if negb (is_zero (ConsumedAt r)) with EConsumed ;;
    Ok ()
  end.

Definition Issue (runID key : string) : M (result error string) :=
  if negb (safeRunID runID) || (trim_space key =? "")%string || (256 <? String.length key)%nat then done (Err EIdentity) else
  found <-? readRecord runID ;;
  match check_record runID key found with
  | Err e => done (Err e)
  | Ok _ =>
    master <-? readMaster ;;
    t <-! (λ k w, (k, w, Some (now k))) ;;
    _ <-? match found with
          | Some _ => done (Ok ())
          | None => write_record runID {| rec_RunID := runID; rec_Key := key; IssuedAt := t; ConsumedAt := zero_time |}
          end ;;
    let data := marshal (encodeFile (projection master)) in
    if defaultResponseLimit <? Z.of_nat (String.length data) then done (Err ETooLarge)
    else done (Ok (data +:+ newline))
  end.

(** Errors are joined; the leftovers of older versions are not modelled. *)
Definition cleanup (runID : string) (consumed : bool) : M (result error unit) :=
  if negb (safeRunID runID) then done (Err EIdentity) else
  found <-? readRecord runID ;;
  match found with
  | Some r =>
    if consumed && is_zero (ConsumedAt r) then
      t <-! (λ k w, (k, w, Some (now k))) ;;
      write_record runID {| rec_RunID := rec_RunID r; rec_Key := rec_Key r; IssuedAt := IssuedAt r; ConsumedAt := t |}
    else done (Ok ())
  | None => done (Ok ())
  end.

Definition Consume (runID : string) : M (result error unit) := cleanup runID true.
Definition Cleanup (runID : string) : M (result error unit) := cleanup runID false.

(** ** Histories *)

Inductive call := CIssue (runID key : string) | CConsume (runID : string) | CCleanup (runID : string) | CRefresh.

(** The bundle of an issuance, and the success of the others. *)
Definition run_call (c : call) : M (result error (option string)) :=
  match c with
  | CIssue runID key => data <-? Issue runID key ;; done (Ok (Some data))
  | CConsume runID => _ <-? Consume runID ;; done (Ok None)
  | CCleanup runID => _ <-? Cleanup runID ;; done (Ok None)
  | CRefresh => _ <-? Refresh ;; done (Ok None)
  end.

Definition trace := list (call * option (result error (option string))).

Fixpoint history (k : nat) (w : world) (cs : list call) : nat * world * trace :=
  match cs with
  | [] => (k, w, [])
  | c :: cs =>
    let '(k, w, a) := run_call c k w in
    let '(k, w, t) := history k w cs in (k, w, (c, a) :: t)
  end.
End Holder.

(** ** Credential files keep what they do not know *)

Record known_apart (a : authFile) : Prop := {
  ka_fields : Extra a !! "last_refresh" = None;
  ka_tokens : ∀ key, key ∈ token_keys → tok_Extra (Tokens a) !! key = None }.

Lemma put_field_eq key value optional o :
  o !! key = None → string_of (put_field key value optional o) key = Some value.
Proof.
  intros Ho. unfold put_field, string_of. destruct (optional && (value =? "")%string) eqn:E.
  - apply andb_true_iff in E as [_ ->%String.eqb_eq]. by rewrite Ho.
  - by rewrite lookup_insert_eq.
Qed.

Lemma put_field_ne key value optional o key' : key ≠ key' → put_field key value optional o !! key' = o !! key'.
Proof. intros Hne. unfold put_field. destruct (_ && _); [done|]. by rewrite lookup_insert_ne. Qed.

Lemma string_of_ne key value optional o key' :
  key ≠ key' → string_of (put_field key value optional o) key' = string_of o key'.
Proof. intros Hne. unfold string_of. by rewrite put_field_ne. Qed.

Lemma delete_put key value optional o : delete key (put_field key value optional o) = delete key o.
Proof. unfold put_field. destruct (_ && _); [done|]. by rewrite delete_insert_eq. Qed.

Lemma delete_put_ne key value optional o key' :
  key ≠ key' → delete key' (put_field key value optional o) = put_field key value optional (delete key' o).
Proof. intros Hne. unfold put_field. destruct (_ && _); [done|]. by rewrite delete_insert_ne. Qed.

Lemma without_apart keys o : (∀ key, key ∈ keys → o !! key = None) → without keys o = o.
Proof.
  unfold without. induction keys as [|key keys IH]; intros H; [done|]. cbn.
  rewrite IH; [|intros k Hk; apply H; by right]. apply delete_id, H. by left.
Qed.

Lemma decode_encode_tokens a : (∀ key, key ∈ token_keys → tok_Extra a !! key = None) →
  decodeTokens (encodeTokens a) = Some a.
Proof.
  intros Ha. assert (tok_Extra a !! "id_token" = None ∧ tok_Extra a !! "access_token" = None ∧
                     tok_Extra a !! "refresh_token" = None ∧ tok_Extra a !! "account_id" = None) as (H1 & H2 & H3 & H4).
  { unfold token_keys in Ha. split_and!; apply Ha; repeat first [by left | right]. }
  unfold decodeTokens, encodeTokens. set (o := put_field "id_token" _ _ _).
  assert (string_of o "id_token" = Some (IDToken a)) as ->.
  { apply put_field_eq. by rewrite !put_field_ne. }
  assert (string_of o "access_token" = Some (AccessToken a)) as ->.
  { unfold o. rewrite string_of_ne by done. apply put_field_eq. by rewrite !put_field_ne. }
  assert (string_of o "refresh_token" = Some (RefreshToken a)) as ->.
  { unfold o. rewrite !string_of_ne by done. apply put_field_eq. by rewrite !put_field_ne. }
  assert (string_of o "account_id" = Some (AccountID a)) as ->.
  { unfold o. rewrite !string_of_ne by done. by apply put_field_eq. }
  assert (without token_keys o = tok_Extra a) as ->.
  { unfold o. cbn [without token_keys foldr].
    rewrite (delete_put_ne "id_token") by done. rewrite (delete_put_ne "access_token") by done.
    rewrite (delete_put_ne "refresh_token") by done. rewrite delete_put.
    rewrite (delete_put_ne "id_token") by done. rewrite (delete_put_ne "access_token") by done. rewrite delete_put.
    rewrite (delete_put_ne "id_token") by done. rewrite delete_put. rewrite delete_put.
    apply (without_apart token_keys). done. }
  by destruct a.
Qed.

Lemma decode_encode_file a : known_apart a → decodeFile (encodeFile a) = Some a.
Proof.
  intros [Hf Ht]. unfold decodeFile, encodeFile. cbn [j_tokens j_fields].
  rewrite decode_encode_tokens by done. cbn [mbind option_bind].
  rewrite put_field_eq by done. cbn [mbind option_bind]. rewrite delete_put, delete_id by done. by destruct a.
Qed.

Lemma without_lookup keys (o : object) key : key ∈ keys → without keys o !! key = None.
Proof.
  unfold without. induction keys as [|k keys IH]; [by intros ?%elem_of_nil|]. intros [->|Hin]%elem_of_cons; cbn.
  - apply lookup_delete_eq.
  - destruct (decide (k = key)) as [->|Hne]; [apply lookup_delete_eq|]. rewrite lookup_delete_ne by done. by apply IH.
Qed.

Lemma decode_apart j a : decodeFile j = Some a → known_apart a.
Proof.
  unfold decodeFile. intros (tokens & Ht & H)%bind_Some. apply bind_Some in H as (last & _ & [= <-]).
  split; cbn; [apply lookup_delete_eq|]. intros key Hkey.
  destruct (j_tokens j) as [[o|]|]; [|done|injection Ht as <-; apply lookup_empty].
  unfold decodeTokens in Ht. apply bind_Some in Ht as (id & _ & Ht). apply bind_Some in Ht as (ac & _ & Ht).
  apply bind_Some in Ht as (re & _ & Ht). apply bind_Some in Ht as (acc & _ & [= <-]).
  change (without token_keys o !! key = None). by apply without_lookup.
Qed.

(** ** What the operations keep *)

(** Records stay, with their key; a consumption stays. *)
Definition kept (w w' : world) : Prop :=
  ∀ id o, w_records w !! id = Some o →
    match o with
    | None => w_records w' !! id = Some None
    | Some r => ∃ r', w_records w' !! id = Some (Some r') ∧ rec_Key r' = rec_Key r ∧
        (is_zero (ConsumedAt r) = false → is_zero (ConsumedAt r') = false)
    end.

Lemma records_kept_refl w : kept w w.
Proof. intros id [r|] H; [|done]. by exists r. Qed.

Lemma records_kept_trans w1 w2 w3 : kept w1 w2 → kept w2 w3 → kept w1 w3.
Proof.
  intros H12 H23 id [r|] H; [|by apply (H23 id None), (H12 id None)].
  destruct (H12 id (Some r) H) as (r2 & H2 & K2 & C2). destruct (H23 id (Some r2) H2) as (r3 & H3 & K3 & C3).
  exists r3. split_and!; [done|congruence|auto].
Qed.

Lemma kept_same w w' : w_records w' = w_records w → kept w w'.
Proof. intros E id [r|] H; rewrite E; [|done]. by exists r. Qed.

Lemma kept_set w id r :
  w_records w !! id = None ∨
    (∃ r0, w_records w !! id = Some (Some r0) ∧ rec_Key r = rec_Key r0 ∧
       (is_zero (ConsumedAt r0) = false → is_zero (ConsumedAt r) = false)) →
  kept w (set_record id r w).
Proof.
  intros Hid id' o H. cbn. destruct (decide (id = id')) as [<-|Hne].
  - destruct Hid as [E|(r0 & E & Hk & Hc)]; [congruence|]. rewrite E in H. injection H as <-.
    exists r. by rewrite lookup_insert_eq.
  - rewrite lookup_insert_ne by done. destruct o as [r'|]; [|done]. by exists r'.
Qed.

Section HolderProofs.
Variable dies : nat → bool.
Variable read_fails : nat → bool.
Variable write_fails : nat → bool.
Variable now : nat → time.
Variable oauth : nat → string → option oauth_answer.
Variable marshal : auth_json → string.
Hypothesis clock_runs : ∀ k, is_zero (now k) = false.

Lemma wp_read_record I run Q w :
  I w → (∀ res, (∀ r, res = Ok (Some r) → w_records w !! run = Some (Some r)) →
               (res = Ok None → w_records w !! run = None) → Q res w) →
  wp I (readRecord dies read_fails run) Q w.
Proof using Type.
  intros Hi HQ. apply wp_effect; [done|]. intros k. cbn. destruct (read_fails k); [by apply HQ|].
  destruct (w_records w !! run) as [[r|]|] eqn:E; apply HQ; try done. by intros r' [= <-].
Qed.

Lemma wp_read_master I Q w :
  I w → (∀ res, (∀ a, res = Ok a → ∃ j, w_master w = Some (true, Some j) ∧ decodeFile j = Some a ∧
                  IDToken (Tokens a) ≠ "" ∧ AccessToken (Tokens a) ≠ "" ∧ RefreshToken (Tokens a) ≠ "") → Q res w) →
  wp I (readMaster dies read_fails) Q w.
Proof using Type.
  intros Hi HQ. apply wp_effect; [done|]. intros k. cbn. destruct (read_fails k); [by apply HQ|].
  destruct (w_master w) as [[[] [j|]]|] eqn:E; try by apply HQ.
  destruct (decodeFile j) as [a|] eqn:Ed; [|by apply HQ]. apply HQ. intros a' H. rewrite fail_if_ok in H.
  destruct H as [[[H1%String.eqb_neq H2%String.eqb_neq]%orb_false_iff H3%String.eqb_neq]%orb_false_iff [= <-]].
  exists j. by split_and!.
Qed.

Lemma wp_file I f (Q : result error unit → world → Prop) w :
  I w → Q (Err EWrite) w → Q (Ok ()) (f w) → wp I (file_call dies write_fails f) Q w.
Proof using Type. intros Hi He Hf. apply wp_effect; [done|]. intros k. cbn. by destruct (write_fails k). Qed.

(** What a write may leave: nothing of its own, or one temporary file. *)
Definition may_leave (c : content) (w w' : world) : Prop :=
  w' = w ∨ ∃ t, (t = None ∨ t = Some c) ∧ w' = with_temps (w_temps w ++ [t]) w.

Lemma left_same c w w' : may_leave c w w' →
  w_records w' = w_records w ∧ w_master w' = w_master w ∧ w_shown w' = w_shown w.
Proof using Type. by intros [->|(t & _ & ->)]. Qed.

(** It succeeds only with the file renamed and no temporary file left. *)
Lemma wp_write c put I (Q : result error unit → world → Prop) w :
  (∀ w', may_leave c w w' → I w' ∧ ∀ e, Q (Err e) w') → I (put w) → (∀ res, Q res (put w)) →
  wp I (writeJSONAtomic dies write_fails c put) Q w.
Proof using Type.
  intros Hleft Hi HQ. destruct (Hleft w) as [Iw Qw]; [by left|].
  assert (∀ t, t = None ∨ t = Some c → I (with_temps (w_temps w ++ [t]) w) ∧ ∀ e, Q (Err e) (with_temps (w_temps w ++ [t]) w)) as Htemp.
  { intros t Ht. apply Hleft. right. by exists t. }
  assert (∀ t, drop_temp (with_temps (w_temps w ++ [t]) w) = w) as Hdrop.
  { intros t. unfold drop_temp. cbn [w_temps with_temps]. rewrite removelast_last. by destruct w. }
  destruct (Htemp None) as [I0 Q0]; [by left|]. destruct (Htemp (Some c)) as [I1 Q1]; [by right|].
  assert (∀ t e, t = None ∨ t = Some c →
    wp I (_ <-! file_call dies write_fails drop_temp ;; done (Err e)) Q (with_temps (w_temps w ++ [t]) w)) as Hfail.
  { intros t e Ht. destruct (Htemp t Ht) as [It Qt]. apply wp_andThen, wp_file; [done|by apply wp_done|].
    rewrite Hdrop. by apply wp_done. }
  unfold writeJSONAtomic. apply wp_try, wp_file; [done..|]. apply wp_try, wp_file; [done..|].
  change (make_temp (id w)) with (with_temps (w_temps w ++ [None]) w). apply wp_andThen.
  apply wp_try, wp_file; [done|by apply Hfail; left|]. apply wp_try, wp_file; [done|by apply Hfail; left|].
  assert (fill_temp c (id (with_temps (w_temps w ++ [None]) w)) = with_temps (w_temps w ++ [Some c]) w) as ->.
  { unfold fill_temp, id. cbn [w_temps with_temps]. rewrite removelast_last. by destruct w. }
  apply wp_try, wp_file; [done|by apply Hfail; right|]. apply wp_try, wp_file; [done|by apply Hfail; right|].
  apply wp_file; [done|by apply Hfail; right|]. unfold id. rewrite Hdrop.
  apply wp_try, wp_file; [done..|]. by apply wp_file.
Qed.

(** An issued bundle: without the refresh token and without unknown fields. *)
Definition bundle (data : string) : Prop :=
  ∃ a, data = marshal (encodeFile a) +:+ newline ∧ RefreshToken (Tokens a) = "" ∧ tok_Extra (Tokens a) = ∅ ∧
    Extra a = ∅ ∧ Z.of_nat (String.length (marshal (encodeFile a))) ≤ defaultResponseLimit.

(** What a call that was answered says about the records before and after it. *)
Definition told (c : call) (res : result error (option string)) (w w' : world) : Prop :=
  match c, res with
  | CIssue run key, Ok (Some data) =>
    bundle data ∧ (∃ r, w_records w' !! run = Some (Some r) ∧ rec_Key r = key) ∧
    (∀ r, w_records w !! run = Some (Some r) → rec_Key r = key ∧ is_zero (ConsumedAt r) = true)
  | CIssue _ _, Ok None => False
  | CConsume run, Ok _ => ∀ r, w_records w' !! run = Some (Some r) → is_zero (ConsumedAt r) = false
  | _, _ => True
  end.

Lemma wp_issue run key w :
  wp (kept w) (Issue dies read_fails write_fails now marshal run key)
    (λ res w', kept w w' ∧ ∀ data, res = Ok data →
       bundle data ∧ (∃ r, w_records w' !! run = Some (Some r) ∧ rec_Key r = key) ∧
       (∀ r, w_records w !! run = Some (Some r) → rec_Key r = key ∧ is_zero (ConsumedAt r) = true)) w.
Proof using Type.
  pose proof (records_kept_refl w) as Hk. unfold Issue. destruct (_ || _ || _); [by apply wp_done|].
  apply wp_try, wp_read_record; [done|]. intros [found|x] Hfound Hnone; [|done].
  destruct (check_record run key found) as [u|x] eqn:Ec; [|by apply wp_done].
  assert (∀ r, w_records w !! run = Some (Some r) → rec_Key r = key ∧ is_zero (ConsumedAt r) = true) as Hrec.
  { intros r Hr. destruct found as [r0|]; [|rewrite (Hnone eq_refl) in Hr; done].
    rewrite (Hfound r0 eq_refl) in Hr. injection Hr as ->. unfold check_record in Ec. rewrite !fail_if_ok in Ec.
    destruct Ec as ([[_ Hkey]%orb_false_iff _]%orb_false_iff & Hc & _).
    apply negb_false_iff in Hc. apply negb_false_iff, String.eqb_eq in Hkey. done. }
  apply wp_try, wp_read_master; [done|]. intros [master|x] _; [|done].
  apply wp_andThen. intros k. apply wp_try.
  assert (∀ (t : time), wp (kept w)
    (match found with
     | Some _ => done (Ok ())
     | None => write_record dies write_fails run
                 {| rec_RunID := run; rec_Key := key; IssuedAt := t; ConsumedAt := zero_time |}
     end)
    (λ res w', kept w w' ∧ (res = Ok () → ∃ r, w_records w' !! run = Some (Some r) ∧ rec_Key r = key)) w) as Hwrite.
  { intros t. destruct found as [r|].
    - apply wp_done. split; [done|]. intros _. exists r. split; [by apply Hfound|]. by apply Hrec, Hfound.
    - apply wp_write; [intros w' (Hw & _ & _)%left_same; split; [by apply kept_same|by split; [apply kept_same|]]
        |apply kept_set; by left; apply Hnone|].
      intros res. split; [apply kept_set; by left; apply Hnone|]. intros _. eexists. split; [apply lookup_insert_eq|done]. }
  eapply wp_mono; [apply Hwrite|done|]. intros [[]|x] w' [Hk' Hr]; [|done].
  cbv zeta. destruct (Z.ltb_spec defaultResponseLimit (Z.of_nat (String.length (marshal (encodeFile (projection master)))))) as [Hl|Hl];
    [by apply wp_done|]. apply wp_done. split; [done|]. intros data [= <-].
  split_and!; [|by apply Hr|done]. exists (projection master). by split_and!.
Qed.

Lemma wp_cleanup run consumed w :
  wp (kept w) (cleanup dies read_fails write_fails now run consumed)
    (λ res w', kept w w' ∧ (consumed = true → ∀ u, res = Ok u →
       ∀ r, w_records w' !! run = Some (Some r) → is_zero (ConsumedAt r) = false)) w.
Proof using clock_runs.
  pose proof (records_kept_refl w) as Hk. unfold cleanup. destruct (negb (safeRunID run)); [by apply wp_done|].
  apply wp_try, wp_read_record; [done|]. intros [[r|]|x] Hfound Hnone; [|apply wp_done|done].
  2: { split; [done|]. intros _ u _ r Hr. by rewrite (Hnone eq_refl) in Hr. }
  specialize (Hfound r eq_refl). destruct (consumed && is_zero (ConsumedAt r)) eqn:E.
  - apply wp_andThen.
    assert (∀ t, is_zero t = false → wp (kept w) (write_record dies write_fails run
       {| rec_RunID := rec_RunID r; rec_Key := rec_Key r; IssuedAt := IssuedAt r; ConsumedAt := t |})
      (λ res w', kept w w' ∧ (consumed = true → ∀ u, res = Ok u →
         ∀ r, w_records w' !! run = Some (Some r) → is_zero (ConsumedAt r) = false)) w) as H.
    { intros t Ht. assert (kept w (set_record run {| rec_RunID := rec_RunID r; rec_Key := rec_Key r; IssuedAt := IssuedAt r;
                                                      ConsumedAt := t |} w)) as Hset.
      { apply kept_set. right. exists r. by split_and!. }
      apply wp_write; [intros w' (Hw & _ & _)%left_same; split; [by apply kept_same|by split; [apply kept_same|]]|done|].
      intros res. split; [done|].
      intros _ u _ r'. cbn. rewrite lookup_insert_eq. by intros [= <-]. }
    intros k. by apply H, clock_runs.
  - apply wp_done. split; [done|]. intros -> u _ r' Hr'. rewrite Hfound in Hr'. injection Hr' as <-. done.
Qed.

(** *** The rotation *)

(** The credential of the master file, when it can be used. *)
Definition credential (w : world) (a : authFile) : Prop :=
  ∃ j, w_master w = Some (true, Some j) ∧ decodeFile j = Some a ∧
    IDToken (Tokens a) ≠ "" ∧ AccessToken (Tokens a) ≠ "" ∧ RefreshToken (Tokens a) ≠ "".

(** The provider answered the credential's refresh token with [out]. *)
Definition answered (a : authFile) (out : refreshResponse) : Prop :=
  ∃ k ans, oauth k (RefreshToken (Tokens a)) = Some ans ∧ 200 ≤ o_Status ans < 300 ∧ o_Body ans = Some out ∧
    r_Access out ≠ "".

Definition rotated (w w' : world) : Prop :=
  ∃ a out k, credential w a ∧ answered a out ∧
    w' = set_master (encodeFile (refreshed a out (now k))) (show (RefreshToken (Tokens a)) w).

(** What a rotation that did not succeed leaves after the provider's answer. *)
Definition shown (a : authFile) (w w' : world) : Prop :=
  w' = show (RefreshToken (Tokens a)) w ∨
  ∃ out k, answered a out ∧ may_leave (Master (encodeFile (refreshed a out (now k)))) (show (RefreshToken (Tokens a)) w) w'.

(** How a rotation may end: before the provider, after it, or done. *)
Definition rotation (w w' : world) : Prop :=
  w' = w ∨ (∃ a, credential w a ∧ shown a w w') ∨ rotated w w'.

Lemma shown_same a w w' : shown a w w' →
  w_records w' = w_records w ∧ w_master w' = w_master w ∧ w_shown w' = w_shown w ++ [RefreshToken (Tokens a)] ∧
  (w_temps w' = w_temps w ∨ ∃ t, w_temps w' = w_temps w ++ [t]).
Proof using Type.
  intros [->|(out & k & _ & [->|(t & _ & ->)])]; (split_and!; [done..|]); [by left|by left|]. right. by exists t.
Qed.

Lemma wp_refresh I token Q w :
  I w → (∀ e, Q (Err e) w) →
  (∀ res, (∀ out, res = Ok out → r_Access out ≠ "" ∧
             ∃ k ans, oauth k token = Some ans ∧ 200 ≤ o_Status ans < 300 ∧ o_Body ans = Some out) →
          Q res (show token w)) →
  wp I (refresh dies oauth token) Q w.
Proof using Type.
  intros Hi He HQ. unfold refresh. destruct (_ =? "")%string; [by apply wp_done|].
  apply wp_effect; [done|]. intros k. cbn. destruct (oauth k token) as [ans|] eqn:E; [|by apply HQ].
  apply HQ. intros out. rewrite fail_if_ok. intros [[H1%Z.ltb_ge H2%Z.leb_gt]%orb_false_iff H].
  destruct (o_Body ans) as [out'|] eqn:Eb; [|done]. rewrite fail_if_ok in H.
  destruct H as [H3%String.eqb_neq [= ->]]. split; [done|]. by exists k, ans.
Qed.

Lemma wp_Refresh w :
  wp (rotation w) (Refresh dies read_fails write_fails now oauth)
    (λ res w', rotation w w' ∧ (res = Ok () → rotated w w')) w.
Proof using Type.
  assert (rotation w w) as H0 by by left. unfold Refresh. apply wp_try, wp_read_master; [done|].
  intros [a|e] Ha; [|done]. specialize (Ha a eq_refl).
  assert (rotation w (show (RefreshToken (Tokens a)) w)) as H1 by (right; left; exists a; by split; [|left]).
  apply wp_try, wp_refresh; [done|done|]. intros [out|e] Hout; [|done].
  destruct (Hout out eq_refl) as (Hacc & k1 & ans & E & Hs & Hb). apply wp_andThen. intros k.
  assert (rotated w (set_master (encodeFile (refreshed a out (now k))) (show (RefreshToken (Tokens a)) w))) as H2.
  { exists a, out, k. split_and!; [done| |done]. by exists k1, ans. }
  apply wp_write; [|by right; right|intros res; split; [by right; right|done]].
  intros w' Hw'. assert (rotation w w') as Hr; [|by split].
  right; left. exists a. split; [done|]. right. exists out, k. split; [|done]. by exists k1, ans.
Qed.

Lemma refreshed_apart a out t : known_apart a → known_apart (refreshed a out t).
Proof using Type. intros [H1 H2]. by split. Qed.

Lemma refreshed_usable w a out t : credential w a → r_Access out ≠ "" → ∀ w',
  credential (set_master (encodeFile (refreshed a out t)) w') (refreshed a out t).
Proof using Type.
  intros (j & Hj & Hd & H1 & H2 & H3) Hacc w'. eexists. split; [reflexivity|]. split.
  - by apply decode_encode_file, refreshed_apart, (decode_apart j).
  - cbn. split_and!; [|done|].
    + destruct (String.eqb_spec (r_ID out) ""); done.
    + by destruct (String.eqb_spec (r_Refresh out) "").
Qed.

(** *** Histories *)

Lemma wp_run_call c w :
  wp (kept w) (run_call dies read_fails write_fails now oauth marshal c)
    (λ res w', kept w w' ∧ told c res w w') w.
Proof using clock_runs.
  destruct c as [run key|run|run|]; cbn [run_call]; apply wp_try.
  - eapply wp_mono; [apply wp_issue|done|]. intros [data|e] w' [Hk H]; [|done]. apply wp_done.
    split; [done|]. by apply H.
  - eapply wp_mono; [apply (wp_cleanup run true)|done|]. intros [u|e] w' [Hk H]; [|done]. apply wp_done.
    split; [done|]. exact (H eq_refl u eq_refl).
  - eapply wp_mono; [apply (wp_cleanup run false)|done|]. intros [u|e] w' [Hk _]; [by apply wp_done|done].
  - assert (∀ w', rotation w w' → kept w w') as Hr.
    { intros w' [-> | [(a & _ & (Hr & _)%shown_same) | (a & out & k & _ & _ & ->)]]; by apply kept_same. }
    eapply wp_mono; [apply wp_Refresh|done|]. intros [u|e] w' [Hk _]; [|by split; [apply Hr|]].
    apply wp_done. by split; [apply Hr|].
Qed.

Lemma history_at cs : ∀ k w t1 c a t2 k' w',
  history dies read_fails write_fails now oauth marshal k w cs = (k', w', t1 ++ (c, a) :: t2) →
  ∃ w1 w2 k2 cs2, kept w w1 ∧ kept w1 w2 ∧ (∀ res, a = Some res → told c res w1 w2) ∧
    history dies read_fails write_fails now oauth marshal k2 w2 cs2 = (k', w', t2).
Proof using clock_runs.
  induction cs as [|c0 cs IH]; intros k w t1 c a t2 k' w' H; cbn in H; [by destruct t1|].
  pose proof (wp_run_call c0 w k) as Hc. destruct (run_call _ _ _ _ _ _ c0 k w) as [[k1 w1] a0].
  destruct (history _ _ _ _ _ _ k1 w1 cs) as [[k2 w2] t] eqn:E.
  assert (kept w w1) as Hk by (destruct a0; [apply Hc|done]).
  destruct t1 as [|p t1]; [injection H as <- <- <- <- <- | injection H as <- <- Ep Et].
  - exists w, w1, k1, cs. split_and!; [apply records_kept_refl|done| |done]. intros res ->. apply Hc.
  - subst t. destruct (IH _ _ _ _ _ _ _ _ E) as (w3 & w4 & k4 & cs4 & H1 & H2 & H3 & H4).
    exists w3, w4, k4, cs4. split_and!; [by eapply records_kept_trans|done|done|done].
Qed.

Lemma issue_issue k w cs k' w' t1 t2 run key1 key2 d1 d2 :
  history dies read_fails write_fails now oauth marshal k w cs =
    (k', w', t1 ++ (CIssue run key1, Some (Ok (Some d1))) :: t2) →
  (CIssue run key2, Some (Ok (Some d2))) ∈ t2 → key1 = key2.
Proof using clock_runs.
  intros H (u1 & u2 & ->)%list_elem_of_split.
  destruct (history_at _ _ _ _ _ _ _ _ _ H) as (w1 & w2 & k2 & cs2 & _ & _ & Ht & H2).
  destruct (Ht _ eq_refl) as (_ & (r & Hr & Hkey) & _).
  destruct (history_at _ _ _ _ _ _ _ _ _ H2) as (w3 & w4 & _ & _ & K & _ & Ht' & _).
  destruct (K _ _ Hr) as (r3 & Hr3 & Hkey3 & _). destruct (Ht' _ eq_refl) as (_ & _ & Hn).
  destruct (Hn r3 Hr3). congruence.
Qed.

(** C19: a rotation, wherever the process dies and whichever reads, writes or
    provider calls fail, leaves the issuance records alone and leaves either the
    master as it was or the whole rotated one, which can be read and used; it
    reports success only if it rotated; the one token it may show to the
    provider is the persisted master's; and at most one temporary file stays
    behind, beside a master that is as it was. *)
Theorem refresh_atomic k w k' w' o :
  Refresh dies read_fails write_fails now oauth k w = (k', w', o) →
  w_records w' = w_records w ∧
  (w_master w' = w_master w ∨ rotated w w') ∧
  (∀ a, credential w a → ∃ a', credential w' a' ∧ Extra a' = Extra a ∧ tok_Extra (Tokens a') = tok_Extra (Tokens a) ∧
     AccountID (Tokens a') = AccountID (Tokens a)) ∧
  (w_shown w' = w_shown w ∨ ∃ a, credential w a ∧ w_shown w' = w_shown w ++ [RefreshToken (Tokens a)]) ∧
  (o = Some (Ok ()) → rotated w w') ∧
  (w_temps w' = w_temps w ∨ w_master w' = w_master w ∧ ∃ t, w_temps w' = w_temps w ++ [t]).
Proof using Type.
  intros H. pose proof (wp_Refresh w k) as Hwp. rewrite H in Hwp.
  assert (rotation w w' ∧ (o = Some (Ok ()) → rotated w w')) as [Hr Hok].
  { destruct o as [res|]; [|by split]. destruct Hwp as [Hr Hok]. split; [done|]. intros [= ->]. by apply Hok. }
  destruct Hr as [-> | [(a & Ha & (H1 & H2 & H3 & H4)%shown_same) | Hr]].
  - split_and!; [done|by left| |by left|done|by left]. intros a Ha. by exists a.
  - split_and!; [done|by left| |right; by exists a|done|destruct H4; auto]. intros b Hb. exists b. split; [|done].
    unfold credential. by rewrite H2.
  - pose proof Hr as (a & out & t & Ha & (_ & _ & _ & _ & _ & Hacc) & ->).
    split_and!; [done|by right| |right; by exists a|done|by left]. intros b (j & Hj & Hd & _).
    pose proof Ha as (j' & Hj' & Hd' & _). rewrite Hj in Hj'. injection Hj' as ->. rewrite Hd in Hd'. injection Hd' as ->.
    eexists. split; [by apply (refreshed_usable w)|done].
Qed.

(** Over any history of calls, deaths and faults of the holder: an issued
    bundle carries neither the refresh token nor a field the holder does not
    know, and is at most 64 KiB; all bundles of a run went to one idempotency
    key; and once the consumption of an issued run is reported done, the run is
    issued nothing any more. *)
Theorem issuance_bounded k w cs k' w' t :
  history dies read_fails write_fails now oauth marshal k w cs = (k', w', t) →
  (∀ run key data, (CIssue run key, Some (Ok (Some data))) ∈ t → bundle data) ∧
  (∀ run key1 key2 d1 d2, (CIssue run key1, Some (Ok (Some d1))) ∈ t →
     (CIssue run key2, Some (Ok (Some d2))) ∈ t → key1 = key2) ∧
  (∀ t1 t2 t3 run key data,
     t = t1 ++ (CIssue run key, Some (Ok (Some data))) :: t2 ++ (CConsume run, Some (Ok None)) :: t3 →
     ∀ key' data', (CIssue run key', Some (Ok (Some data'))) ∉ t3).
Proof using clock_runs.
  intros H. split_and!.
  - intros run key data [t1 [t2 ->]]%list_elem_of_split.
    destruct (history_at _ _ _ _ _ _ _ _ _ H) as (w1 & w2 & _ & _ & _ & _ & Ht & _). by destruct (Ht _ eq_refl).
  - intros run key1 key2 d1 d2 [t1 [t2 ->]]%list_elem_of_split. intros [Hin | [[= <- _] | Hin]%elem_of_cons]%elem_of_app.
    + apply list_elem_of_split in Hin as (u1 & u2 & ->). rewrite <- app_assoc in H. cbn in H.
      symmetry. eapply (issue_issue _ _ _ _ _ _ _ _ _ _ _ _ H), elem_of_app. right. by left.
    + done.
    + by eapply (issue_issue _ _ _ _ _ _ _ _ _ _ _ _ H).
  - intros t1 t2 t3 run key data -> key' data' (u1 & u2 & ->)%list_elem_of_split.
    destruct (history_at _ _ _ _ _ _ _ _ _ H) as (w1 & w2 & k2 & cs2 & _ & _ & Ht & H2).
    destruct (Ht _ eq_refl) as (_ & (r & Hr & _) & _).
    destruct (history_at _ _ _ _ _ _ _ _ _ H2) as (w3 & w4 & k4 & cs4 & K23 & K34 & Ht' & H4).
    destruct (history_at _ _ _ _ _ _ _ _ _ H4) as (w5 & w6 & _ & _ & K45 & _ & Ht'' & _).
    destruct (K23 _ _ Hr) as (r3 & Hr3 & _ & _). destruct (K34 _ _ Hr3) as (r4 & Hr4 & _ & _).
    pose proof (Ht' _ eq_refl r4 Hr4) as Hc. destruct (K45 _ _ Hr4) as (r5 & Hr5 & _ & C5).
    destruct (Ht'' _ eq_refl) as (_ & _ & Hn). destruct (Hn r5 Hr5) as [_ Hz]. specialize (C5 Hc). congruence.
Qed.
End HolderProofs.

(** Reading a credential file and writing it back gives a file that reads
    as the same credential and has the same value in every field the holder does
    not know, of the file and of its tokens. *)
Theorem credential_roundtrip j a : decodeFile j = Some a →
  decodeFile (encodeFile a) = Some a ∧
  (∀ key, key ≠ "last_refresh" → j_fields (encodeFile a) !! key = j_fields j !! key) ∧
  (∀ o key, j_tokens j = Some (Some o) → key ∉ token_keys →
     ∃ o', j_tokens (encodeFile a) = Some (Some o') ∧ o' !! key = o !! key).
Proof.
  intros H. pose proof (decode_apart j a H) as Hap. split; [by apply decode_encode_file|].
  unfold decodeFile in H. apply bind_Some in H as (tokens & Ht & H). apply bind_Some in H as (last & _ & [= <-]).
  split; [intros key Hne; cbn; rewrite put_field_ne by done; by rewrite lookup_delete_ne|].
  intros o key Ho Hkey. eexists. split; [reflexivity|]. rewrite Ho in Ht. cbn [Tokens].
  unfold token_keys in Hkey. rewrite !not_elem_of_cons in Hkey. destruct Hkey as (H1 & H2 & H3 & H4 & _).
  unfold encodeTokens. rewrite !put_field_ne by done.
  unfold decodeTokens in Ht. apply bind_Some in Ht as (id & _ & Ht). apply bind_Some in Ht as (ac & _ & Ht).
  apply bind_Some in Ht as (re & _ & Ht). apply bind_Some in Ht as (acc & _ & [= <-]).
  cbn [tok_Extra without token_keys foldr]. by rewrite !lookup_delete_ne by done.
Qed.

(** ** Concrete credentials *)

Definition text_ex (key : string) (o : object) : string := match o !! key with Some (JString s) => s | _ => "?" end.

Definition marshal_ex (j : auth_json) : string :=
  match j_tokens j with
  | Some (Some o) => text_ex "access_token" o +:+ "/" +:+ text_ex "refresh_token" o
  | _ => ""
  end.

Definition tokens_ex : object :=
  <["id_token" := JString "id1"]> (<["access_token" := JString "acc1"]> (<["refresh_token" := JString "ref1"]>
    {["plan" := JString "pro"]})).
Definition master_ex : auth_json := {| j_tokens := Some (Some tokens_ex); j_fields := {["OPENAI_API_KEY" := JNull]} |}.
Definition world_ex : world := {| w_master := Some (true, Some master_ex); w_records := ∅; w_shown := []; w_temps := [] |}.

(** The provider replaces a token once. *)
Definition oauth_ex (k : nat) (token : string) : option oauth_answer :=
  Some {| o_Status := 200; o_Body := Some {| r_ID := ""; r_Access := "acc2"; r_Refresh := "ref2" |} |}.
Definition now_ex (k : nat) : time := (Z.of_nat k + 1) * second.

Notation refresh_ex dies := (Refresh dies (λ _, false) (λ _, false) now_ex oauth_ex 0%nat world_ex).
Notation history_ex := (history (λ k, (k =? 17)%nat) (λ _, false) (λ _, false) now_ex oauth_ex marshal_ex 0%nat world_ex).

(** A death after the provider's answer: the token it replaced is shown to it again. *)
Example replaced_token_shown_again :
  let '(_, w1, a1) := refresh_ex (λ k, (k =? 2)%nat) in
  let '(_, w2, a2) := Refresh (λ _, false) (λ _, false) (λ _, false) now_ex oauth_ex 3%nat w1 in
  a1 = None ∧ a2 = Some (Ok ()) ∧ w_shown w2 = ["ref1"; "ref1"].
Proof. vm_compute. done. Qed.

(** A death before the renaming: the whole new credential, with the refresh token
    that only the provider still takes, stays in a temporary file that nothing
    reads or removes, and the master has the old one. *)
Example credential_left_behind :
  let '(_, w, a) := refresh_ex (λ k, (k =? 7)%nat) in
  a = None ∧ w_master w = w_master world_ex ∧
  map (λ t, match t with Some (Master j) => marshal_ex j | _ => "" end) (w_temps w) = ["acc2/ref2"].
Proof. vm_compute. done. Qed.

Definition calls_ex : list call :=
  [CIssue "run-1" "key"; CRefresh; CIssue "run-1" "key"; CRefresh; CIssue "run-1" "other"; CConsume "run-1"; CIssue "run-1" "key"].

Example issued_ex :
  map snd (history_ex calls_ex).2 =
  [Some (Ok (Some ("acc1/" +:+ newline))); None; Some (Ok (Some ("acc1/" +:+ newline))); Some (Ok None);
   Some (Err EState); Some (Ok None); Some (Err EConsumed)].
Proof. vm_compute. reflexivity. Qed.

Lemma refresh_atomic_witness :
  let '(k, w, o) := refresh_ex (λ _, false) in
  o = Some (Ok ()) ∧ w_records w = ∅ ∧ w_shown w = ["ref1"] ∧
  ∃ a out t, credential world_ex a ∧ answered oauth_ex a out ∧
    w = set_master (encodeFile (refreshed a out (now_ex t))) (show (RefreshToken (Tokens a)) world_ex).
Proof.
  destruct (refresh_ex (λ _, false)) as [[k w] o] eqn:E.
  pose proof (refresh_atomic (λ _, false) (λ _, false) (λ _, false) now_ex oauth_ex 0%nat world_ex k w o E)
    as (Hr & _ & _ & _ & Hok & _).
  assert (o = Some (Ok ()) ∧ w_shown w = ["ref1"]) as [Ho Hs].
  { clear Hok Hr. vm_compute in E. injection E as _ <- <-. done. }
  split; [done|]. split; [exact Hr|]. split; [done|]. exact (Hok Ho).
Defined.

Lemma issuance_bounded_witness :
  let t := (history_ex calls_ex).2 in
  (CIssue "run-1" "key", Some (Ok (Some ("acc1/" +:+ newline)))) ∈ t ∧
  bundle marshal_ex ("acc1/" +:+ newline).
Proof.
  destruct (history_ex calls_ex) as [[k w] t] eqn:E. cbn.
  assert (∀ j, is_zero (now_ex j) = false) as Hnow.
  { intros j. unfold is_zero, now_ex, zero_time. apply Z.eqb_neq. unfold second. lia. }
  assert ((CIssue "run-1" "key", Some (Ok (Some ("acc1/" +:+ newline)))) ∈ t) as Hin.
  { vm_compute in E. injection E as _ _ <-. by left. }
  split; [done|].
  pose proof (issuance_bounded (λ k, (k =? 17)%nat) (λ _, false) (λ _, false) now_ex oauth_ex marshal_ex Hnow
    0%nat world_ex calls_ex k w t E) as (H & _).
  exact (H _ _ _ Hin).
Defined.

Lemma credential_roundtrip_witness :
  ∃ a, decodeFile master_ex = Some a ∧ decodeFile (encodeFile a) = Some a ∧
    j_fields (encodeFile a) !! "OPENAI_API_KEY" = Some JNull.
Proof.
  destruct (decodeFile master_ex) as [a|] eqn:E; [|by vm_compute in E].
  pose proof (credential_roundtrip master_ex a E) as (H1 & H2 & _). exists a. split; [done|]. split; [done|].
  rewrite (H2 "OPENAI_API_KEY" ltac:(done)). vm_compute. reflexivity.
Defined.
