(* ===== verification/Docker.v ===== *)
(** * internal/sandbox/runtime.go: containers of the Docker engine

    [DockerBackend] creates, adopts, inspects and starts worker containers by
    calls to the engine, which is not part of the program: the class
    [DockerEngine] has its calls, and [DockerLaws] what Docker documents about
    them.  Every call may fail, before or after it took effect.  Only what the
    life of a run uses of the backend is here. *)

From stdpp Require Import pretty.
From S2P Require Import Prelude GoStrings GoTime Net Sandbox Process.
Open Scope string_scope.
Open Scope list_scope.
Open Scope Z_scope.

(** ** Requests and responses of the engine *)

Record dockerHostConfig := {
  ReadonlyRootfs : bool; SecurityOpt : list string; CapDrop : list string; NetworkMode : string;
  Binds : list string; hc_PidsLimit : Z; Memory : Z; CPUWeight : Z; AutoRemove : bool; Privileged : bool;
  PublishAllPorts : bool; hc_Tmpfs : gmap string string; StorageOpt : option string }.

(** [cr_Env] is sent as a list of k=v, in any order; [StorageOpt] is its only
    option, size. *)
Record dockerCreateRequest := {
  cr_Image : string; cr_Entrypoint : list string; cr_Cmd : list string; cr_User : string;
  cr_Env : gmap string string; cr_Labels : gmap string string; cr_WorkingDir : string;
  cr_HostConfig : dockerHostConfig }.

Record dockerInspectResponse := {
  ins_ID : string; ins_Name : string; ins_Image : string; ins_Labels : gmap string string;
  ins_Running : bool; ins_ExitCode : Z; ins_StartedAt : string; ins_FinishedAt : string; ins_Platform : string }.

Record dockerImageResponse := {
  img_ID : string; img_RepoDigests : list string; img_Os : string; img_Architecture : string }.

(** An answer with a failure status, or no usable answer. *)
Inductive docker_error := DockerError (StatusCode : Z) | DockerTransport.

Definition DockerStatusCode (e : docker_error) : option Z :=
  match e with DockerError c => Some c | DockerTransport => None end.

Class DockerEngine (D : Type) := {
  e_image : nat → D → string → D * result docker_error dockerImageResponse;
  e_create : nat → D → string → dockerCreateRequest → D * result docker_error string;
  e_inspect : nat → D → string → D * result docker_error dockerInspectResponse;
  e_start : nat → D → string → D * result docker_error unit;
  e_stop : nat → D → string → D * result docker_error unit;
  e_wait : nat → D → string → D * result docker_error Z;
  e_remove : nat → D → string → D * result docker_error unit }.

(** ** Building the request *)

Definition all_digits (s : string) : bool := all_chars is_digit s.

Definition tmpfs_text (uid gid : string) (sizeMB : Z) : string :=
  "rw,noexec,nosuid,nodev,size=" +:+ pretty sizeMB +:+ "m,mode=0700,uid=" +:+ uid +:+ ",gid=" +:+ gid.

(** [None] is the demand for a numeric uid:gid. *)
Definition tmpfsOptions (entries : gmap string Z) (user : string) : option (gmap string string) :=
  if bool_decide (entries = ∅) then Some ∅ else
  match cut ":" user with
  | None => None
  | Some (uid, gid) =>
    if (uid =? "")%string || (gid =? "")%string || negb (all_digits uid && all_digits gid) then None
    else Some (tmpfs_text uid gid <$> entries)
  end.

(** filepath.Clean is the identity on the clean paths of the configuration. *)
Definition binds (mounts : list Mount) : list string :=
  map (λ m, mnt_Source m +:+ ":" +:+ mnt_Target m +:+ ":" +:+ (if mnt_ReadOnly m then "ro" else "rw")) mounts.

Definition storageOptions (sizeMB : Z) : option string :=
  if sizeMB <? 1 then None else Some (pretty sizeMB +:+ "M").

Definition networkMode (network : NetworkPolicy) : string :=
  if NoNetwork network then "none" else Network network.

Definition create_request (spec : RuntimeSpec) (tmpfs : gmap string string) : dockerCreateRequest :=
  {| cr_Image := sp_Image spec; cr_Entrypoint := sp_Entrypoint spec; cr_Cmd := sp_Command spec;
     cr_User := sp_User spec; cr_Env := sp_Env spec; cr_Labels := sp_Labels spec;
     cr_WorkingDir := sp_WorkingDir spec;
     cr_HostConfig :=
       {| ReadonlyRootfs := false; SecurityOpt := ["no-new-privileges"]; CapDrop := ["ALL"];
          NetworkMode := networkMode (sp_Network spec); Binds := binds (sp_Mounts spec);
          hc_PidsLimit := PidsLimit (sp_Resources spec);
          Memory := wrap64 (wrap64 (MemoryMB (sp_Resources spec) * 1024) * 1024);
          CPUWeight := CPUShares (sp_Resources spec); AutoRemove := false; Privileged := false;
          PublishAllPorts := false; hc_Tmpfs := tmpfs; StorageOpt := storageOptions (sp_StorageLimitMB spec) |} |}.

(** ** The backend *)

Inductive ContainerLifecycle := ContainerNeverStarted | ContainerRunning | ContainerExited.

Record ContainerStatus := {
  st_ID : string; st_Running : bool; st_ExitCode : option Z; st_StartedAt : time; st_EndedAt : time }.

Definition no_status : ContainerStatus :=
  {| st_ID := ""; st_Running := false; st_ExitCode := None; st_StartedAt := zero_time; st_EndedAt := zero_time |}.

Record ContainerInfo := {
  ci_ID : string; ci_ImageDigest : string; ci_Platform : string; ci_Existing : bool; ci_Lifecycle : ContainerLifecycle;
  ci_Status : ContainerStatus }.

Inductive backend_error :=
| BDocker (e : docker_error) | BTmpfs | BCollision | BInspectColliding (e : docker_error).

Section Backend.
Context {D : Type} `{DockerEngine D}.
Variable dies : nat → bool.
Variable sha256_hex : string → string.
Variable json_spec : RuntimeSpec → string.
(** time.Parse(time.RFC3339Nano, _) *)
Variable parse_time : string → option time.

Definition parseDockerTime (s : string) : time :=
  if (s =? "")%string || has_prefix "0001-" s then zero_time else default zero_time (parse_time s).

Definition dockerContainerStatus (out : dockerInspectResponse) : ContainerStatus :=
  {| st_ID := ins_ID out; st_Running := ins_Running out;
     st_ExitCode := if ins_Running out then None else Some (ins_ExitCode out);
     st_StartedAt := parseDockerTime (ins_StartedAt out); st_EndedAt := parseDockerTime (ins_FinishedAt out) |}.

Definition lifecycle_of (status : ContainerStatus) : ContainerLifecycle :=
  if is_zero (st_StartedAt status) then ContainerNeverStarted
  else if st_Running status then ContainerRunning else ContainerExited.

(** The digest and the platform. *)
Definition imageIdentity (image : string) : prog D (result docker_error (string * string)) :=
  out <-? effect dies (λ k d, e_image k d image) ;;
  let platform := trim_right_slash (trim_left_slash
    (trim_space (img_Os out) +:+ "/" +:+ trim_space (img_Architecture out))) in
  done (Ok match img_RepoDigests out with
           | digest :: _ => (digest, platform)
           | [] => if negb (img_ID out =? "")%string then (img_ID out, platform) else (image, platform)
           end).

Definition Inspect (containerID : string) : prog D (result docker_error ContainerStatus) :=
  out <-? effect dies (λ k d, e_inspect k d containerID) ;;
  done (Ok (dockerContainerStatus out)).

Definition with_exit (status : ContainerStatus) (code : Z) : ContainerStatus :=
  {| st_ID := st_ID status; st_Running := st_Running status; st_ExitCode := Some code;
     st_StartedAt := st_StartedAt status; st_EndedAt := st_EndedAt status |}.

(** Waits for the container to stop; the answer is its exit code. *)
Definition Wait (containerID : string) : prog D (result docker_error ContainerStatus) :=
  code <-? effect dies (λ k d, e_wait k d containerID) ;;
  status <-? Inspect containerID ;;
  done (Ok (if bool_decide (st_ExitCode status = None) && negb (code =? 0) then with_exit status code else status)).

Definition Start (containerID : string) : prog D (result docker_error unit) :=
  effect dies (λ k d, e_start k d containerID).

Definition Stop (containerID : string) : prog D (result docker_error unit) :=
  effect dies (λ k d, e_stop k d containerID).

Definition Remove (containerID : string) : prog D (result docker_error unit) :=
  effect dies (λ k d, e_remove k d containerID).

(** ** Making a directory removable *)

Definition cleanup_request (image path : string) : dockerCreateRequest :=
  {| cr_Image := image; cr_Entrypoint := ["sh"; "-c"]; cr_Cmd := ["chmod -R a+rwX /cleanup"]; cr_User := "0:0";
     cr_Env := ∅; cr_Labels := {["gh-agent-broker.sandbox.cleanup" := "true"]}; cr_WorkingDir := "";
     cr_HostConfig :=
       {| ReadonlyRootfs := true; SecurityOpt := ["no-new-privileges"]; CapDrop := []; NetworkMode := "none";
          Binds := [path +:+ ":/cleanup:rw"]; hc_PidsLimit := 64; Memory := 64 * 1024 * 1024; CPUWeight := 0;
          AutoRemove := false; Privileged := false; PublishAllPorts := false; hc_Tmpfs := ∅; StorageOpt := None |} |}.

(** [polls]: how many inspections fit before the deadline of ten seconds, or
    before the caller gives up. *)
Fixpoint await_helper (polls : nat) (id : string) : prog D (result docker_error unit) :=
  match polls with
  | O => _ <-! Stop id ;; done (Err DockerTransport)
  | S polls =>
    status <-? Inspect id ;;
    if negb (st_Running status)
    then done (if bool_decide (st_ExitCode status = Some 0) then Ok () else Err DockerTransport)
    else await_helper polls id
  end.

(** [name] is sandbox-cleanup- and the time.  The helper's removal may fail. *)
Definition MakeRemovable (polls : nat) (name image path : string) : prog D (result docker_error unit) :=
  id <-? effect dies (λ k d, e_create k d name (cleanup_request image path)) ;;
  if (id =? "")%string then done (Err DockerTransport) else
  r <-! (_ <-? Start id ;; await_helper polls id) ;;
  _ <-! Remove id ;;
  done r.

Definition container_name (runID : string) : string := "sandbox-" +:+ runID.

Definition label (labels : gmap string string) (k : string) : string := default "" (labels !! k).

Definition adopt (spec : RuntimeSpec) : prog D (result backend_error ContainerInfo) :=
  let name := container_name (sp_RunID spec) in
  r <-! effect dies (λ k d, e_inspect k d name) ;;
  match r with
  | Err e => done (Err (BInspectColliding e))
  | Ok out =>
    let wantDigest := runtimeSpecDigest sha256_hex json_spec spec in
    if negb (ins_Name out =? "/" +:+ name)%string
       || negb (label (ins_Labels out) "gh-agent-broker.run_id" =? sp_RunID spec)%string
       || negb (label (ins_Labels out) launch_spec_label =? wantDigest)%string
    then done (Err BCollision) else
    let status := dockerContainerStatus out in
    done (Ok {| ci_ID := ins_ID out; ci_ImageDigest := ins_Image out; ci_Platform := ins_Platform out; ci_Existing := true;
                ci_Lifecycle := lifecycle_of status; ci_Status := status |})
  end.

Definition Create (spec : RuntimeSpec) : prog D (result backend_error ContainerInfo) :=
  let specDigest := runtimeSpecDigest sha256_hex json_spec spec in
  let spec := with_labels spec (<[launch_spec_label := specDigest]> (sp_Labels spec)) in
  r <-! imageIdentity (sp_Image spec) ;;
  let '(imageDigest, platform) := match r with Ok identity => identity | Err _ => (sp_Image spec, "") end in
  match tmpfsOptions (sp_Tmpfs spec) (sp_User spec) with
  | None => done (Err BTmpfs)
  | Some tmpfs =>
    r <-! effect dies (λ k d, e_create k d (container_name (sp_RunID spec)) (create_request spec tmpfs)) ;;
    match r with
    | Ok id => done (Ok {| ci_ID := id; ci_ImageDigest := imageDigest; ci_Platform := platform; ci_Existing := false;
                           ci_Lifecycle := ContainerNeverStarted; ci_Status := no_status |})
    | Err e => if bool_decide (DockerStatusCode e = Some 409) then adopt spec else done (Err (BDocker e))
    end
  end.

(** ** What Docker documents *)

(** [d_created d id]: [id] is the identifier of a container that was created at
    some time; [d_starts d id]: how often a process was started in it.  Only a
    start call starts a container (there is no restart policy), and it starts
    that container only, at most once, and has started it when it answers with
    success; a container's StartedAt is the zero time until its first start, and
    not from then on; an identifier names its own container. *)
Class DockerLaws := {
  d_created : D → string → Prop;
  d_starts : D → string → nat;
  image_frame k d i : ∀ id, d_starts (e_image k d i).1 id = d_starts d id ∧
    (d_created d id → d_created (e_image k d i).1 id);
  create_frame k d n r : ∀ id, d_starts (e_create k d n r).1 id = d_starts d id ∧
    (d_created d id → d_created (e_create k d n r).1 id);
  inspect_frame k d n : ∀ id, d_starts (e_inspect k d n).1 id = d_starts d id ∧
    (d_created d id → d_created (e_inspect k d n).1 id);
  stop_frame k d n : ∀ id, d_starts (e_stop k d n).1 id = d_starts d id ∧
    (d_created d id → d_created (e_stop k d n).1 id);
  remove_frame k d n : ∀ id, d_starts (e_remove k d n).1 id = d_starts d id ∧
    (d_created d id → d_created (e_remove k d n).1 id);
  wait_frame k d n : ∀ id, d_starts (e_wait k d n).1 id = d_starts d id ∧
    (d_created d id → d_created (e_wait k d n).1 id);
  start_frame k d n : ∀ id, d_created d id → d_created (e_start k d n).1 id;
  start_other k d n id : d_created d n → id ≠ n → d_starts (e_start k d n).1 id = d_starts d id;
  start_once k d n : (d_starts d n ≤ d_starts (e_start k d n).1 n ≤ S (d_starts d n))%nat;
  start_done k d n : (e_start k d n).2 = Ok () → (1 ≤ d_starts (e_start k d n).1 n)%nat;
  create_fresh k d n r id : (e_create k d n r).2 = Ok id →
    d_created (e_create k d n r).1 id ∧ d_starts (e_create k d n r).1 id = 0%nat;
  inspect_found k d n out : (e_inspect k d n).2 = Ok out →
    d_created (e_inspect k d n).1 (ins_ID out) ∧ (d_created d n → ins_ID out = n) ∧
    (is_zero (parseDockerTime (ins_StartedAt out)) = true →
       d_starts (e_inspect k d n).1 (ins_ID out) = 0%nat) ∧
    (is_zero (parseDockerTime (ins_StartedAt out)) = false ∨ ins_Running out = true →
       (1 ≤ d_starts (e_inspect k d n).1 (ins_ID out))%nat) }.
End Backend.
Arguments d_created {D _ parse_time _} _ _.
Arguments d_starts {D _ parse_time _} _ _.
