(* ===== verification/Launch.v ===== *)
(** * internal/sandbox/service.go: durable launches

    A launch is recorded as an intent before anything else happens, so that a
    process that dies at any point is resumed by a retry under the same key or
    by [Reconcile] at the next start.  The world has the durable index of
    intents, the runs' metadata.json and terminal-result.json files, the Docker
    engine, the capability store, and the process's memory, the map of runs.
    Handlers are programs of Process.v; the number of an effect selects the
    clock reading, the random bytes and the faults it meets.  Left out: audit
    records, error texts and diagnostics, the completion status file (written
    with its errors ignored), and the goroutines, whose bodies are handlers of
    their own ([watchExit], [watchTimeout]).  Runs are plain: profiles with a Codex
    workflow take other branches, which are in CodexWorkflow.  Handlers of one run
    run one after the other: launches take a lock by key, and what ends a run is
    excluded by the map of finalizing runs; that a stop or a request for the
    status begins while a launch of the run is still recording its start is not
    modelled here (for Codex runs, it is: CodexWorkflow). *)

From S2P Require Import Prelude GoStrings GoTime Regex Capability CapabilityStore Sandbox LaunchIntents Process Docker.
Open Scope string_scope.
Open Scope list_scope.
Open Scope Z_scope.

(** ** State *)

Record world (D : Type) := {
  w_intents : list intent_row; w_files : gmap string RunMetadata; w_results : gmap string RunMetadata;
  w_engine : D; w_caps : gmap string CapabilityStore.row; w_runs : gmap string RunMetadata }.
Arguments w_intents {D} w.
Arguments w_files {D} w.
Arguments w_results {D} w.
Arguments w_engine {D} w.
Arguments w_caps {D} w.
Arguments w_runs {D} w.

Definition set_intents {D} (t : list intent_row) (w : world D) : world D :=
  {| w_intents := t; w_files := w_files w; w_results := w_results w; w_engine := w_engine w;
     w_caps := w_caps w; w_runs := w_runs w |}.
Definition set_file {D} (id : string) (m : RunMetadata) (w : world D) : world D :=
  {| w_intents := w_intents w; w_files := <[id := m]> (w_files w); w_results := w_results w;
     w_engine := w_engine w; w_caps := w_caps w; w_runs := w_runs w |}.
Definition set_result {D} (id : string) (m : RunMetadata) (w : world D) : world D :=
  {| w_intents := w_intents w; w_files := w_files w; w_results := <[id := m]> (w_results w);
     w_engine := w_engine w; w_caps := w_caps w; w_runs := w_runs w |}.
Definition set_engine {D} (d : D) (w : world D) : world D :=
  {| w_intents := w_intents w; w_files := w_files w; w_results := w_results w; w_engine := d;
     w_caps := w_caps w; w_runs := w_runs w |}.
Definition set_caps {D} (c : gmap string CapabilityStore.row) (w : world D) : world D :=
  {| w_intents := w_intents w; w_files := w_files w; w_results := w_results w; w_engine := w_engine w;
     w_caps := c; w_runs := w_runs w |}.
Definition set_runs {D} (r : gmap string RunMetadata) (w : world D) : world D :=
  {| w_intents := w_intents w; w_files := w_files w; w_results := w_results w; w_engine := w_engine w;
     w_caps := w_caps w; w_runs := r |}.

Inductive svc_error :=
| EValidation (e : launch_error) | EConflict (code : string) | EIntent (e : intent_error) | EConfigVersion
| EUnknownTemplate | EFile | EInvalidRunID | ENoRun | ENoCapabilityStore | EDerive (e : derive_error)
| EMint (e : store_error) | EBundle | EBackend (e : backend_error) | EInspect (e : docker_error)
| EStart (e : docker_error) | EStop (e : docker_error) | ERemove (e : docker_error).

Record LaunchAgentOutput := {
  out_RunID : string; out_WorkerAgentID : string; out_Repo : string; out_Branch : string;
  out_Status : string; out_Deadline : time; out_Replay : bool }.

Definition launchOutput (m : RunMetadata) : LaunchAgentOutput :=
  {| out_RunID := m_RunID m; out_WorkerAgentID := WorkerAgentID (m_run m); out_Repo := Repo (m_run m);
     out_Branch := Branch (m_run m); out_Status := m_Status m; out_Deadline := Deadline (m_run m);
     out_Replay := false |}.

Definition with_replay (b : bool) (o : LaunchAgentOutput) : LaunchAgentOutput :=
  {| out_RunID := out_RunID o; out_WorkerAgentID := out_WorkerAgentID o; out_Repo := out_Repo o;
     out_Branch := out_Branch o; out_Status := out_Status o; out_Deadline := out_Deadline o;
     out_Replay := b |}.

(** ** Updates of the metadata *)

Definition with_container (m : RunMetadata) (id digest : string) : RunMetadata :=
  {| m_run := m_run m; m_ContainerID := id; m_ImageDigest := digest; m_Status := m_Status m;
     m_ExitCode := m_ExitCode m; m_FinalizeReason := m_FinalizeReason m;
     m_TerminalSource := m_TerminalSource m; m_EndedAt := m_EndedAt m |}.

Definition with_status (m : RunMetadata) (status : string) : RunMetadata :=
  {| m_run := m_run m; m_ContainerID := m_ContainerID m; m_ImageDigest := m_ImageDigest m;
     m_Status := status; m_ExitCode := m_ExitCode m; m_FinalizeReason := m_FinalizeReason m;
     m_TerminalSource := m_TerminalSource m; m_EndedAt := m_EndedAt m |}.

Definition ended (m : RunMetadata) (status reason source : string) (exit : option Z) (at_ : time) : RunMetadata :=
  {| m_run := m_run m; m_ContainerID := m_ContainerID m; m_ImageDigest := m_ImageDigest m;
     m_Status := status; m_ExitCode := exit; m_FinalizeReason := reason; m_TerminalSource := source;
     m_EndedAt := at_ |}.

Definition finalizeReasonWorkerExit := "worker_exit".
Definition finalizeReasonStatusPollExited := "status_poll_exited".
Definition finalizeReasonStatusPollDeadline := "status_poll_deadline".
Definition finalizeReasonReconcileExited := "reconcile_exited".
Definition finalizeReasonReconcileDeadline := "reconcile_deadline".
Definition finalizeReasonReconcileMissing := "reconcile_container_missing".
Definition finalizeReasonDeadline := "deadline".
Definition finalizeReasonDeadlineAlreadyExited := "deadline_already_exited".
Definition finalizeReasonDeadlineStopAlreadyExited := "deadline_stop_already_exited".
Definition finalizeReasonDeadlineStopFailed := "deadline_stop_failed".
Definition finalizeReasonManualStop := "manual_stop".
Definition finalizeReasonLaunchCreateFailed := "launch_create_failed".
Definition finalizeReasonLaunchStartFailed := "launch_start_failed".
Definition terminalSourceExited := "exited".
Definition terminalSourceTimedOut := "timed_out".
Definition terminalSourceManualStop := "manual_stop".
Definition terminalSourceStartupFailure := "startup_failure".

Definition terminalSourceForStatus (status fallback : string) : string :=
  if (status =? StatusTimedOut)%string then terminalSourceTimedOut
  else if existsb (String.eqb status) [StatusCompleted; StatusStopped; StatusFailed]
       then if negb (fallback =? "")%string then fallback else terminalSourceExited
  else fallback.

(** The status a container's exit gives a run. *)
Definition finalizeExitedRun (now : time) (m : RunMetadata) (status : ContainerStatus) : RunMetadata :=
  let at_ := if is_zero (st_EndedAt status) then now else st_EndedAt status in
  let ok := bool_decide (st_ExitCode status = Some 0) in
  ended m (if ok then StatusCompleted else StatusFailed) (m_FinalizeReason m) terminalSourceExited
        (st_ExitCode status) at_.

(** ** The service and what it meets *)

(** The operator's configuration; Go's regexp, SHA-256, HMAC-SHA256 under the
    store's salt, json.Marshal of a specification and time.Parse; the release
    registry, if there is one; and by the number of an effect whether the process
    dies before it, its clock readings, random bytes and faults. *)
Class Service := {
  cfg : Config; has_capability_store : bool;
  pattern : Type; re_compile : string → option pattern; re_match : pattern → string → bool;
  sha256_hex : string → string; digestKey : string → string; json_spec : RuntimeSpec → string;
  parse_time : string → option time;
  resolver : option (nat → string → option ResolvedRelease);
  dies : nat → bool; now : nat → time; now2 : nat → time;
  random : nat → option string; cap_random : nat → string;
  db_fault : nat → fault; cap_fault : nat → fault; file_fails : nat → bool }.

Section Service.
Context {D : Type} `{DockerEngine D} `{Service}.

Notation M := (prog (world D)).

Definition clock : M time := λ k w, (k, w, Some (now k)).

(** ** Single effects *)

Definition lift_intent {A} (r : result intent_error A) : result svc_error A :=
  match r with Ok a => Ok a | Err x => Err (EIntent x) end.

Definition update_intents {A} (f : fault → time → list intent_row → list intent_row * result intent_error A)
    : M (result svc_error A) :=
  effect dies (λ k w, let '(t, r) := f (db_fault k) (now k) (w_intents w) in
                          (set_intents t w, lift_intent r)).

Definition query_intents {A} (f : fault → list intent_row → result intent_error A) : M (result svc_error A) :=
  effect dies (λ k w, (w, lift_intent (f (db_fault k) (w_intents w)))).

Definition save (i : launchIntent) : M (result svc_error unit) := update_intents (λ fl t rows, Save fl rows i t).
Definition saveMetadata (m : RunMetadata) : M (result svc_error unit) :=
  update_intents (λ fl t rows, SaveMetadata fl rows m t).

Definition writeMetadataFile (m : RunMetadata) : M (result svc_error unit) :=
  effect dies (λ k w, if file_fails k then (w, Err EFile) else (set_file (m_RunID m) m w, Ok ())).

Definition persistTerminalResult (m : RunMetadata) : M (result svc_error unit) :=
  effect dies (λ k w, if file_fails k then (w, Err EFile) else (set_result (m_RunID m) m w, Ok ())).

(** The directories of a run, the snapshots and the task inputs. *)
Definition prepare_dirs : M (result svc_error unit) :=
  effect dies (λ k w, (w, if file_fails k then Err EFile else Ok ())).

Definition remember (m : RunMetadata) : M unit := poke (λ w, set_runs (<[m_RunID m := m]> (w_runs w)) w).

Definition docker {A} (m : prog D A) : M A := zoom w_engine set_engine m.
Definition inspect (id : string) : M (result docker_error ContainerStatus) :=
  docker (Inspect dies parse_time id).
Definition start (id : string) : M (result docker_error unit) := docker (Start dies id).
Definition stop (id : string) : M (result docker_error unit) := docker (Stop dies id).
Definition create (spec : RuntimeSpec) : M (result backend_error ContainerInfo) :=
  docker (Docker.Create dies sha256_hex json_spec parse_time spec).

(** ** Runs *)

Definition lookupRun (runID : string) : M (result svc_error RunMetadata) :=
  if negb (safeRunID runID) then done (Err EInvalidRunID) else
  known <-! peek (λ w, w_runs w !! runID) ;;
  match known with
  | Some m => done (Ok m)
  | None =>
    m <-? effect dies (λ k w, (w, if file_fails k then Err EFile else
                                      match w_files w !! runID with Some m => Ok m | None => Err ENoRun end)) ;;
    _ <-! poke (λ w, set_runs (<[runID := m]> (w_runs w)) w) ;;
    done (Ok m)
  end.

Definition writeMetadata (m : RunMetadata) : M (result svc_error unit) :=
  _ <-? writeMetadataFile m ;;
  _ <-? saveMetadata m ;;
  _ <-! remember m ;;
  done (Ok ()).

(** The zero RunMetadata. *)
Definition no_metadata : RunMetadata :=
  {| m_run := {| RunID := ""; WorkItemID := ""; Profile := ""; Principal := ""; IdempotencyKeyDigest := "";
                 RequestFingerprint := ""; LaunchConfigVersion := ""; run_Template := ""; Repo := "";
                 BaseBranch := ""; Branch := ""; Task := ""; VerificationTask := ""; Focus := "";
                 WorkerAgentID := ""; run_BrokerAgentID := ""; run_CredentialBundle := ""; run_Image := "";
                 ResolvedReleaseGeneration := 0; Deliverables := []; Parameters := ∅; StartedAt := zero_time;
                 Deadline := zero_time |};
     m_ContainerID := ""; m_ImageDigest := ""; m_Status := ""; m_ExitCode := None; m_FinalizeReason := "";
     m_TerminalSource := ""; m_EndedAt := zero_time |}.

(** The metadata and the error, if any: Go returns both.  [f_captured] is the
    variable of the caller that its [update] may assign. *)
Record finalized := { f_meta : RunMetadata; f_err : option svc_error; f_captured : option svc_error }.

Definition err_of {A} (r : result svc_error A) : option svc_error :=
  match r with Ok _ => None | Err x => Some x end.

Definition terminal_update (next : RunMetadata) (reason source : string) : RunMetadata :=
  let reason := if negb (m_FinalizeReason next =? "")%string then m_FinalizeReason next else reason in
  let source := if negb (m_TerminalSource next =? "")%string then m_TerminalSource next else source in
  ended next (m_Status next) reason (terminalSourceForStatus (m_Status next) source)
        (m_ExitCode next) (m_EndedAt next).

Definition finalizeTerminalRun (runID reason source : string)
    (update : RunMetadata → M (RunMetadata * option svc_error)) : M finalized :=
  r <-! lookupRun runID ;;
  match r with
  | Err x => done {| f_meta := no_metadata; f_err := Some x; f_captured := None |}
  | Ok m =>
    if negb (m_Status m =? StatusRunning)%string
    then done {| f_meta := m; f_err := None; f_captured := None |} else
    '(next, captured) <-! update m ;;
    if (m_Status next =? StatusRunning)%string
    then done {| f_meta := next; f_err := None; f_captured := captured |} else
    let next := terminal_update next reason source in
    r <-! persistTerminalResult next ;;
    match r with
    | Err x => done {| f_meta := next; f_err := Some x; f_captured := captured |}
    | Ok _ =>
      current <-! peek (λ w, w_runs w !! runID) ;;
      if match current with Some c => negb (m_Status c =? StatusRunning)%string | None => false end
      then done {| f_meta := default next current; f_err := None; f_captured := captured |} else
      _ <-! poke (λ w, set_runs (<[runID := next]> (w_runs w)) w) ;;
      r <-! (_ <-? writeMetadataFile next ;; saveMetadata next) ;;
      done {| f_meta := next; f_err := err_of r; f_captured := captured |}
    end
  end.

Definition finalizeExited (runID reason : string) (status : ContainerStatus) : M finalized :=
  finalizeTerminalRun runID reason terminalSourceExited (λ m,
    t <-! clock ;; done (finalizeExitedRun t m status, None)).

(** The status of a container that was found and is not running. *)
Definition exited_status (r : result docker_error ContainerStatus) : option ContainerStatus :=
  match r with
  | Ok status => if negb (st_Running status) then Some status else None
  | Err _ => None
  end.

(** Without the texts of errors.  304 is the status of a container already stopped. *)
Definition markTimedOut (m : RunMetadata) : M (RunMetadata * option svc_error) :=
  let timed_out reason exit :=
    t <-! clock ;;
    done (ended m StatusTimedOut (if (reason =? "")%string then finalizeReasonDeadline else reason)
                terminalSourceTimedOut exit t, None) in
  let exited reason status :=
    t <-! clock ;;
    done (finalizeExitedRun t (ended m (m_Status m) reason (m_TerminalSource m) (m_ExitCode m) (m_EndedAt m)) status,
          None) in
  if (m_ContainerID m =? "")%string then timed_out (m_FinalizeReason m) (m_ExitCode m) else
  r <-! inspect (m_ContainerID m) ;;
  match exited_status r with
  | Some status => exited finalizeReasonDeadlineAlreadyExited status
  | None =>
    r <-! stop (m_ContainerID m) ;;
    match r with
    | Err x =>
      r <-! (if bool_decide (DockerStatusCode x = Some 304)
             then r <-! inspect (m_ContainerID m) ;; done (exited_status r) else done None) ;;
      match r with
      | Some status => exited finalizeReasonDeadlineStopAlreadyExited status
      | None => timed_out finalizeReasonDeadlineStopFailed (m_ExitCode m)
      end
    | Ok _ =>
      r <-! inspect (m_ContainerID m) ;;
      timed_out (m_FinalizeReason m)
        match r with Ok {| st_ExitCode := Some c |} => Some c | _ => m_ExitCode m end
    end
  end.

(** ** Capabilities of launches *)

Definition mintLaunchCapability (tmpl : Template) (m : RunMetadata) : M (result svc_error string) :=
  if negb (mintsCapability tmpl) then done (Ok "") else
  if negb has_capability_store then done (Err ENoCapabilityStore) else
  match deriveCapabilityClaims tmpl (m_run m) with
  | Err x => done (Err (EDerive x))
  | Ok claims =>
    effect dies (λ k w,
      let '(t, r) := CapabilityStore.Issue sha256_hex (cap_fault k) (w_caps w) claims (cap_random k)
                       (now k) (now2 k) in
      (set_caps t w, match r with Ok h => Ok h | Err x => Err (EMint x) end))
  end.

Definition revokeLaunchCapability (handle : string) : M unit :=
  if (handle =? "")%string || negb has_capability_store then done () else
  effect dies (λ k w,
    (set_caps (CapabilityStore.Revoke sha256_hex (cap_fault k) (w_caps w) handle (now k)).1 w, ())).

(** ** Resuming an intent *)

Definition prepareDurableRun (m : RunMetadata) : M (result svc_error unit) :=
  _ <-? prepare_dirs ;; writeMetadataFile m.

Definition with_state (i : launchIntent) (state : string) (m : RunMetadata) : launchIntent :=
  {| it_Principal := it_Principal i; it_Profile := it_Profile i; it_KeyDigest := it_KeyDigest i;
     it_RequestFingerprint := it_RequestFingerprint i; it_RunID := it_RunID i; it_State := state;
     it_Plan := it_Plan i; it_Metadata := m |}.

Definition commitRunningIntent (i : launchIntent) (m : RunMetadata) : M (result svc_error LaunchAgentOutput) :=
  let m := with_status m StatusRunning in
  _ <-? save (with_state i intentStateRunning m) ;;
  _ <-? writeMetadata m ;;
  done (Ok (launchOutput m)).

Definition commitExitedIntent (i : launchIntent) (m : RunMetadata) (status : ContainerStatus)
    : M (result svc_error LaunchAgentOutput) :=
  let m := with_status m StatusRunning in
  _ <-! remember m ;;
  f <-! finalizeExited (m_RunID m) finalizeReasonReconcileExited status ;;
  r <-! save (with_state i intentStateTerminal (f_meta f)) ;;
  done match f_err f, r with
       | Some x, _ => Err x
       | None, Err x => Err x
       | None, Ok _ => Ok (launchOutput (f_meta f))
       end.

Definition startup_failure (m : RunMetadata) (reason : string) (at_ : time) : RunMetadata :=
  ended m StatusFailed reason terminalSourceStartupFailure (m_ExitCode m) at_.

Definition commitStartupFailureIntent (i : launchIntent) (m : RunMetadata) (reason : string)
    : M (result svc_error LaunchAgentOutput) :=
  t <-! clock ;;
  let m := startup_failure m reason t in
  _ <-? persistTerminalResult m ;;
  _ <-? writeMetadata m ;;
  _ <-? save (with_state i intentStateTerminal m) ;;
  _ <-! remember m ;;
  done (Ok (launchOutput m)).

(** The part of resumeLaunchIntent after the container is known. *)
Definition start_container (i : launchIntent) (m : RunMetadata) (info : ContainerInfo) (capabilityHandle : string)
    : M (result svc_error LaunchAgentOutput) :=
  match ci_Lifecycle info with
  | ContainerRunning => commitRunningIntent i m
  | ContainerExited => commitExitedIntent i m (ci_Status info)
  | ContainerNeverStarted =>
    _ <-? save (with_state i intentStateStartPending m) ;;
    r <-! start (m_ContainerID m) ;;
    match r with
    | Ok _ => commitRunningIntent i m
    | Err x =>
      r <-! inspect (m_ContainerID m) ;;
      match r with
      | Ok status =>
        if st_Running status then commitRunningIntent i m
        else if negb (is_zero (st_StartedAt status)) then commitExitedIntent i m status
        else _ <-! revokeLaunchCapability capabilityHandle ;;
             commitStartupFailureIntent i m finalizeReasonLaunchStartFailed
      | Err _ => _ <-! revokeLaunchCapability capabilityHandle ;;
                 commitStartupFailureIntent i m finalizeReasonLaunchStartFailed
      end
    end
  end.

Definition has_container (state : string) : bool :=
  (state =? intentStateContainerMade)%string || (state =? intentStateStartPending)%string.

(** The watchers that a recovered run gets again are handlers of their own. *)
Definition resume_running (m : RunMetadata) : M (result svc_error LaunchAgentOutput) :=
  _ <-! remember m ;;
  if (m_ContainerID m =? "")%string then done (Ok (launchOutput m)) else
  r <-! inspect (m_ContainerID m) ;;
  match r with
  | Err x => done (Err (EInspect x))
  | Ok status =>
    if negb (st_Running status) then
      f <-! finalizeExited (m_RunID m) finalizeReasonReconcileExited status ;;
      done match f_err f with Some x => Err x | None => Ok (launchOutput (f_meta f)) end
    else done (Ok (launchOutput m))
  end.

Definition resumeLaunchIntent (i : launchIntent) : M (result svc_error LaunchAgentOutput) :=
  if negb (pl_ConfigVersion (it_Plan i) =? ConfigVersion cfg)%string then done (Err EConfigVersion) else
  let m := it_Metadata i in
  if isTerminalStatus (m_Status m) || (it_State i =? intentStateTerminal)%string
  then done (Ok (launchOutput m)) else
  match Templates cfg !! run_Template (m_run m) with
  | None => done (Err EUnknownTemplate)
  | Some tmpl =>
    if (it_State i =? intentStateRunning)%string then resume_running m else
    _ <-? prepareDurableRun m ;;
    let freshCreate := negb (has_container (it_State i)) in
    capabilityHandle <-? (if freshCreate then mintLaunchCapability tmpl m else done (Ok "")) ;;
    match runtimeSpec cfg (m_run m) tmpl capabilityHandle with
    | None => _ <-! revokeLaunchCapability capabilityHandle ;; done (Err EBundle)
    | Some spec =>
      if has_container (it_State i) then
        r <-! inspect (m_ContainerID m) ;;
        match r with
        | Err x => done (Err (EInspect x))
        | Ok status =>
          start_container i m
            {| ci_ID := m_ContainerID m; ci_ImageDigest := m_ImageDigest m; ci_Platform := ""; ci_Existing := true;
               ci_Lifecycle := lifecycle_of status; ci_Status := status |} capabilityHandle
        end
      else
        r <-! save (with_state i intentStateCreatePending m) ;;
        match r with
        | Err x => _ <-! revokeLaunchCapability capabilityHandle ;; done (Err x)
        | Ok _ =>
          r <-! create spec ;;
          match r with
          | Err x => _ <-! revokeLaunchCapability capabilityHandle ;;
                     commitStartupFailureIntent i m finalizeReasonLaunchCreateFailed
          | Ok info =>
            let m := with_container m (ci_ID info) (ci_ImageDigest info) in
            _ <-? save (with_state i intentStateContainerMade m) ;;
            start_container i m info capabilityHandle
          end
        end
    end
  end.

(** ** Launching *)

(** The metadata of a launch without a key has no LaunchConfigVersion. *)
Definition unversioned (m : RunMetadata) : RunMetadata :=
  let i := m_run m in
  {| m_run := {| RunID := RunID i; WorkItemID := WorkItemID i; Profile := Profile i; Principal := Principal i;
                 IdempotencyKeyDigest := IdempotencyKeyDigest i; RequestFingerprint := RequestFingerprint i;
                 LaunchConfigVersion := ""; run_Template := run_Template i; Repo := Repo i;
                 BaseBranch := BaseBranch i; Branch := Branch i; Task := Task i;
                 VerificationTask := VerificationTask i; Focus := Focus i; WorkerAgentID := WorkerAgentID i;
                 run_BrokerAgentID := run_BrokerAgentID i; run_CredentialBundle := run_CredentialBundle i;
                 run_Image := run_Image i; ResolvedReleaseGeneration := ResolvedReleaseGeneration i;
                 Deliverables := Deliverables i; Parameters := Parameters i; StartedAt := StartedAt i;
                 Deadline := Deadline i |};
     m_ContainerID := m_ContainerID m; m_ImageDigest := m_ImageDigest m; m_Status := m_Status m;
     m_ExitCode := m_ExitCode m; m_FinalizeReason := m_FinalizeReason m;
     m_TerminalSource := m_TerminalSource m; m_EndedAt := m_EndedAt m |}.

Definition select (i : LaunchAgentInput)
    : M (result launch_error (Template * string * string * Z * option ResolvedRelease)) :=
  λ k w, (k, w, Some (selectLaunchTemplate re_compile re_match cfg ((λ r, r k) <$> resolver) i
                        (now2 k) (random k))).

(** Without the reservations of launches under way, which end with them. *)
Definition acquireProfileSlot (profile : string) : M (result svc_error unit) :=
  if (profile =? "")%string then done (Ok ()) else
  let max := default 0 (MaxConcurrentRuns cfg !! profile) in
  if max =? 0 then done (Ok ()) else
  active <-! peek (λ w, size (filter (λ kv, Profile (m_run kv.2) = profile ∧
                       (m_Status kv.2 = StatusPending ∨ m_Status kv.2 = StatusRunning)) (w_runs w))) ;;
  done (if max <=? Z.of_nat active then Err (EConflict "profile_busy") else Ok ()).

(** The launch without an idempotency key: no intent is kept. *)
Definition launch_failed (m : RunMetadata) (reason : string) (x : svc_error) : M (result svc_error LaunchAgentOutput) :=
  t <-! clock ;;
  let m := startup_failure m reason t in
  _ <-? persistTerminalResult m ;;
  _ <-? writeMetadata m ;;
  done (Err x).

Definition launchAgent (principal : string) (i : LaunchAgentInput) : M (result svc_error LaunchAgentOutput) :=
  r <-! select i ;;
  match r with
  | Err x => done (Err (EValidation x))
  | Ok (tmpl, runID, branch, limit, release) =>
    _ <-? acquireProfileSlot (in_Profile i) ;;
    t <-! clock ;;
    let m := unversioned (launch_metadata cfg principal (in_Profile i) "" "" i tmpl runID branch limit release t) in
    match validateTaskContract cfg (taskContract cfg (m_run m)) with
    | Err x => done (Err (EValidation x))
    | Ok _ =>
      _ <-? prepare_dirs ;;
      capabilityHandle <-? mintLaunchCapability tmpl m ;;
      match runtimeSpec cfg (m_run m) tmpl capabilityHandle with
      | None => _ <-! revokeLaunchCapability capabilityHandle ;; done (Err EBundle)
      | Some spec =>
        r <-! create spec ;;
        match r with
        | Err x => _ <-! revokeLaunchCapability capabilityHandle ;;
                   launch_failed m finalizeReasonLaunchCreateFailed (EBackend x)
        | Ok info =>
          let m := with_container m (ci_ID info) (ci_ImageDigest info) in
          r <-! start (ci_ID info) ;;
          match r with
          | Err x => _ <-! revokeLaunchCapability capabilityHandle ;;
                     launch_failed m finalizeReasonLaunchStartFailed (EStart x)
          | Ok _ =>
            let m := with_status m StatusRunning in
            _ <-? writeMetadata m ;;
            _ <-! remember m ;;
            done (Ok (launchOutput m))
          end
        end
      end
    end
  end.

Definition key_conflict := "idempotency_conflict".

(** The intent of a new run. *)
Definition new_intent (principal profile digest fingerprint : string) (i : LaunchAgentInput) (limit : Z)
    (m : RunMetadata) : launchIntent :=
  {| it_Principal := principal; it_Profile := profile; it_KeyDigest := digest;
     it_RequestFingerprint := fingerprint; it_RunID := m_RunID m; it_State := intentStateCreated;
     it_Plan := {| pl_Version := 1; pl_ConfigVersion := ConfigVersion cfg; pl_Request := i;
                   pl_RuntimeSeconds := Z.quot limit second; pl_Metadata := m |};
     it_Metadata := m |}.

Definition replayed (b : bool) (r : result svc_error LaunchAgentOutput) : result svc_error LaunchAgentOutput :=
  match r with Ok o => Ok (with_replay b o) | Err x => Err x end.

(** Of a profile without a Codex workflow. *)
Definition LaunchProfile (principal profile rawKey fingerprint : string) (i : LaunchAgentInput)
    : M (result svc_error LaunchAgentOutput) :=
  if (rawKey =? "")%string then launchAgent principal i else
  let digest := digestKey rawKey in
  found <-? query_intents (λ fl rows, Lookup fl rows principal profile digest) ;;
  match found with
  | Some intent =>
    if negb (it_RequestFingerprint intent =? fingerprint)%string then done (Err (EConflict key_conflict)) else
    r <-! resumeLaunchIntent intent ;;
    done (replayed true r)
  | None =>
    r <-! select i ;;
    match r with
    | Err x => done (Err (EValidation x))
    | Ok (tmpl, runID, branch, limit, release) =>
      t <-! clock ;;
      let m := launch_metadata cfg principal profile digest fingerprint i tmpl runID branch limit release t in
      match validateTaskContract cfg (taskContract cfg (m_run m)) with
      | Err x => done (Err (EValidation x))
      | Ok _ =>
        let intent := new_intent principal profile digest fingerprint i limit m in
        '(persisted, created) <-? update_intents (λ fl t rows,
            LaunchIntents.Create fl rows intent (default 0 (MaxConcurrentRuns cfg !! profile)) t) ;;
        if negb created && negb (it_RequestFingerprint persisted =? fingerprint)%string
        then done (Err (EConflict key_conflict)) else
        r <-! resumeLaunchIntent (if created then intent else persisted) ;;
        done (replayed (negb created) r)
      end
    end
  end.

(** ** Recovery at the start of the process *)

Fixpoint reconcile_intents (intents : list launchIntent) : M (result svc_error unit) :=
  match intents with
  | [] => done (Ok ())
  | i :: intents =>
    if negb (pl_ConfigVersion (it_Plan i) =? ConfigVersion cfg)%string then done (Err EConfigVersion) else
    _ <-? resumeLaunchIntent i ;;
    reconcile_intents intents
  end.

Definition reconcileLaunchIntents : M (result svc_error unit) :=
  intents <-? query_intents Nonterminal ;;
  reconcile_intents intents.

Definition reconcile_result (f : finalized) : result svc_error RunMetadata :=
  match f_err f with Some x => Err x | None => Ok (f_meta f) end.

(** The container of a run whose file says it is running. *)
Definition reconcile_container (m : RunMetadata) : M (result svc_error RunMetadata) :=
  r <-! inspect (m_ContainerID m) ;;
  t <-! clock ;;
  match r with
  | Err _ =>
    f <-! finalizeTerminalRun (m_RunID m) finalizeReasonReconcileMissing terminalSourceStartupFailure (λ c,
      t <-! clock ;;
      done (ended c StatusFailed (m_FinalizeReason c) terminalSourceStartupFailure (m_ExitCode c) t, None)) ;;
    done (reconcile_result f)
  | Ok status =>
    if negb (st_Running status) then
      f <-! finalizeExited (m_RunID m) finalizeReasonReconcileExited status ;; done (reconcile_result f)
    else if Deadline (m_run m) <? t then
      f <-! finalizeTerminalRun (m_RunID m) finalizeReasonReconcileDeadline terminalSourceTimedOut markTimedOut ;;
      done (reconcile_result f)
    else done (Ok m)
  end.

Definition backfill_result (m : RunMetadata) : M (result svc_error unit) :=
  if negb (isTerminalStatus (m_Status m)) then done (Ok ()) else
  present <-? effect dies (λ k w, (w, if file_fails k then Err EFile
                                          else Ok (bool_decide (is_Some (w_results w !! m_RunID m))))) ;;
  if present then done (Ok ()) else persistTerminalResult m.

(** One run directory; an unreadable metadata file is skipped. *)
Definition reconcile_run (id : string) : M (result svc_error unit) :=
  r <-! effect dies (λ k w, (w, if file_fails k then None else w_files w !! id)) ;;
  match r with
  | None => done (Ok ())
  | Some m =>
    _ <-? update_intents (λ fl t rows, RestoreMetadata fl rows m t) ;;
    m <-? (if negb (m_ContainerID m =? "")%string && (m_Status m =? StatusRunning)%string
           then reconcile_container m else done (Ok m)) ;;
    _ <-! remember m ;;
    _ <-? backfill_result m ;;
    if (m_Status m =? StatusRunning)%string
    then _ <-? query_intents (λ fl rows, IsNonterminalRun fl rows (m_RunID m)) ;; done (Ok ())
    else done (Ok ())
  end.

Fixpoint reconcile_runs (ids : list string) : M (result svc_error unit) :=
  match ids with
  | [] => done (Ok ())
  | id :: ids => _ <-? reconcile_run id ;; reconcile_runs ids
  end.

Definition Reconcile : M (result svc_error unit) :=
  ids <-? effect dies (λ k w, (w, if file_fails k then Err EFile
                                     else Ok (merge_sort text_order (elements (dom (w_files w)))))) ;;
  _ <-? reconcile_runs ids ;;
  reconcileLaunchIntents.

(** ** Ends of runs *)

(** The status of the run; statusOutput projects it. *)
Definition GetAgentStatus (runID : string) : M (result svc_error RunMetadata) :=
  m <-? lookupRun runID ;;
  if negb (negb (m_ContainerID m =? "")%string && (m_Status m =? StatusRunning)%string) then done (Ok m) else
  r <-! inspect (m_ContainerID m) ;;
  t <-! clock ;;
  match r with
  | Err _ => done (Ok m)
  | Ok status =>
    if st_Running status && (Deadline (m_run m) <? t) then
      f <-! finalizeTerminalRun (m_RunID m) finalizeReasonStatusPollDeadline terminalSourceTimedOut markTimedOut ;;
      done (reconcile_result f)
    else if negb (st_Running status) then
      f <-! finalizeExited (m_RunID m) finalizeReasonStatusPollExited status ;; done (reconcile_result f)
    else done (Ok m)
  end.

(** A failing stop is kept aside and leaves the run as it is. *)
Definition stop_update (m : RunMetadata) : M (RunMetadata * option svc_error) :=
  let stopped exit ended_at :=
    t <-! clock ;;
    done (ended m StatusStopped finalizeReasonManualStop terminalSourceManualStop exit
                (if is_zero ended_at then t else ended_at), None) in
  if (m_ContainerID m =? "")%string then stopped (m_ExitCode m) (m_EndedAt m) else
  r <-! stop (m_ContainerID m) ;;
  match r with
  | Err x => done (m, Some (EStop x))
  | Ok _ =>
    r <-! inspect (m_ContainerID m) ;;
    match r with
    | Ok {| st_ExitCode := Some c; st_EndedAt := at_ |} => stopped (Some c) at_
    | _ => stopped (m_ExitCode m) (m_EndedAt m)
    end
  end.

Definition StopAgent (runID : string) : M (result svc_error RunMetadata) :=
  m <-? lookupRun runID ;;
  if negb (m_Status m =? StatusRunning)%string then done (Ok m) else
  f <-! finalizeTerminalRun (m_RunID m) finalizeReasonManualStop terminalSourceManualStop stop_update ;;
  done match f_err f, f_captured f with
       | Some x, _ => Err x
       | None, Some x => Err x
       | None, None => Ok (f_meta f)
       end.

(** When the timer of a run fires. *)
Definition watchTimeout (runID : string) (deadline : time) : M unit :=
  r <-! lookupRun runID ;;
  match r with
  | Ok m =>
    if negb (m_Status m =? StatusRunning)%string || negb (Deadline (m_run m) =? deadline) then done () else
    _ <-! finalizeTerminalRun runID finalizeReasonDeadline terminalSourceTimedOut markTimedOut ;; done ()
  | Err _ => done ()
  end.

Definition watchExit (runID containerID : string) : M unit :=
  r <-! docker (Wait dies parse_time containerID) ;;
  match r with
  | Ok status => _ <-! finalizeExited runID finalizeReasonWorkerExit status ;; done ()
  | Err _ =>
    r <-! inspect containerID ;;
    match exited_status r with
    | Some status => _ <-! finalizeExited runID finalizeReasonWorkerExit status ;; done ()
    | None => _ <-! lookupRun runID ;; done ()
    end
  end.
End Service.
