(* ===== verification/LaunchInvariant.v ===== *)
(** * Durable launches: the invariant and the effects that keep it

    [Base] is the invariant of the worlds of Launch.v, kept by every effect of
    every handler, so that it also holds wherever a process dies.  [good] adds
    what a handler of one run may do to the index of intents: rows keep their
    identity, terminal rows stay terminal, rows of other runs stay as they are. *)

From S2P Require Import Prelude GoStrings GoTime Capability CapabilityStore Sandbox LaunchIntents Process Docker Launch.
Open Scope string_scope.
Open Scope list_scope.
Open Scope Z_scope.

Section Safety.
Context {D : Type} `{Eng : DockerEngine D} `{Svc : Service} `{L : !DockerLaws parse_time}.
Implicit Types (w : world D) (d : D) (t : list intent_row) (r : intent_row) (m : RunMetadata) (i : RunIdentity).

(** ** Invariants *)

Record matches r i : Prop := {
  mt_principal : r_principal r = Principal i; mt_profile : r_profile r = Profile i;
  mt_digest : r_key_digest r = IdempotencyKeyDigest i;
  mt_fingerprint : r_request_fingerprint r = RequestFingerprint i; mt_run : r_run_id r = RunID i }.

(** A run's container exists, and was started if the run is running. *)
Definition started d (c : string) : Prop := (1 ≤ d_starts d c)%nat.
Definition known d m : Prop :=
  (m_ContainerID m = "" ∨ d_created d (m_ContainerID m)) ∧
  (m_Status m = StatusRunning → d_created d (m_ContainerID m) ∧ started d (m_ContainerID m)).
(** What the engine never undoes. *)
Definition eng_mono d d' : Prop :=
  (∀ c, d_created d c → d_created d' c) ∧
  (∀ c, d_created d c → (d_starts d c ≤ d_starts d' c)%nat).

(** The states of an intent whose run may be running. *)
Definition settled (st : string) : Prop := st = intentStateRunning ∨ st = intentStateTerminal.

(** An intent read from a row speaks of the row's run and of an existing container. *)
Definition row_ok d r : Prop := ∀ x, decodeLaunchIntent r = Ok x →
  matches r (m_run (it_Metadata x)) ∧ known d (it_Metadata x) ∧
  (has_container (r_state r) = true → d_created d (m_ContainerID (it_Metadata x))) ∧
  (m_Status (it_Metadata x) = StatusRunning → settled (r_state r)).

Definition has_row t i : Prop := ∃ r, r ∈ t ∧ matches r i.
Definition active t i : Prop := ∃ r, r ∈ t ∧ matches r i ∧ nonterminal r = true.
(** Every run on disk or in memory has its row. *)
Definition meta_ok d t (id : string) m : Prop :=
  m_RunID m = id ∧ known d m ∧ has_row t (m_run m).
Definition key_of r : string * string * string := (r_principal r, r_profile r, r_key_digest r).

Definition bounded t : Prop := ∀ p max,
  MaxConcurrentRuns cfg !! p = Some max → 0 < max → Z.of_nat (count_active p t) ≤ max.

Record Base w : Prop := {
  b_starts : ∀ id, (d_starts (w_engine w) id ≤ 1)%nat;
  b_rows : ∀ r, r ∈ w_intents w → row_ok (w_engine w) r;
  b_runs_nodup : NoDup (map r_run_id (w_intents w));
  b_keys_nodup : NoDup (map key_of (w_intents w));
  b_files : ∀ id m, w_files w !! id = Some m → meta_ok (w_engine w) (w_intents w) id m;
  b_runs : ∀ id m, w_runs w !! id = Some m → meta_ok (w_engine w) (w_intents w) id m;
  b_active : bounded (w_intents w) }.

Record same_id r r' : Prop := {
  si_key : key_of r' = key_of r; si_fingerprint : r_request_fingerprint r' = r_request_fingerprint r;
  si_run : r_run_id r' = r_run_id r }.

Definition rows_le t t' : Prop := ∀ r, r ∈ t → ∃ r', r' ∈ t' ∧ same_id r r' ∧ (nonterminal r' = true → nonterminal r = true).
Definition others (id : string) t t' : Prop := ∀ r, r ∈ t → r_run_id r ≠ id → r ∈ t'.

Definition good t0 id w : Prop := Base w ∧ rows_le t0 (w_intents w) ∧ others id t0 (w_intents w).

(** ** Rows *)

Lemma same_id_refl r : same_id r r.
Proof. by split. Qed.

Lemma same_id_trans r r' r'' : same_id r r' → same_id r' r'' → same_id r r''.
Proof. intros [] []. split; congruence. Qed.

Lemma rows_le_refl t : rows_le t t.
Proof. intros r Hr. exists r. eauto using same_id_refl. Qed.

Lemma rows_le_trans t t' t'' : rows_le t t' → rows_le t' t'' → rows_le t t''.
Proof.
  intros H1 H2 r (r' & Hr' & Hs & Ht)%H1. apply H2 in Hr' as (r'' & Hr'' & Hs' & Ht').
  exists r''. split_and!; [done|by eapply same_id_trans|auto].
Qed.

Lemma others_trans id t t' t'' : others id t t' → others id t' t'' → others id t t''.
Proof. intros H1 H2 r Hr Hn. by apply H2, Hn; apply H1. Qed.

Lemma rows_le_app t t' : rows_le t (t ++ t').
Proof. intros r Hr. exists r. split; [apply elem_of_app; by left|]. eauto using same_id_refl. Qed.

Lemma matches_same r r' i : same_id r r' → matches r i → matches r' i.
Proof. intros [Hk Hf Hr] []. unfold key_of in Hk. simplify_eq. split; congruence. Qed.

Lemma has_row_le t t' i : rows_le t t' → has_row t i → has_row t' i.
Proof. intros Hle (r & (r' & Hr' & Hs & _)%Hle & Hm). exists r'. eauto using matches_same. Qed.

Lemma eng_mono_refl d : eng_mono d d.
Proof. by split. Qed.

Lemma known_mono d d' m : eng_mono d d' → known d m → known d' m.
Proof.
  intros [Hc Hs] [He Hr]. split; [destruct He; auto|]. intros [Hcr Hst]%Hr. split; [auto|].
  unfold started in *. specialize (Hs _ Hcr). lia.
Qed.

Lemma meta_ok_le d d' t t' id m : eng_mono d d' → rows_le t t' → meta_ok d t id m → meta_ok d' t' id m.
Proof. intros Hc Hle (? & ? & ?). split_and!; eauto using known_mono, has_row_le. Qed.

Lemma nodup_map {A B} (f : A → B) (l : list A) x y :
  NoDup (map f l) → x ∈ l → y ∈ l → f x = f y → x = y.
Proof.
  induction l as [|a l IH]; [intros _ []%elem_of_nil|]. cbn. intros [Ha Hl]%NoDup_cons.
  intros [->|Hx]%elem_of_cons [->|Hy]%elem_of_cons Hf; [done| | |by apply IH].
  - destruct Ha. rewrite Hf. by apply list_elem_of_fmap_2.
  - destruct Ha. rewrite <- Hf. by apply list_elem_of_fmap_2.
Qed.

Lemma elem_of_update id f t r :
  r ∈ update_run id f t → ∃ r0, r0 ∈ t ∧ (r_run_id r0 = id ∧ r = f r0 ∨ r_run_id r0 ≠ id ∧ r = r0).
Proof.
  intros (r0 & -> & Hr)%list_elem_of_fmap. exists r0. split; [done|]. unfold has_run.
  destruct (String.eqb_spec (r_run_id r0) id); auto.
Qed.

Lemma update_elem id f t r :
  r ∈ t → (if has_run id r then f r else r) ∈ update_run id f t.
Proof. intros Hr. apply (list_elem_of_fmap_2 (λ r, if has_run id r then f r else r)), Hr. Qed.

(** What an update of one run's row must keep. *)
Definition keeps (f : intent_row → intent_row) r : Prop :=
  same_id r (f r) ∧ (nonterminal (f r) = true → nonterminal r = true).

Lemma update_map {B} (g : intent_row → B) id f t :
  (∀ r, r ∈ t → r_run_id r = id → g (f r) = g r) → map g (update_run id f t) = map g t.
Proof.
  intros Hg. unfold update_run. rewrite map_map. apply map_ext_in. intros r Hr%list_elem_of_In.
  unfold has_run. destruct (String.eqb_spec (r_run_id r) id); auto.
Qed.

Lemma count_active_update p id f t :
  (∀ r, r ∈ t → r_run_id r = id → keeps f r) → (count_active p (update_run id f t) ≤ count_active p t)%nat.
Proof.
  unfold count_active. induction t as [|r t IH]; intros Hk; [done|]. cbn.
  assert (active_in p (if has_run id r then f r else r) = true → active_in p r = true) as Ha.
  { unfold has_run. destruct (String.eqb_spec (r_run_id r) id) as [Hid|]; [|done].
    destruct (Hk r) as [[Hkey _ _] Hn]; [by left|done|]. unfold active_in. unfold key_of in Hkey. simplify_eq.
    intros [Hp Ht]%andb_true_iff. apply andb_true_iff. split; [|by apply Hn]. congruence. }
  specialize (IH (λ r' Hr', Hk r' (list_elem_of_further _ _ _ Hr'))). unfold update_run in IH.
  destruct (active_in p (if has_run id r then f r else r)), (active_in p r); cbn; lia.
Qed.

Lemma update_rows_le id f t : (∀ r, r ∈ t → r_run_id r = id → keeps f r) → rows_le t (update_run id f t).
Proof.
  intros Hk r Hr. eexists. split; [by apply update_elem|]. unfold has_run.
  destruct (String.eqb_spec (r_run_id r) id); [by apply Hk|eauto using same_id_refl].
Qed.

Lemma update_others id f t : others id t (update_run id f t).
Proof.
  intros r Hr Hn. assert (has_run id r = false) as Hf by by apply String.eqb_neq.
  pose proof (update_elem id f t r Hr) as Hu. by rewrite Hf in Hu.
Qed.

Lemma update_good t0 id w f :
  good t0 id w →
  (∀ r, r ∈ w_intents w → r_run_id r = id → keeps f r ∧ row_ok (w_engine w) (f r)) →
  good t0 id (set_intents (update_run id f (w_intents w)) w) ∧
  rows_le (w_intents w) (update_run id f (w_intents w)).
Proof.
  intros ([] & Hle & Ho) Hf.
  assert (∀ r, r ∈ w_intents w → r_run_id r = id → keeps f r) as Hk by (intros; by apply Hf).
  pose proof (update_rows_le id f _ Hk) as Hul. split; [|done].
  split_and!; [|by eapply rows_le_trans|by eapply others_trans, update_others].
  split; cbn; [done| | | | | |].
  - intros r (r0 & Hr0 & [[? ->]|[? ->]])%elem_of_update; [by apply Hf|auto].
  - rewrite update_map; [done|]. intros r Hr Hid. by destruct (Hk r Hr Hid) as [[] _].
  - rewrite update_map; [done|]. intros r Hr Hid. by destruct (Hk r Hr Hid) as [[] _].
  - intros id' m Hm%b_files0. by apply (meta_ok_le (w_engine w) _ (w_intents w)).
  - intros id' m Hm%b_runs0. by apply (meta_ok_le (w_engine w) _ (w_intents w)).
  - intros p max Hp Hmax. specialize (b_active0 p max Hp Hmax).
    pose proof (count_active_update p id f _ Hk). lia.
Qed.

(** ** Effects *)

Lemma good_base t0 id w : good t0 id w → Base w.
Proof. by intros []. Qed.

Lemma active_has t i : active t i → has_row t i.
Proof. intros (r & ? & ? & _). by exists r. Qed.

(** The row that stands for a run is the only one of its id. *)
Lemma row_unique w r i : Base w → has_row (w_intents w) i → r ∈ w_intents w → r_run_id r = RunID i → matches r i.
Proof.
  intros [] (r' & Hr' & Hm) Hr He.
  rewrite (nodup_map r_run_id _ r r' b_runs_nodup0 Hr Hr'); [done|]. by rewrite He, (mt_run _ _ Hm).
Qed.

Lemma active_unique w r i : Base w → active (w_intents w) i → r ∈ w_intents w → r_run_id r = RunID i → nonterminal r = true.
Proof.
  intros [] (r' & Hr' & Hm & Ht) Hr He.
  rewrite (nodup_map r_run_id _ r r' b_runs_nodup0 Hr Hr'); [done|]. by rewrite He, (mt_run _ _ Hm).
Qed.

(** An update that neither rows nor files nor containers nor memory notice. *)
Lemma good_caps t0 id w c : good t0 id w → good t0 id (set_caps c w).
Proof. intros ([] & ? & ?). by split. Qed.

Lemma good_result t0 id w k m : good t0 id w → good t0 id (set_result k m w).
Proof. intros ([] & ? & ?). by split. Qed.

Definition eng_le d d' : Prop := (∀ c, d_starts d' c = d_starts d c) ∧ (∀ c, d_created d c → d_created d' c).

Lemma good_created t0 id w d :
  good t0 id w → (∀ c, (d_starts d c ≤ 1)%nat) → eng_mono (w_engine w) d →
  good t0 id (set_engine d w).
Proof.
  intros ([] & ? & ?) Hs Hc. split_and!; [|done..]. split; cbn; try done.
  - intros r Hr x Hx. destruct (b_rows0 r Hr x Hx) as (? & ? & ? & ?). split_and!; [done|by eapply known_mono|intros; apply Hc; auto|done].
  - intros k m Hm%b_files0. by apply (meta_ok_le (w_engine w) _ (w_intents w)); [|apply rows_le_refl|].
  - intros k m Hm%b_runs0. by apply (meta_ok_le (w_engine w) _ (w_intents w)); [|apply rows_le_refl|].
Qed.

Lemma eng_le_mono d d' : eng_le d d' → eng_mono d d'.
Proof. intros [Hs Hc]. split; [done|]. intros c _. by rewrite Hs. Qed.

Lemma good_engine t0 id w d : good t0 id w → eng_le (w_engine w) d → good t0 id (set_engine d w).
Proof. intros Hg Hle. apply good_created; [done| |by apply eng_le_mono]. intros c. rewrite (proj1 Hle). apply Hg. Qed.

Lemma good_file t0 id w k m : good t0 id w → meta_ok (w_engine w) (w_intents w) k m → good t0 id (set_file k m w).
Proof.
  intros ([] & ? & ?) Hm. split_and!; [|done..]. split; cbn; try done.
  intros k' m'. destruct (decide (k' = k)) as [->|]; [rewrite lookup_insert_eq|rewrite lookup_insert_ne by done; apply b_files0].
  by intros [= <-].
Qed.

Lemma good_run t0 id w k m :
  good t0 id w → meta_ok (w_engine w) (w_intents w) k m → good t0 id (set_runs (<[k := m]> (w_runs w)) w).
Proof.
  intros ([] & ? & ?) Hm. split_and!; [|done..]. split; cbn; try done.
  intros k' m'. destruct (decide (k' = k)) as [->|]; [rewrite lookup_insert_eq|rewrite lookup_insert_ne by done; apply b_runs0].
  by intros [= <-].
Qed.

Lemma wp_save t0 id x st m (Q : result svc_error unit → world D → Prop) w :
  good t0 id w → it_RunID x = id → (id ≠ "" → m_RunID m = id → has_row (w_intents w) (m_run m)) →
  (st = intentStateTerminal ∨ active (w_intents w) (m_run m) ∧ m_RunID m = id) →
  known (w_engine w) m → (has_container st = true → d_created (w_engine w) (m_ContainerID m)) →
  (m_Status m = StatusRunning → settled st) →
  (∀ res t, good t0 id (set_intents t w) → rows_le (w_intents w) t →
     (st ≠ intentStateTerminal → active t (m_run m)) → Q res (set_intents t w)) →
  wp (good t0 id) (save (with_state x st m)) Q w.
Proof.
  intros Hg Hx Hrow Hact Hkn Hct Hset HQ. apply wp_effect; [done|]. intros k. unfold Save. cbn [it_RunID with_state].
  assert (set_intents (w_intents w) w = w) as Hw by by destruct w.
  destruct (fails (db_fault k) 0); cbn.
  { apply HQ; [by rewrite Hw|apply rows_le_refl|]. intros HS. by destruct Hact as [?|[? _]]. }
  rewrite Hx. pose proof (good_base _ _ _ Hg) as Hb.
  destruct (update_good t0 id w (set_saved (with_state x st m) (now k)) Hg) as [Hg' Hle].
  { intros r Hr Hid. split; [split|].
    - by split.
    - cbn. intros Ht. destruct Hact as [->|[Ha HR]]; [done|]. apply (active_unique w r (m_run m)); [done..|].
      by rewrite Hid.
    - intros y Hy. unfold decodeLaunchIntent in Hy. cbn in Hy. guards Hy. simplify_eq. cbn.
      bool_hyps. split_and!; [|done..]. rewrite Hid in *.
      assert (matches r (m_run m)) as [].
      { apply (row_unique w); [done|by apply Hrow|done|]. by rewrite Hid. }
      by split. }
  apply HQ; [done|done|]. intros HS. destruct Hact as [?|[Ha HR]]; [done|].
  destruct Ha as (r & Hr & Hm & Ht). exists (set_saved (with_state x st m) (now k) r).
  assert (has_run id r = true) as Hh. { apply String.eqb_eq. by rewrite (mt_run _ _ Hm). }
  pose proof (update_elem id (set_saved (with_state x st m) (now k)) _ _ Hr) as Hu. rewrite Hh in Hu.
  split_and!; [done|by destruct Hm; split|]. cbn. unfold nonterminal. cbn. by apply negb_true_iff, String.eqb_neq.
Qed.

Definition set_files (f : gmap string RunMetadata) w : world D :=
  {| w_intents := w_intents w; w_files := f; w_results := w_results w; w_engine := w_engine w;
     w_caps := w_caps w; w_runs := w_runs w |}.
Definition set_results (f : gmap string RunMetadata) w : world D :=
  {| w_intents := w_intents w; w_files := w_files w; w_results := f; w_engine := w_engine w;
     w_caps := w_caps w; w_runs := w_runs w |}.

Lemma set_engine_id w : set_engine (w_engine w) w = w.
Proof. by destruct w. Qed.

Lemma wp_saveMetadata t0 id m (Q : result svc_error unit → world D → Prop) w :
  good t0 id w → meta_ok (w_engine w) (w_intents w) id m →
  (isTerminalStatus (m_Status m) = true ∨ active (w_intents w) (m_run m)) →
  (∀ res t, good t0 id (set_intents t w) → rows_le (w_intents w) t →
     (isTerminalStatus (m_Status m) = false → active t (m_run m)) → Q res (set_intents t w)) →
  wp (good t0 id) (saveMetadata m) Q w.
Proof.
  intros Hg (HR & Hkn & Hrow) Hact HQ. apply wp_effect; [done|]. intros k. unfold SaveMetadata.
  assert (set_intents (w_intents w) w = w) as Hw by by destruct w.
  destruct (fails (db_fault k) 0); cbn.
  { apply HQ; [by rewrite Hw|apply rows_le_refl|]. intros HS. destruct Hact; [congruence|done]. }
  rewrite HR. pose proof (good_base _ _ _ Hg) as Hb.
  assert (isTerminalStatus (m_Status m) = false → metadata_state m ≠ intentStateTerminal) as Hst.
  { unfold metadata_state. intros ->. by destruct (m_Status m =? StatusWaitingExternal)%string. }
  assert (has_container (metadata_state m) = false) as Hc.
  { unfold metadata_state. destruct (isTerminalStatus (m_Status m)); [done|].
    by destruct (m_Status m =? StatusWaitingExternal)%string. }
  destruct (update_good t0 id w (set_metadata m (now k)) Hg) as [Hg' Hle].
  { intros r Hr Hid. assert (r_run_id r = RunID (m_run m)) as Hid' by (by rewrite Hid, <- HR).
    pose proof (row_unique w r _ Hb Hrow Hr Hid') as [].
    split; [split; [by split|]|].
    - intros Ht. destruct Hact as [Hte|Ha]; [|by eapply active_unique].
      unfold nonterminal in Ht. cbn in Ht. unfold metadata_state in Ht. by rewrite Hte in Ht.
    - intros y Hy. unfold decodeLaunchIntent in Hy. cbn in Hy. destruct (r_plan r); [|done]. guards Hy.
      simplify_eq. cbn. split_and!; [by split|done|intros HH; by rewrite HH in Hc|].
      intros Hrun. left. unfold metadata_state. by rewrite Hrun. }
  apply HQ; [done..|]. intros HS. destruct Hact as [?|(r & Hr & Hm & Ht)]; [congruence|].
  exists (set_metadata m (now k) r).
  assert (has_run id r = true) as Hh. { apply String.eqb_eq. by rewrite (mt_run _ _ Hm), <- HR. }
  pose proof (update_elem id (set_metadata m (now k)) _ _ Hr) as Hu. rewrite Hh in Hu.
  split_and!; [done|by destruct Hm; split|]. apply negb_true_iff, String.eqb_neq. by apply Hst.
Qed.

Lemma wp_writeFile t0 id m (Q : result svc_error unit → world D → Prop) w :
  good t0 id w → meta_ok (w_engine w) (w_intents w) (m_RunID m) m →
  (∀ res f, good t0 id (set_files f w) → Q res (set_files f w)) → wp (good t0 id) (writeMetadataFile m) Q w.
Proof.
  intros Hg Hm HQ. apply wp_effect; [done|]. intros k. destruct (file_fails k); cbn.
  - replace w with (set_files (w_files w) w) by by destruct w. apply HQ. by destruct w.
  - apply (HQ _ (<[m_RunID m := m]> (w_files w))). by apply good_file.
Qed.

Lemma wp_persist t0 id m (Q : result svc_error unit → world D → Prop) w :
  good t0 id w → (∀ res f, good t0 id (set_results f w) → Q res (set_results f w)) →
  wp (good t0 id) (persistTerminalResult m) Q w.
Proof.
  intros Hg HQ. apply wp_effect; [done|]. intros k. destruct (file_fails k); cbn.
  - replace w with (set_results (w_results w) w) by by destruct w. apply HQ. by destruct w.
  - apply (HQ _ (<[m_RunID m := m]> (w_results w))). by apply good_result.
Qed.

Lemma wp_remember t0 id m (Q : unit → world D → Prop) w :
  good t0 id w → meta_ok (w_engine w) (w_intents w) (m_RunID m) m →
  (∀ f, good t0 id (set_runs f w) → f !! m_RunID m = Some m → Q () (set_runs f w)) →
  wp (good t0 id) (remember m) Q w.
Proof. intros Hg Hm HQ. apply wp_poke, HQ; [by apply good_run|apply lookup_insert_eq]. Qed.

Lemma wp_clock I (Q : time → world D → Prop) w : (∀ x, Q x w) → wp I clock Q w.
Proof. intros HQ k. apply HQ. Qed.

Lemma wp_mint t0 id tmpl m (Q : result svc_error string → world D → Prop) w :
  good t0 id w → (∀ res c, good t0 id (set_caps c w) → Q res (set_caps c w)) →
  wp (good t0 id) (mintLaunchCapability tmpl m) Q w.
Proof.
  intros Hg HQ. assert (∀ res, Q res w) as HQ'.
  { intros res. replace w with (set_caps (w_caps w) w) by by destruct w. apply HQ. by destruct w. }
  unfold mintLaunchCapability. destruct (negb (mintsCapability tmpl)); [by apply wp_done|].
  destruct (negb has_capability_store); [by apply wp_done|].
  destruct (deriveCapabilityClaims tmpl (m_run m)) as [c|]; [|by apply wp_done].
  apply wp_effect; [done|]. intros k. destruct (Issue _ _ _ _ _ _ _) as [c' res]; cbn.
  apply HQ. by apply good_caps.
Qed.

Lemma wp_revoke t0 id h (Q : unit → world D → Prop) w :
  good t0 id w → (∀ c, good t0 id (set_caps c w) → Q () (set_caps c w)) →
  wp (good t0 id) (revokeLaunchCapability h) Q w.
Proof.
  intros Hg HQ. unfold revokeLaunchCapability. destruct (_ || _).
  - apply wp_done. replace w with (set_caps (w_caps w) w) by by destruct w. apply HQ. by destruct w.
  - apply wp_effect; [done|]. intros k. apply HQ. by apply good_caps.
Qed.

(** ** The engine *)

Lemma eng_le_refl d : eng_le d d.
Proof. by split. Qed.

Lemma eng_le_trans d d' d'' : eng_le d d' → eng_le d' d'' → eng_le d d''.
Proof. intros [H1 H2] [H3 H4]. split; [|auto]. intros c. by rewrite H3, H1. Qed.

(** One call of the engine that starts nothing. *)
Lemma wp_call {A} t0 id w (f : nat → D → D * A) (Q : A → D → Prop) d :
  good t0 id (set_engine d w) →
  (∀ k d c, d_starts (f k d).1 c = d_starts d c ∧ (d_created d c → d_created (f k d).1 c)) →
  (∀ k, good t0 id (set_engine (f k d).1 w) → eng_le d (f k d).1 → Q (f k d).2 (f k d).1) →
  wp (λ d, good t0 id (set_engine d w)) (effect dies f) Q d.
Proof.
  intros Hg Hf HQ. apply wp_effect; [done|]. intros k.
  assert (eng_le d (f k d).1) as Hle by (split; intros; by apply Hf).
  apply HQ; [|done]. by apply (good_engine t0 id (set_engine d w)).
Qed.

(** What an inspection of a known container shows. *)
Definition inspected d (cid : string) (res : result docker_error ContainerStatus) : Prop :=
  ∀ status, res = Ok status →
    (is_zero (st_StartedAt status) = true → d_starts d cid = 0%nat) ∧
    (is_zero (st_StartedAt status) = false ∨ st_Running status = true → started d cid).

Lemma wp_inspect_d t0 id w cid (Q : result docker_error ContainerStatus → D → Prop) d :
  good t0 id (set_engine d w) →
  (∀ res d', good t0 id (set_engine d' w) → eng_le d d' → (d_created d cid → inspected d' cid res) → Q res d') →
  wp (λ d, good t0 id (set_engine d w)) (Inspect dies parse_time cid) Q d.
Proof.
  intros Hg HQ. apply wp_try, wp_call; [done|intros; by apply inspect_frame|]. intros k Hg' Hle.
  destruct (e_inspect k d cid).2 as [out|x] eqn:E.
  - apply wp_done, HQ; [done..|]. intros Hc status [= <-].
    destruct (inspect_found _ _ _ _ _ E) as (_ & Hid & Hs & Hr). by rewrite (Hid Hc) in Hs, Hr.
  - by apply HQ.
Qed.

Lemma wp_inspect t0 id cid (Q : result docker_error ContainerStatus → world D → Prop) w :
  good t0 id w →
  (∀ res d, good t0 id (set_engine d w) → eng_le (w_engine w) d →
     (d_created (w_engine w) cid → inspected d cid res) → Q res (set_engine d w)) →
  wp (good t0 id) (inspect cid) Q w.
Proof. intros Hg HQ. by apply wp_zoom, wp_inspect_d; [rewrite set_engine_id|]. Qed.

Lemma wp_stop t0 id cid (Q : result docker_error unit → world D → Prop) w :
  good t0 id w →
  (∀ res d, good t0 id (set_engine d w) → eng_le (w_engine w) d → Q res (set_engine d w)) →
  wp (good t0 id) (stop cid) Q w.
Proof.
  intros Hg HQ. apply wp_zoom, wp_call; [by rewrite set_engine_id|intros; by apply stop_frame|]. intros k ??. by apply HQ.
Qed.

Lemma wp_wait t0 id cid (Q : result docker_error ContainerStatus → world D → Prop) w :
  good t0 id w →
  (∀ res d, good t0 id (set_engine d w) → eng_le (w_engine w) d → Q res (set_engine d w)) →
  wp (good t0 id) (docker (Wait dies parse_time cid)) Q w.
Proof.
  intros Hg HQ. apply wp_zoom, wp_try, wp_call; [by rewrite set_engine_id|intros; by apply wait_frame|]. intros k Hg' Hle.
  destruct (e_wait k (w_engine w) cid).2 as [code|x]; [|by apply HQ].
  apply wp_try, wp_inspect_d; [done|]. intros [status|x] d' Hg2 Hle2 _.
  - apply wp_done. apply HQ; [done|by eapply eng_le_trans].
  - apply HQ; [done|by eapply eng_le_trans].
Qed.

(** A container that was just created or adopted. *)
Definition lived d (c : string) (l : ContainerLifecycle) : Prop :=
  match l with ContainerNeverStarted => d_starts d c = 0%nat | _ => started d c end.
Definition made d (info : ContainerInfo) : Prop :=
  d_created d (ci_ID info) ∧ lived d (ci_ID info) (ci_Lifecycle info).

Lemma lifecycle_lived d c status :
  (is_zero (st_StartedAt status) = true → d_starts d c = 0%nat) →
  (is_zero (st_StartedAt status) = false ∨ st_Running status = true → started d c) →
  lived d c (lifecycle_of status).
Proof. intros Hz Hr. unfold lifecycle_of. destruct (is_zero _), (st_Running status); cbn; auto. Qed.

Lemma wp_create t0 id spec (Q : result backend_error ContainerInfo → world D → Prop) w :
  good t0 id w →
  (∀ res d, good t0 id (set_engine d w) → eng_le (w_engine w) d → (∀ info, res = Ok info → made d info) →
     Q res (set_engine d w)) →
  wp (good t0 id) (create spec) Q w.
Proof.
  intros Hg HQ. apply wp_zoom. unfold Docker.Create. set (spec' := with_labels _ _). cbv zeta.
  apply wp_andThen, wp_try, wp_call; [by rewrite set_engine_id|intros; by apply image_frame|]. intros k Hg1 Hle1.
  set (d1 := (e_image k (w_engine w) (sp_Image spec')).1) in *.
  assert (∀ digest platform, wp (λ v, good t0 id (set_engine v w))
    (match tmpfsOptions (sp_Tmpfs spec') (sp_User spec') with
     | None => done (Err BTmpfs)
     | Some tmpfs =>
       r <-! effect dies (λ k d, e_create k d (container_name (sp_RunID spec')) (create_request spec' tmpfs)) ;;
       match r with
       | Ok id => done (Ok {| ci_ID := id; ci_ImageDigest := digest; ci_Platform := platform; ci_Existing := false;
                              ci_Lifecycle := ContainerNeverStarted; ci_Status := no_status |})
       | Err e => if bool_decide (DockerStatusCode e = Some 409)
                  then adopt dies sha256_hex json_spec parse_time spec' else done (Err (BDocker e))
       end
     end) (λ a v, Q a (set_engine v w)) d1) as Hrest.
  { intros digest platform. destruct (tmpfsOptions _ _) as [tmpfs|]; [|by apply wp_done, HQ].
    apply wp_andThen, wp_call; [done|intros; by apply create_frame|]. intros k2 Hg2 Hle2.
    pose proof (eng_le_trans _ _ _ Hle1 Hle2) as Hle.
    destruct (e_create _ _ _ _).2 as [cid|x] eqn:E.
    - apply wp_done, HQ; [done..|]. intros info [= <-]. destruct (create_fresh _ _ _ _ _ _ E). by split.
    - destruct (bool_decide _); [|by apply wp_done, HQ].
      apply wp_andThen, wp_call; [done|intros; by apply inspect_frame|]. intros k3 Hg3 Hle3.
      pose proof (eng_le_trans _ _ _ Hle Hle3) as Hle'.
      destruct (e_inspect _ _ _).2 as [out|y] eqn:E3; [|by apply wp_done, HQ].
      cbv beta zeta. match goal with |- wp _ (if ?c then _ else _) _ _ => destruct c end; [by apply wp_done, HQ|].
      apply wp_done, HQ; [done..|].
      intros info [= <-]. destruct (inspect_found _ _ _ _ _ E3) as (Hc & _ & Hs & Hr). split; [done|].
      by apply lifecycle_lived. }
  destruct (e_image _ _ _).2 as [out|x]; [apply wp_done; destruct (img_RepoDigests out); [destruct (negb _)|]|]; apply Hrest.
Qed.

Lemma wp_start t0 id cid (Q : result docker_error unit → world D → Prop) w :
  good t0 id w → d_created (w_engine w) cid → d_starts (w_engine w) cid = 0%nat →
  (∀ res d, good t0 id (set_engine d w) → eng_mono (w_engine w) d → (res = Ok () → started d cid) →
     Q res (set_engine d w)) →
  wp (good t0 id) (start cid) Q w.
Proof.
  intros Hg Hc Hs HQ. apply wp_zoom, wp_effect; [by rewrite set_engine_id|]. intros k.
  pose proof (start_once _ k (w_engine w) cid) as Hone.
  assert (∀ c, d_created (w_engine w) c → c ≠ cid →
    d_starts (e_start k (w_engine w) cid).1 c = d_starts (w_engine w) c) as Ho by (intros; by apply start_other).
  assert (eng_mono (w_engine w) (e_start k (w_engine w) cid).1) as Hm.
  { split; [intros c; by apply start_frame|]. intros c Hcc.
    destruct (decide (c = cid)) as [->|]; [lia|]. by rewrite Ho. }
  apply HQ; [|done|apply start_done]. apply good_created; [done| |done]. intros c.
  destruct (decide (c = cid)) as [->|Hn]; [lia|].
  rewrite (start_other _ k (w_engine w) cid c Hc Hn). by destruct Hg as [[] _].
Qed.
End Safety.
