(* ===== verification/LaunchSafety.v ===== *)
(** * Durable launches: what holds across deaths and restarts

    The handlers of Launch.v keep the invariant of LaunchInvariant.v, so that it
    holds after every history of keyed launches, status polls, stops, watchers
    and restarts, whatever dies or fails in between. *)

From S2P Require Import Prelude GoStrings GoTime Sandbox LaunchIntents Process Docker Launch LaunchInvariant.
Open Scope string_scope.
Open Scope list_scope.
Open Scope Z_scope.

Section Handlers.
Context {D : Type} `{Eng : DockerEngine D} `{Svc : Service} `{L : !DockerLaws parse_time}.
Implicit Types (w : world D) (d : D) (t : list intent_row) (r : intent_row) (m : RunMetadata) (i : RunIdentity).

(** ** Looking up and finalizing runs *)

Lemma wp_lookupRun t0 id rid (Q : result svc_error RunMetadata → world D → Prop) w :
  good t0 id w →
  (∀ res f, good t0 id (set_runs f w) →
     (∀ m, res = Ok m → f !! rid = Some m ∧ meta_ok (w_engine w) (w_intents w) rid m ∧
        (∀ m0, w_runs w !! rid = Some m0 → m = m0)) → Q res (set_runs f w)) →
  wp (good t0 id) (lookupRun rid) Q w.
Proof.
  intros Hg HQ. assert (∀ x, Q (Err x) w) as HE.
  { intros x. replace w with (set_runs (w_runs w) w) by by destruct w. apply HQ; [by destruct w|done]. }
  unfold lookupRun. destruct (negb (safeRunID rid)); [by apply wp_done|].
  apply wp_andThen, wp_peek. pose proof Hg as [[] _]. destruct (w_runs w !! rid) as [m|] eqn:Er.
  - apply wp_done. replace w with (set_runs (w_runs w) w) by by destruct w. apply HQ; [by destruct w|].
    intros m' [= <-]. split_and!; [done|by apply b_runs|congruence].
  - apply wp_try, wp_effect; [done|]. intros k. cbn. destruct (file_fails k); [done|].
    destruct (w_files w !! rid) as [m|] eqn:Ef; [|done].
    apply wp_andThen, wp_poke, wp_done. apply HQ; [by apply good_run, b_files|].
    intros m' [= <-]. split_and!; [apply lookup_insert_eq|by apply b_files|congruence].
Qed.

(** What finalization may ask an update for: it keeps the run and its container
    and leaves the run running or ends it. *)
Definition ends m m' : Prop :=
  m_run m' = m_run m ∧ m_ContainerID m' = m_ContainerID m ∧
  (m_Status m = StatusRunning → m_Status m' = StatusRunning ∨ isTerminalStatus (m_Status m') = true).

Definition update_ok t0 id (u : RunMetadata → prog (world D) (RunMetadata * option svc_error)) : Prop :=
  ∀ m w Q, good t0 id w →
    (∀ next cap d, good t0 id (set_engine d w) → eng_le (w_engine w) d → ends m next →
       Q (next, cap) (set_engine d w)) → wp (good t0 id) (u m) Q w.

Lemma finalizeExitedRun_ends x m status : ends m (finalizeExitedRun x m status).
Proof using Type. split_and!; [done..|]. intros _. right. cbn. by destruct (bool_decide _). Qed.

Lemma exited_update_ok t0 id status :
  update_ok t0 id (λ m, x <-! clock ;; done (finalizeExitedRun x m status, None)).
Proof.
  intros m w Q Hg HQ. apply wp_andThen, wp_clock. intros x. apply wp_done. rewrite <- (set_engine_id w).
  apply HQ; [by rewrite set_engine_id|apply eng_le_refl|apply finalizeExitedRun_ends].
Qed.

Lemma missing_update_ok t0 id :
  update_ok t0 id (λ c, x <-! clock ;;
    done (ended c StatusFailed (m_FinalizeReason c) terminalSourceStartupFailure (m_ExitCode c) x, None)).
Proof.
  intros m w Q Hg HQ. apply wp_andThen, wp_clock. intros x. apply wp_done. rewrite <- (set_engine_id w).
  apply HQ; [by rewrite set_engine_id|apply eng_le_refl|]. split_and!; [done..|]. by right.
Qed.

Lemma markTimedOut_ok t0 id : update_ok t0 id markTimedOut.
Proof.
  intros m w Q Hg HQ. unfold markTimedOut. cbv zeta.
  assert (∀ reason exit d, good t0 id (set_engine d w) → eng_le (w_engine w) d →
    wp (good t0 id) (x <-! clock ;;
      done (ended m StatusTimedOut (if (reason =? "")%string then finalizeReasonDeadline else reason)
              terminalSourceTimedOut exit x, None)) Q (set_engine d w)) as Ht.
  { intros reason exit d Hd Hle. apply wp_andThen, wp_clock. intros x. apply wp_done, HQ; [done..|].
    split_and!; [done..|]. by right. }
  assert (∀ reason status d, good t0 id (set_engine d w) → eng_le (w_engine w) d →
    wp (good t0 id) (x <-! clock ;;
      done (finalizeExitedRun x (ended m (m_Status m) reason (m_TerminalSource m) (m_ExitCode m) (m_EndedAt m)) status,
            None)) Q (set_engine d w)) as He.
  { intros reason status d Hd Hle. apply wp_andThen, wp_clock. intros x. apply wp_done, HQ; [done..|].
    destruct (finalizeExitedRun_ends x (ended m (m_Status m) reason (m_TerminalSource m) (m_ExitCode m) (m_EndedAt m)) status)
      as (? & ? & ?). by split_and!. }
  destruct (m_ContainerID m =? "")%string.
  { rewrite <- (set_engine_id w) in Hg |- * at 1. rewrite <- (set_engine_id w). apply Ht; [done|apply eng_le_refl]. }
  apply wp_andThen, wp_inspect; [done|]. intros res d1 Hg1 Hle1 _.
  destruct (exited_status res); [by apply He|].
  apply wp_andThen, wp_stop; [done|]. intros res2 d2 Hg2 Hle2.
  assert (eng_le (w_engine w) d2) as Hle by by eapply eng_le_trans.
  destruct res2 as [[]|x].
  - apply wp_andThen, wp_inspect; [done|]. intros res3 d3 Hg3 Hle3 _.
    apply Ht; [done|by eapply eng_le_trans].
  - apply wp_andThen. destruct (bool_decide _).
    + apply wp_andThen, wp_inspect; [done|]. intros res3 d3 Hg3 Hle3 _. apply wp_done.
      destruct (exited_status res3); [apply He|apply Ht]; (try done); by eapply eng_le_trans.
    + by apply wp_done, Ht.
Qed.

Lemma stop_update_ok t0 id : update_ok t0 id stop_update.
Proof.
  intros m w Q Hg HQ. unfold stop_update. cbv zeta.
  assert (∀ exit ended_at d, good t0 id (set_engine d w) → eng_le (w_engine w) d →
    wp (good t0 id) (x <-! clock ;;
      done (ended m StatusStopped finalizeReasonManualStop terminalSourceManualStop exit
              (if is_zero ended_at then x else ended_at), None)) Q (set_engine d w)) as Ht.
  { intros exit ended_at d Hd Hle. apply wp_andThen, wp_clock. intros x. apply wp_done, HQ; [done..|].
    split_and!; [done..|]. by right. }
  destruct (m_ContainerID m =? "")%string.
  { rewrite <- (set_engine_id w). apply Ht; [by rewrite set_engine_id|apply eng_le_refl]. }
  apply wp_andThen, wp_stop; [done|]. intros [[]|x] d1 Hg1 Hle1.
  - apply wp_andThen, wp_inspect; [done|]. intros res d2 Hg2 Hle2 _.
    assert (eng_le (w_engine w) d2) as Hle by by eapply eng_le_trans.
    destruct res as [[? ? [c|] ? ?]|]; by apply Ht.
  - apply wp_done, HQ; [done..|]. split_and!; [done..|]. by left.
Qed.

(** The result of a finalization: nothing found, or the run it was asked for. *)
Definition finalized_ok w id (f : finalized) w' : Prop :=
  f_meta f = no_metadata ∧ f_err f ≠ None ∨
  meta_ok (w_engine w') (w_intents w') id (f_meta f) ∧
  (∀ m0, w_runs w !! id = Some m0 → m_run (f_meta f) = m_run m0).

Lemma wp_finalize t0 id reason source u (Q : finalized → world D → Prop) w :
  good t0 id w → update_ok t0 id u →
  (∀ f w', good t0 id w' → finalized_ok w id f w' → eng_le (w_engine w) (w_engine w') →
     rows_le (w_intents w) (w_intents w') → Q f w') →
  wp (good t0 id) (finalizeTerminalRun id reason source u) Q w.
Proof.
  intros Hg Hu HQ. apply wp_andThen, wp_lookupRun; [done|]. intros [m|x] f1 Hg1 Hm.
  2: { apply wp_done, HQ; [done|by left|apply eng_le_refl|apply rows_le_refl]. }
  destruct (Hm m eq_refl) as (Hf1 & Hok & Hold).
  destruct (negb (m_Status m =? StatusRunning)%string) eqn:Erun.
  { apply wp_done, HQ; [done| |apply eng_le_refl|apply rows_le_refl]. right. split; [done|].
    intros m0 Hm0. by rewrite (Hold m0 Hm0). }
  bool_hyps. apply wp_andThen, Hu; [done|]. intros next cap d Hg2 Hle (Hr & Hc & Hs).
  assert (meta_ok d (w_intents w) id next) as Hok'.
  { destruct Hok as (HR & Hk & Hrow). apply (known_mono _ _ _ (eng_le_mono _ _ Hle)) in Hk.
    unfold meta_ok, m_RunID, known in *. rewrite Hr, Hc. split_and!; [done|apply Hk| |done].
    intros _. by apply Hk. }
  assert (∀ m0, w_runs w !! id = Some m0 → m_run next = m_run m0) as Hold'.
  { intros m0 Hm0. by rewrite Hr, (Hold m0 Hm0). }
  destruct (m_Status next =? StatusRunning)%string eqn:En.
  { apply wp_done, HQ; [done|by right|done|apply rows_le_refl]. }
  bool_hyps. destruct (Hs Erun) as [?|Hterm]; [done|].
  set (next' := terminal_update next reason source). cbv zeta.
  assert (meta_ok d (w_intents w) id next') as Hok2 by by destruct Hok' as (? & ? & ?).
  apply wp_andThen, wp_persist; [done|]. intros res f2 Hg3. destruct res as [[]|x].
  2: { apply wp_done, HQ; [done|by right|done|apply rows_le_refl]. }
  apply wp_andThen, wp_peek. cbn. rewrite Hf1. rewrite Erun, String.eqb_refl. cbn.
  apply wp_andThen, wp_poke. pose proof (good_run _ _ _ id next' Hg3 Hok2) as Hg4.
  apply wp_andThen, wp_try. apply wp_writeFile; [done|by destruct Hok2 as (-> & _)|]. intros res f3 Hg5.
  destruct res as [[]|x].
  - apply wp_saveMetadata; [done|done|by left|]. intros res t Hg6 Hle6 _. apply wp_done, HQ; [done| |done|done].
    right. split; [|done]. eapply meta_ok_le; [|done|done]. done.
  - apply wp_done, HQ; [done| |done|apply rows_le_refl]. by right.
Qed.

(** ** Resuming an intent *)

Definition answers (id : string) (res : result svc_error LaunchAgentOutput) : Prop :=
  ∀ out, res = Ok out → out_RunID out = id.
Definition answered t0 id (res : result svc_error LaunchAgentOutput) w : Prop := good t0 id w ∧ answers id res.

Lemma answered_err t0 id x w : good t0 id w → answered t0 id (Err x) w.
Proof. by split. Qed.

Definition of_run t id m : Prop := m_RunID m = id ∧ active t (m_run m).

Lemma of_run_meta_ok d t id m : of_run t id m → known d m → meta_ok d t id m.
Proof. intros [? ?%active_has] ?. by split_and!. Qed.

Lemma of_run_has t id m : of_run t id m → id ≠ "" → m_RunID m = id → has_row t (m_run m).
Proof. intros [_ ?%active_has]. done. Qed.

Lemma wp_writeMetadata t0 id m (Q : result svc_error unit → world D → Prop) w :
  good t0 id w → meta_ok (w_engine w) (w_intents w) id m →
  (isTerminalStatus (m_Status m) = true ∨ active (w_intents w) (m_run m)) →
  (∀ res w', good t0 id w' → rows_le (w_intents w) (w_intents w') → w_engine w' = w_engine w → Q res w') →
  wp (good t0 id) (writeMetadata m) Q w.
Proof.
  intros Hg Hok Hact HQ. apply wp_try, wp_writeFile; [done|by rewrite (proj1 Hok)|]. intros [[]|x] f Hg1.
  2: { by apply HQ; [|apply rows_le_refl|]. }
  apply wp_try, wp_saveMetadata; [done|done|done|]. intros [[]|x] t Hg2 Hle _; [|by apply HQ].
  assert (meta_ok (w_engine w) t id m) as Hok' by by eapply meta_ok_le.
  apply wp_andThen, wp_remember; [done|by rewrite (proj1 Hok)|]. intros f' Hg3 _. by apply wp_done, HQ.
Qed.

(** The container of a running run. *)
Definition runs d m : Prop := d_created d (m_ContainerID m) ∧ started d (m_ContainerID m).

Lemma runs_known d m : runs d m → known d (with_status m StatusRunning).
Proof. intros []. by split; [right|]. Qed.

Lemma wp_commitRunning t0 id x m w :
  good t0 id w → it_RunID x = id → of_run (w_intents w) id m → runs (w_engine w) m →
  wp (good t0 id) (commitRunningIntent x m) (answered t0 id) w.
Proof.
  intros Hg Hx Hm Hk%runs_known. pose proof Hm as [HR Ha]. unfold commitRunningIntent. cbv zeta.
  apply wp_try, wp_save; [done|done|by apply (of_run_has _ _ m)|by right|done|done|by left|].
  intros [[]|y] t Hg1 Hle Ha1.
  2: by apply answered_err.
  specialize (Ha1 ltac:(done)). assert (of_run t id (with_status m StatusRunning)) as Hm1 by by split.
  apply wp_try, wp_writeMetadata; [done|by apply of_run_meta_ok|by right|]. intros [[]|y] w' Hg2 _ _; [|by apply answered_err].
  apply wp_done. split; [done|]. by intros out [= <-].
Qed.

Lemma wp_finalizeExited t0 id reason status (Q : finalized → world D → Prop) w :
  good t0 id w →
  (∀ f w', good t0 id w' → finalized_ok w id f w' → Q f w') →
  wp (good t0 id) (finalizeExited id reason status) Q w.
Proof. intros Hg HQ. apply wp_finalize; [done|apply exited_update_ok|]. intros f w' ? ? ? ?. by apply HQ. Qed.

Lemma wp_commitExited t0 id x m status w :
  good t0 id w → it_RunID x = id → of_run (w_intents w) id m → runs (w_engine w) m →
  wp (good t0 id) (commitExitedIntent x m status) (answered t0 id) w.
Proof.
  intros Hg Hx [HR Ha] Hk%runs_known. unfold commitExitedIntent. cbv zeta.
  change (m_RunID (with_status m StatusRunning)) with (m_RunID m).
  apply wp_andThen, wp_remember; [done|split_and!; [done|done|by apply active_has]|]. intros f Hg1 Hf.
  rewrite HR. apply wp_andThen, wp_finalizeExited; [done|]. intros res w' Hg2 Hok.
  apply wp_andThen, wp_save; [done|done| |by left| |done|by right|].
  - intros Hne Hid. destruct Hok as [[E _]|[(_ & _ & Hrow) _]]; [|done]. by rewrite E in Hid.
  - destruct Hok as [[-> _]|[(_ & ? & _) _]]; [by split; [left|]|done].
  - intros r t Hg3 Hle _. apply wp_done. split; [done|]. intros out Ho.
    destruct (f_err res) as [y|] eqn:Ee; [done|]. destruct r; [|done]. simplify_eq. cbn.
    by destruct Hok as [[_ ?]|[(? & _) _]].
Qed.

Lemma wp_startupFailure t0 id x m reason w :
  good t0 id w → it_RunID x = id → of_run (w_intents w) id m →
  m_ContainerID m = "" ∨ d_created (w_engine w) (m_ContainerID m) →
  wp (good t0 id) (commitStartupFailureIntent x m reason) (answered t0 id) w.
Proof.
  intros Hg Hx [HR Ha] Hk. apply wp_andThen, wp_clock. intros at_. cbv zeta.
  set (m' := startup_failure m reason at_). pose proof (active_has _ _ Ha) as Hrow.
  assert (∀ d, m_ContainerID m = "" ∨ d_created d (m_ContainerID m) → known d m') as Hm' by by split.
  apply Hm' in Hk.
  apply wp_try, wp_persist; [done|]. intros [[]|y] f Hg1; [|by apply answered_err].
  apply wp_try, wp_writeMetadata; [done|by split_and!|by left|]. intros [[]|y] w2 Hg2 Hle2 He2; [|by apply answered_err].
  pose proof (has_row_le _ _ _ Hle2 Hrow) as Hrow2.
  assert (known (w_engine w2) m') as Hk2 by by rewrite He2.
  apply wp_try, wp_save; [done|done|by intros|by left|done|done|by right|].
  intros [[]|y] t Hg3 Hle3 _; [|by apply answered_err].
  apply wp_andThen, wp_remember; [done|split_and!; [done|done|by eapply has_row_le]|]. intros f' Hg4 _. apply wp_done. split; [done|].
  by intros out [= <-].
Qed.

Lemma known_created d m : d_created d (m_ContainerID m) → m_Status m ≠ StatusRunning → known d m.
Proof. by split; [right|]. Qed.

Lemma wp_start_container t0 id x m info h w :
  good t0 id w → it_RunID x = id → of_run (w_intents w) id m → m_Status m ≠ StatusRunning →
  d_created (w_engine w) (m_ContainerID m) → lived (w_engine w) (m_ContainerID m) (ci_Lifecycle info) →
  wp (good t0 id) (start_container x m info h) (answered t0 id) w.
Proof.
  intros Hg Hx Hm Hpend Hc Hl. unfold start_container. destruct (ci_Lifecycle info).
  2: by apply wp_commitRunning.
  2: by apply wp_commitExited.
  apply wp_try, wp_save; [done|done|by apply (of_run_has _ _ m)|right; by destruct Hm|by apply known_created|done|done|].
  intros [[]|y] t Hg1 Hle Ha; [|by apply answered_err].
  assert (of_run t id m) as Hm1 by (split; [by destruct Hm|by apply Ha]).
  apply wp_andThen, wp_start; [done|done|done|]. intros res d Hg2 [Hmono _] Hst.
  assert (d_created d (m_ContainerID m)) as Hc2 by by apply Hmono.
  destruct res as [[]|y]; [apply wp_commitRunning; [done..|split; auto]|].
  apply wp_andThen, wp_inspect; [done|]. intros res d3 Hg3 Hle3 Hin.
  assert (d_created d3 (m_ContainerID m)) as Hc3 by by apply Hle3. specialize (Hin Hc2).
  assert (wp (good t0 id) (_ <-! revokeLaunchCapability h ;; commitStartupFailureIntent x m finalizeReasonLaunchStartFailed)
             (answered t0 id) (set_engine d3 (set_engine d (set_intents t w)))) as Hfail.
  { apply wp_andThen, wp_revoke; [done|]. intros c Hg4. apply wp_startupFailure; [done..|by right]. }
  destruct res as [status|]; [|done]. destruct (Hin status eq_refl) as [_ Hrun].
  destruct (st_Running status); [apply wp_commitRunning; [done..|split; auto]|].
  destruct (is_zero _) eqn:Ez; [done|]. apply wp_commitExited; [done..|split; auto].
Qed.

(** An intent as it is read from the index or was just created. *)
Record resumable d t (x : launchIntent) : Prop := {
  rs_run : m_RunID (it_Metadata x) = it_RunID x;
  rs_known : known d (it_Metadata x);
  rs_has : has_row t (m_run (it_Metadata x));
  rs_active : it_State x ≠ intentStateTerminal → active t (m_run (it_Metadata x));
  rs_created : has_container (it_State x) = true → d_created d (m_ContainerID (it_Metadata x));
  rs_settled : m_Status (it_Metadata x) = StatusRunning → settled (it_State x) }.

Lemma wp_resume_running t0 id m w :
  good t0 id w → meta_ok (w_engine w) (w_intents w) id m →
  wp (good t0 id) (resume_running m) (answered t0 id) w.
Proof.
  intros Hg Hok. pose proof Hok as (HR & _). apply wp_andThen, wp_remember; [done|by rewrite HR|].
  intros f Hg1 Hf. assert (answers id (Ok (launchOutput m))) as Hans by by intros out [= <-].
  destruct (m_ContainerID m =? "")%string; [by apply wp_done|].
  apply wp_andThen, wp_inspect; [done|]. intros [status|y] d Hg2 Hle _; [|by apply wp_done, answered_err].
  destruct (negb _); [|by apply wp_done].
  rewrite HR. apply wp_andThen, wp_finalizeExited; [done|]. intros res w' Hg3 Hfin. apply wp_done.
  destruct (f_err res) eqn:Ee; [by apply answered_err|]. split; [done|]. intros out [= <-].
  by destruct Hfin as [[_ ?]|[(? & _) _]].
Qed.

Lemma wp_resume t0 x w :
  good t0 (it_RunID x) w → resumable (w_engine w) (w_intents w) x →
  wp (good t0 (it_RunID x)) (resumeLaunchIntent x) (answered t0 (it_RunID x)) w.
Proof.
  intros Hg []. unfold resumeLaunchIntent. cbv zeta. set (m := it_Metadata x) in *. set (id := it_RunID x) in *.
  destruct (negb (_ =? _)%string); [by apply wp_done, answered_err|].
  assert (answers id (Ok (launchOutput m))) as Hans by by intros out [= <-].
  destruct (isTerminalStatus (m_Status m) || _) eqn:Et; [by apply wp_done|]. apply orb_false_iff in Et as [_ Et].
  apply String.eqb_neq in Et. specialize (rs_active0 Et). fold m in rs_active0.
  assert (of_run (w_intents w) id m) as Hm by done.
  destruct (Templates cfg !! _) as [tmpl|]; [|by apply wp_done, answered_err].
  destruct (it_State x =? intentStateRunning)%string eqn:Erun; [by apply wp_resume_running, of_run_meta_ok|].
  apply String.eqb_neq in Erun.
  assert (m_Status m ≠ StatusRunning) as Hpend by by intros [?|?]%rs_settled0.
  apply wp_try. unfold prepareDurableRun. apply wp_try, wp_effect; [done|]. intros k. cbn.
  destruct (file_fails k); [by apply answered_err|].
  apply wp_writeFile; [done|rewrite rs_run0; by apply of_run_meta_ok|]. intros [[]|y] f Hg1; [|by apply answered_err].
  apply wp_try.
  assert (∀ res c, good t0 id (set_caps c (set_files f w)) →
    match res with
    | Ok h => wp (good t0 id)
        (match runtimeSpec cfg (m_run m) tmpl h with
         | None => _ <-! revokeLaunchCapability h ;; done (Err EBundle)
         | Some spec =>
           if has_container (it_State x) then
             r <-! inspect (m_ContainerID m) ;;
             match r with
             | Err x => done (Err (EInspect x))
             | Ok status => start_container x m
                 {| ci_ID := m_ContainerID m; ci_ImageDigest := m_ImageDigest m; ci_Platform := ""; ci_Existing := true;
                    ci_Lifecycle := lifecycle_of status; ci_Status := status |} h
             end
           else
             r <-! save (with_state x intentStateCreatePending m) ;;
             match r with
             | Err x => _ <-! revokeLaunchCapability h ;; done (Err x)
             | Ok _ =>
               r <-! create spec ;;
               match r with
               | Err y => _ <-! revokeLaunchCapability h ;;
                          commitStartupFailureIntent x m finalizeReasonLaunchCreateFailed
               | Ok info =>
                 let m := with_container m (ci_ID info) (ci_ImageDigest info) in
                 _ <-? save (with_state x intentStateContainerMade m) ;;
                 start_container x m info h
               end
             end
         end) (answered t0 id) (set_caps c (set_files f w))
    | Err y => answered t0 id (Err y) (set_caps c (set_files f w))
    end) as Hrest.
  { intros [h|y] c Hg2; [|by apply answered_err].
    destruct (runtimeSpec cfg (m_run m) tmpl h) as [spec|].
    2: { apply wp_andThen, wp_revoke; [done|]. intros c' Hg3. by apply wp_done, answered_err. }
    destruct (has_container (it_State x)) eqn:Ec.
    { apply wp_andThen, wp_inspect; [done|]. intros [status|y] d Hg3 Hle Hin; [|by apply wp_done, answered_err].
      apply wp_start_container; [done..|by apply Hle, rs_created0|].
      destruct (Hin (rs_created0 eq_refl) status eq_refl). by apply lifecycle_lived. }
    apply wp_andThen, wp_save; [done|done|by apply (of_run_has _ _ m)|by right|done|done|done|].
    intros [[]|y] t Hg3 Hle Ha.
    2: { apply wp_andThen, wp_revoke; [done|]. intros c' Hg4. by apply wp_done, answered_err. }
    assert (active t (m_run m)) as Ha' by by apply Ha.
    apply wp_andThen, wp_create; [done|]. intros [info|y] d Hg4 Hle4 Hmade.
    - destruct (Hmade info eq_refl) as [Hc Hn]. cbv zeta. set (m' := with_container m _ _).
      assert (of_run t id m') as Hm' by done.
      apply wp_try, wp_save; [done|done|by apply (of_run_has _ _ m')|by right|by apply known_created|done|done|].
      intros [[]|y] t' Hg5 Hle5 Ha5; [|by apply answered_err].
      apply wp_start_container; [done|done| |done..]. split; [done|by apply Ha5].
    - apply wp_andThen, wp_revoke; [done|]. intros c' Hg5. apply wp_startupFailure; [done|done|done|].
      destruct rs_known0 as [[?|?] _]; [by left|right; by apply Hle4]. }
  destruct (negb (has_container _)); [by apply wp_mint|].
  apply wp_done. replace (set_files f w) with (set_caps (w_caps w) (set_files f w)) by by destruct w.
  by apply (Hrest (Ok "")).
Qed.

(** ** Launching under a key *)

Definition sound t0 w : Prop := Base w ∧ rows_le t0 (w_intents w).

Lemma good_start id w : Base w → good (w_intents w) id w.
Proof. intros Hb. split_and!; [done|apply rows_le_refl|by intros r Hr _]. Qed.

Lemma good_sound t0 id w w' : rows_le t0 (w_intents w) → good (w_intents w) id w' → sound t0 w'.
Proof. intros Hle (? & ? & _). split; [done|by eapply rows_le_trans]. Qed.

Lemma decode_fields r x : decodeLaunchIntent r = Ok x →
  it_State x = r_state r ∧ it_RunID x = r_run_id r ∧ m_RunID (it_Metadata x) = r_run_id r ∧
  it_RequestFingerprint x = r_request_fingerprint r.
Proof using Type.
  unfold decodeLaunchIntent. destruct (r_plan r), (r_metadata r); try done. intros Hd. guards Hd. bool_hyps.
  simplify_eq. by split_and!.
Qed.

Lemma decoded_resumable w r x :
  Base w → r ∈ w_intents w → decodeLaunchIntent r = Ok x → resumable (w_engine w) (w_intents w) x.
Proof.
  intros [] Hr Hd. destruct (b_rows r Hr x Hd) as (Hm & Hk & Hc & Hset).
  destruct (decode_fields r x Hd) as (Hs & Hi & HR & _). split; [congruence|done|by exists r| |by rewrite Hs..].
  intros Hn. exists r. split_and!; [done..|]. apply negb_true_iff, String.eqb_neq. congruence.
Qed.

(** The row an intent was read from. *)
Definition read_from t (x : launchIntent) : Prop := ∃ r, r ∈ t ∧ decodeLaunchIntent r = Ok x.

Lemma scan_find t (f : intent_row → bool) x :
  scanLaunchIntent (List.find f t) = Ok (Some x) → ∃ r, r ∈ t ∧ f r = true ∧ decodeLaunchIntent r = Ok x.
Proof using Type.
  destruct (List.find f t) as [r|] eqn:E; cbn; [|done]. intros (y & Hd & [= ->])%bind_ok.
  apply find_some in E as [? ?]. exists r. split_and!; [by apply list_elem_of_In|done|done].
Qed.

Lemma has_key_spec p pr dg r : has_key p pr dg r = true ↔ key_of r = (p, pr, dg).
Proof using Type.
  unfold has_key, key_of. rewrite !andb_true_iff, !String.eqb_eq. split; [intros [[-> ->] ->]; done|by intros [= -> -> ->]].
Qed.

Lemma launch_metadata_run principal profile dg fp inp tmpl runID branch limit release at_ :
  let m := launch_metadata cfg principal profile dg fp inp tmpl runID branch limit release at_ in
  Principal (m_run m) = principal ∧ Profile (m_run m) = profile ∧ IdempotencyKeyDigest (m_run m) = dg ∧
  RequestFingerprint (m_run m) = fp ∧ m_ContainerID m = "" ∧ m_Status m = StatusPending.
Proof using Type. by destruct release. Qed.

(** An intent as LaunchProfile makes it. *)
Record fresh_intent (x : launchIntent) : Prop := {
  fi_state : it_State x = intentStateCreated; fi_run : m_RunID (it_Metadata x) = it_RunID x;
  fi_plan : m_RunID (pl_Metadata (it_Plan x)) = it_RunID x;
  fi_container : m_ContainerID (it_Metadata x) = "";
  fi_status : m_Status (it_Metadata x) = StatusPending;
  fi_matches : ∀ at_, matches (row_of x at_) (m_run (it_Metadata x)) }.

Lemma new_intent_fresh principal profile dg fp inp tmpl runID branch limit release at_ :
  fresh_intent (new_intent principal profile dg fp inp limit
    (launch_metadata cfg principal profile dg fp inp tmpl runID branch limit release at_)).
Proof using Type.
  destruct (launch_metadata_run principal profile dg fp inp tmpl runID branch limit release at_) as (? & ? & ? & ? & ? & ?).
  by split; [| | | | |intros; split].
Qed.

Lemma fresh_resumable d t x at_ : fresh_intent x → row_of x at_ ∈ t → resumable d t x.
Proof.
  intros [] Hr. split; [done|by split; [left|rewrite fi_status0]| | |by rewrite fi_state0|by rewrite fi_status0].
  - by exists (row_of x at_).
  - intros _. exists (row_of x at_). split_and!; [done|done|]. unfold nonterminal. cbn. by rewrite fi_state0.
Qed.

Lemma count_active_app p t r :
  count_active p (t ++ [r]) = (count_active p t + if active_in p r then 1 else 0)%nat.
Proof using Type. unfold count_active. rewrite List.filter_app, length_app. cbn. by destruct (active_in p r). Qed.

Lemma base_append w x at_ max :
  Base w → fresh_intent x → max = default 0 (MaxConcurrentRuns cfg !! it_Profile x) →
  (0 < max → Z.of_nat (count_active (it_Profile x) (w_intents w)) < max) →
  List.find (has_key (it_Principal x) (it_Profile x) (it_KeyDigest x)) (w_intents w) = None →
  existsb (has_run (it_RunID x)) (w_intents w) = false →
  Base (set_intents (w_intents w ++ [row_of x at_]) w).
Proof.
  intros [] [] Hmax Hcount Hkey Hrun. split; cbn; [done| | | | | |].
  - intros r [Hr|Hr]%elem_of_app; [by apply b_rows|]. apply list_elem_of_singleton in Hr as ->.
    intros y Hy. destruct (decode_fields _ _ Hy) as (_ & _ & _ & _). unfold decodeLaunchIntent in Hy. cbn in Hy.
    guards Hy. simplify_eq. cbn. split_and!; [done|by split; [left|rewrite fi_status0]|by rewrite fi_state0|by rewrite fi_status0].
  - rewrite map_app. apply NoDup_app. split_and!; [done| |by apply NoDup_singleton].
    intros y (r & -> & Hr)%list_elem_of_fmap Hy%list_elem_of_singleton.
    assert (existsb (has_run (it_RunID x)) (w_intents w) = true) as Ht; [|congruence].
    apply existsb_elem_of. exists r. split; [done|by apply String.eqb_eq].
  - rewrite map_app. apply NoDup_app. split_and!; [done| |by apply NoDup_singleton].
    intros y (r & -> & Hr)%list_elem_of_fmap Hk%list_elem_of_singleton.
    apply list_elem_of_In in Hr. pose proof (find_none _ _ Hkey r Hr) as Hf.
    assert (has_key (it_Principal x) (it_Profile x) (it_KeyDigest x) r = true) as Ht by by apply has_key_spec.
    congruence.
  - intros k m Hm%b_files. eapply meta_ok_le; [|apply rows_le_app|done]. done.
  - intros k m Hm%b_runs. eapply meta_ok_le; [|apply rows_le_app|done]. done.
  - intros p mx Hp Hmx. specialize (b_active p mx Hp Hmx). rewrite count_active_app.
    destruct (active_in p (row_of x at_)) eqn:Ea; [|lia]. apply andb_true_iff in Ea as [<-%String.eqb_eq _]. cbn in *.
    rewrite Hp in Hmax. cbn in Hmax. subst mx. specialize (Hcount Hmx). lia.
Qed.

(** The row of a key: at most one, and it names the run and its request. *)
Definition bound_to t principal profile dg fp (id : string) : Prop :=
  ∃ r, r ∈ t ∧ key_of r = (principal, profile, dg) ∧ r_request_fingerprint r = fp ∧ r_run_id r = id.

Lemma bound_to_le t t' principal profile dg fp id :
  rows_le t t' → bound_to t principal profile dg fp id → bound_to t' principal profile dg fp id.
Proof. intros Hle (r & (r' & Hr' & [] & _)%Hle & ? & ? & ?). exists r'. split_and!; congruence || done. Qed.

Definition launch_answer principal profile rawKey fp (res : result svc_error LaunchAgentOutput) w : Prop :=
  ∀ out, res = Ok out → bound_to (w_intents w) principal profile (digestKey rawKey) fp (out_RunID out).

Lemma wp_resume_bound t0 principal profile dg fp x b w :
  sound t0 w → resumable (w_engine w) (w_intents w) x →
  bound_to (w_intents w) principal profile dg fp (it_RunID x) →
  wp (sound t0) (r <-! resumeLaunchIntent x ;; done (replayed b r))
     (λ res w', sound t0 w' ∧ ∀ out, res = Ok out → bound_to (w_intents w') principal profile dg fp (out_RunID out)) w.
Proof.
  intros [Hb Hle] Hx Hbound. apply wp_andThen.
  apply (wp_mono (good (w_intents w) (it_RunID x)) _ _ _ _ _ (wp_resume _ _ _ (good_start _ _ Hb) Hx)).
  { intros w'. by apply good_sound. }
  intros res w' [Hg Ha]. apply wp_done. split; [by eapply good_sound|].
  intros out Ho. destruct res as [o|]; [|done]. injection Ho as <-. cbn. rewrite (Ha o eq_refl).
  eapply bound_to_le; [|done]. by destruct Hg as (_ & ? & _).
Qed.

Lemma wp_select inp (I : world D → Prop) Q w : (∀ res, Q res w) → wp I (select inp) Q w.
Proof. intros HQ k. apply HQ. Qed.

Lemma wp_LaunchProfile t0 principal profile rawKey fp inp w :
  rawKey ≠ "" → sound t0 w →
  wp (sound t0) (LaunchProfile principal profile rawKey fp inp)
     (λ res w', sound t0 w' ∧ launch_answer principal profile rawKey fp res w') w.
Proof.
  intros Hkey%String.eqb_neq Hs. unfold LaunchProfile, launch_answer. rewrite Hkey. cbv zeta.
  set (dg := digestKey rawKey).
  apply wp_try, wp_effect; [done|]. intros k. cbn.
  destruct (Lookup _ _ _ _ _) as [found|x] eqn:El; cbn; [|done].
  unfold Lookup in El. destruct (fails _ 0); [done|]. destruct found as [x|].
  - apply scan_find in El as (r & Hr & Hrk%has_key_spec & Hd).
    destruct (decode_fields _ _ Hd) as (_ & HR & _ & Hf).
    destruct (it_RequestFingerprint x =? fp)%string eqn:Efp; cbn [negb]; [|by apply wp_done].
    apply String.eqb_eq in Efp. apply wp_resume_bound; [done|by eapply decoded_resumable; [apply Hs|..]|].
    exists r. split_and!; [done|done|congruence|done].
  - apply wp_andThen, wp_select. intros [[[[[tmpl runID] branch] limit] release]|x]; [|by apply wp_done].
    apply wp_andThen, wp_clock. intros at_. destruct (validateTaskContract _ _); [|by apply wp_done].
    set (m := launch_metadata _ _ _ _ _ _ _ _ _ _ _ _). set (x := new_intent _ _ _ _ _ _ _).
    assert (fresh_intent x) as Hfresh by apply new_intent_fresh.
    apply wp_try, wp_effect; [done|]. intros k2.
    destruct (LaunchIntents.Create _ _ _ _ _) as [t' res] eqn:Ec. cbn [fst snd].
    assert (set_intents (w_intents w) w = w) as Hw by by destruct w.
    apply Create_cases in Ec as [(-> & e & ->)|[(-> & y & -> & Hf)|(-> & -> & Hf & Hrun & Hmax)]]; cbn [lift_intent].
    + by rewrite Hw.
    + rewrite Hw. apply scan_find in Hf as (r & Hr & Hrk%has_key_spec & Hd).
      destruct (decode_fields _ _ Hd) as (_ & HR & _ & Hf).
      destruct (it_RequestFingerprint y =? fp)%string eqn:Efp; cbn [negb andb]; [|by apply wp_done].
      apply String.eqb_eq in Efp. apply (wp_resume_bound _ _ _ _ _ _ true); [done|by eapply decoded_resumable; [apply Hs|..]|].
      exists r. split_and!; [done|done|congruence|done].
    + assert (sound t0 (set_intents (w_intents w ++ [row_of x (now k2)]) w)) as Hs'.
      { destruct Hs as [Hb Hle]. split; [by eapply base_append|by eapply rows_le_trans, rows_le_app]. }
      apply (wp_resume_bound _ _ _ _ _ _ false); [done| |].
      * eapply fresh_resumable; [done|]. apply elem_of_app. right. by apply list_elem_of_singleton.
      * eexists. split; [apply elem_of_app; right; by apply list_elem_of_singleton|done].
Qed.

(** ** Recovery *)

Lemma find_key w r principal profile dg :
  Base w → r ∈ w_intents w → key_of r = (principal, profile, dg) →
  List.find (has_key principal profile dg) (w_intents w) = Some r.
Proof.
  intros [] Hr Hk. destruct (List.find _ _) as [r'|] eqn:E.
  - apply find_some in E as [Hr'%list_elem_of_In Hk'%has_key_spec]. f_equal.
    by apply (nodup_map key_of (w_intents w)); [..|congruence].
  - apply list_elem_of_In in Hr. pose proof (find_none _ _ E r Hr) as Hf. by rewrite (proj2 (has_key_spec _ _ _ _) Hk) in Hf.
Qed.

(** Restoring adds nothing where every run has its row. *)
Lemma RestoreMetadata_same fl w m at_ :
  Base w → has_row (w_intents w) (m_run m) → (RestoreMetadata fl (w_intents w) m at_).1 = w_intents w.
Proof.
  intros Hb (r & Hr & []). unfold RestoreMetadata. destruct (negb (restorable m)); [done|].
  destruct (LaunchIntents.Create _ _ _ _ _) as [t' res] eqn:E.
  assert (t' = w_intents w) as ->; [|by destruct res as [[? ?]|]].
  apply Create_cases in E as [(-> & _)|[(-> & _)|(_ & _ & Hf & _)]]; [done..|]. cbn in Hf.
  rewrite (find_key w r) in Hf; [done|done|done|]. unfold key_of. congruence.
Qed.

Definition meta_answer id (res : result svc_error RunMetadata) w : Prop :=
  ∀ m, res = Ok m → meta_ok (w_engine w) (w_intents w) id m.

Lemma finalized_answer w id f w' : finalized_ok w id f w' → meta_answer id (reconcile_result f) w'.
Proof.
  intros Hf m. unfold reconcile_result. destruct (f_err f) eqn:E; [done|]. intros [= <-].
  by destruct Hf as [[_ ?]|[? _]].
Qed.

Lemma wp_finalize_result t0 id reason source u w :
  good t0 id w → update_ok t0 id u →
  wp (good t0 id) (f <-! finalizeTerminalRun id reason source u ;; done (reconcile_result f))
     (λ res w', good t0 id w' ∧ meta_answer id res w') w.
Proof.
  intros Hg Hu. apply wp_andThen, wp_finalize; [done..|]. intros f w' ????. apply wp_done. split; [done|].
  by eapply finalized_answer.
Qed.

Lemma wp_reconcile_container t0 id m w :
  good t0 id w → meta_ok (w_engine w) (w_intents w) id m →
  wp (good t0 id) (reconcile_container m) (λ res w', good t0 id w' ∧ meta_answer id res w') w.
Proof.
  intros Hg Hok. unfold reconcile_container. rewrite (proj1 Hok).
  apply wp_andThen, wp_inspect; [done|]. intros res d Hg1 Hle _. apply wp_andThen, wp_clock. intros x.
  destruct res as [status|y]; [|apply wp_finalize_result; [done|apply missing_update_ok]].
  destruct (negb _); [apply wp_finalize_result; [done|apply exited_update_ok]|].
  destruct (_ <? _); [apply wp_finalize_result; [done|apply markTimedOut_ok]|].
  apply wp_done. split; [done|]. intros m' [= <-]. eapply meta_ok_le; [by apply eng_le_mono|apply rows_le_refl|done].
Qed.

Lemma wp_query t0 {A} (f : fault → list intent_row → result intent_error A) (Q : result svc_error A → world D → Prop) w :
  sound t0 w → (∀ fl, Q (lift_intent (f fl (w_intents w))) w) → wp (sound t0) (query_intents f) Q w.
Proof. intros Hs HQ. apply wp_effect; [done|]. intros k. apply HQ. Qed.

Lemma wp_read t0 {A} (f : nat → world D → A) (Q : A → world D → Prop) w :
  sound t0 w → (∀ k, Q (f k w) w) → wp (sound t0) (effect dies (λ k w, (w, f k w))) Q w.
Proof. intros Hs HQ. apply wp_effect; [done|]. intros k. apply HQ. Qed.

(** Handlers of one run keep the invariant. *)
Lemma wp_handler {A} t0 id (m : prog (world D) A) (Q : A → world D → Prop) w :
  sound t0 w → (good (w_intents w) id w → wp (good (w_intents w) id) m (λ a w', good (w_intents w) id w' ∧ Q a w') w) →
  wp (sound t0) m (λ a w', sound t0 w' ∧ Q a w') w.
Proof.
  intros [Hb Hle] Hm. eapply wp_mono; [by apply Hm, good_start| |].
  - intros w'. by apply good_sound.
  - intros a w' [Hg ?]. split; [by eapply good_sound|done].
Qed.

Lemma wp_remember_sound t0 id m (Q : unit → world D → Prop) w :
  sound t0 w → meta_ok (w_engine w) (w_intents w) id m →
  (∀ f, sound t0 (set_runs f w) → Q () (set_runs f w)) → wp (sound t0) (remember m) Q w.
Proof.
  intros Hs Hok HQ. pose proof (good_start id w (proj1 Hs)) as Hg. apply wp_poke, HQ.
  eapply good_sound; [apply Hs|]. apply good_run; [done|]. by rewrite (proj1 Hok).
Qed.

Lemma wp_backfill t0 m (Q : result svc_error unit → world D → Prop) w :
  sound t0 w → (∀ res f, sound t0 (set_results f w) → Q res (set_results f w)) → wp (sound t0) (backfill_result m) Q w.
Proof.
  intros Hs HQ. assert (∀ res, Q res w) as HQ'.
  { intros res. replace w with (set_results (w_results w) w) by by destruct w. apply HQ. by destruct w. }
  unfold backfill_result. destruct (negb _); [by apply wp_done|].
  apply wp_try, wp_read; [done|]. intros k. destruct (file_fails k); [done|].
  destruct (bool_decide _); [by apply wp_done|]. apply wp_effect; [done|]. intros k2. destruct (file_fails k2); [done|].
  apply (HQ _ (<[m_RunID m := m]> (w_results w))). eapply good_sound; [apply Hs|].
  apply (good_result _ (m_RunID m)), good_start, Hs.
Qed.

Lemma wp_reconcile_run t0 id w :
  sound t0 w → wp (sound t0) (reconcile_run id) (λ _, sound t0) w.
Proof.
  intros Hs. apply wp_andThen, wp_read; [done|]. intros k.
  destruct (file_fails k); [by apply wp_done|]. destruct (w_files w !! id) as [m|] eqn:Ef; [|by apply wp_done].
  assert (meta_ok (w_engine w) (w_intents w) id m) as Hok by by destruct Hs as [[] _]; eauto.
  apply wp_try, wp_effect; [done|]. intros k2.
  pose proof (RestoreMetadata_same (db_fault k2) w m (now k2) (proj1 Hs) (proj2 (proj2 Hok))) as Hsame.
  destruct (RestoreMetadata _ _ _ _) as [t' res]. cbn [fst snd] in *. subst t'.
  replace (set_intents (w_intents w) w) with w by by destruct w. destruct res as [[]|y]; cbn [lift_intent]; [|done].
  apply wp_try.
  assert (∀ m w, sound t0 w → meta_ok (w_engine w) (w_intents w) id m →
    wp (sound t0) (_ <-! remember m ;; _ <-? backfill_result m ;;
      if (m_Status m =? StatusRunning)%string
      then _ <-? query_intents (λ fl rows, IsNonterminalRun fl rows (m_RunID m)) ;; done (Ok ())
      else done (Ok ())) (λ _, sound t0) w) as Hrest.
  { clear m w Hs Ef Hok. intros m w Hs Hok.
    apply wp_andThen, (wp_remember_sound _ id); [done..|]. intros f Hs1.
    apply wp_try, wp_backfill; [done|]. intros [[]|y] f2 Hs2; [|done].
    destruct (_ =? _)%string; [|by apply wp_done]. apply wp_try, wp_query; [done|]. intros fl.
    destruct (IsNonterminalRun _ _ _); [by apply wp_done|done]. }
  destruct (negb _ && _).
  - eapply wp_mono; [apply (wp_handler t0 id _ (meta_answer id)); [done|]; intros Hg; by apply wp_reconcile_container|done|].
    intros res w' [Hs' Ha]. destruct res as [m'|]; [|done]. apply Hrest; [done|by apply Ha].
  - by apply wp_done, Hrest.
Qed.

Lemma wp_reconcile_runs t0 ids w : sound t0 w → wp (sound t0) (reconcile_runs ids) (λ _, sound t0) w.
Proof.
  revert w. induction ids as [|id ids IH]; intros w Hs; [by apply wp_done|].
  apply wp_try. eapply wp_mono; [by apply wp_reconcile_run|done|]. intros [[]|x] w' Hs'; [by apply IH|done].
Qed.

Lemma decode_all_read rows xs :
  decode_all rows = Ok xs → NoDup (map r_run_id rows) →
  NoDup (map it_RunID xs) ∧ Forall (λ x, ∃ r, r ∈ rows ∧ decodeLaunchIntent r = Ok x) xs.
Proof using Type.
  revert xs. induction rows as [|r rows IH]; intros xs E Hn; [injection E as <-; split; constructor|].
  cbn in E. apply bind_ok in E as (x & Hx & E). apply bind_ok in E as (xs' & Hxs & [= <-]).
  cbn in Hn. apply NoDup_cons in Hn as [Hr Hn]. destruct (IH xs' Hxs Hn) as [Hn' Hf].
  destruct (decode_fields _ _ Hx) as (_ & HR & _). split.
  - cbn. apply NoDup_cons. split; [|done]. intros (y & Hy & Hin)%list_elem_of_fmap.
    rewrite Forall_forall in Hf. destruct (Hf y Hin) as (r' & Hr' & Hd). destruct (decode_fields _ _ Hd) as (_ & HR' & _).
    apply Hr. rewrite <- HR, Hy, HR'. by apply list_elem_of_fmap_2.
  - constructor; [exists r; split; [by left|done]|]. eapply Forall_impl; [done|]. intros y (r' & ? & ?).
    exists r'. split; [by right|done].
Qed.

Lemma wp_reconcile_intents t0 xs w :
  sound t0 w → NoDup (map it_RunID xs) → Forall (read_from (w_intents w)) xs →
  wp (sound t0) (reconcile_intents xs) (λ _, sound t0) w.
Proof.
  revert w. induction xs as [|x xs IH]; intros w Hs Hn Hf; [by apply wp_done|]. cbn.
  destruct (negb _); [by apply wp_done|]. cbn in Hn. apply NoDup_cons in Hn as [Hx Hn].
  apply Forall_cons in Hf as [(r & Hr & Hd) Hf]. pose proof Hs as [Hb Hle].
  apply wp_try. eapply wp_mono.
  { apply (wp_resume (w_intents w)); [by apply good_start|by eapply decoded_resumable]. }
  { intros w'. by apply good_sound. }
  intros res w' [Hg _]. assert (sound t0 w') as Hs' by by eapply good_sound.
  destruct res as [out|]; [|done]. apply IH; [done|done|].
  eapply Forall_impl; [by apply Forall_and; split; [exact Hf|]; apply Forall_forall; intros y Hy; exact Hy|].
  cbn. intros y [(ry & Hry & Hdy) Hy]. exists ry. split; [|done]. destruct Hg as (_ & _ & Ho). apply Ho; [done|].
  destruct (decode_fields _ _ Hdy) as (_ & HR & _). intros E. apply Hx. rewrite <- E, <- HR. by apply list_elem_of_fmap_2.
Qed.

Lemma wp_Reconcile t0 w : sound t0 w → wp (sound t0) Reconcile (λ _, sound t0) w.
Proof.
  intros Hs. apply wp_try, wp_read; [done|]. intros k. destruct (file_fails k); [done|].
  apply wp_try. eapply wp_mono; [by apply wp_reconcile_runs|done|]. clear w Hs k. intros [[]|x] w Hs; [|done].
  apply wp_try, wp_query; [done|]. intros fl. destruct (Nonterminal fl (w_intents w)) as [xs|] eqn:E; [|done].
  unfold Nonterminal in E. destruct (fails fl 0); [done|].
  set (rows := List.filter nonterminal (w_intents w)) in *.
  assert (NoDup (map r_run_id (merge_sort created_order rows))) as Hn.
  { rewrite (merge_sort_Permutation created_order rows). destruct Hs as [[] _].
    unfold rows. clear -b_runs_nodup. induction (w_intents w) as [|r t IH]; [constructor|]. cbn in *.
    apply NoDup_cons in b_runs_nodup as [Hr Hn]. destruct (nonterminal r); [|by apply IH]. cbn. apply NoDup_cons.
    split; [|by apply IH]. intros (y & Hy & Hin)%list_elem_of_fmap. apply Hr. rewrite Hy. apply list_elem_of_fmap_2.
    apply list_elem_of_In, filter_In in Hin as [Hin _]. by apply list_elem_of_In. }
  destruct (decode_all_read _ _ E Hn) as [Hn' Hf]. apply wp_reconcile_intents; [done|done|].
  eapply Forall_impl; [done|]. intros x (r & Hr & Hd). exists r. split; [|done].
  rewrite (merge_sort_Permutation created_order rows) in Hr.
  apply list_elem_of_In, filter_In in Hr as [Hr _]. by apply list_elem_of_In.
Qed.
End Handlers.
