(* ===== verification/LaunchSim.v ===== *)
(** * Durable launches: a concrete engine and service

    An engine that keeps its containers in a map, obeys the laws of Docker.v and
    answers at once; and a service with one template and one profile over it.
    They run the handlers of Launch.v on concrete histories. *)

From S2P Require Import Prelude GoStrings GoTime Sandbox LaunchIntents Process Docker Launch.
Open Scope string_scope.
Open Scope list_scope.
Open Scope Z_scope.

(** ** The engine *)

(** A removed container is remembered; its name is not given again. *)
Record container := { c_request : dockerCreateRequest; c_starts : nat; c_running : bool; c_removed : bool }.

Notation sim := (gmap string container).

Definition not_found {A} (d : sim) : sim * result docker_error A := (d, Err (DockerError 404)).

Definition sim_create (d : sim) (name : string) (req : dockerCreateRequest) : sim * result docker_error string :=
  match d !! name with
  | Some _ => (d, Err (DockerError 409))
  | None => (<[name := {| c_request := req; c_starts := 0; c_running := false; c_removed := false |}]> d, Ok name)
  end.

Definition found (d : sim) (name : string) : option container :=
  c ← d !! name; if c_removed c then None else Some c.

Definition sim_inspect (d : sim) (name : string) : sim * result docker_error dockerInspectResponse :=
  match found d name with
  | None => not_found d
  | Some c =>
    (d, Ok {| ins_ID := name; ins_Name := "/" +:+ name; ins_Image := cr_Image (c_request c);
              ins_Labels := cr_Labels (c_request c); ins_Running := c_running c && (0 <? c_starts c)%nat; ins_ExitCode := 0;
              ins_StartedAt := if (c_starts c =? 0)%nat then "0001-01-01T00:00:00Z" else "2026-01-01T00:00:00Z";
              ins_FinishedAt := "0001-01-01T00:00:00Z"; ins_Platform := "linux" |})
  end.

Definition sim_start (d : sim) (name : string) : sim * result docker_error unit :=
  match found d name with
  | None => not_found d
  | Some c =>
    if c_running c && (0 <? c_starts c)%nat then (d, Err (DockerError 304)) else
    (<[name := {| c_request := c_request c; c_starts := S (c_starts c); c_running := true; c_removed := false |}]> d, Ok ())
  end.

Definition halted (removed : bool) (c : container) : container :=
  {| c_request := c_request c; c_starts := c_starts c; c_running := false; c_removed := removed |}.

Definition sim_halt {A} (removed : bool) (a : A) (d : sim) (name : string) : sim * result docker_error A :=
  match found d name with
  | None => not_found d
  | Some c => (<[name := halted removed c]> d, Ok a)
  end.

#[export] Instance sim_engine : DockerEngine sim := {
  e_image k d image := (d, Ok {| img_ID := "sha256:" +:+ image; img_RepoDigests := []; img_Os := "linux"; img_Architecture := "arm64" |});
  e_create k := sim_create; e_inspect k := sim_inspect; e_start k := sim_start;
  e_stop k := sim_halt false (); e_wait k := sim_halt false 0; e_remove k := sim_halt true () }.

Definition sim_starts (d : sim) (id : string) : nat := default 0%nat (c_starts <$> d !! id).

Lemma found_lookup (d : sim) n c : found d n = Some c → d !! n = Some c.
Proof. unfold found. destruct (d !! n) as [c'|]; [|done]. cbn. by destruct (c_removed c'); intros [= ->]. Qed.

Lemma sim_insert (d : sim) (n id : string) c :
  sim_starts (<[n := c]> d) id = if decide (id = n) then c_starts c else sim_starts d id.
Proof.
  unfold sim_starts. destruct (decide (id = n)) as [->|]; [by rewrite lookup_insert_eq|by rewrite lookup_insert_ne].
Qed.

Lemma sim_created (d : sim) (n id : string) c : is_Some (d !! id) → is_Some (<[n := c]> d !! id).
Proof. destruct (decide (id = n)) as [->|]; [rewrite lookup_insert_eq; eauto|by rewrite lookup_insert_ne]. Qed.

Lemma sim_halt_frame {A} removed (a : A) d n id :
  sim_starts (sim_halt removed a d n).1 id = sim_starts d id ∧
  (is_Some (d !! id) → is_Some ((sim_halt removed a d n).1 !! id)).
Proof.
  unfold sim_halt, not_found. destruct (found d n) as [c|] eqn:E; [apply found_lookup in E|]; cbn; [|done]. split; [|apply sim_created].
  rewrite sim_insert. destruct (decide _) as [->|]; [|done]. unfold sim_starts. by rewrite E.
Qed.

Definition sim_time (s : string) : option time := Some 0.

#[export] Program Instance sim_laws : DockerLaws sim_time := {
  d_created d id := is_Some (d !! id); d_starts := sim_starts }.
Next Obligation. done. Qed.
Next Obligation.
  intros k d n r id. cbn. unfold sim_create. destruct (d !! n) eqn:E; cbn; [done|]. split; [|apply sim_created].
  rewrite sim_insert. destruct (decide _) as [->|]; [|done]. unfold sim_starts. by rewrite E.
Qed.
Next Obligation. intros k d n id. cbn. unfold sim_inspect, not_found. by destruct (found d n). Qed.
Next Obligation. intros k d n id. apply sim_halt_frame. Qed.
Next Obligation. intros k d n id. apply sim_halt_frame. Qed.
Next Obligation. intros k d n id. apply sim_halt_frame. Qed.
Next Obligation.
  intros k d n id. cbn. unfold sim_start, not_found. destruct (found d n) as [c|]; [|done].
  destruct (_ && _); [done|apply sim_created].
Qed.
Next Obligation.
  intros k d n id _ Hn. cbn. unfold sim_start, not_found. destruct (found d n) as [c|]; [|done].
  destruct (_ && _); [done|]. cbn. rewrite sim_insert. by rewrite decide_False.
Qed.
Next Obligation.
  intros k d n. cbn. unfold sim_start, not_found. destruct (found d n) as [c|] eqn:E; [apply found_lookup in E|]; cbn; [|lia].
  destruct (_ && _); cbn; [lia|]. rewrite sim_insert, decide_True by done. unfold sim_starts. rewrite E. cbn. lia.
Qed.
Next Obligation.
  intros k d n. cbn. unfold sim_start, not_found. destruct (found d n) as [c|]; cbn; [|done].
  destruct (_ && _); cbn; [done|]. intros _. rewrite sim_insert, decide_True by done. cbn. lia.
Qed.
Next Obligation.
  intros k d n r id. cbn. unfold sim_create. destruct (d !! n) eqn:E; cbn; [done|]. intros [= <-].
  rewrite lookup_insert_eq, sim_insert, decide_True by done. eauto.
Qed.
Next Obligation.
  intros k d n out. cbn. unfold sim_inspect, not_found. destruct (found d n) as [c|] eqn:E; [apply found_lookup in E|]; cbn; [|done].
  intros [= <-]. cbn. unfold sim_starts. rewrite E. cbn. split_and!; [eauto|done| |].
  - by destruct (Nat.eqb_spec (c_starts c) 0).
  - destruct (c_starts c); [|lia]. intros [?|Hr]; [done|]. by rewrite andb_false_r in Hr.
Qed.

(** ** The service *)

Definition byte_text (k : nat) : string := String (ascii_of_nat k) "".

(** 2026-01-01, and one second per effect. *)
Definition sample_now (k : nat) : time := (1767225600 + Z.of_nat k) * second.

(** Specifications are told apart by their capability handle. *)
Definition sample_service (dies : nat → bool) (faults : nat → fault) (file_fails : nat → bool) : Service :=
  {| cfg := sample_config; has_capability_store := true; pattern := unit; re_compile _ := None;
     re_match _ _ := false; sha256_hex s := s; digestKey s := s;
     json_spec spec := default "" (sp_Env spec !! capabilityEnvKey); parse_time := sim_time;
     resolver := Some (λ _ _, Some {| Generation := 1; ImageReference := "registry/worker@sha256:1";
                                      ImageDigest := "sha256:1" |});
     dies := dies; now := sample_now; now2 := sample_now; random k := Some (byte_text k);
     cap_random := byte_text; db_fault := faults; cap_fault _ := None; file_fails := file_fails |}.

Definition healthy : Service := sample_service (λ _, false) (λ _, None) (λ _, false).
Definition dying_at (n : nat) : Service := sample_service (λ k, (k =? n)%nat) (λ _, None) (λ _, false).

Definition empty_world : world sim :=
  {| w_intents := []; w_files := ∅; w_results := ∅; w_engine := ∅; w_caps := ∅; w_runs := ∅ |}.

Definition sample_launch (Svc : Service) : prog (world sim) (result svc_error LaunchAgentOutput) :=
  LaunchProfile "ops" "builder" "key-1" "fp-1" sample_input.

Definition status_of (r : nat * world sim * option (result svc_error LaunchAgentOutput)) : option string :=
  match r with (_, _, Some (Ok out)) => Some (out_Status out) | _ => None end.

Definition starts_of (w : world sim) : list nat := map (λ kv, c_starts kv.2) (map_to_list (w_engine w)).

Example launch_runs_once :
  let r := sample_launch healthy 0%nat empty_world in status_of r = Some StatusRunning ∧ starts_of r.1.2 = [1%nat].
Proof. by vm_compute. Qed.

(** Every process that dies once during the launch is repaired by a retry, up to
    one: between the creation of the container and its recording the retry has a
    new capability handle, so that the digest of the specification is another and
    the container is not adopted.  The comments of resumeLaunchIntent and adopt
    have it adopted. *)
Definition retried (n : nat) : option string * list nat :=
  let r := sample_launch (dying_at n) 0%nat empty_world in
  let r := sample_launch (dying_at n) r.1.1 (set_runs ∅ r.1.2) in
  (status_of r, starts_of r.1.2).

Example retry_repairs :
  forallb (λ n, bool_decide (retried n = (Some StatusRunning, [1%nat]))) [0; 1; 2; 3; 4; 5; 6; 7; 9; 10; 11; 12; 13]%nat = true.
Proof. by vm_compute. Qed.

Example interrupted_create_lost : retried 8 = (Some StatusFailed, [0%nat]).
Proof. by vm_compute. Qed.

(** A healthy service whose clock stands still. *)
Definition steady : Service :=
  {| cfg := sample_config; has_capability_store := true; pattern := unit; re_compile _ := None;
     re_match _ _ := false; sha256_hex s := s; digestKey s := s;
     json_spec spec := default "" (sp_Env spec !! capabilityEnvKey); parse_time := sim_time;
     resolver := Some (λ _ _, Some {| Generation := 1; ImageReference := "registry/worker@sha256:1";
                                      ImageDigest := "sha256:1" |});
     dies _ := false; now _ := sample_now 0; now2 _ := sample_now 0; random _ := Some "x"; cap_random _ := "y";
     db_fault _ := None; cap_fault _ := None; file_fails _ := false |}.

Lemma sim_starts_ok (d : sim) name req c :
  (sim_create d name req).2 = Ok c → (sim_start (sim_create d name req).1 c).2 = Ok ().
Proof.
  unfold sim_create. destruct (d !! name); cbn; [done|]. intros [= <-]. unfold sim_start, found. by rewrite lookup_insert_eq.
Qed.

(** An engine that does not answer inspections at one effect. *)
Definition deaf_at (n : nat) : DockerEngine sim :=
  {| e_image k d image := (d, Ok {| img_ID := "sha256:" +:+ image; img_RepoDigests := []; img_Os := "linux"; img_Architecture := "arm64" |});
     e_create k := sim_create; e_start k := sim_start; e_stop k := sim_halt false (); e_wait k := sim_halt false 0; e_remove k := sim_halt true ();
     e_inspect k d name := if (k =? n)%nat then (d, Err DockerTransport) else sim_inspect d name |}.

Definition statuses {D} (w : world D) : list string := map (λ kv, m_Status kv.2) (map_to_list (w_files w)).
Definition running_containers (w : world sim) : list bool := map (λ kv, c_running kv.2) (map_to_list (w_engine w)).

(** The recovery takes an unanswered inspection for a missing container: the run
    is recorded as failed for good, and its container runs on. *)
Example unanswered_inspection_fails_run :
  let r := sample_launch healthy 0%nat empty_world in
  let w := (@Reconcile sim (deaf_at 17) healthy r.1.1 (set_runs ∅ r.1.2)).1.2 in
  statuses w = [StatusFailed] ∧ map r_state (w_intents w) = [intentStateTerminal] ∧ running_containers w = [true].
Proof. by vm_compute. Qed.
