(* ===== verification/LaunchHistory.v ===== *)
(** * Durable launches: histories

    A history is a sequence of calls of the service (launches, status polls,
    stops), of firing watchers and of restarts.  A process that dies loses its
    memory and nothing else.  After any history of keyed launches, whatever
    dies, fails or answers late, no container was started twice, a key stands
    for one run and one request, and the profiles' limits are kept. *)

From S2P Require Import Prelude GoStrings GoTime Capability CapabilityStore Sandbox LaunchIntents Process Docker.
From S2P Require Import Launch LaunchInvariant LaunchSafety LaunchSim.
Open Scope string_scope.
Open Scope list_scope.
Open Scope Z_scope.

Section History.
Context {D : Type} `{Eng : DockerEngine D} `{Svc : Service} `{L : !DockerLaws parse_time}.
Implicit Types (w : world D) (d : D) (t : list intent_row) (r : intent_row) (m : RunMetadata).

(** ** Handlers of one run *)

Definition keeps_sound {A} (h : prog (world D) A) : Prop :=
  ∀ t0 w, sound t0 w → wp (sound t0) h (λ _, sound t0) w.

Lemma keeps_handler {A} id (h : prog (world D) A) :
  (∀ t0 w, good t0 id w → wp (good t0 id) h (λ _, good t0 id) w) → keeps_sound h.
Proof.
  intros Hh t0 w Hs. eapply wp_mono.
  - apply (wp_handler t0 id h (λ _ _, True) w Hs). intros Hg.
    eapply wp_mono; [by apply Hh|done|]. by intros a w' ?.
  - done.
  - by intros a w' [? _].
Qed.

Lemma wp_finalize_good {A} t0 id reason source u (k : finalized → A) w :
  good t0 id w → update_ok t0 id u →
  wp (good t0 id) (f <-! finalizeTerminalRun id reason source u ;; done (k f)) (λ _, good t0 id) w.
Proof. intros Hg Hu. apply wp_andThen, wp_finalize; [done..|]. intros f w' ????. by apply wp_done. Qed.

Lemma status_sound id : keeps_sound (GetAgentStatus id).
Proof.
  apply (keeps_handler id). intros t0 w Hg. apply wp_try, wp_lookupRun; [done|]. intros [m|x] f Hg1 Hm; [|done].
  destruct (Hm m eq_refl) as (_ & [HR _] & _). rewrite HR.
  destruct (negb _); [by apply wp_done|]. apply wp_andThen, wp_inspect; [done|]. intros res d Hg2 _ _.
  apply wp_andThen, wp_clock. intros x. destruct res as [status|]; [|by apply wp_done].
  destruct (_ && _); [by apply wp_finalize_good, markTimedOut_ok|].
  destruct (negb _); [by apply wp_finalize_good, exited_update_ok|by apply wp_done].
Qed.

Lemma stop_sound id : keeps_sound (StopAgent id).
Proof.
  apply (keeps_handler id). intros t0 w Hg. apply wp_try, wp_lookupRun; [done|]. intros [m|x] f Hg1 Hm; [|done].
  destruct (Hm m eq_refl) as (_ & [HR _] & _). rewrite HR.
  destruct (negb _); [by apply wp_done|]. by apply wp_finalize_good, stop_update_ok.
Qed.

Lemma timeout_sound id deadline : keeps_sound (watchTimeout id deadline).
Proof.
  apply (keeps_handler id). intros t0 w Hg. apply wp_andThen, wp_lookupRun; [done|]. intros [m|x] f Hg1 _; [|by apply wp_done].
  destruct (_ || _); [by apply wp_done|]. by apply wp_finalize_good, markTimedOut_ok.
Qed.

Lemma exit_sound id cid : keeps_sound (watchExit id cid).
Proof.
  apply (keeps_handler id). intros t0 w Hg. apply wp_andThen, wp_wait; [done|]. intros [status|x] d Hg1 _.
  { by apply wp_finalize_good, exited_update_ok. }
  apply wp_andThen, wp_inspect; [done|]. intros res d2 Hg2 _ _. destruct (exited_status res).
  - by apply wp_finalize_good, exited_update_ok.
  - apply wp_andThen, wp_lookupRun; [done|]. intros res2 f Hg3 _. by apply wp_done.
Qed.

(** ** Histories *)

Inductive event :=
| Launched (principal profile rawKey fingerprint : string) (i : LaunchAgentInput)
| StatusAsked (runID : string) | StopAsked (runID : string)
| TimerFired (runID : string) (deadline : time) | ExitSeen (runID containerID : string)
| Restarted.

Definition answer : Type := option (result svc_error LaunchAgentOutput).

Definition forget w : world D := set_runs ∅ w.

Definition handle (e : event) : prog (world D) answer :=
  match e with
  | Launched principal profile rawKey fingerprint i =>
    r <-! LaunchProfile principal profile rawKey fingerprint i ;; done (Some r)
  | StatusAsked id => _ <-! GetAgentStatus id ;; done None
  | StopAsked id => _ <-! StopAgent id ;; done None
  | TimerFired id deadline => _ <-! watchTimeout id deadline ;; done None
  | ExitSeen id cid => _ <-! watchExit id cid ;; done None
  | Restarted => _ <-! poke forget ;; _ <-! Reconcile ;; done None
  end.

(** The next effect's number, the world, and the answer if the process lived to give it. *)
Definition step (k : nat) w (e : event) : nat * world D * answer :=
  match handle e k w with
  | (k, w, Some a) => (k, w, a)
  | (k, w, None) => (k, forget w, None)
  end.

Fixpoint history (k : nat) w (es : list event) : nat * world D * list (event * answer) :=
  match es with
  | [] => (k, w, [])
  | e :: es =>
    let '(k, w, a) := step k w e in
    let '(k, w, trace) := history k w es in (k, w, (e, a) :: trace)
  end.

(** A launch without a key keeps no intent; it is not part of these histories. *)
Definition keyed (e : event) : Prop :=
  match e with Launched _ _ rawKey _ _ => rawKey ≠ "" | _ => True end.

(** A service before its first launch, next to containers of others. *)
Record fresh w : Prop := {
  fr_intents : w_intents w = []; fr_files : w_files w = ∅; fr_runs : w_runs w = ∅;
  fr_starts : ∀ c, (d_starts (w_engine w) c ≤ 1)%nat }.

Lemma fresh_base w : fresh w → Base w.
Proof.
  intros [Hi Hf Hr Hs]. split; rewrite ?Hi, ?Hf, ?Hr; try done.
  - by intros r ?%elem_of_nil.
  - constructor.
  - constructor.
  - intros p max _ Hmax. cbn. lia.
Qed.

Lemma forget_sound t0 w : sound t0 w → sound t0 (forget w).
Proof. intros [[] Hle]. split; [by split|done]. Qed.

(** What a launch's answer says of the index. *)
Definition answer_bound e (a : answer) t : Prop :=
  match e, a with
  | Launched principal profile rawKey fingerprint _, Some (Ok out) =>
    bound_to t principal profile (digestKey rawKey) fingerprint (out_RunID out)
  | _, _ => True
  end.

Lemma wp_discard {A} t0 (h : prog (world D) A) w :
  keeps_sound h → sound t0 w → wp (sound t0) (_ <-! h ;; done None) (λ a w', sound t0 w' ∧ a = None :> answer) w.
Proof. intros Hh Hs. apply wp_andThen. eapply wp_mono; [by apply Hh|done|]. intros a w' Hs'. by apply wp_done. Qed.

Lemma handle_sound t0 e w :
  keyed e → sound t0 w → wp (sound t0) (handle e) (λ a w', sound t0 w' ∧ answer_bound e a (w_intents w')) w.
Proof.
  intros Hk Hs. destruct e as [principal profile rawKey fp i|id|id|id dl|id cid|]; cbn [handle].
  1: { apply wp_andThen. eapply wp_mono; [by apply wp_LaunchProfile|done|]. intros res w' [Hs' Ha]. apply wp_done.
       split; [done|]. destruct res as [out|]; [|done]. by apply Ha. }
  all: apply (wp_mono (sound t0) (sound t0) _ (λ (a : answer) w', sound t0 w' ∧ a = None)); [|done|by intros a w' [? ->]].
  - by apply wp_discard; [apply status_sound|].
  - by apply wp_discard; [apply stop_sound|].
  - by apply wp_discard; [apply timeout_sound|].
  - by apply wp_discard; [apply exit_sound|].
  - apply wp_andThen, wp_poke. apply wp_discard; [|by apply forget_sound]. intros t w'. apply wp_Reconcile.
Qed.

Lemma step_sound k w e k' w' a :
  keyed e → Base w → step k w e = (k', w', a) →
  sound (w_intents w) w' ∧ answer_bound e a (w_intents w').
Proof.
  intros Hk Hb E. assert (sound (w_intents w) w) as Hs by (split; [done|apply rows_le_refl]).
  pose proof (handle_sound _ e w Hk Hs k) as H. unfold step in E.
  destruct (handle e k w) as [[k1 w1] [a1|]]; simplify_eq; [done|].
  split; [by apply forget_sound|]. by destruct e.
Qed.

Lemma answer_bound_le e a t t' : rows_le t t' → answer_bound e a t → answer_bound e a t'.
Proof. intros Hle. destruct e, a as [[]|]; try done. by apply bound_to_le. Qed.

Lemma history_sound es k w :
  Base w → Forall keyed es →
  let '(_, w', trace) := history k w es in
  sound (w_intents w) w' ∧ ∀ e a, (e, a) ∈ trace → answer_bound e a (w_intents w').
Proof.
  revert k w. induction es as [|e es IH]; intros k w Hb Hk.
  { cbn. split; [split; [done|apply rows_le_refl]|]. by intros e a ?%elem_of_nil. }
  apply Forall_cons in Hk as [He Hk]. cbn. destruct (step k w e) as [[k1 w1] a1] eqn:E.
  apply step_sound in E as [[Hb1 Hle1] Ha1]; [|done..]. specialize (IH k1 w1 Hb1 Hk).
  destruct (history k1 w1 es) as [[k' w'] trace]. destruct IH as [[Hb' Hle'] Htr]. split.
  - split; [done|by eapply rows_le_trans].
  - intros e' a [[= -> ->]|Hin]%elem_of_cons; [by eapply answer_bound_le|by apply Htr].
Qed.

Lemma history_base es k w : Base w → Forall keyed es → Base (history k w es).1.2.
Proof.
  intros Hb Hk. pose proof (history_sound es k w Hb Hk) as H.
  destruct (history k w es) as [[? ?] ?]. by destruct H as [[? _] _].
Qed.

Lemma history_app es es' k w :
  history k w (es ++ es') =
  let '(k1, w1, trace) := history k w es in
  let '(k2, w2, trace') := history k1 w1 es' in (k2, w2, trace ++ trace').
Proof.
  revert k w. induction es as [|e es IH]; intros k w; cbn.
  - by destruct (history k w es') as [[? ?] ?].
  - destruct (step k w e) as [[k0 w0] a]. rewrite IH. destruct (history k0 w0 es) as [[k1 w1] trace].
    by destruct (history k1 w1 es') as [[k2 w2] trace'].
Qed.

(** ** What holds after every history *)

(** C5: no container is started twice, whatever dies, fails, is retried or is
    recovered; and a run recorded as running has a container that was started. *)
Theorem started_once es k w :
  fresh w → Forall keyed es →
  let w' := (history k w es).1.2 in
  (∀ c, (d_starts (w_engine w') c ≤ 1)%nat) ∧
  (∀ id m, w_files w' !! id = Some m → m_Status m = StatusRunning →
     d_starts (w_engine w') (m_ContainerID m) = 1%nat).
Proof.
  intros Hf%fresh_base Hk. cbv zeta. destruct (history_base es k w Hf Hk). split; [done|].
  intros id m (_ & [_ Hr] & _)%b_files Hm. destruct (Hr Hm) as [_ Hs]. unfold started in Hs.
  specialize (b_starts (m_ContainerID m)). lia.
Qed.

(** Launches that were answered name the same run exactly when they came
    under the same key of the same principal and profile, and then they asked
    for the same thing. *)
Theorem key_binds_run es k w p pr key fp i out p' pr' key' fp' i' out' :
  fresh w → Forall keyed es →
  let trace := (history k w es).2 in
  (Launched p pr key fp i, Some (Ok out)) ∈ trace →
  (Launched p' pr' key' fp' i', Some (Ok out')) ∈ trace →
  ((p, pr, digestKey key) = (p', pr', digestKey key') ↔ out_RunID out = out_RunID out') ∧
  (out_RunID out = out_RunID out' → fp = fp').
Proof.
  intros Hf%fresh_base Hk. cbv zeta. pose proof (history_sound es k w Hf Hk) as H.
  destruct (history k w es) as [[k' w'] trace]. destruct H as [[[] _] Htr]. cbn. intros H1 H2.
  apply Htr in H1 as (r & Hr & Hkey & Hfp & Hrun), H2 as (r' & Hr' & Hkey' & Hfp' & Hrun').
  assert (r_run_id r = r_run_id r' → r = r') as Hid by by apply (nodup_map r_run_id (w_intents w')).
  split; [|intros E; assert (r = r') by (apply Hid; congruence); congruence].
  rewrite <- Hkey, <- Hkey', <- Hrun, <- Hrun'. split; intros E; [|by rewrite Hid].
  by rewrite (nodup_map key_of (w_intents w') r r').
Qed.

(** C12: the number of intents of a profile that have not ended never exceeds
    the profile's limit. *)
Theorem concurrency_bounded es k w profile max :
  fresh w → Forall keyed es → MaxConcurrentRuns cfg !! profile = Some max → 0 < max →
  Z.of_nat (count_active profile (w_intents (history k w es).1.2)) ≤ max.
Proof. intros Hf%fresh_base Hk. destruct (history_base es k w Hf Hk). apply b_active. Qed.

(** An intent is never lost: its key, request and run stay, and once it
    has ended it stays ended, over every continuation of every history. *)
Theorem intents_final es es' k w r :
  fresh w → Forall keyed (es ++ es') →
  r ∈ w_intents (history k w es).1.2 →
  ∃ r', r' ∈ w_intents (history k w (es ++ es')).1.2 ∧ same_id r r' ∧
    (r_state r = intentStateTerminal → r_state r' = intentStateTerminal).
Proof.
  intros Hf%fresh_base [Hk Hk']%Forall_app. rewrite history_app. pose proof (history_base es k w Hf Hk) as Hb.
  destruct (history k w es) as [[k1 w1] trace]. cbn in *. intros Hr.
  pose proof (history_sound es' k1 w1 Hb Hk') as H. destruct (history k1 w1 es') as [[k2 w2] trace'].
  destruct H as [[_ Hle] _]. destruct (Hle r Hr) as (r' & Hr' & Hs & Ht). exists r'. split_and!; [done..|].
  unfold nonterminal in Ht. intros E. rewrite E in Ht. destruct (String.eqb_spec (r_state r') intentStateTerminal); [done|].
  by specialize (Ht eq_refl).
Qed.
End History.

(** ** Witnesses *)

(** The process dies after it created the container, restarts, and is asked
    again; the run is stopped, and asked for once more. *)
Definition sample_launched : event := Launched "ops" "builder" "key-1" "fp-1" sample_input.
Definition sample_events : list event :=
  [sample_launched; Restarted; sample_launched; StopAsked "20260101T000001Z-01"; sample_launched].

Lemma empty_fresh : @fresh sim sim_engine (dying_at 9) sim_laws empty_world.
Proof. split; try done. intros c. cbn. unfold sim_starts. rewrite lookup_empty. cbn. lia. Qed.

Lemma sample_keyed : Forall keyed sample_events.
Proof. by repeat constructor. Qed.

Definition sample_history := @history sim sim_engine (dying_at 9) 0 empty_world sample_events.

Lemma sample_answer n out :
  sample_history.2 !! n = Some (sample_launched, Some (Ok out)) →
  (sample_launched, Some (Ok out)) ∈ sample_history.2.
Proof. apply list_elem_of_lookup_2. Qed.

Definition sample_out (status : string) : LaunchAgentOutput :=
  {| out_RunID := "20260101T000001Z-01"; out_WorkerAgentID := "worker:20260101T000001Z-01"; out_Repo := "octo/app";
     out_Branch := "agent/worker/20260101T000001Z-01"; out_Status := status;
     out_Deadline := sample_now 1 + 30 * minute; out_Replay := true |}.

Lemma started_once_witness :
  (∀ c, (sim_starts (w_engine sample_history.1.2) c ≤ 1)%nat) ∧
  starts_of sample_history.1.2 = [1%nat].
Proof.
  split; [|by vm_compute].
  exact (proj1 (@started_once sim sim_engine (dying_at 9) sim_laws sample_events 0 empty_world
                  empty_fresh sample_keyed)).
Defined.

Lemma key_binds_run_witness :
  (sample_launched, Some (Ok (sample_out StatusRunning))) ∈ sample_history.2 ∧
  out_RunID (sample_out StatusRunning) = out_RunID (sample_out StatusStopped).
Proof.
  assert ((sample_launched, Some (Ok (sample_out StatusRunning))) ∈ sample_history.2) as H1
    by (apply (sample_answer 2); by vm_compute).
  assert ((sample_launched, Some (Ok (sample_out StatusStopped))) ∈ sample_history.2) as H2
    by (apply (sample_answer 4); by vm_compute).
  split; [done|].
  by apply (@key_binds_run sim sim_engine (dying_at 9) sim_laws sample_events 0 empty_world
    "ops" "builder" "key-1" "fp-1" sample_input (sample_out StatusRunning)
    "ops" "builder" "key-1" "fp-1" sample_input (sample_out StatusStopped) empty_fresh sample_keyed).
Defined.

Lemma concurrency_bounded_witness :
  Z.of_nat (count_active "builder" (w_intents sample_history.1.2)) ≤ 2.
Proof.
  apply (@concurrency_bounded sim sim_engine (dying_at 9) sim_laws sample_events 0 empty_world "builder" 2
           empty_fresh sample_keyed); [by vm_compute|lia].
Defined.

Lemma intents_final_witness :
  ∃ r r', r ∈ w_intents (@history sim sim_engine (dying_at 9) 0 empty_world sample_events).1.2 ∧
    r' ∈ w_intents (@history sim sim_engine (dying_at 9) 0 empty_world (sample_events ++ [Restarted; sample_launched])).1.2 ∧
    same_id r r' ∧ r_state r' = intentStateTerminal.
Proof.
  assert (∃ r, r ∈ w_intents (@history sim sim_engine (dying_at 9) 0 empty_world sample_events).1.2 ∧
     r_state r = intentStateTerminal) as (r & Hr & Hs).
  { destruct (w_intents (@history sim sim_engine (dying_at 9) 0 empty_world sample_events).1.2) as [|r l] eqn:E.
    { by vm_compute in E. }
    exists r. split; [by left|]. vm_compute in E. injection E as <- _. done. }
  assert (Forall keyed (sample_events ++ [Restarted; sample_launched])) as Hk by by repeat constructor.
  destruct (@intents_final sim sim_engine (dying_at 9) sim_laws sample_events [Restarted; sample_launched] 0 empty_world r
              empty_fresh Hk Hr) as (r' & Hr' & Hid & Ht).
  exists r, r'. exact (conj Hr (conj Hr' (conj Hid (Ht Hs)))).
Defined.
