(* ===== verification/LaunchProgress.v ===== *)
(** * Durable launches: a launch that meets no failure starts its container

    LaunchHistory.v shows what never happens; here is what does happen when the
    process lives, the stores work and Docker accepts the calls. *)

From S2P Require Import Prelude GoStrings GoTime Capability CapabilityStore Sandbox LaunchIntents Process Docker.
From S2P Require Import Launch LaunchInvariant LaunchSafety LaunchSim.
Open Scope string_scope.
Open Scope list_scope.
Open Scope Z_scope.

Section Progress.
Context {D : Type} `{Eng : DockerEngine D} `{Svc : Service} `{L : !DockerLaws parse_time}.
Implicit Types (w : world D) (d : D) (t : list intent_row) (m : RunMetadata).

Record healthy_service : Prop := {
  he_lives : ∀ k, dies k = false; he_db : ∀ k, db_fault k = None; he_files : ∀ k, file_fails k = false;
  he_start : ∀ k k' d name req c, (e_create k d name req).2 = Ok c → (e_start k' (e_create k d name req).1 c).2 = Ok () }.

(** Docker gives the container name to a new container. *)
Definition accepts d (name : string) : Prop :=
  ∀ k k' image req, ∃ id, (e_create k' (e_image k d image).1 name req).2 = Ok id.

(** The run's capability can be minted, if its template asks for one. *)
Definition mints w (tmpl : Template) m : Prop :=
  mintsCapability tmpl = false ∨
  has_capability_store = true ∧ ∃ claims, deriveCapabilityClaims tmpl (m_run m) = Ok claims ∧
    ∀ k, is_ok (CapabilityStore.Issue sha256_hex (cap_fault k) (w_caps w) claims (cap_random k) (now k) (now2 k)).2 = true.

Hypothesis He : healthy_service.

Notation lives m Q w := (wp (λ _, False) m Q w).

Lemma live_effect {W A} (f : nat → W → W * A) (Q : A → W → Prop) v :
  (∀ k, Q (f k v).2 (f k v).1) → wp (λ _, False) (effect dies f) Q v.
Proof using He. intros HQ k. unfold effect. rewrite (he_lives He). specialize (HQ k). by destruct (f k v). Qed.

Definition one_row (id : string) t : Prop := length (List.filter (has_run id) t) = 1%nat.

Lemma one_row_update id id' f t :
  (∀ r, r_run_id (f r) = r_run_id r) → one_row id t → one_row id (update_run id' f t).
Proof using Type.
  intros Hf. unfold one_row, update_run. intros <-. induction t as [|r t IH]; [done|]. cbn.
  assert (has_run id (if has_run id' r then f r else r) = has_run id r) as ->.
  { unfold has_run. destruct (_ =? id')%string; [by rewrite Hf|done]. }
  by destruct (has_run id r); cbn; rewrite IH.
Qed.

Lemma live_save i (Q : result svc_error unit → world D → Prop) w :
  one_row (it_RunID i) (w_intents w) →
  (∀ t, one_row (it_RunID i) t → Q (Ok ()) (set_intents t w)) → lives (save i) Q w.
Proof using He.
  intros H1 HQ. apply live_effect. intros k. unfold Save. rewrite (he_db He). cbn. rewrite H1. cbn.
  by apply HQ, one_row_update.
Qed.

Lemma live_saveMetadata id m (Q : result svc_error unit → world D → Prop) w :
  one_row id (w_intents w) →
  (∀ t, one_row id t → Q (Ok ()) (set_intents t w)) → lives (saveMetadata m) Q w.
Proof using He.
  intros H1 HQ. apply live_effect. intros k. unfold SaveMetadata. rewrite (he_db He). cbn. by apply HQ, one_row_update.
Qed.

Lemma live_writeFile m (Q : result svc_error unit → world D → Prop) w :
  Q (Ok ()) (set_file (m_RunID m) m w) → lives (writeMetadataFile m) Q w.
Proof using He. intros HQ. apply live_effect. intros k. by rewrite (he_files He). Qed.

(** A run that is shown running, with a container that was started once. *)
Definition shown_running (id : string) (res : result svc_error LaunchAgentOutput) w : Prop :=
  ∃ out m, res = Ok out ∧ out_RunID out = id ∧ out_Status out = StatusRunning ∧
    w_files w !! id = Some m ∧ m_Status m = StatusRunning ∧ d_starts (w_engine w) (m_ContainerID m) = 1%nat.

Lemma live_commitRunning x m w :
  it_RunID x = m_RunID m → one_row (m_RunID m) (w_intents w) → d_starts (w_engine w) (m_ContainerID m) = 1%nat →
  lives (commitRunningIntent x m) (shown_running (m_RunID m)) w.
Proof using He.
  intros Hx H1 Hs. apply wp_try, live_save; [by cbn; rewrite Hx|]. intros t Ht. cbn in Ht. rewrite Hx in Ht.
  apply wp_try, wp_try, live_writeFile. apply wp_try, (live_saveMetadata (m_RunID m)); [done|]. intros t' Ht'.
  apply wp_andThen, wp_poke, wp_done, wp_done. eexists _, (with_status m StatusRunning). cbn.
  split_and!; [done|done|done|by rewrite lookup_insert_eq|done|done].
Qed.

Lemma live_create spec (Q : result backend_error ContainerInfo → world D → Prop) w tmpfs :
  accepts (w_engine w) (container_name (sp_RunID spec)) → tmpfsOptions (sp_Tmpfs spec) (sp_User spec) = Some tmpfs →
  (∀ info d, d_created d (ci_ID info) → d_starts d (ci_ID info) = 0%nat → (∀ k, (e_start k d (ci_ID info)).2 = Ok ()) →
     ci_Lifecycle info = ContainerNeverStarted → Q (Ok info) (set_engine d w)) →
  lives (create spec) Q w.
Proof using He.
  intros Ha Ht HQ. apply wp_zoom. unfold Docker.Create. set (spec' := with_labels _ _). cbv zeta.
  apply wp_andThen, wp_try, live_effect. intros k.
  assert (∀ digest platform, lives
    (match tmpfsOptions (sp_Tmpfs spec') (sp_User spec') with
     | None => done (Err BTmpfs)
     | Some tmpfs =>
       r <-! effect dies (λ k d, e_create k d (container_name (sp_RunID spec')) (create_request spec' tmpfs)) ;;
       match r with
       | Ok id => done (Ok {| ci_ID := id; ci_ImageDigest := digest; ci_Platform := platform; ci_Existing := false;
                              ci_Lifecycle := ContainerNeverStarted; ci_Status := no_status |})
       | Err e => if bool_decide (DockerStatusCode e = Some 409)
                  then adopt dies sha256_hex json_spec parse_time spec' else done (Err (BDocker e))
       end
     end) (λ a v, Q a (set_engine v w)) (e_image k (w_engine w) (sp_Image spec')).1) as Hrest.
  { intros digest platform. cbn [spec' sp_Tmpfs sp_User with_labels]. rewrite Ht. apply wp_andThen, live_effect. intros k2.
    destruct (Ha k k2 (sp_Image spec') (create_request spec' tmpfs)) as [id E]. cbn in E |- *. rewrite E.
    destruct (create_fresh _ _ _ _ _ _ E). apply wp_done, HQ; [done|done| |done]. intros k3. by apply (he_start He). }
  destruct (e_image _ _ _).2 as [out|x]; [apply wp_done; destruct (img_RepoDigests out); [destruct (negb _)|]|]; apply Hrest.
Qed.

Lemma live_start_container x m info h w :
  ci_Lifecycle info = ContainerNeverStarted → it_RunID x = m_RunID m → one_row (m_RunID m) (w_intents w) →
  d_created (w_engine w) (m_ContainerID m) → d_starts (w_engine w) (m_ContainerID m) = 0%nat →
  (∀ k, (e_start k (w_engine w) (m_ContainerID m)).2 = Ok ()) →
  lives (start_container x m info h) (shown_running (m_RunID m)) w.
Proof using He.
  intros Hl Hx H1 Hc Hs Hok. unfold start_container. rewrite Hl.
  apply wp_try, live_save; [by cbn; rewrite Hx|]. intros t Ht. cbn in Ht. rewrite Hx in Ht.
  apply wp_andThen, wp_zoom, live_effect. intros k.
  pose proof (Hok k) as E. cbn. rewrite E. apply live_commitRunning; [done|done|].
  pose proof (start_once _ k (w_engine w) (m_ContainerID m)). pose proof (start_done _ k (w_engine w) _ E). cbn. lia.
Qed.

Lemma live_mint tmpl m (Q : result svc_error string → world D → Prop) w :
  mints w tmpl m → (∀ h c, Q (Ok h) (set_caps c w)) → lives (mintLaunchCapability tmpl m) Q w.
Proof using He.
  intros Hm HQ. unfold mintLaunchCapability. destruct Hm as [->|(Hstore & claims & Hd & Hi)]; cbn [negb].
  { apply wp_done. replace w with (set_caps (w_caps w) w) by by destruct w. apply HQ. }
  destruct (negb (mintsCapability tmpl)).
  { apply wp_done. replace w with (set_caps (w_caps w) w) by by destruct w. apply HQ. }
  rewrite Hstore, Hd. cbn [negb]. apply live_effect. intros k. specialize (Hi k).
  destruct (Issue _ _ _ _ _ _ _) as [c [h|e]]; cbn in *; [apply HQ|done].
Qed.

(** What a new run needs. *)
Record launchable w (tmpl : Template) m : Prop := {
  la_status : m_Status m = StatusPending;
  la_template : Templates cfg !! run_Template (m_run m) = Some tmpl;
  la_mints : mints w tmpl m;
  la_spec : ∀ h, is_Some (runtimeSpec cfg (m_run m) tmpl h);
  la_tmpfs : is_Some (tmpfsOptions (Tmpfs tmpl) (User tmpl));
  la_name : accepts (w_engine w) (container_name (m_RunID m)) }.

Lemma runtimeSpec_fields cf i tmpl h spec :
  runtimeSpec cf i tmpl h = Some spec → sp_RunID spec = RunID i ∧ sp_Tmpfs spec = Tmpfs tmpl ∧ sp_User spec = User tmpl.
Proof using Type. unfold runtimeSpec. cbv zeta. intros E. peel E. by simplify_eq. Qed.

Lemma live_resume x w tmpl :
  it_State x = intentStateCreated → it_RunID x = m_RunID (it_Metadata x) →
  pl_ConfigVersion (it_Plan x) = ConfigVersion cfg → one_row (it_RunID x) (w_intents w) →
  launchable w tmpl (it_Metadata x) →
  lives (resumeLaunchIntent x) (shown_running (it_RunID x)) w.
Proof using He.
  intros Hst Hx Hv H1 []. unfold resumeLaunchIntent. rewrite Hv, String.eqb_refl, la_status0, Hst, la_template0. cbn.
  set (m := it_Metadata x) in *.
  apply wp_try, wp_try, live_effect. intros k. rewrite (he_files He). cbn. apply live_writeFile.
  apply wp_try, live_mint; [done|]. intros h c.
  destruct (la_spec0 h) as [spec Hspec]. rewrite Hspec. destruct (runtimeSpec_fields _ _ _ _ _ Hspec) as (Hid & Htm & Hu).
  apply wp_andThen, live_save; [done|]. intros t Ht. cbn in Ht. destruct la_tmpfs0 as [tmpfs Htmp].
  apply wp_andThen, (live_create _ _ _ tmpfs); [by cbn; rewrite Hid|by rewrite Htm, Hu|]. intros info d Hc Hs Hok Hl.
  apply wp_try, live_save; [done|]. intros t' Ht'. cbn in Ht'. rewrite Hx in *.
  by apply (live_start_container x (with_container m (ci_ID info) (ci_ImageDigest info))).
Qed.

Lemma one_row_app id t r : existsb (has_run id) t = false → r_run_id r = id → one_row id (t ++ [r]).
Proof using Type.
  intros Ht <-. unfold one_row. rewrite List.filter_app. cbn. unfold has_run at 2. rewrite String.eqb_refl, length_app. cbn.
  assert (List.filter (has_run (r_run_id r)) t = []) as ->; [|done].
  induction t as [|r' t IH]; [done|]. cbn in *. apply orb_false_iff in Ht as [-> Ht]. auto.
Qed.

(** A run the service may launch now: its key and run are new, its profile has
    room, its task fits. *)
Record admissible w (principal profile digest fingerprint : string) (i : LaunchAgentInput)
    (sel : Template * string * string * Z * option ResolvedRelease) (at_ : time) : Prop := {
  ad_room : 0 < default 0 (MaxConcurrentRuns cfg !! profile) →
    Z.of_nat (count_active profile (w_intents w)) < default 0 (MaxConcurrentRuns cfg !! profile);
  ad_run : existsb (has_run sel.1.1.1.2) (w_intents w) = false;
  ad_meta : let '(tmpl, runID, branch, limit, release) := sel in
    let m := launch_metadata cfg principal profile digest fingerprint i tmpl runID branch limit release at_ in
    validateTaskContract cfg (taskContract cfg (m_run m)) = Ok () ∧ ∃ tmpl0, launchable w tmpl0 m }.

Lemma live_create_intent w intent max :
  List.find (has_key (it_Principal intent) (it_Profile intent) (it_KeyDigest intent)) (w_intents w) = None →
  existsb (has_run (it_RunID intent)) (w_intents w) = false →
  (0 < max → Z.of_nat (count_active (it_Profile intent) (w_intents w)) < max) →
  ∀ k, LaunchIntents.Create (db_fault k) (w_intents w) intent max (now k) =
       (w_intents w ++ [row_of intent (now k)], Ok (intent, true)).
Proof using He.
  intros Hf Hr Hm k. unfold LaunchIntents.Create. rewrite (he_db He), Hf. cbn. rewrite !andb_false_r, Hr.
  destruct (0 <? max) eqn:E; cbn; [|done]. apply Z.ltb_lt in E. specialize (Hm E).
  destruct (max <=? _) eqn:E2; [|done]. apply Z.leb_le in E2. lia.
Qed.

(** C13: a launch under a new key that is selected and admitted, in a service
    that meets no failure, answers with a running run whose container was
    started, once, and whose file says so. *)
Theorem launch_starts principal profile rawKey fingerprint i w :
  rawKey ≠ "" →
  List.find (has_key principal profile (digestKey rawKey)) (w_intents w) = None →
  (∀ k, ∃ sel, selectLaunchTemplate re_compile re_match cfg ((λ r, r k) <$> resolver) i (now2 k) (random k) = Ok sel ∧
     ∀ k', admissible w principal profile (digestKey rawKey) fingerprint i sel (now k')) →
  ∀ k, ∃ k' w' res id, LaunchProfile principal profile rawKey fingerprint i k w = (k', w', Some res) ∧
    shown_running id res w'.
Proof using He.
  intros Hkey%String.eqb_neq Hfind Hsel k.
  assert (lives (LaunchProfile principal profile rawKey fingerprint i) (λ res w', ∃ id, shown_running id res w') w) as Hl.
  { unfold LaunchProfile. rewrite Hkey. cbv zeta. set (dg := digestKey rawKey) in *.
    apply wp_try, live_effect. intros k0. unfold Lookup. rewrite (he_db He), Hfind. cbn.
    apply wp_andThen. intros k1. unfold select. destruct (Hsel k1) as ([[[[tmpl runID] branch] limit] release] & -> & Had).
    cbv beta iota.
    apply wp_andThen. intros k3. unfold clock. destruct (Had k3) as [Hroom Hrun (Hcon & tmpl0 & Hla)]. cbv zeta.
    set (m := launch_metadata _ _ _ _ _ _ _ _ _ _ _ _) in *. rewrite Hcon. set (x := new_intent _ _ _ _ _ _ _).
    apply wp_try, live_effect. intros k2.
    assert (m_RunID m = runID) as HR by (unfold m; by destruct release).
    rewrite (live_create_intent w x); [|done|by cbn; rewrite HR|done]. cbn.
    apply wp_andThen. eapply wp_mono; [apply (live_resume x _ tmpl0); [done|done|done| |]|done|].
    - apply one_row_app; [by cbn; rewrite HR|done].
    - destruct Hla. by split.
    - intros res w' (out & m' & -> & ? & ? & ? & ? & ?). apply wp_done.
      eexists _, _, m'. by split_and!. }
  specialize (Hl k). destruct (LaunchProfile _ _ _ _ _ k w) as [[k' w'] [res|]]; [|done].
  destruct Hl as [id Hl]. by exists k', w', res, id.
Qed.
End Progress.

(** ** Witness *)

Lemma steady_healthy : @healthy_service sim sim_engine steady.
Proof. split; [done..|]. intros k k' d name req c. apply sim_starts_ok. Qed.

Lemma launch_starts_witness :
  ∃ k' w' res id, @LaunchProfile sim sim_engine steady "ops" "builder" "key-1" "fp-1" sample_input 0%nat empty_world =
    (k', w', Some res) ∧ @shown_running sim sim_engine steady sim_laws id res w'.
Proof.
  apply (@launch_starts sim sim_engine steady sim_laws steady_healthy); [done|done|].
  intros k. eexists. split; [vm_compute; reflexivity|]. intros k1. split; [by vm_compute|by vm_compute|].
  split; [by vm_compute|]. exists sample_template. split; [done|by vm_compute| |by eexists|by eexists|].
  - right. split; [done|]. eexists. split; [vm_compute; reflexivity|done].
  - intros ????. by eexists.
Defined.
