(* ===== verification/Cleanup.v ===== *)
(** * internal/sandbox/service.go: the removal of runs

    [CleanupRun] removes a run's container and directory and forgets the run,
    whatever its status; the index of intents keeps its row.  It keeps the
    invariant of LaunchInvariant.  The containers and credentials of Codex
    workflows, of which the metadata of these runs has none, and audit records
    are left out. *)

From S2P Require Import Prelude GoStrings GoTime Capability CapabilityStore Sandbox Paths LaunchIntents Process Docker.
From S2P Require Import Launch LaunchInvariant LaunchSafety LaunchSim LaunchHistory.
Open Scope string_scope.
Open Scope list_scope.
Open Scope Z_scope.

(** ** The removal of a directory *)

(** All of it, or an error with some of it gone: the metadata, the result. *)
Inductive removal := Removed | Partly (metadata result : bool).

(** By the number of an effect: what os.RemoveAll does, how often the helper is
    inspected, and the time in its name. *)
Class Removals := { remove_all : nat → removal; polls : nat → nat; stamp : nat → string }.

Definition drop_files {D} (id : string) (metadata result : bool) (w : world D) : world D :=
  {| w_intents := w_intents w;
     w_files := if metadata then delete id (w_files w) else w_files w;
     w_results := if result then delete id (w_results w) else w_results w;
     w_engine := w_engine w; w_caps := w_caps w; w_runs := w_runs w |}.

(** filepath.Rel(base, path) fails or climbs. *)
Definition escapesBase (base path : string) : bool :=
  negb (pathWithin path base).

Definition runDir (runsDir id : string) : string := Clean (runsDir +:+ "/" +:+ id).

Section Cleanup.
Context {D : Type} `{Eng : DockerEngine D} `{Svc : Service} `{Rem : Removals}.

Notation M := (prog (world D)).

Definition RemoveAll (id : string) : M bool :=
  effect dies (λ k w, match remove_all k with
                      | Removed => (drop_files id true true w, true)
                      | Partly metadata result => (drop_files id metadata result w, false)
                      end).

Definition make_removable (image path : string) : M (result docker_error unit) := λ k,
  docker (MakeRemovable dies parse_time (polls k) ("sandbox-cleanup-" +:+ stamp k) image path) k.

(** The metadata of the removed run, with its final status; statusOutput projects it. *)
Definition CleanupRun (runID : string) : M (result svc_error RunMetadata) :=
  m <-? lookupRun runID ;;
  let dir := runDir (RunsDir cfg) (m_RunID m) in
  if escapesBase (RunsDir cfg) dir then done (Err EFile) else
  r <-! (if (m_ContainerID m =? "")%string then done (Ok ()) else docker (Remove dies (m_ContainerID m))) ;;
  match r with
  | Err x => done (Err (ERemove x))
  | Ok _ =>
    gone <-! RemoveAll (m_RunID m) ;;
    gone <-! (if gone then done true else
              r <-! make_removable (run_Image (m_run m)) dir ;;
              match r with Ok _ => RemoveAll (m_RunID m) | Err _ => done false end) ;;
    if negb gone then done (Err EFile) else
    t <-! clock ;;
    _ <-! poke (λ w, set_runs (delete (m_RunID m) (w_runs w)) w) ;;
    done (Ok (ended m StatusCleaned (m_FinalizeReason m) (m_TerminalSource m) (m_ExitCode m) t))
  end.
End Cleanup.

(** ** The invariant *)

Section CleanupSafety.
Context {D : Type} `{Eng : DockerEngine D} `{Svc : Service} `{L : !DockerLaws parse_time} `{Rem : Removals}.
Implicit Types (w : world D) (d : D).

Lemma good_drop t0 id w id' metadata result : good t0 id w → good t0 id (drop_files id' metadata result w).
Proof.
  intros ([] & ? & ?). split_and!; [|done..]. split; cbn; try done.
  intros k m. destruct metadata; [|apply b_files]. intros [_ Hm]%lookup_delete_Some. by apply b_files.
Qed.

Lemma good_forget t0 id w id' : good t0 id w → good t0 id (set_runs (delete id' (w_runs w)) w).
Proof.
  intros ([] & ? & ?). split_and!; [|done..]. split; cbn; try done.
  intros k m [_ Hm]%lookup_delete_Some. by apply b_runs.
Qed.

Lemma wp_remove_all t0 id id' (Q : bool → world D → Prop) w :
  good t0 id w → (∀ b w', good t0 id w' → Q b w') → wp (good t0 id) (RemoveAll id') Q w.
Proof.
  intros Hg HQ. apply wp_effect; [done|]. intros k. destruct (remove_all k); apply HQ; by apply good_drop.
Qed.

(** A container that was just created is started at most once. *)
Lemma wp_start_new t0 id w cid (Q : result docker_error unit → D → Prop) d :
  good t0 id (set_engine d w) → d_created d cid → d_starts d cid = 0%nat →
  (∀ res d', good t0 id (set_engine d' w) → Q res d') →
  wp (λ d, good t0 id (set_engine d w)) (Start dies cid) Q d.
Proof.
  intros Hg Hc Hs HQ k.
  pose proof (wp_start t0 id cid (λ res w', ∃ d', w' = set_engine d' w ∧ good t0 id w' ∧ Q res d') (set_engine d w) Hg Hc Hs) as H.
  specialize (H ltac:(intros res d' Hg' _ _; exists d'; split_and!; [done|done|by apply HQ]) k).
  unfold start, docker, zoom in H. cbn in H. destruct (Start dies cid k d) as [[k' d'] [res|]]; [|done].
  destruct H as (d2 & E & _ & H). injection E as <-. done.
Qed.

Lemma wp_quiet {A} t0 id w (f : nat → D → D * A) (Q : A → D → Prop) d :
  good t0 id (set_engine d w) →
  (∀ k d c, d_starts (f k d).1 c = d_starts d c ∧ (d_created d c → d_created (f k d).1 c)) →
  (∀ a d', good t0 id (set_engine d' w) → Q a d') →
  wp (λ d, good t0 id (set_engine d w)) (effect dies f) Q d.
Proof. intros Hg Hf HQ. apply wp_call; [done..|]. intros k ??. by apply HQ. Qed.

Lemma wp_await t0 id w n cid (Q : result docker_error unit → D → Prop) d :
  good t0 id (set_engine d w) → (∀ res d', good t0 id (set_engine d' w) → Q res d') →
  wp (λ d, good t0 id (set_engine d w)) (await_helper dies parse_time n cid) Q d.
Proof.
  intros Hg HQ. revert d Hg. induction n as [|n IH]; intros d Hg; cbn [await_helper].
  - apply wp_andThen, wp_quiet; [done|intros; by apply stop_frame|]. intros _ d' Hg'. by apply wp_done, HQ.
  - apply wp_try, wp_inspect_d; [done|]. intros [status|x] d' Hg' _ _; [|by apply HQ].
    destruct (negb _); [by apply wp_done, HQ|by apply IH].
Qed.

Lemma wp_make_removable t0 id image path (Q : result docker_error unit → world D → Prop) w :
  good t0 id w → (∀ res w', good t0 id w' → Q res w') → wp (good t0 id) (make_removable image path) Q w.
Proof.
  intros Hg HQ k0. unfold make_removable. revert k0.
  assert (∀ n name k, match docker (MakeRemovable dies parse_time n name image path) k w with
          | (_, w', Some a) => Q a w' | (_, w', None) => good t0 id w' end) as H; [|intros k; apply H].
  intros n name. apply wp_zoom, wp_try, wp_call; [by rewrite set_engine_id|intros; by apply create_frame|].
  intros k Hg' _. cbv beta. destruct (e_create k (w_engine w) name _).2 as [cid|x] eqn:E; [|by apply HQ].
  destruct (cid =? "")%string; [by apply wp_done, HQ|]. destruct (create_fresh _ _ _ _ _ _ E) as [Hc Hs].
  apply wp_andThen. eapply wp_mono with (I := λ d', good t0 id (set_engine d' w)) (Q := λ _ d', good t0 id (set_engine d' w)); [|done|].
  - apply wp_try, wp_start_new; [done..|]. intros [u|x] d' Hg2; [|done]. by apply wp_await.
  - intros res d' Hg2. apply wp_andThen, wp_quiet; [done|intros; by apply remove_frame|].
    intros _ d2 Hg3. by apply wp_done, HQ.
Qed.

Lemma cleanup_keeps id : keeps_sound (CleanupRun id).
Proof.
  apply (keeps_handler id). intros t0 w Hg. apply wp_try, wp_lookupRun; [done|]. intros [m|x] f Hg1 _; [|done].
  cbv zeta. destruct (escapesBase _ _); [by apply wp_done|].
  assert (∀ (r : result docker_error unit) w1, good t0 id w1 → wp (good t0 id)
    (match r with
     | Err x => done (Err (ERemove x))
     | Ok _ =>
       gone <-! RemoveAll (m_RunID m) ;;
       gone <-! (if gone then done true else
                 r <-! make_removable (run_Image (m_run m)) (runDir (RunsDir cfg) (m_RunID m)) ;;
                 match r with Ok _ => RemoveAll (m_RunID m) | Err _ => done false end) ;;
       if negb gone then done (Err EFile) else
       t <-! clock ;;
       _ <-! poke (λ w, set_runs (delete (m_RunID m) (w_runs w)) w) ;;
       done (Ok (ended m StatusCleaned (m_FinalizeReason m) (m_TerminalSource m) (m_ExitCode m) t))
     end : prog (world D) (result svc_error RunMetadata)) (λ _, good t0 id) w1) as Hrest.
  { intros [u|x] w1 Hg2; [|by apply wp_done]. apply wp_andThen, wp_remove_all; [done|]. intros gone w2 Hg3.
    apply wp_andThen. eapply wp_mono with (I := good t0 id) (Q := λ _, good t0 id); [|done|].
    - destruct gone; [by apply wp_done|]. apply wp_andThen, wp_make_removable; [done|].
      intros [u'|x] w3 Hg4; [by apply wp_remove_all|by apply wp_done].
    - intros g w3 Hg4. destruct (negb g); [by apply wp_done|]. apply wp_andThen, wp_clock. intros t.
      apply wp_andThen, wp_poke, wp_done. by apply good_forget. }
  apply wp_andThen. destruct (m_ContainerID m =? "")%string; [by apply wp_done, (Hrest (Ok ()))|].
  apply wp_zoom, wp_quiet; [by destruct f|intros; by apply remove_frame|]. intros r d Hg2. by apply Hrest.
Qed.

(** ** What a removal touches *)

(** Everything of the other runs, the index and the capabilities stay; the files
    of the run are touched only after its container, if any, was removed. *)
Record touches (id : string) w w' : Prop := {
  to_intents : w_intents w' = w_intents w; to_caps : w_caps w' = w_caps w;
  to_others : ∀ id', id' ≠ id → w_files w' !! id' = w_files w !! id' ∧ w_results w' !! id' = w_results w !! id' ∧
    w_runs w' !! id' = w_runs w !! id';
  to_container : w_files w' !! id ≠ w_files w !! id ∨ w_results w' !! id ≠ w_results w !! id →
    ∃ m, (w_runs w !! id = Some m ∨ w_files w !! id = Some m) ∧
      (m_ContainerID m = "" ∨ ∃ k, (e_remove k (w_engine w) (m_ContainerID m)).2 = Ok ()) }.

Lemma touches_refl id w : touches id w w.
Proof. split; try done. by intros [?|?]. Qed.

Lemma touches_engine id w w' d : touches id w w' → touches id w (set_engine d w').
Proof. by intros []. Qed.

Lemma touches_memory id w w' r : (∀ id', id' ≠ id → r !! id' = w_runs w' !! id') →
  touches id w w' → touches id w (set_runs r w').
Proof.
  intros Hr []. split; try done. intros id' Hne. cbn. rewrite Hr by done. by apply to_others0.
Qed.

Lemma touches_drop id w w' m metadata result :
  (w_runs w !! id = Some m ∨ w_files w !! id = Some m) →
  (m_ContainerID m = "" ∨ ∃ k, (e_remove k (w_engine w) (m_ContainerID m)).2 = Ok ()) →
  touches id w w' → touches id w (drop_files id metadata result w').
Proof.
  intros Hm Hc []. split; try done; [|by exists m]. intros id' Hne. destruct (to_others0 id' Hne) as (? & ? & ?).
  cbn. by destruct metadata, result; rewrite ?lookup_delete_ne by done.
Qed.

Lemma wp_touch_engine {A} id w w1 (p : prog D A) (Q : A → world D → Prop) :
  touches id w w1 → (∀ a d, Q a (set_engine d w1)) → wp (touches id w) (docker p) Q w1.
Proof.
  intros Ht HQ k. unfold docker, zoom. destruct (p k (w_engine w1)) as [[k' d] [a|]]; [apply HQ|by apply touches_engine].
Qed.

(** The run is gone: nothing of it is left but its row in the index. *)
Definition run_gone (id : string) w : Prop :=
  w_files w !! id = None ∧ w_results w !! id = None ∧ w_runs w !! id = None.

Lemma wp_removed id w w1 m (Q : bool → world D → Prop) :
  touches id w w1 → (w_runs w !! id = Some m ∨ w_files w !! id = Some m) →
  (m_ContainerID m = "" ∨ ∃ k, (e_remove k (w_engine w) (m_ContainerID m)).2 = Ok ()) →
  (∀ b w', touches id w w' → (b = true → w_files w' !! id = None ∧ w_results w' !! id = None) → Q b w') →
  wp (touches id w) (RemoveAll id) Q w1.
Proof.
  intros Ht Hm Hc HQ. apply wp_effect; [done|]. intros k. destruct (remove_all k); apply HQ; try done.
  - by eapply touches_drop.
  - intros _. cbn. by rewrite !lookup_delete_eq.
  - by eapply touches_drop.
Qed.

Lemma wp_cleanup_touches id w : Base w →
  wp (touches id w) (CleanupRun id)
    (λ res w', touches id w w' ∧ ∀ m, res = Ok m → run_gone id w' ∧ m_RunID m = id ∧ m_Status m = StatusCleaned) w.
Proof.
  intros Hb. pose proof (touches_refl id w) as H0. unfold CleanupRun. apply wp_try.
  assert (wp (touches id w) (lookupRun id) (λ res w1, touches id w w1 ∧ w_engine w1 = w_engine w ∧
            ∀ m, res = Ok m → m_RunID m = id ∧ (w_runs w !! id = Some m ∨ w_files w !! id = Some m)) w) as Hl.
  { unfold lookupRun. destruct (negb _); [by apply wp_done|]. apply wp_andThen, wp_peek.
    destruct (w_runs w !! id) as [m|] eqn:Er.
    { apply wp_done. split_and!; [done..|]. intros m' [= <-]. split; [|by left]. by apply (b_runs w Hb id m Er). }
    apply wp_try, wp_effect; [done|]. intros k. cbn. destruct (file_fails k); [done|].
    destruct (w_files w !! id) as [m|] eqn:Ef; [|done].
    apply wp_andThen, wp_poke, wp_done. split; [|split; [done|]].
    - apply touches_memory; [|done]. intros id' Hne. by rewrite lookup_insert_ne.
    - intros m' [= <-]. split; [|by right]. by apply (b_files w Hb id m Ef). }
  eapply wp_mono; [exact Hl|done|]. intros [m|x] w1 (H1 & He & Hm); [|done]. destruct (Hm m eq_refl) as [HR Hin].
  cbv zeta. rewrite HR. destruct (escapesBase _ _); [by apply wp_done|].
  apply wp_andThen.
  assert (wp (touches id w) (if (m_ContainerID m =? "")%string then done (Ok ()) else docker (Remove dies (m_ContainerID m)))
            (λ res w2, touches id w w2 ∧ (res = Ok () →
               m_ContainerID m = "" ∨ ∃ k, (e_remove k (w_engine w) (m_ContainerID m)).2 = Ok ())) w1) as Hr.
  { destruct (String.eqb_spec (m_ContainerID m) "") as [E|_]; [apply wp_done; by split; [|left]|].
    apply wp_zoom, wp_effect; [by apply touches_engine|]. intros k. split; [by apply touches_engine|].
    intros E. right. exists k. by rewrite <- He. }
  eapply wp_mono; [exact Hr|done|]. intros [[]|x] w2 [H2 Hc]; [|by apply wp_done]. specialize (Hc eq_refl).
  apply wp_andThen, (wp_removed id w w2 m); [done..|]. intros gone w3 H3 Hg3.
  apply wp_andThen.
  assert (wp (touches id w) (if gone then done true else
            r <-! make_removable (run_Image (m_run m)) (runDir (RunsDir cfg) id) ;;
            match r with Ok _ => RemoveAll id | Err _ => done false end)
          (λ b w', touches id w w' ∧ (b = true → w_files w' !! id = None ∧ w_results w' !! id = None)) w3) as Hagain.
  { destruct gone; [by apply wp_done; auto|]. apply wp_andThen. intros k. apply wp_touch_engine; [done|].
    intros [u|x] d; [|by apply wp_done; split; [apply touches_engine|]].
    eapply wp_removed; [by apply touches_engine|done..|]. by split. }
  eapply wp_mono; [exact Hagain|done|]. intros b w4 [H4 Hg4].
  destruct b; cbn [negb]; [|by apply wp_done]. apply wp_andThen, wp_clock. intros t.
  apply wp_andThen, wp_poke, wp_done. split.
  - apply touches_memory; [|done]. intros id' Hne. by rewrite lookup_delete_ne.
  - intros m' [= <-]. destruct (Hg4 eq_refl). split_and!; [by split_and!; [..|apply lookup_delete_eq]|done|done].
Qed.

(** The removal of a run, wherever the process dies and whatever fails,
    leaves everything of other runs, the index of intents and the capabilities
    as they are; it touches the run's files only once the run's container, if it
    has one, was removed; and it reports success only when metadata, result and
    memory of the run are gone. *)
Theorem cleanup_confined id k w k' w' o :
  Base w → CleanupRun id k w = (k', w', o) →
  touches id w w' ∧ ∀ m, o = Some (Ok m) → run_gone id w' ∧ m_RunID m = id ∧ m_Status m = StatusCleaned.
Proof.
  intros Hb E. pose proof (wp_cleanup_touches id w Hb k) as H. rewrite E in H.
  destruct o as [res|]; [|done]. destruct H as [H1 H2]. split; [done|]. intros m [= ->]. by apply H2.
Qed.
End CleanupSafety.

(** ** Concrete removals *)

#[local] Instance sim_removals : Removals :=
  {| remove_all k := Removed; polls k := 101%nat; stamp k := "t" |}.

Definition launched : nat * world sim := let r := sample_launch healthy 0%nat empty_world in r.1.
Definition launched_run : string := default "" (head (map fst (map_to_list (w_files launched.2)))).
Definition cleaned : nat * world sim * option (result svc_error RunMetadata) :=
  @CleanupRun sim sim_engine healthy sim_removals launched_run launched.1 launched.2.

(** The removal of a running run leaves its intent unfinished: the profile's slot
    stays taken, and the next start of the service fails at the missing container. *)
Example cleanup_of_running_stays :
  let restarted := @Reconcile sim sim_engine healthy cleaned.1.1 (set_runs ∅ cleaned.1.2) in
  statuses launched.2 = [StatusRunning] ∧ match cleaned.2 with Some (Ok m) => m_Status m = StatusCleaned | _ => False end ∧
  count_active "builder" (w_intents cleaned.1.2) = 1%nat ∧
  restarted.2 = Some (Err (EInspect (DockerError 404))).
Proof. vm_compute. done. Qed.
