(* ===== verification/Retention.v ===== *)
(** * internal/sandbox/retention.go: which runs are removed

    [PruneRuns] reads the directory of runs, decides which of them go, and
    removes these with [CleanupRun] (Cleanup).  The decision, [plan], is shared
    with slim.go, which makes the same one with other names for its reasons.
    The report's times, ages and error texts and audit records are left out. *)

From S2P Require Import Prelude GoStrings GoTime Capability CapabilityStore Sandbox Paths LaunchIntents Process Docker.
From S2P Require Import Launch LaunchInvariant LaunchSafety LaunchSim LaunchHistory Cleanup.
Open Scope string_scope.
Open Scope list_scope.
Open Scope Z_scope.

Definition defaultPruneMaxOutput : Z := 200.

Definition reasonNotDirectory := "not_a_directory".
Definition reasonInvalidRunID := "invalid_run_id".
Definition reasonPathEscape := "path_escape".
Definition reasonMetadataRead := "metadata_read_error".
Definition reasonNotTerminal := "not_terminal".
Definition reasonActive := "active".
Definition reasonKeepNewest := "keep_newest".
Definition reasonTooNew := "younger_than_max_age".
Definition reasonEligible := "eligible".
Definition reasonDeleteAge := "delete_age".
Definition reasonDeleteBudget := "delete_budget".
Definition reasonWithinBudget := "within_budget".
Definition reasonWouldDelete := "would_delete".
Definition reasonDeleteFailed := "delete_failed".
Definition reasonDeleted := "deleted".

Record RetentionPolicy := {
  MaxAge : Z; KeepNewest : Z; TerminalOnly : bool; MaxBytes : Z; DryRun : bool; MaxOutput : Z }.

Definition normalize (p : RetentionPolicy) : RetentionPolicy :=
  {| MaxAge := if MaxAge p =? 0 then 24 * 60 * minute else MaxAge p;
     KeepNewest := if KeepNewest p <? 0 then 0 else KeepNewest p;
     TerminalOnly := TerminalOnly p;
     MaxBytes := if MaxBytes p <? 0 then 0 else MaxBytes p;
     DryRun := DryRun p;
     MaxOutput := if MaxOutput p <=? 0 then defaultPruneMaxOutput else MaxOutput p |}.

Definition maxAgeReached (p : RetentionPolicy) (at_ now : time) : bool :=
  if MaxAge p <? 0 then true
  else if MaxAge p =? 0 then false
  else if is_zero at_ then false
  else MaxAge p <=? time_sub now at_.

Definition hasActiveStatus (status : string) : bool :=
  existsb (String.eqb status) [StatusPending; StatusRunning; StatusWaitingExternal].

(** ** Candidates *)

Inductive entry_kind := KSymlink | KFile | KDirectory.

(** An entry of the directory of runs: the size of the files below it, if they
    can be walked, and the time it was changed, if it can be read. *)
Record dir_entry := {
  de_Name : string; de_Kind : entry_kind; de_Unreadable : bool; de_Size : Z; de_SizeKnown : bool;
  de_ModTime : option time }.

(** Status, template, repository and branch of a PruneRun are those of [c_meta]. *)
Record candidate := {
  c_RunID : string; c_meta : option RunMetadata; c_LastActivity : time; c_SizeBytes : Z; c_sizeKnown : bool;
  c_Keep : bool; c_Delete : bool; c_Reason : string }.

Definition skipped (name reason : string) : candidate :=
  {| c_RunID := name; c_meta := None; c_LastActivity := zero_time; c_SizeBytes := 0; c_sizeKnown := false;
     c_Keep := false; c_Delete := false; c_Reason := reason |}.

Definition runLastActivity (m : RunMetadata) (modtime : option time) : time :=
  if negb (is_zero (m_EndedAt m)) then m_EndedAt m
  else if negb (is_zero (StartedAt (m_run m))) then StartedAt (m_run m)
  else default zero_time modtime.

Definition initial_reason (p : RetentionPolicy) (status : string) : string :=
  if negb (isTerminalStatus status) && TerminalOnly p then reasonNotTerminal
  else if hasActiveStatus status then reasonActive
  else reasonEligible.

(** The metadata of a run by its directory's name. *)
Definition classify (p : RetentionPolicy) (runsDir : string) (metadata : string → option RunMetadata) (e : dir_entry)
    : candidate :=
  match de_Kind e with
  | KSymlink | KFile => skipped (de_Name e) reasonNotDirectory
  | KDirectory =>
    if negb (safeRunID (de_Name e)) then skipped (de_Name e) reasonInvalidRunID
    else if escapesBase runsDir (runDir runsDir (de_Name e)) then skipped (de_Name e) reasonPathEscape
    else match (if de_Unreadable e then None else metadata (de_Name e)) with
         | None => skipped (de_Name e) reasonMetadataRead
         | Some m =>
           {| c_RunID := de_Name e; c_meta := Some m; c_LastActivity := runLastActivity m (de_ModTime e);
              c_SizeBytes := de_Size e; c_sizeKnown := de_SizeKnown e; c_Keep := false; c_Delete := false;
              c_Reason := initial_reason p (m_Status m) |}
         end
  end.

(** ** The plan *)

Definition eligible (c : candidate) : bool := (c_Reason c =? reasonEligible)%string.

Definition newest : relation candidate := λ a b,
  c_LastActivity b < c_LastActivity a ∨ c_LastActivity a = c_LastActivity b ∧ text_order (c_RunID a) (c_RunID b).
Definition oldest : relation candidate := λ a b,
  c_LastActivity a < c_LastActivity b ∨ c_LastActivity a = c_LastActivity b ∧ text_order (c_RunID a) (c_RunID b).

#[export] Instance newest_dec : RelDecision newest.
Proof. intros a b. unfold newest. apply _. Defined.
#[export] Instance oldest_dec : RelDecision oldest.
Proof. intros a b. unfold oldest. apply _. Defined.

Definition decided (keep delete : bool) (reason : string) (c : candidate) : candidate :=
  {| c_RunID := c_RunID c; c_meta := c_meta c; c_LastActivity := c_LastActivity c; c_SizeBytes := c_SizeBytes c;
     c_sizeKnown := c_sizeKnown c; c_Keep := keep; c_Delete := delete; c_Reason := reason |}.

Definition known_size (c : candidate) : Z := if c_sizeKnown c then c_SizeBytes c else 0.
Definition budget_of (l : list candidate) : Z := foldl (λ sum c, wrap64 (sum + known_size c)) 0 l.

(** Deletes from the front until the budget is met. *)
Fixpoint spend (reason : string) (max after : Z) (l : list candidate) : list candidate * Z :=
  match l with
  | [] => ([], after)
  | c :: l =>
    if after <=? max
    then let '(l, after) := spend reason max after l in (decided false false reasonWithinBudget c :: l, after)
    else let '(l, after) := spend reason max (wrap64 (after - known_size c)) l in (decided false true reason c :: l, after)
  end.

Definition over_budget (p : RetentionPolicy) (before : Z) : bool := (0 <? MaxBytes p) && (MaxBytes p <? before).

(** The runs that are old enough, with their order; what they weigh. *)
Definition active (l : list candidate) : list candidate := merge_sort newest (List.filter eligible l).
Definition reached (p : RetentionPolicy) (now : time) (c : candidate) : bool := maxAgeReached p (c_LastActivity c) now.
Definition aged (p : RetentionPolicy) (now : time) (l : list candidate) : list candidate :=
  List.filter (reached p now) (drop (Z.to_nat (KeepNewest p)) (active l)).

(** The selected runs, those of them that go marked, and the budget after that. *)
Definition selected (p : RetentionPolicy) (budgetReason allReason : string) (now : time) (l : list candidate)
    : list candidate * Z :=
  let sel := aged p now l in
  let before := budget_of sel in
  if over_budget p before then spend budgetReason (MaxBytes p) before (merge_sort oldest sel)
  else (map (decided false true allReason) sel, before).

(** The candidates are reached by pointers; here by their names. *)
Definition update (changed : list candidate) (l : list candidate) : list candidate :=
  map (λ c, default c (List.find (λ u, (c_RunID u =? c_RunID c)%string) changed)) l.

Definition plan (p : RetentionPolicy) (budgetReason allReason : string) (now : time) (l : list candidate)
    : list candidate :=
  let n := Z.to_nat (KeepNewest p) in
  update (map (decided true false reasonKeepNewest) (take n (active l))
          ++ map (decided false false reasonTooNew) (List.filter (λ c, negb (reached p now c)) (drop n (active l)))
          ++ (selected p budgetReason allReason now l).1) l.

Definition doomed (p : RetentionPolicy) (budgetReason allReason : string) (now : time) (l : list candidate)
    : list candidate :=
  List.filter c_Delete (selected p budgetReason allReason now l).1.

(** ** Pruning *)

Record PruneReport := {
  Scanned : nat; Considered : nat; Deleted : nat; rp_Failed : nat; Skipped : nat; BudgetBefore : Z; BudgetAfter : Z;
  Truncated : bool; Entries : list candidate }.

Definition empty_report : PruneReport :=
  {| Scanned := 0; Considered := 0; Deleted := 0; rp_Failed := 0; Skipped := 0; BudgetBefore := 0; BudgetAfter := 0;
     Truncated := false; Entries := [] |}.

Definition with_reason (reason : string) (l : list candidate) : nat :=
  length (List.filter (λ c, (c_Reason c =? reason)%string) l).

Section Prune.
Context {D : Type} `{Eng : DockerEngine D} `{Svc : Service} `{Rem : Removals}.
(** The entries of the directory of runs, sorted by name: [None] if it cannot be
    read; [Some None] if it is absent, and whether it can be made. *)
Variable read_dir : nat → option (option (list dir_entry)).

Notation M := (prog (world D)).

Definition observe (p : RetentionPolicy) (entries : list dir_entry) (w : world D) : list candidate :=
  map (classify p (RunsDir cfg) (λ id, w_files w !! id)) entries.

Fixpoint prune_each (dryRun : bool) (l : list candidate) : M (list candidate) :=
  match l with
  | [] => done []
  | c :: l =>
    c' <-! (if negb (c_Delete c) then done c
            else if dryRun then done (decided (c_Keep c) true reasonWouldDelete c)
            else r <-! CleanupRun (c_RunID c) ;;
                 done (decided (c_Keep c) true (match r with Ok _ => reasonDeleted | Err _ => reasonDeleteFailed end) c)) ;;
    l' <-! prune_each dryRun l ;;
    done (c' :: l')
  end.

Definition prune_report (p : RetentionPolicy) (before after : Z) (sel cands : list candidate) : PruneReport :=
  {| Scanned := length cands;
     Considered := length (List.filter (λ c, bool_decide (is_Some (c_meta c))) cands);
     Deleted := with_reason reasonDeleted sel; rp_Failed := with_reason reasonDeleteFailed sel;
     Skipped := length (List.filter (λ c, bool_decide (c_meta c = None)) cands);
     BudgetBefore := before; BudgetAfter := after;
     Truncated := MaxOutput p <? Z.of_nat (length cands); Entries := take (Z.to_nat (MaxOutput p)) cands |}.

Definition prune_entries (p : RetentionPolicy) (now : time) (entries : list dir_entry) : M PruneReport :=
  cands <-! effect dies (λ k w, (w, observe p entries w)) ;;
  let '(sel, after) := selected p reasonDeleteBudget reasonDeleteAge now cands in
  sel <-! prune_each (DryRun p) sel ;;
  done (prune_report p (budget_of (aged p now cands)) after sel
          (update sel (plan p reasonDeleteBudget reasonDeleteAge now cands))).

(** The report, and whether there was an error. *)
Definition PruneRuns (policy : RetentionPolicy) : M (PruneReport * bool) :=
  let p := normalize policy in
  entries <-! effect dies (λ k w, (w, read_dir k)) ;;
  match entries with
  | None => done (empty_report, true)
  | Some None =>
    made <-! effect dies (λ k w, (w, negb (file_fails k))) ;;
    done (empty_report, negb made)
  | Some (Some entries) =>
    now <-! clock ;;
    report <-! prune_entries p now entries ;;
    done (report, (0 <? rp_Failed report)%nat)
  end.
End Prune.

(** ** Sorting and counting *)

Lemma filter_none {A} (P : A → Prop) `{!∀ x, Decision (P x)} (l : list A) : (∀ x, x ∈ l → ¬ P x) → filter P l = [].
Proof.
  induction l as [|x l IH]; intros Hl; [done|]. rewrite filter_cons_False by (apply Hl; by left).
  apply IH. intros y Hy. apply Hl. by right.
Qed.

Lemma filter_every {A} (P : A → Prop) `{!∀ x, Decision (P x)} (l : list A) : (∀ x, x ∈ l → P x) → filter P l = l.
Proof.
  induction l as [|x l IH]; intros Hl; [done|]. rewrite filter_cons_True by (apply Hl; by left).
  f_equal. apply IH. intros y Hy. apply Hl. by right.
Qed.

Lemma elem_of_skip {A} n (x : A) (l : list A) : x ∈ drop n l → x ∈ l.
Proof. intros H. rewrite <- (take_drop n l). apply elem_of_app. by right. Qed.

Section Sorting.
Context {A B : Type} (R : relation A) `{!RelDecision R} `{!Total R} `{!Transitive R} (f : A → B).
Hypothesis same_rank : ∀ x y, R x y → R y x → f x = f y.

(** [y] comes before [x]. *)
Definition precedes (x y : A) : Prop := R y x ∧ ¬ R x y.
#[export] Instance precedes_dec x y : Decision (precedes x y).
Proof using RelDecision0. unfold precedes. apply _. Defined.

Lemma filter_before x l1 l2 :
  NoDup (map f (l1 ++ x :: l2)) → StronglySorted R (l1 ++ x :: l2) → filter (precedes x) (l1 ++ x :: l2) = l1.
Proof using Type*.
  intros Hn [Hb [_ [Hx _]%StronglySorted_cons]]%StronglySorted_app.
  rewrite map_app in Hn. cbn in Hn. apply NoDup_app in Hn as (_ & Hd & _).
  rewrite filter_app, filter_cons_False by by intros [].
  assert (filter (precedes x) l2 = []) as ->.
  { apply filter_none. intros y Hy [_ Hxy]. apply Hxy. by eapply Forall_forall in Hx. }
  rewrite app_nil_r. apply filter_every. intros y Hy. assert (R y x) as Hyx by (apply Hb; [done|by left]).
  split; [done|]. intros Hxy. apply (Hd (f y)); [by apply list_elem_of_fmap_2|]. rewrite (same_rank y x) by done. by left.
Qed.

Lemma elem_of_sorted_drop n x l : NoDup (map f l) →
  x ∈ drop n (merge_sort R l) ↔ x ∈ l ∧ (n ≤ length (filter (precedes x) l))%nat.
Proof using Type*.
  intros Hn. assert (merge_sort R l ≡ₚ l) as Hp by apply merge_sort_Permutation.
  assert (length (filter (precedes x) (merge_sort R l)) = length (filter (precedes x) l)) as <- by by rewrite Hp.
  assert (x ∈ l ↔ x ∈ merge_sort R l) as Hin by by rewrite Hp.
  assert (NoDup (map f (merge_sort R l))) as Hn'.
  { by rewrite (Permutation_map f Hp). }
  split.
  - intros Hx. assert (x ∈ merge_sort R l) as Hs by by eapply elem_of_skip.
    split; [by apply Hin|]. apply list_elem_of_split in Hs as (l1 & l2 & Hs).
    pose proof (StronglySorted_merge_sort R l) as Hsort. rewrite Hs in *. rewrite filter_before by done.
    destruct (decide (n ≤ length l1)%nat) as [|Hlt]; [done|]. exfalso.
    rewrite drop_app_ge in Hx by lia. rewrite map_app in Hn'. cbn in Hn'. apply NoDup_app in Hn' as (_ & _ & [Hx' _]%NoDup_cons).
    apply Hx', list_elem_of_fmap_2. destruct (n - length l1)%nat as [|j] eqn:E; [lia|].
    by eapply elem_of_skip.
  - intros [Hx Hlen]. apply Hin in Hx. apply list_elem_of_split in Hx as (l1 & l2 & Hs).
    pose proof (StronglySorted_merge_sort R l) as Hsort. rewrite Hs in *. rewrite filter_before in Hlen by done.
    rewrite drop_app_le by done. apply elem_of_app. right. by left.
Qed.
End Sorting.

#[export] Instance newest_total : Total newest.
Proof.
  intros a b. unfold newest. destruct (Z.lt_total (c_LastActivity a) (c_LastActivity b)) as [|[E|]]; [by right; left| |by left; left].
  destruct (total text_order (c_RunID a) (c_RunID b)); [left|right]; right; by split.
Qed.

#[export] Instance newest_trans : Transitive newest.
Proof.
  intros a b c [H1|[E1 H1]] [H2|[E2 H2]]; unfold newest; [left; lia..|]. right. split; [congruence|by etrans].
Qed.

#[export] Instance oldest_total : Total oldest.
Proof.
  intros a b. unfold oldest. destruct (Z.lt_total (c_LastActivity a) (c_LastActivity b)) as [|[E|]]; [by left; left| |by right; left].
  destruct (total text_order (c_RunID a) (c_RunID b)); [left|right]; right; by split.
Qed.

#[export] Instance oldest_trans : Transitive oldest.
Proof.
  intros a b c [H1|[E1 H1]] [H2|[E2 H2]]; unfold oldest; [left; lia..|]. right. split; [congruence|by etrans].
Qed.

Lemma newest_names a b : newest a b → newest b a → c_RunID a = c_RunID b.
Proof. intros [?|[? H1]] [?|[? H2]]; [lia..|]. by apply (anti_symm text_order). Qed.

Lemma oldest_names a b : oldest a b → oldest b a → c_RunID a = c_RunID b.
Proof. intros [?|[? H1]] [?|[? H2]]; [lia..|]. by apply (anti_symm text_order). Qed.

(** ** Which runs go *)

Definition newer (c : candidate) (l : list candidate) : list candidate :=
  filter (λ y, newest y c ∧ ¬ newest c y) (List.filter eligible l).

(** The known sizes of the runs of [l] that are older than [c], and of all. *)
Fixpoint weight (l : list candidate) : Z := match l with [] => 0 | c :: l => known_size c + weight l end.
Definition older_weight (c : candidate) (l : list candidate) : Z := weight (filter (λ y, oldest y c ∧ ¬ oldest c y) l).

(** Sizes are not negative, and an int64 holds their sum. *)
Definition weighable (l : list candidate) : Prop := (∀ c, c ∈ l → 0 ≤ known_size c) ∧ weight l ≤ max_int64.

Lemma weight_app l1 l2 : weight (l1 ++ l2) = weight l1 + weight l2.
Proof. induction l1 as [|c l1 IH]; [done|]. cbn. rewrite IH. lia. Qed.

Lemma weight_nonneg l : (∀ c, c ∈ l → 0 ≤ known_size c) → 0 ≤ weight l.
Proof.
  induction l as [|c l IH]; intros H; [done|]. cbn. specialize (H c ltac:(by left)) as Hc.
  assert (0 ≤ weight l) by (apply IH; intros; apply H; by right). lia.
Qed.

Lemma weight_perm l l' : l ≡ₚ l' → weight l = weight l'.
Proof. induction 1; cbn; lia. Qed.

Lemma weighable_sub l l' : weighable l → l' ⊆+ l → weighable l'.
Proof.
  intros [H1 H2] [l2 Hp]%submseteq_Permutation. pose proof (weight_perm _ _ Hp) as E. rewrite weight_app in E.
  assert (∀ c, c ∈ l' ++ l2 → 0 ≤ known_size c) as Hs by (intros c Hc; apply H1; by rewrite Hp).
  assert (0 ≤ weight l2) by (apply weight_nonneg; intros; apply Hs, elem_of_app; by right).
  split; [|lia]. intros c Hc. apply Hs, elem_of_app. by left.
Qed.

Lemma budget_weight l : weighable l → budget_of l = weight l.
Proof.
  assert (∀ sum, 0 ≤ sum → (∀ c, c ∈ l → 0 ≤ known_size c) → sum + weight l ≤ max_int64 →
            foldl (λ sum c, wrap64 (sum + known_size c)) sum l = sum + weight l) as H.
  { induction l as [|c l IH]; intros sum Hs Hn Hm; cbn in *; [lia|].
    assert (0 ≤ known_size c) by (apply Hn; by left).
    assert (0 ≤ weight l) by (apply weight_nonneg; intros; apply Hn; by right).
    rewrite wrap64_id by (unfold int64, min_int64, max_int64 in *; lia).
    rewrite IH; [lia|lia|intros; apply Hn; by right|lia]. }
  intros [H1 H2]. unfold budget_of. rewrite H; [lia|lia|done|lia].
Qed.

(** Within the budget, all that is left stays. *)
Lemma spend_within reason max after l : after ≤ max → ∀ c, c ∈ (spend reason max after l).1 → c_Delete c = false.
Proof.
  intros Ha. induction l as [|c l IH]; intros c' Hc; [by apply elem_of_nil in Hc|]. cbn in Hc.
  destruct (Z.leb_spec after max); [|lia]. destruct (spend reason max after l) as [l' after'].
  by apply elem_of_cons in Hc as [-> |Hc]; [|apply IH].
Qed.

Lemma elem_of_spend reason max after l c' :
  0 ≤ max → after ≤ max_int64 → (∀ c, c ∈ l → 0 ≤ known_size c) → weight l ≤ after →
  c' ∈ (spend reason max after l).1 ∧ c_Delete c' = true ↔
  ∃ l1 c l2, l = l1 ++ c :: l2 ∧ c' = decided false true reason c ∧ max < after - weight l1.
Proof.
  intros Hmax. revert after. induction l as [|c l IH]; intros after Ha Hn Hw.
  { cbn. split; [by intros [?%elem_of_nil _]|]. by intros ([|? ?] & ? & ? & ? & _). }
  cbn in Hw. assert (0 ≤ known_size c) as Hc by (apply Hn; by left).
  assert (∀ x, x ∈ l → 0 ≤ known_size x) as Hn' by (intros; apply Hn; by right).
  assert (0 ≤ weight l) as Hl by by apply weight_nonneg.
  destruct (Z.le_gt_cases after max) as [Hle|Hgt].
  - split.
    + intros [Hin Hd]. by rewrite (spend_within reason max after (c :: l) Hle c' Hin) in Hd.
    + intros (l1 & c1 & l2 & E & _ & Hd). assert (0 ≤ weight l1); [|lia].
      apply weight_nonneg. intros x Hx. apply Hn. rewrite E. apply elem_of_app. by left.
  - cbn. destruct (Z.leb_spec after max); [lia|]. rewrite wrap64_id by (unfold int64, min_int64, max_int64 in *; lia).
    specialize (IH (after - known_size c) ltac:(lia) Hn' ltac:(lia)).
    destruct (spend reason max (after - known_size c) l) as [l' after']. cbn in IH |- *.
    rewrite elem_of_cons. split.
    + intros [[-> |Hin] Hdel].
      * exists [], c, l. cbn. split_and!; [done|done|lia].
      * apply proj1 in IH. destruct (IH (conj Hin Hdel)) as (l1 & c1 & l2 & -> & -> & Hd). exists (c :: l1), c1, l2. cbn. split_and!; [done|done|lia].
    + intros ([|c0 l1] & c1 & l2 & E & -> & Hd); injection E as -> ->; [by split; [left|]|]. apply proj2 in IH.
      cbn in Hd. destruct IH as [Hin Hdel]; [|by split; [right|]]. exists l1, c1, l2. split_and!; [done|done|lia].
Qed.

Lemma filter_sublist {A} (p : A → bool) (l : list A) : sublist (List.filter p l) l.
Proof. induction l as [|x l IH]; [done|]. cbn. destruct (p x); by constructor. Qed.

Lemma elem_of_List_filter {A} (p : A → bool) (l : list A) x : x ∈ List.filter p l ↔ x ∈ l ∧ p x = true.
Proof. by rewrite !list_elem_of_In, filter_In. Qed.

Lemma names_filter (p : candidate → bool) l : NoDup (map c_RunID l) → NoDup (map c_RunID (List.filter p l)).
Proof.
  induction l as [|c l IH]; [done|]. cbn. intros [Hc Hn]%NoDup_cons. destruct (p c); [|auto]. cbn.
  constructor; [|auto]. intros (c0 & E & Hin)%list_elem_of_fmap. apply elem_of_List_filter in Hin as [Hin _].
  apply Hc. rewrite E. by apply list_elem_of_fmap_2.
Qed.

Lemma elem_of_aged p now l c : NoDup (map c_RunID l) →
  c ∈ aged p now l ↔ c ∈ l ∧ eligible c = true ∧ reached p now c = true ∧
    (Z.to_nat (KeepNewest p) ≤ length (newer c l))%nat.
Proof.
  intros Hn. unfold aged, active. rewrite elem_of_List_filter.
  rewrite (elem_of_sorted_drop newest c_RunID newest_names), elem_of_List_filter by by apply names_filter.
  unfold newer, precedes. naive_solver.
Qed.

Lemma aged_submseteq p now l : aged p now l ⊆+ l.
Proof.
  unfold aged, active. transitivity (merge_sort newest (List.filter eligible l)).
  - apply sublist_submseteq. etrans; [apply filter_sublist|apply sublist_drop].
  - rewrite merge_sort_Permutation. apply sublist_submseteq, filter_sublist.
Qed.

Lemma aged_names p now l : NoDup (map c_RunID l) → NoDup (map c_RunID (aged p now l)).
Proof.
  intros Hn. pose proof (aged_submseteq p now l) as [k Hp]%submseteq_Permutation.
  rewrite (Permutation_map c_RunID Hp), map_app in Hn. by apply NoDup_app in Hn as [? _].
Qed.

(** Under a budget that is exceeded. *)
Lemma elem_of_budgeted p reason l c' : 0 ≤ MaxBytes p → NoDup (map c_RunID l) → weighable l →
  c' ∈ (spend reason (MaxBytes p) (weight l) (merge_sort oldest l)).1 ∧ c_Delete c' = true ↔
  ∃ c, c ∈ l ∧ c' = decided false true reason c ∧ MaxBytes p < weight l - older_weight c l.
Proof.
  intros Hmax Hn [Hw1 Hw2]. assert (merge_sort oldest l ≡ₚ l) as Hp by apply merge_sort_Permutation.
  assert (∀ l1 c l2, merge_sort oldest l = l1 ++ c :: l2 → weight l1 = older_weight c l) as Hold.
  { intros l1 c l2 E. unfold older_weight. transitivity (weight (filter (precedes oldest c) (merge_sort oldest l))).
    - pose proof (StronglySorted_merge_sort oldest l) as Hs. rewrite E in *.
      rewrite (filter_before oldest c_RunID oldest_names); [done| |done].
      by rewrite (Permutation_map c_RunID Hp).
    - apply weight_perm. by rewrite Hp. }
  rewrite elem_of_spend; [|done|done| |by rewrite (weight_perm _ _ Hp)].
  2: { intros c Hc. apply Hw1. by rewrite <- Hp. }
  split.
  - intros (l1 & c & l2 & E & -> & Hd). exists c. rewrite <- (Hold _ _ _ E). split_and!; [|done|done].
    rewrite <- Hp, E. apply elem_of_app. right. by left.
  - intros (c & Hc & -> & Hd). rewrite <- Hp in Hc. apply list_elem_of_split in Hc as (l1 & l2 & E).
    exists l1, c, l2. split_and!; [done|done|]. by rewrite (Hold _ _ _ E).
Qed.

(** Which runs go, without sorting: those that are eligible and old enough
    and have as many newer eligible ones as are to be kept; and if a budget is
    set and exceeded by these together, of them only the ones at which it is
    still exceeded after all older ones are gone. *)
Theorem doomed_iff p budgetReason allReason now l c' :
  NoDup (map c_RunID l) → weighable l →
  c' ∈ doomed p budgetReason allReason now l ↔
  ∃ c, c ∈ l ∧ eligible c = true ∧ maxAgeReached p (c_LastActivity c) now = true ∧
    (Z.to_nat (KeepNewest p) ≤ length (newer c l))%nat ∧
    if over_budget p (weight (aged p now l))
    then c' = decided false true budgetReason c ∧
         MaxBytes p < weight (aged p now l) - older_weight c (aged p now l)
    else c' = decided false true allReason c.
Proof.
  intros Hn Hw. unfold doomed, selected. rewrite elem_of_List_filter.
  pose proof (weighable_sub _ _ Hw (aged_submseteq p now l)) as Hwa. rewrite budget_weight by done.
  pose proof (aged_names p now l Hn) as Hna.
  destruct (over_budget p (weight (aged p now l))) eqn:E.
  - apply andb_true_iff in E as [E%Z.ltb_lt _]. rewrite elem_of_budgeted; [|lia|done|done].
    setoid_rewrite elem_of_aged; [|done]. unfold reached. naive_solver.
  - cbn. rewrite list_elem_of_fmap. setoid_rewrite elem_of_aged; [|done]. unfold reached. naive_solver.
Qed.

(** ** What pruning touches *)

Lemma elem_of_changed changed l c : c ∈ update changed l → c ∈ changed ∨ c ∈ l.
Proof.
  intros (c0 & -> & Hc0)%list_elem_of_fmap. destruct (List.find _ changed) as [u|] eqn:E; [|by right].
  left. by apply find_some_in in E as [? _].
Qed.

Lemma spend_reasons reason max after l c :
  c ∈ (spend reason max after l).1 → c_Reason c = reason ∨ c_Reason c = reasonWithinBudget.
Proof.
  revert after. induction l as [|c0 l IH]; intros after Hc; cbn in Hc; [by apply elem_of_nil in Hc|].
  destruct (after <=? max).
  - specialize (IH after). destruct (spend reason max after l) as [l' after'].
    apply elem_of_cons in Hc as [-> |Hc]; [by right|by apply IH].
  - specialize (IH (wrap64 (after - known_size c0))). destruct (spend reason max _ l) as [l' after'].
    apply elem_of_cons in Hc as [-> |Hc]; [by left|by apply IH].
Qed.

Lemma selected_reasons p b a now l c : c ∈ (selected p b a now l).1 →
  c_Reason c = b ∨ c_Reason c = reasonWithinBudget ∨ c_Reason c = a.
Proof.
  unfold selected. destruct (over_budget _ _); cbn.
  - intros [?|?]%spend_reasons; auto.
  - intros (c0 & -> & _)%list_elem_of_fmap. auto.
Qed.

Lemma plan_reasons p b a now l c : c ∈ plan p b a now l →
  c ∈ l ∨ c_Reason c ∈ [reasonKeepNewest; reasonTooNew; b; reasonWithinBudget; a].
Proof.
  unfold plan. intros [H|H]%elem_of_changed; [right|by left]. rewrite !elem_of_app in H. destruct H as [H|[H|H]].
  - apply list_elem_of_fmap in H as (c0 & -> & _). by left.
  - apply list_elem_of_fmap in H as (c0 & -> & _). right. by left.
  - apply selected_reasons in H. rewrite !elem_of_cons. naive_solver.
Qed.

Lemma spend_names reason max after l : map c_RunID (spend reason max after l).1 = map c_RunID l.
Proof.
  revert after. induction l as [|c l IH]; intros after; [done|]. cbn. destruct (after <=? max).
  - specialize (IH after). destruct (spend reason max after l). cbn in *. by f_equal.
  - specialize (IH (wrap64 (after - known_size c))). destruct (spend reason max _ l). cbn in *. by f_equal.
Qed.

Lemma selected_names p b a now l : NoDup (map c_RunID l) → NoDup (map c_RunID (selected p b a now l).1).
Proof.
  intros Hn%(aged_names p now). unfold selected. destruct (over_budget _ _).
  - rewrite spend_names. by rewrite (Permutation_map c_RunID (merge_sort_Permutation oldest _)).
  - cbn. by rewrite map_map.
Qed.

Section PruneSafety.
Context {D : Type} `{Eng : DockerEngine D} `{Svc : Service} `{L : !DockerLaws parse_time} `{Rem : Removals}.
Implicit Types (w : world D) (d : D).
Variable read_dir : nat → option (option (list dir_entry)).

Definition same_run (id : string) w w' : Prop :=
  w_files w' !! id = w_files w !! id ∧ w_results w' !! id = w_results w !! id ∧ w_runs w' !! id = w_runs w !! id.

(** Only the runs [ids] were touched, and their files after their containers. *)
Record pruned (ids : list string) w w' : Prop := {
  pr_base : Base w'; pr_intents : w_intents w' = w_intents w; pr_caps : w_caps w' = w_caps w;
  pr_others : ∀ id, id ∉ ids → same_run id w w';
  pr_container : ∀ id, w_files w' !! id ≠ w_files w !! id ∨ w_results w' !! id ≠ w_results w !! id →
    ∃ m, (w_runs w !! id = Some m ∨ w_files w !! id = Some m) ∧
      (m_ContainerID m = "" ∨ ∃ k d, (e_remove k d (m_ContainerID m)).2 = Ok ()) }.

Lemma pruned_refl ids w : Base w → pruned ids w w.
Proof. intros Hb. split; try done. by intros id [?|?]. Qed.

Lemma pruned_mono ids ids' w w' : ids ⊆ ids' → pruned ids w w' → pruned ids' w w'.
Proof. intros Hi []. split; try done. intros id Hid. apply pr_others0. by intros ?%Hi. Qed.

Lemma pruned_step ids id w w1 w2 : id ∉ ids → pruned ids w w1 → Base w2 → touches id w1 w2 → pruned (id :: ids) w w2.
Proof.
  intros Hid [] Hb []. split; try congruence.
  - intros id' [Hne Hin]%not_elem_of_cons. destruct (pr_others0 id' Hin) as (? & ? & ?).
    destruct (to_others id' Hne) as (? & ? & ?). split_and!; congruence.
  - intros id' Hch. destruct (decide (id' = id)) as [->|Hne].
    + destruct (pr_others0 id Hid) as (E1 & E2 & E3). rewrite <- E1, <- E2 in Hch. destruct (to_container Hch) as (m & Hm & Hc).
      exists m. rewrite <- E1, <- E3. split; [done|]. destruct Hc as [?|[k Hk]]; [by left|right]. by eexists k, _.
    + destruct (to_others id' Hne) as (E1 & E2 & _). apply pr_container0. by rewrite <- E1, <- E2.
Qed.

Lemma wp_cleanup_run id w : Base w →
  wp (λ w', Base w' ∧ touches id w w') (CleanupRun id)
    (λ res w', (Base w' ∧ touches id w w') ∧ ∀ m, res = Ok m → run_gone id w') w.
Proof.
  intros Hb. eapply wp_mono; [apply wp_conj;
    [apply (cleanup_keeps id (w_intents w) w); split; [done|apply rows_le_refl]|by apply wp_cleanup_touches]| |].
  - intros w' [[? _] ?]. done.
  - intros res w' [[? _] [? Hgone]]. split; [done|]. intros m Hm. by apply Hgone in Hm as [? _].
Qed.

Lemma wp_prune_each l ids w w1 :
  pruned ids w w1 → NoDup (map c_RunID l) → (∀ c, c ∈ l → c_RunID c ∉ ids) →
  (∀ c, c ∈ l → c_Reason c ≠ reasonDeleted) →
  wp (pruned (map c_RunID (List.filter c_Delete l) ++ ids) w) (prune_each false l)
    (λ l' w', pruned (map c_RunID (List.filter c_Delete l) ++ ids) w w' ∧
       (∀ id, id ∉ map c_RunID l → same_run id w1 w') ∧
       ∀ c, c ∈ l' → c_Reason c = reasonDeleted → run_gone (c_RunID c) w') w1.
Proof.
  revert ids w1. induction l as [|c l IH]; intros ids w1 Hp Hn Hids Hr; cbn [prune_each].
  { apply wp_done. split_and!; [done|done|]. by intros c ?%elem_of_nil. }
  cbn in Hn. apply NoDup_cons in Hn as [Hc Hn]. cbn [List.filter].
  assert (∀ c', c' ∈ l → c_RunID c' ∉ ids) as Hids' by (intros; apply Hids; by right).
  assert (∀ c', c' ∈ l → c_Reason c' ≠ reasonDeleted) as Hr' by (intros; apply Hr; by right).
  apply wp_andThen. destruct (c_Delete c); cbn [negb map app].
  - apply wp_andThen. eapply wp_mono; [apply (wp_cleanup_run (c_RunID c) w1), Hp| |].
    { intros w2 [Hb Ht]. eapply pruned_mono; [|eapply pruned_step; [|done..]]; [set_solver|by apply Hids; left]. }
    intros res w2 [[Hb Ht] Hg]. apply wp_done.
    assert (pruned (c_RunID c :: ids) w w2) as Hp2 by (eapply pruned_step; [by apply Hids; left|done..]).
    apply wp_andThen. eapply wp_mono; [apply (IH (c_RunID c :: ids) w2 Hp2 Hn)| |].
    + intros c' Hc'. rewrite not_elem_of_cons. split; [|by apply Hids']. intros E. apply Hc. rewrite <- E.
      by apply list_elem_of_fmap_2.
    + done.
    + intros w'. apply pruned_mono. set_solver.
    + intros l' w' (Hp' & Hsame & Hgone). apply wp_done. split_and!; [eapply pruned_mono; [|done]; set_solver| |].
      * intros id [Hne Hin]%not_elem_of_cons. destruct (Hsame id Hin) as (? & ? & ?).
        destruct (to_others _ _ _ Ht id Hne) as (? & ? & ?). split_and!; congruence.
      * intros c' [-> |Hc']%elem_of_cons Hd; [|by apply Hgone]. destruct res as [m|x]; [|done].
        destruct (Hg m eq_refl) as (E1 & E2 & E3), (Hsame (c_RunID c) Hc) as (? & ? & ?).
        split_and!; cbn [decided c_RunID]; congruence.
  - apply wp_done, wp_andThen. eapply wp_mono; [apply (IH ids w1)|done|]; [done..|].
    intros l' w' (Hp' & Hsame & Hgone). apply wp_done. split_and!; [done| |].
    + intros id [_ Hin]%not_elem_of_cons. by apply Hsame.
    + intros c' [-> |Hc']%elem_of_cons Hd; [|by apply Hgone]. by specialize (Hr c ltac:(by left)).
Qed.

Lemma wp_prune_dry l w : (∀ c, c ∈ l → c_Reason c ≠ reasonDeleted) →
  wp (λ w', w' = w) (prune_each true l) (λ l' w', w' = w ∧ ∀ c, c ∈ l' → c_Reason c ≠ reasonDeleted) w.
Proof.
  induction l as [|c l IH]; intros Hr; cbn [prune_each]; [by apply wp_done|].
  assert (∀ c', c' ∈ l → c_Reason c' ≠ reasonDeleted) as Hr' by (intros; apply Hr; by right).
  apply wp_andThen. destruct (c_Delete c); cbn [negb]; apply wp_done, wp_andThen;
    (eapply wp_mono; [by apply IH|done|]); intros l' w' [-> Hl]; apply wp_done; (split; [done|]);
    intros c' [-> |Hc']%elem_of_cons; try (by apply Hl); [done|]. apply Hr. by left.
Qed.

Lemma classify_name p dir metadata e : c_RunID (classify p dir metadata e) = de_Name e.
Proof. unfold classify. destruct (de_Kind e); [done..|]. repeat case_match; done. Qed.

Lemma classify_reason p dir metadata e : c_Reason (classify p dir metadata e) ≠ reasonDeleted.
Proof.
  unfold classify. destruct (de_Kind e); [done..|]. repeat case_match; try done. cbn. unfold initial_reason.
  by repeat case_match.
Qed.

(** What a prune decided on, from the directory as it read it. *)
Definition to_delete (policy : RetentionPolicy) w (id : string) : Prop :=
  DryRun policy = false ∧ ∃ k1 k2 entries, read_dir k1 = Some (Some entries) ∧
    id ∈ map c_RunID (doomed (normalize policy) reasonDeleteBudget reasonDeleteAge (now k2)
                        (observe (normalize policy) entries w)).

Definition prune_scope (policy : RetentionPolicy) w w' : Prop :=
  ∃ ids, pruned ids w w' ∧ ∀ id, id ∈ ids → to_delete policy w id.

Lemma scope_refl policy w : Base w → prune_scope policy w w.
Proof. intros Hb. exists []. split; [by apply pruned_refl|]. by intros id ?%elem_of_nil. Qed.

(** Entries of a directory have different names. *)
Hypothesis distinct_names : ∀ k entries, read_dir k = Some (Some entries) → NoDup (map de_Name entries).

Definition truthful (report : PruneReport) w : Prop :=
  ∀ c, c ∈ Entries report → c_Reason c = reasonDeleted → run_gone (c_RunID c) w.

Lemma wp_prune_entries policy w k1 k2 entries : Base w → read_dir k1 = Some (Some entries) →
  wp (prune_scope policy w) (prune_entries (normalize policy) (now k2) entries)
    (λ report w', prune_scope policy w w' ∧ truthful report w') w.
Proof using L distinct_names.
  intros Hb Hd. pose proof (scope_refl policy w Hb) as H0. unfold prune_entries. set (p := normalize policy).
  apply wp_andThen, wp_effect; [done|]. intros k. cbn [fst snd]. set (cands := observe p entries w).
  assert (NoDup (map c_RunID cands)) as Hn.
  { unfold cands, observe. rewrite map_map. rewrite (map_ext _ de_Name (classify_name _ _ _)). by eapply distinct_names. }
  destruct (selected p reasonDeleteBudget reasonDeleteAge (now k2) cands) as [sel after] eqn:Es.
  assert (sel = (selected p reasonDeleteBudget reasonDeleteAge (now k2) cands).1) as Hsel by by rewrite Es.
  assert (∀ c, c ∈ sel → c_Reason c ≠ reasonDeleted) as Hr.
  { intros c. rewrite Hsel. by intros [-> |[-> | ->]]%selected_reasons. }
  assert (∀ c, c ∈ plan p reasonDeleteBudget reasonDeleteAge (now k2) cands → c_Reason c ≠ reasonDeleted) as Hplan.
  { intros c [(e & -> & _)%list_elem_of_fmap|Hc]%plan_reasons; [apply classify_reason|].
    intros E. rewrite E in Hc. by repeat (apply elem_of_cons in Hc as [?|Hc]; [done|]); apply elem_of_nil in Hc. }
  assert (∀ sel' before, (∀ w', (∀ c, c ∈ sel' → c_Reason c = reasonDeleted → run_gone (c_RunID c) w') →
            truthful (prune_report p before after sel'
                        (update sel' (plan p reasonDeleteBudget reasonDeleteAge (now k2) cands))) w')) as Hreport.
  { intros sel' before w' Hg c Hc Hdel. cbn in Hc. apply elem_of_take in Hc as (i & Hi & _).
    apply list_elem_of_lookup_2, elem_of_changed in Hi as [?|?]; [by apply Hg|]. by apply Hplan in Hdel. }
  apply wp_andThen. destruct (DryRun p) eqn:Edry.
  - eapply wp_mono; [by apply wp_prune_dry| |]; [by intros w' ->|]. intros l' w' [-> Hl]. apply wp_done.
    split; [done|]. apply Hreport. intros c Hc Hdel. by apply Hl in Hdel.
  - assert (∀ w', pruned (map c_RunID (List.filter c_Delete sel) ++ []) w w' → prune_scope policy w w') as Hscope.
    { intros w' Hp. eexists. split; [exact Hp|]. intros id. rewrite app_nil_r. intros Hid. split; [exact Edry|].
      exists k1, k2, entries. split; [done|]. rewrite Hsel in Hid. exact Hid. }
    eapply wp_mono; [apply (wp_prune_each sel [] w w); [by apply pruned_refl| | |done]| |].
    + rewrite Hsel. by apply selected_names.
    + intros c _. apply not_elem_of_nil.
    + done.
    + intros l' w' (Hp & _ & Hg). apply wp_done. split; [by apply Hscope|]. by apply Hreport.
Qed.

(** C20: a prune, wherever its process dies and whatever fails, touches only
    runs it decided to delete from the directory as it read it, and nothing at
    all as a dry run; it leaves the index of intents and the capabilities alone;
    it touches a run's files only once the run's container, if it has one, was
    removed; and what it reports as deleted is gone. *)
Theorem prune_confined policy k w k' w' o : Base w →
  PruneRuns read_dir policy k w = (k', w', o) →
  w_intents w' = w_intents w ∧ w_caps w' = w_caps w ∧
  (∀ id, ¬ same_run id w w' → to_delete policy w id) ∧
  (∀ id, w_files w' !! id ≠ w_files w !! id ∨ w_results w' !! id ≠ w_results w !! id →
     ∃ m, (w_runs w !! id = Some m ∨ w_files w !! id = Some m) ∧
       (m_ContainerID m = "" ∨ ∃ k d, (e_remove k d (m_ContainerID m)).2 = Ok ())) ∧
  (∀ report failed, o = Some (report, failed) → truthful report w').
Proof using L distinct_names.
  intros Hb E. pose proof (scope_refl policy w Hb) as H0.
  assert (wp (prune_scope policy w) (PruneRuns read_dir policy)
            (λ res w', prune_scope policy w w' ∧ truthful res.1 w') w) as Hwp.
  { unfold PruneRuns. apply wp_andThen, wp_effect; [done|]. intros k1. cbn [fst snd].
    destruct (read_dir k1) as [[entries|]|] eqn:Ed.
    - apply wp_andThen. intros k2. unfold clock. apply wp_andThen.
      eapply wp_mono; [by eapply wp_prune_entries|done|]. intros report w1 H1. by apply wp_done.
    - apply wp_andThen, wp_effect; [done|]. intros k2. apply wp_done. split; [done|]. by intros c ?%elem_of_nil.
    - apply wp_done. split; [done|]. by intros c ?%elem_of_nil. }
  specialize (Hwp k). rewrite E in Hwp.
  assert (prune_scope policy w w') as (ids & [] & Hids) by (destruct o; [apply Hwp|done]).
  split_and!; [done|done| |done|].
  - intros id Hch. apply Hids. destruct (decide (id ∈ ids)) as [|Hni]; [done|]. by specialize (pr_others0 id Hni).
  - intros report failed ->. apply Hwp.
Qed.
End PruneSafety.

(** ** Concrete prunes *)

Definition run_ex (id : string) (ended_at : time) : RunMetadata :=
  {| m_run := {| RunID := id; WorkItemID := ""; Profile := ""; Principal := ""; IdempotencyKeyDigest := "";
                 RequestFingerprint := ""; LaunchConfigVersion := ""; run_Template := ""; Repo := ""; BaseBranch := "";
                 Branch := ""; Task := ""; VerificationTask := ""; Focus := ""; WorkerAgentID := "";
                 run_BrokerAgentID := ""; run_CredentialBundle := ""; run_Image := ""; ResolvedReleaseGeneration := 0;
                 Deliverables := []; Parameters := ∅; StartedAt := zero_time; Deadline := zero_time |};
     m_ContainerID := ""; m_ImageDigest := ""; m_Status := StatusCompleted; m_ExitCode := Some 0;
     m_FinalizeReason := ""; m_TerminalSource := ""; m_EndedAt := ended_at |}.

Definition candidate_ex (id : string) (hours size : Z) : candidate :=
  {| c_RunID := id; c_meta := Some (run_ex id (sample_now 0 - hours * (60 * minute)));
     c_LastActivity := sample_now 0 - hours * (60 * minute); c_SizeBytes := size; c_sizeKnown := true;
     c_Keep := false; c_Delete := false; c_Reason := reasonEligible |}.

Definition candidates_ex : list candidate := [candidate_ex "a" 90 4; candidate_ex "b" 60 4; candidate_ex "c" 30 4; candidate_ex "d" 2 100].

Definition policy_ex (max_bytes : Z) : RetentionPolicy :=
  normalize {| MaxAge := 0; KeepNewest := 0; TerminalOnly := true; MaxBytes := max_bytes; DryRun := false; MaxOutput := 0 |}.

Definition doomed_ex (max_bytes : Z) : list string :=
  map c_RunID (doomed (policy_ex max_bytes) reasonDeleteBudget reasonDeleteAge (sample_now 0) candidates_ex).

(** A budget counts only the runs that are old enough, and keeps of them what
    fits: without one, and with one they fit into, they all go. *)
Example budget_ex : (doomed_ex 0, doomed_ex 12, doomed_ex 11, doomed_ex 4) = (["c"; "b"; "a"], ["c"; "b"; "a"], ["a"], ["a"; "b"]).
Proof. vm_compute. reflexivity. Qed.

Lemma doomed_iff_witness :
  decided false true reasonDeleteBudget (candidate_ex "b" 60 4)
    ∈ doomed (policy_ex 4) reasonDeleteBudget reasonDeleteAge (sample_now 0) candidates_ex ∧
  NoDup (map c_RunID candidates_ex) ∧ weighable candidates_ex.
Proof.
  assert (NoDup (map c_RunID candidates_ex)) as Hn.
  { apply (bool_decide_unpack (NoDup (map c_RunID candidates_ex))). vm_compute. exact Logic.I. }
  assert (weighable candidates_ex) as Hw.
  { split; [|vm_compute; discriminate]. intros c Hc. unfold candidates_ex in Hc.
    repeat (apply elem_of_cons in Hc as [-> |Hc]; [vm_compute; discriminate|]). by apply elem_of_nil in Hc. }
  split; [|by split].
  apply (doomed_iff (policy_ex 4) reasonDeleteBudget reasonDeleteAge (sample_now 0) candidates_ex _ Hn Hw).
  exists (candidate_ex "b" 60 4). split; [right; by left|]. split; [reflexivity|]. split; [vm_compute; reflexivity|].
  split; [cbn; lia|]. vm_compute. split; reflexivity.
Defined.

(** A run that was launched and stopped, seen by a new process, beside a link. *)
Definition stopped_ex : nat * world sim :=
  let r := @history sim sim_engine healthy 0 empty_world [sample_launched; StopAsked launched_run] in
  (r.1.1, forget r.1.2).

Definition dir_ex (k : nat) : option (option (list dir_entry)) :=
  Some (Some [{| de_Name := launched_run; de_Kind := KDirectory; de_Unreadable := false; de_Size := 10; de_SizeKnown := true;
                 de_ModTime := None |};
              {| de_Name := "link"; de_Kind := KSymlink; de_Unreadable := false; de_Size := 0; de_SizeKnown := false;
                 de_ModTime := None |}]).

Definition prune_ex : nat * world sim * option (PruneReport * bool) :=
  @PruneRuns sim sim_engine healthy sim_removals dir_ex
    {| MaxAge := -1; KeepNewest := 0; TerminalOnly := true; MaxBytes := 0; DryRun := false; MaxOutput := 0 |}
    stopped_ex.1 stopped_ex.2.

Lemma prune_confined_witness :
  match prune_ex.2 with
  | Some (report, failed) => map c_Reason (Entries report) = [reasonDeleted; reasonNotDirectory] ∧ failed = false
  | None => False
  end ∧
  is_Some (w_files stopped_ex.2 !! launched_run) ∧ w_files prune_ex.1.2 !! launched_run = None ∧
  w_intents prune_ex.1.2 = w_intents stopped_ex.2.
Proof.
  assert (@Base sim sim_engine healthy sim_laws stopped_ex.2) as Hb.
  { assert (@Base sim sim_engine healthy sim_laws
              (@history sim sim_engine healthy 0 empty_world [sample_launched; StopAsked launched_run]).1.2) as H.
    { apply history_base; [apply fresh_base; split; try done|by repeat constructor].
      intros c. cbn. unfold sim_starts. rewrite lookup_empty. cbn. lia. }
    exact (proj1 (@forget_sound sim sim_engine healthy sim_laws _ _ (conj H (@rows_le_refl _)))). }
  assert (∀ k entries, dir_ex k = Some (Some entries) → NoDup (map de_Name entries)) as Hd.
  { intros k entries [= <-]. apply (bool_decide_unpack _). vm_compute. exact Logic.I. }
  assert (prune_ex = (prune_ex.1.1, prune_ex.1.2, prune_ex.2)) as E by by destruct prune_ex as [[? ?] ?].
  pose proof (@prune_confined sim sim_engine healthy sim_laws sim_removals dir_ex Hd _ _ _ _ _ _ Hb E) as (H & _).
  split; [vm_compute; split; reflexivity|]. split; [exists (default (run_ex "" 0) (w_files stopped_ex.2 !! launched_run)); vm_compute; reflexivity|].
  split; [vm_compute; reflexivity|exact H].
Defined.
