(* ===== verification/Slim.v ===== *)
(** * internal/sandbox/slim.go: thinning the directories of ended runs

    [SlimRuns] chooses runs as PruneRuns does ([plan] of Retention) and removes
    from their directories what is not to be kept.  A run's directory is a tree;
    paths are lists of elements below it.  Each removal is an effect of its own:
    the process may die, or a removal fail, between any two.  The manifest and the
    log snapshot, which are written when all is removed, are files of some size
    (Artifacts has what the manifest lists); a write that meets a link goes where
    the link leads, out of the tree.  Audit records and error texts are left out. *)

From S2P Require Import Prelude GoStrings GoTime Sandbox Paths Process.
From S2P Require Import Cleanup Retention.
Open Scope string_scope.
Open Scope list_scope.
Open Scope Z_scope.

(** ** Trees *)

Notation path := (list string).

Inductive node := File (size : Z) | Link | Dir (entries : list (string * node)).

Fixpoint total (n : node) : Z :=
  match n with
  | File size => size
  | Link => 0
  | Dir es => (fix sum es := match es with [] => 0 | (_, n) :: es => total n + sum es end) es
  end.

Definition runDirSizeBytes (n : node) : Z := wrap64 (total n).

Definition entry (name : string) (es : list (string * node)) : option node :=
  snd <$> List.find (λ e, (e.1 =? name)%string) es.


(** Replaces what is at a path, or removes it. *)
Definition change_entry (f : node → option node) (name : string) (es : list (string * node)) : list (string * node) :=
  omap (λ e, if (e.1 =? name)%string then pair e.1 <$> f e.2 else Some e) es.

Fixpoint change (p : path) (f : node → option node) (n : node) : option node :=
  match p, n with
  | [], _ => f n
  | x :: p, Dir es => Some (Dir (change_entry (change p f) x es))
  | _ :: _, _ => Some n
  end.

(** os.WriteFile: a file is replaced or made, a link is followed. *)
Fixpoint put (p : path) (size : Z) (n : node) : option node :=
  match p, n with
  | _, Link => Some n
  | [x], Dir es =>
    match entry x es with
    | None => Some (Dir (es ++ [(x, File size)]))
    | Some (File _) => Some (Dir (change_entry (λ _, Some (File size)) x es))
    | Some Link => Some n
    | Some (Dir _) => None
    end
  | x :: p, Dir es =>
    match entry x es with
    | Some c => c' ← put p size c; Some (Dir (change_entry (λ _, Some c') x es))
    | None => None
    end
  | _, _ => None
  end.

(** os.MkdirAll of a directory below the root *)
Definition make_dir (x : string) (n : node) : option node :=
  match n with
  | Dir es => match entry x es with
              | None => Some (Dir (es ++ [(x, Dir [])])) | Some (File _) => None | Some _ => Some n end
  | _ => None
  end.

(** ** What is kept *)

Definition slimArtifactsManifest := "slim-artifacts-manifest.json".
Definition slimRunLog := "slim-run.log".

(** filepath.Rel(candidate, keepPath) is "." or does not begin with two dots. *)
Definition leads_to (candidate keepPath : path) : bool :=
  match strip_elements candidate keepPath with
  | None => false
  | Some [] => true
  | Some (e :: _) => negb (has_prefix ".." e)
  end.

Definition isSlimKeptPath (candidate : path) (keep : list path) : bool := existsb (leads_to candidate) keep.

(** A deliverable below /output or /lessons, by its clean path. *)
Definition keep_path (raw : string) : option path :=
  let clean := Clean (trim_space raw) in
  if (clean =? ".")%string || (clean =? "/")%string || negb (has_prefix "/" clean) then None
  else match elements_of clean with
       | dir :: rest => if (dir =? "output")%string || (dir =? "lessons")%string then Some (dir :: rest) else None
       | [] => None
       end.

Definition collectKeepPaths (deliverables : list string) : list path := omap keep_path deliverables.

Definition keep_paths (deliverables : list string) : list path :=
  collectKeepPaths deliverables ++
  [["metadata.json"]; ["input"]; ["output"]; ["lessons"]; ["logs"]; ["output"; "wrapper-diagnostics.json"];
   ["output"; slimArtifactsManifest]; ["logs"; slimRunLog]].

(** ** Trimming *)

Record slimOutputEntries := { Removed : list path; RemovedBytes : Z; RemovedEntries : nat; KeptEntries : nat }.

Definition nothing : slimOutputEntries := {| Removed := []; RemovedBytes := 0; RemovedEntries := 0; KeptEntries := 0 |}.

Definition plus (a b : slimOutputEntries) : slimOutputEntries :=
  {| Removed := Removed a ++ Removed b; RemovedBytes := wrap64 (RemovedBytes a + RemovedBytes b);
     RemovedEntries := RemovedEntries a + RemovedEntries b; KeptEntries := KeptEntries a + KeptEntries b |}.

Definition one_removed (p : path) (n : node) : slimOutputEntries :=
  {| Removed := [p]; RemovedBytes := runDirSizeBytes n; RemovedEntries := 1; KeptEntries := 0 |}.

Definition one_kept : slimOutputEntries := {| Removed := []; RemovedBytes := 0; RemovedEntries := 0; KeptEntries := 1 |}.

(** What is to be removed below [root], in order: no removal changes a decision. *)
Fixpoint trimForSlim (keep : list path) (root : path) (n : node) : slimOutputEntries :=
  match n with
  | Dir es =>
    (fix entries es := match es with
     | [] => nothing
     | (name, n) :: es =>
       let p := root ++ [name] in
       plus (if negb (isSlimKeptPath p keep) then one_removed p n
             else match n with Dir _ => plus one_kept (trimForSlim keep p n) | _ => one_kept end)
            (entries es)
     end) es
  | _ => nothing
  end.

Inductive slim_error := SNotTerminal | SEscape | SMissing | SRemove | SManifest.

(** A write that the file system does, or one that fails: a file that was opened
    may be left shorter. *)
Inductive writing := Written (size : Z) | Unwritten (left : option Z).

(** A removal, or what it left. *)
Inductive removal := Gone | Leftover (rest : node).

(** The directory of runs: metadata and tree by run. *)
Notation runs := (gmap string (RunMetadata * node)).

Definition alter_tree (id : string) (f : node → node) (w : runs) : runs := alter (λ r, (r.1, f r.2)) id w.

Section Slim.
Variable runsDir : string.
Variable dies : nat → bool.
Variable removal_at : nat → removal.
Variable write_at : nat → writing.
(** The engine gives the logs; the directory can be made. *)
Variables logs_at makes_logs : nat → bool.

Notation M := (prog runs).

Definition remove_path (id : string) (p : path) : M (result slim_error unit) :=
  effect dies (λ k w,
    match removal_at k with
    | Gone => (alter_tree id (λ n, default n (change p (λ _, None) n)) w, Ok ())
    | Leftover rest => (alter_tree id (λ n, default n (change p (λ _, Some rest) n)) w, Err SRemove)
    end).

Fixpoint remove_paths (id : string) (ps : list path) : M (result slim_error unit) :=
  match ps with
  | [] => done (Ok ())
  | p :: ps => _ <-? remove_path id p ;; remove_paths id ps
  end.

Definition write_path (id : string) (p : path) : M bool :=
  effect dies (λ k w,
    match write_at k with
    | Written size => (alter_tree id (λ n, default n (put p size n)) w, bool_decide (is_Some ((snd <$> w !! id) ≫= put p size)))
    | Unwritten (Some size) => (alter_tree id (λ n, default n (put p size n)) w, false)
    | Unwritten None => (w, false)
    end).

(** captureSlimLogSnapshot: whether there is a snapshot; a failure changes nothing
    about the slimming. *)
Definition captureSlimLogSnapshot (m : RunMetadata) : M bool :=
  let id := m_RunID m in
  if (m_ContainerID m =? "")%string then done false else
  logs <-! effect dies (λ k w, (w, logs_at k)) ;;
  if negb logs then done false else
  made <-! effect dies (λ k w, if makes_logs k then (alter_tree id (λ n, default n (make_dir "logs" n)) w,
                                                     bool_decide (is_Some ((snd <$> w !! id) ≫= make_dir "logs")))
                               else (w, false)) ;;
  if negb made then done false else write_path id ["logs"; slimRunLog].

(** The output, without what PruneRun has. *)
Record shrunk := { SizeAfter : Z; sh_Bytes : Z; sh_Entries : slimOutputEntries; LogSnapshot : bool }.

(** The run is the one its metadata names. *)
Definition shrinkRunDirectory (m : RunMetadata) : M (result slim_error shrunk) :=
  let id := m_RunID m in
  if negb (isTerminalStatus (m_Status m)) then done (Err SNotTerminal) else
  if escapesBase runsDir (runDir runsDir id) then done (Err SEscape) else
  tree <-! effect dies (λ k w, (w, snd <$> w !! id)) ;;
  match tree with
  | None => done (Err SMissing)
  | Some tree =>
    let trimmed := trimForSlim (keep_paths (Deliverables (m_run m))) [] tree in
    _ <-? remove_paths id (Removed trimmed) ;;
    manifest <-! write_path id ["output"; slimArtifactsManifest] ;;
    if negb manifest then done (Err SManifest) else
    snapshot <-! captureSlimLogSnapshot m ;;
    after <-! effect dies (λ k w, (w, from_option (λ r, runDirSizeBytes r.2) 0 (w !! id))) ;;
    done (Ok {| SizeAfter := after; sh_Bytes := Z.max 0 (wrap64 (runDirSizeBytes tree - after)); sh_Entries := trimmed;
                LogSnapshot := snapshot |})
  end.

Definition reasonWouldSlim := "would_slim".
Definition reasonSlimmed := "slimmed".
Definition reasonSlimmedNoop := "slim_noop".
Definition reasonSlimBudget := "slim_budget".

(** The candidate, and what was done about it. *)
Record SlimRun := { sr_run : candidate; sr_out : option shrunk }.

Fixpoint slim_each (dryRun : bool) (l : list candidate) : M (list SlimRun) :=
  match l with
  | [] => done []
  | c :: l =>
    r <-! (if negb (c_Delete c) then done {| sr_run := c; sr_out := None |}
           else if dryRun then done {| sr_run := decided (c_Keep c) true reasonWouldSlim c; sr_out := None |}
           else match c_meta c with
                | None => done {| sr_run := c; sr_out := None |}
                | Some m =>
                  r <-! shrinkRunDirectory m ;;
                  done match r with
                       | Ok out => {| sr_run := decided (c_Keep c) true reasonSlimmed c; sr_out := Some out |}
                       | Err _ => {| sr_run := decided (c_Keep c) true reasonSlimmedNoop c; sr_out := None |}
                       end
                end) ;;
    l' <-! slim_each dryRun l ;;
    done (r :: l')
  end.

Record SlimReport := {
  s_Scanned : nat; Slimmed : nat; s_Failed : nat; s_BudgetBefore : Z; s_BudgetAfter : Z; s_Runs : list SlimRun;
  s_Entries : list candidate }.

Definition run_sizes (l : list SlimRun) (w : runs) : Z :=
  foldl (λ sum r, match w !! c_RunID (sr_run r) with
                  | Some (_, n) => wrap64 (sum + runDirSizeBytes n) | None => sum end) 0 l.

Definition slim_entries (p : RetentionPolicy) (now : time) (entries : list dir_entry) : M SlimReport :=
  cands <-! effect dies (λ k w, (w, map (classify p runsDir (λ id, fst <$> w !! id)) entries)) ;;
  let '(sel, after) := selected p reasonSlimBudget reasonEligible now cands in
  sel <-! slim_each (DryRun p) sel ;;
  after <-! (if 0 <? MaxBytes p then effect dies (λ k w, (w, run_sizes sel w)) else done after) ;;
  let reasons := map sr_run sel in
  done {| s_Scanned := length cands; Slimmed := with_reason reasonSlimmed reasons + with_reason reasonWouldSlim reasons;
          s_Failed := with_reason reasonSlimmedNoop reasons; s_BudgetBefore := budget_of (aged p now cands);
          s_BudgetAfter := after; s_Runs := sel;
          s_Entries := take (Z.to_nat (MaxOutput p)) (update reasons (plan p reasonSlimBudget reasonEligible now cands)) |}.

Variable now : nat → time.
Variable read_dir : nat → option (option (list dir_entry)).
Variable makes_dir : nat → bool.

Definition no_slim : SlimReport :=
  {| s_Scanned := 0; Slimmed := 0; s_Failed := 0; s_BudgetBefore := 0; s_BudgetAfter := 0; s_Runs := []; s_Entries := [] |}.

(** The report, and whether there was an error. *)
Definition SlimRuns (policy : RetentionPolicy) : M (SlimReport * bool) :=
  let p := normalize policy in
  entries <-! effect dies (λ k w, (w, read_dir k)) ;;
  match entries with
  | None => done (no_slim, true)
  | Some None => made <-! effect dies (λ k w, (w, makes_dir k)) ;; done (no_slim, negb made)
  | Some (Some entries) =>
    t <-! (λ k w, (k, w, Some (now k))) ;;
    report <-! slim_entries p t entries ;;
    done (report, (0 <? s_Failed report)%nat)
  end.
End Slim.

(** ** Trees and paths *)














(** ** What trimming removes *)








(** ** What slimming leaves *)

Notation keeps m := (keep_paths (Deliverables (m_run m))).


























Section SlimSafety.
Variable runsDir : string.
Variable dies : nat → bool.
Variable removal_at : nat → removal.
Variable write_at : nat → writing.
Variables logs_at makes_logs : nat → bool.













Variable now : nat → time.
Variable read_dir : nat → option (option (list dir_entry)).
Variable makes_dir : nat → bool.
Hypothesis distinct_names : ∀ k entries, read_dir k = Some (Some entries) → NoDup (map de_Name entries).





End SlimSafety.

(** ** A concrete slimming *)

Definition with_deliverables (m : RunMetadata) (l : list string) : RunMetadata :=
  let i := m_run m in
  {| m_run := {| RunID := RunID i; WorkItemID := WorkItemID i; Profile := Profile i; Principal := Principal i;
                 IdempotencyKeyDigest := IdempotencyKeyDigest i; RequestFingerprint := RequestFingerprint i;
                 LaunchConfigVersion := LaunchConfigVersion i; run_Template := run_Template i; Repo := Repo i;
                 BaseBranch := BaseBranch i; Branch := Branch i; Task := Task i; VerificationTask := VerificationTask i;
                 Focus := Focus i; WorkerAgentID := WorkerAgentID i; run_BrokerAgentID := run_BrokerAgentID i;
                 run_CredentialBundle := run_CredentialBundle i; run_Image := run_Image i;
                 ResolvedReleaseGeneration := ResolvedReleaseGeneration i; Deliverables := l;
                 Parameters := Parameters i; StartedAt := StartedAt i; Deadline := Deadline i |};
     m_ContainerID := m_ContainerID m; m_ImageDigest := m_ImageDigest m; m_Status := m_Status m;
     m_ExitCode := m_ExitCode m; m_FinalizeReason := m_FinalizeReason m; m_TerminalSource := m_TerminalSource m;
     m_EndedAt := m_EndedAt m |}.

Definition slim_meta : RunMetadata := with_deliverables (run_ex "run-1" 0) ["/output/final-summary.md"; "/output/reports"].

Definition slim_tree : node :=
  Dir [("input", Dir [("task.md", File 10)]); ("logs", Dir [("wrapper.log", File 20)]); ("metadata.json", File 30);
       ("output", Dir [("final-summary.md", File 40); ("reports", Dir [("coverage.html", File 50)]); ("result.json", File 60)]);
       ("terminal-result.json", File 70); ("work", Dir [("home", Dir [("cache", File 1000)])])].

Definition slim_world : runs := {["run-1" := (slim_meta, slim_tree)]}.

Definition slim_dir (k : nat) : option (option (list dir_entry)) :=
  Some (Some [{| de_Name := "run-1"; de_Kind := KDirectory; de_Unreadable := false; de_Size := 1280; de_SizeKnown := true;
                 de_ModTime := None |}]).

Definition slim_ex (dies : nat → bool) : nat * runs * option (SlimReport * bool) :=
  SlimRuns "/runs" dies (λ _, Gone) (λ _, Written 5) (λ _, true) (λ _, true) (λ _, second) slim_dir (λ _, true)
    {| MaxAge := -1; KeepNewest := 0; TerminalOnly := true; MaxBytes := 0; DryRun := false; MaxOutput := 0 |} 0%nat slim_world.

Definition tree_ex (dies : nat → bool) : option node := snd <$> (slim_ex dies).1.2 !! "run-1".

(** The inputs, the files of a deliverable that is a directory, and the terminal
    result go as well. *)
Example slimmed_ex :
  (tree_ex (λ _, false), match (slim_ex (λ _, false)).2 with Some (r, failed) => Some (Slimmed r, failed) | None => None end) =
  (Some (Dir [("input", Dir []); ("logs", Dir []); ("metadata.json", File 30);
              ("output", Dir [("final-summary.md", File 40); ("reports", Dir []);
                              ("slim-artifacts-manifest.json", File 5)])]), Some (1%nat, false)).
Proof. vm_compute. reflexivity. Qed.

(** A process that dies leaves a tree between the two. *)
Example slim_interrupted_ex :
  tree_ex (λ k, (k =? 5)%nat) =
  Some (Dir [("input", Dir []); ("logs", Dir []); ("metadata.json", File 30);
             ("output", Dir [("final-summary.md", File 40); ("reports", Dir [("coverage.html", File 50)]); ("result.json", File 60)]);
             ("terminal-result.json", File 70); ("work", Dir [("home", Dir [("cache", File 1000)])])]).
Proof. vm_compute. reflexivity. Qed.

(** The manifest is written through a link that a worker left in its place: the
    tree is as before, and a file of the host has the manifest. *)
Example manifest_through_link_ex :
  put ["output"; slimArtifactsManifest] 5 (Dir [("output", Dir [(slimArtifactsManifest, Link)])]) =
  Some (Dir [("output", Dir [(slimArtifactsManifest, Link)])]).
Proof. vm_compute. reflexivity. Qed.

