(* ===== verification/TerminalResult.v ===== *)
(** * internal/sandbox/terminal_result.go: what a run reports when it has ended

    The terminal result is made from the run's metadata and from a few files of
    its output directory, which the worker wrote: they are bounded, must be
    regular, and most pass the redactor and the checks below.  Go's float64 numbers
    are rationals; json.Unmarshal into any and json.Marshal are arguments, as is
    the redactor (Redaction has it).  Failure reasons are values, not texts: the
    text of a mismatch depends on the order of a Go map. *)

From Stdlib Require Import QArith Qround.
From S2P Require Import Prelude GoStrings GoTime GoJson Sandbox.
Open Scope string_scope.
Open Scope list_scope.
Open Scope Z_scope.

(** ** JSON values *)

(** A map[string]any is a list of fields with different names. *)
#[local] Unset Elimination Schemes.
Inductive any :=
| ANull | ABool (b : bool) | ANumber (q : Q) | AString (s : string) | AList (l : list any)
| AObject (fields : list (string * any)).
#[local] Set Elimination Schemes.

Notation object := (list (string * any)).

Definition field (o : object) (key : string) : option any := snd <$> List.find (λ f, (f.1 =? key)%string) o.
Definition text_field (o : object) (key : string) : option string :=
  match field o key with Some (AString s) => Some s | _ => None end.
Definition object_field (o : object) (key : string) : option object :=
  match field o key with Some (AObject fs) => Some fs | _ => None end.
Definition number_field (o : object) (key : string) : option Q :=
  match field o key with Some (ANumber q) => Some q | _ => None end.

Definition put (key : string) (v : any) (o : object) : object :=
  (key, v) :: List.filter (λ f, negb (f.1 =? key)%string) o.

Fixpoint redactJSON (redact : string → string) (v : any) : any :=
  let item v := match v with AString s => AString (redact s) | _ => redactJSON redact v end in
  match v with
  | AList l => AList (map item l)
  | AObject fs => AObject (map (λ f, (f.1, item f.2)) fs)
  | _ => v
  end.

Definition is_integer (q : Q) : bool := Qeq_bool (inject_Z (Qfloor q)) q.

(** ** Files of the output directory *)

Inductive file_state := Absent | Unstatable | NotRegular | Regular (content : string) (readable : bool).
Inductive file_error := IsAbsent | IsTooBig | IsUnavailable.

(** boundedRegularFile with terminalOutputError. *)
Definition boundedRegularFile (limit : Z) (f : file_state) : result file_error string :=
  match f with
  | Absent => Err IsAbsent
  | Unstatable | NotRegular => Err IsUnavailable
  | Regular content readable =>
    fail_if limit <? Z.of_nat (String.length content) with IsTooBig ;;
    if readable then Ok content else Err IsUnavailable
  end.

(** The files of output by name; the entries of work, lessons and output. *)
Record outputs := { o_file : string → file_state; o_dir : string → option (list string) }.

(** ** Metadata *)

Record CodexProvenance := {
  ModelPolicy : string; ModelPolicyVersion : string; Model : string; Effort : string; CodexVersion : string;
  PromptRevision : string; WorkspaceHead : string; ManifestSHA256 : string; IssueNumber : Z; SourceDeliveryID : string }.

Record phase_images := {
  PreparationImageDigest : string; PreparationPlatform : string; ExecutionPlatform : string;
  DeliveryImageDigest : string; DeliveryPlatform : string }.
Record phase_times := {
  PreparationStartedAt : time; PreparationEndedAt : time; ExecutionStartedAt : time; ExecutionEndedAt : time;
  DeliveryStartedAt : time; DeliveryEndedAt : time }.

(** The rest of RunMetadata that results are made from. *)
Record terminal_meta := {
  t_meta : RunMetadata; Error : string; Phase : string; Images : phase_images; Times : phase_times;
  Provenance : option CodexProvenance }.

Record TerminalProvenance := {
  tp_Provenance : CodexProvenance; WorkerImageDigest : string; WorkerPlatform : string;
  tp_PreparationImageDigest : string; tp_PreparationPlatform : string;
  tp_PreparationStartedAt : string; tp_PreparationEndedAt : string; tp_ExecutionStartedAt : string;
  tp_ExecutionEndedAt : string; tp_DeliveryImageDigest : string; tp_DeliveryPlatform : string;
  tp_DeliveryStartedAt : string; tp_DeliveryEndedAt : string; tp_VerificationTask : string;
  VerificationResult : string; Usage : option object }.

Inductive output_failure :=
| OFile (name : string) (e : file_error) | OEmpty | ONotUTF8 (name : string) | ONotObject | OMismatch | ONoOutcome
| OOutcome | ONoVerification | OVerification | ONoPullRequest | OPullRequest | ODelivery | OTree | OTooBig (name : string).

(** A text of the broker's, an output failure, or a text and an output failure after it. *)
Inductive failure_reason := RText (s : string) | ROutput (f : output_failure) | RBoth (s : string) (f : output_failure).

Record TerminalResult := {
  r_run : RunMetadata; Outcome : string; Result : option object; FinalSummary : string;
  FailureStage : string; FailureReason : option failure_reason; ModelExecutionStarted : bool; FailureClass : string;
  r_Provenance : option TerminalProvenance }.

(** ** Classification *)

Definition workerResultVersion := "repository-task-worker-result/v1".

Definition isFailedTerminalOutcome (outcome : string) : bool :=
  (outcome =? StatusFailed)%string || (outcome =? StatusTimedOut)%string || (outcome =? StatusStopped)%string.

Definition t_source (m : terminal_meta) : string := m_TerminalSource (t_meta m).
Definition started (m : terminal_meta) : bool := negb (is_zero (ExecutionStartedAt (Times m))).

Definition isCodexTerminalFailure (m : terminal_meta) : bool :=
  has_prefix "preparation_" (Phase m) || has_prefix "execution_" (Phase m) || has_prefix "recovery_" (Phase m)
  || has_prefix "delivery_" (Phase m) || has_prefix "codex_" (t_source m).

Definition terminalFailureClass (m : terminal_meta) : string :=
  if has_prefix "delivery_" (Phase m) || has_prefix "recovery_" (Phase m)
     || GoStrings.contains (t_source m) "delivery" || GoStrings.contains (t_source m) "stale"
  then "delivery_or_lease"
  else if started m && (has_prefix "execution_" (Phase m)
          || GoStrings.contains (t_source m) "execution" || GoStrings.contains (t_source m) "timeout")
  then "model_or_code" else "infrastructure".

Definition fallbackOutcome (status : string) : string :=
  if existsb (String.eqb status) [StatusTimedOut; StatusStopped; StatusCancelled] then status else StatusFailed.

Definition abbreviate (value : string) (max : nat) : string :=
  let value := trim_space value in
  if (max =? 0)%nat || (String.length value <=? max)%nat then value else trim_space (stake max value) +:+ "...".

(** ** Checks of the worker's result *)

Definition lower_hex (c : ascii) : bool := is_digit c || GoStrings.contains "abcdef" (String c "").
Definition isLowerHexSHA (value : string) : bool := (String.length value =? 40)%nat && all_chars lower_hex value.

Definition same_texts (o : object) (expected : list (string * string)) : bool :=
  forallb (λ e, bool_decide (text_field o e.1 = Some e.2)) expected.

Definition known_status (status : string) : bool := existsb (String.eqb status) ["passed"; "failed"; "not_run"].
Definition some_text (o : object) (key : string) : bool :=
  match text_field o key with Some s => negb (s =? "")%string | None => false end.

(** The number and addresses of a pull request. *)
Definition pull_identity (max : option Z) (o : object) : bool :=
  match number_field o "number" with
  | Some q => Qle_bool 1 q && match max with Some z => Qle_bool q (inject_Z z) | None => true end && is_integer q
  | None => false
  end && some_text o "html_url" && some_text o "url".

Definition sha_fields : list string :=
  ["expected_old_head_sha"; "candidate_head_sha"; "delivered_head_sha"; "validated_tree_sha"; "delivered_tree_sha"].

Definition validateCodexWorkerResult (m : RunMetadata) (o : object) : result output_failure unit :=
  let i := m_run m in
  fail_if negb (same_texts o [("version", workerResultVersion); ("run_id", RunID i); ("repository", Repo i);
                              ("base_branch", BaseBranch i)]) with OMismatch ;;
  match text_field o "outcome" with
  | None => Err OOutcome
  | Some outcome =>
    fail_if negb (existsb (String.eqb outcome) ["no_change_required"; "ready_for_review"; StatusFailed]) with OOutcome ;;
    match object_field o "verification" with
    | None => Err ONoVerification
    | Some verification =>
      fail_if negb match text_field verification "status" with Some s => known_status s | None => false end
        with OVerification ;;
      if negb (outcome =? "ready_for_review")%string then Ok () else
      match object_field o "pull_request" with
      | None => Err ONoPullRequest
      | Some pr =>
        fail_if negb (pull_identity None pr) with OPullRequest ;;
        if bool_decide (text_field o "worker" = Some "codex") then
          fail_if negb (some_text o "branch"
                        && forallb (λ f, match text_field o f with Some s => isLowerHexSHA s | None => false end) sha_fields)
            with ODelivery ;;
          fail_if negb (bool_decide (text_field o "delivered_tree_sha" = text_field o "validated_tree_sha")) with OTree ;;
          Ok ()
        else Ok ()
      end
    end
  end.

Section Project.
Variable parse_json : string → option any.
Variable marshal : object → string.
Variable redact : string → string.
Variable limit : Z.

(** json.Unmarshal into a map, and that the map is not nil. *)
Definition parse_object (content : string) : option object :=
  match parse_json content with Some (AObject fs) => Some fs | _ => None end.

Definition redacted (o : object) : object :=
  match redactJSON redact (AObject o) with AObject fs => fs | _ => o end.

Definition readLegacyPullRequest (fs : outputs) : result output_failure any :=
  match boundedRegularFile limit (o_file fs "pull-request.json") with
  | Err e => Err (OFile "pull-request.json" e)
  | Ok content =>
    match parse_object content with
    | None => Err ONotObject
    | Some raw =>
      let raw := redacted raw in
      fail_if negb (pull_identity (Some 2147483647) raw) with OPullRequest ;;
      Ok (AObject (omap (λ key, pair key <$> field raw key) ["number"; "html_url"; "url"]))
    end
  end.

Definition legacy_verification (o : object) (outcome : string) : option string :=
  if (outcome =? "no_change_required")%string || (outcome =? "ready_for_review")%string
  then Some (if some_text o "verify_task" then "passed" else "not_run")
  else if (outcome =? StatusFailed)%string
  then Some (if bool_decide (text_field o "stage" = Some "repository verification task") then "failed" else "not_run")
  else None.

Definition normalizeLegacyWorkerResult (fs : outputs) (m : RunMetadata) (o : object) : result output_failure object :=
  let i := m_run m in
  if bool_decide (is_Some (field o "version")) then Ok o else
  fail_if negb (same_texts o [("run_id", RunID i); ("repository", Repo i); ("base_branch", BaseBranch i);
                              ("branch", Branch i)]) with OMismatch ;;
  match text_field o "outcome" with
  | None => Err ONoOutcome
  | Some outcome =>
    match legacy_verification o outcome with
    | None => Err OOutcome
    | Some verification =>
      o ← (if (outcome =? "ready_for_review")%string
           then pr ← readLegacyPullRequest fs; Ok (put "pull_request" pr o) else Ok o);
      Ok (put "verification" (AObject [("status", AString verification)]) (put "version" (AString workerResultVersion) o))
    end
  end.

(** The worker's result and summary. *)
Definition readWorkerTerminalOutput (fs : outputs) (m : terminal_meta) : result output_failure (object * string) :=
  match boundedRegularFile limit (o_file fs "result.json") with
  | Err e => Err (OFile "result.json" e)
  | Ok content =>
    match parse_object content with
    | None => Err ONotObject
    | Some o =>
      o ← normalizeLegacyWorkerResult fs (t_meta m) (redacted o);
      _ ← (if bool_decide (is_Some (Provenance m)) then validateCodexWorkerResult (t_meta m) o else Ok ());
      fail_if limit <? Z.of_nat (String.length (marshal o)) with OTooBig "result.json" ;;
      match boundedRegularFile limit (o_file fs "final-summary.md") with
      | Err e => Err (OFile "final-summary.md" e)
      | Ok summary =>
        fail_if negb (valid_utf8 summary) with ONotUTF8 "final-summary.md" ;;
        let summary := redact summary in
        fail_if limit <? Z.of_nat (String.length summary) with OTooBig "final-summary.md" ;;
        Ok (o, summary)
      end
    end
  end.

(** ** The Codex worker's last message *)

Definition readCodexFinalOutput (fs : outputs) : result output_failure string :=
  match boundedRegularFile limit (o_file fs "codex-final.txt") with
  | Err e => Err (OFile "codex-final.txt" e)
  | Ok data =>
    fail_if (data =? "")%string with OEmpty ;;
    fail_if negb (valid_utf8 data) with ONotUTF8 "codex-final.txt" ;;
    Ok data
  end.

Definition newline : string := String "010" "".

Definition codexTokenScanFailure (fs : outputs) : string :=
  match boundedRegularFile 32 (o_file fs "codex-token-scan-failure") with
  | Err _ => ""
  | Ok marker =>
    if (marker =? "purge_failed" +:+ newline)%string
    then "credential contamination cleanup could not be verified; host-backed artifacts remain quarantined and delivery is blocked"
    else if negb (bool_decide (o_dir fs "work" = Some [] ∧ o_dir fs "lessons" = Some [])) then ""
    else if negb (bool_decide (o_dir fs "output" = Some ["codex-token-scan-failure"])) then ""
    else if (marker =? "contamination" +:+ newline)%string
    then "exact task-credential contamination detected; disposable execution artifacts were purged"
    else if (marker =? "incomplete" +:+ newline)%string
    then "task-credential scan was incomplete; disposable execution artifacts were purged"
    else ""
  end.

(** ** Provenance *)

Definition boundedUsage (o : object) : bool :=
  (length o <=? 4)%nat && forallb (λ f,
    if existsb (String.eqb f.1) ["input_tokens"; "cached_input_tokens"; "output_tokens"] then
      match f.2 with
      | ANumber q => Qle_bool 0 q && Qle_bool q 1000000000 && is_integer q
      | _ => false
      end
    else if (f.1 =? "status")%string then
      match f.2 with AString s => (String.length s <=? 32)%nat | _ => false end
    else false) o.

(** The times are the keys of a map: of equal ones the last names the target. *)
Definition phase_time (t : time) (later : list time) : string :=
  if is_zero t || existsb (Z.eqb t) later then "" else formatTime t.

Definition terminalProvenance (fs : outputs) (m : terminal_meta) (p : CodexProvenance) : TerminalProvenance :=
  let images := Images m in let times := Times m in
  {| tp_Provenance := p; WorkerImageDigest := m_ImageDigest (t_meta m); WorkerPlatform := ExecutionPlatform images;
     tp_PreparationImageDigest := PreparationImageDigest images; tp_PreparationPlatform := PreparationPlatform images;
     tp_PreparationStartedAt := phase_time (PreparationStartedAt times)
       [PreparationEndedAt times; ExecutionStartedAt times; ExecutionEndedAt times; DeliveryStartedAt times;
        DeliveryEndedAt times];
     tp_PreparationEndedAt := phase_time (PreparationEndedAt times)
       [ExecutionStartedAt times; ExecutionEndedAt times; DeliveryStartedAt times; DeliveryEndedAt times];
     tp_ExecutionStartedAt := phase_time (ExecutionStartedAt times)
       [ExecutionEndedAt times; DeliveryStartedAt times; DeliveryEndedAt times];
     tp_ExecutionEndedAt := phase_time (ExecutionEndedAt times) [DeliveryStartedAt times; DeliveryEndedAt times];
     tp_DeliveryImageDigest := DeliveryImageDigest images; tp_DeliveryPlatform := DeliveryPlatform images;
     tp_DeliveryStartedAt := phase_time (DeliveryStartedAt times) [DeliveryEndedAt times];
     tp_DeliveryEndedAt := phase_time (DeliveryEndedAt times) [];
     tp_VerificationTask := VerificationTask (m_run (t_meta m)); VerificationResult := "";
     Usage := match boundedRegularFile 4096 (o_file fs "codex-usage.json") with
              | Err _ => None
              | Ok content => usage ← parse_object content; if boundedUsage usage then Some usage else None
              end |}.

Definition with_verification (o : object) (p : TerminalProvenance) : TerminalProvenance :=
  match (v ← object_field o "verification"; text_field v "status") with
  | Some status =>
    if known_status status then
      {| tp_Provenance := tp_Provenance p; WorkerImageDigest := WorkerImageDigest p; WorkerPlatform := WorkerPlatform p;
         tp_PreparationImageDigest := tp_PreparationImageDigest p; tp_PreparationPlatform := tp_PreparationPlatform p;
         tp_PreparationStartedAt := tp_PreparationStartedAt p; tp_PreparationEndedAt := tp_PreparationEndedAt p;
         tp_ExecutionStartedAt := tp_ExecutionStartedAt p; tp_ExecutionEndedAt := tp_ExecutionEndedAt p;
         tp_DeliveryImageDigest := tp_DeliveryImageDigest p; tp_DeliveryPlatform := tp_DeliveryPlatform p;
         tp_DeliveryStartedAt := tp_DeliveryStartedAt p; tp_DeliveryEndedAt := tp_DeliveryEndedAt p;
         tp_VerificationTask := tp_VerificationTask p; VerificationResult := status; Usage := Usage p |}
    else p
  | None => p
  end.

(** ** The projection *)

(** The fields that are the broker's in every result. *)
Definition terminal (fs : outputs) (m : terminal_meta) (outcome : string) (result : option object) (summary stage : string)
    (reason : option failure_reason) (class : string) : TerminalResult :=
  {| r_run := t_meta m; Outcome := outcome; Result := result; FinalSummary := summary; FailureStage := stage;
     FailureReason := reason; ModelExecutionStarted := started m; FailureClass := class;
     r_Provenance := terminalProvenance fs m <$> Provenance m |}.

Definition codex_failure (fs : outputs) (m : terminal_meta) : TerminalResult :=
  let reason := redact (Error m) in
  let '(summary, reason) :=
    if negb (started m) then ("", RText (abbreviate reason 500)) else
    let scan := codexTokenScanFailure fs in
    if negb (scan =? "")%string then ("", RText (abbreviate scan 500)) else
    match readCodexFinalOutput fs with
    | Err e => ("", RBoth reason e)
    | Ok summary => (summary, RText (abbreviate reason 500))
    end in
  terminal fs m StatusFailed None summary (trim_prefix "codex_" (t_source m)) (Some reason) (terminalFailureClass m).

Definition projectTerminalResult (fs : outputs) (m : terminal_meta) : TerminalResult :=
  let status := m_Status (t_meta m) in
  if bool_decide (is_Some (Provenance m)) && negb (Error m =? "")%string && isCodexTerminalFailure m
  then codex_failure fs m
  else if (t_source m =? "startup_failure")%string && negb (Error m =? "")%string
  then terminal fs m StatusFailed None "" "sandbox_startup" (Some (RText (abbreviate (redact (Error m)) 500))) "infrastructure"
  else
    match readWorkerTerminalOutput fs m with
    | Err e => terminal fs m (fallbackOutcome status) None "" "terminal_result" (Some (ROutput e)) (terminalFailureClass m)
    | Ok (o, summary) =>
      let r :=
        if some_text o "outcome" then
          let outcome := default "" (text_field o "outcome") in
          terminal fs m outcome (Some o) summary "" None
            (if isFailedTerminalOutcome outcome then terminalFailureClass m else "")
        else terminal fs m (fallbackOutcome status) None "" "terminal_result" (Some (ROutput ONoOutcome)) (terminalFailureClass m) in
      {| r_run := r_run r; Outcome := Outcome r; Result := Result r; FinalSummary := FinalSummary r;
         FailureStage := FailureStage r; FailureReason := FailureReason r; ModelExecutionStarted := ModelExecutionStarted r;
         FailureClass := FailureClass r; r_Provenance := with_verification o <$> r_Provenance r |}
    end.
End Project.

(** ** What reaches the result *)


Section Checked.
Variable parse_json : string → option any.
Variable marshal : object → string.
Variable redact : string → string.
Variable limit : Z.




























End Checked.

(** ** Concrete results *)

Definition identity_ex : RunIdentity :=
  {| RunID := "run-1"; WorkItemID := ""; Profile := "fix"; Principal := ""; IdempotencyKeyDigest := "";
     RequestFingerprint := ""; LaunchConfigVersion := ""; run_Template := ""; Repo := "o/r"; BaseBranch := "main";
     Branch := "agent/x"; Task := ""; VerificationTask := "test"; Focus := ""; WorkerAgentID := "";
     run_BrokerAgentID := ""; run_CredentialBundle := ""; run_Image := ""; ResolvedReleaseGeneration := 0;
     Deliverables := []; Parameters := ∅; StartedAt := 0; Deadline := 0 |}.

Definition provenance_ex : CodexProvenance :=
  {| ModelPolicy := "p"; ModelPolicyVersion := "1"; Model := "m"; Effort := "high"; CodexVersion := "1";
     PromptRevision := "1"; WorkspaceHead := "h"; ManifestSHA256 := "s"; IssueNumber := 1; SourceDeliveryID := "d" |}.

Definition ended_ex (status source error phase : string) (provenance : option CodexProvenance) : terminal_meta :=
  {| t_meta := {| m_run := identity_ex; m_ContainerID := ""; m_ImageDigest := "i"; m_Status := status;
                  m_ExitCode := Some 0; m_FinalizeReason := ""; m_TerminalSource := source; m_EndedAt := 9 |};
     Error := error; Phase := phase;
     Images := {| PreparationImageDigest := ""; PreparationPlatform := ""; ExecutionPlatform := "";
                  DeliveryImageDigest := ""; DeliveryPlatform := "" |};
     Times := {| PreparationStartedAt := 1; PreparationEndedAt := 2; ExecutionStartedAt := 2; ExecutionEndedAt := 5;
                 DeliveryStartedAt := 6; DeliveryEndedAt := 7 |};
     Provenance := provenance |}.

Definition texts (l : list (string * string)) : object := map (λ f, (f.1, AString f.2)) l.
Definition pull_ex : object := ("number", ANumber 7) :: texts [("html_url", "https://h/7"); ("url", "https://a/7")].

Definition worker_ex : object :=
  texts [("version", workerResultVersion); ("run_id", "run-1"); ("repository", "o/r"); ("base_branch", "main");
         ("outcome", "ready_for_review"); ("log", "token s3cret")]
  ++ [("verification", AObject (texts [("status", "passed")])); ("pull_request", AObject pull_ex)].

Definition legacy_ex : object :=
  texts [("run_id", "run-1"); ("repository", "o/r"); ("base_branch", "main"); ("branch", "agent/x");
         ("outcome", "ready_for_review"); ("verify_task", "test")].

(** The parser of these files; the first letter of a content says which it is. *)
Definition parse_ex (content : string) : option any :=
  match content with
  | String "w" _ => Some (AObject worker_ex)
  | String "l" _ => Some (AObject legacy_ex)
  | String "p" _ => Some (AObject (("title", AString "t") :: pull_ex))
  | String "f" _ => Some (AObject (texts [("version", "any"); ("run_id", "run-2"); ("outcome", "fine")]))
  | _ => None
  end.
Definition redact_ex (s : string) : string := if GoStrings.contains s "s3cret" then "[REDACTED]" else s.
Definition project_ex : outputs → terminal_meta → TerminalResult := projectTerminalResult parse_ex (λ _, "") redact_ex 100.
Definition files_ex (result : string) : outputs :=
  {| o_file name := if (name =? "result.json")%string then Regular result true
                    else if (name =? "pull-request.json")%string then Regular "p" true
                    else if (name =? "final-summary.md")%string then Regular "done with s3cret" true
                    else if (name =? "codex-final.txt")%string then Regular "I used s3cret" true else Absent;
     o_dir _ := None |}.

(** A result without a version gets one, its verification and the numbers of the
    pull request; the texts are redacted. *)
Example legacy_result_ex :
  (λ r, (Outcome r, Result r, FinalSummary r)) (project_ex (files_ex "l") (ended_ex StatusCompleted "" "" "" None))
  = ("ready_for_review",
     Some (("verification", AObject [("status", AString "passed")]) :: ("version", AString workerResultVersion)
           :: ("pull_request", AObject pull_ex) :: legacy_ex), "[REDACTED]").
Proof. by vm_compute. Qed.

(** A ready result of a Codex run needs no branch, heads or trees as long as it
    does not name codex as its worker. *)
Example undelivered_ready_ex :
  let r := project_ex (files_ex "w") (ended_ex StatusCompleted "" "" "" (Some provenance_ex)) in
  Outcome r = "ready_for_review" ∧ FailureReason r = None ∧
  option_map (λ o, (field o "branch", field o "delivered_head_sha", text_field o "log")) (Result r)
  = Some (None, None, Some "[REDACTED]").
Proof. by vm_compute. Qed.

(** A result with any version is taken without a look at the identity in it. *)
Example foreign_result_ex :
  let r := project_ex (files_ex "f") (ended_ex StatusCompleted "" "" "" None) in
  Outcome r = "fine" ∧ option_map (λ o, text_field o "run_id") (Result r) = Some (Some "run-2").
Proof. by vm_compute. Qed.

(** Of two phases that meet, only the later one keeps the time. *)
Example phase_times_ex :
  let p := terminalProvenance parse_ex (files_ex "w") (ended_ex StatusCompleted "" "" "" (Some provenance_ex)) provenance_ex in
  tp_PreparationEndedAt p = "" ∧ tp_ExecutionStartedAt p = formatTime 2 ∧ tp_ExecutionStartedAt p ≠ "".
Proof. by vm_compute. Qed.

(** The outputs of a run that completed are gone: it failed. *)
Example outputs_gone_ex :
  let r := project_ex {| o_file _ := Absent; o_dir _ := None |} (ended_ex StatusCompleted "" "" "" None) in
  Outcome r = StatusFailed ∧ FailureReason r = Some (ROutput (OFile "result.json" IsAbsent)).
Proof. by vm_compute. Qed.

(** A failed execution carries Codex's last message as it is. *)
Example last_message_ex :
  let r := project_ex (files_ex "w") (ended_ex StatusFailed "codex_execution" "exit 1" "execution_failed" (Some provenance_ex)) in
  (Outcome r, FailureStage r, FailureClass r, FinalSummary r) = (StatusFailed, "execution", "model_or_code", "I used s3cret").
Proof. by vm_compute. Qed.
