(* ===== verification/Redaction.v ===== *)
(** * internal/sandbox/redaction.go: secrets in what the broker tells of a run

    A [Redactor] holds the values it knows for secrets and replaces them, and
    what the patterns below match, by a marker.  Patterns are matched as package
    regexp does it: the leftmost match that a backtracking search finds first,
    and then on from its end.  Files and the decoder of JSON are arguments. *)

From S2P Require Import Prelude GoStrings Net Regex Sandbox Paths SandboxConfig TerminalResult.
Open Scope string_scope.
Open Scope list_scope.

(** ** Patterns *)

Inductive pat := PEps | PCls (p : ascii → bool) | PSeq (a b : pat) | PAlt (a b : pat) | PStar (a : pat).

(** The first match in the order of preference for which [k] succeeds on the
    rest: the left of an alternative, and one more round of a star. *)
Fixpoint run {A} (r : pat) (l : list ascii) (k : list ascii → option A) : option A :=
  match r with
  | PEps => k l
  | PCls p => match l with c :: l => if p c then k l else None | [] => None end
  | PSeq a b => run a l (λ l, run b l k)
  | PAlt a b => match run a l k with Some x => Some x | None => run b l k end
  | PStar a =>
    (fix star (fuel : nat) (l : list ascii) : option A :=
       match fuel with
       | O => k l
       | S fuel => match run a l (star fuel) with Some x => Some x | None => k l end
       end) (length l) l
  end.

Definition pplus (a : pat) : pat := PSeq a (PStar a).
Definition popt (a : pat) : pat := PAlt a PEps.
Fixpoint pseqs (l : list pat) : pat := match l with [] => PEps | [r] => r | r :: l => PSeq r (pseqs l) end.
Fixpoint palts (l : list pat) : pat := match l with [] => PEps | [r] => r | r :: l => PAlt r (palts l) end.
Fixpoint ptimes (n : nat) (r : pat) : pat := match n with O => PEps | S n => PSeq r (ptimes n r) end.
Definition at_least (n : nat) (r : pat) : pat := PSeq (ptimes n r) (PStar r).

Definition exact (s : string) : pat := pseqs (map (λ c, PCls (Ascii.eqb c)) (chars s)).

(** Under (?i), k matches the Kelvin sign and s the long s as well. *)
Definition long_s : pat := exact (str [197; 191]%nat).
Definition kelvin : pat := exact (str [226; 132; 170]%nat).
Definition fold_char (c : ascii) : pat :=
  let both := PCls (λ d, Ascii.eqb (lower_char c) (lower_char d)) in
  if Ascii.eqb c "s" then PAlt both long_s else if Ascii.eqb c "k" then PAlt both kelvin else both.
Definition folded (s : string) : pat := pseqs (map fold_char (chars s)).

(** \s and [^\s]: no rune outside ASCII is a space *)
Definition is_blank : ascii → bool := one_of (str [9; 10; 12; 13; 32]%nat).
Definition blank_char : pat := PCls is_blank.
Definition visible : pat := PCls (λ c, negb (is_blank c)).
Definition dash_opt : pat := popt (PCls (one_of "_-")).

(** A pattern: the part that is kept, and the part that is replaced. *)
Definition redactionPatterns : list (pat * pat) :=
  let scheme := PAlt (folded "bearer") (folded "token") in
  let url_char := PCls (word alnum "_-") in [
  (pseqs [folded "authorization:"; PStar blank_char; popt scheme; pplus blank_char], pplus visible);
  (PSeq scheme (pplus blank_char), pplus (palts [PCls (word alnum "._~+/=-"); long_s; kelvin]));
  (pseqs [palts [pseqs [folded "api"; dash_opt; folded "key"]; pseqs [folded "access"; dash_opt; folded "token"];
                 pseqs [folded "refresh"; dash_opt; folded "token"]; pseqs [folded "client"; dash_opt; folded "secret"];
                 folded "password"]; PStar blank_char; PCls (one_of ":="); PStar blank_char], pplus visible);
  (PEps, pseqs [exact "eyJ"; at_least 8 url_char; exact "."; at_least 8 url_char; exact "."; pplus url_char])].

Definition marker : string := "[REDACTED]".

(** ReplaceAllString(s, marker after the kept part): every match has at least
    one byte, so the length of the text is fuel enough. *)
Fixpoint replace_from (r : pat * pat) (fuel : nat) (l : list ascii) : list ascii :=
  match fuel with
  | O => l
  | S fuel =>
    match run r.1 l (λ kept, run r.2 kept (λ rest, Some (kept, rest))) with
    | Some (kept, rest) => take (length l - length kept) l ++ chars marker ++ replace_from r fuel rest
    | None => match l with [] => [] | c :: l => c :: replace_from r fuel l end
    end
  end.
Definition ReplaceAllString (r : pat * pat) (s : string) : string :=
  String.string_of_list_ascii (replace_from r (String.length s) (chars s)).

(** strings.ReplaceAll(s, old, marker), for an [old] that is not empty *)
Fixpoint replace_all (fuel : nat) (old s : string) : string :=
  match fuel with
  | O => s
  | S fuel =>
    match index_of old s with
    | Some i => stake i s +:+ marker +:+ replace_all fuel old (sdrop (i + String.length old) s)
    | None => s
    end
  end.
Definition ReplaceAll (s old : string) : string := replace_all (S (String.length s)) old s.

(** ** The redactor *)

Definition Redactor : Type := list string.

Definition NewRedactor (values : list string) : Redactor :=
  List.filter (λ v, (6 <=? String.length v)%nat) (map trim_space values).

Definition Redact (r : Redactor) (s : string) : string :=
  if (s =? "")%string then s else
  fold_left ReplaceAll r (fold_left (λ out re, ReplaceAllString re out) redactionPatterns s).

(** Go visits the fields of an object in any order; here they come in that of
    the decoded text.  What [Redact_hides] says holds for every order. *)
Fixpoint jsonStringValues (v : any) : list string :=
  match v with
  | AString s => [s]
  | AList l => flat_map jsonStringValues l
  | AObject fs => flat_map (λ f, jsonStringValues f.2) fs
  | ANull | ABool _ | ANumber _ => []
  end.

(** What os.Lstat says of a path; for what is neither a directory nor a link,
    its size and what os.ReadFile then reads. *)
Inductive found := NotFound | Directory | Link | Plain (size : Z) (content : option string).

Section Bundles.
Variable parse_any : string → option any.
Variable files : string → found.

(** filepath.Join of two elements *)
Definition Join (a b : string) : string := if (a =? "")%string then Clean b else if (b =? "")%string then Clean a else Clean (a +:+ "/" +:+ b).
Definition escapesBase (base path : string) : bool := negb (pathWithin path base).

Definition secrets_of (b : BundleDecl) (rel : string) : list string :=
  if negb (safeRelativePath rel) then [] else
  let path := Join (SourcePath (bd b)) rel in
  if escapesBase (SourcePath (bd b)) path then [] else
  match files path with
  | Plain size (Some content) =>
    if (1048576 <? size)%Z then [] else
    fields content ++ [trim_space content] ++ match parse_any content with Some v => jsonStringValues v | None => [] end
  | _ => []
  end.

Definition RedactorForBundle (b : BundleDecl) : Redactor :=
  NewRedactor (flat_map (secrets_of b) (SecretFiles b ++ RedactFiles b)).

(** Service.redactor, of a run's template *)
Definition redactor (c : config) (template : string) : Redactor :=
  match c_Templates c !! template with
  | None => []
  | Some t =>
    NewRedactor [BrokerAgentSecret (td t)] ++
    if (tmpl_CredentialBundle (td t) =? "")%string then [] else
    match c_Bundles c !! tmpl_CredentialBundle (td t) with Some b => RedactorForBundle b | None => [] end
  end.
End Bundles.

Example redacted_ex :
  map (Redact []) ["get: Authorization: Bearer abc.def failed"; "TOKEN x1;y"; "api-key = k1 k2"; "authorization:   secret";
                   "x eyJhbGciOiJI.eyJzdWIiOiIx.sig_ y"; "fine"; ""] =
  ["get: Authorization: Bearer [REDACTED] failed"; "TOKEN [REDACTED];y"; "api-key = [REDACTED] k2"; "authorization:   [REDACTED]";
   "x [REDACTED] y"; "fine"; ""].
Proof. by vm_compute. Qed.

(** ** Occurrences *)

Definition occurs (v s : string) : Prop := ∃ a b, s = a +:+ v +:+ b.
Definition within (w l : list ascii) : Prop := ∃ a b, l = a ++ w ++ b.

(** A value that the marker cannot be part of: it has no bracket and is no part
    of the word between the marker's. *)
Definition distinct (v : string) : Prop :=
  "["%char ∉ chars v ∧ "]"%char ∉ chars v ∧ index_of v "REDACTED" = None.

Lemma chars_inj a b : chars a = chars b → a = b.
Proof. intros E. rewrite <- (String.string_of_list_ascii_of_string a), <- (String.string_of_list_ascii_of_string b). by f_equal. Qed.
Lemma chars_str l : chars (String.string_of_list_ascii l) = l.
Proof. apply String.list_ascii_of_string_of_list_ascii. Qed.
Lemma chars_stake n s : chars (stake n s) = take n (chars s).
Proof. revert s. induction n as [|n IH]; intros [|c s]; cbn; by rewrite ?IH. Qed.
Lemma chars_sdrop n s : chars (sdrop n s) = drop n (chars s).
Proof. revert s. induction n as [|n IH]; intros [|c s]; cbn; by rewrite ?IH. Qed.
Lemma occurs_within v s : occurs v s ↔ within (chars v) (chars s).
Proof.
  split.
  - intros (a & b & ->). exists (chars a), (chars b). by rewrite !chars_app.
  - intros (a & b & E). exists (String.string_of_list_ascii a), (String.string_of_list_ascii b).
    apply chars_inj. by rewrite !chars_app, !chars_str.
Qed.

Lemma within_app_r w x y : within w y → within w (x ++ y).
Proof. intros (a & b & ->). exists (x ++ a), b. by rewrite <- app_assoc. Qed.
Lemma within_app_l w x y : within w x → within w (x ++ y).
Proof. intros (a & b & ->). exists a, (b ++ y). by rewrite <- !app_assoc. Qed.
Lemma within_nil w : within w [] → w = [].
Proof. intros (a & b & E). symmetry in E. apply app_eq_nil in E as [_ E]. by apply app_eq_nil in E as [E _]. Qed.

(** A word without a character lies on one side of it. *)
Lemma within_split w c x y : c ∉ w → within w (x ++ c :: y) → within w x ∨ within w y.
Proof.
  intros Hc (a & b & E). apply app_eq_inv in E as [(k & -> & E)|(k & -> & E)].
  - symmetry in E. left. apply app_eq_inv in E as [(k' & -> & _)|(k' & -> & E)].
    + by exists a, k'.
    + destruct k' as [|d k']; cbn in E; [exists a, []; by rewrite !app_nil_r|]. injection E as <- _.
      destruct Hc. apply elem_of_app. right. by left.
  - right. destruct k as [|d k]; cbn in E.
    + destruct w as [|d w]; [exists [], y; done|]. cbn in E. injection E as -> _. destruct Hc. by left.
    + injection E as -> ->. by exists k, b.
Qed.

Lemma has_prefix_chars p s : has_prefix p s = true ↔ ∃ b, chars s = chars p ++ b.
Proof.
  rewrite has_prefix_drop. split.
  - intros E. exists (chars (sdrop (String.length p) s)). by rewrite <- chars_app, <- E.
  - intros [b E]. apply chars_inj. by rewrite chars_app, chars_sdrop, E, <- length_chars, drop_app_length.
Qed.

(** strings.Index finds the first occurrence. *)
Lemma index_of_some v s i : index_of v s = Some i →
  s = stake i s +:+ v +:+ sdrop (i + String.length v) s ∧ (v ≠ "" → ¬ within (chars v) (chars (stake i s))).
Proof.
  revert i. induction s as [|c s IH]; intros i; cbn [index_of].
  - destruct (has_prefix v "") eqn:E; [|done]. intros [= <-]. apply has_prefix_drop in E. split; [done|].
    intros Hv Hw%within_nil. destruct Hv. by apply chars_inj.
  - destruct (has_prefix v (String c s)) eqn:E.
    { intros [= <-]. apply has_prefix_drop in E. split; [done|]. intros Hv Hw%within_nil. destruct Hv. by apply chars_inj. }
    intros (j & Hj & ->)%fmap_Some. apply IH in Hj as [Es Hno]. split.
    { cbn [stake Nat.add sdrop]. by rewrite sapp_cons, <- Es. }
    intros Hv (a & b & Ea). cbn [stake] in Ea. destruct a as [|d a]; cbn in Ea.
    + apply not_true_iff_false in E. apply E, has_prefix_chars. exists (b ++ chars (v +:+ sdrop (j + String.length v) s)).
      rewrite app_assoc, <- Ea. cbn. by rewrite <- chars_app, <- Es.
    + injection Ea as <- Ea. apply (Hno Hv). by exists a, b.
Qed.

Lemma index_of_none v s : index_of v s = None → ¬ within (chars v) (chars s).
Proof.
  induction s as [|c s IH]; cbn [index_of].
  - destruct (has_prefix v "") eqn:E; [done|]. intros _ Hw%within_nil. apply not_true_iff_false in E. apply E, has_prefix_chars. by rewrite Hw; exists [].
  - destruct (has_prefix v (String c s)) eqn:E; [done|]. intros H%fmap_None (a & b & Ea). destruct a as [|d a]; cbn in Ea.
    + apply not_true_iff_false in E. apply E, has_prefix_chars. by exists b.
    + injection Ea as <- Ea. apply (IH H). by exists a, b.
Qed.

(** ** A redaction brings nothing in *)

Inductive redaction : list ascii → list ascii → Prop :=
| rd_end l : redaction l l
| rd_step x y z out : redaction z out → redaction (x ++ y ++ z) (x ++ chars marker ++ out).

Lemma within_marked w x y : distinct w → within (chars w) (x ++ chars marker ++ y) → within (chars w) x ∨ within (chars w) y.
Proof.
  intros (Ho & Hc & Hr) H. change (chars marker ++ y) with ("["%char :: chars "REDACTED" ++ "]"%char :: y) in H.
  apply within_split in H as [H|H]; [by left| |done]. apply within_split in H as [H|H]; [|by right|done].
  by destruct (index_of_none _ _ Hr).
Qed.

Lemma redaction_absent w l out : distinct w → redaction l out → ¬ within (chars w) l → ¬ within (chars w) out.
Proof.
  intros Hw. induction 1 as [l|x y z out _ IH]; [done|]. intros Hno [H|H]%within_marked; [| |done].
  - by apply Hno, within_app_l.
  - apply IH; [|done]. intros Hz. by apply Hno, within_app_r, within_app_r.
Qed.

(** A match leaves a suffix. *)
Lemma run_suffix {A} (r : pat) (l : list ascii) (k : list ascii → option A) x :
  run r l k = Some x → ∃ l', l' `suffix_of` l ∧ k l' = Some x.
Proof.
  revert l k. induction r as [|p|a IHa b IHb|a IHa b IHb|a IHa]; intros l k; cbn [run].
  - by exists l.
  - destruct l as [|c l]; [done|]. destruct (p c); [|done]. exists l. split; [by exists [c]|done].
  - intros (l1 & H1 & (l2 & H2 & E)%IHb)%IHa. exists l2. split; [by transitivity l1|done].
  - destruct (run a l k) eqn:E; [intros [= <-]; by apply IHa|]. apply IHb.
  - generalize (length l) at 1. intros n. revert l. induction n as [|n IH]; intros l; [by exists l|].
    destruct (run a l _) eqn:E; [|by exists l]. intros [= <-]. apply IHa in E as (l1 & H1 & (l2 & H2 & E)%IH).
    exists l2. split; [by transitivity l1|done].
Qed.

Lemma suffix_take (x l : list ascii) : x `suffix_of` l → l = take (length l - length x) l ++ x.
Proof. intros [y ->]. rewrite length_app, Nat.add_sub. by rewrite take_app_length. Qed.

Lemma replace_from_redaction r fuel l : redaction l (replace_from r fuel l).
Proof.
  revert l. induction fuel as [|fuel IH]; intros l; cbn [replace_from]; [constructor|].
  destruct (run _ _ _) as [[kept rest]|] eqn:E.
  - apply run_suffix in E as (l1 & H1 & (l2 & H2 & [= <- <-])%run_suffix).
    rewrite (suffix_take l1 l H1) at 1. destruct H2 as [y ->]. apply rd_step, IH.
  - destruct l as [|c l]; [constructor|]. clear E. specialize (IH l). revert IH. generalize (replace_from r fuel l). intros out. clear.
    destruct 1 as [l|x y z out H]; [constructor|]. by apply (rd_step (c :: x)).
Qed.

Lemma replace_all_redaction fuel old s : redaction (chars s) (chars (replace_all fuel old s)).
Proof.
  revert s. induction fuel as [|fuel IH]; intros s; cbn [replace_all]; [constructor|].
  destruct (index_of old s) as [i|] eqn:E; [|constructor]. apply index_of_some in E as [E _].
  rewrite E at 1. rewrite !chars_app. apply rd_step, IH.
Qed.

Lemma replace_all_absent fuel old s : distinct old → old ≠ "" → (String.length s < fuel)%nat → ¬ within (chars old) (chars (replace_all fuel old s)).
Proof.
  intros Hd Hv. revert s. induction fuel as [|fuel IH]; intros s Hl; [lia|]. cbn [replace_all].
  destruct (index_of old s) as [i|] eqn:E; [|by apply index_of_none]. apply index_of_some in E as [E Hno].
  rewrite !chars_app. intros [H|H]%within_marked; [by apply Hno| |done]. revert H. apply IH. rewrite length_sdrop.
  assert (String.length old ≠ 0%nat) by by destruct old. apply (f_equal String.length) in E. rewrite !length_sapp in E. lia.
Qed.

(** ** What the redactor hides *)

Lemma patterns_absent v res s : distinct v → ¬ within (chars v) (chars s) →
  ¬ within (chars v) (chars (fold_left (λ out re, ReplaceAllString re out) res s)).
Proof.
  intros Hd. revert s. induction res as [|re res IH]; intros s Hs; cbn [fold_left]; [done|]. apply IH.
  unfold ReplaceAllString. rewrite chars_str. by apply (redaction_absent v (chars s)), Hs; [|apply replace_from_redaction].
Qed.

Lemma known_absent v r s : distinct v → ¬ within (chars v) (chars s) → ¬ within (chars v) (chars (fold_left ReplaceAll r s)).
Proof.
  intros Hd. revert s. induction r as [|w r IH]; intros s Hs; cbn [fold_left]; [done|]. apply IH.
  by apply (redaction_absent v (chars s)), Hs; [|apply replace_all_redaction].
Qed.

(** A known value does not occur in redacted text. *)
Lemma Redact_hides v r s : v ∈ r → v ≠ "" → distinct v → ¬ occurs v (Redact r s).
Proof.
  intros Hin Hv Hd. rewrite occurs_within. unfold Redact. destruct (String.eqb_spec s "") as [->|_].
  { intros H%within_nil. destruct Hv. by apply chars_inj. }
  generalize (fold_left (λ out re, ReplaceAllString re out) redactionPatterns s). clear s. intros s. revert s.
  induction r as [|w r IH]; intros s; [by apply not_elem_of_nil in Hin|]. cbn [fold_left].
  apply elem_of_cons in Hin as [<-|Hin]; [|by apply IH]. apply known_absent; [done|]. apply replace_all_absent; [done..|lia].
Qed.
