(* ===== verification/Artifacts.v ===== *)
(** * internal/sandbox/artifacts.go: the files a run left

    [collectFiles] walks a directory the worker writes to, and may write to
    meanwhile: an [entry] holds what each call of the walk finds at its path, in
    its turn. *)

From S2P Require Import Prelude GoStrings GoTime Net Sandbox SandboxConfig TerminalResult Redaction.
Open Scope string_scope.
Open Scope list_scope.
Open Scope Z_scope.

Definition defaultInlineLimit : Z := 8 * 1024.

Record FileManifest := { fm_Path : string; fm_Size : Z; fm_SHA256 : string; fm_Inline : string; fm_Truncated : bool }.
Record CollectionOutput := { co_RunID : string; co_Files : list FileManifest }.

(** ** What the walk finds *)

(** Opening a file and reading it to its end: that never ends for a named pipe
    that nobody writes to. *)
Inductive opened := Opens (content : string) | OpenFails (absent : bool) | Blocks.

(** os.Lstat; then, for what is neither a link nor a directory, what fileSHA256
    and os.ReadFile meet. *)
Inductive seen := StatFails (absent : bool) | SeenLink | SeenDirectory | SeenFile (size : Z) (hashed read : opened).

(** [isDir] is the type the listing of its directory gave; os.ReadDir gives the
    children in the order of their names, or an error. *)
#[local] Unset Elimination Schemes.
Inductive entry := Entry (isDir : bool) (stat : seen) (children : bool + list (string * entry)).
#[local] Set Elimination Schemes.

Lemma entry_ind (P : entry → Prop) :
  (∀ isDir stat children, (∀ l, children = inr l → Forall (λ c, P c.2) l) → P (Entry isDir stat children)) → ∀ e, P e.
Proof.
  intros H. fix IH 1. intros [isDir stat [absent|l]].
  - by apply H.
  - assert (Forall (λ c, P c.2) l) as Hl by (induction l as [|[name e] l IHl]; constructor; [exact (IH e)|exact IHl]).
    apply H. by intros ? [= <-].
Qed.

(** An error, as os.IsNotExist sees it; or the call does not return. *)
Inductive collect_error := IsNotExist | OtherError | Hangs.
Definition absent_error (absent : bool) : collect_error := if absent then IsNotExist else OtherError.

(** ** collectFiles *)

(** filepath.Ext *)
Fixpoint Ext (name : string) : string :=
  match name with
  | EmptyString => ""
  | String c rest => match Ext rest with EmptyString => if Ascii.eqb c "." then name else "" | e => e end
  end.
Definition looksText (name : string) : bool :=
  existsb (String.eqb (to_lower (Ext name))) [".md"; ".txt"; ".json"; ".yaml"; ".yml"; ".log"; ".diff"; ".patch"].

Definition open_with {A} (o : opened) (k : string → result collect_error A) : result collect_error A :=
  match o with Opens c => k c | OpenFails absent => Err (absent_error absent) | Blocks => Err Hangs end.

Section Collect.
Variable sha256_hex : string → string.
Variables (known : Redactor) (limit : Z).

(** The callback of the walk, below the root: what it appends, and whether it
    asks to skip a directory. *)
Definition visit (names : list string) (isDir : bool) (stat : seen) : result collect_error (list FileManifest * bool) :=
  let rel := join "/" names in
  fail_if (rel =? "..")%string || has_prefix "../" rel with OtherError ;;
  match stat with
  | StatFails absent => Err (absent_error absent)
  | SeenLink => Ok ([], isDir)
  | SeenDirectory => Ok ([], false)
  | SeenFile size hashed read =>
    open_with hashed (λ content,
      let item inline truncated :=
        {| fm_Path := rel; fm_Size := size; fm_SHA256 := sha256_hex content; fm_Inline := inline; fm_Truncated := truncated |} in
      if (size <=? limit) && looksText (List.last names "") then open_with read (λ b, Ok ([item (Redact known b) false], false))
      else Ok ([item "" (limit <? size)], false))
  end.

Fixpoint walk (names : list string) (e : entry) : result collect_error (list FileManifest) :=
  let 'Entry isDir stat children := e in
  v ← visit names isDir stat;
  if negb isDir || v.2 then Ok v.1 else
  match children with
  | inl absent => Err (absent_error absent)
  | inr l =>
    below ← (fix each l := match l with
                           | [] => Ok []
                           | (name, e) :: l => a ← walk (names ++ [name]) e; b ← each l; Ok (a ++ b)
                           end) l;
    Ok (v.1 ++ below)
  end.

(** filepath.WalkDir: the root itself is not visited. *)
Definition WalkDir (root : result collect_error entry) : result collect_error (list FileManifest) :=
  e ← root;
  match e with
  | Entry false _ _ => Ok []
  | Entry true _ children => walk [] (Entry true SeenDirectory children)
  end.
End Collect.

Definition path_order : relation FileManifest := λ a b, text_order (fm_Path a) (fm_Path b).
#[export] Instance path_order_dec : RelDecision path_order.
Proof. intros a b. unfold path_order. apply _. Defined.

Definition collectFiles sha256_hex (root : result collect_error entry) (runID : string) (known : Redactor) (inlineLimit : Z)
    : result collect_error CollectionOutput :=
  let limit := if inlineLimit <=? 0 then defaultInlineLimit else inlineLimit in
  files ← WalkDir sha256_hex known limit root;
  Ok {| co_RunID := runID; co_Files := merge_sort path_order files |}.

(** writeSlimArtifactsManifest: what it writes *)
Definition or_nothing (r : result collect_error CollectionOutput) : result collect_error (list FileManifest) :=
  match r with Ok out => Ok (co_Files out) | Err IsNotExist => Ok [] | Err e => Err e end.
Definition slim_manifest sha256_hex (output lessons : result collect_error entry) (runID : string) (known : Redactor)
    : result collect_error (list FileManifest * list FileManifest) :=
  o ← or_nothing (collectFiles sha256_hex output runID known 0);
  l ← or_nothing (collectFiles sha256_hex lessons runID known 0);
  Ok (o, l).

(** ** Directories that nobody changes *)

(** A regular file, a link or a directory stays what it is throughout. *)
Definition file (content : string) : entry := Entry false (SeenFile (Z.of_nat (String.length content)) (Opens content) (Opens content)) (inl false).
Definition link : entry := Entry false SeenLink (inl false).
Definition dir (l : list (string * entry)) : entry := Entry true SeenDirectory (inr l).

Definition name_ok (name : string) : Prop := name ≠ "" ∧ name ≠ "." ∧ name ≠ ".." ∧ free_of "/" name.
Inductive settled : entry → Prop :=
| settled_file c : settled (file c)
| settled_link : settled link
| settled_dir l : NoDup (map fst l) → Forall (λ c, name_ok c.1) l → Forall (λ c, settled c.2) l → settled (dir l).

Inductive file_at : entry → list string → string → Prop :=
| at_file c : file_at (file c) [] c
| at_dir l name e names c : (name, e) ∈ l → file_at e names c → file_at (dir l) (name :: names) c.

Section Spec.
Variable sha256_hex : string → string.
Variables (known : Redactor) (limit : Z).
Definition manifest_of (names : list string) (content : string) : FileManifest :=
  let size := Z.of_nat (String.length content) in
  {| fm_Path := join "/" names; fm_Size := size; fm_SHA256 := sha256_hex content;
     fm_Inline := if (size <=? limit) && looksText (List.last names "") then Redact known content else "";
     fm_Truncated := limit <? size |}.
End Spec.

Example collect_ex :
  collectFiles (λ s, s) (Ok (dir [("a", dir [("b.txt", file "token abc"); ("l", link)]); ("a.bin", file "xy"); ("big.md", file "12345678")])) "r" [] 7 =
  Ok {| co_RunID := "r"; co_Files := [
    {| fm_Path := "a.bin"; fm_Size := 2; fm_SHA256 := "xy"; fm_Inline := ""; fm_Truncated := false |};
    {| fm_Path := "a/b.txt"; fm_Size := 9; fm_SHA256 := "token abc"; fm_Inline := ""; fm_Truncated := true |};
    {| fm_Path := "big.md"; fm_Size := 8; fm_SHA256 := "12345678"; fm_Inline := ""; fm_Truncated := true |}] |}.
Proof. by vm_compute. Qed.

(** ** What is collected *)

Section Exact.
Variable sha256_hex : string → string.
Variables (known : Redactor) (limit : Z).
Let walk_ := walk sha256_hex known limit.
Let manifest := manifest_of sha256_hex known limit.

(** The files below an entry, with the names that lead to them. *)
Fixpoint files_in (names : list string) (e : entry) : list (list string * string) :=
  match e with
  | Entry _ (SeenFile _ (Opens c) _) _ => [(names, c)]
  | Entry true SeenDirectory (inr l) =>
    (fix each l := match l with [] => [] | (name, e) :: l => files_in (names ++ [name]) e ++ each l end) l
  | _ => []
  end.
Definition files_below (names : list string) (l : list (string * entry)) : list (list string * string) :=
  flat_map (λ c, files_in (names ++ [c.1]) c.2) l.

Lemma files_in_dir names l : files_in names (dir l) = files_below names l.
Proof using Type. induction l as [|[name e] l IH]; [done|]. cbn. f_equal. apply IH. Qed.

Lemma walk_dir names l : (join "/" names =? "..")%string || has_prefix "../" (join "/" names) = false →
  (∀ c, c ∈ l → walk_ (names ++ [c.1]) c.2 = Ok (map (λ f, manifest f.1 f.2) (files_in (names ++ [c.1]) c.2))) →
  walk_ names (dir l) = Ok (map (λ f, manifest f.1 f.2) (files_below names l)).
Proof using Type.
  intros Hn Hl. unfold walk_, dir. cbn [walk]. unfold visit. rewrite Hn. cbn [mbind result_bind negb orb snd fst app].
  match goal with |- context [?f l ≫= _] => assert (f l = Ok (map (λ x, manifest x.1 x.2) (files_below names l))) as -> end; [|done].
  induction l as [|[name e] l IH]; [done|].
  pose proof (Hl (name, e) (list_elem_of_here _ _)) as He. cbn [fst snd] in He. unfold walk_ in He. cbn -[walk]. rewrite He. cbn [mbind result_bind].
  rewrite IH by (intros c Hc; apply Hl; by right). cbn. by rewrite map_app.
Qed.

Lemma name_split names : Forall (λ n, name_ok n) names → names ≠ [] → split_at "/" (join "/" names) = names.
Proof using Type. intros H Hn. apply (split_join "/"); [done|]. eapply Forall_impl; [exact H|]. by intros n (_ & _ & _ & ?). Qed.

(** The check that the path stays inside never fails. *)
Lemma inside names : Forall name_ok names → (join "/" names =? "..")%string || has_prefix "../" (join "/" names) = false.
Proof using Type.
  intros H. destruct (decide (names = [])) as [->|Hn]; [done|]. pose proof (name_split names H Hn) as E.
  apply orb_false_iff. split.
  - apply String.eqb_neq. intros Ej. rewrite Ej in E. subst names. by apply Forall_cons in H as [(_ & _ & ? & _) _].
  - apply not_true_iff_false. intros Hp%has_prefix_drop. rewrite Hp in E. change ("../" +:+ ?r) with (".." +:+ String "/" r) in E.
    rewrite split_app in E by done. destruct names as [|n names]; [done|]. injection E as <- _. by apply Forall_cons in H as [(_ & _ & ? & _) _].
Qed.

Lemma walk_settled e : settled e → ∀ names, Forall name_ok names →
  walk_ names e = Ok (map (λ f, manifest f.1 f.2) (files_in names e)).
Proof using Type.
  induction e as [isDir stat children IH] using entry_ind. intros H names Hn. inversion H as [c| |l Hnd Hok Hset]; subst.
  - unfold walk_, file. cbn -[manifest_of visit files_in]. unfold visit. rewrite (inside _ Hn). cbn -[manifest_of looksText].
    unfold manifest, manifest_of. cbn [fst snd].
    destruct (Z.leb_spec (Z.of_nat (String.length c)) limit) as [Hle|Hlt]; cbn [andb].
    + rewrite (proj2 (Z.ltb_ge _ _) Hle). by destruct (looksText _).
    + done.
  - unfold walk_. cbn -[visit]. unfold visit. by rewrite (inside _ Hn).
  - change (Entry true SeenDirectory (inr l)) with (dir l). rewrite files_in_dir. apply walk_dir; [by apply inside|].
    intros [name e] Hc. specialize (IH l eq_refl). rewrite Forall_forall in IH, Hok, Hset.
    apply (IH _ Hc); [by apply (Hset _ Hc)|]. apply Forall_app. split; [done|]. by apply Forall_singleton, (Hok _ Hc).
Qed.

Lemma files_in_spec e : settled e → ∀ names ns c, (ns, c) ∈ files_in names e ↔ ∃ ns', ns = names ++ ns' ∧ file_at e ns' c.
Proof using Type.
  induction e as [isDir stat children IH] using entry_ind. intros H names ns c. inversion H as [c0| |l Hnd Hok Hset]; subst.
  - cbn. rewrite list_elem_of_singleton. split.
    + intros [= -> ->]. exists []. split; [by rewrite app_nil_r|apply at_file].
    + intros (ns' & -> & Hf). inversion Hf; subst. by rewrite app_nil_r.
  - cbn. split; [by intros ?%not_elem_of_nil|]. intros (ns' & _ & Hf). inversion Hf.
  - change (Entry true SeenDirectory (inr l)) with (dir l). rewrite files_in_dir. unfold files_below.
    specialize (IH l eq_refl). rewrite Forall_forall in IH, Hset. rewrite list_elem_of_In, in_flat_map. split.
    + intros ([name e] & Hc%list_elem_of_In & Hin%list_elem_of_In). apply (IH _ Hc (Hset _ Hc)) in Hin as (ns' & -> & Hf).
      exists (name :: ns'). split; [by rewrite <- app_assoc|]. by apply (at_dir l name e).
    + intros (ns' & -> & Hf). inversion Hf as [|l' name e names' c' Hc Hf']; subst. exists (name, e).
      split; apply list_elem_of_In; [done|]. apply (IH _ Hc (Hset _ Hc)). exists names'. by rewrite <- app_assoc.
Qed.

Lemma files_names_ok e : settled e → ∀ ns c, file_at e ns c → Forall name_ok ns.
Proof using Type.
  intros H ns c Hf. induction Hf as [|l name e ns c Hin Hf IH]; [constructor|]. inversion H as [| |l' Hnd Hok Hset]; subst.
  rewrite Forall_forall in Hok, Hset. constructor; [apply (Hok _ Hin)|apply IH, (Hset _ Hin)].
Qed.

Lemma files_in_nodup e : settled e → ∀ names, NoDup (map fst (files_in names e)).
Proof using Type.
  induction e as [isDir stat children IH] using entry_ind. intros H names. inversion H as [c0| |l Hnd Hok Hset]; subst.
  - cbn. apply NoDup_singleton.
  - constructor.
  - change (Entry true SeenDirectory (inr l)) with (dir l). rewrite files_in_dir. specialize (IH l eq_refl). clear H Hok.
    induction l as [|[name e] l IHl]; [constructor|]. cbn [files_below flat_map fst snd]. rewrite map_app.
    apply Forall_cons in IH as [IHe IH]. apply Forall_cons in Hset as [He Hset]. cbn [map fst] in Hnd. apply NoDup_cons in Hnd as [Hname Hnd].
    apply NoDup_app. split_and!; [by apply IHe| |by apply IHl].
    intros ns ([ns1 c1] & -> & H1)%list_elem_of_fmap ([ns2 c2] & E & H2)%list_elem_of_fmap. cbn in E. subst ns2.
    apply (files_in_spec e He) in H1 as (ns' & -> & _).
    apply list_elem_of_In, in_flat_map in H2 as ([name2 e2] & Hin%list_elem_of_In & H2%list_elem_of_In).
    rewrite Forall_forall in Hset. apply (files_in_spec e2 (Hset _ Hin)) in H2 as (ns2 & E & _).
    rewrite <- !app_assoc in E. apply app_inv_head in E. injection E as -> _.
    apply Hname. by apply (list_elem_of_fmap_2 fst _ (name2, e2)).
Qed.
End Exact.

#[export] Instance path_order_total : Total path_order.
Proof. intros a b. unfold path_order. apply (total text_order). Qed.
#[export] Instance path_order_trans : Transitive path_order.
Proof. intros a b c. unfold path_order. apply (transitivity (R := text_order)). Qed.

(** The collection of a directory that nobody changes meanwhile succeeds
    and is exact: its files are the directory's regular files, at any depth and
    behind no link, each once and in the order of their paths, with their size,
    their digest, their redacted text when it is short enough and a text by its
    name, and the mark of truncation exactly when it is longer than the limit. *)
Theorem collection_exact sha256_hex l runID known inlineLimit : settled (dir l) →
  let limit := if inlineLimit <=? 0 then defaultInlineLimit else inlineLimit in
  ∃ out, collectFiles sha256_hex (Ok (dir l)) runID known inlineLimit = Ok out ∧ co_RunID out = runID ∧
    StronglySorted path_order (co_Files out) ∧ NoDup (map fm_Path (co_Files out)) ∧
    (∀ f, f ∈ co_Files out ↔ ∃ names c, file_at (dir l) names c ∧ f = manifest_of sha256_hex known limit names c).
Proof.
  intros H limit. set (files := files_in [] (dir l)). set (m := λ f, manifest_of sha256_hex known limit f.1 f.2).
  exists {| co_RunID := runID; co_Files := merge_sort path_order (map m files) |}. cbn [co_RunID co_Files].
  assert (∀ f, f ∈ merge_sort path_order (map m files) ↔ f ∈ map m files) as Hin by (intros f; by rewrite merge_sort_Permutation).
  split_and!; [|done|apply (StronglySorted_merge_sort path_order)| |].
  - unfold collectFiles, WalkDir, dir. fold limit. cbn [mbind result_bind]. change (Entry true SeenDirectory (inr l)) with (dir l).
    by rewrite (walk_settled sha256_hex known limit _ H [] (Forall_nil_2 _)).
  - rewrite (Permutation_map fm_Path (merge_sort_Permutation path_order (map m files))), map_map. change (NoDup (map (λ f, join "/" f.1) files)).
    rewrite <- (map_map fst (join "/")).
    apply NoDup_fmap_2_strong; [|by apply files_in_nodup].
    assert (∀ ns, ns ∈ map fst files → ns ≠ [] ∧ Forall name_ok ns) as Hok.
    { intros ns ([ns' c] & -> & Hf)%list_elem_of_fmap. apply (files_in_spec _ H) in Hf as (ns & -> & Hf).
      split; [by inversion Hf|]. by eapply files_names_ok. }
    intros a b Ha Hb E. apply Hok in Ha as [Ha1 Ha2]. apply Hok in Hb as [Hb1 Hb2].
    rewrite <- (name_split a Ha2 Ha1), <- (name_split b Hb2 Hb1). by rewrite E.
  - intros f. rewrite Hin, list_elem_of_fmap. split.
    + intros ([ns c] & -> & Hf). apply (files_in_spec _ H) in Hf as (ns' & -> & Hf). by exists ns', c.
    + intros (ns & c & Hf & ->). exists (ns, c). split; [done|]. apply (files_in_spec _ H). by exists ns.
Qed.

Lemma collection_exact_witness :
  ∃ out, collectFiles (λ s, s) (Ok (dir [("a.txt", file "token abc"); ("b", dir [("l", link)])])) "r" [] 0 = Ok out ∧ length (co_Files out) = 1%nat.
Proof.
  destruct (collection_exact (λ s, s) [("a.txt", file "token abc"); ("b", dir [("l", link)])] "r" [] 0) as (out & E & _).
  - apply settled_dir.
    + apply NoDup_cons. split; [by intros [=]%list_elem_of_singleton|apply NoDup_singleton].
    + repeat constructor; discriminate.
    + constructor; [apply settled_file|]. constructor; [|constructor]. apply settled_dir.
      * apply NoDup_singleton.
      * repeat constructor; discriminate.
      * constructor; [apply settled_link|constructor].
  - exists out. split; [exact E|]. vm_compute in E. injection E as <-. reflexivity.
Defined.

(** ** A directory that the worker changes or fills with other things *)

(** A named pipe in the output directory stops the collection for good. *)
Example pipe_blocks :
  collectFiles (λ s, s) (Ok (dir [("pipe", Entry false (SeenFile 0 Blocks Blocks) (inl false)); ("result.json", file "{}")])) "r" [] 0 = Err Hangs.
Proof. by vm_compute. Qed.

(** A file that has become something else (a link, say) when it is read again:
    its text goes out whole, whatever the limit, under the digest of the other. *)
Example swapped_file :
  collectFiles (λ s, s) (Ok (dir [("a.txt", Entry false (SeenFile 2 (Opens "ok") (Opens "elsewhere")) (inl false))])) "r" [] 4 =
  Ok {| co_RunID := "r"; co_Files := [{| fm_Path := "a.txt"; fm_Size := 2; fm_SHA256 := "ok"; fm_Inline := "elsewhere"; fm_Truncated := false |}] |}.
Proof. by vm_compute. Qed.

(** A slimming whose walk meets a file that is just being removed writes a
    manifest that lists nothing, as if the directory did not exist. *)
Example manifest_emptied :
  slim_manifest (λ s, s) (Ok (dir [("a.txt", file "x"); ("b", Entry false (StatFails true) (inl false))])) (Err IsNotExist) "r" [] = Ok ([], []).
Proof. by vm_compute. Qed.
