(* ===== verification/DockerExec.v ===== *)
(** * internal/sandbox/runtime.go: commands inside a running container

    The backend runs three commands in containers: it writes a secret into a
    directory under /dev/shm, asks for a path there, and waits for one.  The
    engine's calls are the class [DockerExec]. *)

From S2P Require Import Prelude GoStrings GoTime Net Paths Sandbox Process Docker.
Open Scope string_scope.
Open Scope list_scope.
Open Scope Z_scope.

Record dockerExecCreateRequest := { AttachStdin : bool; Cmd : list string }.

(** [e_exec_stream] opens the connection, starts the command and writes its
    input; [e_exec_inspect] answers whether it runs and its exit code. *)
Class DockerExec (D : Type) := {
  e_exec_create : nat → D → string → dockerExecCreateRequest → D * result docker_error string;
  e_exec_start : nat → D → string → D * result docker_error unit;
  e_exec_stream : nat → D → string → string → D * result docker_error unit;
  e_exec_inspect : nat → D → string → D * result docker_error (bool * Z) }.

Inductive exec_error :=
| XTarget | XName | XPayload | XTimeout | XNotRunning | XInspect (e : docker_error) | XCreate (e : docker_error)
| XNoID | XStart (e : docker_error) | XWait (e : docker_error) | XExit (code : Z).

Definition within_shm (dir : string) : bool := (dir =? "/dev/shm")%string || has_prefix "/dev/shm/" dir.

(** path.Base: without trailing slashes, what follows the last slash. *)
Definition path_base (p : string) : string :=
  if (p =? "")%string then "." else
  match List.filter (λ e, negb (e =? "")%string) (split_slash p) with
  | [] => "/"
  | e :: rest => List.last (e :: rest) ""
  end.

Definition quote : string := str [34%nat].
Definition injector_script : string :=
  let dir := quote +:+ "$1" +:+ quote in let file := quote +:+ "$1/$2" +:+ quote in
  "set -eu; umask 077; mkdir -p " +:+ dir +:+ "; chmod 0700 " +:+ dir +:+ "; cat > " +:+ file +:+ "; chmod 0600 " +:+ file.

Section Exec.
Context {D : Type} `{DockerEngine D} `{DockerExec D}.
Variable dies : nat → bool.
Variable parse_time : string → option time.

Definition lift_exec {A} (f : docker_error → exec_error) (r : result docker_error A) : result exec_error A :=
  match r with Ok a => Ok a | Err e => Err (f e) end.

Definition call_exec {A} (f : docker_error → exec_error) (call : nat → D → D * result docker_error A)
    : prog D (result exec_error A) :=
  effect dies (λ k d, let '(d, r) := call k d in (d, lift_exec f r)).

Definition createExec (containerID : string) (req : dockerExecCreateRequest) : prog D (result exec_error string) :=
  id <-? call_exec XCreate (λ k d, e_exec_create k d containerID req) ;;
  done (if (id =? "")%string then Err XNoID else Ok id).

(** [polls]: how many more inspections fit before the deadline. *)
Fixpoint waitExec (polls : nat) (execID : string) : prog D (result exec_error Z) :=
  '(running, code) <-? call_exec XWait (λ k d, e_exec_inspect k d execID) ;;
  if negb running then done (Ok code) else
  match polls with
  | O => done (Err XTimeout)
  | S polls => waitExec polls execID
  end.

Definition InjectSecret (polls : nat) (containerID targetDir name contents : string) : prog D (result exec_error unit) :=
  let cleanDir := Clean targetDir in
  if negb (within_shm cleanDir) then done (Err XTarget) else
  if negb (path_base name =? name)%string || (name =? ".")%string || (name =? "/")%string then done (Err XName) else
  if (contents =? "")%string || (64 * 1024 <? Z.of_nat (String.length contents)) then done (Err XPayload) else
  r <-! Inspect dies parse_time containerID ;;
  match r with
  | Err e => done (Err (XInspect e))
  | Ok status =>
    if negb (st_Running status) || is_zero (st_StartedAt status) then done (Err XNotRunning) else
    execID <-? createExec containerID
      {| AttachStdin := true;
         Cmd := ["sh"; "-c"; injector_script; "codex-secret-injector"; cleanDir; name] |} ;;
    _ <-? call_exec XStart (λ k d, e_exec_stream k d execID contents) ;;
    code <-? waitExec polls execID ;;
    done (if code =? 0 then Ok () else Err (XExit code))
  end.

Definition PathExists (polls : nat) (containerID targetPath : string) : prog D (result exec_error bool) :=
  let cleanPath := Clean targetPath in
  if negb (within_shm cleanPath) then done (Err XTarget) else
  execID <-? createExec containerID {| AttachStdin := false; Cmd := ["test"; "-e"; cleanPath] |} ;;
  _ <-? call_exec XStart (λ k d, e_exec_start k d execID) ;;
  code <-? waitExec polls execID ;;
  done (if code =? 0 then Ok true else if code =? 1 then Ok false else Err (XExit code)).

(** [tries]: how many more probes fit before the deadline. *)
Fixpoint probe (polls tries : nat) (containerID targetPath : string) : prog D (result exec_error unit) :=
  exists_ <-? PathExists polls containerID targetPath ;;
  if exists_ : bool then done (Ok ()) else
  match tries with
  | O => done (Err XTimeout)
  | S tries => probe polls tries containerID targetPath
  end.

Definition WaitForPath (polls tries : nat) (containerID targetPath : string) (timeout : Z)
    : prog D (result exec_error unit) :=
  if (timeout <=? 0) || (60 * second <? timeout) then done (Err XTimeout)
  else probe polls tries containerID targetPath.
End Exec.
