(* ===== verification/CodexRun.v ===== *)
(** * internal/sandbox/codex_workflow.go: the run of a Codex workflow and its reports

    The metadata of a run whose profile has a Codex workflow, what each phase's
    container reports in a file, and the checks a report must pass.  A report is
    the value its JSON decodes to. *)

From stdpp Require Import pretty.
From S2P Require Import Prelude GoStrings GoTime GoJson Process Docker Sandbox SandboxConfig LaunchIntents Launch TerminalResult.
Open Scope string_scope.
Open Scope list_scope.
Open Scope Z_scope.

(** ** Reports of the containers *)

Record preparationResult := {
  pr_Version : string; pr_Status : string; pr_RunID : string; pr_Repository : string; pr_Branch : string;
  pr_WorkspaceHead : string; pr_RefsSHA256 : string; pr_ManifestSHA256 : string; pr_IssueNumber : Z;
  pr_SourceDeliveryID : string; pr_RepairPRNumber : Z; pr_RepairHeadRef : string; pr_RepairExpectedHeadSHA : string }.

Record executionResult := {
  ex_Version : string; ex_Status : string; ex_RunID : string; ex_Repository : string; ex_Branch : string;
  ex_WorkspaceHead : string; ex_RefsSHA256 : string; ex_DiffSHA256 : string; ex_ValidatedTreeSHA : string;
  ex_FinalSHA256 : string; ex_VerifySHA256 : string; ex_Verification : string; ex_FinalSizeBytes : Z }.

Record executionFailure := {
  fl_Version : string; fl_Status : string; fl_RunID : string; fl_Repository : string; fl_Branch : string;
  fl_Stage : string; fl_ExitCode : Z; fl_DiagnosticSource : string; fl_Diagnostic : string;
  fl_EventsSizeBytes : Z; fl_EventsSHA256 : string; fl_StderrSizeBytes : Z; fl_StderrSHA256 : string }.

Record githubExternalWaitReport := {
  wt_Version : string; wt_Status : string; wt_RunID : string; wt_Repository : string; wt_Branch : string;
  wt_Service : string; wt_Phase : string; wt_Operation : string; wt_Reason : string }.

Record recoveryValidationResult := {
  rv_Version : string; rv_Status : string; rv_RunID : string; rv_Repository : string; rv_Branch : string;
  rv_ExpectedHeadSHA : string; rv_WinnerHeadSHA : string; rv_CandidateHeadSHA : string; rv_CandidateTreeSHA : string;
  rv_ValidatedTreeSHA : string; rv_VerifySHA256 : string; rv_SealSHA256 : string }.

(** ** Metadata *)

Record ExternalWait := {
  ew_Service : string; ew_Phase : string; ew_Operation : string; ew_Reason : string; ew_Generation : Z; ew_Since : time }.

Record attempts := {
  PreparationContainerID : string; PreparationContainerIDs : list string; PreparationAttempt : Z;
  ExecutionContainerID : string;
  DeliveryContainerID : string; DeliveryContainerIDs : list string; DeliveryAttempt : Z;
  RecoveryContainerID : string; RecoveryCount : Z }.

Record recovery := {
  RecoveryStartedAt : time; RecoveryEndedAt : time; RecoveryExpectedHeadSHA : string; RecoveryWinnerHeadSHA : string;
  RecoveryCandidateHeadSHA : string; RecoveryCandidateTreeSHA : string; RecoverySealSHA256 : string }.

Record repair := { RepairPRNumber : Z; RepairHeadRef : string; RepairAdmittedHeadSHA : string }.

Record waiting := { x_Wait : option ExternalWait; ResumeRequestFingerprints : gmap string string; ResumeGeneration : Z }.

(** RunMetadata of a Codex run: the fields of every run and of its terminal
    result, and those of the workflow. *)
Record codex_meta := {
  x_term : terminal_meta; x_attempts : attempts; x_recovery : recovery; x_repair : repair; x_waiting : waiting }.

Definition base (m : codex_meta) : RunMetadata := t_meta (x_term m).
Definition identity (m : codex_meta) : RunIdentity := m_run (base m).
Definition phase (m : codex_meta) : string := Phase (x_term m).
Definition status (m : codex_meta) : string := m_Status (base m).

Definition on_term (f : terminal_meta → terminal_meta) (m : codex_meta) : codex_meta :=
  {| x_term := f (x_term m); x_attempts := x_attempts m; x_recovery := x_recovery m; x_repair := x_repair m;
     x_waiting := x_waiting m |}.
Definition on_base (f : RunMetadata → RunMetadata) : codex_meta → codex_meta := on_term (λ t,
  {| t_meta := f (t_meta t); Error := Error t; Phase := Phase t; Images := Images t; Times := Times t;
     Provenance := Provenance t |}).
Definition in_phase (p : string) : codex_meta → codex_meta := on_term (λ t,
  {| t_meta := t_meta t; Error := Error t; Phase := p; Images := Images t; Times := Times t;
     Provenance := Provenance t |}).
Definition with_error (e : string) : codex_meta → codex_meta := on_term (λ t,
  {| t_meta := t_meta t; Error := e; Phase := Phase t; Images := Images t; Times := Times t;
     Provenance := Provenance t |}).
Definition on_images (f : phase_images → phase_images) : codex_meta → codex_meta := on_term (λ t,
  {| t_meta := t_meta t; Error := Error t; Phase := Phase t; Images := f (Images t); Times := Times t;
     Provenance := Provenance t |}).
Definition on_times (f : phase_times → phase_times) : codex_meta → codex_meta := on_term (λ t,
  {| t_meta := t_meta t; Error := Error t; Phase := Phase t; Images := Images t; Times := f (Times t);
     Provenance := Provenance t |}).
Definition with_provenance (p : CodexProvenance) : codex_meta → codex_meta := on_term (λ t,
  {| t_meta := t_meta t; Error := Error t; Phase := Phase t; Images := Images t; Times := Times t;
     Provenance := Some p |}).
Definition on_attempts (f : attempts → attempts) (m : codex_meta) : codex_meta :=
  {| x_term := x_term m; x_attempts := f (x_attempts m); x_recovery := x_recovery m; x_repair := x_repair m;
     x_waiting := x_waiting m |}.
Definition on_recovery (f : recovery → recovery) (m : codex_meta) : codex_meta :=
  {| x_term := x_term m; x_attempts := x_attempts m; x_recovery := f (x_recovery m); x_repair := x_repair m;
     x_waiting := x_waiting m |}.
Definition with_repair (r : repair) (m : codex_meta) : codex_meta :=
  {| x_term := x_term m; x_attempts := x_attempts m; x_recovery := x_recovery m; x_repair := r;
     x_waiting := x_waiting m |}.
Definition with_waiting (r : waiting) (m : codex_meta) : codex_meta :=
  {| x_term := x_term m; x_attempts := x_attempts m; x_recovery := x_recovery m; x_repair := x_repair m;
     x_waiting := r |}.

Definition at_container (id : string) (b : RunMetadata) : RunMetadata := with_container b id (m_ImageDigest b).

Definition appendUniqueContainerID (ids : list string) (id : string) : list string :=
  if existsb (String.eqb id) ids then ids else ids ++ [id].

(** ** Checks of the reports *)

Inductive report_error := RFile (e : file_error) | RDecode | RMismatch | RRepair | RExit.

Definition regexpSHA (value : string) (size : nat) : bool :=
  (String.length value =? size)%nat && all_chars is_lower_hex value.

(** Whose report it is. *)
Definition of_run (i : RunIdentity) (runID repository branch : string) : bool :=
  (runID =? RunID i)%string && (repository =? Repo i)%string && (branch =? Branch i)%string.

Section Reports.
Variable sha256_hex : string → string.
(** json.Unmarshal into each of the structs. *)
Variable parse_preparation : string → option preparationResult.
Variable parse_execution : string → option executionResult.
Variable parse_failure : string → option executionFailure.
Variable parse_wait : string → option githubExternalWaitReport.
Variable parse_recovery : string → option recoveryValidationResult.
Variable terminal_limit : Z.
Implicit Types (m : codex_meta).

(** The bounded file, decoded and checked. *)
Definition report {A} (parse : string → option A) (check : A → result report_error A) (limit : Z) (f : file_state)
    : result report_error A :=
  match boundedRegularFile limit f with
  | Err e => Err (RFile e)
  | Ok data => match parse data with None => Err RDecode | Some a => check a end
  end.

Definition readPreparationResult m : file_state → result report_error preparationResult :=
  report parse_preparation (λ r,
    let number := match Provenance (x_term m) with Some p => IssueNumber p | None => 0 end in
    let delivery := match Provenance (x_term m) with Some p => SourceDeliveryID p | None => "" end in
    fail_if negb ((pr_Version r =? "codex-preparation-result/v1")%string && (pr_Status r =? "prepared")%string
                  && of_run (identity m) (pr_RunID r) (pr_Repository r) (pr_Branch r)
                  && (pr_IssueNumber r =? number) && (pr_SourceDeliveryID r =? delivery)%string
                  && regexpSHA (pr_WorkspaceHead r) 40 && regexpSHA (pr_RefsSHA256 r) 64
                  && regexpSHA (pr_ManifestSHA256 r) 64) with RMismatch ;;
    fail_if negb (pr_RepairPRNumber r =? 0)
            && ((pr_RepairPRNumber r <? 1) || (pr_RepairHeadRef r =? "")%string
                || negb (regexpSHA (pr_RepairExpectedHeadSHA r) 40)) with RRepair ;;
    Ok r) 4096.

Definition readExecutionResult m : file_state → result report_error executionResult :=
  report parse_execution (λ r,
    let head := match Provenance (x_term m) with Some p => WorkspaceHead p | None => "" end in
    fail_if negb ((ex_Version r =? "codex-execution-result/v1")%string && (ex_Status r =? "executed")%string
                  && of_run (identity m) (ex_RunID r) (ex_Repository r) (ex_Branch r)
                  && (ex_WorkspaceHead r =? head)%string && regexpSHA (ex_RefsSHA256 r) 64
                  && regexpSHA (ex_DiffSHA256 r) 64 && regexpSHA (ex_ValidatedTreeSHA r) 40
                  && regexpSHA (ex_FinalSHA256 r) 64 && regexpSHA (ex_VerifySHA256 r) 64
                  && (ex_Verification r =? "passed")%string && (1 <=? ex_FinalSizeBytes r)
                  && (ex_FinalSizeBytes r <=? terminal_limit)) with RMismatch ;;
    Ok r) 4096.

Definition event_limit : Z := 8 * 1024 * 1024.

Definition readExecutionFailure m (exitCode : option Z) (f : file_state) : result report_error executionFailure :=
  match exitCode with
  | None => Err RExit
  | Some code =>
    fail_if (code <? 1) || (255 <? code) with RExit ;;
    report parse_failure (λ r,
      fail_if negb ((fl_Version r =? "codex-execution-failure/v1")%string && (fl_Status r =? "failed")%string
                    && of_run (identity m) (fl_RunID r) (fl_Repository r) (fl_Branch r)
                    && (fl_Stage r =? "codex")%string && (fl_ExitCode r =? code)
                    && existsb (String.eqb (fl_DiagnosticSource r)) ["event"; "stderr"; "none"; "oversize"]
                    && negb (fl_Diagnostic r =? "")%string && (String.length (fl_Diagnostic r) <=? 4096)%nat
                    && (0 <=? fl_EventsSizeBytes r) && (fl_EventsSizeBytes r <=? event_limit)
                    && (0 <=? fl_StderrSizeBytes r) && (fl_StderrSizeBytes r <=? event_limit)
                    && regexpSHA (fl_EventsSHA256 r) 64 && regexpSHA (fl_StderrSHA256 r) 64) with RMismatch ;;
      Ok r) 8192 f
  end.

Definition wait_operations (phase : string) : list string :=
  if (phase =? "preparation")%string
  then ["issue.read"; "issue_comments.read"; "pull.read"; "ci.observe"; "actions_job_log.read"]
  else if (phase =? "delivery")%string then ["pull.read"; "pull.reconcile"; "pull.create"; "git.push"] else [].

Definition readGitHubExternalWait m (phase : string) : file_state → result report_error githubExternalWaitReport :=
  report parse_wait (λ r,
    fail_if negb ((wt_Version r =? "github-external-wait/v1")%string && (wt_Status r =? StatusWaitingExternal)%string
                  && of_run (identity m) (wt_RunID r) (wt_Repository r) (wt_Branch r)
                  && (wt_Service r =? "github")%string && (wt_Phase r =? phase)%string
                  && Sandbox.contains (wait_operations phase) (wt_Operation r)
                  && Sandbox.contains ["unavailable"; "rate_limited"] (wt_Reason r)) with RMismatch ;;
    Ok r) 4096.

(** json.Marshal of the identity: its fields are in the order of their names. *)
Definition recoverySeal (runID repository branch expected winner candidate tree : string) : string :=
  sha256_hex (json_object [("branch", json_string branch); ("candidate_head_sha", json_string candidate);
    ("candidate_tree_sha", json_string tree); ("expected_head_sha", json_string expected);
    ("repository", json_string repository); ("run_id", json_string runID); ("winner_head_sha", json_string winner)]).

Definition readStaleLease m : file_state → result report_error recoveryValidationResult :=
  report parse_recovery (λ r,
    fail_if negb ((rv_Version r =? "codex-stale-lease/v3")%string && (rv_Status r =? "stale_lease")%string
                  && of_run (identity m) (rv_RunID r) (rv_Repository r) (rv_Branch r)
                  && regexpSHA (rv_ExpectedHeadSHA r) 40 && regexpSHA (rv_WinnerHeadSHA r) 40
                  && regexpSHA (rv_CandidateHeadSHA r) 40 && regexpSHA (rv_CandidateTreeSHA r) 40
                  && regexpSHA (rv_SealSHA256 r) 64
                  && (rv_SealSHA256 r =? recoverySeal (rv_RunID r) (rv_Repository r) (rv_Branch r)
                        (rv_ExpectedHeadSHA r) (rv_WinnerHeadSHA r) (rv_CandidateHeadSHA r)
                        (rv_CandidateTreeSHA r))%string) with RMismatch ;;
    Ok r) 2048.

Definition readRecoveryValidation m : file_state → result report_error recoveryValidationResult :=
  let c := x_recovery m in
  report parse_recovery (λ r,
    fail_if negb ((rv_Version r =? "codex-recovery-validation/v1")%string && (rv_Status r =? "passed")%string
                  && of_run (identity m) (rv_RunID r) (rv_Repository r) (rv_Branch r)
                  && (rv_WinnerHeadSHA r =? RecoveryWinnerHeadSHA c)%string
                  && (rv_CandidateHeadSHA r =? RecoveryCandidateHeadSHA c)%string
                  && (rv_ValidatedTreeSHA r =? RecoveryCandidateTreeSHA c)%string
                  && (rv_SealSHA256 r =? RecoverySealSHA256 c)%string
                  && regexpSHA (rv_WinnerHeadSHA r) 40 && regexpSHA (rv_CandidateHeadSHA r) 40
                  && regexpSHA (rv_ValidatedTreeSHA r) 40 && regexpSHA (rv_VerifySHA256 r) 64
                  && regexpSHA (rv_SealSHA256 r) 64) with RMismatch ;;
    Ok r) 2048.
End Reports.

(** *** What an accepted report says *)

Lemma report_ok {A} (parse : string → option A) check limit f a :
  report parse check limit f = Ok a → ∃ data b, parse data = Some b ∧ check b = Ok a.
Proof.
  unfold report. destruct (boundedRegularFile _ _) as [data|]; [|done]. destruct (parse data) as [b|] eqn:E; [|done]. eauto.
Qed.

Lemma of_run_ok i runID repository branch :
  of_run i runID repository branch = true → runID = RunID i ∧ repository = Repo i ∧ branch = Branch i.
Proof. unfold of_run. rewrite !andb_true_iff, !String.eqb_eq. tauto. Qed.

Ltac whose_report E :=
  destruct_and! E; match goal with Hr : of_run _ _ _ _ = true |- _ => apply of_run_ok in Hr; destruct_and! Hr end; by split_and?.

Lemma preparation_ok parse m f r : readPreparationResult parse m f = Ok r → pr_RunID r = RunID (identity m).
Proof.
  intros (data & b & _ & E)%report_ok. cbv zeta in E. rewrite !fail_if_ok in E. destruct E as (E & _ & [= <-]).
  apply negb_false_iff in E. rewrite !andb_true_iff in E. whose_report E.
Qed.

Lemma executed_report_ok parse limit m f r p : readExecutionResult parse limit m f = Ok r → Provenance (x_term m) = Some p →
  ex_RunID r = RunID (identity m) ∧ ex_WorkspaceHead r = WorkspaceHead p.
Proof.
  intros (data & b & _ & E)%report_ok Hp. cbv zeta in E. rewrite Hp, fail_if_ok in E. destruct E as (E & [= <-]).
  apply negb_false_iff in E. rewrite !andb_true_iff, !String.eqb_eq in E.
  whose_report E.
Qed.

Lemma wait_report_ok parse m phase f r : readGitHubExternalWait parse m phase f = Ok r → wt_Phase r = phase.
Proof.
  intros (data & b & _ & E)%report_ok. rewrite fail_if_ok in E. destruct E as (E & [= <-]).
  apply negb_false_iff in E. rewrite !andb_true_iff, !String.eqb_eq in E. by destruct_and! E.
Qed.

Lemma stale_ok sha parse m f r : readStaleLease sha parse m f = Ok r → rv_RunID r = RunID (identity m).
Proof.
  intros (data & b & _ & E)%report_ok. rewrite fail_if_ok in E. destruct E as (E & [= <-]).
  apply negb_false_iff in E. rewrite !andb_true_iff in E.
  whose_report E.
Qed.

Lemma recovered_report_ok parse m f r : readRecoveryValidation parse m f = Ok r →
  rv_RunID r = RunID (identity m) ∧ rv_WinnerHeadSHA r = RecoveryWinnerHeadSHA (x_recovery m) ∧
  rv_CandidateHeadSHA r = RecoveryCandidateHeadSHA (x_recovery m) ∧
  rv_ValidatedTreeSHA r = RecoveryCandidateTreeSHA (x_recovery m) ∧ rv_SealSHA256 r = RecoverySealSHA256 (x_recovery m).
Proof.
  intros (data & b & _ & E)%report_ok. cbv zeta in E. rewrite fail_if_ok in E. destruct E as (E & [= <-]).
  apply negb_false_iff in E. rewrite !andb_true_iff, !String.eqb_eq in E.
  whose_report E.
Qed.

(** ** The container's specification *)

(** A template the configuration does not have; Validate wants all of them. *)
Definition no_template : Template :=
  {| Image := ""; AgentType := ""; Entrypoint := []; Command := []; User := "";
     tmpl_Resources := {| CPUShares := 0; MemoryMB := 0; PidsLimit := 0 |}; tmpl_NetworkPolicy := "";
     MaxRuntimeMinutes := 0; BrokerAgentID := ""; BrokerAgentSecret := "";
     tmpl_BranchPolicy := {| BaseBranches := []; AllowedPatterns := []; GeneratePrefix := "" |};
     tmpl_CredentialBundle := ""; tmpl_Deliverables := []; Environment := ∅; ExtraMounts := []; StorageLimitMB := 0;
     Tmpfs := ∅; tmpl_Capability := None |}.

(** runtimeSpec puts the seal of a recovery into the environment; each phase
    names its container and its labels. *)
Definition codex_spec (cfg : Config) (m : codex_meta) (template phase suffix : string) (env : list (string * string))
    : option RuntimeSpec :=
  spec ← runtimeSpec cfg (identity m) (default no_template (Templates cfg !! template)) "";
  let seal := RecoverySealSHA256 (x_recovery m) in
  let sealed := if (seal =? "")%string then sp_Env spec else <["AGENT_RECOVERY_SEAL_SHA256" := seal]> (sp_Env spec) in
  let name := RunID (identity m) +:+ suffix in
  Some {| sp_RunID := name; sp_Image := sp_Image spec; sp_Entrypoint := sp_Entrypoint spec;
          sp_Command := sp_Command spec; sp_User := sp_User spec; sp_Env := insert_all env sealed;
          sp_Labels := insert_all [("gh-agent-broker.parent_run_id", RunID (identity m));
                                   ("gh-agent-broker.run_id", name); ("gh-agent-broker.template", template);
                                   ("gh-agent-broker.phase", phase)] (sp_Labels spec);
          sp_Mounts := sp_Mounts spec; sp_Network := sp_Network spec; sp_Resources := sp_Resources spec;
          sp_WorkingDir := sp_WorkingDir spec; sp_Timeout := sp_Timeout spec; sp_Tmpfs := sp_Tmpfs spec;
          sp_StorageLimitMB := sp_StorageLimitMB spec |}.

Definition codexRelayBaseURL := "http://codex-subscription-relay:8093/backend-api/codex".

Definition execution_env (terminal_limit : Z) (m : codex_meta) : list (string * string) :=
  match Provenance (x_term m) with
  | None => []
  | Some p =>
    [("AGENT_MODEL", Model p); ("AGENT_REASONING_EFFORT", Effort p);
     ("AGENT_MODEL_POLICY_VERSION", ModelPolicyVersion p); ("AGENT_CODEX_VERSION", CodexVersion p);
     ("AGENT_PROMPT_REVISION", PromptRevision p); ("AGENT_FINAL_OUTPUT_LIMIT", pretty terminal_limit);
     ("CODEX_SUBSCRIPTION_RELAY_BASE_URL", codexRelayBaseURL)]
  end.

(** ** A new run *)

Definition codexVersion := "0.146.0".

Definition with_agents (worker broker : string) (b : RunMetadata) : RunMetadata :=
  let i := m_run b in
  {| m_run := {| RunID := RunID i; WorkItemID := WorkItemID i; Profile := Profile i; Principal := Principal i;
                 IdempotencyKeyDigest := IdempotencyKeyDigest i; RequestFingerprint := RequestFingerprint i;
                 LaunchConfigVersion := LaunchConfigVersion i; run_Template := run_Template i; Repo := Repo i;
                 BaseBranch := BaseBranch i; Branch := Branch i; Task := Task i;
                 VerificationTask := VerificationTask i; Focus := Focus i; WorkerAgentID := worker;
                 run_BrokerAgentID := broker; run_CredentialBundle := run_CredentialBundle i;
                 run_Image := run_Image i; ResolvedReleaseGeneration := ResolvedReleaseGeneration i;
                 Deliverables := Deliverables i; Parameters := Parameters i; StartedAt := StartedAt i;
                 Deadline := Deadline i |};
     m_ContainerID := m_ContainerID b; m_ImageDigest := m_ImageDigest b; m_Status := m_Status b;
     m_ExitCode := m_ExitCode b; m_FinalizeReason := m_FinalizeReason b; m_TerminalSource := m_TerminalSource b;
     m_EndedAt := m_EndedAt b |}.

(** The part of LaunchProfile for profiles with a workflow: [b] is the metadata
    of any launch; the issue and the delivery are typed parameters. *)
Definition codex_launch (cfg : Config) (wf : CodexIssueWorkflow) (policy : SandboxConfig.ModelPolicy)
    (issueNumber : Z) (sourceDeliveryID : string) (b : RunMetadata) : codex_meta :=
  let delivery := default no_template (Templates cfg !! DeliveryTemplate wf) in
  let mapping := default {| SandboxConfig.Model := ""; SandboxConfig.Effort := "" |}
                   (Mappings policy !! ModelProfile wf) in
  {| x_term :=
       {| t_meta := with_agents (workerAgentID delivery (RunID (m_run b))) (BrokerAgentID delivery) b; Error := "";
          Phase := "preparation_create_pending";
          Images := {| PreparationImageDigest := ""; PreparationPlatform := ""; ExecutionPlatform := "";
                       DeliveryImageDigest := ""; DeliveryPlatform := "" |};
          Times := {| PreparationStartedAt := zero_time; PreparationEndedAt := zero_time; ExecutionStartedAt := zero_time;
                      ExecutionEndedAt := zero_time; DeliveryStartedAt := zero_time; DeliveryEndedAt := zero_time |};
          Provenance := Some
            {| ModelPolicy := w_ModelPolicy wf; ModelPolicyVersion := Version policy; Model := SandboxConfig.Model mapping;
               Effort := SandboxConfig.Effort mapping; CodexVersion := codexVersion;
               PromptRevision := SandboxConfig.PromptRevision wf; WorkspaceHead := ""; ManifestSHA256 := "";
               IssueNumber := issueNumber; SourceDeliveryID := sourceDeliveryID |} |};
     x_attempts :=
       {| PreparationContainerID := ""; PreparationContainerIDs := []; PreparationAttempt := 0; ExecutionContainerID := "";
          DeliveryContainerID := ""; DeliveryContainerIDs := []; DeliveryAttempt := 0; RecoveryContainerID := "";
          RecoveryCount := 0 |};
     x_recovery :=
       {| RecoveryStartedAt := zero_time; RecoveryEndedAt := zero_time; RecoveryExpectedHeadSHA := "";
          RecoveryWinnerHeadSHA := ""; RecoveryCandidateHeadSHA := ""; RecoveryCandidateTreeSHA := "";
          RecoverySealSHA256 := "" |};
     x_repair := {| RepairPRNumber := 0; RepairHeadRef := ""; RepairAdmittedHeadSHA := "" |};
     x_waiting := {| x_Wait := None; ResumeRequestFingerprints := ∅; ResumeGeneration := 0 |} |}.
