(* ===== verification/CodexWorkflow.v ===== *)
(** * internal/sandbox/codex_workflow.go: the phases of a Codex run

    A run is prepared, executed with the Codex credential, and delivered, each
    in a container of its own; a delivery that lost its lease is recovered once
    and delivered again.  The durable intent says how far the run is, and
    [resumeCodexIssueWorkflow] goes on from there.  The world is that of one
    run: its row in the index of intents, its files, the engine, the credential
    holder, and the process's memory, with the watchers that wait for
    containers.  [x_log] is not part of the program: it records what was asked
    of the engine and the holder, which reports were accepted, and what was
    saved, newest first.  A nil dereference ends the process. *)

From stdpp Require Import pretty.
From S2P Require Import Prelude GoStrings GoTime Process Docker DockerExec Sandbox SandboxConfig LaunchIntents Launch TerminalResult CodexRun.
Open Scope string_scope.
Open Scope list_scope.
Open Scope Z_scope.

(** ** Phases *)

Definition codexPhasePreparationCreate := "preparation_create_pending".
Definition codexPhasePreparationStart := "preparation_start_pending".
Definition codexPhasePreparationRunning := "preparation_running".
Definition codexPhasePreparationRecon := "preparation_reconcile_pending".
Definition codexPhasePreparationTerm := "preparation_terminal".
Definition codexPhaseExecutionCreate := "execution_create_pending".
Definition codexPhaseExecutionStart := "execution_start_pending".
Definition codexPhaseBundleInject := "bundle_inject_pending".
Definition codexPhaseBundleAccept := "bundle_accept_pending".
Definition codexPhaseExecutionRunning := "execution_running".
Definition codexPhaseExecutionRecon := "execution_reconcile_pending".
Definition codexPhaseExecutionTerm := "execution_terminal".
Definition codexPhaseRecoveryCreate := "recovery_validation_create_pending".
Definition codexPhaseRecoveryStart := "recovery_validation_start_pending".
Definition codexPhaseRecoveryRunning := "recovery_validation_running".
Definition codexPhaseRecoveryTerm := "recovery_validation_terminal".
Definition codexPhaseDeliveryCreate := "delivery_create_pending".
Definition codexPhaseDeliveryStart := "delivery_start_pending".
Definition codexPhaseDeliveryRunning := "delivery_running".
Definition codexPhaseDeliveryRecon := "delivery_reconcile_pending".
Definition codexPhaseDeliveryTerm := "delivery_terminal".

Inductive stage := Preparation | Execution | Recovery | Delivery.
#[export] Instance stage_eq : EqDecision stage.
Proof. solve_decision. Defined.

Definition phases (s : stage) : list string :=
  match s with
  | Preparation => [codexPhasePreparationCreate; codexPhasePreparationStart; codexPhasePreparationRunning;
                    codexPhasePreparationRecon; codexPhasePreparationTerm]
  | Execution => [codexPhaseExecutionCreate; codexPhaseExecutionStart; codexPhaseBundleInject; codexPhaseBundleAccept;
                  codexPhaseExecutionRunning; codexPhaseExecutionRecon; codexPhaseExecutionTerm]
  | Recovery => [codexPhaseRecoveryCreate; codexPhaseRecoveryStart; codexPhaseRecoveryRunning; codexPhaseRecoveryTerm]
  | Delivery => [codexPhaseDeliveryCreate; codexPhaseDeliveryStart; codexPhaseDeliveryRunning;
                 codexPhaseDeliveryRecon; codexPhaseDeliveryTerm]
  end.

Definition in_stage (s : stage) (p : string) : bool := existsb (String.eqb p) (phases s).

(** The stage whose handler resumes a phase. *)
Definition stage_of (p : string) : option stage :=
  List.find (λ s, in_stage s p) [Preparation; Execution; Recovery; Delivery].
#[global] Arguments stage_of _ : simpl never.

Definition currentCodexPhaseContainer (m : codex_meta) : string :=
  let p := phase m in
  let a := x_attempts m in
  if (p =? codexPhasePreparationCreate)%string || (p =? codexPhaseExecutionCreate)%string
     || (p =? codexPhaseRecoveryCreate)%string || (p =? codexPhaseDeliveryCreate)%string then "" else
  match stage_of p with
  | Some Preparation => PreparationContainerID a
  | Some Execution => ExecutionContainerID a
  | Some Recovery => RecoveryContainerID a
  | Some Delivery => DeliveryContainerID a
  | None => ""
  end.

(** ** State *)

(** The row of the run; of its plan, the version of the configuration. *)
Record codex_intent := {
  i_Principal : string; i_Profile : string; i_ConfigVersion : string; i_State : string; i_Metadata : codex_meta }.

Definition with_metadata (i : codex_intent) (state : string) (m : codex_meta) : codex_intent :=
  {| i_Principal := i_Principal i; i_Profile := i_Profile i; i_ConfigVersion := i_ConfigVersion i; i_State := state;
     i_Metadata := m |}.

Inductive event :=
| Asked (s : stage) (runID : string) | Started (id : string) | Issued | Injected (id : string)
| Prepared (r : preparationResult) | Executed (r : executionResult) | Stale (r : recoveryValidationResult)
| Recovered (r : recoveryValidationResult) | Saved (state : string) (m : codex_meta) | Starved.

Record codex_world (D H : Type) := {
  x_intent : codex_intent; x_file : option codex_meta; x_result : option TerminalResult; x_engine : D; x_holder : H;
  x_run : option codex_meta; x_watchers : list string; x_log : list event }.
Arguments x_intent {D H} c.
Arguments x_file {D H} c.
Arguments x_result {D H} c.
Arguments x_engine {D H} c.
Arguments x_holder {D H} c.
Arguments x_run {D H} c.
Arguments x_watchers {D H} c.
Arguments x_log {D H} c.

(** Errors of the holder are texts. *)
Record CodexCredentialIssuer (H : Type) := {
  Issue : string → string → prog H (result string string);
  Consume : string → prog H (result string unit);
  Cleanup : string → prog H (result string unit) }.
Arguments Issue {H} c.
Arguments Consume {H} c.
Arguments Cleanup {H} c.

Inductive codex_cause :=
| CNoHolder | CUnsupportedPhase | CIncompatiblePhase | CRecoveryAttempted | CBackend (e : backend_error)
| CDocker (e : docker_error) | CExec (e : exec_error) | CHolder (text : string) | CPreparation | CExecution
| CDiagnostic (text : string) | CRecovery | CReport (e : report_error) | CFile (e : svc_error)
| CStop (stop verify : option docker_error) (running : bool) | CCleanup (text : string).

(** What the workflow reads besides [Service]: the profiles' workflows, the files
    of the run's directory by the number of the effect that reads them, the
    decoders of JSON, the redactor, the texts of joined errors, how often an
    exec is inspected and a path probed, and the holder, if there is one. *)
Class CodexService (H : Type) := {
  workflows : string → option CodexIssueWorkflow;
  run_file : nat → string → file_state; run_dir : nat → string → option (list string);
  result_limit : Z;
  parse_any : string → option any; marshal_any : list (string * any) → string; redact : string → string;
  parse_preparation : string → option preparationResult; parse_execution : string → option executionResult;
  parse_failure : string → option executionFailure; parse_wait : string → option githubExternalWaitReport;
  parse_recovery : string → option recoveryValidationResult;
  text_of : list codex_cause → string;
  polls : nat; tries : nat;
  issuer : option (CodexCredentialIssuer H) }.

(** Handlers run at the same time: stops and deadlines take no lock of the run,
    and a repeated launch takes another one than watchers and resumptions.
    [others k] is what the other handlers do to the world between an effect of
    this handler and the one before it. *)
Class Others (D H : Type) := others : nat → codex_world D H → codex_world D H.

Section Workflow.
Context {D H : Type} `{DockerEngine D} `{DockerExec D} `{Svc : Service} `{Codex : CodexService H} `{Env : Others D H}.

Notation W := (codex_world D H).
Notation M := (prog W).
Notation outcome := (result svc_error LaunchAgentOutput).

Definition shared {A} (m : M A) : M A := λ k w, m k (others k w).

Definition set_intent (i : codex_intent) (w : W) : W :=
  {| x_intent := i; x_file := x_file w; x_result := x_result w; x_engine := x_engine w; x_holder := x_holder w;
     x_run := x_run w; x_watchers := x_watchers w; x_log := Saved (i_State i) (i_Metadata i) :: x_log w |}.
Definition set_file (m : codex_meta) (w : W) : W :=
  {| x_intent := x_intent w; x_file := Some m; x_result := x_result w; x_engine := x_engine w; x_holder := x_holder w;
     x_run := x_run w; x_watchers := x_watchers w; x_log := x_log w |}.
Definition set_result (r : TerminalResult) (w : W) : W :=
  {| x_intent := x_intent w; x_file := x_file w; x_result := Some r; x_engine := x_engine w; x_holder := x_holder w;
     x_run := x_run w; x_watchers := x_watchers w; x_log := x_log w |}.
Definition set_engine (d : D) (w : W) : W :=
  {| x_intent := x_intent w; x_file := x_file w; x_result := x_result w; x_engine := d; x_holder := x_holder w;
     x_run := x_run w; x_watchers := x_watchers w; x_log := x_log w |}.
Definition set_holder (h : H) (w : W) : W :=
  {| x_intent := x_intent w; x_file := x_file w; x_result := x_result w; x_engine := x_engine w; x_holder := h;
     x_run := x_run w; x_watchers := x_watchers w; x_log := x_log w |}.
Definition set_memory (run : option codex_meta) (watchers : list string) (w : W) : W :=
  {| x_intent := x_intent w; x_file := x_file w; x_result := x_result w; x_engine := x_engine w; x_holder := x_holder w;
     x_run := run; x_watchers := watchers; x_log := x_log w |}.
Definition add_event (e : event) (w : W) : W :=
  {| x_intent := x_intent w; x_file := x_file w; x_result := x_result w; x_engine := x_engine w; x_holder := x_holder w;
     x_run := x_run w; x_watchers := x_watchers w; x_log := e :: x_log w |}.

(** ** Single effects *)

Definition shared_effect {A} (f : nat → W → W * A) : M A := shared (effect dies f).
Definition x_peek {A} (f : W → A) : M A := shared (peek f).
Definition x_poke (f : W → W) : M unit := shared (poke f).

Definition x_clock : M time := λ k w, (k, w, Some (now k)).
Definition panic {A} : M A := λ k w, (k, w, None).
Definition note (e : event) : M unit := poke (add_event e).
Definition remember (m : codex_meta) : M unit := x_poke (λ w, set_memory (Some m) (x_watchers w) w).
Definition watchCodexPhase (id : string) : M unit := x_poke (λ w, set_memory (x_run w) (id :: x_watchers w) w).

(** The row exists: the update counts it. *)
Definition save_intent (i : codex_intent) : M (result svc_error unit) :=
  shared_effect (λ k w, if fails (db_fault k) 0 then (w, Err (EIntent IDatabase)) else (set_intent i w, Ok ())).

Definition writeMetadataFile (m : codex_meta) : M (result svc_error unit) :=
  shared_effect (λ k w, if file_fails k then (w, Err EFile) else (set_file m w, Ok ())).

Definition outputs_at (k : nat) : outputs :=
  {| o_file name := run_file k ("output/" +:+ name); o_dir := run_dir k |}.

Definition persistTerminalResult (m : codex_meta) : M (result svc_error unit) :=
  shared_effect (λ k w, if file_fails k then (w, Err EFile) else
    (set_result (projectTerminalResult parse_any marshal_any redact result_limit (outputs_at k) (x_term m)) w, Ok ())).

(** A report is read from the run's directory. *)
Definition read {A} (path : string) (check : file_state → result report_error A) : M (result report_error A) :=
  shared_effect (λ k w, (w, check (run_file k path))).

Definition on_engine {A} (p : prog D A) : M A := shared (zoom x_engine set_engine p).
Definition inspect (id : string) : M (result docker_error ContainerStatus) := on_engine (Inspect dies parse_time id).
Definition stop (id : string) : M (result docker_error unit) := on_engine (Stop dies id).
Definition start (id : string) : M (result docker_error unit) := _ <-! note (Started id) ;; on_engine (Start dies id).
Definition create (s : stage) (spec : RuntimeSpec) : M (result backend_error ContainerInfo) :=
  _ <-! note (Asked s (sp_RunID spec)) ;;
  on_engine (Docker.Create dies sha256_hex json_spec parse_time spec).

Definition zoom_holder {A} (p : prog H A) : M A := shared (zoom x_holder set_holder p).
Definition on_holder {A} (p : CodexCredentialIssuer H → prog H A) : M A :=
  match issuer with Some c => zoom_holder (p c) | None => panic end.

(** ** Saving and failing *)

Definition persistCodexIntent (i : codex_intent) (m : codex_meta) (state : string) : M (result svc_error unit) :=
  _ <-? save_intent (with_metadata i state m) ;;
  _ <-? writeMetadataFile m ;;
  _ <-! remember m ;;
  done (Ok ()).

Definition failure {A} (r : result docker_error A) : option docker_error :=
  match r with Ok _ => None | Err e => Some e end.
Definition is_running (r : result docker_error ContainerStatus) : bool :=
  match r with Ok s => st_Running s | Err _ => false end.

(** What is joined to the cause. *)
Definition stopCurrentCodexPhase (m : codex_meta) : M (list codex_cause) :=
  let id := currentCodexPhaseContainer m in
  if (id =? "")%string then done [] else
  r <-! inspect id ;;
  if match r with Ok s => negb (st_Running s) | Err _ => false end then done [] else
  stopped <-! stop id ;;
  verified <-! inspect id ;;
  match stopped with
  | Err e =>
    if bool_decide (DockerStatusCode e = Some 304) && is_ok verified && negb (is_running verified) then done []
    else done [CStop (Some e) (failure verified) (is_running verified)]
  | Ok _ =>
    if is_ok verified && negb (is_running verified) then done []
    else done [CStop None (failure verified) (is_running verified)]
  end.

Definition failCodexIntent (i : codex_intent) (m : codex_meta) (stage : string) (cause : codex_cause) : M outcome :=
  stopErr <-! stopCurrentCodexPhase m ;;
  t <-! x_clock ;;
  let m := on_base (λ b, ended b StatusFailed ("codex_" +:+ stage +:+ "_failed") ("codex_" +:+ stage) (m_ExitCode b) t) m in
  cleaned <-! on_holder (λ c, Cleanup c (RunID (identity m))) ;;
  let causes := cause :: stopErr ++ match cleaned with Ok _ => [] | Err e => [CCleanup e] end in
  let m := with_error (abbreviate (redact (text_of causes)) 500) m in
  _ <-? persistTerminalResult m ;;
  _ <-? save_intent (with_metadata i intentStateTerminal m) ;;
  _ <-? writeMetadataFile m ;;
  _ <-! remember m ;;
  done (Ok (launchOutput (base m))).

(** ** The end of a run *)

Definition lookupRun : M (result svc_error codex_meta) :=
  known <-! x_peek x_run ;;
  match known with
  | Some m => done (Ok m)
  | None =>
    m <-? shared_effect (λ k w, (w, if file_fails k then Err EFile else
                                    match x_file w with Some m => Ok m | None => Err ENoRun end)) ;;
    _ <-! remember m ;;
    done (Ok m)
  end.

(** finalizeTerminalRun of a run with provenance, by its metadata or its error. *)
Definition finalizeTerminalRun (reason source : string) (update : codex_meta → M (codex_meta * option svc_error))
    : M (codex_meta * option svc_error + svc_error) :=
  r <-! lookupRun ;;
  match r with
  | Err x => done (inr x)
  | Ok m =>
    if negb (status m =? StatusRunning)%string then done (inl (m, None)) else
    '(next, captured) <-! update m ;;
    if (status next =? StatusRunning)%string then done (inl (next, captured)) else
    let next := on_base (λ b, terminal_update b reason source) next in
    cleaned <-! (match issuer with
                 | None => done (Ok ())
                 | Some c => zoom_holder (Cleanup c (RunID (identity next)))
                 end) ;;
    match cleaned with
    | Err _ => done (inr EFile)
    | Ok _ =>
      r <-! persistTerminalResult next ;;
      match r with
      | Err x => done (inr x)
      | Ok _ =>
        current <-! x_peek x_run ;;
        if match current with Some c => negb (status c =? StatusRunning)%string | None => false end
        then done (inl (default next current, captured)) else
        _ <-! remember next ;;
        r <-! (_ <-? writeMetadataFile next ;;
               shared_effect (λ k w, if fails (db_fault k) 0 then (w, Err (EIntent IDatabase)) else
                 (set_intent (with_metadata (x_intent w) (metadata_state (base next)) next) w, Ok ()))) ;;
        done match r with Ok _ => inl (next, captured) | Err x => inr x end
      end
    end
  end.

Definition finalizeExited (reason : string) (st : ContainerStatus) : M (codex_meta * option svc_error + svc_error) :=
  finalizeTerminalRun reason terminalSourceExited (λ m,
    t <-! x_clock ;; done (on_base (λ b, finalizeExitedRun t b st) m, None)).

(** The update of Launch, with the engine of this world. *)
Definition base_update (u : RunMetadata → prog (Launch.world D) (RunMetadata * option svc_error)) (m : codex_meta)
    : M (codex_meta * option svc_error) :=
  '(b, captured) <-! on_engine (zoom
      (λ d, {| w_intents := []; w_files := ∅; w_results := ∅; w_engine := d; w_caps := ∅; w_runs := ∅ |})
      (λ w _, w_engine w) (u (base m))) ;;
  done (on_base (λ _, b) m, captured).

Definition outcome_of (r : codex_meta * option svc_error + svc_error) : outcome :=
  match r with inl (m, _) => Ok (launchOutput (base m)) | inr x => Err x end.

(** ** Containers of a phase *)

Definition lifecycleForStatus (st : ContainerStatus) : ContainerLifecycle :=
  if st_Running st then ContainerRunning
  else if is_zero (st_StartedAt st) then ContainerNeverStarted else ContainerExited.

Definition terminalTime (st : ContainerStatus) : M time :=
  if negb (is_zero (st_EndedAt st)) then done (st_EndedAt st) else x_clock.

Definition inspected (id : string) (st : ContainerStatus) : ContainerInfo :=
  {| ci_ID := id; ci_ImageDigest := ""; ci_Platform := ""; ci_Existing := false;
     ci_Lifecycle := lifecycleForStatus st; ci_Status := st |}.

Inductive begun := Begun | AlreadyEnded (st : ContainerStatus) | NotBegun (e : docker_error).

(** A start that failed may have started the container. *)
Definition start_or_inspect (id : string) : M begun :=
  r <-! start id ;;
  match r with
  | Ok _ => done Begun
  | Err e =>
    r <-! inspect id ;;
    done match r with
         | Ok st => if negb (is_zero (st_StartedAt st)) then if st_Running st then Begun else AlreadyEnded st
                    else NotBegun e
         | Err _ => NotBegun e
         end
  end.

Definition succeeded (st : ContainerStatus) : bool := bool_decide (st_ExitCode st = Some 0).
Definition or_now (t : time) : M time := if is_zero t then x_clock else done t.

(** ** Waiting for GitHub *)

Definition waitForGitHub (i : codex_intent) (m : codex_meta) (r : githubExternalWaitReport) : M outcome :=
  t <-! x_clock ;;
  let w := x_waiting m in
  let wait := {| ew_Service := wt_Service r; ew_Phase := wt_Phase r; ew_Operation := wt_Operation r;
                 ew_Reason := wt_Reason r; ew_Generation := ResumeGeneration w + 1; ew_Since := t |} in
  let m := on_base (λ b, ended b StatusWaitingExternal (m_FinalizeReason b) (m_TerminalSource b) None (m_EndedAt b))
             (with_error "" (with_waiting {| x_Wait := Some wait;
                                             ResumeRequestFingerprints := ResumeRequestFingerprints w;
                                             ResumeGeneration := ResumeGeneration w |} m)) in
  _ <-? persistCodexIntent i m intentStateWaitingExternal ;;
  done (Ok (launchOutput (base m))).

Definition read_wait (m : codex_meta) (phase : string) : M (result report_error githubExternalWaitReport) :=
  read "output/external-wait.json" (readGitHubExternalWait parse_wait m phase).

(** ** Delivery *)

Definition set_delivery (f : attempts → string * list string * Z) : codex_meta → codex_meta := on_attempts (λ a,
  let '(id, ids, attempt) := f a in
  {| PreparationContainerID := PreparationContainerID a; PreparationContainerIDs := PreparationContainerIDs a;
     PreparationAttempt := PreparationAttempt a; ExecutionContainerID := ExecutionContainerID a;
     DeliveryContainerID := id; DeliveryContainerIDs := ids; DeliveryAttempt := attempt;
     RecoveryContainerID := RecoveryContainerID a; RecoveryCount := RecoveryCount a |}).

Definition stale_lease (r : recoveryValidationResult) : codex_meta → codex_meta := on_recovery (λ c,
  {| RecoveryStartedAt := RecoveryStartedAt c; RecoveryEndedAt := RecoveryEndedAt c;
     RecoveryExpectedHeadSHA := rv_ExpectedHeadSHA r; RecoveryWinnerHeadSHA := rv_WinnerHeadSHA r;
     RecoveryCandidateHeadSHA := rv_CandidateHeadSHA r; RecoveryCandidateTreeSHA := rv_CandidateTreeSHA r;
     RecoverySealSHA256 := rv_SealSHA256 r |}).

(** Both reports are read only after a failing exit: [Some] is a decision. *)
Definition delivery_decision (i : codex_intent) (m : codex_meta) (st : ContainerStatus)
    (recover : codex_intent → codex_meta → M outcome) : M (option outcome) :=
  match st_ExitCode st with
  | None | Some 0 => done None
  | Some code =>
    wait <-! (if code =? 75 then r <-! read_wait m "delivery" ;; done match r with Ok r => Some r | Err _ => None end
              else done None) ;;
    match wait with
    | Some r => o <-! waitForGitHub i m r ;; done (Some o)
    | None =>
      stale <-! read "output/stale-lease.json" (readStaleLease sha256_hex parse_recovery m) ;;
      match stale with
      | Ok r =>
        if negb (RecoveryCount (x_attempts m) =? 0) then done None else
        _ <-! note (Stale r) ;;
        let m := in_phase codexPhaseRecoveryCreate (on_base (at_container "") (stale_lease r m)) in
        saved <-! persistCodexIntent i m intentStateRunning ;;
        match saved with
        | Err x => done (Some (Err x))
        | Ok _ => o <-! recover i m ;; done (Some o)
        end
      | Err _ => done None
      end
    end
  end.

Definition completeDelivery (recover : codex_intent → codex_meta → M outcome) (i : codex_intent) (m : codex_meta)
    (st : ContainerStatus) : M outcome :=
  t <-! terminalTime st ;;
  let m := on_base (λ b, with_status b StatusRunning) (in_phase codexPhaseDeliveryTerm (on_times (λ x,
    {| PreparationStartedAt := PreparationStartedAt x; PreparationEndedAt := PreparationEndedAt x;
       ExecutionStartedAt := ExecutionStartedAt x; ExecutionEndedAt := ExecutionEndedAt x;
       DeliveryStartedAt := DeliveryStartedAt x; DeliveryEndedAt := t |}) m)) in
  _ <-? persistCodexIntent i m intentStateRunning ;;
  decided <-! delivery_decision i m st recover ;;
  match decided with
  | Some o => done o
  | None => f <-! finalizeExited finalizeReasonWorkerExit st ;; done (outcome_of f)
  end.

Definition delivery_container (i : codex_intent) (m : codex_meta) (spec : RuntimeSpec)
    : M (result svc_error (codex_meta * ContainerInfo + outcome)) :=
  let id := DeliveryContainerID (x_attempts m) in
  if (id =? "")%string then
    let m := in_phase codexPhaseDeliveryCreate m in
    _ <-? persistCodexIntent i m intentStateCreatePending ;;
    r <-! create Delivery spec ;;
    match r with
    | Err e => o <-! failCodexIntent i m "delivery_create" (CBackend e) ;; done (Ok (inr o))
    | Ok info =>
      let m := in_phase codexPhaseDeliveryStart (on_images (λ x,
          {| PreparationImageDigest := PreparationImageDigest x; PreparationPlatform := PreparationPlatform x;
             ExecutionPlatform := ExecutionPlatform x; DeliveryImageDigest := ci_ImageDigest info;
             DeliveryPlatform := ci_Platform info |})
        (on_base (at_container (ci_ID info)) (set_delivery (λ a,
          (ci_ID info, appendUniqueContainerID (DeliveryContainerIDs a) (ci_ID info), DeliveryAttempt a)) m))) in
      _ <-? persistCodexIntent i m intentStateContainerMade ;;
      done (Ok (inl (m, info)))
    end
  else
    r <-! inspect id ;;
    match r with
    | Err e => o <-! failCodexIntent i m "delivery_reconcile" (CDocker e) ;; done (Ok (inr o))
    | Ok st => done (Ok (inl (m, inspected id st)))
    end.

Definition delivery_running (i : codex_intent) (m : codex_meta) : M outcome :=
  t <-! or_now (DeliveryStartedAt (Times (x_term m))) ;;
  let m := in_phase codexPhaseDeliveryRunning (on_base (λ b, with_status b StatusRunning) (on_times (λ x,
    {| PreparationStartedAt := PreparationStartedAt x; PreparationEndedAt := PreparationEndedAt x;
       ExecutionStartedAt := ExecutionStartedAt x; ExecutionEndedAt := ExecutionEndedAt x;
       DeliveryStartedAt := t; DeliveryEndedAt := DeliveryEndedAt x |}) m)) in
  _ <-? persistCodexIntent i m intentStateRunning ;;
  _ <-! watchCodexPhase (DeliveryContainerID (x_attempts m)) ;;
  done (Ok (launchOutput (base m))).

(** The body of resumeDelivery, by what completeDelivery does with a stale lease. *)
Definition deliver (recover : codex_intent → codex_meta → M outcome) (wf : CodexIssueWorkflow) (i : codex_intent)
    (m : codex_meta) : M outcome :=
  let first := DeliveryAttempt (x_attempts m) =? 0 in
  let attempt := if first then 1 else DeliveryAttempt (x_attempts m) in
  match codex_spec cfg m (DeliveryTemplate wf) "delivery" ("-deliver-" +:+ pretty attempt) [] with
  | None => done (Err EBundle)
  | Some spec =>
    m <-? (if first then
             let m := set_delivery (λ a, (DeliveryContainerID a, DeliveryContainerIDs a, attempt)) m in
             _ <-? persistCodexIntent i m intentStateCreatePending ;; done (Ok m)
           else done (Ok m)) ;;
    r <-? delivery_container i m spec ;;
    match r with
    | inr o => done o
    | inl (m, info) =>
      match ci_Lifecycle info with
      | ContainerExited => completeDelivery recover i m (ci_Status info)
      | ContainerRunning => delivery_running i m
      | ContainerNeverStarted =>
        let m := in_phase codexPhaseDeliveryStart m in
        _ <-? persistCodexIntent i m intentStateStartPending ;;
        r <-! start_or_inspect (DeliveryContainerID (x_attempts m)) ;;
        match r with
        | Begun => delivery_running i m
        | AlreadyEnded st => completeDelivery recover i m st
        | NotBegun e => failCodexIntent i m "delivery_start" (CDocker e)
        end
      end
    end
  end.

(** ** Recovery of a lost lease *)

Definition set_recovery (id : string) (count : Z) : codex_meta → codex_meta := on_attempts (λ a,
  {| PreparationContainerID := PreparationContainerID a; PreparationContainerIDs := PreparationContainerIDs a;
     PreparationAttempt := PreparationAttempt a; ExecutionContainerID := ExecutionContainerID a;
     DeliveryContainerID := DeliveryContainerID a; DeliveryContainerIDs := DeliveryContainerIDs a;
     DeliveryAttempt := DeliveryAttempt a; RecoveryContainerID := id; RecoveryCount := count |}).

Definition recovery_times (started ended : time) : codex_meta → codex_meta := on_recovery (λ c,
  {| RecoveryStartedAt := started; RecoveryEndedAt := ended; RecoveryExpectedHeadSHA := RecoveryExpectedHeadSHA c;
     RecoveryWinnerHeadSHA := RecoveryWinnerHeadSHA c; RecoveryCandidateHeadSHA := RecoveryCandidateHeadSHA c;
     RecoveryCandidateTreeSHA := RecoveryCandidateTreeSHA c; RecoverySealSHA256 := RecoverySealSHA256 c |}).

Definition completeRecoveryValidation (redeliver : codex_intent → codex_meta → M outcome) (i : codex_intent)
    (m : codex_meta) (st : ContainerStatus) : M outcome :=
  t <-! terminalTime st ;;
  let m := in_phase codexPhaseRecoveryTerm (recovery_times (RecoveryStartedAt (x_recovery m)) t m) in
  _ <-? persistCodexIntent i m intentStateRunning ;;
  if negb (succeeded st) then failCodexIntent i m "recovery_validation" CRecovery else
  r <-! read "work/recovery/recovery-validation.json" (readRecoveryValidation parse_recovery m) ;;
  match r with
  | Err e => failCodexIntent i m "recovery_validation" (CReport e)
  | Ok r =>
    _ <-! note (Recovered r) ;;
    redeliver i (in_phase codexPhaseDeliveryCreate (on_base (at_container "")
      (set_delivery (λ a, ("", DeliveryContainerIDs a, DeliveryAttempt a + 1)) m)))
  end.

Definition recovery_container (i : codex_intent) (m : codex_meta) (spec : RuntimeSpec)
    : M (result svc_error (codex_meta * ContainerInfo + outcome)) :=
  let a := x_attempts m in
  if (RecoveryContainerID a =? "")%string then
    if 1 <=? RecoveryCount a
    then o <-! failCodexIntent i m "recovery_bound" CRecoveryAttempted ;; done (Ok (inr o)) else
    let m := in_phase codexPhaseRecoveryCreate m in
    _ <-? persistCodexIntent i m intentStateCreatePending ;;
    r <-! create Recovery spec ;;
    match r with
    | Err e => o <-! failCodexIntent i m "recovery_create" (CBackend e) ;; done (Ok (inr o))
    | Ok info =>
      let m := in_phase codexPhaseRecoveryStart
        (on_base (at_container (ci_ID info)) (set_recovery (ci_ID info) (RecoveryCount a + 1) m)) in
      _ <-? persistCodexIntent i m intentStateContainerMade ;;
      done (Ok (inl (m, info)))
    end
  else
    r <-! inspect (RecoveryContainerID a) ;;
    match r with
    | Err e => o <-! failCodexIntent i m "recovery_reconcile" (CDocker e) ;; done (Ok (inr o))
    | Ok st => done (Ok (inl (m, inspected (RecoveryContainerID a) st)))
    end.

Definition recovery_running (i : codex_intent) (m : codex_meta) : M outcome :=
  let c := x_recovery m in
  t <-! or_now (RecoveryStartedAt c) ;;
  let m := in_phase codexPhaseRecoveryRunning (on_base (λ b, with_status b StatusRunning)
             (recovery_times t (RecoveryEndedAt c) m)) in
  _ <-? persistCodexIntent i m intentStateRunning ;;
  _ <-! watchCodexPhase (RecoveryContainerID (x_attempts m)) ;;
  done (Ok (launchOutput (base m))).

(** The body of resumeRecoveryValidation.  A failing start is not inspected. *)
Definition recover_lease (redeliver : codex_intent → codex_meta → M outcome) (wf : CodexIssueWorkflow)
    (i : codex_intent) (m : codex_meta) : M outcome :=
  match codex_spec cfg m (RecoveryTemplate wf) "recovery_validation"
          ("-recover-" +:+ pretty (RecoveryCount (x_attempts m) + 1)) [] with
  | None => done (Err EBundle)
  | Some spec =>
    r <-? recovery_container i m spec ;;
    match r with
    | inr o => done o
    | inl (m, info) =>
      match ci_Lifecycle info with
      | ContainerExited => completeRecoveryValidation redeliver i m (ci_Status info)
      | ContainerRunning => recovery_running i m
      | ContainerNeverStarted =>
        let m := in_phase codexPhaseRecoveryStart m in
        _ <-? persistCodexIntent i m intentStateStartPending ;;
        r <-! start (RecoveryContainerID (x_attempts m)) ;;
        match r with
        | Err e => failCodexIntent i m "recovery_start" (CDocker e)
        | Ok _ => recovery_running i m
        end
      end
    end
  end.

(** The profile of the run's metadata, which has a workflow. *)
Definition with_workflow (m : codex_meta) (k : CodexIssueWorkflow → M outcome) : M outcome :=
  match workflows (Profile (identity m)) with Some wf => k wf | None => panic end.

Definition starved : M outcome := _ <-! note Starved ;; panic.

(** A delivery may recover, and the recovery delivers again: [fuel] bounds how
    often, and one is enough because a run is recovered once. *)
Fixpoint resumeDelivery (fuel : nat) (wf : CodexIssueWorkflow) (i : codex_intent) (m : codex_meta) : M outcome :=
  deliver (λ i m, with_workflow m (λ wf,
    match fuel with
    | O => starved
    | S fuel => recover_lease (resumeDelivery fuel wf) wf i m
    end)) wf i m.

Definition recover_from (fuel : nat) (i : codex_intent) (m : codex_meta) : M outcome := with_workflow m (λ wf,
  match fuel with
  | O => starved
  | S fuel => recover_lease (resumeDelivery fuel wf) wf i m
  end).

Definition recoveries : nat := 1.

(** ** Execution *)

Definition codexInjectionDir := "/dev/shm/codex-credential-injection".
Definition codexInjectionName := "auth.json".
Definition codexAcceptanceMarker := "/dev/shm/codex-credential-accepted".
Definition codexCredentialWaitTimeout : Z := 45 * second.

Definition accepted (id : string) : M (result exec_error bool) :=
  on_engine (PathExists dies polls id codexAcceptanceMarker).
Definition await_acceptance (id : string) : M (result exec_error unit) :=
  on_engine (WaitForPath dies polls tries id codexAcceptanceMarker codexCredentialWaitTimeout).
Definition inject (id bundle : string) : M (result exec_error unit) :=
  _ <-! note (Injected id) ;;
  on_engine (InjectSecret dies parse_time polls id codexInjectionDir codexInjectionName bundle).
Definition issue (m : codex_meta) : M (result string string) :=
  _ <-! note Issued ;;
  on_holder (λ c, Issue c (RunID (identity m)) (IdempotencyKeyDigest (identity m))).

Definition set_execution (id : string) : codex_meta → codex_meta := on_attempts (λ a,
  {| PreparationContainerID := PreparationContainerID a; PreparationContainerIDs := PreparationContainerIDs a;
     PreparationAttempt := PreparationAttempt a; ExecutionContainerID := id;
     DeliveryContainerID := DeliveryContainerID a; DeliveryContainerIDs := DeliveryContainerIDs a;
     DeliveryAttempt := DeliveryAttempt a; RecoveryContainerID := RecoveryContainerID a;
     RecoveryCount := RecoveryCount a |}).

Definition execution_times (started ended : time) : codex_meta → codex_meta := on_times (λ x,
  {| PreparationStartedAt := PreparationStartedAt x; PreparationEndedAt := PreparationEndedAt x;
     ExecutionStartedAt := started; ExecutionEndedAt := ended; DeliveryStartedAt := DeliveryStartedAt x;
     DeliveryEndedAt := DeliveryEndedAt x |}).

Definition completeExecution (i : codex_intent) (m : codex_meta) (st : ContainerStatus) : M outcome :=
  t <-! terminalTime st ;;
  let m := in_phase codexPhaseExecutionTerm (execution_times (ExecutionStartedAt (Times (x_term m))) t m) in
  _ <-? persistCodexIntent i m intentStateRunning ;;
  if negb (succeeded st) then
    r <-! read "work/execution/execution-failure.json" (readExecutionFailure parse_failure m (st_ExitCode st)) ;;
    match r with
    | Err _ => failCodexIntent i m "execution" CExecution
    | Ok f => failCodexIntent i m "execution" (CDiagnostic (fl_Diagnostic f))
    end
  else
    r <-! read "work/execution/execution.json" (readExecutionResult parse_execution result_limit m) ;;
    match r with
    | Err e => failCodexIntent i m "execution_verification" (CReport e)
    | Ok r =>
      _ <-! note (Executed r) ;;
      let m := in_phase codexPhaseDeliveryCreate (on_base (at_container "") m) in
      _ <-? persistCodexIntent i m intentStateRunning ;;
      with_workflow m (λ wf, resumeDelivery recoveries wf i m)
    end.

Definition adoptExecution (i : codex_intent) (m : codex_meta) : M outcome :=
  let x := Times (x_term m) in
  t <-! or_now (ExecutionStartedAt x) ;;
  let m := in_phase codexPhaseExecutionRunning (on_base (λ b, with_status b StatusRunning)
             (execution_times t (ExecutionEndedAt x) m)) in
  _ <-? persistCodexIntent i m intentStateRunning ;;
  _ <-! watchCodexPhase (ExecutionContainerID (x_attempts m)) ;;
  done (Ok (launchOutput (base m))).

(** The container, once it is known: what is to be done with it. *)
Inductive known := Adopt (m : codex_meta) | Continue (m : codex_meta) (info : ContainerInfo) | Answered (o : outcome).

Definition running_container (i : codex_intent) (m : codex_meta) (info : ContainerInfo) : M known :=
  let p := phase m in
  if (p =? codexPhaseExecutionRunning)%string then done (Adopt m)
  else if (p =? codexPhaseBundleAccept)%string then done (Continue m info)
  else if (p =? codexPhaseBundleInject)%string then
    r <-! accepted (ExecutionContainerID (x_attempts m)) ;;
    match r with
    | Err e => o <-! failCodexIntent i m "credential_acceptance_reconcile" (CExec e) ;; done (Answered o)
    | Ok true => done (Continue (in_phase codexPhaseBundleAccept m) info)
    | Ok false => done (Continue m info)
    end
  else if existsb (String.eqb p) [codexPhaseExecutionCreate; codexPhaseExecutionStart; codexPhaseExecutionRecon]
  then done (Continue (in_phase codexPhaseBundleInject m) info)
  else o <-! failCodexIntent i m "execution_reconcile" CIncompatiblePhase ;; done (Answered o).

Definition execution_container (i : codex_intent) (m : codex_meta) (spec : RuntimeSpec) : M (result svc_error known) :=
  let id := ExecutionContainerID (x_attempts m) in
  if (id =? "")%string then
    r <-! create Execution spec ;;
    match r with
    | Err e => o <-! failCodexIntent i m "execution_create" (CBackend e) ;; done (Ok (Answered o))
    | Ok info =>
      let m := in_phase codexPhaseExecutionStart (on_images (λ x,
          {| PreparationImageDigest := PreparationImageDigest x; PreparationPlatform := PreparationPlatform x;
             ExecutionPlatform := ci_Platform info; DeliveryImageDigest := DeliveryImageDigest x;
             DeliveryPlatform := DeliveryPlatform x |})
        (on_base (λ b, with_container b (ci_ID info) (ci_ImageDigest info)) (set_execution (ci_ID info) m))) in
      _ <-? persistCodexIntent i m intentStateContainerMade ;;
      done (Ok (Continue m info))
    end
  else
    r <-! inspect id ;;
    match r with
    | Err e => o <-! failCodexIntent i m "execution_reconcile" (CDocker e) ;; done (Ok (Answered o))
    | Ok st =>
      let info := inspected id st in
      match ci_Lifecycle info with
      | ContainerRunning => k <-! running_container i m info ;; done (Ok k)
      | _ => done (Ok (Continue m info))
      end
    end.

(** From a running container to one that has accepted the credential. *)
Definition hand_over (i : codex_intent) (m : codex_meta) : M outcome :=
  let id := ExecutionContainerID (x_attempts m) in
  let accept m :=
    if (phase m =? codexPhaseBundleAccept)%string then
      r <-! await_acceptance id ;;
      match r with
      | Err e => failCodexIntent i m "credential_acceptance" (CExec e)
      | Ok _ =>
        r <-! on_holder (λ c, Consume c (RunID (identity m))) ;;
        match r with
        | Err e => failCodexIntent i m "credential_consumption" (CHolder e)
        | Ok _ => adoptExecution i m
        end
      end
    else adoptExecution i m in
  if (phase m =? codexPhaseBundleInject)%string then
    r <-! accepted id ;;
    match r with
    | Err e => failCodexIntent i m "credential_acceptance_reconcile" (CExec e)
    | Ok seen =>
      failed <-! (if seen : bool then done None else
                  r <-! issue m ;;
                  match r with
                  | Err e => o <-! failCodexIntent i m "credential_issuance" (CHolder e) ;; done (Some o)
                  | Ok bundle =>
                    r <-! inject id bundle ;;
                    match r with
                    | Err e => o <-! failCodexIntent i m "credential_injection" (CExec e) ;; done (Some o)
                    | Ok _ => done None
                    end
                  end) ;;
      match failed with
      | Some o => done o
      | None =>
        let m := in_phase codexPhaseBundleAccept m in
        _ <-? persistCodexIntent i m intentStateRunning ;;
        accept m
      end
    end
  else accept m.

Definition enter_injection (i : codex_intent) (m : codex_meta) : M outcome :=
  let m := in_phase codexPhaseBundleInject m in
  _ <-? persistCodexIntent i m intentStateRunning ;;
  hand_over i m.

Definition resumeExecution (wf : CodexIssueWorkflow) (i : codex_intent) (m : codex_meta) : M outcome :=
  match codex_spec cfg m (ExecutionTemplate wf) "execution" "-exec" (execution_env result_limit m) with
  | None => done (Err EBundle)
  | Some spec =>
    k <-? execution_container i m spec ;;
    match k with
    | Answered o => done o
    | Adopt m => adoptExecution i m
    | Continue m info =>
      match ci_Lifecycle info with
      | ContainerExited => completeExecution i m (ci_Status info)
      | ContainerNeverStarted =>
        let m := in_phase codexPhaseExecutionStart m in
        _ <-? persistCodexIntent i m intentStateStartPending ;;
        r <-! start_or_inspect (ExecutionContainerID (x_attempts m)) ;;
        match r with
        | Begun => enter_injection i m
        | AlreadyEnded st => completeExecution i m st
        | NotBegun e => failCodexIntent i m "execution_start" (CDocker e)
        end
      | ContainerRunning =>
        if (phase m =? codexPhaseExecutionStart)%string then enter_injection i m else hand_over i m
      end
    end
  end.

(** ** Preparation *)

Definition set_preparation (f : attempts → string * list string * Z) : codex_meta → codex_meta := on_attempts (λ a,
  let '(id, ids, attempt) := f a in
  {| PreparationContainerID := id; PreparationContainerIDs := ids; PreparationAttempt := attempt;
     ExecutionContainerID := ExecutionContainerID a; DeliveryContainerID := DeliveryContainerID a;
     DeliveryContainerIDs := DeliveryContainerIDs a; DeliveryAttempt := DeliveryAttempt a;
     RecoveryContainerID := RecoveryContainerID a; RecoveryCount := RecoveryCount a |}).

Definition preparation_times (started ended : time) : codex_meta → codex_meta := on_times (λ x,
  {| PreparationStartedAt := started; PreparationEndedAt := ended; ExecutionStartedAt := ExecutionStartedAt x;
     ExecutionEndedAt := ExecutionEndedAt x; DeliveryStartedAt := DeliveryStartedAt x;
     DeliveryEndedAt := DeliveryEndedAt x |}).

(** What the preparation found: the workspace, and the pull request to repair. *)
Definition prepared (r : preparationResult) (m : codex_meta) : codex_meta :=
  let m := match Provenance (x_term m) with
           | None => m
           | Some p => with_provenance
               {| ModelPolicy := ModelPolicy p; ModelPolicyVersion := ModelPolicyVersion p; Model := Model p;
                  Effort := Effort p; CodexVersion := CodexVersion p; PromptRevision := PromptRevision p;
                  WorkspaceHead := pr_WorkspaceHead r; ManifestSHA256 := pr_ManifestSHA256 r;
                  IssueNumber := IssueNumber p; SourceDeliveryID := SourceDeliveryID p |} m
           end in
  if pr_RepairPRNumber r =? 0 then m else
  with_repair {| RepairPRNumber := pr_RepairPRNumber r; RepairHeadRef := pr_RepairHeadRef r;
                 RepairAdmittedHeadSHA := pr_RepairExpectedHeadSHA r |} m.

(** input/repair-authority.json; nothing here reads it. *)
Definition writeRepairAuthority (m : codex_meta) : M (result svc_error unit) :=
  if RepairPRNumber (x_repair m) =? 0 then done (Ok ()) else
  shared_effect (λ k w, (w, if file_fails k then Err EFile else Ok ())).

Definition completePreparation (wf : CodexIssueWorkflow) (i : codex_intent) (m : codex_meta) (st : ContainerStatus)
    : M outcome :=
  t <-! terminalTime st ;;
  let m := in_phase codexPhasePreparationTerm (preparation_times (PreparationStartedAt (Times (x_term m))) t m) in
  _ <-? persistCodexIntent i m intentStateRunning ;;
  if negb (succeeded st) then
    wait <-! (if bool_decide (st_ExitCode st = Some 75)
              then r <-! read_wait m "preparation" ;; done match r with Ok r => Some r | Err _ => None end
              else done None) ;;
    match wait with
    | Some r => waitForGitHub i m r
    | None => failCodexIntent i m "preparation" CPreparation
    end
  else
    r <-! read "work/prepared/preparation.json" (readPreparationResult parse_preparation m) ;;
    match r with
    | Err e => failCodexIntent i m "preparation_verification" (CReport e)
    | Ok r =>
      _ <-! note (Prepared r) ;;
      let m := prepared r m in
      written <-! (if pr_RepairPRNumber r =? 0 then done (Ok ()) else writeRepairAuthority m) ;;
      match written with
      | Err x => failCodexIntent i m "preparation_verification" (CFile x)
      | Ok _ =>
        let m := on_base (at_container "") (in_phase codexPhaseExecutionCreate m) in
        _ <-? persistCodexIntent i m intentStateRunning ;;
        resumeExecution wf i m
      end
    end.

Definition preparation_container (i : codex_intent) (m : codex_meta) (spec : RuntimeSpec)
    : M (result svc_error (codex_meta * ContainerInfo + outcome)) :=
  let id := PreparationContainerID (x_attempts m) in
  if (id =? "")%string then
    let m := in_phase codexPhasePreparationCreate m in
    _ <-? persistCodexIntent i m intentStateCreatePending ;;
    r <-! create Preparation spec ;;
    match r with
    | Err e => o <-! failCodexIntent i m "preparation_create" (CBackend e) ;; done (Ok (inr o))
    | Ok info =>
      let m := in_phase codexPhasePreparationStart (on_images (λ x,
          {| PreparationImageDigest := ci_ImageDigest info; PreparationPlatform := ci_Platform info;
             ExecutionPlatform := ExecutionPlatform x; DeliveryImageDigest := DeliveryImageDigest x;
             DeliveryPlatform := DeliveryPlatform x |})
        (on_base (at_container (ci_ID info)) (set_preparation (λ a,
          (ci_ID info, appendUniqueContainerID (PreparationContainerIDs a) (ci_ID info), PreparationAttempt a)) m))) in
      _ <-? persistCodexIntent i m intentStateContainerMade ;;
      done (Ok (inl (m, info)))
    end
  else
    r <-! inspect id ;;
    match r with
    | Err e => o <-! failCodexIntent i m "preparation_reconcile" (CDocker e) ;; done (Ok (inr o))
    | Ok st => done (Ok (inl (m, inspected id st)))
    end.

(** The watcher of the deadline is a handler of its own. *)
Definition preparation_running (i : codex_intent) (m : codex_meta) : M outcome :=
  let x := Times (x_term m) in
  t <-! or_now (PreparationStartedAt x) ;;
  let m := in_phase codexPhasePreparationRunning (on_base (λ b, with_status b StatusRunning)
             (preparation_times t (PreparationEndedAt x) m)) in
  _ <-? persistCodexIntent i m intentStateRunning ;;
  _ <-! watchCodexPhase (PreparationContainerID (x_attempts m)) ;;
  done (Ok (launchOutput (base m))).

Definition preparation_suffix (attempt : Z) : string :=
  "-prep" +:+ (if 1 <? attempt then "-" +:+ pretty attempt else "").

Definition resumePreparation (wf : CodexIssueWorkflow) (i : codex_intent) (m : codex_meta) : M outcome :=
  let a := x_attempts m in
  let attempt := if PreparationAttempt a =? 0 then 1 else PreparationAttempt a in
  let m := set_preparation (λ a, (PreparationContainerID a, PreparationContainerIDs a, attempt)) m in
  match codex_spec cfg m (PreparationTemplate wf) "preparation" (preparation_suffix attempt) [] with
  | None => done (Err EBundle)
  | Some spec =>
    r <-? preparation_container i m spec ;;
    match r with
    | inr o => done o
    | inl (m, info) =>
      match ci_Lifecycle info with
      | ContainerExited => completePreparation wf i m (ci_Status info)
      | ContainerRunning => preparation_running i m
      | ContainerNeverStarted =>
        let m := in_phase codexPhasePreparationStart m in
        _ <-? persistCodexIntent i m intentStateStartPending ;;
        r <-! start_or_inspect (PreparationContainerID (x_attempts m)) ;;
        match r with
        | Begun => preparation_running i m
        | AlreadyEnded st => completePreparation wf i m st
        | NotBegun e => failCodexIntent i m "preparation_start" (CDocker e)
        end
      end
    end
  end.

(** ** Resuming *)

Definition prepareDurableRun (m : codex_meta) : M (result svc_error unit) :=
  _ <-? shared_effect (λ k w, (w, if file_fails k then Err EFile else Ok ())) ;;
  writeMetadataFile m.

Definition resumeCodexIssueWorkflow (i : codex_intent) (recovering : bool) : M outcome :=
  let m := i_Metadata i in
  if isTerminalStatus (status m) || (i_State i =? intentStateTerminal)%string then done (Ok (launchOutput (base m)))
  else if (status m =? StatusWaitingExternal)%string || (i_State i =? intentStateWaitingExternal)%string
  then done (Ok (launchOutput (base m))) else
  match issuer, workflows (i_Profile i) with
  | None, _ => failCodexIntent i m "credential_issuance" CNoHolder
  | _, None => done (Err EUnknownTemplate)
  | Some _, Some wf =>
    r <-! (if recovering : bool then on_holder (λ c, Cleanup c (RunID (identity m))) else done (Ok ())) ;;
    match r with
    | Err _ => done (Err EFile)
    | Ok _ =>
      _ <-? prepareDurableRun m ;;
      let m := if (phase m =? "")%string then in_phase codexPhasePreparationCreate m else m in
      match stage_of (phase m) with
      | Some Preparation => resumePreparation wf i m
      | Some Execution => resumeExecution wf i m
      | Some Recovery => recover_lease (resumeDelivery recoveries wf) wf i m
      | Some Delivery => resumeDelivery recoveries wf i m
      | None => failCodexIntent i m "state_reconciliation" CUnsupportedPhase
      end
    end
  end.

(** resumeLaunchIntent of a profile with a workflow. *)
Definition resumeLaunchIntent (i : codex_intent) (recovering : bool) : M outcome :=
  if negb (i_ConfigVersion i =? ConfigVersion cfg)%string then done (Err EConfigVersion)
  else resumeCodexIssueWorkflow i recovering.

Definition load_intent : M (result svc_error codex_intent) :=
  shared_effect (λ k w, (w, if fails (db_fault k) 0 then Err (EIntent IDatabase) else Ok (x_intent w))).

(** ** What a watcher does when its container has stopped *)

Definition watcher (containerID : string) : M unit :=
  r <-! on_engine (Wait dies parse_time containerID) ;;
  loaded <-! load_intent ;;
  match loaded with
  | Err _ => done ()
  | Ok i =>
    let m := i_Metadata i in
    if isTerminalStatus (status m) then done () else
    match r with
    | Err e => _ <-! failCodexIntent i m "container_wait" (CDocker e) ;; done ()
    | Ok st =>
      let with_wf k := match workflows (i_Profile i) with Some wf => k wf | None => panic end in
      _ <-! (if (phase m =? codexPhasePreparationRunning)%string then with_wf (λ wf, completePreparation wf i m st)
             else if (phase m =? codexPhaseExecutionRunning)%string then completeExecution i m st
             else if (phase m =? codexPhaseRecoveryRunning)%string
             then with_wf (λ wf, completeRecoveryValidation (resumeDelivery recoveries wf) i m st)
             else if (phase m =? codexPhaseDeliveryRunning)%string
             then completeDelivery (recover_from recoveries) i m st
             else done (Ok (launchOutput (base m)))) ;;
      done ()
    end
  end.

(** ** Resuming a run that waits for GitHub *)

Definition with_deadline (deadline : time) (b : RunMetadata) : RunMetadata :=
  let i := m_run b in
  {| m_run := {| RunID := RunID i; WorkItemID := WorkItemID i; Profile := Profile i; Principal := Principal i;
                 IdempotencyKeyDigest := IdempotencyKeyDigest i; RequestFingerprint := RequestFingerprint i;
                 LaunchConfigVersion := LaunchConfigVersion i; run_Template := run_Template i; Repo := Repo i;
                 BaseBranch := BaseBranch i; Branch := Branch i; Task := Task i;
                 VerificationTask := VerificationTask i; Focus := Focus i; WorkerAgentID := WorkerAgentID i;
                 run_BrokerAgentID := run_BrokerAgentID i; run_CredentialBundle := run_CredentialBundle i;
                 run_Image := run_Image i; ResolvedReleaseGeneration := ResolvedReleaseGeneration i;
                 Deliverables := Deliverables i; Parameters := Parameters i; StartedAt := StartedAt i;
                 Deadline := deadline |};
     m_ContainerID := m_ContainerID b; m_ImageDigest := m_ImageDigest b; m_Status := m_Status b;
     m_ExitCode := m_ExitCode b; m_FinalizeReason := m_FinalizeReason b; m_TerminalSource := m_TerminalSource b;
     m_EndedAt := m_EndedAt b |}.

Definition runtime_request (seconds : Z) : LaunchAgentInput :=
  {| in_Template := ""; in_Task := ""; in_VerificationTask := ""; in_Repo := ""; in_BaseBranch := "";
     in_Branch := ""; in_MaxRuntimeMinutes := 0; in_MaxRuntimeSeconds := seconds; in_Deliverables := [];
     in_Focus := ""; in_Parameters := ∅; in_Profile := ""; in_WorkItem := "" |}.

(** The removal of a path in the run's directory, which may be absent. *)
Definition remove_path : M (result svc_error unit) :=
  shared_effect (λ k w, (w, if file_fails k then Err EFile else Ok ())).

(** The metadata of the next attempt. *)
Definition resumed (m : codex_meta) (digest fingerprint : string) (deadline : time) : codex_meta :=
  let w := x_waiting m in
  on_base (λ b, with_deadline deadline
      (ended b StatusPending (m_FinalizeReason b) (m_TerminalSource b) None (m_EndedAt b)))
    (with_error "" (with_waiting {| x_Wait := None;
       ResumeRequestFingerprints := <[digest := fingerprint]> (ResumeRequestFingerprints w);
       ResumeGeneration := ResumeGeneration w + 1 |} m)).

Definition ResumeRun (principal digest fingerprint : string) (seconds : Z) : M outcome :=
  i <-? load_intent ;;
  if negb (i_Principal i =? principal)%string then done (Err (EConflict "run_not_found")) else
  let m := i_Metadata i in
  match ResumeRequestFingerprints (x_waiting m) !! digest with
  | Some existing =>
    if negb (existing =? fingerprint)%string then done (Err (EConflict key_conflict)) else
    r <-! resumeLaunchIntent i false ;;
    done (replayed true r)
  | None =>
    match x_Wait (x_waiting m) with
    | Some wait =>
      if negb ((status m =? StatusWaitingExternal)%string && (i_State i =? intentStateWaitingExternal)%string)
      then done (Err (EConflict "run_not_waiting_external")) else
      if bool_decide (workflows (i_Profile i) = None) then done (Err (EConflict "run_not_resumable")) else
      match Templates cfg !! run_Template (identity m) with
      | None => done (Err EUnknownTemplate)
      | Some tmpl =>
        match runtimeLimit (runtime_request seconds) tmpl with
        | Err x => done (Err (EValidation x))
        | Ok limit =>
          t <-! x_clock ;;
          let m := resumed m digest fingerprint (time_add t limit) in
          _ <-? remove_path ;;
          m <-? (if (ew_Phase wait =? "preparation")%string then
                   _ <-? remove_path ;;
                   _ <-? remove_path ;;
                   done (Ok (in_phase codexPhasePreparationCreate (on_base (at_container "")
                     (set_preparation (λ a, ("", PreparationContainerIDs a, PreparationAttempt a + 1)) m))))
                 else if (ew_Phase wait =? "delivery")%string then
                   done (Ok (in_phase codexPhaseDeliveryCreate (on_base (at_container "")
                     (set_delivery (λ a, ("", DeliveryContainerIDs a, DeliveryAttempt a + 1)) m))))
                 else done (Err EFile)) ;;
          _ <-? persistCodexIntent i m intentStateCreatePending ;;
          resumeCodexIssueWorkflow (with_metadata i intentStateCreatePending m) false
        end
      end
    | None => done (Err (EConflict "run_not_waiting_external"))
    end
  end.

(** ** Recovery, stops, deadlines *)

Definition forget : M unit := x_poke (set_memory None []).

(** The run's directory at the start of the process. *)
Definition reconcile_directory : M (result svc_error unit) :=
  r <-! shared_effect (λ k w, (w, if file_fails k then None else x_file w)) ;;
  match r with
  | None => done (Ok ())
  | Some m =>
    cleaned <-! (match issuer with
                 | None => done (Ok ())
                 | Some c => zoom_holder (Cleanup c (RunID (identity m)))
                 end) ;;
    match cleaned with
    | Err _ => done (Err EFile)
    | Ok _ =>
      _ <-? shared_effect (λ k w, (w, if fails (db_fault k) 0 then Err (EIntent IDatabase) else Ok ())) ;;
      _ <-! remember m ;;
      if negb (isTerminalStatus (status m)) then done (Ok ()) else
      present <-? shared_effect (λ k w, (w, if file_fails k then Err EFile else Ok (bool_decide (is_Some (x_result w))))) ;;
      if present then done (Ok ()) else persistTerminalResult m
    end
  end.

Definition Reconcile : M (result svc_error unit) :=
  _ <-! forget ;;
  _ <-? reconcile_directory ;;
  i <-? load_intent ;;
  if (i_State i =? intentStateTerminal)%string then done (Ok ()) else
  _ <-? resumeLaunchIntent i true ;;
  done (Ok ()).

Definition StopAgent : M outcome :=
  m <-? lookupRun ;;
  if negb (status m =? StatusRunning)%string then done (Ok (launchOutput (base m))) else
  f <-! finalizeTerminalRun finalizeReasonManualStop terminalSourceManualStop (base_update stop_update) ;;
  done match f with inl (_, Some x) => Err x | _ => outcome_of f end.

(** When the timer of a deadline fires. *)
Definition watchTimeout (deadline : time) : M unit :=
  r <-! lookupRun ;;
  match r with
  | Ok m =>
    if negb (status m =? StatusRunning)%string || negb (Deadline (identity m) =? deadline) then done () else
    _ <-! finalizeTerminalRun finalizeReasonDeadline terminalSourceTimedOut (base_update markTimedOut) ;; done ()
  | Err _ => done ()
  end.

(** ** Histories *)

(** A launch repeated under the run's key, the [n]th watcher's container
    stopping, a resumption, a restart, a stop, a deadline. *)
Inductive codex_call :=
| Replayed | Exited (n : nat) | Resumed (principal digest fingerprint : string) (seconds : Z) | Restarted
| Stopped | TimedOut (deadline : time).

Definition fire (n : nat) : M unit :=
  watchers <-! x_peek x_watchers ;;
  match watchers !! n with
  | None => done ()
  | Some id =>
    _ <-! x_poke (λ w, set_memory (x_run w) (take n watchers ++ drop (S n) watchers) w) ;;
    watcher id
  end.

Definition run_call (c : codex_call) : M unit :=
  match c with
  | Replayed =>
    i <-! load_intent ;;
    match i with Ok i => _ <-! resumeLaunchIntent i false ;; done () | Err _ => done () end
  | Exited n => fire n
  | Resumed principal digest fingerprint seconds => _ <-! ResumeRun principal digest fingerprint seconds ;; done ()
  | Restarted => _ <-! Reconcile ;; done ()
  | Stopped => _ <-! StopAgent ;; done ()
  | TimedOut deadline => watchTimeout deadline
  end.

(** The world when the intent of a new run has been created. *)
Definition created (principal profile : string) (m : codex_meta) (d : D) (h : H) : W :=
  {| x_intent := {| i_Principal := principal; i_Profile := profile; i_ConfigVersion := ConfigVersion cfg;
                    i_State := intentStateCreated; i_Metadata := m |};
     x_file := None; x_result := None; x_engine := d; x_holder := h; x_run := None; x_watchers := []; x_log := [] |}.

Definition world_after {A} (r : nat * W * option A) : W := r.1.2.
End Workflow.

Section Histories.
Context {D H : Type} `{DockerEngine D} `{DockerExec D} `{Svc : Service} `{Codex : CodexService H}.
Notation W := (codex_world D H).

(** Handlers that do not overlap: each begins when the one before has ended or
    died.  A process that dies loses its memory. *)
Definition undisturbed : Others D H := λ _ w, w.

Fixpoint history (k : nat) (w : W) (cs : list codex_call) : nat * W :=
  match cs with
  | [] => (k, w)
  | c :: cs =>
    match run_call (Env := undisturbed) c k w with
    | (k, w, Some _) => history k w cs
    | (k, w, None) => history k (set_memory None [] w) cs
    end
  end.

(** Handlers that overlap: before each effect of a handler there may be such a
    history of others, which have ended or stand still; so stops, deadlines and
    repeated launches fall into the midst of a watcher, and watchers into theirs.
    The process may die at any time. *)
Inductive overlapped : W → W → Prop :=
| ov_end w : overlapped w w
| ov_call (env : Others D H) c k w w' :
    (∀ j v, overlapped v (env j v)) → overlapped (world_after (run_call (Env := env) c k w)) w' → overlapped w w'
| ov_death w w' : overlapped (set_memory None [] w) w' → overlapped w w'.
End Histories.
