(* ===== verification/CodexOrder.v ===== *)
(** * The order of a Codex run

    Whatever dies, fails or is answered, and however the handlers of a run overlap,
    each phase has its cause: the model runs on a prepared workspace, the
    credential goes to its container, nothing is delivered that was not executed
    on the prepared head and verified, and a lost lease is recovered for that
    very candidate.  When the handlers do not overlap, the phases happen in order
    as well: the model never runs again once delivery has begun, only a validated
    recovery is delivered, and an ended run stays ended.  [alone] says which of
    the two is meant. *)

From stdpp Require Import pretty.
From S2P Require Import Prelude GoStrings GoTime Process Docker DockerExec Sandbox SandboxConfig LaunchIntents Launch TerminalResult CodexRun CodexWorkflow.
Open Scope string_scope.
Open Scope list_scope.
Open Scope Z_scope.

(** ** What a log may hold *)

(** The run has been saved in a state that ends it; as being delivered. *)
Definition over (l : list event) : Prop := ∃ m, Saved intentStateTerminal m ∈ l.
Definition past (l : list event) : Prop := ∃ st m s,
  Saved st m ∈ l ∧ st ≠ intentStateTerminal ∧ stage_of (phase m) = Some s ∧ (s = Delivery ∨ s = Recovery).
Definition asked (s : stage) (l : list event) : Prop := ∃ id, Asked s id ∈ l.
Definition executed (l : list event) : Prop := ∃ r, Executed r ∈ l.
Definition recovered (l : list event) : Prop := ∃ r, Recovered r ∈ l.

(** The validated candidate is that of the lease that was lost. *)
Definition same_candidate (r stale : recoveryValidationResult) : Prop :=
  rv_WinnerHeadSHA r = rv_WinnerHeadSHA stale ∧ rv_CandidateHeadSHA r = rv_CandidateHeadSHA stale ∧
  rv_ValidatedTreeSHA r = rv_CandidateTreeSHA stale ∧ rv_SealSHA256 r = rv_SealSHA256 stale.

Section Allowed.
Variable alone : bool.

(** [e] may happen after the events [l]. *)
Definition allowed (run : string) (e : event) (l : list event) : Prop :=
  match e with
  | Asked Preparation _ => alone = true → ¬ over l ∧ ¬ past l
  | Asked Execution id => (alone = true → ¬ over l ∧ ¬ past l) ∧ id = run +:+ "-exec" ∧ ∃ r, Prepared r ∈ l
  | Asked Recovery id => (alone = true → ¬ over l) ∧ executed l ∧ id = run +:+ "-recover-1" ∧ ∃ r, Stale r ∈ l
  | Asked Delivery _ => (alone = true → ¬ over l ∧ (asked Recovery l → recovered l)) ∧ executed l
  | Started _ => alone = true → ¬ over l
  | Issued | Injected _ => (alone = true → ¬ over l ∧ ¬ past l) ∧ asked Execution l
  | Prepared r => pr_RunID r = run
  | Executed r => ex_RunID r = run ∧ ∃ p, Prepared p ∈ l ∧ ex_WorkspaceHead r = pr_WorkspaceHead p
  | Stale r => rv_RunID r = run
  | Recovered r => rv_RunID r = run ∧ ∃ stale, Stale stale ∈ l ∧ same_candidate r stale
  | Saved st m => alone = true → (over l → st = intentStateTerminal) ∧
      (past l → st = intentStateTerminal ∨ stage_of (phase m) = Some Delivery ∨ stage_of (phase m) = Some Recovery)
  | Starved => False
  end.

Fixpoint ordered (run : string) (l : list event) : Prop :=
  match l with [] => True | e :: l => allowed run e l ∧ ordered run l end.
End Allowed.

(** ** What is known of the metadata *)

Record core := {
  k_run : string; k_provenance : option CodexProvenance; k_execution : string; k_recovery : string; k_count : Z;
  k_lease : string * string * string * string }.

Definition core_of (m : codex_meta) : core :=
  let a := x_attempts m in let c := x_recovery m in
  {| k_run := RunID (identity m); k_provenance := Provenance (x_term m); k_execution := ExecutionContainerID a;
     k_recovery := RecoveryContainerID a; k_count := RecoveryCount a;
     k_lease := (RecoveryWinnerHeadSHA c, RecoveryCandidateHeadSHA c, RecoveryCandidateTreeSHA c, RecoverySealSHA256 c) |}.

Definition lease_of (r : recoveryValidationResult) : string * string * string * string :=
  (rv_WinnerHeadSHA r, rv_CandidateHeadSHA r, rv_CandidateTreeSHA r, rv_SealSHA256 r).

(** The workspace is one that a preparation reported. *)
Definition headed (l : list event) (c : core) : Prop := ∃ p r,
  k_provenance c = Some p ∧ Prepared r ∈ l ∧ pr_WorkspaceHead r = WorkspaceHead p.

Definition facts (alone : bool) (s : stage) (l : list event) (c : core) : Prop :=
  match s with
  | Preparation => alone = true → ¬ past l ∧ ¬ asked Recovery l
  | Execution => (alone = true → ¬ past l ∧ ¬ asked Recovery l) ∧ headed l c
  | Recovery => executed l ∧ headed l c ∧ ∃ r, Stale r ∈ l ∧ lease_of r = k_lease c
  | Delivery => executed l ∧ headed l c ∧ (alone = true → asked Recovery l → recovered l)
  end.

Record grounded (alone : bool) (run : string) (s : stage) (l : list event) (c : core) : Prop := {
  g_run : k_run c = run;
  g_provenance : is_Some (k_provenance c);
  g_count : k_count c = 0 ∨ k_count c = 1;
  g_recovery : k_recovery c ≠ "" → k_count c = 1;
  g_execution : k_execution c ≠ "" → asked Execution l;
  g_facts : facts alone s l c }.

(** A run that waits is at the end of the phase it waits in. *)
Definition wait_ok (m : codex_meta) (state : string) : Prop :=
  match x_Wait (x_waiting m) with
  | None => True
  | Some w => status m = StatusWaitingExternal ∧ state = intentStateWaitingExternal ∧
      ((ew_Phase w = "preparation" ∧ phase m = codexPhasePreparationTerm) ∨
       (ew_Phase w = "delivery" ∧ phase m = codexPhaseDeliveryTerm))
  end.

Section Order.
Context {D H : Type} `{DockerEngine D} `{DockerExec D} `{Svc : Service} `{Codex : CodexService H} `{Env : Others D H}.
Variables (alone : bool) (run : string) (before : list event).
Notation W := (codex_world D H).
Implicit Types (w : W) (l : list event) (m : codex_meta) (i : codex_intent) (s : stage).

Record live_row (i : codex_intent) (l : list event) : Prop := {
  lr_state : i_State i ≠ intentStateTerminal;
  lr_status : isTerminalStatus (status (i_Metadata i)) = false;
  lr_wait : wait_ok (i_Metadata i) (i_State i);
  lr_grounded : ∃ s, stage_of (phase (i_Metadata i)) = Some s ∧ grounded alone run s l (core_of (i_Metadata i)) }.

Definition ended_row (i : codex_intent) : Prop :=
  i_State i = intentStateTerminal ∧ isTerminalStatus (status (i_Metadata i)) = true.

(** The log is in order, and has kept what it held at some time [before]. *)
Definition record_ok (l : list event) : Prop := ordered alone run l ∧ ∀ e, e ∈ before → e ∈ l.

Lemma record_cons e l : allowed alone run e l → record_ok l → record_ok (e :: l).
Proof. intros Ha [Ho Hb]. split; [done|]. intros e' ?. right. auto. Qed.

Definition Inv (w : W) : Prop :=
  record_ok (x_log w) ∧
  (ended_row (x_intent w) ∨ ((alone = true → ¬ over (x_log w)) ∧ live_row (x_intent w) (x_log w))).

(** A handler holds metadata that may be ahead of the row, or beside it. *)
Record active (s : stage) (m : codex_meta) (w : W) : Prop := {
  a_ordered : record_ok (x_log w);
  a_over : alone = true → ¬ over (x_log w);
  a_row : (alone = false ∧ ended_row (x_intent w)) ∨ live_row (x_intent w) (x_log w);
  a_stage : stage_of (phase m) = Some s;
  a_status : isTerminalStatus (status m) = false;
  a_wait : x_Wait (x_waiting m) = None;
  a_grounded : grounded alone run s (x_log w) (core_of m) }.

Lemma active_inv s m w : active s m w → Inv w.
Proof. intros []. split; [done|]. destruct a_row0 as [[_ ?]|?]; [by left|]. by right. Qed.

(** ** Effects the run's record does not notice *)

Definition still (w w' : W) : Prop := x_intent w' = x_intent w ∧ x_log w' = x_log w.

Definition grown (w w' : W) : Prop := ∀ e, e ∈ x_log w → e ∈ x_log w'.

(** What a step leaves of the record, when others may have added to it. *)
Record quiet (w w' : W) : Prop := {
  q_grows : Inv w → grown w w';
  q_inv : Inv w → Inv w';
  q_still : alone = true → still w w' }.

Lemma still_quiet w w' : still w w' → quiet w w'.
Proof. intros Hs. split; [intros _ e; by destruct Hs as [_ ->]| |done]. destruct Hs as [Hi Hl]. unfold Inv. by rewrite Hi, Hl. Qed.

Lemma quiet_inv w w' : quiet w w' → Inv w → Inv w'.
Proof. by intros []. Qed.

Lemma grounded_grows s l l' c : alone = false → (∀ e, e ∈ l → e ∈ l') → grounded alone run s l c → grounded alone run s l' c.
Proof.
  intros Ea Hl [Hr Hp Hc Hrec He Hf]. assert (∀ s, asked s l → asked s l') as Hask by (intros s' [id Hid]; exists id; auto).
  assert (executed l → executed l') as Hex by (intros [r ?]; exists r; auto).
  assert (headed l c → headed l' c) as Hh by (intros (p & r & ? & ? & ?); exists p, r; auto).
  split; auto. destruct s; cbn in *; [congruence| | |].
  - destruct Hf as [_ Hf]. split; [congruence|auto].
  - destruct Hf as (? & ? & r & ? & ?). split_and!; eauto.
  - destruct Hf as (? & ? & _). split_and!; auto; congruence.
Qed.

Lemma quiet_active s m w w' : quiet w w' → active s m w → active s m w'.
Proof.
  intros [Hg Hi Hs] Ha. pose proof (active_inv _ _ _ Ha) as Hw. destruct Ha, (Bool.bool_dec alone true) as [E|E%not_true_is_false].
  - destruct (Hs E) as [Ei El]. by split; rewrite ?Ei, ?El.
  - destruct (Hi Hw) as [Ho Hr]. split; try done; [congruence| |apply (grounded_grows s (x_log w)); [done|by apply Hg|done]].
    destruct Hr as [?|[_ ?]]; [by left|by right].
Qed.

Lemma active_move s s' m m' w :
  active s m w → stage_of (phase m') = Some s' → isTerminalStatus (status m') = false → x_Wait (x_waiting m') = None →
  grounded alone run s' (x_log w) (core_of m') → active s' m' w.
Proof. intros [] ????. by split. Qed.

(** The metadata changed in nothing that matters. *)
Lemma active_same s m m' w :
  active s m w → core_of m' = core_of m → stage_of (phase m') = Some s → isTerminalStatus (status m') = false →
  x_Wait (x_waiting m') = x_Wait (x_waiting m) → active s m' w.
Proof. intros Ha Hc Hs Ht Hw. eapply active_move; [done..| |]; [rewrite Hw|rewrite Hc]; apply Ha. Qed.

Definition silent {A} (h : prog W A) : Prop := ∀ k w, let '(_, w', _) := h k w in quiet w w'.

Lemma wp_silent {A} (h : prog W A) (I : W → Prop) (Q : A → W → Prop) w :
  silent h → (∀ w', quiet w w' → I w') → (∀ a w', quiet w w' → Q a w') → wp I h Q w.
Proof. intros Hs Hi Hq k. specialize (Hs k w). destruct (h k w) as [[k' w'] [a|]]; auto. Qed.

Lemma quiet_refl w : quiet w w.
Proof. by apply still_quiet. Qed.
Lemma quiet_trans w1 w2 w3 : quiet w1 w2 → quiet w2 w3 → quiet w1 w3.
Proof.
  intros [Hg1 Hi1 Hs1] [Hg2 Hi2 Hs2]. split; [intros Hi e He|auto|].
  - apply Hg2; [by apply Hi1|]. by apply Hg1.
  - intros E. destruct (Hs1 E), (Hs2 E). split; congruence. Qed.

(** The other handlers are such steps. *)
Hypothesis calm : ∀ k w, quiet w (others k w).

Lemma silent_done {A} (a : A) : silent (done a).
Proof. intros k w. apply quiet_refl. Qed.
Lemma silent_panic {A} : silent (panic (A := A)).
Proof. intros k w. apply quiet_refl. Qed.
Lemma silent_clock : silent x_clock.
Proof. intros k w. apply quiet_refl. Qed.
Lemma silent_shared {A} (h : prog W A) : (∀ k w, let '(_, w', _) := h k w in still w w') → silent (shared h).
Proof using calm.
  intros Hh k w. unfold shared. specialize (Hh k (others k w)). destruct (h k (others k w)) as [[k' w'] o].
  eapply quiet_trans; [apply calm|by apply still_quiet].
Qed.
Lemma silent_peek {A} (f : W → A) : silent (x_peek f).
Proof using calm. apply silent_shared. by intros k w. Qed.
Lemma silent_poke f : (∀ w, still w (f w)) → silent (x_poke f).
Proof using calm. intros Hf. apply silent_shared. intros k w. apply Hf. Qed.
Lemma silent_effect {A} (f : nat → W → W * A) : (∀ k w, still w (f k w).1) → silent (shared_effect f).
Proof using calm.
  intros Hf. apply silent_shared. intros k w. unfold effect. destruct (dies k); [done|]. specialize (Hf k w). by destruct (f k w).
Qed.
Lemma silent_andThen {A B} (h : prog W A) (f : A → prog W B) : silent h → (∀ a, silent (f a)) → silent (andThen h f).
Proof.
  intros Hh Hf k w. unfold andThen. specialize (Hh k w). destruct (h k w) as [[k' w'] [a|]]; [|done].
  specialize (Hf a k' w'). destruct (f a k' w') as [[k2 w2] o]. by eapply quiet_trans.
Qed.
Lemma silent_try {A B E} (h : prog W (result E A)) (f : A → prog W (result E B)) :
  silent h → (∀ a, silent (f a)) → silent (try h f).
Proof. intros Hh Hf. apply silent_andThen; [done|]. intros [a|e]; [apply Hf|apply silent_done]. Qed.
Lemma silent_engine {A} (p : prog D A) : silent (on_engine p).
Proof using calm. apply silent_shared. intros k w. unfold zoom. by destruct (p k (x_engine w)) as [[k' d] o]. Qed.
Lemma silent_zoom_holder {A} (p : prog H A) : silent (zoom_holder p).
Proof using calm. apply silent_shared. intros k w. unfold zoom. by destruct (p k (x_holder w)) as [[k' h] o]. Qed.
Lemma silent_holder {A} (p : CodexCredentialIssuer H → prog H A) : silent (on_holder p).
Proof. unfold on_holder. destruct issuer; [apply silent_zoom_holder|apply silent_panic]. Qed.
Lemma silent_inspect id : silent (inspect id).
Proof. apply silent_engine. Qed.
Lemma silent_accepted id : silent (accepted id).
Proof. apply silent_engine. Qed.
Lemma silent_await id : silent (await_acceptance id).
Proof. apply silent_engine. Qed.
Lemma silent_if {A} (b : bool) (h h' : prog W A) : silent h → silent h' → silent (if b then h else h').
Proof. by destruct b. Qed.

(** An effect after what the others did. *)
Lemma wp_shared_effect {A} (f : nat → W → W * A) (Q : A → W → Prop) w :
  Inv w → (∀ k w', quiet w w' → Q (f k w').2 (f k w').1) → wp Inv (shared_effect f) Q w.
Proof using calm.
  intros Hi HQ k. unfold shared_effect, shared, effect. pose proof (calm k w) as Hq. destruct (dies k); [by eapply quiet_inv|].
  specialize (HQ k _ Hq). by destruct (f k (others k w)).
Qed.

Lemma wp_x_peek {A} (f : W → A) (Q : A → W → Prop) w : (∀ w', quiet w w' → Q (f w') w') → wp Inv (x_peek f) Q w.
Proof using calm. intros HQ k. apply HQ, calm. Qed.
End Order.

Create HintDb silence.
#[export] Hint Resolve silent_done silent_panic silent_clock silent_peek silent_engine silent_inspect silent_accepted
  silent_await silent_zoom_holder silent_holder
  silent_andThen silent_try silent_if : silence.

Section Steps.
Context {D H : Type} `{DockerEngine D} `{DockerExec D} `{Svc : Service} `{Codex : CodexService H} `{Env : Others D H}.
Variables (alone : bool) (run : string) (before : list event).
Notation W := (codex_world D H).
Implicit Types (w : W) (l : list event) (m : codex_meta) (i : codex_intent) (s : stage).
Notation active := (active (D := D) (H := H) alone run before).
Notation Inv := (Inv (D := D) (H := H) alone run before).
Notation quiet := (quiet (D := D) (H := H) alone run before).
Notation silent := (silent (D := D) (H := H) alone run before).
Notation record_ok := (record_ok alone run before).
Hypothesis calm : ∀ k w, quiet w (others k w).

(** ** Events *)

Definition plain (e : event) : Prop := match e with Saved _ _ | Asked Recovery _ => False | _ => True end.
Definition unsaved (e : event) : Prop := match e with Saved _ _ => False | _ => True end.

Lemma over_cons e l : unsaved e → over (e :: l) → over l.
Proof. intros He [m Hm]. exists m. apply elem_of_cons in Hm as [<-|]; done. Qed.
Lemma past_cons e l : unsaved e → past (e :: l) → past l.
Proof. intros He (st & m & s & Hin & Hrest). exists st, m, s. split; [|done]. apply elem_of_cons in Hin as [<-|]; done. Qed.
Lemma asked_cons s e l : asked s l → asked s (e :: l).
Proof. intros [id Hid]. exists id. by right. Qed.
Lemma asked_recovery_cons e l : (∀ id, e ≠ Asked Recovery id) → asked Recovery (e :: l) → asked Recovery l.
Proof. intros He [id Hid]. exists id. apply elem_of_cons in Hid as [<-|]; [by destruct (He id)|done]. Qed.
Lemma executed_cons e l : executed l → executed (e :: l).
Proof. intros [r Hr]. exists r. by right. Qed.
Lemma recovered_cons e l : recovered l → recovered (e :: l).
Proof. intros [r Hr]. exists r. by right. Qed.
Lemma headed_cons e l c : headed l c → headed (e :: l) c.
Proof. intros (p & r & ? & ? & ?). exists p, r. split_and!; [done|by right|done]. Qed.

Lemma facts_cons e s l c :
  (alone = true → s = Preparation ∨ s = Execution → ¬ past (e :: l)) →
  (alone = true → (∀ id, e ≠ Asked Recovery id) ∨ s = Recovery) →
  facts alone s l c → facts alone s (e :: l) c.
Proof.
  intros Hp Ha. assert (alone = true → s ≠ Recovery → asked Recovery (e :: l) → asked Recovery l) as Hr.
  { intros E Hs. destruct (Ha E); [by apply asked_recovery_cons|done]. }
  destruct s; cbn.
  - intros Hn E. destruct (Hn E). auto.
  - intros [Hn Hh]. split; [|by apply headed_cons]. intros E. destruct (Hn E). auto.
  - intros (He & Hh & r & Hin & El). split_and!; [by apply executed_cons|by apply headed_cons|]. exists r. split; [by right|done].
  - intros (He & Hh & Hrec). split_and!; [by apply executed_cons|by apply headed_cons|]. intros E ?. apply recovered_cons; auto.
Qed.

Lemma grounded_cons e s l c :
  (alone = true → s = Preparation ∨ s = Execution → ¬ past (e :: l)) →
  (alone = true → (∀ id, e ≠ Asked Recovery id) ∨ s = Recovery) →
  grounded alone run s l c → grounded alone run s (e :: l) c.
Proof. intros Hp Ha []. split; try done; [intros ?; by apply asked_cons, g_execution0|by apply facts_cons]. Qed.

Lemma facts_past s l c : alone = true → s = Preparation ∨ s = Execution → facts alone s l c → ¬ past l.
Proof. intros E [-> | ->] Hf; [by destruct (Hf E)|]. destruct Hf as [Hf _]. by destruct (Hf E). Qed.

Lemma grounded_unsaved e s l c :
  unsaved e → (alone = true → (∀ id, e ≠ Asked Recovery id) ∨ s = Recovery) →
  grounded alone run s l c → grounded alone run s (e :: l) c.
Proof.
  intros Hu Ha Hg. apply grounded_cons; [|done..]. intros E Hs Hp%past_cons; [|done]. by apply (facts_past s l c E Hs (g_facts _ _ _ _ _ Hg)).
Qed.

(** The row's stage has to be that of a recovery that is asked for. *)
Lemma active_event e s m w : active s m w → unsaved e → allowed alone run e (x_log w) →
  (alone = true → (∀ id, e ≠ Asked Recovery id) ∨ (s = Recovery ∧ stage_of (phase (i_Metadata (x_intent w))) = Some Recovery)) →
  active s m (add_event e w).
Proof.
  intros [] Hu Hall Ha. split; try done.
  - by apply record_cons.
  - intros E Hov%over_cons; [|done]. by apply a_over0.
  - destruct a_row0 as [?|[? ? ? (s' & Hs' & Hg')]]; [by left|]. right. split; [done..|]. exists s'. split; [done|].
    apply grounded_unsaved; [done| |done]. intros E. destruct (Ha E) as [?|[_ Es]]; [by left|]. right. rewrite Hs' in Es. by injection Es.
  - apply grounded_unsaved; [done| |done]. intros E. destruct (Ha E) as [?|[? _]]; auto.
Qed.

Lemma wp_note e s m w (Q : unit → W → Prop) : active s m w → plain e → allowed alone run e (x_log w) →
  (∀ w', active s m w' → x_intent w' = x_intent w → x_log w' = e :: x_log w → Q () w') → wp Inv (note e) Q w.
Proof.
  intros Ha Hp Hall HQ. apply wp_poke, HQ; [|done..]. apply active_event; [done| |done|].
  - by destruct e.
  - intros _. left. intros id ->. done.
Qed.

(** ** Saving *)

Lemma saved_ok s m m' w i st : active s m w → st ≠ intentStateTerminal → core_of m' = core_of m →
  stage_of (phase m') = Some s → isTerminalStatus (status m') = false → wait_ok m' st →
  let l := Saved st m' :: x_log w in
  record_ok l ∧ (alone = true → ¬ over l) ∧ live_row alone run (with_metadata i st m') l ∧ grounded alone run s l (core_of m).
Proof using Type.
  intros [] Hst Hc Hs' Ht Hw l. pose proof (g_facts _ _ _ _ _ a_grounded0) as Hf.
  assert (grounded alone run s l (core_of m)) as Hg.
  { apply grounded_cons; [|by left|done]. intros E Hs (st' & m2 & s2 & Hin & Hst' & Hs2 & Hd).
    apply elem_of_cons in Hin as [[= -> ->]|Hin].
    - rewrite Hs' in Hs2. injection Hs2 as <-. destruct Hs as [-> | ->], Hd; done.
    - apply (facts_past s (x_log w) (core_of m) E Hs Hf). by exists st', m2, s2. }
  split_and!; [|intros E [m2 [[= <-]|Hin]%elem_of_cons]; [done|apply (a_over0 E); by exists m2]| |done].
  - apply record_cons; [|done]. intros E. split; [intros Hov; by destruct (a_over0 E)|]. intros Hp. right. rewrite Hs'.
    destruct s; [| |by right|by left]; exfalso; [by apply (facts_past Preparation _ _ E (or_introl eq_refl) Hf)|].
    by apply (facts_past Execution _ _ E (or_intror eq_refl) Hf).
  - split; [done|done|done|]. exists s. split; [done|]. by rewrite <- Hc in Hg.
Qed.

Lemma wait_ok_none m st : x_Wait (x_waiting m) = None → wait_ok m st.
Proof. intros E. unfold wait_ok. by rewrite E. Qed.

Lemma active_saved s m w i st : active s m w → st ≠ intentStateTerminal → active s m (set_intent (with_metadata i st m) w).
Proof using Type.
  intros Ha Hst. destruct (saved_ok s m m w i st Ha Hst eq_refl) as (? & ? & ? & ?); try apply Ha.
  { apply wait_ok_none, Ha. } split; try done; [by right|apply Ha..].
Qed.

Lemma inv_ended w i m : Inv w → isTerminalStatus (status m) = true → Inv (set_intent (with_metadata i intentStateTerminal m) w).
Proof using Type. intros [Ho _] Hm. split; [|by left]. apply record_cons; [|done]. intros _. split; [done|]. by left. Qed.

Lemma wp_saved s m w i st (Q : result svc_error unit → W → Prop) : active s m w → st ≠ intentStateTerminal →
  (∀ e w', active s m w' → grown w w' → Q (Err e) w') →
  (∀ w', active s m w' → i_Metadata (x_intent w') = m → grown w w' → Q (Ok ()) w') →
  wp Inv (save_intent (with_metadata i st m)) Q w.
Proof using calm.
  intros Ha Hst He HQ. pose proof (active_inv _ _ _ _ _ _ Ha) as Hi. apply wp_shared_effect; [done..|]. intros k w' Hq.
  pose proof (q_grows _ _ _ _ _ Hq Hi) as Hg. apply (quiet_active _ _ _ s m) in Hq; [|done].
  destruct (fails _ _); [by apply He|]. apply HQ; [by apply active_saved|done|]. intros e ?. right. by apply Hg.
Qed.

Lemma silent_file m : silent (writeMetadataFile (D := D) (H := H) m).
Proof. apply silent_effect; [done|]. intros k w. by destruct (file_fails k). Qed.
Lemma silent_remember m : silent (remember (D := D) (H := H) m).
Proof. by apply silent_poke. Qed.
Lemma silent_result m : silent (persistTerminalResult (D := D) (H := H) m).
Proof. apply silent_effect; [done|]. intros k w. by destruct (file_fails k). Qed.
End Steps.
#[export] Hint Resolve silent_file silent_remember silent_result : silence.

Section Handlers.
Context {D H : Type} `{DockerEngine D} `{DockerExec D} `{Svc : Service} `{Codex : CodexService H} `{Env : Others D H}.
Variables (alone : bool) (run : string) (before : list event).
Notation W := (codex_world D H).
Implicit Types (w : W) (l : list event) (m : codex_meta) (i : codex_intent) (s : stage).
Notation active := (active (D := D) (H := H) alone run before).
Notation Inv := (Inv (D := D) (H := H) alone run before).
Notation quiet := (quiet (D := D) (H := H) alone run before).
Notation silent := (silent (D := D) (H := H) alone run before).
Notation record_ok := (record_ok alone run before).
Hypothesis calm : ∀ k w, quiet w (others k w).

Definition safe {A} (h : prog W A) (w : W) : Prop := wp Inv h (λ _, Inv) w.

(** The row has the same metadata, when no other handler can have changed it. *)
Definition same_row w w' : Prop := alone = true → i_Metadata (x_intent w') = i_Metadata (x_intent w).
Definition row_is m w : Prop := alone = true → i_Metadata (x_intent w) = m.

Lemma wp_quietly_grown {A} s m (h : prog W A) (Q : A → W → Prop) w :
  silent h → active s m w → (∀ a w', active s m w' → same_row w w' → grown w w' → Q a w') → wp Inv h Q w.
Proof.
  intros Hs Ha HQ. pose proof (active_inv _ _ _ _ _ _ Ha) as Hi. apply (wp_silent alone run before); [done| |].
  - intros w' Hq. by eapply quiet_inv.
  - intros a w' Hq. apply HQ; [by eapply quiet_active| |by apply (q_grows _ _ _ _ _ Hq)].
    intros E. by destruct (q_still _ _ _ _ _ Hq E) as [-> _].
Qed.

Lemma wp_quietly {A} s m (h : prog W A) (Q : A → W → Prop) w :
  silent h → active s m w → (∀ a w', active s m w' → same_row w w' → Q a w') → wp Inv h Q w.
Proof. intros. eapply wp_quietly_grown; [done..|]. auto. Qed.

Lemma wp_persisted_grown s m w i st (Q : result svc_error unit → W → Prop) : active s m w → st ≠ intentStateTerminal →
  (∀ r w', active s m w' → (r = Ok () → row_is m w') → grown w w' → Q r w') →
  wp Inv (persistCodexIntent i m st) Q w.
Proof.
  intros Ha Hst HQ. unfold persistCodexIntent. eapply wp_try, wp_saved; [done..| |].
  - intros e w1 Ha1 Hg. by apply HQ.
  - intros w1 Ha1 Hm1 Hg1. apply wp_try. eapply wp_quietly_grown; [auto with silence|done|].
    intros [u|e] w2 Ha2 Hm2 Hg2; [|apply HQ; [done..|intros e' ?; auto]].
    apply wp_andThen. eapply wp_quietly_grown; [auto with silence|done|]. intros [] w3 Ha3 Hm3 Hg3.
    apply wp_done, HQ; [done| |intros e ?; auto]. intros _ E. by rewrite (Hm3 E), (Hm2 E).
Qed.

Lemma wp_persisted s m w i st (Q : result svc_error unit → W → Prop) : active s m w → st ≠ intentStateTerminal →
  (∀ r w', active s m w' → (r = Ok () → row_is m w') → Q r w') →
  wp Inv (persistCodexIntent i m st) Q w.
Proof. intros. eapply wp_persisted_grown; [done..|]. auto. Qed.

Lemma wp_then_persist {A} s m w i st (f : prog W (result svc_error A)) (Q : result svc_error A → W → Prop) :
  active s m w → st ≠ intentStateTerminal → (∀ e w', Inv w' → Q (Err e) w') →
  (∀ w', active s m w' → row_is m w' → wp Inv f Q w') →
  wp Inv (_ <-? persistCodexIntent i m st ;; f) Q w.
Proof.
  intros Ha Hst He HQ. eapply wp_try, wp_persisted; [done..|]. intros [[]|e] w' Ha' Hm'; [by apply HQ, Hm'|].
  eapply He, active_inv, Ha'.
Qed.

Lemma wp_then {A B} s m (h : prog W A) (f : A → prog W B) (Q : B → W → Prop) w :
  silent h → active s m w →
  (∀ a w', active s m w' → same_row w w' → wp Inv (f a) Q w') →
  wp Inv (andThen h f) Q w.
Proof. intros. by eapply wp_andThen, wp_quietly. Qed.

Lemma safe_silent {A} (h : prog W A) w : silent h → Inv w → safe h w.
Proof. intros Hs Hi. apply (wp_silent alone run before); [done|intros; by eapply quiet_inv..]. Qed.

(** ** Failing and waiting *)

Lemma silent_stop_phase m : silent (stopCurrentCodexPhase (D := D) (H := H) m).
Proof.
  unfold stopCurrentCodexPhase. destruct (_ =? _)%string; [auto with silence|]. apply silent_andThen; [by apply silent_engine|].
  intros r. apply silent_if; [auto with silence|]. apply silent_andThen; [by apply silent_engine|]. intros stopped.
  apply silent_andThen; [by apply silent_engine|]. intros verified. destruct stopped; apply silent_if; auto with silence.
Qed.

Lemma wp_quiet_inv {A} (h : prog W A) (Q : A → W → Prop) w :
  silent h → Inv w → (∀ a w', Inv w' → Q a w') → wp Inv h Q w.
Proof. intros Hs Hi HQ. apply (wp_silent alone run before); [done|intros; by eapply quiet_inv|]. intros a w' Hq. by apply HQ, (quiet_inv _ _ _ w). Qed.

Lemma safe_fail_inv m w i stg cause : Inv w → safe (failCodexIntent i m stg cause) w.
Proof.
  intros Hi. unfold failCodexIntent. apply wp_andThen, wp_quiet_inv; [apply silent_stop_phase|done|]. intros stopErr w1 Hi1.
  apply wp_andThen, wp_quiet_inv; [auto with silence|done|]. intros t w2 Hi2. cbv zeta.
  apply wp_andThen, wp_quiet_inv; [auto with silence|done|]. intros cleaned w3 Hi3.
  set (m' := with_error _ _). apply wp_try, wp_quiet_inv; [auto with silence|done|]. intros [u|e] w4 Hi4; [|done].
  apply wp_try, wp_shared_effect; [done..|]. intros k w4' Hq. apply (quiet_inv _ _ _ _ _ Hq) in Hi4. destruct (fails _ _); [done|].
  assert (Inv (set_intent (with_metadata i intentStateTerminal m') w4')) as Hi5 by by apply inv_ended.
  cbv beta iota. cbn [fst snd]. apply (safe_silent (_ <-? writeMetadataFile m' ;; _)); [|done].
  apply silent_try; [auto with silence|]. intros _. auto with silence.
Qed.

Lemma safe_fail s m w i stg cause : active s m w → safe (failCodexIntent i m stg cause) w.
Proof. intros Ha. eapply safe_fail_inv, active_inv, Ha. Qed.

Lemma safe_wait s m w i r : active s m w →
  (wt_Phase r = "preparation" ∧ phase m = codexPhasePreparationTerm ∨ wt_Phase r = "delivery" ∧ phase m = codexPhaseDeliveryTerm) →
  safe (waitForGitHub i m r) w.
Proof.
  intros Ha Hp. unfold waitForGitHub. eapply wp_then; [auto with silence|done|]. intros t w1 Ha1 _. cbv zeta.
  set (m' := on_base _ _). unfold persistCodexIntent.
  apply wp_try, wp_try, wp_shared_effect; [done|by eapply active_inv|]. intros k w1' Hq. apply (quiet_active _ _ _ s m) in Hq; [|done].
  destruct (saved_ok alone run before s m m' w1' i intentStateWaitingExternal Hq) as (? & ? & ? & _); try done; [apply Hq|].
  destruct (fails _ _); [by eapply active_inv|].
  cbv beta iota. cbn [fst snd]. set (w2 := set_intent _ _). assert (Inv w2) as Hi by (split; [done|by right]).
  apply (wp_quiet_inv (_ <-? writeMetadataFile m' ;; _)); [|done|].
  - apply silent_try; [auto with silence|]. intros _. auto with silence.
  - intros [[]|e] w3 Hi3; [by apply wp_done|done].
Qed.

(** ** The end of a run *)

Definition yields {X A} (P : A → Prop) (h : prog X A) : Prop :=
  ∀ k v, match h k v with (_, _, Some a) => P a | _ => True end.

Lemma yields_done {X A} (P : A → Prop) (a : A) : P a → yields P (done (W := X) a).
Proof. by intros Hp k w. Qed.
Lemma yields_andThen {X A B} (P : B → Prop) (h : prog X A) (f : A → prog X B) : (∀ a, yields P (f a)) → yields P (andThen h f).
Proof. intros Hf k w. unfold andThen. destruct (h k w) as [[k' w'] [a|]]; [apply Hf|done]. Qed.

Lemma wp_yields {A} (P : A → Prop) (h : prog W A) (Q : A → W → Prop) w :
  silent h → yields P h → Inv w → (∀ a w', P a → Inv w' → Q a w') → wp Inv h Q w.
Proof.
  intros Hs Hy Hi HQ k. specialize (Hs k w). specialize (Hy k w).
  destruct (h k w) as [[k' w'] [a|]]; apply (λ Hq, quiet_inv alone run before _ _ Hq Hi) in Hs; auto.
Qed.

Definition settled (b : RunMetadata) : Prop := m_Status b = StatusRunning ∨ isTerminalStatus (m_Status b) = true.

(** An update either leaves the run running or ends it. *)
Definition ends (u : codex_meta → prog W (codex_meta * option svc_error)) : Prop :=
  ∀ m, silent (u m) ∧ (status m = StatusRunning → yields (λ r, settled (base r.1)) (u m)).

Lemma exited_settled t b st : settled (finalizeExitedRun t b st).
Proof. right. unfold finalizeExitedRun. cbn. by destruct (bool_decide _). Qed.

Lemma ends_base u : (∀ b, m_Status b = StatusRunning → yields (λ r, settled r.1) (u b)) → ends (base_update u).
Proof.
  intros Hu m. split.
  - apply silent_andThen; [by apply silent_engine|]. intros [b captured]. auto with silence.
  - intros Hm k w. unfold base_update, on_engine, shared, andThen, zoom. specialize (Hu (base m) Hm k).
    match goal with |- context [u (base m) k ?x] => specialize (Hu x); destruct (u (base m) k x) as [[k' d] [[b c]|]] end; done.
Qed.

Lemma stop_ends : ends (base_update stop_update).
Proof.
  apply ends_base. intros b Hb. unfold stop_update. cbv zeta.
  repeat first [apply yields_andThen; intros ?|apply yields_done; first [by right|by left]|case_match].
Qed.

Lemma timeout_ends : ends (base_update markTimedOut).
Proof.
  apply ends_base. intros b Hb. unfold markTimedOut. cbv zeta.
  repeat first [apply yields_andThen; intros ?|apply yields_done; first [by right|by left]|apply yields_done, exited_settled|case_match].
Qed.

Lemma silent_lookup : silent (lookupRun (D := D) (H := H)).
Proof.
  apply silent_andThen; [auto with silence|]. intros [m|]; [auto with silence|]. apply silent_try; [by apply silent_effect|].
  intros m. apply silent_andThen; auto with silence.
Qed.

Lemma safe_finalize reason source u w : ends u → Inv w → safe (finalizeTerminalRun reason source u) w.
Proof.
  intros Hu Hi. apply wp_andThen, wp_quiet_inv; [apply silent_lookup|done|]. intros [m|x] w1 Hi1; [|by apply wp_done].
  destruct (String.eqb_spec (status m) StatusRunning) as [Hm|]; cbn [negb]; [|by apply wp_done].
  apply wp_andThen. destruct (Hu m) as [Hs Hy]. eapply wp_yields; [done|by apply Hy|done|]. clear Hs Hy.
  intros [next captured] w2 Hy Hi2. cbn [fst] in Hy.
  destruct (String.eqb_spec (status next) StatusRunning) as [|Hn]; [by apply wp_done|]. destruct Hy as [?|Hy]; [done|].
  cbv zeta. set (next' := on_base _ next). assert (isTerminalStatus (status next') = true) as Ht by done.
  apply wp_andThen, wp_quiet_inv; [destruct issuer; auto with silence|done|]. intros [u'|e] w3 Hi3; [|by apply wp_done].
  apply wp_andThen, wp_quiet_inv; [auto with silence|done|]. intros [u''|e] w4 Hi4; [|by apply wp_done].
  apply wp_andThen, (wp_x_peek alone run before); [done|]. intros w4' Hq. apply (quiet_inv _ _ _ _ _ Hq) in Hi4. clear Hq.
  destruct (match x_run w4' with Some _ => _ | None => _ end); [by apply wp_done|].
  apply wp_andThen, wp_quiet_inv; [auto with silence|done|]. intros [] w5 Hi5. apply wp_andThen, wp_try.
  apply wp_quiet_inv; [auto with silence|done|]. intros [[]|e] w6 Hi6; [|by apply wp_done].
  apply wp_shared_effect; [done..|]. intros k w6' Hq. apply (quiet_inv _ _ _ _ _ Hq) in Hi6.
  destruct (fails _ _); [by apply wp_done|]. cbn [fst snd]. apply wp_done.
  unfold metadata_state. change (m_Status (base next')) with (status next'). rewrite Ht. by apply inv_ended.
Qed.

Lemma exited_ends st : ends (λ m, t <-! x_clock ;; done (on_base (λ b, finalizeExitedRun t b st) m, None)).
Proof.
  intros m. split; [apply silent_andThen; auto with silence|]. intros _. apply yields_andThen. intros t.
  apply yields_done, exited_settled.
Qed.
End Handlers.
