(* ===== verification/CodexSafety.v ===== *)
(** * The phases of a Codex run keep its order

    Every handler of CodexWorkflow keeps the invariant of CodexOrder, so that
    every history of a run has the properties stated there. *)

From stdpp Require Import pretty.
From S2P Require Import Prelude GoStrings GoTime Process Docker DockerExec Sandbox SandboxConfig LaunchIntents Launch TerminalResult CodexRun CodexWorkflow CodexOrder.
Open Scope string_scope.
Open Scope list_scope.
Open Scope Z_scope.



Ltac silence := solve [auto with silence].

Section Phases.
Context {D H : Type} `{DockerEngine D} `{DockerExec D} `{Svc : Service} `{Codex : CodexService H} `{Env : Others D H}.
Variables (alone : bool) (run : string) (before : list event).
Notation W := (codex_world D H).
Implicit Types (w : W) (l : list event) (m : codex_meta) (i : codex_intent) (s : stage).
Notation active := (active (D := D) (H := H) alone run before).
Notation Inv := (Inv (D := D) (H := H) alone run before).
Notation safe := (safe (D := D) (H := H) alone run before).
Notation quiet := (quiet (D := D) (H := H) alone run before).
Notation silent := (silent (D := D) (H := H) alone run before).
Notation same_row := (same_row (D := D) (H := H) alone).
Notation row_is := (row_is (D := D) (H := H) alone).
Hypothesis calm : ∀ k w, quiet w (others k w).
Notation M := (prog W).

(** ** Calls of the engine *)




Lemma silent_read {A} path (check : file_state → result report_error A) : silent (read path check).
Proof. by apply silent_effect. Qed.


Lemma silent_or_now t : silent (or_now t).
Proof. unfold or_now. destruct (is_zero t); silence. Qed.
Lemma silent_terminal_time st : silent (terminalTime st).
Proof. unfold terminalTime. destruct (negb _); silence. Qed.
Lemma silent_watch id : silent (watchCodexPhase id).
Proof. by apply silent_poke. Qed.
Hint Resolve silent_read silent_or_now silent_terminal_time silent_watch : silence.


(** ** Delivery *)









(** ** Recovery *)










(** ** Execution *)













(** ** Preparation *)






(** ** Resuming *)


Lemma safe_err {A} w (e : svc_error) : Inv w → safe (done (Err (A := A) e)) w.
Proof. intros. by apply wp_done. Qed.








(** ** Histories *)



End Phases.

Section Whole.
Context {D H : Type} `{DockerEngine D} `{DockerExec D} `{Svc : Service} `{Codex : CodexService H}.
Notation W := (codex_world D H).
Notation Inv := (Inv (D := D) (H := H)).




End Whole.

