(* ===== verification/CodexSim.v ===== *)
(** * A Codex run on a concrete engine

    The engine of LaunchSim.v with commands in containers, the holder of
    CodexHolder.v, and a service whose containers report well: a run that goes
    through its phases, and histories in which it goes wrong. *)

From stdpp Require Import pretty.
From S2P Require Import Prelude GoStrings GoTime GoJson Process Docker DockerExec Sandbox SandboxConfig LaunchIntents Launch LaunchSim TerminalResult CodexHolder CodexRun CodexWorkflow CodexOrder CodexSafety.
Open Scope string_scope.
Open Scope list_scope.
Open Scope Z_scope.

(** ** The engine *)

(** The containers, and whether the credential has been accepted. *)
Definition on_sim {A} (call : sim → sim * A) (d : sim * bool) : (sim * bool) * A :=
  let '(s, a) := call d.1 in ((s, d.2), a).

(** A container exits with the code its name says. *)
Definition exec_engine (exits : string → Z) : DockerEngine (sim * bool) := {|
  e_image k d image := on_sim (λ s, e_image k s image) d;
  e_create k d name req := on_sim (λ s, e_create k s name req) d;
  e_inspect k d id := on_sim (λ s, let '(s, r) := e_inspect k s id in
    (s, match r with
        | Ok o => Ok {| ins_ID := ins_ID o; ins_Name := ins_Name o; ins_Image := ins_Image o; ins_Labels := ins_Labels o;
                        ins_Running := ins_Running o; ins_ExitCode := exits id; ins_StartedAt := ins_StartedAt o;
                        ins_FinishedAt := ins_FinishedAt o; ins_Platform := ins_Platform o |}
        | Err e => Err e
        end)) d;
  e_start k d id := on_sim (λ s, e_start k s id) d; e_stop k d id := on_sim (λ s, e_stop k s id) d;
  e_wait k d id := on_sim (λ s, sim_halt false (exits id) s id) d;
  e_remove k d id := on_sim (λ s, e_remove k s id) d |}.
Definition well : DockerEngine (sim * bool) := exec_engine (λ _, 0).
(** The first delivery finds that its lease is lost. *)
Definition stale_once : DockerEngine (sim * bool) :=
  exec_engine (λ id, if (id =? "sandbox-codex-run-1-deliver-1")%string then 1 else 0).

(** A written secret is accepted at once. *)
#[export] Instance sim_exec : DockerExec (sim * bool) := {
  e_exec_create k d id req := (d, Ok (List.hd "" (Cmd req)));
  e_exec_start k d id := (d, Ok ());
  e_exec_stream k d id contents := ((d.1, true), Ok ());
  e_exec_inspect k d id := (d, Ok (false, if (id =? "test")%string && negb d.2 then 1 else 0)) }.

(** ** The holder and the reports *)

Definition with_text {A} (p : prog CodexHolder.world (result CodexHolder.error A))
    : prog CodexHolder.world (result string A) :=
  r <-! p ;; done match r with Ok a => Ok a | Err _ => Err "credential" end.

Definition sample_holder : CodexCredentialIssuer CodexHolder.world :=
  let alive := λ _ : nat, false in
  {| Issue run key := with_text (CodexHolder.Issue alive alive alive sample_now marshal_ex run key);
     Consume run := with_text (CodexHolder.Consume alive alive alive sample_now run);
     Cleanup run := with_text (CodexHolder.Cleanup alive alive alive sample_now run) |}.

Definition sample_workflow : CodexIssueWorkflow :=
  {| PreparationTemplate := "worker"; ExecutionTemplate := "worker"; RecoveryTemplate := "worker";
     DeliveryTemplate := "worker"; w_ModelPolicy := "policy"; ModelProfile := "profile"; SandboxConfig.PromptRevision := "1" |}.
Definition sample_policy : SandboxConfig.ModelPolicy :=
  {| Version := "1"; Mappings := {["profile" := {| SandboxConfig.Model := "model"; SandboxConfig.Effort := "high" |}]} |}.

Definition sha (n : nat) : string := String.concat "" (repeat "a" n).

Definition run_id := "codex-run-1".
Definition run_repo := in_Repo sample_input.
Definition run_branch := "agent/codex".

Definition sample_prepared : preparationResult :=
  {| pr_Version := "codex-preparation-result/v1"; pr_Status := "prepared"; pr_RunID := run_id; pr_Repository := run_repo;
     pr_Branch := run_branch; pr_WorkspaceHead := sha 40; pr_RefsSHA256 := sha 64; pr_ManifestSHA256 := sha 64;
     pr_IssueNumber := 7; pr_SourceDeliveryID := "delivery-7"; pr_RepairPRNumber := 0; pr_RepairHeadRef := "";
     pr_RepairExpectedHeadSHA := "" |}.
Definition sample_executed : executionResult :=
  {| ex_Version := "codex-execution-result/v1"; ex_Status := "executed"; ex_RunID := run_id; ex_Repository := run_repo;
     ex_Branch := run_branch; ex_WorkspaceHead := sha 40; ex_RefsSHA256 := sha 64; ex_DiffSHA256 := sha 64;
     ex_ValidatedTreeSHA := sha 40; ex_FinalSHA256 := sha 64; ex_VerifySHA256 := sha 64; ex_Verification := "passed";
     ex_FinalSizeBytes := 10 |}.

(** A service whose digests are all alike. *)
Definition sample_svc : Service :=
  {| cfg := sample_config; has_capability_store := true; pattern := unit; re_compile _ := None;
     re_match _ _ := false; sha256_hex _ := sha 64; digestKey s := s; json_spec spec := ""; parse_time := sim_time;
     resolver := None; dies _ := false; now := sample_now; now2 := sample_now; random k := Some (byte_text k);
     cap_random := byte_text; db_fault _ := None; cap_fault _ := None; file_fails _ := false |}.

Definition sample_stale : recoveryValidationResult :=
  {| rv_Version := "codex-stale-lease/v3"; rv_Status := "stale_lease"; rv_RunID := run_id; rv_Repository := run_repo;
     rv_Branch := run_branch; rv_ExpectedHeadSHA := sha 40; rv_WinnerHeadSHA := sha 40; rv_CandidateHeadSHA := sha 40;
     rv_CandidateTreeSHA := sha 40; rv_ValidatedTreeSHA := sha 40; rv_VerifySHA256 := sha 64; rv_SealSHA256 := sha 64 |}.
Definition sample_recovered : recoveryValidationResult :=
  {| rv_Version := "codex-recovery-validation/v1"; rv_Status := "passed"; rv_RunID := run_id; rv_Repository := run_repo;
     rv_Branch := run_branch; rv_ExpectedHeadSHA := sha 40; rv_WinnerHeadSHA := sha 40; rv_CandidateHeadSHA := sha 40;
     rv_CandidateTreeSHA := sha 40; rv_ValidatedTreeSHA := sha 40; rv_VerifySHA256 := sha 64; rv_SealSHA256 := sha 64 |}.

(** The worker has written execution.json, or not yet. *)
Definition sample_codex (executed : bool) (holder : option (CodexCredentialIssuer CodexHolder.world))
    : CodexService CodexHolder.world :=
  {| workflows profile := Some sample_workflow;
     run_file k path :=
       if (path =? "work/execution/execution.json")%string && negb executed then Absent else Regular path true;
     run_dir k path := Some []; result_limit := 65536;
     parse_any s := Some (AObject []); marshal_any fs := "{}"; redact s := s;
     parse_preparation s := Some sample_prepared; parse_execution s := Some sample_executed;
     parse_failure s := None; parse_wait s := None; parse_recovery s :=
       Some (if (s =? "output/stale-lease.json")%string then sample_stale else sample_recovered); text_of causes := "failed";
     polls := 3; tries := 3; issuer := holder |}.

Definition sample_meta : codex_meta :=
  codex_launch sample_config sample_workflow sample_policy 7 "delivery-7"
    (launch_metadata sample_config "ops" "builder" "key-1" "fp-1" sample_input sample_template run_id run_branch
       (60 * second) None (sample_now 0)).

Definition sample_world : codex_world (sim * bool) CodexHolder.world :=
  created (Svc := sample_svc) "ops" "builder" sample_meta (∅, false) world_ex.

Definition ran (engine : DockerEngine (sim * bool)) (codex : CodexService CodexHolder.world) (cs : list codex_call) :=
  (@history _ _ engine sim_exec sample_svc codex 0%nat sample_world cs).2.

(** ** Histories *)

(** What was asked of the engine and the holder, oldest first. *)
Definition ask (e : event) : option string :=
  match e with
  | Asked s id => Some ("create " +:+ id) | Started id => Some ("start " +:+ id) | Issued => Some "issue"
  | Injected id => Some ("inject " +:+ id) | _ => None
  end.
Definition asked_of (w : codex_world (sim * bool) CodexHolder.world) : list string := omap ask (rev (x_log w)).
Definition row_of (w : codex_world (sim * bool) CodexHolder.world) : string * string * string :=
  let m := i_Metadata (x_intent w) in (phase m, status m, m_FinalizeReason (base m)).
Definition still_running (w : codex_world (sim * bool) CodexHolder.world) : list string :=
  omap (λ kv, if c_running kv.2 && (0 <? c_starts kv.2)%nat then Some kv.1 else None) (map_to_list (x_engine w).1).

Definition holding := Some sample_holder.
Definition prefix_ex : list string :=
  ["create codex-run-1-prep"; "start sandbox-codex-run-1-prep"; "create codex-run-1-exec";
   "start sandbox-codex-run-1-exec"; "issue"; "inject sandbox-codex-run-1-exec"].
Definition delivered_ex (n : string) : list string :=
  ["create codex-run-1-deliver-" +:+ n; "start sandbox-codex-run-1-deliver-" +:+ n].

Example run_completes :
  let w := ran well (sample_codex true holding) [Replayed; Exited 0; Exited 0; Exited 0] in
  asked_of w = prefix_ex ++ delivered_ex "1" ∧ row_of w = (codexPhaseDeliveryTerm, StatusCompleted, "worker_exit") ∧
  bool_decide (is_Some (x_result w)) = true ∧ x_watchers w = [].
Proof. by vm_compute. Qed.

Example lost_lease_recovered :
  let w := ran stale_once (sample_codex true holding) [Replayed; Exited 0; Exited 0; Exited 0; Exited 0; Exited 0] in
  asked_of w = prefix_ex ++ delivered_ex "1" ++
    ["create codex-run-1-recover-1"; "start sandbox-codex-run-1-recover-1"] ++ delivered_ex "2" ∧
  row_of w = (codexPhaseDeliveryTerm, StatusCompleted, "worker_exit").
Proof. by vm_compute. Qed.

(** A restart while the model runs adopts the container, and issues nothing. *)
Example restart_adopts :
  let w := ran well (sample_codex true holding) [Replayed; Exited 0; Restarted] in
  asked_of w = prefix_ex ∧ row_of w = (codexPhaseExecutionRunning, StatusRunning, "") ∧
  x_watchers w = ["sandbox-codex-run-1-exec"].
Proof. by vm_compute. Qed.

(** A launch repeated while the preparation runs watches it twice.  The second
    watcher, when it gets the run's lock after the first has started the
    execution, takes the exit it waited for for that of the execution: the run
    fails while the model works. *)
Example second_watcher_fails_run :
  let w := ran well (sample_codex false holding) [Replayed; Replayed; Exited 0; Exited 1] in
  asked_of w = prefix_ex ∧ row_of w = (codexPhaseExecutionTerm, StatusFailed, "codex_execution_verification_failed") ∧
  x_watchers w = ["sandbox-codex-run-1-exec"].
Proof. by vm_compute. Qed.

(** Once the worker has written its report, the delivery starts beside the
    execution's container. *)
Example second_watcher_delivers_early :
  let w := ran well (sample_codex true holding) [Replayed; Replayed; Exited 0; Exited 1] in
  asked_of w = prefix_ex ++ delivered_ex "1" ∧ row_of w = (codexPhaseDeliveryRunning, StatusRunning, "") ∧
  still_running w = ["sandbox-codex-run-1-exec"; "sandbox-codex-run-1-deliver-1"].
Proof. by vm_compute. Qed.

(** Without a holder the run is to fail; failing it dereferences the holder, and
    the process ends with nothing saved. *)
Example no_holder_ends_process :
  let r := @run_call _ _ well sim_exec sample_svc (sample_codex true None) undisturbed Replayed 0%nat sample_world in
  r.2 = None ∧ row_of r.1.2 = (codexPhasePreparationCreate, StatusPending, "").
Proof. by vm_compute. Qed.

(** ** Handlers that overlap *)

(** A stop before the [n]th effect of the handler. *)
Definition stopped_at (n : nat) : Others (sim * bool) CodexHolder.world := λ k w,
  if (k =? n)%nat
  then world_after (@run_call _ _ well sim_exec sample_svc (sample_codex true holding) undisturbed Stopped 1000%nat w) else w.

(** What is asked after the run has been saved as ended. *)
Fixpoint after_end (l : list event) : list event :=
  match l with
  | [] => []
  | Saved st _ :: l => if (st =? intentStateTerminal)%string then l else after_end l
  | _ :: l => after_end l
  end.

(** A stop takes no lock of the run.  One that comes between a watcher's look at
    the index and its next save ends the run, and the watcher goes on: it saves
    the run as running again, starts the model's container and gives it the
    credential. *)
Example stop_in_the_midst :
  let w := ran well (sample_codex true holding) [Replayed] in
  let w := world_after (@run_call _ _ well sim_exec sample_svc (sample_codex true holding) (stopped_at 103) (Exited 0) 100%nat w) in
  omap ask (after_end (rev (x_log w))) =
    ["create codex-run-1-exec"; "start sandbox-codex-run-1-exec"; "issue"; "inject sandbox-codex-run-1-exec"] ∧
  row_of w = (codexPhaseExecutionRunning, StatusRunning, "") ∧
  still_running w = ["sandbox-codex-run-1-exec"].
Proof. by vm_compute. Qed.


