(* ===== verification/OperatorApi.v ===== *)
(** * internal/sandbox/rest.go: the operators' HTTP API

    A request is authenticated by its token, authorized for its action and for
    the profile or the run it names, and turned into one call of the service.
    The service is an interface, [OperatorService]: looking up a run, and a call.
    Launch implements it ([launch_service], OperatorLaunch).  Headers, the query
    and the body are given as the handlers decode them; audit records and error
    texts are left out. *)

From S2P Require Import Prelude GoStrings GoTime GoJson Http Net Sandbox LaunchIntents Process Launch Parameters SandboxConfig.
Open Scope string_scope.
Open Scope list_scope.
Open Scope Z_scope.

(** ** Requests *)

(** A JSON value of an override: an integer as written, or a list of strings. *)
Inductive raw_value := RNull | RString (s : string) | RInt (n : Z) | RStrings (l : list (option string)) | ROther.

(** The body as map[string]json.RawMessage: [parameters] and [overrides] apart
    from the other fields, each decoded as an object if it is one. *)
Record launch_body := {
  b_fields : gmap string raw_value; b_parameters : option (option (gmap string value));
  b_overrides : option (option (gmap string raw_value)) }.

(** [a_Canonical] is what canonicalizeRequestBody gives, [a_Object] its fields. *)
Record api_body := {
  a_Empty : bool; a_Launch : body launch_body; a_Canonical : option string; a_Object : gmap string raw_value }.

Record api_request := {
  q_Method : string; q_Path : string; q_SandboxToken : string; q_Authorization : string;
  q_IdempotencyKey : list string; q_MaxBytes : string; q_Body : api_body }.

(** ** The service behind the API *)

Record LaunchPreview := {
  pv_ConfigVersion : string; pv_Request : LaunchAgentInput; pv_Contract : string; pv_Template : Template;
  pv_RuntimeSeconds : Z }.

Inductive call :=
| CLaunch (principal profile rawKey fingerprint : string) (i : LaunchAgentInput)
| CDryRun (i : LaunchAgentInput) | CPreview (i : LaunchAgentInput)
| CList (principal : string) (profiles : list string) (profileScope : bool)
| CStatus (runID : string) | CLogs (runID : string) (maxBytes : Z) | CTerminalResult (runID : string)
| CArtifacts (runID : string) | CLessons (runID : string) | CStop (runID : string) | CCleanup (runID : string)
| CResume (principal rawKey fingerprint runID : string) (seconds : Z).

Inductive answer :=
| ALaunch (o : LaunchAgentOutput) | APreview (p : LaunchPreview) | ARuns (l : list RunMetadata)
| AStatus (m : RunMetadata) | AText (s : string).

Class OperatorService (W : Type) := {
  lookup_run : string → prog W (result svc_error RunMetadata);
  invoke : call → prog W (result svc_error answer);
  handleRelease : api_request → string → prog W (response string) }.

(** ** Responses *)

Record launchProfileSummary := {
  sm_Name : string; sm_Request : LaunchAgentInput; sm_AllowOverrides : list string;
  sm_Parameters : gmap string ParameterDeclaration; sm_MaxConcurrentRuns : Z; sm_RequireIdempotencyKey : bool }.

Inductive api_reply :=
| RError (code : string)
| RProfiles (l : list launchProfileSummary)
| RPreview (a : answer) (profile principal : string) (actions : list string)
| RAnswer (a : answer)
| RRelease (text : string).

Definition writeRESTCodeError (st : Z) (code : string) : response api_reply := {| status := st; reply := RError code |}.

Definition writeRESTError (st : Z) : response api_reply :=
  writeRESTCodeError st
    (if st =? 400 then "validation_error" else if st =? 401 then "authentication_required"
     else if st =? 403 then "authorization_denied" else if st =? 404 then "not_found"
     else if st =? 405 then "method_not_allowed" else if st =? 500 then "internal_error" else "request_failed").

Definition ok_reply (r : api_reply) : response api_reply := {| status := 200; reply := r |}.

(** ** Requests' tokens and keys *)

Definition bearerToken (r : api_request) : string :=
  let got := trim_space (q_SandboxToken r) in
  if negb (got =? "")%string then got
  else if has_prefix "bearer " (to_lower (q_Authorization r)) then trim_space (sdrop 7 (q_Authorization r))
  else "".

Definition secureTokenEqual (sha256 : string → string) (got want : string) : bool :=
  if (got =? "")%string || (want =? "")%string then false else (sha256 got =? sha256 want)%string.

Inductive key_error := KMissing | KInvalid.

Definition visible (c : ascii) : bool := in_range 33 126 c.

Definition parseIdempotencyKey (r : api_request) (required : bool) : result key_error string :=
  match q_IdempotencyKey r with
  | [] => if required then Err KMissing else Ok ""
  | [v] =>
    fail_if (String.length v <? 1)%nat || (255 <? String.length v)%nat with KInvalid ;;
    fail_if negb (all_chars visible v) with KInvalid ;;
    Ok v
  | _ => Err KInvalid
  end.

Definition key_refused (e : key_error) : response api_reply :=
  match e with
  | KMissing => writeRESTCodeError 428 "idempotency_key_required"
  | KInvalid => writeRESTCodeError 400 "invalid_idempotency_key"
  end.

Definition newline : string := String "010" "".
Definition requestFingerprint (sha256_hex : string → string) (canonical : string) : string :=
  sha256_hex ("sandbox-rest-launch:v1" +:+ newline +:+ canonical).
Definition resumeRequestFingerprint (sha256_hex : string → string) (canonical : string) : string :=
  sha256_hex ("sandbox-rest-resume:v1" +:+ newline +:+ canonical).

(** ** Launch requests *)

(** json.Unmarshal of a field; null leaves the zero value of a new structure. *)
Definition string_field (raw : gmap string raw_value) (field base : string) : option string :=
  match raw !! field with
  | None => Some base
  | Some RNull => Some ""
  | Some (RString s) => Some s
  | Some _ => None
  end.

Definition int_field (raw : gmap string raw_value) (field : string) (base : Z) : option Z :=
  match raw !! field with
  | None => Some base
  | Some RNull => Some 0
  | Some (RInt n) => if (min_int64 <=? n) && (n <=? max_int64) then Some n else None
  | Some _ => None
  end.

Definition strings_field (raw : gmap string raw_value) (field : string) (base : list string) : option (list string) :=
  match raw !! field with
  | None => Some base
  | Some RNull => Some []
  | Some (RStrings l) => Some (map (default "") l)
  | Some _ => None
  end.

Definition overridable (p : LaunchProfile) (field : string) : bool :=
  launchOverrideFieldAllowed field && contains (AllowOverrides p) field.

(** The profile's own request has no parameters, profile or work item. *)
Definition applyLaunchProfileOverrides (p : LaunchProfile) (raw : gmap string raw_value) : option LaunchAgentInput :=
  let base := lp_input p in
  if negb (forallb (λ '(field, _), overridable p field) (map_to_list raw)) then None else
  template ← string_field raw "template" (in_Template base);
  task ← string_field raw "task" (in_Task base);
  repo ← string_field raw "repo" (in_Repo base);
  base_branch ← string_field raw "base_branch" (in_BaseBranch base);
  branch ← string_field raw "branch" (in_Branch base);
  minutes ← int_field raw "max_runtime_minutes" (in_MaxRuntimeMinutes base);
  seconds ← int_field raw "max_runtime_seconds" (in_MaxRuntimeSeconds base);
  wanted ← strings_field raw "deliverables" (in_Deliverables base);
  focus ← string_field raw "focus" (in_Focus base);
  let minutes := if bool_decide (is_Some (raw !! "max_runtime_seconds")) then 0 else minutes in
  let seconds := if bool_decide (is_Some (raw !! "max_runtime_minutes")) then 0 else seconds in
  Some {| in_Template := template; in_Task := task; in_VerificationTask := in_VerificationTask base; in_Repo := repo;
          in_BaseBranch := base_branch; in_Branch := branch; in_MaxRuntimeMinutes := minutes;
          in_MaxRuntimeSeconds := seconds; in_Deliverables := wanted; in_Focus := focus; in_Parameters := ∅;
          in_Profile := ""; in_WorkItem := "" |}.

(** A resolved parameter as the launch's input keeps it, in JSON. *)
Definition param_text (v : value) : string :=
  match v with
  | VString s => json_string s
  | VInt n => json_int n
  | VBool b => if b then "true" else "false"
  | VStrings l => json_strings l
  | _ => "null"
  end.

Definition with_parameters (i : LaunchAgentInput) (params : gmap string value) : LaunchAgentInput :=
  {| in_Template := in_Template i; in_Task := in_Task i; in_VerificationTask := in_VerificationTask i;
     in_Repo := in_Repo i; in_BaseBranch := in_BaseBranch i; in_Branch := in_Branch i;
     in_MaxRuntimeMinutes := in_MaxRuntimeMinutes i; in_MaxRuntimeSeconds := in_MaxRuntimeSeconds i;
     in_Deliverables := in_Deliverables i; in_Focus := in_Focus i; in_Parameters := param_text <$> params;
     in_Profile := in_Profile i; in_WorkItem := in_WorkItem i |}.

Definition with_profile (i : LaunchAgentInput) (profile workItem : string) : LaunchAgentInput :=
  {| in_Template := in_Template i; in_Task := in_Task i; in_VerificationTask := in_VerificationTask i;
     in_Repo := in_Repo i; in_BaseBranch := in_BaseBranch i; in_Branch := in_Branch i;
     in_MaxRuntimeMinutes := in_MaxRuntimeMinutes i; in_MaxRuntimeSeconds := in_MaxRuntimeSeconds i;
     in_Deliverables := in_Deliverables i; in_Focus := in_Focus i; in_Parameters := in_Parameters i;
     in_Profile := profile; in_WorkItem := workItem |}.

Section Resolve.
Variable re_compile : string → option (string → bool).

Definition resolve_params (p : LaunchProfile) (submitted : gmap string value) : option (gmap string value) :=
  match resolveProfileParameters re_compile (lp_Parameters p) (bool_decide (is_Some (lp_Codex p))) submitted with
  | Ok params => Some params
  | Err _ => None
  end.

Definition defaults_only (p : LaunchProfile) : option (LaunchAgentInput * gmap string value) :=
  params ← resolve_params p ∅; Some (with_parameters (lp_input p) params, params).

Definition resolveLaunchProfileRequest (p : LaunchProfile) (b : api_body) : option (LaunchAgentInput * gmap string value) :=
  if a_Empty b then defaults_only p else
  match a_Launch b with
  | Json l =>
    if bool_decide (b_fields l = ∅) && negb (bool_decide (is_Some (b_parameters l)))
       && negb (bool_decide (is_Some (b_overrides l))) then defaults_only p else
    match b_parameters l with
    | Some submitted =>
      submitted ← submitted;
      params ← resolve_params p submitted;
      (** An overrides object beside the parameters is an unsupported field. *)
      if bool_decide (is_Some (b_overrides l)) then None else
      i ← applyLaunchProfileOverrides p (b_fields l);
      Some (with_parameters i params, params)
    | None =>
      if negb (bool_decide (lp_Parameters p = ∅)) then None else
      raw ← match b_overrides l with
            | Some overrides => if negb (bool_decide (b_fields l = ∅)) then None else overrides
            | None => Some (b_fields l)
            end;
      i ← applyLaunchProfileOverrides p raw;
      params ← resolve_params p ∅;
      Some (with_parameters i params, params)
    end
  | _ => None
  end.

Definition work_item (i : LaunchAgentInput) (params : gmap string value) : string :=
  match params !! "work_item_id" with Some (VString s) => s | _ => in_WorkItem i end.
End Resolve.

(** ** The handlers *)

Record operatorIdentity := { Name : string; id_Principal : OperatorPrincipal }.

Section Handlers.
Context {W : Type} `{OperatorService W}.
Variable c : config.
(** regexp.Compile, SHA-256 in hexadecimal, and the order in which range visits the principals. *)
Variable re_compile : string → option (string → bool).
Variable sha256_hex : string → string.
Variable principals : list (string * OperatorPrincipal).

Notation M := (prog W).

Fixpoint first_principal (token : string) (l : list (string * OperatorPrincipal)) : option operatorIdentity :=
  match l with
  | [] => None
  | (name, p) :: l =>
    if secureTokenEqual sha256_hex token (Token p) then Some {| Name := name; id_Principal := p |}
    else first_principal token l
  end.

Definition authenticate (r : api_request) (k : operatorIdentity → M (response api_reply)) : M (response api_reply) :=
  match first_principal (bearerToken r) principals with
  | Some id => k id
  | None => done (writeRESTError 401)
  end.

Definition authorizeAction (id : operatorIdentity) (action : string) (k : M (response api_reply)) : M (response api_reply) :=
  if contains (AllowedActions (id_Principal id)) action then k else done (writeRESTError 403).

Definition authorizeProfile (id : operatorIdentity) (profile action : string) (k : LaunchProfile → M (response api_reply))
    : M (response api_reply) :=
  if negb (contains (AllowedActions (id_Principal id)) action) || negb (contains (AllowedProfiles (id_Principal id)) profile)
  then done (writeRESTError 403)
  else match LaunchProfiles c !! profile with
       | Some p => k p
       | None => done (writeRESTError 404)
       end.

Definition may_see (id : operatorIdentity) (m : RunMetadata) : bool :=
  contains (AllowedProfiles (id_Principal id)) (Profile (m_run m))
  && ((RunScope (id_Principal id) =? "profile")%string || (Principal (m_run m) =? Name id)%string).

Definition authorizeRunProfile (id : operatorIdentity) (runID : string) (k : M (response api_reply)) : M (response api_reply) :=
  found <-! lookup_run runID ;;
  match found with
  | Err _ => done (writeRESTError 404)
  | Ok m => if may_see id m then k else done (writeRESTCodeError 404 "not_found")
  end.

(** [method_is]: any other method is refused first. *)
Definition method_is (r : api_request) (method : string) (k : M (response api_reply)) : M (response api_reply) :=
  if (q_Method r =? method)%string then k else done (writeRESTError 405).

(** The authenticated, authorized call on a run that most endpoints are. *)
Definition on_run (r : api_request) (action runID : string) (k : operatorIdentity → M (response api_reply)) : M (response api_reply) :=
  authenticate r (λ id, authorizeAction id action (authorizeRunProfile id runID (k id))).

Definition answer_or (st : Z) (a : result svc_error answer) : response api_reply :=
  match a with Ok a => ok_reply (RAnswer a) | Err _ => writeRESTError st end.

Fixpoint summaries (names : list string) : list launchProfileSummary :=
  match names with
  | [] => []
  | name :: names =>
    match LaunchProfiles c !! name with
    | None => summaries names
    | Some p => {| sm_Name := name; sm_Request := lp_input p; sm_AllowOverrides := AllowOverrides p;
                   sm_Parameters := lp_Parameters p; sm_MaxConcurrentRuns := lp_MaxConcurrentRuns p;
                   sm_RequireIdempotencyKey := RequireIdempotencyKey p |} :: summaries names
    end
  end.

Definition handleLaunchProfiles (r : api_request) : M (response api_reply) :=
  method_is r "GET" (authenticate r (λ id, done (ok_reply (RProfiles (summaries (AllowedProfiles (id_Principal id))))))).

(** The key and the fingerprint of a launch; none for a dry run or a preview. *)
Definition launch_key (r : api_request) (p : LaunchProfile) (action : string) : result (response api_reply) (string * string) :=
  if negb (action =? "launch")%string then Ok ("", "") else
  match parseIdempotencyKey r (RequireIdempotencyKey p) with
  | Err e => Err (key_refused e)
  | Ok key =>
    if (key =? "")%string then Ok ("", "") else
    match a_Canonical (q_Body r) with
    | None => Err (writeRESTCodeError 400 "validation_error")
    | Some canonical => Ok (key, requestFingerprint sha256_hex canonical)
    end
  end.

(** The intentConflictError a failed call carries, if any. *)
Definition conflict_code (e : svc_error) : option string :=
  match e with EConflict code => Some code | EIntent IBusy => Some "profile_busy" | _ => None end.

Definition launch_reply (action : string) (a : result svc_error answer) : response api_reply :=
  match a with
  | Ok a => ok_reply (RAnswer a)
  | Err e =>
    match conflict_code e with
    | Some code => writeRESTCodeError 409 code
    | None =>
      if negb (action =? "launch")%string || match e with EValidation _ => true | _ => false end
      then writeRESTCodeError 400 "validation_error"
      else writeRESTCodeError 500 "launch_failed"
    end
  end.

Definition handleLaunchProfileAction (r : api_request) (rest : string) : M (response api_reply) :=
  match split_slash (trim_slashes rest) with
  | [name; action] =>
    if negb (existsb (String.eqb action) ["launch"; "dry-run"; "preview"]) then done (writeRESTError 404) else
    method_is r "POST" (authenticate r (λ id,
      authorizeProfile id name (if (action =? "launch")%string then "launch" else "dry_run") (λ p,
        match launch_key r p action with
        | Err refusal => done refusal
        | Ok (key, fingerprint) =>
          match resolveLaunchProfileRequest re_compile p (q_Body r) with
          | None => done (writeRESTError 400)
          | Some (i, params) =>
            let i := with_profile i name (work_item i params) in
            if (action =? "preview")%string then
              a <-! invoke (CPreview i) ;;
              done match a with
                   | Ok a => ok_reply (RPreview a name (Name id) (AllowedActions (id_Principal id)))
                   | Err _ => writeRESTError 403
                   end
            else
              a <-! invoke (if (action =? "dry-run")%string then CDryRun i
                            else CLaunch (Name id) name key fingerprint i) ;;
              done (launch_reply action a)
          end
        end)))
  | _ => done (writeRESTError 404)
  end.

Definition handleRuns (r : api_request) : M (response api_reply) :=
  method_is r "GET" (authenticate r (λ id, authorizeAction id "status" (
    a <-! invoke (CList (Name id) (AllowedProfiles (id_Principal id)) (RunScope (id_Principal id) =? "profile")%string) ;;
    done (answer_or 500 a)))).

Definition resume_seconds (raw : gmap string raw_value) : option Z :=
  if negb (size raw =? 1)%nat then None else
  match raw !! "max_runtime_seconds" with
  | Some (RInt n) => if (min_int64 <=? n) && (n <=? max_int64) && negb (n <? 1) then Some n else None
  | _ => None
  end.

Definition resume_reply (a : result svc_error answer) : response api_reply :=
  match a with
  | Ok a => ok_reply (RAnswer a)
  | Err e =>
    match conflict_code e with
    | Some code => writeRESTCodeError (if (code =? "run_not_found")%string then 404 else 409) code
    | None => match e with
              | EValidation _ => writeRESTCodeError 400 "validation_error"
              | _ => writeRESTCodeError 500 "resume_failed"
              end
    end
  end.

Definition runResume (r : api_request) (runID : string) : M (response api_reply) :=
  method_is r "POST" (on_run r "launch" runID (λ id,
    match parseIdempotencyKey r true with
    | Err e => done (key_refused e)
    | Ok key =>
      match a_Canonical (q_Body r) with
      | None => done (writeRESTCodeError 400 "validation_error")
      | Some canonical =>
        match resume_seconds (a_Object (q_Body r)) with
        | None => done (writeRESTCodeError 400 "validation_error")
        | Some seconds =>
          a <-! invoke (CResume (Name id) key (resumeRequestFingerprint sha256_hex canonical) runID seconds) ;;
          done (resume_reply a)
        end
      end
    end)).

Definition runTerminalResult (r : api_request) (runID : string) : M (response api_reply) :=
  method_is r "GET" (on_run r "terminal_result" runID (λ _, a <-! invoke (CTerminalResult runID) ;; done (answer_or 404 a))).

Definition runStatus (r : api_request) (runID : string) : M (response api_reply) :=
  on_run r "status" runID (λ _, a <-! invoke (CStatus runID) ;; done (answer_or 404 a)).

Definition runLogs (r : api_request) (runID : string) : M (response api_reply) :=
  method_is r "GET" (on_run r "logs" runID (λ _,
    let maxBytes := if (q_MaxBytes r =? "")%string then Some 0 else
                    match Atoi (q_MaxBytes r) with Some n => if n <? 0 then None else Some n | None => None end in
    match maxBytes with
    | None => done (writeRESTError 400)
    | Some n => a <-! invoke (CLogs runID n) ;; done (answer_or 404 a)
    end)).

Definition runCollection (r : api_request) (runID kind : string) : M (response api_reply) :=
  method_is r "GET" (on_run r "artifacts" runID (λ _,
    a <-! invoke (if (kind =? "lessons")%string then CLessons runID else CArtifacts runID) ;; done (answer_or 404 a))).

Definition runMutation (r : api_request) (runID action : string) : M (response api_reply) :=
  method_is r "POST" (on_run r action runID (λ _,
    a <-! invoke (if (action =? "cleanup")%string then CCleanup runID else CStop runID) ;; done (answer_or 404 a))).

Definition handleRunAction (r : api_request) (rest : string) : M (response api_reply) :=
  match split_slash (trim_slashes rest) with
  | "" :: _ | [] => done (writeRESTError 404)
  | [runID] => method_is r "GET" (runStatus r runID)
  | [runID; action] =>
    if (action =? "resume")%string then runResume r runID
    else if (action =? "terminal-result")%string then runTerminalResult r runID
    else if (action =? "logs")%string then runLogs r runID
    else if (action =? "artifacts")%string then runCollection r runID "artifacts"
    else if (action =? "lessons")%string then runCollection r runID "lessons"
    else if (action =? "stop")%string then runMutation r runID "stop"
    else if (action =? "cleanup")%string then runMutation r runID "cleanup"
    else done (writeRESTError 404)
  | _ => done (writeRESTError 404)
  end.

Definition ServeHTTP (r : api_request) : M (response api_reply) :=
  let path := trim_slashes (trim_prefix "/v1/" (q_Path r)) in
  if (path =? "launch-profiles")%string then handleLaunchProfiles r
  else if has_prefix "launch-profiles/" path then handleLaunchProfileAction r (trim_prefix "launch-profiles/" path)
  else if (path =? "runs")%string then handleRuns r
  else if has_prefix "runs/" path then handleRunAction r (trim_prefix "runs/" path)
  else if (path =? "releases")%string || has_prefix "releases/" path then
    a <-! handleRelease r (trim_prefix "releases/" path) ;; done {| status := status a; reply := RRelease (reply a) |}
  else done (writeRESTError 404).
End Handlers.
