(* ===== verification/ReleaseApi.v ===== *)
(** * internal/sandbox: the release registry's HTTP routes

    release_rest.go and promoter_auth.go over the registry (Release), the image
    archives (ReleaseArtifact) and Docker.  Other requests may change the
    registry between two transactions of a request: [before k] are the calls
    they make before its effect [k].  The history of the calls is kept beside
    the registry, with a mark on those of the request itself. *)

From S2P Require Import Prelude GoStrings GoTime Http Net Process Sandbox Docker Release ReleaseArtifact SandboxConfig OperatorApi.
Open Scope string_scope.
Open Scope list_scope.
Open Scope Z_scope.

(** ** fmt.Sscan of an int64 *)

Definition digit_value (c : ascii) : option Z :=
  let n := Z.of_nat (nat_of_ascii c) in
  if is_digit c then Some (n - 48)
  else if in_range 97 102 c then Some (n - 87)
  else if in_range 65 70 c then Some (n - 55)
  else None.

(** The digits of the base that follow, and their value; an underscore stands
    between two digits, or after a prefix ([saw]: the last character counts as a
    digit).  [None] at an underscore that stands elsewhere, or without a digit. *)
Fixpoint scan_digits (base : Z) (saw some : bool) (acc : Z) (l : list ascii) : option Z :=
  let finish := if saw && some then Some acc else None in
  match l with
  | [] => finish
  | ch :: l =>
    if Ascii.eqb ch "_" then if saw then scan_digits base false some acc l else None else
    match digit_value ch with
    | Some d => if d <? base then scan_digits base true true (acc * base + d) l else finish
    | None => finish
    end
  end.

Definition scan_unsigned (l : list ascii) : option Z :=
  match l with
  | "0"%char :: ("b" | "B")%char :: l => scan_digits 2 true false 0 l
  | "0"%char :: ("o" | "O")%char :: l => scan_digits 8 true false 0 l
  | "0"%char :: ("x" | "X")%char :: l => scan_digits 16 true false 0 l
  | "0"%char :: _ => scan_digits 8 false false 0 l
  | _ => scan_digits 10 false false 0 l
  end.

Definition parseReleaseGeneration (value : string) : option Z :=
  n ← match chars (trim_left_space value) with
      | "-"%char :: l => Z.opp <$> scan_unsigned l
      | "+"%char :: l => scan_unsigned l
      | l => scan_unsigned l
      end;
  if (min_int64 <=? n) && (n <=? max_int64) then Some n else None.

Example parseReleaseGeneration_ex :
  map parseReleaseGeneration ["12"; "12abc"; "0x1F"; "1_000"; "010"; "08"; "_1"; "abc"; ""; "-3"; "9223372036854775808"]
  = [Some 12; Some 12; Some 31; Some 1000; Some 8; Some 0; None; None; None; Some (-3); None].
Proof. reflexivity. Qed.

(** ** Requests *)

Record publishReleaseRequest := { pr_AgentType : string; pr_Provenance : Provenance }.

(** A part of the multipart body; [None]: its content cannot be read within the
    body's limit. *)
Record part := { FormName : string; p_Content : option string }.

(** [rq_MediaType]: what mime.ParseMediaType gives, if it succeeds.  [rq_Ends]:
    the parts end without an error.  [rq_Body]: the body as a whole. *)
Record release_request := {
  rq_Head : api_request; rq_MediaType : option string; rq_Parts : list part; rq_Ends : bool; rq_Body : option string }.

Inductive release_reply := Code (code : string) | Created (item : Release) | NoContent.
Definition answer_with (st : Z) (r : release_reply) : response release_reply := {| status := st; reply := r |}.

(** The error codes of writeRESTError are those of the rest of the API. *)
Definition refused (st : Z) : response release_reply :=
  answer_with st (match reply (writeRESTError st) with RError code => Code code | _ => Code "" end).

Definition writeReleaseError (e : rel_error) : response release_reply :=
  match e with
  | ErrNotFound => answer_with 404 (Code "release_not_found")
  | ErrNoActiveRelease => answer_with 409 (Code "no_active_release")
  | ErrUnavailable => answer_with 409 (Code "release_unavailable")
  | ErrNotPromotable => answer_with 409 (Code "release_not_promotable")
  | ErrNotMonotonic => answer_with 409 (Code "release_not_monotonic")
  | _ => answer_with 400 (Code "release_operation_failed")
  end.

Definition defaultMaxParamBytes : Z := 16 * 1024.
Definition byte_len (s : string) : Z := Z.of_nat (String.length s).

(** POST /images/load, with the archive as the body. *)
Class ImageLoader (D : Type) := { LoadImage : nat → D → string → D * result docker_error unit }.

Record VerifiedPromoter := { vp_Name : string; vp_Principal : OperatorPrincipal }.

Section Api.
Context {D : Type} `{DockerEngine D} `{ImageLoader D}.
Variable dies : nat → bool.
(** The libraries' decoders and SHA-256 in hexadecimal; [importerOK]: the runtime imports images. *)
Variables (json : Json) (sha256_hex : string → string) (tar : string → archive)
  (decode_metadata : string → option publishReleaseRequest) (decode_empty : string → bool)
  (decode_rollback : string → option Z).
Variables (c : config) (principals : list (string * OperatorPrincipal)) (importerOK : bool).
(** Of an effect: the calls of others before it, its faults and its clock. *)
Variables (before : nat → list Release.call) (fl : nat → fault) (clock : nat → nat → time).

Record world := { registry : store; docker : D; history : list (bool * Release.call) }.
Notation M := (prog world).

(** One transaction of the request. *)
Definition transact {A} (call : fault → (nat → time) → Release.call)
    (f : fault → (nat → time) → store → store * result rel_error A) : M (result rel_error A) :=
  effect dies (λ k w,
    let '(s, a) := f (fl k) (clock k) (Release.run (registry w) (before k)) in
    ({| registry := s; docker := docker w;
        history := history w ++ map (pair false) (before k) ++ [(true, call (fl k) (clock k))] |}, a)).

Definition query {A} (f : fault → store → result rel_error A) : M (result rel_error A) :=
  effect dies (λ k w,
    let s := Release.run (registry w) (before k) in
    ({| registry := s; docker := docker w; history := history w ++ map (pair false) (before k) |}, f (fl k) s)).

Definition on_docker {A} (f : nat → D → D * A) : M A :=
  effect dies (λ k w, let '(d, a) := f k (docker w) in
    ({| registry := registry w; docker := d; history := history w |}, a)).

(** ** The image *)

Definition platform_of_image (out : dockerImageResponse) : string :=
  trim_slashes (trim_space (img_Os out) +:+ "/" +:+ trim_space (img_Architecture out)).

Definition ImageIdentity (image : string) : M (result docker_error (string * string)) :=
  out <-? on_docker (λ k d, e_image k d image) ;;
  done (Ok (img_ID out, platform_of_image out)).

Definition acquireDockerArtifact (artifact : string) (item : Release) (expectedImageID : string) : M (result rel_error unit) :=
  loaded <-! on_docker (λ k d, LoadImage k d artifact) ;;
  match loaded with
  | Err _ => done (Err (ErrAcquire "load Docker image"))
  | Ok _ =>
    got <-! ImageIdentity expectedImageID ;;
    match got with
    | Err _ => done (Err (ErrAcquire "inspect loaded Docker image"))
    | Ok (observedImageID, observedPlatform) =>
      if negb (observedImageID =? expectedImageID)%string then done (Err (ErrAcquire "loaded Docker image ID"))
      else if negb (observedPlatform =? Release.Platform (Prov item))%string
      then done (Err (ErrAcquire "loaded Docker image platform"))
      else done (Ok ())
    end
  end.

(** Release.VerifyAndMarkAvailable, with the acquisition as effects. *)
Definition VerifyAndMarkAvailable (generation : Z) (requirements : Requirements) (verifier acquirer : string)
    (acquire : Release → M (result rel_error unit)) : M (result rel_error unit) :=
  _ <-? transact (λ f t, LVerify f t generation requirements verifier) (λ f t s, verify f t s generation requirements verifier) ;;
  item <-? query (λ f s, Get f s generation) ;;
  _ <-? acquire item ;;
  transact (λ f t, LMark f t generation true acquirer) (λ f t s, markAvailable f t s generation true acquirer).

(** ** Who asks *)

Definition AuthenticatePromoter (r : release_request) : option VerifiedPromoter :=
  match first_principal sha256_hex (bearerToken (rq_Head r)) principals with
  | Some id => Some {| vp_Name := Name id; vp_Principal := id_Principal id |}
  | None => None
  end.

(** requirePOST, authenticatePromoter and authorizePromoterAction: the promoter, or the refusal. *)
Definition requirePOST (r : release_request) : bool := (q_Method (rq_Head r) =? "POST")%string.
Definition authorizePromoterAction (promoter : VerifiedPromoter) (operation : string) : bool :=
  contains (AllowedActions (vp_Principal promoter)) operation.

Definition admit_promoter (r : release_request) (operation : string) : result (response release_reply) VerifiedPromoter :=
  fail_if negb (requirePOST r) with refused 405 ;;
  match AuthenticatePromoter r with
  | None => Err (refused 401)
  | Some promoter =>
    fail_if negb (authorizePromoterAction promoter operation) with refused 403 ;;
    Ok promoter
  end.

(** ** What they send *)

Record parts_read := { seen : list string; d_input : publishReleaseRequest; d_artifact : string }.
Definition no_provenance : Provenance :=
  {| SourceRevision := ""; DependencyManifestSHA256 := ""; Release.Platform := ""; PublishedBy := ""; PublishedAt := "" |}.
Definition nothing_read : parts_read :=
  {| seen := []; d_input := {| pr_AgentType := ""; pr_Provenance := no_provenance |}; d_artifact := "" |}.

Definition part_names : list string := ["protocol"; "metadata"; "artifact"].

Fixpoint read_parts (maxBytes : Z) (got : parts_read) (l : list part) : option parts_read :=
  match l with
  | [] => Some got
  | p :: l =>
    let name := FormName p in
    if contains (seen got) name || negb (contains part_names name) then None else
    match p_Content p with
    | None => None
    | Some b =>
      if maxBytes <? byte_len b then None else
      let mark i a := {| seen := name :: seen got; d_input := i; d_artifact := a |} in
      if (name =? "protocol")%string then
        if negb (b =? releasePublishProtocol)%string then None else read_parts maxBytes (mark (d_input got) (d_artifact got)) l
      else if (name =? "metadata")%string then
        match decode_metadata b with
        | None => None
        | Some i => read_parts maxBytes (mark i (d_artifact got)) l
        end
      else read_parts maxBytes (mark (d_input got) b) l
    end
  end.

Definition decodeReleasePublishRequest (r : release_request) (maxBytes : Z) : option (publishReleaseRequest * string) :=
  if negb (bool_decide (rq_MediaType r = Some "multipart/form-data")) then None else
  match read_parts maxBytes nothing_read (rq_Parts r) with
  | Some got =>
    if negb (rq_Ends r) then None
    else if negb (forallb (contains (seen got)) part_names) || (d_artifact got =? "")%string then None
    else Some (d_input got, d_artifact got)
  | None => None
  end.

(** The body as one JSON value; the decoder gets an empty object for a blank body. *)
Definition decodeReleaseRequest {A} (r : release_request) (maxBytes : Z) (decode : string → option A) : option A :=
  let maxBytes := if maxBytes <? 1 then defaultMaxParamBytes else maxBytes in
  match rq_Body r with
  | None => None
  | Some b =>
    if maxBytes <? byte_len b then None
    else decode (if (trim_space b =? "")%string then "{}" else b)
  end.

(** ** The handlers *)

Definition release_image (agentType imageID : string) : string := "local.agent/" +:+ agentType +:+ "@" +:+ imageID.
Definition requirements_of (policy : AgentReleasePolicy) : Requirements :=
  {| Release.ProvenanceFields := SandboxConfig.ProvenanceFields policy; Release.Platforms := SandboxConfig.Platforms policy |}.

Definition verifier := "sandbox-broker-verifier".
Definition acquirer := "sandbox-broker-acquirer".

(** The error, or the answer to a registry call that succeeded. *)
Definition or_release_error {A} (a : result rel_error A) (k : A → M (response release_reply)) : M (response release_reply) :=
  match a with Ok a => k a | Err e => done (writeReleaseError e) end.

Definition handleReleasePublish (r : release_request) : M (response release_reply) :=
  match admit_promoter r "release.publish" with
  | Err refusal => done refusal
  | Ok promoter =>
    match decodeReleasePublishRequest r (ReleaseArtifactByteLimit c) with
    | None => done (refused 400)
    | Some (input, artifact) =>
      match AgentReleasePolicies c !! pr_AgentType input with
      | None => done (writeReleaseError (ErrInvalid "agent type has no deployment-owned release policy"))
      | Some policy =>
        match validateDockerArtifact json sha256_hex (tar artifact) (Release.Platform (pr_Provenance input)) with
        | Err _ => done (writeReleaseError (ErrInvalid "artifact"))
        | Ok imageID =>
          let imageReference := release_image (pr_AgentType input) imageID in
          item <-! transact (λ f t, LPublish f t (pr_AgentType input) imageReference (pr_Provenance input) (vp_Name promoter))
            (λ f t s, PublishCandidate f t s (pr_AgentType input) imageReference (pr_Provenance input) (vp_Name promoter)) ;;
          or_release_error item (λ item,
            if negb importerOK then done (writeReleaseError (ErrInvalid "release artifact importer is unavailable")) else
            ready <-! VerifyAndMarkAvailable (Generation item) (requirements_of policy) verifier acquirer
              (λ candidate, acquireDockerArtifact artifact candidate imageID) ;;
            or_release_error ready (λ _,
              ready <-! query (λ f s, Get f s (Generation item)) ;;
              or_release_error ready (λ ready, done (answer_with 201 (Created ready)))))
        end
      end
    end
  end.

Definition handleReleasePromote (r : release_request) (generation : Z) : M (response release_reply) :=
  match admit_promoter r "release.promote" with
  | Err refusal => done refusal
  | Ok promoter =>
    match decodeReleaseRequest r (MaxParameterBytes c) (λ b, if decode_empty b then Some () else None) with
    | None => done (refused 400)
    | Some _ =>
      out <-! transact (λ f t, LPromote f t generation (vp_Name promoter)) (λ f t s, Promote f t s generation (vp_Name promoter)) ;;
      or_release_error out (λ _, done (answer_with 204 NoContent))
    end
  end.

Definition handleReleaseRollback (r : release_request) (agentType : string) : M (response release_reply) :=
  match admit_promoter r "release.rollback" with
  | Err refusal => done refusal
  | Ok promoter =>
    match decodeReleaseRequest r (MaxParameterBytes c) decode_rollback with
    | None => done (refused 400)
    | Some generation =>
      out <-! transact (λ f t, LRollback f t agentType generation (vp_Name promoter))
        (λ f t s, Rollback f t s agentType generation (vp_Name promoter)) ;;
      or_release_error out (λ _, done (answer_with 204 NoContent))
    end
  end.

(** [open]: the service has a registry. *)
Definition handleRelease (open : bool) (r : release_request) (path : string) : M (response release_reply) :=
  if negb open then done (answer_with 503 (Code "release_registry_unavailable")) else
  match split_slash (trim_slashes path) with
  | [a] => if (a =? "publish")%string then handleReleasePublish r else done (refused 404)
  | [a; b] =>
    if (a =? "agent-types")%string && negb (b =? "")%string then handleReleaseRollback r b
    else if (b =? "promote")%string then
      match parseReleaseGeneration a with
      | Some generation => if 0 <? generation then handleReleasePromote r generation else done (refused 404)
      | None => done (refused 404)
      end
    else done (refused 404)
  | _ => done (refused 404)
  end.
End Api.
