(* ===== verification/OperatorGate.v ===== *)
(** * The operators' API: what reaches the service

    For any service behind the API ([OperatorService]): only calls that the
    configuration grants to the principal whose token the request carries reach
    it, and a launch differs from its profile only where the profile lets it. *)

From S2P Require Import Prelude GoStrings GoTime GoJson Net Http Sandbox LaunchIntents Process Launch Parameters SandboxConfig OperatorApi.
Open Scope string_scope.
Open Scope list_scope.
Open Scope Z_scope.

(** ** Launch requests *)

(** A field keeps the profile's value unless the profile lets it be overridden. *)
Definition keeps {A} (p : LaunchProfile) (field : string) (value base : A) : Prop :=
  value = base ∨ (field ∈ AllowOverrides p ∧ launchOverrideFieldAllowed field = true).

Record within_profile (re_compile : string → option (string → bool)) (p : LaunchProfile) (name : string)
    (i : LaunchAgentInput) : Prop := {
  wp_template : keeps p "template" (in_Template i) (in_Template (lp_input p));
  wp_task : keeps p "task" (in_Task i) (in_Task (lp_input p));
  wp_verification : in_VerificationTask i = in_VerificationTask (lp_input p);
  wp_repo : keeps p "repo" (in_Repo i) (in_Repo (lp_input p));
  wp_base : keeps p "base_branch" (in_BaseBranch i) (in_BaseBranch (lp_input p));
  wp_branch : keeps p "branch" (in_Branch i) (in_Branch (lp_input p));
  wp_minutes : keeps p "max_runtime_minutes" (in_MaxRuntimeMinutes i) (in_MaxRuntimeMinutes (lp_input p)) ∨
    keeps p "max_runtime_seconds" (in_MaxRuntimeMinutes i) 0;
  wp_seconds : keeps p "max_runtime_seconds" (in_MaxRuntimeSeconds i) (in_MaxRuntimeSeconds (lp_input p)) ∨
    keeps p "max_runtime_minutes" (in_MaxRuntimeSeconds i) 0;
  wp_deliverables : keeps p "deliverables" (in_Deliverables i) (in_Deliverables (lp_input p));
  wp_focus : keeps p "focus" (in_Focus i) (in_Focus (lp_input p));
  wp_profile : in_Profile i = name;
  wp_parameters : ∃ submitted params,
    resolveProfileParameters re_compile (lp_Parameters p) (bool_decide (is_Some (lp_Codex p))) submitted = Ok params ∧
    in_Parameters i = param_text <$> params ∧
    (∀ s, params !! "work_item_id" = Some (VString s) → in_WorkItem i = s) ∧
    ((∀ s, params !! "work_item_id" ≠ Some (VString s)) → in_WorkItem i = "" ∨ in_WorkItem i = in_WorkItem (lp_input p)) }.

Section Request.
Variable re_compile : string → option (string → bool).
Variable p : LaunchProfile.

Definition only_overridable (raw : gmap string raw_value) : Prop := ∀ field, is_Some (raw !! field) → overridable p field = true.

Lemma overridable_keeps {A} field (value base : A) : overridable p field = true → keeps p field value base.
Proof using Type. intros [Ha Hc]%andb_true_iff. right. split; [by apply contains_elem|done]. Qed.

Lemma field_keeps {A} raw field (value base : A) :
  only_overridable raw → (raw !! field = None → value = base) → keeps p field value base.
Proof using Type.
  intros Hraw Hv. destruct (raw !! field) as [v|] eqn:E; [|left; by apply Hv].
  apply overridable_keeps, Hraw. by exists v.
Qed.

Lemma string_field_none raw field base v : string_field raw field base = Some v → raw !! field = None → v = base.
Proof using Type. unfold string_field. intros H E. rewrite E in H. by injection H. Qed.
Lemma int_field_none raw field base v : int_field raw field base = Some v → raw !! field = None → v = base.
Proof using Type. unfold int_field. intros H E. rewrite E in H. by injection H. Qed.
Lemma strings_field_none raw field base v : strings_field raw field base = Some v → raw !! field = None → v = base.
Proof using Type. unfold strings_field. intros H E. rewrite E in H. by injection H. Qed.

(** The decoded request, before its parameters. *)
Record overridden (i : LaunchAgentInput) : Prop := {
  ov_template : keeps p "template" (in_Template i) (in_Template (lp_input p));
  ov_task : keeps p "task" (in_Task i) (in_Task (lp_input p));
  ov_verification : in_VerificationTask i = in_VerificationTask (lp_input p);
  ov_repo : keeps p "repo" (in_Repo i) (in_Repo (lp_input p));
  ov_base : keeps p "base_branch" (in_BaseBranch i) (in_BaseBranch (lp_input p));
  ov_branch : keeps p "branch" (in_Branch i) (in_Branch (lp_input p));
  ov_minutes : keeps p "max_runtime_minutes" (in_MaxRuntimeMinutes i) (in_MaxRuntimeMinutes (lp_input p)) ∨
    keeps p "max_runtime_seconds" (in_MaxRuntimeMinutes i) 0;
  ov_seconds : keeps p "max_runtime_seconds" (in_MaxRuntimeSeconds i) (in_MaxRuntimeSeconds (lp_input p)) ∨
    keeps p "max_runtime_minutes" (in_MaxRuntimeSeconds i) 0;
  ov_deliverables : keeps p "deliverables" (in_Deliverables i) (in_Deliverables (lp_input p));
  ov_focus : keeps p "focus" (in_Focus i) (in_Focus (lp_input p));
  ov_work_item : in_WorkItem i = "" ∨ in_WorkItem i = in_WorkItem (lp_input p) }.

Lemma applied_overridden raw i : applyLaunchProfileOverrides p raw = Some i → overridden i.
Proof using Type.
  unfold applyLaunchProfileOverrides. cbv zeta. destruct (forallb _ _) eqn:Eall; cbn [negb]; [|done].
  assert (only_overridable raw) as Hraw.
  { intros field [v Hv]. rewrite forallb_forall in Eall. apply (Eall (field, v)).
    by apply list_elem_of_In, elem_of_map_to_list. }
  intros (template & Ht & H)%bind_Some. apply bind_Some in H as (task & Hta & H). apply bind_Some in H as (repo & Hr & H).
  apply bind_Some in H as (base & Hb & H). apply bind_Some in H as (branch & Hbr & H).
  apply bind_Some in H as (mins & Hm & H). apply bind_Some in H as (secs & Hs & H).
  apply bind_Some in H as (del & Hd & H). apply bind_Some in H as (focus & Hf & [= <-]).
  split; cbn; try done; try (by left); try by eapply field_keeps; [|eapply string_field_none].
  - destruct (decide (is_Some (raw !! "max_runtime_seconds"))) as [E|E].
    + right. by apply overridable_keeps, Hraw.
    + left. rewrite bool_decide_eq_false_2 by done. eapply field_keeps; [done|by eapply int_field_none].
  - destruct (decide (is_Some (raw !! "max_runtime_minutes"))) as [E|E].
    + right. by apply overridable_keeps, Hraw.
    + left. rewrite bool_decide_eq_false_2 by done. eapply field_keeps; [done|by eapply int_field_none].
  - eapply field_keeps; [done|by eapply strings_field_none].
Qed.

Lemma profile_overridden : overridden (lp_input p).
Proof using Type. split; try (by left); try done; try (left; by left). by right. Qed.

Lemma overridden_within name i submitted params :
  overridden i →
  resolveProfileParameters re_compile (lp_Parameters p) (bool_decide (is_Some (lp_Codex p))) submitted = Ok params →
  within_profile re_compile p name
    (with_profile (with_parameters i params) name (work_item (with_parameters i params) params)).
Proof using Type.
  intros O Hp. split; cbn; try apply O; [done|]. exists submitted, params. split_and!; [done..| |].
  - intros s E. unfold work_item. by rewrite E.
  - intros Hno. unfold work_item. destruct (params !! "work_item_id") as [v|] eqn:E; [|apply O].
    destruct v; try apply O. exfalso. by eapply Hno.
Qed.

Lemma resolved_within name b i params :
  resolveLaunchProfileRequest re_compile p b = Some (i, params) →
  within_profile re_compile p name (with_profile i name (work_item i params)).
Proof using Type.
  assert (∀ submitted params, resolve_params re_compile p submitted = Some params →
    resolveProfileParameters re_compile (lp_Parameters p) (bool_decide (is_Some (lp_Codex p))) submitted = Ok params) as Hres.
  { unfold resolve_params. intros s ps. by destruct (resolveProfileParameters _ _ _ _); intros [= <-]. }
  assert (defaults_only re_compile p = Some (i, params) →
          within_profile re_compile p name (with_profile i name (work_item i params))) as Hdef.
  { unfold defaults_only. intros (ps & Hps%Hres & [= <- <-])%bind_Some.
    eapply overridden_within; [apply profile_overridden|done]. }
  unfold resolveLaunchProfileRequest. destruct (a_Empty b); [done|]. destruct (a_Launch b) as [| | |l]; [done..|].
  destruct (_ && _); [done|]. destruct (b_parameters l) as [submitted|].
  - intros (sub & -> & H)%bind_Some. apply bind_Some in H as (ps & Hps%Hres & H). destruct (bool_decide (is_Some (b_overrides l))); [done|].
    apply bind_Some in H as (i' & Hi%applied_overridden & [= <- <-]). by eapply overridden_within.
  - destruct (negb _); [done|]. intros (raw & _ & H)%bind_Some. apply bind_Some in H as (i' & Hi%applied_overridden & H).
    apply bind_Some in H as (ps & Hps%Hres & [= <- <-]). by eapply overridden_within.
Qed.
End Request.

(** ** What a request is granted *)

Section Gate.
Context {W : Type} `{Svc : OperatorService W}.
Variable c : config.
Variable re_compile : string → option (string → bool).
Variable sha256_hex : string → string.
Variable principals : list (string * OperatorPrincipal).
(** What the service knows of a run. *)
Variable known : string → RunMetadata → Prop.

(** The request carries the token of a configured principal. *)
Definition identified (r : api_request) (id : operatorIdentity) : Prop :=
  (Name id, id_Principal id) ∈ principals ∧ bearerToken r ≠ "" ∧ Token (id_Principal id) ≠ "" ∧
  sha256_hex (bearerToken r) = sha256_hex (Token (id_Principal id)).

Definition may (id : operatorIdentity) (action : string) : Prop := action ∈ AllowedActions (id_Principal id).

Definition launches (id : operatorIdentity) (action name : string) (i : LaunchAgentInput) (p : LaunchProfile) : Prop :=
  may id action ∧ name ∈ AllowedProfiles (id_Principal id) ∧ LaunchProfiles c !! name = Some p ∧
  within_profile re_compile p name i.

(** The run belongs to one of the principal's profiles, and to the principal
    itself unless its scope is the profile. *)
Definition sees (id : operatorIdentity) (runID : string) : Prop :=
  ∃ m, known runID m ∧ Profile (m_run m) ∈ AllowedProfiles (id_Principal id) ∧
    (RunScope (id_Principal id) = "profile" ∨ Principal (m_run m) = Name id).

Inductive granted (r : api_request) (id : operatorIdentity) : call → Prop :=
| granted_launch name key fingerprint i p :
    launches id "launch" name i p → (RequireIdempotencyKey p = true → key ≠ "") →
    granted r id (CLaunch (Name id) name key fingerprint i)
| granted_dry_run name i p : launches id "dry_run" name i p → granted r id (CDryRun i)
| granted_preview name i p : launches id "dry_run" name i p → granted r id (CPreview i)
| granted_list : may id "status" →
    granted r id (CList (Name id) (AllowedProfiles (id_Principal id)) (RunScope (id_Principal id) =? "profile")%string)
| granted_status runID : may id "status" → sees id runID → granted r id (CStatus runID)
| granted_logs runID n : may id "logs" → sees id runID → 0 ≤ n → granted r id (CLogs runID n)
| granted_result runID : may id "terminal_result" → sees id runID → granted r id (CTerminalResult runID)
| granted_artifacts runID : may id "artifacts" → sees id runID → granted r id (CArtifacts runID)
| granted_lessons runID : may id "artifacts" → sees id runID → granted r id (CLessons runID)
| granted_stop runID : may id "stop" → sees id runID → q_Method r = "POST" → granted r id (CStop runID)
| granted_cleanup runID : may id "cleanup" → sees id runID → q_Method r = "POST" → granted r id (CCleanup runID)
| granted_resume key fingerprint runID seconds :
    may id "launch" → sees id runID → q_Method r = "POST" → key ≠ "" → 1 ≤ seconds →
    granted r id (CResume (Name id) key fingerprint runID seconds).

Definition releases_path (r : api_request) : Prop :=
  has_prefix "releases" (trim_slashes (trim_prefix "/v1/" (q_Path r))) = true.

(** A principal is behind every success. *)
Definition answered (I : W → Prop) (r : api_request) (resp : response api_reply) (w : W) : Prop :=
  I w ∧ (success resp = true → (∃ id, identified r id) ∨ releases_path r).

Section Serve.
Variable I : W → Prop.
Variable r : api_request.
Hypothesis lookup_ok : ∀ id w, I w → wp I (lookup_run id) (λ a w', I w' ∧ ∀ m, a = Ok m → known id m) w.
Hypothesis invoke_ok : ∀ id cl w, identified r id → granted r id cl → I w → wp I (invoke cl) (λ _, I) w.
Hypothesis release_ok : ∀ rest w, releases_path r → I w → wp I (handleRelease r rest) (λ _, I) w.

Notation gated m w := (wp I m (answered I r) w).

Lemma gate_refuse resp w : I w → success resp = false → gated (done resp) w.
Proof using Type. intros Hi Hs. apply wp_done. split; [done|]. by rewrite Hs. Qed.

Lemma gate_answer id resp w : identified r id → I w → gated (done resp) w.
Proof using Type. intros Hid Hi. apply wp_done. split; [done|]. intros _. left. by exists id. Qed.

Lemma gate_invoke id cl (k : result svc_error answer → response api_reply) w :
  identified r id → granted r id cl → I w → gated (a <-! invoke cl ;; done (k a)) w.
Proof using invoke_ok.
  intros Hid Hg Hi. apply wp_andThen. eapply wp_mono; [by eapply invoke_ok|done|]. intros a w' Hi'. by eapply gate_answer.
Qed.

Lemma first_principal_some l token id :
  first_principal sha256_hex token l = Some id →
  (Name id, id_Principal id) ∈ l ∧ token ≠ "" ∧ Token (id_Principal id) ≠ "" ∧
  sha256_hex token = sha256_hex (Token (id_Principal id)).
Proof using Type.
  induction l as [|[name p] l IH]; cbn; [done|]. unfold secureTokenEqual.
  destruct (String.eqb_spec token ""), (String.eqb_spec (Token p) ""); cbn;
    try (intros Hf; destruct (IH Hf) as (? & ?); split; [by right|done]).
  destruct (String.eqb_spec (sha256_hex token) (sha256_hex (Token p))).
  - intros [= <-]. split_and!; [by left|done..].
  - intros Hf; destruct (IH Hf) as (? & ?); split; [by right|done].
Qed.

Lemma gate_authenticate k w : I w → (∀ id, identified r id → gated (k id) w) →
  gated (authenticate sha256_hex principals r k) w.
Proof using Type.
  intros Hi Hk. unfold authenticate. destruct (first_principal _ _ _) as [id|] eqn:E; [|by apply gate_refuse].
  apply Hk. apply first_principal_some in E as (? & ? & ? & ?). by split_and!.
Qed.

Lemma gate_action id action k w : I w → (may id action → gated k w) → gated (authorizeAction id action k) w.
Proof using Type.
  intros Hi Hk. unfold authorizeAction. destruct (contains _ _) eqn:E; [|by apply gate_refuse].
  by apply Hk, contains_elem.
Qed.

Lemma gate_run id runID k w : I w → (∀ w', I w' → sees id runID → gated k w') → gated (authorizeRunProfile id runID k) w.
Proof using lookup_ok.
  intros Hi Hk. unfold authorizeRunProfile. apply wp_andThen. eapply wp_mono; [by apply lookup_ok|done|].
  intros a w' [Hi' Hknown]. destruct a as [m|]; [|by apply gate_refuse].
  destruct (may_see id m) eqn:E; [|by apply gate_refuse]. apply Hk; [done|].
  unfold may_see in E. apply andb_true_iff in E as [Hp%contains_elem Ho%orb_true_iff].
  exists m. split_and!; [by apply Hknown|done|]. by destruct Ho as [?%String.eqb_eq|?%String.eqb_eq]; [left|right].
Qed.

Lemma gate_method method k w : I w → (q_Method r = method → gated k w) → gated (method_is r method k) w.
Proof using Type. intros Hi Hk. unfold method_is. destruct (String.eqb_spec (q_Method r) method); [by apply Hk|by apply gate_refuse]. Qed.

Lemma gate_on_run action runID k w : I w →
  (∀ id w', I w' → identified r id → may id action → sees id runID → gated (k id) w') →
  gated (on_run sha256_hex principals r action runID k) w.
Proof using lookup_ok.
  intros Hi Hk. apply gate_authenticate; [done|]. intros id Hid. apply gate_action; [done|]. intros Hm.
  apply gate_run; [done|]. intros w' Hi' Hs. by apply Hk.
Qed.

Lemma parse_key_some key : parseIdempotencyKey r true = Ok key → key ≠ "".
Proof using Type.
  unfold parseIdempotencyKey. destruct (q_IdempotencyKey r) as [|v [|]]; [done| |done].
  rewrite !fail_if_ok. intros (Hl & _ & [= <-]) ->. done.
Qed.

Lemma launch_key_ok p key fingerprint : launch_key sha256_hex r p "launch" = Ok (key, fingerprint) →
  RequireIdempotencyKey p = true → key ≠ "".
Proof using Type.
  unfold launch_key. cbn. intros H Hr. rewrite Hr in H. destruct (parseIdempotencyKey r true) as [k|] eqn:E; [|done].
  apply parse_key_some in E. rewrite (proj2 (String.eqb_neq _ _) E) in H. destruct (a_Canonical _); [|done]. by injection H as <- _.
Qed.

Lemma gate_launch rest w : I w → gated (handleLaunchProfileAction c re_compile sha256_hex principals r rest) w.
Proof using invoke_ok.
  intros Hi. unfold handleLaunchProfileAction.
  destruct (split_slash _) as [|name [|action [|]]]; try by apply gate_refuse.
  destruct (existsb _ _) eqn:Ea; cbn [negb]; [|by apply gate_refuse].
  apply gate_method; [done|]. intros _. apply gate_authenticate; [done|]. intros id Hid.
  unfold authorizeProfile. set (granted_action := if (action =? "launch")%string then "launch" else "dry_run").
  destruct (_ || _) eqn:Eauth; [by apply gate_refuse|].
  apply orb_false_iff in Eauth as [Hact%negb_false_iff%contains_elem Hprof%negb_false_iff%contains_elem].
  destruct (LaunchProfiles c !! name) as [p|] eqn:Ep; [|by apply gate_refuse].
  destruct (launch_key _ _ _ _) as [[key fp]|refusal] eqn:Ekey; [|by eapply gate_answer].
  destruct (resolveLaunchProfileRequest _ _ _) as [[i params]|] eqn:Ereq; [|by apply gate_refuse].
  cbv zeta. apply (resolved_within _ _ name) in Ereq.
  set (i' := with_profile i name (work_item i params)) in *.
  assert (launches id granted_action name i' p) as Hl by by split_and!.
  destruct (String.eqb_spec action "preview") as [->|Hnp].
  { eapply gate_invoke; [done| |done]. by eapply granted_preview. }
  destruct (String.eqb_spec action "dry-run") as [->|Hnd].
  { eapply gate_invoke; [done| |done]. by eapply granted_dry_run. }
  assert (action = "launch") as ->.
  { cbn in Ea. rewrite !orb_true_iff, !String.eqb_eq in Ea. destruct Ea as [?|[?|[?|?]]]; done. }
  eapply gate_invoke; [done| |done]. eapply granted_launch; [done|]. intros Hr. by eapply launch_key_ok.
Qed.

Lemma gate_runs w : I w → gated (handleRuns sha256_hex principals r) w.
Proof using invoke_ok.
  intros Hi. apply gate_method; [done|]. intros _. apply gate_authenticate; [done|]. intros id Hid.
  apply gate_action; [done|]. intros Hm. eapply gate_invoke; [done| |done]. by apply granted_list.
Qed.

Lemma gate_run_action rest w : I w → gated (handleRunAction sha256_hex principals r rest) w.
Proof using lookup_ok invoke_ok.
  intros Hi. unfold handleRunAction.
  assert (∀ runID action (k : result svc_error answer → response api_reply) cl,
            (∀ id, may id action → sees id runID → granted r id cl) →
            gated (on_run sha256_hex principals r action runID (λ _, a <-! invoke cl ;; done (k a))) w) as Hcall.
  { intros runID action k cl Hg. apply gate_on_run; [done|]. intros id w' Hi' Hid Hm Hs.
    eapply gate_invoke; [done| |done]. by apply Hg. }
  destruct (split_slash _) as [|runID l]; [by apply gate_refuse|].
  destruct runID as [|a s]; [by apply gate_refuse|]. set (runID := String a s).
  destruct l as [|action [|]]; [| |by apply gate_refuse].
  { apply gate_method; [done|]. intros _. apply Hcall. intros id. by apply granted_status. }
  destruct (action =? "resume")%string.
  { apply gate_method; [done|]. intros Hpost. apply gate_on_run; [done|]. intros id w' Hi' Hid Hm Hs.
    destruct (parseIdempotencyKey r true) as [key|] eqn:Ekey; [|by eapply gate_answer].
    destruct (a_Canonical _) as [canonical|]; [|by apply gate_refuse].
    destruct (resume_seconds _) as [seconds|] eqn:Esec; [|by apply gate_refuse].
    eapply gate_invoke; [done| |done]. apply granted_resume; try done; [by eapply parse_key_some|].
    unfold resume_seconds in Esec. destruct (negb _); [done|]. destruct (_ !! _) as [[| |n| |]|]; try done.
    destruct (_ && _) eqn:E; [|done]. injection Esec as <-. apply andb_true_iff in E as [_ E%negb_true_iff%Z.ltb_ge]. done. }
  repeat match goal with |- gated (if ?b then _ else _) _ => destruct b end; [..|by apply gate_refuse];
    apply gate_method; try done; intros Hmethod.
  - apply Hcall. intros id. by apply granted_result.
  - apply gate_on_run; [done|]. intros id w' Hi' Hid Hm Hs. cbv zeta.
    assert (∀ n, 0 ≤ n → granted r id (CLogs runID n)) as Hg by by intros; apply granted_logs.
    destruct (q_MaxBytes r =? "")%string; [by eapply gate_invoke; [|apply Hg|]|].
    destruct (Atoi (q_MaxBytes r)) as [n|]; [|by apply gate_refuse].
    destruct (Z.ltb_spec n 0); [by apply gate_refuse|]. by eapply gate_invoke; [|apply Hg|].
  - apply Hcall. intros id. by apply granted_artifacts.
  - apply Hcall. intros id. by apply granted_lessons.
  - apply Hcall. intros id ??. by apply granted_stop.
  - apply Hcall. intros id ??. by apply granted_cleanup.
Qed.

Lemma serve_gated w : I w → gated (ServeHTTP c re_compile sha256_hex principals r) w.
Proof using lookup_ok invoke_ok release_ok.
  intros Hi. unfold ServeHTTP. cbv zeta. set (path := trim_slashes _).
  destruct (path =? "launch-profiles")%string.
  { apply gate_method; [done|]. intros _. apply gate_authenticate; [done|]. intros id Hid. by eapply gate_answer. }
  destruct (has_prefix "launch-profiles/" path); [by apply gate_launch|].
  destruct (path =? "runs")%string; [by apply gate_runs|].
  destruct (has_prefix "runs/" path); [by apply gate_run_action|].
  destruct ((path =? "releases")%string || has_prefix "releases/" path) eqn:E; [|by apply gate_refuse].
  assert (releases_path r) as Hrel.
  { unfold releases_path. fold path. apply orb_true_iff in E as [->%String.eqb_eq|E]; [done|].
    apply has_prefix_drop in E. rewrite E. reflexivity. }
  apply wp_andThen. eapply wp_mono; [by apply release_ok|done|]. intros a w' Hi'. apply wp_done. split; [done|]. by right.
Qed.
End Serve.
End Gate.

(** ** Properties *)

(** C14: nothing but granted calls reaches the service.  Whatever a request says,
    a property of the world that looking runs up and the registry's own routes
    keep is kept by serving the request, as soon as the calls keep it that the
    configuration grants to the principal whose token the request carries: its
    actions, on launch profiles and runs that are its own, with a launch that
    differs from its profile only in the fields the profile lets be overridden
    and has typed parameters.  A success is only ever answered to a principal,
    or by the registry. *)
Theorem operator_gated {W} `{Svc : OperatorService W} c re_compile sha256_hex principals known (I : W → Prop) r w :
  (∀ id w, I w → wp I (lookup_run id) (λ a w', I w' ∧ ∀ m, a = Ok m → known id m) w) →
  (∀ id cl w, identified sha256_hex principals r id → granted c re_compile known r id cl → I w →
     wp I (invoke cl) (λ _, I) w) →
  (∀ rest w, releases_path r → I w → wp I (handleRelease r rest) (λ _, I) w) →
  I w →
  wp I (ServeHTTP c re_compile sha256_hex principals r)
    (λ resp w', I w' ∧ (success resp = true → (∃ id, identified sha256_hex principals r id) ∨ releases_path r)) w.
Proof. intros Hlookup Hinvoke Hrel Hi. by apply (serve_gated c re_compile sha256_hex principals known). Qed.

(** A service that knows one run and keeps the calls it got. *)
Definition known_run : RunMetadata :=
  {| m_run := {| RunID := "run-1"; WorkItemID := ""; Profile := "builder"; Principal := "ops";
                 IdempotencyKeyDigest := ""; RequestFingerprint := ""; LaunchConfigVersion := "";
                 run_Template := "worker"; Repo := "octo/app"; BaseBranch := "main"; Branch := "b"; Task := "t";
                 VerificationTask := ""; Focus := ""; WorkerAgentID := ""; run_BrokerAgentID := "";
                 run_CredentialBundle := ""; run_Image := ""; ResolvedReleaseGeneration := 0; Deliverables := [];
                 Parameters := ∅; StartedAt := 0; Deadline := 0 |};
     m_ContainerID := "c"; m_ImageDigest := ""; m_Status := StatusRunning; m_ExitCode := None;
     m_FinalizeReason := ""; m_TerminalSource := ""; m_EndedAt := 0 |}.

Definition recorder : OperatorService (list call) :=
  {| lookup_run := λ id, done (if (id =? "run-1")%string then Ok known_run else Err ENoRun);
     invoke := λ cl k w, (S k, cl :: w, Some (Ok (AText "ok")));
     handleRelease := λ _ _, done {| status := 404; reply := "" |} |}.

Definition knows (id : string) (m : RunMetadata) : Prop := id = "run-1" ∧ m = known_run.

Definition operator (token scope : string) (actions : list string) : OperatorPrincipal :=
  {| Token := token; TokenEnv := ""; AllowedProfiles := ["builder"]; AllowedActions := actions; RunScope := scope |}.

Definition sample_principals : list (string * OperatorPrincipal) :=
  [("ops", operator "t1" "owned" ["stop"]); ("peer", operator "t2" "owned" ["stop"; "status"])].

Definition on_path (method path authorization : string) : api_request :=
  {| q_Method := method; q_Path := path; q_SandboxToken := ""; q_Authorization := authorization;
     q_IdempotencyKey := []; q_MaxBytes := "";
     q_Body := {| a_Empty := true; a_Launch := Unreadable; a_Canonical := Some "{}"; a_Object := ∅ |} |}.

Definition empty_config : config :=
  {| Listen := ""; MCPPath := ""; AuthToken := ""; AuthTokenEnv := ""; c_RunsDir := "/runs"; LaunchIntentStore := "";
     ReleaseStore := ""; CapabilityStore := ""; CapabilityAPIToken := ""; CapabilityAPITokenEnv := "";
     c_BrokerURL := ""; Production := false; c_Repositories := []; c_Networks := ∅; c_Bundles := ∅; c_Templates := ∅;
     LaunchProfiles := ∅; ModelPolicies := ∅; CodexHolder := {| MasterAuthPath := ""; IssuanceRoot := "" |};
     OperatorPrincipals := ∅; AgentReleasePolicies := ∅; c_MaxTaskBytes := 0; MaxParameterBytes := 0; LogByteLimit := 0;
     TerminalResultByteLimit := 0; ReleaseArtifactByteLimit := 0; StopGrace := 0; c_ConfigVersion := "" |}.

Definition sample_served (r : api_request) : nat * list call * option (response api_reply) :=
  @ServeHTTP (list call) recorder empty_config (λ _, None) id sample_principals r 0%nat [].

(** The owner stops its run; a peer with the same profile, and one without the action, do not. *)
Example served_ex :
  (sample_served (on_path "POST" "/v1/runs/run-1/stop" "Bearer t1")).1.2 = [CStop "run-1"] ∧
  (sample_served (on_path "POST" "/v1/runs/run-1/stop" "bearer t2")).1.2 = [] ∧
  (sample_served (on_path "GET" "/v1/runs/run-1" "Bearer t1")).1.2 = [] ∧
  (sample_served (on_path "POST" "/v1/runs/run-1/stop" "Bearer t3")).1.2 = [].
Proof. by vm_compute. Qed.

Lemma operator_gated_witness :
  let r := on_path "POST" "/v1/runs/run-1/stop" "Bearer t1" in
  let end_ := sample_served r in
  end_.1.2 = [CStop "run-1"] ∧
  ∀ cl, cl ∈ end_.1.2 → ∃ who, identified id sample_principals r who ∧
    granted empty_config (λ _, None) knows r who cl.
Proof.
  cbv zeta. split; [vm_compute; reflexivity|].
  set (r := on_path "POST" "/v1/runs/run-1/stop" "Bearer t1").
  set (I := λ log : list call, ∀ cl, cl ∈ log → ∃ who, identified id sample_principals r who ∧
                granted empty_config (λ _, None) knows r who cl).
  assert (wp I (@ServeHTTP (list call) recorder empty_config (λ _, None) id sample_principals r)
    (λ resp w', I w' ∧ (success resp = true → (∃ who, identified id sample_principals r who) ∨ releases_path r)) []) as H.
  { apply (@operator_gated (list call) recorder empty_config (λ _, None) id sample_principals knows I r []).
    - intros runID w Hw k. cbn. unfold done. destruct (String.eqb_spec runID "run-1") as [->|]; (split; [exact Hw|]).
      + intros m [= <-]. split; reflexivity.
      + intros m [=].
    - intros who cl w Hid Hg Hw k. cbn. intros cl' [->|Hin]%elem_of_cons; [by exists who|by apply Hw].
    - intros rest w Hrel. discriminate Hrel.
    - intros cl Hin. destruct (not_elem_of_nil _ Hin). }
  specialize (H 0%nat). exact (proj1 H).
Defined.

(** ** What the API leaves open

    Two principals may be configured with one token: who a request comes from is
    then decided by the order in which range visits the map. *)
Example shared_token_ambiguous :
  let p := operator "t" "owned" ["launch"] in
  let r := on_path "GET" "/v1/runs" "Bearer t" in
  Name <$> first_principal id (bearerToken r) [("a", p); ("b", p)] = Some "a" ∧
  Name <$> first_principal id (bearerToken r) [("b", p); ("a", p)] = Some "b".
Proof. by vm_compute. Qed.
