(* ===== verification/ReleaseGate.v ===== *)
(** * The release registry's routes: what they do to the registry

    For any calls of other requests between the transactions of a request, any
    faults, and a process that may die at any effect: a request changes the
    registry only in the ways its promoter may ask for ([made]), and a published
    release is the artifact that was sent, loaded and observed. *)

From S2P Require Import Prelude GoStrings GoTime GoJson Http Net Regex Process Sandbox Docker Release ReleaseArtifact SandboxConfig OperatorApi OperatorGate ReleaseApi.
Open Scope string_scope.
Open Scope list_scope.
Open Scope Z_scope.

(** ** Registries that grow *)

(** No release is lost or changes its identity, and no audit entry is lost. *)
Record extends (s s' : store) : Prop := {
  ext_wf : wf s → wf s';
  ext_rows : ∀ r, r ∈ releases s → ∃ r', r' ∈ releases s' ∧ identity r' = identity r;
  ext_log : wf s → ∀ e, e ∈ audit_log s → e ∈ audit_log s' }.

#[export] Instance extends_preorder : PreOrder extends.
Proof.
  split; [intros s; split; eauto|]. intros s1 s2 s3 [H1 H2 H3] [K1 K2 K3]. split; [eauto| |eauto].
  intros r (r' & Hr' & <-)%H2. destruct (K2 r' Hr') as (r2 & ? & ?). by exists r2.
Qed.

Lemma mapped_rows s f : (∀ r, identity (f r) = identity r) →
  ∀ r, r ∈ releases s → ∃ r', r' ∈ map f (releases s) ∧ identity r' = identity r.
Proof. intros Hf r Hr. exists (f r). split; [by apply list_elem_of_fmap_2|done]. Qed.

Lemma update_rows s g f : (∀ r, identity (f r) = identity r) →
  ∀ r, r ∈ releases s → ∃ r', r' ∈ releases (update_release g f s) ∧ identity r' = identity r.
Proof. intros Hf. apply mapped_rows. intros r. by case_match. Qed.

Lemma call_rows s cl r : r ∈ releases s → ∃ r', r' ∈ releases (run_call s cl) ∧ identity r' = identity r.
Proof.
  intros Hr.
  destruct cl as [fl clock t ref prov actor|fl clock g req actor|fl clock g av actor|fl clock g actor|fl clock t g actor]; cbn [run_call].
  - destruct (PublishCandidate fl clock s t ref prov actor) as [s' [x|e]] eqn:E; cbn [fst].
    + apply PublishCandidate_ok in E as (d & _ & _ & _ & _ & _ & _ & ->). exists r. split; [|done].
      cbn. apply elem_of_app. by left.
    + apply atomically_err in E as [-> _]. by exists r.
  - destruct (verify fl clock s g req actor) as [s' [[]|e]] eqn:E; cbn [fst].
    + apply verify_ok in E as (item & _ & _ & _ & _ & _ & ->). by apply update_rows.
    + apply atomically_err in E as [-> _]. by exists r.
  - destruct (markAvailable fl clock s g av actor) as [s' [[]|e]] eqn:E; cbn [fst].
    + apply markAvailable_ok in E as (item & _ & _ & _ & ->). by apply update_rows.
    + apply atomically_err in E as [-> _]. by exists r.
  - destruct (Promote fl clock s g actor) as [s' [[]|e]] eqn:E; cbn [fst].
    + apply Promote_ok in E as (item & _ & _ & _ & _ & _ & _ & ->). apply mapped_rows; [|done]. intros. apply switched_identity.
    + apply atomically_err in E as [-> _]. by exists r.
  - destruct (Rollback fl clock s t g actor) as [s' [[]|e]] eqn:E; cbn [fst].
    + apply Rollback_ok in E as (item & _ & _ & _ & _ & _ & _ & ->). apply mapped_rows; [|done]. intros. apply switched_identity.
    + apply atomically_err in E as [-> _]. by exists r.
Qed.

Lemma call_extends s cl : extends s (run_call s cl).
Proof.
  split; [intros; by apply registry_call_step|intros; by apply call_rows|].
  intros Hs e He. destruct (registry_call_step s cl Hs) as [_ [->|(e' & -> & _)]]; [done|]. apply elem_of_app. by left.
Qed.

Lemma run_extends s cs : extends s (Release.run s cs).
Proof.
  revert s. induction cs as [|cl cs IH]; intros s; [done|]. transitivity (run_call s cl); [apply call_extends|apply IH].
Qed.

Lemma run_app s cs cs' : Release.run s (cs ++ cs') = Release.run (Release.run s cs) cs'.
Proof. unfold Release.run. by rewrite fold_left_app. Qed.

(** ** Image references *)

Lemma after_last_at_app a b : after_last_at b = None → after_last_at (a +:+ "@" +:+ b) = Some b.
Proof.
  intros Hb. induction a as [|ch a IH].
  - rewrite sapp_nil, sapp_cons, sapp_nil. cbn [after_last_at]. by rewrite Hb.
  - rewrite (sapp_cons ch). cbn [after_last_at]. by rewrite IH.
Qed.

Lemma after_last_at_none s : all_chars (λ ch, negb (Ascii.eqb ch "@")) s = true → after_last_at s = None.
Proof.
  induction s as [|ch s IH]; [done|]. unfold all_chars. cbn. intros [Hc Hs]%andb_true_iff.
  rewrite IH by done. by destruct (Ascii.eqb ch "@").
Qed.

Lemma digestOf_image agentType id digest : after_last_at id = None →
  digestOf (release_image agentType id) = Ok digest → digest = id.
Proof.
  intros Hn. unfold digestOf, release_image. rewrite <- sapp_assoc, after_last_at_app by done.
  intros [_ [= <-]]%fail_if_ok. done.
Qed.

Section Gate.
Context {D : Type} `{DockerEngine D} `{ImageLoader D}.
Variable dies : nat → bool.
Variables (json : Json) (sha256_hex : string → string) (tar : string → archive)
  (decode_metadata : string → option publishReleaseRequest) (decode_empty : string → bool)
  (decode_rollback : string → option Z).
Variables (c : config) (principals : list (string * OperatorPrincipal)) (importerOK : bool).
Variables (before : nat → list Release.call) (fl : nat → fault) (clock : nat → nat → time).
Hypothesis hex : ∀ s, all_chars is_lower_hex (sha256_hex s) = true.

Notation world := (@world D).

(** ** What a request may do *)

Definition promoter_may (r : release_request) (name operation : string) : Prop :=
  q_Method (rq_Head r) = "POST" ∧ ∃ p, (name, p) ∈ principals ∧ Token p ≠ "" ∧
    sha256_hex (bearerToken (rq_Head r)) = sha256_hex (Token p) ∧ operation ∈ AllowedActions p.

(** The three parts, in some order. *)
Definition sent (r : release_request) (input : publishReleaseRequest) (artifact : string) : Prop :=
  rq_MediaType r = Some "multipart/form-data" ∧ rq_Ends r = true ∧ artifact ≠ "" ∧
  byte_len artifact ≤ ReleaseArtifactByteLimit c ∧
  ∃ metadata, decode_metadata metadata = Some input ∧
    map (λ p, (FormName p, p_Content p)) (rq_Parts r) ≡ₚ
      [("protocol", Some releasePublishProtocol); ("metadata", Some metadata); ("artifact", Some artifact)].

Record publication (r : release_request) (actor : string) (input : publishReleaseRequest) (artifact id : string)
    (policy : AgentReleasePolicy) : Prop := {
  pub_may : promoter_may r actor "release.publish";
  pub_sent : sent r input artifact;
  pub_policy : AgentReleasePolicies c !! pr_AgentType input = Some policy;
  pub_image : identifies json sha256_hex (tar artifact) (Release.Platform (pr_Provenance input)) id }.

(** The release of a publication, with its generation. *)
Definition registered (s : store) (g : Z) (input : publishReleaseRequest) (id : string) : Prop :=
  ∃ row, row ∈ releases s ∧
    identity row = (g, pr_AgentType input, release_image (pr_AgentType input) id, id, coerce_provenance (pr_Provenance input)).

(** Docker loaded the artifact and reports that image, for that platform. *)
Definition observed (artifact id platform : string) : Prop :=
  (∃ k d, (LoadImage k d artifact).2 = Ok ()) ∧
  ∃ k d out, (e_image k d id).2 = Ok out ∧ img_ID out = id ∧ platform_of_image out = platform.

Definition publish_call (f : fault) (t : nat → time) (actor : string) (input : publishReleaseRequest) (id : string) : Release.call :=
  LPublish f t (pr_AgentType input) (release_image (pr_AgentType input) id) (pr_Provenance input) actor.

(** The calls a request makes, [s] being the registry afterwards. *)
Inductive made (r : release_request) (path : string) (s : store) : list Release.call → Prop :=
| made_none : made r path s []
| made_publish f t actor input artifact id policy :
    split_slash (trim_slashes path) = ["publish"] → publication r actor input artifact id policy →
    made r path s [publish_call f t actor input id]
| made_verify f t actor input artifact id policy f' t' g :
    split_slash (trim_slashes path) = ["publish"] → publication r actor input artifact id policy →
    registered s g input id →
    made r path s [publish_call f t actor input id; LVerify f' t' g (requirements_of policy) verifier]
| made_available f t actor input artifact id policy f' t' g f'' t'' :
    split_slash (trim_slashes path) = ["publish"] → publication r actor input artifact id policy →
    registered s g input id → observed artifact id (coerce (Release.Platform (pr_Provenance input))) →
    made r path s [publish_call f t actor input id; LVerify f' t' g (requirements_of policy) verifier;
                   LMark f'' t'' g true acquirer]
| made_promote f t actor segment g :
    split_slash (trim_slashes path) = [segment; "promote"] → parseReleaseGeneration segment = Some g → 0 < g →
    promoter_may r actor "release.promote" → made r path s [LPromote f t g actor]
| made_rollback f t actor agentType g :
    split_slash (trim_slashes path) = ["agent-types"; agentType] →
    promoter_may r actor "release.rollback" → made r path s [LRollback f t agentType g actor].

Lemma made_extends r path s s' own : extends s s' → made r path s own → made r path s' own.
Proof using Type.
  intros He Hm. assert (∀ g input id, registered s g input id → registered s' g input id) as Hreg.
  { intros g input id (row & Hrow & Hid). destruct (ext_rows _ _ He row Hrow) as (row' & ? & ?). exists row'. split; [done|congruence]. }
  destruct Hm; econstructor; eauto.
Qed.

(** ** The calls of a request in the history *)

Definition own_calls (h : list (bool * Release.call)) : list Release.call := map snd (List.filter fst h).

Lemma own_calls_app h h' : own_calls (h ++ h') = own_calls h ++ own_calls h'.
Proof using Type. unfold own_calls. by rewrite List.filter_app, map_app. Qed.
Lemma own_calls_others cs : own_calls (map (pair false) cs) = [].
Proof using Type. induction cs; [done|]. exact IHcs. Qed.
Lemma map_snd_others (cs : list Release.call) : map snd (map (pair false) cs) = cs.
Proof using Type. rewrite map_map. apply map_id. Qed.

(** From [w0] to [w] the request made these calls, among those of others. *)
Definition progress (w0 w : world) (own : list Release.call) : Prop :=
  ∃ h, history w = history w0 ++ h ∧ registry w = Release.run (registry w0) (map snd h) ∧ own_calls h = own.

Definition served (r : release_request) (path : string) (w0 w : world) : Prop :=
  ∃ own, progress w0 w own ∧ made r path (registry w) own.

Lemma progress_refl w : progress w w [].
Proof using Type. exists []. by rewrite app_nil_r. Qed.

Lemma progress_extends w0 w own : progress w0 w own → extends (registry w0) (registry w).
Proof using Type. intros (h & _ & -> & _). apply run_extends. Qed.

Lemma progress_others w0 w own cs d : progress w0 w own →
  progress w0 {| registry := Release.run (registry w) cs; docker := d; history := history w ++ map (pair false) cs |} own.
Proof using Type.
  intros (h & Hh & Hr & Ho). exists (h ++ map (pair false) cs). cbn [history registry]. split_and!.
  - by rewrite Hh, app_assoc.
  - by rewrite Hr, map_app, map_snd_others, run_app.
  - by rewrite own_calls_app, own_calls_others, app_nil_r.
Qed.

Lemma progress_call w0 w own cs cl d : progress w0 w own →
  progress w0 {| registry := run_call (Release.run (registry w) cs) cl; docker := d;
                 history := history w ++ map (pair false) cs ++ [(true, cl)] |} (own ++ [cl]).
Proof using Type.
  intros (h & Hh & Hr & Ho). exists (h ++ map (pair false) cs ++ [(true, cl)]). cbn [history registry]. split_and!.
  - by rewrite Hh, <- app_assoc.
  - by rewrite Hr, !map_app, map_snd_others, !run_app.
  - by rewrite !own_calls_app, own_calls_others, Ho.
Qed.

(** ** Rules for the steps of a request *)

Section Request.
Variables (r : release_request) (path : string) (w0 : world).
Notation served := (served r path w0).

Lemma progress_served own w : progress w0 w own → made r path (registry w) own → served w.
Proof using Type. by exists own. Qed.

Lemma wp_transact {A} own (call : fault → (nat → time) → Release.call) (f : fault → (nat → time) → store → store * result rel_error A) Q w :
  (∀ fa t s, run_call s (call fa t) = (f fa t s).1) →
  progress w0 w own → made r path (registry w) own →
  (∀ fa t s a w', progress w0 w' (own ++ [call fa t]) → extends (registry w) s → extends s (registry w') →
     f fa t s = (registry w', a) → Q a w') →
  wp served (transact dies before fl clock call f) Q w.
Proof using Type.
  intros Hf Hp Hm HQ. apply wp_effect; [by apply (progress_served own)|]. intros k.
  set (s := Release.run (registry w) (before k)). specialize (Hf (fl k) (clock k) s) as Hs.
  destruct (f (fl k) (clock k) s) as [s' a] eqn:E. cbn in *. eapply HQ; [|apply (run_extends _ (before k))| |exact E].
  - pose proof (progress_call w0 w own (before k) (call (fl k) (clock k)) (docker w) Hp) as H1. fold s in H1. by rewrite Hs in H1.
  - cbn [registry]. rewrite <- Hs. apply call_extends.
Qed.

Lemma wp_reading {A} own (f : fault → store → result rel_error A) Q w :
  progress w0 w own → made r path (registry w) own →
  (∀ fa w', progress w0 w' own → extends (registry w) (registry w') → Q (f fa (registry w')) w') →
  wp served (query dies before fl f) Q w.
Proof using Type.
  intros Hp Hm HQ. apply wp_effect; [by apply (progress_served own)|]. intros k.
  apply (HQ (fl k) {| registry := Release.run (registry w) (before k); docker := docker w;
                      history := history w ++ map (pair false) (before k) |}); [by apply progress_others|apply run_extends].
Qed.

Lemma wp_docker {A} own (f : nat → D → D * A) Q w :
  progress w0 w own → made r path (registry w) own →
  (∀ k w', progress w0 w' own → registry w' = registry w → Q (f k (docker w)).2 w') →
  wp served (on_docker dies f) Q w.
Proof using Type.
  intros Hp Hm HQ. apply wp_effect; [by apply (progress_served own)|]. intros k.
  specialize (HQ k). destruct (f k (docker w)) as [d a]. by apply HQ.
Qed.

(** An error, or the image is what Docker reports of the loaded artifact. *)
Lemma wp_acquire own artifact item id (Q : result rel_error unit → world → Prop) w :
  progress w0 w own → made r path (registry w) own →
  (∀ a w', progress w0 w' own → registry w' = registry w →
     (a = Ok () → observed artifact id (Release.Platform (Prov item))) → Q a w') →
  wp served (acquireDockerArtifact dies artifact item id) Q w.
Proof using Type.
  intros Hp Hm HQ. unfold acquireDockerArtifact. apply wp_andThen. apply (wp_docker own); [done..|].
  intros k w' Hp' Hr'. destruct (LoadImage k (docker w) artifact).2 as [[]|e] eqn:El; [|apply wp_done, HQ; done].
  apply wp_andThen. unfold ImageIdentity. apply wp_try. apply (wp_docker own); [done|by rewrite Hr'|].
  intros k' w2 Hp2 Hr2. rewrite Hr' in Hr2. destruct (e_image k' (docker w') id).2 as [out|e] eqn:Eo; [|by apply wp_done, HQ].
  apply wp_done.
  destruct (String.eqb_spec (img_ID out) id) as [Hid|]; cbn [negb]; [|by apply wp_done, HQ].
  destruct (String.eqb_spec (platform_of_image out) (Release.Platform (Prov item))); cbn [negb]; [|by apply wp_done, HQ].
  apply wp_done, HQ; [done..|]. intros _. split; [by exists k, (docker w)|]. exists k', (docker w'), out. by rewrite Eo.
Qed.
End Request.

(** ** What a request carries *)

Lemma admit_promoter_ok r operation promoter :
  admit_promoter sha256_hex principals r operation = Ok promoter → promoter_may r (vp_Name promoter) operation.
Proof using Type.
  unfold admit_promoter, AuthenticatePromoter, requirePOST. intros [Hm H1]%fail_if_ok.
  destruct (first_principal _ _ _) as [id|] eqn:E; [|done]. apply first_principal_some in E as (Hin & _ & Ht & Hs).
  apply fail_if_ok in H1 as [Ha [= <-]]. split; [by bool_hyps|]. exists (id_Principal id). split_and!; try done.
  apply contains_elem. by apply negb_false_iff.
Qed.

Lemma same_name l (p q : part) : NoDup (map FormName l) → p ∈ l → q ∈ l → FormName p = FormName q → p = q.
Proof using Type.
  induction l as [|x l IH]; [by intros _ ?%not_elem_of_nil|]. intros [Hx Hl]%NoDup_cons Hp Hq E.
  apply elem_of_cons in Hp as [->|Hp], Hq as [->|Hq]; [done| | |by apply IH];
    destruct Hx; [rewrite E|rewrite <- E]; by apply list_elem_of_fmap_2.
Qed.

Lemma read_parts_some maxBytes l got got' :
  read_parts decode_metadata maxBytes got l = Some got' →
  NoDup (map FormName l) ∧ (∀ p, p ∈ l → FormName p ∉ seen got) ∧
  (∀ n, n ∈ seen got' ↔ n ∈ seen got ∨ n ∈ map FormName l) ∧
  (∀ p, p ∈ l → FormName p ∈ part_names ∧ ∃ b, p_Content p = Some b ∧ byte_len b ≤ maxBytes ∧
     (FormName p = "protocol" → b = releasePublishProtocol) ∧ (FormName p = "metadata" → decode_metadata b = Some (d_input got')) ∧
     (FormName p = "artifact" → b = d_artifact got')) ∧
  ("metadata" ∉ map FormName l → d_input got' = d_input got) ∧ ("artifact" ∉ map FormName l → d_artifact got' = d_artifact got).
Proof using Type.
  revert got. induction l as [|p l IH]; intros got; cbn [read_parts map].
  { intros [= <-]. split_and!; try done; [constructor|by intros p ?%not_elem_of_nil| |by intros p ?%not_elem_of_nil].
    intros n. split; [by left|]. by intros [?|?%not_elem_of_nil]. }
  destruct (contains (seen got) (FormName p)) eqn:Es; [done|]. destruct (contains part_names (FormName p)) eqn:En; [|done].
  cbn [negb orb]. destruct (p_Content p) as [b|] eqn:Eb; [|done]. destruct (Z.ltb_spec maxBytes (byte_len b)); [done|].
  assert (FormName p ∉ seen got) as Hfresh. { intros Hin. apply contains_elem in Hin. congruence. }
  apply contains_elem in En. intros E.
  assert (∃ i a, read_parts decode_metadata maxBytes {| seen := FormName p :: seen got; d_input := i; d_artifact := a |} l = Some got' ∧
    (FormName p = "protocol" → b = releasePublishProtocol) ∧ (FormName p = "metadata" → decode_metadata b = Some i) ∧
    (FormName p = "artifact" → b = a) ∧ (FormName p ≠ "metadata" → i = d_input got) ∧ (FormName p ≠ "artifact" → a = d_artifact got))
    as (i & a & E' & Hb1 & Hb2 & Hb3 & Hi & Ha).
  { destruct (String.eqb_spec (FormName p) "protocol") as [Hn|Hn]; [destruct (String.eqb_spec b releasePublishProtocol); [|done]|].
    { eexists _, _. split; [exact E|]. rewrite Hn. by split_and!. }
    destruct (String.eqb_spec (FormName p) "metadata") as [Hn'|Hn']; [destruct (decode_metadata b) as [i|] eqn:Ed; [|done]|].
    { eexists _, _. split; [exact E|]. rewrite Hn'. by split_and!. }
    eexists _, _. split; [exact E|]. 
    assert (FormName p = "artifact") as Hna; [|rewrite Hna; by split_and!].
    unfold part_names in En. rewrite !elem_of_cons in En. by destruct En as [?|[?|[?|?%not_elem_of_nil]]]. }
  destruct (IH _ E') as (Hnd & Hnew & Hseen & Hall & Hki & Hka). cbn [seen d_input d_artifact] in *.
  assert (FormName p ∉ map FormName l) as Hp.
  { intros (q & Hq & Hin)%list_elem_of_fmap. apply (Hnew q Hin). rewrite <- Hq. by left. }
  split_and!.
  - by constructor.
  - intros q [->|Hq]%elem_of_cons; [done|]. intros Hs. apply (Hnew q Hq). by right.
  - intros n. rewrite Hseen, !elem_of_cons. split; [intros [[?|?]|?]|intros [?|[?|?]]]; auto.
  - intros q [->|Hq]%elem_of_cons; [|by apply Hall]. split; [done|]. exists b. split_and!; try done.
    + intros Hn. rewrite Hki by (by rewrite <- Hn). by apply Hb2.
    + intros Hn. rewrite Hka by (by rewrite <- Hn). by apply Hb3.
  - intros Hn%not_elem_of_cons. rewrite Hki by apply Hn. apply Hi. intros Hq. by destruct (proj1 Hn).
  - intros Hn%not_elem_of_cons. rewrite Hka by apply Hn. apply Ha. intros Hq. by destruct (proj1 Hn).
Qed.

Lemma decodeReleasePublishRequest_sent r input artifact :
  decodeReleasePublishRequest decode_metadata r (ReleaseArtifactByteLimit c) = Some (input, artifact) → sent r input artifact.
Proof using Type.
  unfold decodeReleasePublishRequest. destruct (bool_decide _) eqn:Em; [|done]. cbn [negb]. apply bool_decide_eq_true in Em.
  destruct (read_parts _ _ _ _) as [got|] eqn:E; [|done]. destruct (rq_Ends r) eqn:Ee; [|done]. cbn [negb].
  destruct (forallb _ _) eqn:Ea; [|done]. destruct (String.eqb_spec (d_artifact got) ""); [done|]. cbn [negb orb]. intros [= <- <-].
  apply read_parts_some in E as (Hnd & _ & Hseen & Hall & _).
  assert (∀ n, n ∈ part_names → ∃ p, p ∈ rq_Parts r ∧ FormName p = n) as Hex.
  { intros nm Hn. rewrite forallb_elem_of in Ea. specialize (Ea nm Hn). apply contains_elem, Hseen in Ea.
    destruct Ea as [?%not_elem_of_nil|(p & -> & ?)%list_elem_of_fmap]; [done|by exists p]. }
  destruct (Hex "metadata") as (pm & Hpm & Hnm); [by vm_compute; repeat constructor|].
  destruct (Hex "artifact") as (pa & Hpa & Hna); [by vm_compute; repeat constructor|].
  destruct (Hall pm Hpm) as (_ & m & Hcm & _ & _ & Hdm & _). destruct (Hall pa Hpa) as (_ & a & Hca & Hla & _ & _ & Hda).
  rewrite <- (Hda Hna). split_and!; [done|done|by rewrite (Hda Hna)|done|]. exists m. split; [by apply Hdm|].
  apply NoDup_Permutation.
  - apply (NoDup_fmap_1 fst). by rewrite <- list_fmap_compose.
  - apply (NoDup_fmap_1 fst). change (NoDup part_names). by apply (bool_decide_eq_true_1 (NoDup part_names)).
  - intros x. split.
    + intros (p & -> & Hp)%list_elem_of_fmap. destruct (Hall p Hp) as (Hn & b & Hb & _ & H1 & H2 & H3). rewrite Hb.
      unfold part_names in Hn. rewrite !elem_of_cons in *. destruct Hn as [Hn|[Hn|[Hn|?%not_elem_of_nil]]]; [..|done].
      * left. by rewrite Hn, H1.
      * right; left. assert (p = pm) as -> by (eapply same_name; [exact Hnd|done|done|congruence]).
        rewrite Hcm in Hb. injection Hb as <-. by rewrite Hn.
      * right; right; left. by rewrite Hn, H3, (Hda Hna).
    + rewrite !elem_of_cons. intros [->|[->|[->|?%not_elem_of_nil]]]; [..|done].
      * destruct (Hex "protocol") as (p & Hp & Hn); [by vm_compute; repeat constructor|].
        destruct (Hall p Hp) as (_ & b & Hb & _ & Hproto & _). apply list_elem_of_fmap. exists p. by rewrite Hn, Hb, Hproto.
      * apply list_elem_of_fmap. exists pm. by rewrite Hnm, Hcm.
      * apply list_elem_of_fmap. exists pa. by rewrite Hna, Hca.
Qed.

Lemma admit_promoter_err r operation resp :
  admit_promoter sha256_hex principals r operation = Err resp → ∃ code, reply resp = Code code.
Proof using Type.
  unfold admit_promoter. destruct (requirePOST r); cbn; [|intros [= <-]; by eexists].
  destruct (AuthenticatePromoter _ _ _); [|intros [= <-]; by eexists].
  destruct (negb _); [intros [= <-]; by eexists|done].
Qed.

Lemma switched_row s item t g state now1 now2 : item ∈ releases s → Generation item = g →
  ∃ row, row ∈ releases (switched s t g state now1 now2) ∧ Generation row = g ∧ State row = StateActive.
Proof using Type.
  intros Hin Hg. set (row := activate g now2 (demote (found_active s t) state now1 item)).
  assert (Generation row = g) as Hrow by (rewrite <- Hg; exact (f_equal (λ p, p.1.1.1.1) (switched_identity s t g state now1 now2 item))).
  exists row. split_and!; [apply list_elem_of_fmap; by exists item|done|]. unfold row. rewrite switched_state.
  destruct (Z.eqb_spec (Generation item) g); done.
Qed.

(** ** What a request leads to *)

Definition logged (s : store) (g : Z) (operation actor : string) : Prop :=
  ∃ e, e ∈ audit_log s ∧ a_Generation e = g ∧ a_Operation e = operation ∧ a_Actor e = actor.

(** The answer: an error, the release that this request published, or a release made active. *)
Inductive answered (r : release_request) (w0 w : world) : release_reply → Prop :=
| answered_code code : answered r w0 w (Code code)
| answered_created f t actor input artifact id policy f' t' g f'' t'' item :
    progress w0 w [publish_call f t actor input id; LVerify f' t' g (requirements_of policy) verifier; LMark f'' t'' g true acquirer] →
    publication r actor input artifact id policy →
    observed artifact id (coerce (Release.Platform (pr_Provenance input))) →
    item ∈ releases (registry w) →
    identity item = (g, pr_AgentType input, release_image (pr_AgentType input) id, id, coerce_provenance (pr_Provenance input)) →
    logged (registry w) g OperationVerify verifier → logged (registry w) g OperationAcquire acquirer →
    answered r w0 w (Created item)
| answered_active f t actor g row :
    progress w0 w [LPromote f t g actor] ∨ (∃ agentType, progress w0 w [LRollback f t agentType g actor]) →
    row ∈ releases (registry w) → Generation row = g → State row = StateActive →
    answered r w0 w NoContent.

Lemma logged_extends s s' g operation actor : wf s → extends s s' → logged s g operation actor → logged s' g operation actor.
Proof using Type. intros Hs He (e & Hin & ?). exists e. split; [by apply (ext_log _ _ He)|done]. Qed.

Lemma registered_extends s s' g input id : extends s s' → registered s g input id → registered s' g input id.
Proof using Type.
  intros He (row & Hrow & Hid). destruct (ext_rows _ _ He row Hrow) as (row' & ? & ?). exists row'. split; [done|congruence].
Qed.

(** Generations are unique: what is read of one is the release on record. *)
Lemma registered_read s g input id item f : wf s → registered s g input id → Get f s g = Ok item →
  item ∈ releases s ∧
  identity item = (g, pr_AgentType input, release_image (pr_AgentType input) id, id, coerce_provenance (pr_Provenance input)).
Proof using Type.
  intros Hs (row & Hrow & Hid) [Hin Hg]%loadTx_ok. split; [done|]. rewrite <- Hid. f_equal.
  apply (same_generation s); try done. unfold identity in Hid. injection Hid. congruence.
Qed.

Lemma hex_no_at s : all_chars is_lower_hex s = true → after_last_at s = None.
Proof using Type.
  intros Hs. apply after_last_at_none. unfold all_chars in *. rewrite forallb_elem_of in *. intros ch Hin.
  specialize (Hs ch Hin). by destruct (Ascii.eqb_spec ch "@") as [->|].
Qed.

Lemma image_no_at data platform id : identifies json sha256_hex data platform id → after_last_at id = None.
Proof using hex.
  intros (m & cp & cb & cfg & _ & _ & _ & _ & _ & _ & Hid).
  assert (∃ content, id = digestBytes sha256_hex content) as [content ->].
  { destruct Hid as [[_ ->]|(ib & d & imb & im & _ & _ & _ & _ & -> & _)]; by eexists. }
  unfold digestBytes. rewrite !sapp_cons, sapp_nil. cbn [after_last_at]. by rewrite (hex_no_at _ (hex content)).
Qed.

Section Serve.
Variables (r : release_request) (path : string) (w0 : world).
Hypothesis Hwf : wf (registry w0).
Notation served := (served r path w0).
Notation goal := (λ resp w, served w ∧ answered r w0 w (reply resp)).

Lemma progress_wf own w : progress w0 w own → wf (registry w).
Proof using Hwf. intros Hp. by apply (progress_extends _ _ _ Hp). Qed.

Lemma wp_code own resp code w : reply resp = Code code → progress w0 w own → made r path (registry w) own →
  wp served (done resp) goal w.
Proof using Type. intros E Hp Hm. apply wp_done. split; [by exists own|]. rewrite E. constructor. Qed.

Lemma wp_error own e w : progress w0 w own → made r path (registry w) own → wp served (done (writeReleaseError e)) goal w.
Proof using Type. intros. destruct e; by eapply (wp_code own). Qed.

Lemma wp_refuse resp code : reply resp = Code code → wp served (done resp) goal w0.
Proof using Type. intros E. eapply (wp_code []); [done|apply progress_refl|constructor]. Qed.

Lemma refused_code st : ∃ code, reply (refused st) = Code code.
Proof using Type. unfold refused. cbn. by eexists. Qed.

Lemma wp_admit operation k : (∀ promoter, promoter_may r (vp_Name promoter) operation → wp served (k promoter) goal w0) →
  wp served (match admit_promoter sha256_hex principals r operation with Err refusal => done refusal | Ok promoter => k promoter end) goal w0.
Proof using Type.
  intros Hk. destruct (admit_promoter _ _ _ _) as [promoter|resp] eqn:Ea; [by apply Hk, admit_promoter_ok|].
  apply admit_promoter_err in Ea as [code Ea]. by eapply wp_refuse.
Qed.

Lemma serve_promote segment generation : split_slash (trim_slashes path) = [segment; "promote"] →
  parseReleaseGeneration segment = Some generation → 0 < generation →
  wp served (handleReleasePromote dies sha256_hex decode_empty c principals before fl clock r generation) goal w0.
Proof using Hwf.
  intros Hpath Hseg Hg. apply wp_admit. intros promoter Hmay.
  destruct (decodeReleaseRequest _ _ _); [|by eapply wp_refuse].
  apply wp_andThen. apply (wp_transact r path w0 []); [done|apply progress_refl|constructor|].
  intros fa t s a w Hp _ Hs E. cbn [app] in Hp.
  assert (made r path (registry w) [LPromote fa t generation (vp_Name promoter)]) as Hm by by eapply made_promote.
  destruct a as [[]|e]; cbn [or_release_error]; [|by eapply wp_error].
  apply wp_done. split; [by eexists|]. apply Promote_ok in E as (item & Hin & Hgi & _ & _ & _ & _ & Er).
  destruct (switched_row s item (AgentType item) generation StateSuperseded (t 0%nat) (t 1%nat) Hin Hgi) as (row & Hrow & ? & ?).
  eapply answered_active; [by left| |done..]. by rewrite Er.
Qed.

Lemma serve_rollback agentType : split_slash (trim_slashes path) = ["agent-types"; agentType] →
  wp served (handleReleaseRollback dies sha256_hex decode_rollback c principals before fl clock r agentType) goal w0.
Proof using Hwf.
  intros Hpath. apply wp_admit. intros promoter Hmay.
  destruct (decodeReleaseRequest _ _ _) as [generation|]; [|by eapply wp_refuse].
  apply wp_andThen. apply (wp_transact r path w0 []); [done|apply progress_refl|constructor|].
  intros fa t s a w Hp _ Hs E. cbn [app] in Hp.
  assert (made r path (registry w) [LRollback fa t agentType generation (vp_Name promoter)]) as Hm by by eapply made_rollback.
  destruct a as [[]|e]; cbn [or_release_error]; [|by eapply wp_error].
  apply wp_done. split; [by eexists|]. apply Rollback_ok in E as (item & Hin & Hgi & _ & _ & _ & _ & Er).
  destruct (switched_row s item agentType generation StateRolledBack (t 0%nat) (t 1%nat) Hin Hgi) as (row & Hrow & ? & ?).
  eapply answered_active; [right; by eexists| |done..]. by rewrite Er.
Qed.

Lemma serve_publish : split_slash (trim_slashes path) = ["publish"] →
  wp served (handleReleasePublish dies json sha256_hex tar decode_metadata c principals importerOK before fl clock r) goal w0.
Proof using Hwf hex.
  intros Hpath. apply wp_admit. intros promoter Hmay.
  destruct (decodeReleasePublishRequest _ _ _) as [[input artifact]|] eqn:Ed; [|by eapply wp_refuse].
  apply decodeReleasePublishRequest_sent in Ed. destruct (_ !! _) as [policy|] eqn:Epol; [|by eapply wp_refuse].
  destruct (validateDockerArtifact _ _ _ _) as [id|] eqn:Ev; [|by eapply wp_refuse]. apply validateDockerArtifact_ok in Ev.
  assert (publication r (vp_Name promoter) input artifact id policy) as Hpub by done.
  apply wp_andThen. apply (wp_transact r path w0 []); [done|apply progress_refl|constructor|].
  intros fa t s a w Hp _ _ E. cbn [app] in Hp. set (cl := publish_call fa t (vp_Name promoter) input id) in *.
  assert (made r path (registry w) [cl]) as Hm by by eapply made_publish.
  destruct a as [row|e]; cbn [or_release_error]; [|by eapply wp_error].
  apply PublishCandidate_ok in E as (digest & _ & _ & Hdig & _ & _ & -> & Er).
  apply digestOf_image in Hdig as ->; [|by eapply image_no_at]. cbn [or_release_error row_of Generation].
  set (g := release_seq s + 1) in *.
  assert (registered (registry w) g input id) as Hreg.
  { rewrite Er. eexists. split; [apply elem_of_app; right; by left|done]. }
  clearbody g. destruct importerOK; [|by eapply wp_error]. cbn [negb].
  apply wp_andThen. unfold VerifyAndMarkAvailable. apply wp_try. apply (wp_transact r path w0 [cl]); [done..|].
  intros fa1 t1 s1 a1 w1 Hp1 Hx1 Hy1 E1. cbn [app] in Hp1.
  assert (registered (registry w1) g input id) as Hreg1 by (eapply registered_extends; [|exact Hreg]; by transitivity s1).
  assert (made r path (registry w1) [cl; LVerify fa1 t1 g (requirements_of policy) verifier]) as Hm1 by by eapply made_verify.
  destruct a1 as [[]|e]; cbn [or_release_error]; [|by eapply wp_error].
  assert (logged (registry w1) g OperationVerify verifier) as Hlog1.
  { apply verify_ok in E1 as (item & _ & _ & _ & _ & _ & Er1). rewrite Er1. eexists. split; [apply elem_of_app; right; by left|done]. }
  pose proof (progress_wf _ _ Hp1) as Hwf1.
  apply wp_try. eapply (wp_reading r path w0 _ _ _ w1); [done..|]. intros fa2 w2 Hp2 Hx2.
  destruct (Get fa2 (registry w2) g) as [item|e] eqn:Eg; cbn [or_release_error]; [|by eapply wp_error; [|eapply made_extends]].
  pose proof (progress_wf _ _ Hp2) as Hwf2.
  destruct (registered_read _ _ _ _ _ _ Hwf2 (registered_extends _ _ _ _ _ Hx2 Hreg1) Eg) as [_ Hitem].
  apply wp_try. eapply (wp_acquire r path w0 _ artifact item id _ w2); [done|by eapply made_extends|].
  intros a3 w3 Hp3 Hr3 Hobs. destruct a3 as [[]|e]; cbn [or_release_error]; [|eapply wp_error; [done|]; rewrite Hr3; by eapply made_extends].
  specialize (Hobs eq_refl). replace (Prov item) with (coerce_provenance (pr_Provenance input)) in Hobs by (unfold identity in Hitem; by simplify_eq).
  eapply (wp_transact r path w0 _ _ _ _ w3); [done|done|rewrite Hr3; by eapply made_extends|].
  intros fa4 t4 s4 a4 w4 Hp4 Hx4 Hy4 E4. cbn [app] in Hp4. rewrite Hr3 in Hx4.
  assert (extends (registry w1) (registry w4)) as Hx by (transitivity (registry w2); [done|by transitivity s4]).
  pose proof (registered_extends _ _ _ _ _ Hx Hreg1) as Hreg4.
  assert (made r path (registry w4) [cl; LVerify fa1 t1 g (requirements_of policy) verifier; LMark fa4 t4 g true acquirer]) as Hm4
    by by eapply made_available.
  destruct a4 as [[]|e]; cbn [or_release_error]; [|by eapply wp_error].
  assert (logged (registry w4) g OperationAcquire acquirer) as Hlog4.
  { apply markAvailable_ok in E4 as (item' & _ & _ & _ & Er4). rewrite Er4. eexists. split; [apply elem_of_app; right; by left|done]. }
  pose proof (progress_wf _ _ Hp4) as Hwf4.
  apply wp_andThen. eapply (wp_reading r path w0 _ _ _ w4); [done..|]. intros fa5 w5 Hp5 Hx5.
  destruct (Get fa5 (registry w5) g) as [ready|e] eqn:Eg5; cbn [or_release_error]; [|by eapply wp_error; [|eapply made_extends]].
  apply wp_done. split; [eexists; split; [exact Hp5|by eapply made_extends]|].
  destruct (registered_read _ _ _ _ _ _ (progress_wf _ _ Hp5) (registered_extends _ _ _ _ _ Hx5 Hreg4) Eg5) as [Hin Hid].
  eapply answered_created; [exact Hp5|done|done|done|exact Hid| |by eapply logged_extends].
  eapply logged_extends; [exact Hwf1|by transitivity (registry w4)|done].
Qed.

End Serve.
(** C24: a request of the release routes changes the registry only by the calls
    [made] allows, among those of other requests and wherever the process dies:
    a promoter whose token it carries and who may publish, promote or roll back;
    a published image whose identity is that of the artifact sent, verified by
    the policy of its agent type, and available once Docker has loaded the
    artifact and reports that image and platform.  A release that is answered is
    that image's, verified and acquired; after an answer without content the
    release asked for is active. *)
Theorem releases_gated is_open r path w0 (Hwf : wf (registry w0)) :
  wp (served r path w0)
     (handleRelease dies json sha256_hex tar decode_metadata decode_empty decode_rollback c principals importerOK
        before fl clock is_open r path)
     (λ resp w, served r path w0 w ∧ answered r w0 w (reply resp)) w0.
Proof using hex.
  unfold handleRelease. destruct is_open; [|by eapply wp_refuse]. cbn [negb].
  destruct (split_slash (trim_slashes path)) as [|a [|b [|]]] eqn:Ep; try by eapply wp_refuse.
  - destruct (String.eqb_spec a "publish") as [->|]; [by apply serve_publish|by eapply wp_refuse].
  - destruct ((a =? "agent-types")%string && negb (b =? "")%string) eqn:Et; [bool_hyps; subst a; by apply serve_rollback|].
    destruct (String.eqb_spec b "promote") as [->|]; [|by eapply wp_refuse].
    destruct (parseReleaseGeneration a) as [generation|] eqn:Eg; [|by eapply wp_refuse].
    destruct (Z.ltb_spec 0 generation); [by eapply serve_promote|by eapply wp_refuse].
Qed.

End Gate.

(** ** A publication, on concrete data *)

(** A Docker whose state says whether it loads images. *)
Definition loader_image : string := "sha256:" +:+ hex64 "a".
#[local] Instance loader_engine : DockerEngine bool := {|
  e_image := λ _ d image, (d, Ok {| img_ID := image; img_RepoDigests := []; img_Os := "linux"; img_Architecture := "arm64" |});
  e_create := λ _ d _ _, (d, Err DockerTransport); e_inspect := λ _ d _, (d, Err DockerTransport);
  e_start := λ _ d _, (d, Err DockerTransport); e_stop := λ _ d _, (d, Err DockerTransport);
  e_wait := λ _ d _, (d, Err DockerTransport); e_remove := λ _ d _, (d, Err DockerTransport) |}.
#[local] Instance loader : ImageLoader bool := {| LoadImage := λ _ (d : bool) _, (d, if d then Ok () else Err DockerTransport) |}.

Definition sample_hash (s : string) : string :=
  hex64 (if (s =? "config")%string then "a" else if (s =? "t1")%string then "b" else if (s =? "t2")%string then "c" else "d")%char.

Lemma sample_hex s : all_chars is_lower_hex (sample_hash s) = true.
Proof. unfold sample_hash. by repeat case_match. Qed.

Definition sample_archive (_ : string) : archive :=
  {| entries := [{| t_Name := "manifest.json"; t_Kind := Regular; t_Content := Some "manifest" |};
                 {| t_Name := "blobs/"; t_Kind := Directory; t_Content := None |};
                 {| t_Name := "blobs/sha256/" +:+ hex64 "a"; t_Kind := Regular; t_Content := Some "config" |}]; ends := true |}.
Definition sample_json : Json :=
  {| j_manifests := λ _, Some ["blobs/sha256/" +:+ hex64 "a"]; j_config := λ _, Some {| OS := "linux"; Architecture := "arm64" |};
     j_index := λ _, None; j_image := λ _, None |}.
Definition sample_input : publishReleaseRequest :=
  {| pr_AgentType := "coder";
     pr_Provenance := {| SourceRevision := "abc"; DependencyManifestSHA256 := ""; Release.Platform := "linux/arm64";
                         PublishedBy := "ci"; PublishedAt := "" |} |}.

Definition promoters : list (string * OperatorPrincipal) :=
  [("publisher", operator "t1" "owned" ["release.publish"]); ("promoter", operator "t2" "owned" ["release.promote"])].
Definition release_config : config :=
  {| Listen := ""; MCPPath := ""; AuthToken := ""; AuthTokenEnv := ""; c_RunsDir := "/runs"; LaunchIntentStore := "";
     ReleaseStore := ""; CapabilityStore := ""; CapabilityAPIToken := ""; CapabilityAPITokenEnv := "";
     c_BrokerURL := ""; Production := false; c_Repositories := []; c_Networks := ∅; c_Bundles := ∅; c_Templates := ∅;
     LaunchProfiles := ∅; ModelPolicies := ∅; CodexHolder := {| MasterAuthPath := ""; IssuanceRoot := "" |};
     OperatorPrincipals := ∅;
     AgentReleasePolicies := {["coder" := {| SandboxConfig.ProvenanceFields := ["source_revision"];
                                             SandboxConfig.Platforms := ["linux/arm64"] |}]};
     c_MaxTaskBytes := 0; MaxParameterBytes := 0; LogByteLimit := 0;
     TerminalResultByteLimit := 0; ReleaseArtifactByteLimit := 100; StopGrace := 0; c_ConfigVersion := "" |}.

Definition upload (authorization : string) : release_request :=
  {| rq_Head := on_path "POST" "/v1/releases/publish" authorization; rq_MediaType := Some "multipart/form-data";
     rq_Parts := [{| FormName := "metadata"; p_Content := Some "{}" |};
                  {| FormName := "protocol"; p_Content := Some releasePublishProtocol |};
                  {| FormName := "artifact"; p_Content := Some "tar" |}]; rq_Ends := true; rq_Body := None |}.
Definition posted (path authorization : string) : release_request :=
  {| rq_Head := on_path "POST" path authorization; rq_MediaType := None; rq_Parts := []; rq_Ends := true; rq_Body := Some "" |}.

Definition sample_world (loads : bool) : @world bool := {| registry := empty_store; docker := loads; history := [] |}.
Definition release_served (r : release_request) (path : string) (w : @world bool) :=
  handleRelease (λ _, false) sample_json sample_hash sample_archive (λ _, Some sample_input) (λ _, true) (λ _, None)
    release_config promoters true (λ _, []) (λ _, None) (λ _, ticks) true r path 0%nat w.

Definition st_of (o : nat * @world bool * option (response release_reply)) : option Z := status <$> o.2.
Definition rows_of (o : nat * @world bool * option (response release_reply)) :=
  map (λ r, (Generation r, ImageReference r, State r, Available r)) (releases (registry o.1.2)).

Definition ready_image : string := "local.agent/coder@sha256:" +:+ hex64 "a".

(** A publication, its promotion by another principal, and who may not. *)
Example published_ex :
  let o := release_served (upload "Bearer t1") "publish" (sample_world true) in
  let o' := release_served (posted "/v1/releases/1/promote" "Bearer t2") "1/promote" o.1.2 in
  st_of o = Some 201 ∧ rows_of o = [(1, ready_image, StateVerified, true)] ∧
  st_of o' = Some 204 ∧ rows_of o' = [(1, ready_image, StateActive, true)] ∧
  st_of (release_served (upload "Bearer t2") "publish" (sample_world true)) = Some 403 ∧
  st_of (release_served (upload "Bearer t3") "publish" (sample_world true)) = Some 401.
Proof. split_and!; vm_compute; reflexivity. Qed.

Lemma releases_gated_witness :
  let w := sample_world true in
  let o := release_served (upload "Bearer t1") "publish" w in
  ∃ resp, o.2 = Some resp ∧ status resp = 201 ∧
    answered sample_json sample_hash sample_archive (λ _, Some sample_input) release_config promoters (upload "Bearer t1") w o.1.2 (reply resp).
Proof.
  cbv zeta.
  pose proof (releases_gated (λ _, false) sample_json sample_hash sample_archive (λ _, Some sample_input) (λ _, true) (λ _, None)
    release_config promoters true (λ _, []) (λ _, None) (λ _, ticks) sample_hex true (upload "Bearer t1") "publish"
    (sample_world true) registry_empty_wf 0%nat) as H.
  change (handleRelease _ _ _ _ _ _ _ _ _ _ _ _ _ _ _ _ 0%nat _) with (release_served (upload "Bearer t1") "publish" (sample_world true)) in H.
  destruct (release_served _ _ _) as [[k w] [resp|]] eqn:E.
  - exists resp. split; [reflexivity|]. split; [|exact (proj2 H)].
    assert (st_of (k, w, Some resp) = Some 201) as Es by (rewrite <- E; vm_compute; reflexivity).
    injection Es as Es. exact Es.
  - assert (st_of (k, w, None) = Some 201) as Es by (rewrite <- E; vm_compute; reflexivity). discriminate Es.
Defined.

(** ** What the routes leave open *)

(** When Docker does not load the image the release stays on record, and it can
    neither be published again nor acquired: the same artifact is refused for
    good, since no route verifies or acquires a release. *)
Example failed_import_is_final :
  let o := release_served (upload "Bearer t1") "publish" (sample_world false) in
  let w := {| registry := registry o.1.2; docker := true; history := history o.1.2 |} in
  st_of o = Some 400 ∧ rows_of o = [(1, ready_image, StateVerified, false)] ∧
  st_of (release_served (upload "Bearer t1") "publish" w) = Some 400 ∧
  rows_of (release_served (upload "Bearer t1") "publish" w) = rows_of o.
Proof. cbv zeta. split_and!; vm_compute; reflexivity. Qed.

(** The generation in a path may have anything after its digits. *)
Example promoted_by_another_name :
  let o := release_served (upload "Bearer t1") "publish" (sample_world true) in
  st_of (release_served (posted "/v1/releases/1-not/promote" "Bearer t2") "1-not/promote" o.1.2) = Some 204.
Proof. vm_compute. reflexivity. Qed.
