(* ===== verification/OperatorLaunch.v ===== *)
(** * The operators' API over the launches

    The service of Launch behind the API: [launch_service] implements
    [OperatorService].  With it, what holds of every history of launches
    (LaunchHistory) holds of every history of HTTP requests.  The launches here are
    those of plain profiles: a profile with a Codex workflow takes other branches
    of LaunchProfile, resumeLaunchIntent, StopAgent and CleanupRun, which are in
    CodexWorkflow, one run at a time. *)

From S2P Require Import Prelude GoStrings GoTime GoJson Http Capability CapabilityStore Sandbox LaunchIntents Process Docker.
From S2P Require Import Launch LaunchInvariant LaunchSafety LaunchSim LaunchHistory Cleanup Parameters SandboxConfig OperatorApi OperatorGate.
Open Scope string_scope.
Open Scope list_scope.
Open Scope Z_scope.

(** ** The calls *)

Section Calls.
Context {D : Type} `{Eng : DockerEngine D} `{Svc : Service} `{Rem : Removals}.
(** The engine's logs of a container up to a number of bytes, and the files of a
    run's directory, redacted. *)
Variable LogByteLimit : Z.
Variable container_logs : string → Z → result svc_error string.
Variable collectFiles : string → string → result svc_error string.

Notation M := (prog (world D)).

Definition DryRunLaunch (i : LaunchAgentInput) : M (result svc_error LaunchAgentOutput) :=
  r <-! select i ;;
  match r with
  | Err x => done (Err (EValidation x))
  | Ok (tmpl, runID, branch, limit, release) =>
    t <-! clock ;;
    let m := launch_metadata cfg "" (in_Profile i) "" "" i tmpl runID branch limit release t in
    match validateTaskContract cfg (taskContract cfg (m_run m)) with
    | Err x => done (Err (EValidation x))
    | Ok _ => done (Ok (launchOutput m))
    end
  end.

(** The preview's metadata has no verification task. *)
Definition without_verification (i : LaunchAgentInput) : LaunchAgentInput :=
  {| in_Template := in_Template i; in_Task := in_Task i; in_VerificationTask := ""; in_Repo := in_Repo i;
     in_BaseBranch := in_BaseBranch i; in_Branch := in_Branch i; in_MaxRuntimeMinutes := in_MaxRuntimeMinutes i;
     in_MaxRuntimeSeconds := in_MaxRuntimeSeconds i; in_Deliverables := in_Deliverables i; in_Focus := in_Focus i;
     in_Parameters := in_Parameters i; in_Profile := in_Profile i; in_WorkItem := in_WorkItem i |}.

Definition PreviewLaunch (i : LaunchAgentInput) : M (result svc_error LaunchPreview) :=
  r <-! select i ;;
  match r with
  | Err x => done (Err (EValidation x))
  | Ok (tmpl, runID, branch, limit, release) =>
    t <-! clock ;;
    let m := launch_metadata cfg "" (in_Profile i) "" "" (without_verification i) tmpl runID branch limit release t in
    let contract := taskContract cfg (m_run m) in
    match validateTaskContract cfg contract with
    | Err x => done (Err (EValidation x))
    | Ok _ => done (Ok {| pv_ConfigVersion := ConfigVersion cfg; pv_Request := i; pv_Contract := contract;
                          pv_Template := tmpl; pv_RuntimeSeconds := Z.quot limit second |})
    end
  end.

(** A nil list of profiles is no restriction; one that is empty but not nil,
    which no valid configuration has beside the status action, is not told apart. *)
Definition listed (principal : string) (profiles : list string) (profileScope : bool) (m : RunMetadata) : bool :=
  negb (negb (is_nil profiles) && negb (contains profiles (Profile (m_run m))))
  && negb (negb profileScope && negb (Principal (m_run m) =? principal)%string).

Definition listAgentsForPrincipal (principal : string) (profiles : list string) (profileScope : bool)
    : M (list RunMetadata) :=
  peek (λ w, List.filter (listed principal profiles profileScope) (map snd (map_to_list (w_runs w)))).

Definition GetAgentLogs (runID : string) (maxBytes : Z) : M (result svc_error string) :=
  m <-? lookupRun runID ;;
  let limit := if (maxBytes <=? 0) || (LogByteLimit <? maxBytes) then LogByteLimit else maxBytes in
  done (container_logs (m_ContainerID m) limit).

Definition Collect (runID dir : string) : M (result svc_error string) :=
  m <-? lookupRun runID ;;
  done (collectFiles (m_RunID m) dir).

Definition GetTerminalResult (runID : string) : M (result svc_error RunMetadata) :=
  m <-? lookupRun runID ;;
  if negb (isTerminalStatus (m_Status m)) then done (Err EFile) else
  effect dies (λ k w, (w, if file_fails k then Err EFile else
    match w_results w !! m_RunID m with
    | Some r => if (m_RunID r =? m_RunID m)%string then Ok r else Err EFile
    | None => Err EFile
    end)).

(** ResumeRun of a run that no Codex workflow has.  Only the resumption of such a
    workflow records a request under a run, and only such a workflow leaves an
    ExternalWait: the request is not a replay, and the run waits for nothing. *)
Definition ResumeRun (principal rawKey fingerprint runID : string) (seconds : Z) : M (result svc_error answer) :=
  found <-? query_intents (λ fl rows, LookupRun fl rows runID) ;;
  match found with
  | Some i =>
    if negb (it_Principal i =? principal)%string then done (Err (EConflict "run_not_found"))
    else done (Err (EConflict "run_not_waiting_external"))
  | None => done (Err (EConflict "run_not_found"))
  end.

(** A call's answer. *)
Definition answer_with {A} (f : A → answer) (m : M (result svc_error A)) : M (result svc_error answer) :=
  r <-? m ;; done (Ok (f r)).

Definition invoke_launch (cl : call) : M (result svc_error answer) :=
  match cl with
  | CLaunch principal profile rawKey fingerprint i =>
    answer_with ALaunch (Launch.LaunchProfile principal profile rawKey fingerprint i)
  | CDryRun i => answer_with ALaunch (DryRunLaunch i)
  | CPreview i => answer_with APreview (PreviewLaunch i)
  | CList principal profiles scope => l <-! listAgentsForPrincipal principal profiles scope ;; done (Ok (ARuns l))
  | CStatus runID => answer_with AStatus (GetAgentStatus runID)
  | CLogs runID n => answer_with AText (GetAgentLogs runID n)
  | CTerminalResult runID => answer_with AStatus (GetTerminalResult runID)
  | CArtifacts runID => answer_with AText (Collect runID "output")
  | CLessons runID => answer_with AText (Collect runID "lessons")
  | CStop runID => answer_with AStatus (StopAgent runID)
  | CCleanup runID => answer_with AStatus (CleanupRun runID)
  | CResume principal rawKey fingerprint runID seconds => ResumeRun principal rawKey fingerprint runID seconds
  end.

(** [releases] answers the routes of the release registry, which is not part of this world. *)
Definition launch_service (releases : api_request → string → response string) : OperatorService (world D) :=
  {| lookup_run := lookupRun; invoke := invoke_launch; handleRelease := λ r rest, done (releases r rest) |}.
End Calls.

(** ** Histories of requests *)

(** Profiles launch plain runs, and take launches under a key only: without one
    no intent is kept. *)
Definition plain_keyed (c : config) : Prop :=
  ∀ name p, LaunchProfiles c !! name = Some p → lp_Codex p = None ∧ RequireIdempotencyKey p = true.

Section Requests.
Context {D : Type} `{Eng : DockerEngine D} `{Svc : Service} `{L : !DockerLaws parse_time} `{Rem : Removals}.
Variable c : config.
Variable re_compile : string → option (string → bool).
Variable principals : list (string * OperatorPrincipal).
Variable releases : api_request → string → response string.
Variable container_logs : string → Z → result svc_error string.
Variable collectFiles : string → string → result svc_error string.

Implicit Types (w : world D).

Definition service : OperatorService (world D) :=
  launch_service (LogByteLimit c) container_logs collectFiles releases.

Definition serve (r : api_request) : prog (world D) (response api_reply) :=
  @ServeHTTP (world D) service c re_compile sha256_hex principals r.

(** A request, or what happens beside the requests. *)
Inductive api_event := Requested (r : api_request) | Background (e : event).

Definition in_background (e : event) : Prop :=
  match e with Launched _ _ _ _ _ | StatusAsked _ | StopAsked _ => False | _ => True end.

Definition api_step (k : nat) w (e : api_event) : nat * world D :=
  match e with
  | Requested r => match serve r k w with (k, w, Some _) => (k, w) | (k, w, None) => (k, forget w) end
  | Background e => let '(k, w, _) := step k w e in (k, w)
  end.

Definition api_history (k : nat) w (es : list api_event) : nat * world D :=
  foldl (λ '(k, w) e, api_step k w e) (k, w) es.

Hypothesis profiles_keyed : plain_keyed c.

Lemma answer_sound {A} (f : A → answer) (m : prog (world D) (result svc_error A)) :
  keeps_sound m → keeps_sound (answer_with f m).
Proof using Type.
  intros Hm t0 w Hs. apply wp_try. eapply wp_mono; [by apply Hm|done|]. intros [a|x] w' Hs'; [by apply wp_done|done].
Qed.

Lemma lookup_sound runID : keeps_sound (lookupRun runID).
Proof using L. apply (keeps_handler runID). intros t0 w Hg. apply wp_lookupRun; [done|]. by intros res f Hg' _. Qed.

Lemma resume_sound principal key fp runID n : keeps_sound (ResumeRun principal key fp runID n).
Proof using Type.
  intros t0 w Hs. apply wp_try, wp_effect; [done|]. intros k. cbn [fst snd].
  destruct (lift_intent _) as [[i|]|x]; [|by apply wp_done|done]. by destruct (negb _); apply wp_done.
Qed.

Lemma invoke_sound id r cl :
  granted c re_compile (λ _ _, True) r id cl →
  keeps_sound (@invoke_launch D Eng Svc Rem (LogByteLimit c) container_logs collectFiles cl).
Proof using All.
  intros Hg. destruct Hg as [name key fp i p (_ & _ & Hp & _) Hkey|name i p _|name i p _| | | | | | | | |];
    cbn [invoke_launch]; try (apply answer_sound).
  - intros t0 w Hs. eapply wp_mono; [apply wp_LaunchProfile; [|done]|done|by intros a w' [? _]].
    destruct (profiles_keyed _ _ Hp) as [_ Hk]. by apply Hkey.
  - intros t0 w Hs k. unfold DryRunLaunch, andThen, select. destruct (selectLaunchTemplate _ _ _ _ _ _ _) as [[[[[? ?] ?] ?] ?]|]; [|done].
    unfold clock. by destruct (validateTaskContract _ _).
  - intros t0 w Hs k. unfold PreviewLaunch, andThen, select. destruct (selectLaunchTemplate _ _ _ _ _ _ _) as [[[[[? ?] ?] ?] ?]|]; [|done].
    unfold clock. cbv zeta. by destruct (validateTaskContract _ _).
  - intros t0 w Hs. by apply wp_andThen, wp_peek, wp_done.
  - apply status_sound.
  - intros t0 w Hs. apply wp_try. eapply wp_mono; [by apply lookup_sound|done|]. intros [a|x] w' Hs'; [by apply wp_done|done].
  - intros t0 w Hs. apply wp_try. eapply wp_mono; [by apply lookup_sound|done|]. intros [a|x] w' Hs'; [|done].
    destruct (negb _); [by apply wp_done|]. by apply wp_effect.
  - intros t0 w Hs. apply wp_try. eapply wp_mono; [by apply lookup_sound|done|]. intros [a|x] w' Hs'; [by apply wp_done|done].
  - intros t0 w Hs. apply wp_try. eapply wp_mono; [by apply lookup_sound|done|]. intros [a|x] w' Hs'; [by apply wp_done|done].
  - apply stop_sound.
  - apply cleanup_keeps.
  - apply resume_sound.
Qed.

Lemma request_sound r : keeps_sound (serve r).
Proof using All.
  intros t0 w Hs. eapply wp_mono with (Q := answered sha256_hex principals (sound t0) r).
  - apply (@serve_gated (world D) service c re_compile sha256_hex principals (λ _ _, True) (sound t0) r); [..|done].
    + intros id w' Hs'. eapply wp_mono; [by apply lookup_sound|done|]. done.
    + intros id cl w' _ Hg Hs'. by eapply invoke_sound.
    + intros rest w' _ Hs'. by apply wp_done.
  - done.
  - by intros a w' [? _].
Qed.

Lemma api_step_sound t0 k w e :
  (∀ ev, e = Background ev → in_background ev) → sound t0 w → sound t0 (api_step k w e).2.
Proof using All.
  intros Hb Hs. destruct e as [r|e]; cbn [api_step].
  - pose proof (request_sound r t0 w Hs k) as H. destruct (serve r k w) as [[k' w'] [a|]]; [done|]. by apply forget_sound.
  - assert (keyed e) as Hk by (specialize (Hb e eq_refl); by destruct e).
    pose proof (handle_sound t0 e w Hk Hs k) as H. unfold step.
    destruct (handle e k w) as [[k' w'] [a|]]; [by destruct H|]. by apply forget_sound.
Qed.

Lemma api_history_base k w es :
  Base w → (∀ ev, Background ev ∈ es → in_background ev) → Base (api_history k w es).2.
Proof using All.
  unfold api_history. revert k w. induction es as [|e es IH]; intros k w Hw Hb; [done|]. cbn [foldl].
  assert (sound (w_intents w) (api_step k w e).2) as [Hw' _].
  { apply api_step_sound; [|split; [done|apply rows_le_refl]]. intros ev ->. apply Hb. by left. }
  destruct (api_step k w e) as [k' w']. apply IH; [done|]. intros ev Hev. apply Hb. by right.
Qed.
End Requests.

(** ** Properties *)

(** C15: in a deployment whose profiles all launch plain runs (none has a Codex
    workflow) and all require an Idempotency-Key, from an empty state and over
    every history of HTTP requests, whoever sends them and whatever they say, of
    firing watchers, deaths and restarts, no container is started twice and no
    profile has more unfinished launches than it allows. *)
Theorem requests_start_once {D} `{Eng : DockerEngine D} `{Svc : Service} `{L : !DockerLaws parse_time} `{Rem : Removals}
    (c : config) (regexps : string → option (string → bool)) principals releases container_logs collectFiles
    es k w :
  plain_keyed c →
  (∀ ev, Background ev ∈ es → in_background ev) →
  fresh w →
  let w' := (api_history c regexps principals releases container_logs collectFiles k w es).2 in
  (∀ container, (d_starts (w_engine w') container ≤ 1)%nat) ∧
  (∀ profile max, MaxConcurrentRuns cfg !! profile = Some max → 0 < max →
     Z.of_nat (count_active profile (w_intents w')) ≤ max).
Proof.
  intros Hkeyed Hb Hf. cbv zeta.
  destruct (api_history_base c regexps principals releases container_logs collectFiles
              Hkeyed k w es (fresh_base w Hf) Hb). done.
Qed.

Definition builder_profile : LaunchProfile :=
  {| lp_input := sample_input; AllowOverrides := ["max_runtime_seconds"];
     lp_Parameters := {["work_item_id" :=
       {| Type_ := "string"; Required := true; Default := VNull; Min := None; Max := None; MaxLength := 32; MaxItems := 0;
          Pattern := "" |}]};
     lp_MaxConcurrentRuns := 2; RequireIdempotencyKey := true; lp_Codex := None |}.

Definition builder_config : config :=
  {| Listen := ""; MCPPath := ""; AuthToken := ""; AuthTokenEnv := ""; c_RunsDir := "/runs"; LaunchIntentStore := "";
     ReleaseStore := ""; CapabilityStore := ""; CapabilityAPIToken := ""; CapabilityAPITokenEnv := "";
     c_BrokerURL := ""; Production := false; c_Repositories := []; c_Networks := ∅; c_Bundles := ∅; c_Templates := ∅;
     LaunchProfiles := {["builder" := builder_profile]}; ModelPolicies := ∅;
     CodexHolder := {| MasterAuthPath := ""; IssuanceRoot := "" |}; OperatorPrincipals := ∅; AgentReleasePolicies := ∅;
     c_MaxTaskBytes := 0; MaxParameterBytes := 0; SandboxConfig.LogByteLimit := 0; TerminalResultByteLimit := 0;
     ReleaseArtifactByteLimit := 0; StopGrace := 0; c_ConfigVersion := "" |}.

Definition launch_request (work_item : string) : api_request :=
  {| q_Method := "POST"; q_Path := "/v1/launch-profiles/builder/launch"; q_SandboxToken := "t1"; q_Authorization := "";
     q_IdempotencyKey := ["key-1"]; q_MaxBytes := "";
     q_Body := {| a_Empty := false;
                  a_Launch := Json {| b_fields := {["max_runtime_seconds" := RInt 60]};
                                      b_parameters := Some (Some {["work_item_id" := VString work_item]});
                                      b_overrides := None |};
                  a_Canonical := Some work_item; a_Object := ∅ |} |}.

Definition launch_principals : list (string * OperatorPrincipal) := [("ops", operator "t1" "owned" ["launch"; "stop"])].

(** The process dies while the container starts; the launch is asked for again,
    and once more for another work item. *)
Definition sample_requests : list api_event :=
  [Requested (launch_request "issue-7"); Background Restarted; Requested (launch_request "issue-7");
   Requested (launch_request "issue-8")].

Definition sample_api : nat * world sim :=
  @api_history sim sim_engine (dying_at 9) sim_removals builder_config (λ _, None) launch_principals
    (λ _ _, {| status := 404; reply := "" |}) (λ _ _, Err EFile) (λ _ _, Err EFile)
    0%nat empty_world sample_requests.

Lemma requests_start_once_witness :
  starts_of sample_api.2 = [1%nat] ∧
  (∀ container, (sim_starts (w_engine sample_api.2) container ≤ 1)%nat) ∧
  Z.of_nat (count_active "builder" (w_intents sample_api.2)) ≤ 2.
Proof.
  split; [vm_compute; reflexivity|].
  assert (plain_keyed builder_config) as Hkeyed.
  { intros name p Hp. cbn in Hp. apply lookup_singleton_Some in Hp as [_ <-]. split; reflexivity. }
  assert (∀ ev, Background ev ∈ sample_requests → in_background ev) as Hb.
  { intros ev Hin. unfold sample_requests in Hin. rewrite !elem_of_cons, elem_of_nil in Hin.
    destruct Hin as [?|[[= ->]|[?|[?|[]]]]]; [discriminate|exact Logic.I|discriminate|discriminate]. }
  destruct (@requests_start_once sim sim_engine (dying_at 9) sim_laws sim_removals builder_config (λ _, None) launch_principals
              (λ _ _, {| status := 404; reply := "" |}) (λ _ _, Err EFile) (λ _ _, Err EFile)
              sample_requests 0%nat empty_world Hkeyed Hb empty_fresh) as [H1 H2].
  split; [exact H1|]. apply (H2 "builder" 2); [vm_compute; reflexivity|lia].
Defined.

(** A preview leaves the verification task out of the contract it shows, and of
    the contract whose size it checks. *)
Definition long_verification : LaunchAgentInput :=
  {| in_Template := "worker"; in_Task := "fix it";
     in_VerificationTask := String.string_of_list_ascii (replicate 4000 "v"%char); in_Repo := "octo/app";
     in_BaseBranch := "main"; in_Branch := ""; in_MaxRuntimeMinutes := 0; in_MaxRuntimeSeconds := 0;
     in_Deliverables := []; in_Focus := ""; in_Parameters := ∅; in_Profile := "builder"; in_WorkItem := "issue-7" |}.

Example preview_without_verification :
  let answered {A} (r : nat * world sim * option (result svc_error A)) :=
    match r.2 with Some (Ok _) => true | _ => false end in
  answered (@PreviewLaunch sim steady long_verification 0%nat empty_world) = true ∧
  answered (@DryRunLaunch sim steady long_verification 0%nat empty_world) = false.
Proof. vm_compute. split; reflexivity. Qed.
